(* ===== verification/_CoqProject ===== *)
-Q . S2P
Prelude.v
Uint256.v
Serialize.v
BigNum.v
Tx.v
Merkle.v
Script.v
Interp.v
InterpFacts.v
InterpRun.v
Standard.v
Consensus.v
Ledger.v
Mempool.v
MempoolFacts.v
Kernel.v
BlockTree.v
BestChain.v
BestChainFacts.v
Checkpoints.v
Accept.v
AcceptFacts.v
Base58.v
Containers.v
NetAddr.v
AddrMan.v
AddrManFacts.v
Bloom.v
BloomFacts.v
CoinSelect.v
Miner.v
MinerFacts.v
Util.v
Peers.v
Alert.v
Payment.v
Stake.v
Catalogue.v
CatalogueKa.v
CatalogueJa.v
CatalogueZhCN.v
Locale.v
