(* ===== verification/Prelude.v ===== *)
(** * MotaCoin: a verification of the node

    MotaCoin is a hybrid proof-of-work and proof-of-stake coin in C++ (the files
    named here are under src/src).  A node keeps a chain of blocks: it reads blocks
    and transactions in a binary format, checks their form, evaluates the scripts
    that lock outputs, records in a transaction index which outputs are spent, and
    follows the chain with the most trust.  Around that core it remembers other nodes,
    filters what it sends to light clients, chooses coins for payments, mints blocks
    with the coins of its wallet and writes addresses as text.  This library models these parts and proves what makes
    them correct.  Definitions keep the names of the code.

    ** Files

    - [Prelude]: shared lemmas on lists, options and machine integers; tactics.
    - [Uint256] (uint256.h): [base_uint] as a list of 32-bit words, its operators,
      comparisons, hexadecimal and byte forms.
    - [Serialize] (serialize.h): codecs as records of writer, reader and size with
      their law; CompactSize, VarInt, vectors; [CDataStream] as a buffer with a
      read position and its error states.
    - [BigNum] (bignum.h): [CBigNum] as [Z] over an interface to OpenSSL
      ([OpenSSL_BN] and its contract [OpenSSL_BN_ok]); compact targets.
    - [Tx] (main.h, util.h): transactions, blocks, disk positions, their formats,
      hashes and simple predicates.  Digests are the interface [Digests].
    - [Merkle] (main.h, main.cpp): Merkle trees, branches, partial Merkle trees.
    - [Script] (script.h, script.cpp): opcodes, element writing and reading,
      [FindAndDelete], scans, destination scripts.
    - [Interp] (script.cpp): [EvalScript] with every opcode as a step on a state
      record, [SignatureHash], the signature cache, [CheckSig], [VerifyScript].
      [InterpFacts] has the lemmas of each opcode, [InterpRun] the theorems.
    - [Standard] (script.cpp, keystore.cpp, keystore.h, main.cpp): [Solver] and its
      templates, destinations, ownership, the key store, signing.
    - [Consensus] (main.cpp, main.h, util.cpp): transaction checks, fees, rewards,
      block index records, difficulty and proof of work.
    - [Ledger] (main.cpp, main.h): the transaction index, [FetchInputs],
      [ConnectInputs], [CheckBlock], [ConnectBlock], [DisconnectBlock], coin age.
    - [Mempool] (main.cpp, main.h): [CTxMemPool], [accept], the orphan maps and the
      handler of an arriving transaction, which is written against the interface
      [Acceptance] that the pool implements.  [MempoolFacts] has its theorems.
    - [Kernel] (kernel.cpp, kernel.h): stake modifier and stake kernel.
    - [BlockTree] (main.h, main.cpp): the tree of block records with [pprev] and
      [pnext] as hashes, walks along it, [FindBlockByHeight], [CBlockLocator].
    - [BestChain] (main.cpp): [Reorganize], [SetBestChainInner], [SetBestChain] on the
      record of the chain's globals, over the interfaces [LedgerOps] and [PoolOps].
      [BestChainFacts] states what they rely on ([LedgerOps_ok], [PoolOps_ok]),
      proves the theorems against that, and shows that [Ledger] and [Mempool]
      implement it.
    - [Checkpoints] (checkpoints.cpp, checkpoints.h): hardened and synchronized
      checkpoints and their messages.
    - [Accept] (main.cpp): [AddToBlockIndex], [AcceptBlock], [ProcessBlock] and the
      orphan blocks, the last over the interface [BlockSink] that acceptance
      implements.  [AcceptFacts] has its theorems.
    - [Base58] (base58.h): Base58 with and without checksum over [BigNum], addresses
      of the destinations of [Script], secret keys.
    - [Containers] (mruset.h, limitedmap.h): the two bounded containers, a set with
      its queue and a map with its index by value.
    - [NetAddr] (netbase.cpp, netbase.h, protocol.h, util.cpp): network addresses as
      sixteen bytes, their ranges, networks and groups; [GetRand] and the interface
      [Random] that it implements on a tape of random words.
    - [AddrMan] (addrman.cpp, addrman.h): [CAddrMan] as a record of its indexes, each
      operation on it ([None] when an assertion fails) drawing from [Random], and its
      consistency check.  [AddrManFacts] has its invariant and theorems.
    - [Bloom] (bloom.cpp, bloom.h, hash.cpp, main.cpp, net.cpp): MurmurHash3,
      [CBloomFilter], [CMerkleBlock] over [Merkle], the filter messages of a peer.
      [BloomFacts] has its theorems.
    - [CoinSelect] (wallet.cpp, wallet.h, coincontrol.h): the coins a wallet can spend
      and the choice among them, for any shuffle and any random bits.
    - [Miner] (miner.cpp, main.cpp, util.h): [CreateNewBlock] with its priority queue
      over the interface [Heap], [IncrementExtraNonce], [CheckWork], [CheckStake] and
      the buffers of getwork.  [MinerFacts] has its theorems.
    - [Util] (util.cpp, util.h): hexadecimal, Base64 and Base32 as loops over the bits
      left, amounts of money as text, splitting and masks.
    - [Peers] (util.h, util.cpp, net.cpp): the median filter, the offset of the
      network's time, the misbehaviour score of a peer and the bans.
    - [Alert] (alert.cpp, alert.h, main.cpp): alerts, their map, [ProcessAlert], the
      handler of the message on the list of peers of which the sender is one, and
      [GetWarnings].  It uses [Util] for the key and [Peers] for time and bans.
    - [Payment] (wallet.cpp): [CreateTransaction] over the interface [Selector] to the
      choice of coins, which [CoinSelect] implements, and over [Standard] to sign.
    - [Stake] (wallet.cpp, main.cpp): [CreateCoinStake] and [SignBlock], over [Kernel] for
      the search, [CoinSelect] for the coins, [Payment] to sign and [Ledger] for the
      checks the block must pass.
    - [Catalogue] (qt/locale): the format of the translation catalogues as data;
      [CatalogueKa], [CatalogueJa] and [CatalogueZhCN] are bitcoin_ka.ts,
      bitcoin_ja.ts and bitcoin_zh_CN.ts entry by entry, each context a definition
      (a long one in parts), with every source text, comment, location, plural
      form and unfinished mark.
    - [Locale] (qt/bitcoin.cpp, qt/bitcoin_locale.qrc, ui_interface.h): the translators
      installed for a locale out of the program's 39 catalogues, [Translate] and [_], over
      an interface to Qt's translators.

    ** How the code is represented

    Machine integers are [Z] with the wrap-around written out ([u8], [u32], [s64],
    ...); bytes are [Z] in the range of a byte; maps and sets are [gmap] and
    [gset].  A pointer into the chain of block records is the list of the block
    and its ancestors.  [return false] and exceptions are [option], [verdict] or
    [res] (which keeps the misbehaviour score).  State that a callback carries (the
    signature cache) is a type parameter threaded through the interpreter.  The
    digests, OpenSSL's numbers, ECDSA, the Mersenne twister, the clock and the
    block files are parameters; the theorems that need more than their types name
    the documented contract as a class, and each class has a concrete instance.

    Doubles in consensus constants ([2.3 * COIN]) are evaluated with the rounding of
    IEEE binary64; the priorities of the miner are the binary64 numbers of the
    Standard Library's [SpecFloat].  Where the C++ library leaves a choice, as
    [std::pop_heap] does among equals, the theorems hold for every choice ([Heap]
    and [HeapLaws]).

    ** Fuel

    [EvalScript] and the script scans take the length of the script (each step reads
    at least one byte); [FindAndDelete], [Solver] and the partial Merkle tree take
    the length of their input or the height of the tree; [ComputeMaxBits] one step
    per day; [remove] with dependents takes the size of the pool, the queue of an
    arriving transaction and the limit of the orphans their number, each plus one;
    walks along the block tree take its size, the queue of orphan blocks their
    number plus one; the miner's queue its length; the Base58 encoder and decimal
    printing the bits of the number, hexadecimal parsing the length of the text; the
    loop of [CreateTransaction] 101 rounds, since each raises the fee by the price of a
    thousand bytes and the size is limited; the shrinking of a container its size, the shuffles of the address manager the counts of the code.
    The loop of [GetRand] ends when a word is accepted: its fuel of 64 words is enough
    on a tape with a word below 2^63 among any 64 in a row ([GetRand_accepts]).
    Each theorem about such a function is about the function with that
    fuel, so running out is excluded and not assumed away.

    ** What the theorems show

    - Ledger: a connected block can be undone exactly; no output is spent twice;
      the money supply grows by at most the subsidy.
    - Interpreter: stack limits, the shape of scripts that run, multisignature
      matching, the two standard payment forms, transparency of the signature
      cache, what a signature commits to, strict signature encoding.
    - Consensus: [CheckTransaction] accepts the well-formed transactions; targets
      are in range and follow the moving average; total issue; stake reward.
    - Memory pool: its two maps agree and it has no conflicts after any sequence of
      operations; acceptance returns and adds exactly one transaction; removal takes
      out what depends on it; the arrival of a transaction ends and relays once.
    - Best chain: moving to another chain is all or nothing, and the database is then
      the replay of the chain's blocks; adding a block keeps that; the processing of
      a block ends and tries, once each, exactly the orphans that waited for what was
      accepted; a reorganization leaves no conflicts in the pool; locators find the
      common part of two chains.
    - Checkpoints: the synchronized checkpoint moves only to signed descendants, and with
      the program's empty master key not at all; [CheckSync] decides descent from it.
    - Stake: when the next modifier is a new one, and which block gives each of its bits;
      selection takes the least hash; the target grows with value and weight; a block
      the wallet mints passes the checks of a staked block, its coinstake those of the
      kernel, and it pays exactly the reward; how far its time can drift.
    - Translations: the three catalogues agree message by message, keep place markers and
      tags up to the exceptions named, and in the locales that use no other catalogue a
      translated format string asks for the arguments of its source.
    - Address manager: its indexes stay consistent and its check succeeds after any
      operations; added addresses are found, good ones reach the tried table; the
      share of one network group is bounded; getaddr answers are bounded.
    - Bloom filters: nothing a peer sends makes the node crash; a filtered block has
      every transaction that concerns the filter's owner.
    - Miner: an assembled and solved block passes [ConnectBlock], by a simulation of
      the run on the miner's test pool by the run on the index; it keeps the limits
      and the order of fees; where the subsidy goes down [AcceptBlock] refuses it.
    - Wallet: coin selection succeeds exactly when it can and pays with distinct
      spendable coins; creating a payment ends, and what it creates balances, pays
      its fee and has input scripts that verify.
    - Alerts: the stored ones are signed and none cancels another; how the last alert
      holds and how it is overridden; what of an alert reaches the shell.
    - Peers: the time offset follows the majority of the samples within its limit,
      where the limit fails and when the offset freezes; bans are as the score says.
    - Texts: Base64, Base32 and hexadecimal round trips, the grammar of amounts, masks.
    - Base58 and containers: text round trips for bytes, addresses and keys; an
      [mruset] is a window of its insertions, a [limitedmap] evicts least values.
    - Standard scripts: what is written is recognised; what is signed verifies.
    - Merkle: branches and partial trees are complete; a partial tree with the right
      count and root reports only ids of the block, or the two lists of node pairs that
      were hashed, on the wire and in the block, hold an explicit collision.
    - Formats and numbers: round trips, exact arithmetic, compact targets.

    ** Not modelled

    Sockets, message framing and the handlers of the remaining messages, RPC, the
    graphical interface, threads and locks, logging and the parsing of arguments, the
    LevelDB and Berkeley DB layers, the key pool, the vendored hash functions,
    printing, the thread of the stake miner: input and output, or wrappers of
    libraries whose code is not here.  The choice by chance of [GetChance] and
    [Select_] and the sizing of a Bloom filter compute with doubles and change no
    state.  In [CreateTransaction] the priority, which is computed and not used, and
    the copies of supporting transactions are left out. *)

From Stdlib Require Export ZArith Lia.
From stdpp Require Export base list numbers option gmap.

#[global] Open Scope Z_scope.

(** ** Tactics *)

(** Case on the discriminee of a match or if of the goal. *)
Ltac dmatch :=
  match goal with
  | |- context [match ?x with _ => _ end] =>
      lazymatch x with
      | context [match _ with _ => _ end] => fail
      | _ => destruct x eqn:?
      end
  end.

(** Case on the discriminee of a match or if of a hypothesis. *)
Ltac dmatch_in H :=
  match type of H with
  | context [match ?x with _ => _ end] =>
      lazymatch x with
      | context [match _ with _ => _ end] => fail
      | _ => destruct x eqn:?
      end
  end.

(** Split the conjunctions written in the goal, without unfolding. *)
Ltac conjs := repeat match goal with |- _ /\ _ => split end.

(** Turn the boolean tests in the context into propositions. *)
Ltac bprop :=
  repeat match goal with
  | H : (_ && _)%bool = true |- _ => apply andb_true_iff in H as [? ?]
  | H : (_ && _)%bool = false |- _ => apply andb_false_iff in H
  | H : (_ || _)%bool = false |- _ => apply orb_false_iff in H as [? ?]
  | H : (_ || _)%bool = true |- _ => apply orb_true_iff in H
  | H : negb _ = true |- _ => apply negb_true_iff in H
  | H : negb _ = false |- _ => apply negb_false_iff in H
  | H : (_ =? _) = true |- _ => apply Z.eqb_eq in H
  | H : (_ =? _) = false |- _ => apply Z.eqb_neq in H
  | H : (_ <? _) = true |- _ => apply Z.ltb_lt in H
  | H : (_ <? _) = false |- _ => apply Z.ltb_ge in H
  | H : (_ <=? _) = true |- _ => apply Z.leb_le in H
  | H : (_ <=? _) = false |- _ => apply Z.leb_gt in H
  | H : (_ =? _)%nat = true |- _ => apply Nat.eqb_eq in H
  | H : (_ =? _)%nat = false |- _ => apply Nat.eqb_neq in H
  | H : (_ <? _)%nat = true |- _ => apply Nat.ltb_lt in H
  | H : (_ <? _)%nat = false |- _ => apply Nat.ltb_ge in H
  | H : (_ <=? _)%nat = true |- _ => apply Nat.leb_le in H
  | H : (_ <=? _)%nat = false |- _ => apply Nat.leb_gt in H
  | H : bool_decide _ = true |- _ => apply bool_decide_eq_true in H
  | H : bool_decide _ = false |- _ => apply bool_decide_eq_false in H
  end.

Create HintDb mota.
#[export] Hint Constants Transparent : mota.
Create Rewrite HintDb mota.

(** ** Machine integers

    A C++ integer of [w] bits is a [Z]; the conversions below are the
    wrap-around the language performs on assignment.  The platform is the
    one the program is released for: 32-bit [int], 64-bit [long] and
    little-endian storage. *)

Definition u8 (z : Z) : Z := z mod 2 ^ 8.
Definition u16 (z : Z) : Z := z mod 2 ^ 16.
Definition u32 (z : Z) : Z := z mod 2 ^ 32.
Definition u64 (z : Z) : Z := z mod 2 ^ 64.
Definition s8 (z : Z) : Z := (z + 2 ^ 7) mod 2 ^ 8 - 2 ^ 7.
Definition s32 (z : Z) : Z := (z + 2 ^ 31) mod 2 ^ 32 - 2 ^ 31.
Definition s64 (z : Z) : Z := (z + 2 ^ 63) mod 2 ^ 64 - 2 ^ 63.

Lemma u32_small z : 0 <= z < 2 ^ 32 -> u32 z = z.
Proof. apply Z.mod_small. Qed.

Lemma u64_small z : 0 <= z < 2 ^ 64 -> u64 z = z.
Proof. apply Z.mod_small. Qed.

Lemma s32_small z : - 2 ^ 31 <= z < 2 ^ 31 -> s32 z = z.
Proof. intros. unfold s32. rewrite Z.mod_small; lia. Qed.

Lemma s64_small z : - 2 ^ 63 <= z < 2 ^ 63 -> s64 z = z.
Proof. intros. unfold s64. rewrite Z.mod_small; lia. Qed.

Lemma u32_range z : 0 <= u32 z < 2 ^ 32.
Proof. apply Z.mod_pos_bound. lia. Qed.

Lemma u64_range z : 0 <= u64 z < 2 ^ 64.
Proof. apply Z.mod_pos_bound. lia. Qed.

Lemma s32_range z : - 2 ^ 31 <= s32 z < 2 ^ 31.
Proof. unfold s32. pose proof (Z.mod_pos_bound (z + 2 ^ 31) (2 ^ 32)). lia. Qed.

Lemma s64_range z : - 2 ^ 63 <= s64 z < 2 ^ 63.
Proof. unfold s64. pose proof (Z.mod_pos_bound (z + 2 ^ 63) (2 ^ 64)). lia. Qed.

Lemma s32_u32 z : s32 (u32 z) = s32 z.
Proof. unfold s32, u32. by rewrite Zplus_mod_idemp_l. Qed.

Lemma s64_u64 z : s64 (u64 z) = s64 z.
Proof. unfold s64, u64. by rewrite Zplus_mod_idemp_l. Qed.

Lemma u32_s32 z : u32 (s32 z) = u32 z.
Proof.
  unfold s32, u32. rewrite Zminus_mod_idemp_l. f_equal. lia.
Qed.

#[export] Hint Resolve u32_range u64_range s32_range s64_range : mota.

(** ** Bit facts *)

Lemma land_ones_mod z n : 0 <= n -> Z.land z (2 ^ n - 1) = z mod 2 ^ n.
Proof.
  intros. rewrite <- Z.land_ones by lia. f_equal. rewrite Z.ones_equiv. lia.
Qed.

(** An or of a low part and a part above it is a sum. *)
Lemma lor_disjoint a b n :
  0 <= n -> 0 <= a < 2 ^ n -> Z.lor a (b * 2 ^ n) = a + b * 2 ^ n.
Proof.
  intros Hn Ha. symmetry. apply Z.add_nocarry_lor.
  apply Z.bits_inj'. intros i Hi. rewrite Z.land_spec, Z.bits_0.
  destruct (Z.lt_ge_cases i n).
  - rewrite Z.mul_pow2_bits_low by lia. apply andb_false_r.
  - destruct (decide (a = 0)) as [->|]; [by rewrite Z.bits_0|].
    rewrite (Z.bits_above_log2 a i); [done | lia |].
    apply Z.lt_le_trans with n; [apply Z.log2_lt_pow2; lia | lia].
Qed.

(** A sum of a low part and a part above it splits by division. *)
Lemma divmod_split B q r : 0 < B -> 0 <= r < B ->
  (r + B * q) mod B = r /\ (r + B * q) / B = q.
Proof.
  intros. split.
  - rewrite Z.mul_comm, Z_mod_plus_full. by apply Z.mod_small.
  - rewrite Z.mul_comm, Z.div_add by lia. rewrite Z.div_small; lia.
Qed.

(** ** Positional notation

    Fixed-width little-endian digits in base [B]: bytes of an integer in
    memory ([B] = 256), words of a [base_uint] ([B] = 2^32). *)

Fixpoint digits (B : Z) (n : nat) (z : Z) : list Z :=
  match n with
  | O => []
  | S n => z mod B :: digits B n (z / B)
  end.

Fixpoint undigits (B : Z) (l : list Z) : Z :=
  match l with
  | [] => 0
  | d :: l => d + B * undigits B l
  end.

(** Every element is a digit of base [B]. *)
Definition digits_ok (B : Z) (l : list Z) : Prop := Forall (fun d => 0 <= d < B) l.

Section Digits.
Context (B : Z) (HB : 1 < B).

Lemma length_digits n z : length (digits B n z) = n.
Proof. revert z. induction n; intros; simpl; auto. Qed.

Lemma digits_are_ok n z : digits_ok B (digits B n z).
Proof.
  revert z. induction n; intros; simpl; constructor; [|apply IHn].
  apply Z.mod_pos_bound. lia.
Qed.

Lemma undigits_digits n z : undigits B (digits B n z) = z mod B ^ Z.of_nat n.
Proof.
  revert z. induction n; intros z.
  - simpl. by rewrite Z.mod_1_r.
  - rewrite Nat2Z.inj_succ, Z.pow_succ_r by lia. simpl. rewrite IHn.
    rewrite Z.rem_mul_r by (try apply Z.pow_nonzero; try apply Z.pow_pos_nonneg; lia).
    reflexivity.
Qed.

Lemma undigits_nonneg l : digits_ok B l -> 0 <= undigits B l.
Proof. induction 1; simpl; [lia|]. nia. Qed.

Lemma undigits_bound l : digits_ok B l -> 0 <= undigits B l < B ^ Z.of_nat (length l).
Proof.
  induction 1 as [|d l Hd Hl IH]; cbn [length undigits].
  - rewrite Z.pow_0_r. lia.
  - rewrite Nat2Z.inj_succ, Z.pow_succ_r by lia. nia.
Qed.

Lemma digits_undigits l : digits_ok B l -> digits B (length l) (undigits B l) = l.
Proof.
  induction 1 as [|d l Hd Hl IH]; simpl; [done|].
  destruct (divmod_split B (undigits B l) d) as [-> ->]; [lia..|]. by rewrite IH.
Qed.

Lemma undigits_inj l1 l2 :
  digits_ok B l1 -> digits_ok B l2 -> length l1 = length l2 ->
  undigits B l1 = undigits B l2 -> l1 = l2.
Proof.
  intros H1 H2 Hl He. rewrite <- (digits_undigits l1), <- (digits_undigits l2) by done.
  by rewrite Hl, He.
Qed.

Lemma undigits_app l1 l2 :
  undigits B (l1 ++ l2) = undigits B l1 + B ^ Z.of_nat (length l1) * undigits B l2.
Proof.
  induction l1 as [|d l1 IH]; cbn [length undigits app].
  - rewrite Z.pow_0_r. lia.
  - rewrite IH, Nat2Z.inj_succ, Z.pow_succ_r by lia. lia.
Qed.

Lemma undigits_zeros n : undigits B (replicate n 0) = 0.
Proof. induction n; simpl; lia. Qed.

Lemma digits_ok_app l1 l2 : digits_ok B (l1 ++ l2) <-> digits_ok B l1 /\ digits_ok B l2.
Proof. apply Forall_app. Qed.

Lemma digits_ok_one d : 0 <= d < B -> digits_ok B [d].
Proof. intros. by apply Forall_singleton. Qed.

Lemma digits_ok_rev l : digits_ok B l -> digits_ok B (reverse l).
Proof. apply Forall_reverse. Qed.

Lemma digits_mod n z : digits B n (z mod B ^ Z.of_nat n) = digits B n z.
Proof.
  apply undigits_inj; [apply digits_are_ok..| |].
  - by rewrite !length_digits.
  - rewrite !undigits_digits. apply Zmod_mod.
Qed.
End Digits.

(** ** Bytes *)

(** An [unsigned char] is a [Z] below 256. *)
Abbreviation is_byte b := (0 <= b < 256).
Abbreviation bytes_ok := (digits_ok 256).

(** The [n] bytes of an integer in memory order, and back. *)
Abbreviation le_bytes := (digits 256).
Abbreviation le_val := (undigits 256).

Lemma le_val_bytes n z : le_val (le_bytes n z) = z mod 256 ^ Z.of_nat n.
Proof. apply undigits_digits. lia. Qed.

Lemma le_bytes_val l : bytes_ok l -> le_bytes (length l) (le_val l) = l.
Proof. apply digits_undigits. lia. Qed.

Lemma le_bytes_ok n z : bytes_ok (le_bytes n z).
Proof. apply digits_are_ok. lia. Qed.

Lemma length_le_bytes n z : length (le_bytes n z) = n.
Proof. apply length_digits. Qed.

#[export] Hint Resolve le_bytes_ok : mota.
#[export] Hint Rewrite length_le_bytes : mota.

(** Decidable check used by concrete examples. *)
Definition bytes_okb (l : list Z) : bool := forallb (fun b => (0 <=? b) && (b <? 256))%bool l.

Lemma bytes_okb_spec l : bytes_okb l = true -> bytes_ok l.
Proof.
  unfold bytes_okb. intros H. apply Forall_forall. intros x Hx.
  rewrite forallb_forall in H. specialize (H x). rewrite <- list_elem_of_In in H.
  specialize (H Hx). bprop. lia.
Qed.

(** ** Lists *)

(** [drop]/[take] at a cut that is exactly the length of a prefix. *)
Lemma take_app_exact {A} (l k : list A) n : n = length l -> take n (l ++ k) = l.
Proof. intros ->. apply take_app_length. Qed.

Lemma drop_app_exact {A} (l k : list A) n : n = length l -> drop n (l ++ k) = k.
Proof. intros ->. apply drop_app_length. Qed.

Lemma Forall_take_drop {A} (P : A -> Prop) n l :
  Forall P l -> Forall P (take n l) /\ Forall P (drop n l).
Proof. intros. split; [by apply Forall_take | by apply Forall_drop]. Qed.

(** The sum of a list of amounts. *)
Definition sumZ (l : list Z) : Z := fold_right Z.add 0 l.

Lemma sumZ_app l k : sumZ (l ++ k) = sumZ l + sumZ k.
Proof. induction l; simpl; lia. Qed.

Lemma sumZ_nonneg l : Forall (fun x => 0 <= x) l -> 0 <= sumZ l.
Proof. induction 1; simpl; lia. Qed.
