(* ===== verification/Uint256.v ===== *)
(** * Fixed-width unsigned integers (src/src/uint256.h)

    [base_uint<BITS>] is an array [pn] of WIDTH = BITS/32 words, least
    significant first.  Every operator of the class template is written here
    word by word, as the loops of the header are, for an arbitrary WIDTH (the
    header instantiates it at 5, 8 and 16).  The theorems relate each operator
    to arithmetic on the number the words stand for, [uval]. *)

From S2P Require Import Prelude.

Abbreviation base_uint := (list Z).

Abbreviation W32 := (2 ^ 32).

(** The number an array of words stands for. *)
Definition uval (pn : base_uint) : Z := undigits W32 pn.

(** The representation invariant of [base_uint<32 * WIDTH>]. *)
Definition uint_ok (WIDTH : nat) (pn : base_uint) : Prop :=
  length pn = WIDTH /\ digits_ok W32 pn.

(** ** Operators *)

Definition op_not (pn : base_uint) : bool := forallb (fun w => w =? 0) pn.

Definition op_compl (pn : base_uint) : base_uint := map (fun w => u32 (Z.lnot w)) pn.

(** [++pn[i] == 0 && i < WIDTH-1]: the carry stops at the first word that
    does not wrap to zero. *)
Fixpoint op_incr (pn : base_uint) : base_uint :=
  match pn with
  | [] => []
  | w :: rest =>
      let w' := u32 (w + 1) in
      if (w' =? 0) then w' :: op_incr rest else w' :: rest
  end.

(** [--pn[i] == -1]: the comparison converts -1 to the largest word. *)
Fixpoint op_decr (pn : base_uint) : base_uint :=
  match pn with
  | [] => []
  | w :: rest =>
      let w' := u32 (w - 1) in
      if (w' =? u32 (-1)) then w' :: op_decr rest else w' :: rest
  end.

Definition op_neg (pn : base_uint) : base_uint := op_incr (op_compl pn).

(** Assignment from a [uint64_t]. *)
Definition of_uint64 (WIDTH : nat) (b : Z) : base_uint :=
  u32 b :: u32 (Z.shiftr b 32) :: replicate (WIDTH - 2) 0.

Definition op_xor (a b : base_uint) : base_uint := zip_with Z.lxor a b.
Definition op_and (a b : base_uint) : base_uint := zip_with Z.land a b.
Definition op_or (a b : base_uint) : base_uint := zip_with Z.lor a b.

(** [^=] and [|=] with a [uint64_t] touch the two low words only. *)
Definition op_xor64 (pn : base_uint) (b : Z) : base_uint :=
  alter (fun w => Z.lxor w (u32 (Z.shiftr b 32))) 1%nat
    (alter (fun w => Z.lxor w (u32 b)) 0%nat pn).

Definition op_or64 (pn : base_uint) (b : Z) : base_uint :=
  alter (fun w => Z.lor w (u32 (Z.shiftr b 32))) 1%nat
    (alter (fun w => Z.lor w (u32 b)) 0%nat pn).

(** One round of the loop of [operator<<=]: two guarded or-assignments into
    the zeroed array. *)
Definition shl_step (WIDTH : nat) (a : base_uint) (k : nat) (shift : Z)
    (pn : base_uint) (i : nat) : base_uint :=
  let pn1 := if (bool_decide (i + k + 1 < WIDTH)%nat && negb (shift =? 0))%bool
             then alter (fun w => Z.lor w (Z.shiftr (nth i a 0) (32 - shift))) (i + k + 1)%nat pn
             else pn in
  if bool_decide (i + k < WIDTH)%nat
  then alter (fun w => Z.lor w (u32 (Z.shiftl (nth i a 0) shift))) (i + k)%nat pn1
  else pn1.

Definition op_shl (a : base_uint) (shift : Z) : base_uint :=
  let WIDTH := length a in
  fold_left (shl_step WIDTH a (Z.to_nat (shift / 32)) (shift mod 32))
    (seq 0 WIDTH) (replicate WIDTH 0).

Definition shr_step (WIDTH : nat) (a : base_uint) (k : nat) (shift : Z)
    (pn : base_uint) (i : nat) : base_uint :=
  let pn1 := if (bool_decide (k + 1 <= i)%nat && negb (shift =? 0))%bool
             then alter (fun w => Z.lor w (u32 (Z.shiftl (nth i a 0) (32 - shift)))) (i - k - 1)%nat pn
             else pn in
  if bool_decide (k <= i)%nat
  then alter (fun w => Z.lor w (Z.shiftr (nth i a 0) shift)) (i - k)%nat pn1
  else pn1.

Definition op_shr (a : base_uint) (shift : Z) : base_uint :=
  let WIDTH := length a in
  fold_left (shr_step WIDTH a (Z.to_nat (shift / 32)) (shift mod 32))
    (seq 0 WIDTH) (replicate WIDTH 0).

(** The carry loop of [operator+=], in 64-bit arithmetic. *)
Fixpoint add_loop (carry : Z) (a b : base_uint) : base_uint :=
  match a, b with
  | x :: a, y :: b =>
      let n := u64 (carry + x + y) in
      Z.land n 0xffffffff :: add_loop (Z.shiftr n 32) a b
  | _, _ => []
  end.

Definition op_add (a b : base_uint) : base_uint := add_loop 0 a b.
Definition op_sub (a b : base_uint) : base_uint := op_add a (op_neg b).
Definition op_add64 (a : base_uint) (b64 : Z) : base_uint := op_add a (of_uint64 (length a) b64).
Definition op_sub64 (a : base_uint) (b64 : Z) : base_uint :=
  op_add a (op_neg (of_uint64 (length a) b64)).

(** The comparison loops run from the most significant word down and differ
    in the answer they give when all words agree. *)
Fixpoint lt_loop (a b : list Z) (at_end : bool) : bool :=
  match a, b with
  | x :: a, y :: b => if x <? y then true else if y <? x then false else lt_loop a b at_end
  | _, _ => at_end
  end.

Definition op_lt (a b : base_uint) : bool := lt_loop (reverse a) (reverse b) false.
Definition op_le (a b : base_uint) : bool := lt_loop (reverse a) (reverse b) true.
Definition op_gt (a b : base_uint) : bool := lt_loop (reverse b) (reverse a) false.
Definition op_ge (a b : base_uint) : bool := lt_loop (reverse b) (reverse a) true.

Fixpoint op_eq (a b : base_uint) : bool :=
  match a, b with
  | x :: a, y :: b => if negb (x =? y) then false else op_eq a b
  | _, _ => true
  end.

Definition op_eq64 (a : base_uint) (b : Z) : bool :=
  if negb (nth 0 a 0 =? u32 b) then false
  else if negb (nth 1 a 0 =? u32 (Z.shiftr b 32)) then false
  else forallb (fun w => w =? 0) (drop 2 a).

Definition op_ne (a b : base_uint) : bool := negb (op_eq a b).
Definition op_ne64 (a : base_uint) (b : Z) : bool := negb (op_eq64 a b).

Definition Get64 (pn : base_uint) (n : nat) : Z :=
  Z.lor (nth (2 * n) pn 0) (u64 (Z.shiftl (nth (2 * n + 1) pn 0) 32)).

(** ** Memory image and hexadecimal strings *)

(** The bytes of the array as the casts to [unsigned char] read them. *)
Definition uint_bytes (pn : base_uint) : list Z := flat_map (le_bytes 4) pn.

(** Words of a memory image of a multiple of four bytes. *)
Fixpoint words_of_bytes (bs : list Z) : base_uint :=
  match bs with
  | b0 :: b1 :: b2 :: b3 :: bs => le_val [b0; b1; b2; b3] :: words_of_bytes bs
  | _ => []
  end.

(** The constructor from [std::vector<unsigned char>]: a vector of another
    size gives zero. *)
Definition uint_of_vch (WIDTH : nat) (vch : list Z) : base_uint :=
  if (length vch =? 4 * WIDTH)%nat then words_of_bytes vch else of_uint64 WIDTH 0.

(** [uint512::trim256]. *)
Definition trim256 (pn : base_uint) : base_uint := take 8 pn.

(** One digit of [sprintf("%02x")]. *)
Definition hexchar (n : Z) : Z := if n <? 10 then 48 + n else 87 + n.

Definition GetHex (pn : base_uint) : list Z :=
  flat_map (fun b => [hexchar (b / 16); hexchar (b mod 16)]) (reverse (uint_bytes pn)).

(** The table [phexdigit]. *)
Definition phexdigit (c : Z) : Z :=
  if ((48 <=? c) && (c <=? 57))%bool then c - 48
  else if ((65 <=? c) && (c <=? 70))%bool then c - 55
  else if ((97 <=? c) && (c <=? 102))%bool then c - 87
  else 0.

Definition is_space (c : Z) : bool := ((9 <=? c) && (c <=? 13) || (c =? 32))%bool.

Definition is_hexdigit (c : Z) : bool := (negb (phexdigit c =? 0) || (c =? 48))%bool.

Fixpoint drop_while (f : Z -> bool) (s : list Z) : list Z :=
  match s with
  | c :: s' => if f c then drop_while f s' else s
  | [] => []
  end.

Fixpoint take_while (f : Z -> bool) (s : list Z) : list Z :=
  match s with
  | c :: s' => if f c then c :: take_while f s' else []
  | [] => []
  end.

(** [psz[0] == '0' && tolower(psz[1]) == 'x'] *)
Definition skip_0x (s : list Z) : list Z :=
  match s with
  | c0 :: c1 :: s' => if ((c0 =? 48) && ((c1 =? 120) || (c1 =? 88)))%bool then s' else s
  | _ => s
  end.

(** The loop from the last digit back to the first: two digits a byte, until
    the array of [n] bytes is full; the bytes not reached stay zero. *)
Fixpoint fill_bytes (n : nat) (ds : list Z) : list Z :=
  match n with
  | O => []
  | S n =>
      match ds with
      | lo :: hi :: ds => Z.lor (phexdigit lo) (Z.shiftl (phexdigit hi) 4) :: fill_bytes n ds
      | [lo] => phexdigit lo :: replicate n 0
      | [] => replicate (S n) 0
      end
  end.

(** A C string is the list of its characters before the terminating NUL. *)
Definition SetHex (WIDTH : nat) (psz : list Z) : base_uint :=
  let s := skip_0x (drop_while is_space psz) in
  words_of_bytes (fill_bytes (4 * WIDTH) (reverse (take_while is_hexdigit s))).

(** ** Words and bits *)

Section Words.
Context (WIDTH : nat).

Lemma uval_range pn : uint_ok WIDTH pn -> 0 <= uval pn < W32 ^ Z.of_nat WIDTH.
Proof. intros [<- H]. apply undigits_bound; [lia | done]. Qed.

(** Two well-formed arrays of one width are equal when their numbers are. *)
Lemma uval_inj a b : uint_ok WIDTH a -> uint_ok WIDTH b -> uval a = uval b -> a = b.
Proof. intros [Ha ?] [Hb ?]. apply undigits_inj; [lia|done..|congruence]. Qed.
End Words.

(** Bit [i] of the number is bit [i mod 32] of word [i / 32]. *)
Lemma uval_testbit pn i : digits_ok W32 pn -> 0 <= i ->
  Z.testbit (uval pn) i = Z.testbit (nth (Z.to_nat (i / 32)) pn 0) (i mod 32).
Proof.
  unfold uval. intros H. revert i. induction H as [|w l Hw Hl IH]; intros i Hi; simpl.
  - destruct (Z.to_nat (i / 32)); by rewrite !Z.bits_0.
  - rewrite (Z.mul_comm (4294967296)). change 4294967296 with W32 at 1.
    rewrite <- lor_disjoint, Z.lor_spec by lia.
    destruct (Z.lt_ge_cases i 32).
    + rewrite Z.div_small, Z.mod_small by lia. simpl.
      rewrite Z.mul_pow2_bits_low by lia. apply orb_false_r.
    + rewrite Z.mul_pow2_bits by lia. rewrite IH by lia.
      replace (i / 32) with (1 + (i - 32) / 32)
        by (rewrite <- (Z.div_add_l 1 32); [f_equal; lia | lia]).
      rewrite Z2Nat.inj_add by (try apply Z.div_pos; lia).
      replace ((i - 32) mod 32) with (i mod 32)
        by (rewrite <- (Z_mod_plus_full (i - 32) 1 32); f_equal; lia).
      cbn [Nat.add Z.to_nat Pos.to_nat Pos.iter_op]. simpl.
      rewrite <- (Z.mod_small w W32), Z.mod_pow2_bits_high by lia. done.
Qed.

(** ** Correctness of the operators *)

Lemma op_not_spec pn : digits_ok W32 pn -> op_not pn = true <-> uval pn = 0.
Proof.
  unfold op_not, uval. induction 1 as [|w l Hw Hl IH]; simpl; [done|].
  pose proof (undigits_nonneg W32 ltac:(lia) l Hl).
  rewrite andb_true_iff, Z.eqb_eq, IH. lia.
Qed.

Lemma u32_lnot w : 0 <= w < W32 -> u32 (Z.lnot w) = W32 - 1 - w.
Proof.
  intros. unfold u32, Z.lnot. rewrite <- (Z_mod_plus_full _ 1), Z.mod_small; lia.
Qed.

Lemma op_compl_ok W pn : uint_ok W pn -> uint_ok W (op_compl pn).
Proof.
  intros [<- H]. split; [apply length_map|].
  apply Forall_map. eapply Forall_impl; [exact H|]. intros. apply u32_range.
Qed.

Lemma op_compl_spec W pn : uint_ok W pn ->
  uval (op_compl pn) = W32 ^ Z.of_nat W - 1 - uval pn.
Proof.
  intros [<- H]. unfold uval. induction H as [|w l Hw Hl IH]; [done|].
  cbn [length op_compl map undigits]. fold (op_compl l).
  rewrite u32_lnot, IH, Nat2Z.inj_succ, Z.pow_succ_r by lia. lia.
Qed.

Lemma op_incr_ok W pn : uint_ok W pn -> uint_ok W (op_incr pn).
Proof.
  intros [<- H]. induction H as [|w l Hw Hl [IH1 IH2]]; [split; [done|constructor]|]. simpl.
  destruct (_ =? 0); split; simpl; try lia; constructor; auto; apply u32_range.
Qed.

Lemma op_incr_spec W pn : uint_ok W pn ->
  uval (op_incr pn) = (uval pn + 1) mod W32 ^ Z.of_nat W.
Proof.
  intros [<- H]. unfold uval. induction H as [|w l Hw Hl IH].
  { simpl. by rewrite Z.mod_1_r. }
  pose proof (undigits_bound W32 ltac:(lia) l Hl) as Hb.
  cbn [op_incr undigits length]. rewrite Nat2Z.inj_succ, Z.pow_succ_r by lia.
  set (P := W32 ^ Z.of_nat (length l)) in *.
  destruct (decide (w = W32 - 1)) as [->|Hne].
  - change (u32 (W32 - 1 + 1) =? 0) with true. cbn [undigits]. rewrite IH.
    change (u32 (W32 - 1 + 1)) with 0.
    replace (W32 - 1 + W32 * undigits W32 l + 1) with (W32 * (undigits W32 l + 1)) by lia.
    rewrite Z.mul_mod_distr_l by lia. lia.
  - rewrite u32_small by lia. destruct (Z.eqb_spec (w + 1) 0); [lia|].
    cbn [undigits]. rewrite Z.mod_small; nia.
Qed.

Lemma op_decr_ok W pn : uint_ok W pn -> uint_ok W (op_decr pn).
Proof.
  intros [<- H]. induction H as [|w l Hw Hl [IH1 IH2]]; [split; [done|constructor]|]. simpl.
  destruct (_ =? _); split; simpl; try lia; constructor; auto; apply u32_range.
Qed.

Lemma op_decr_spec W pn : uint_ok W pn ->
  uval (op_decr pn) = (uval pn - 1) mod W32 ^ Z.of_nat W.
Proof.
  intros [<- H]. unfold uval. induction H as [|w l Hw Hl IH].
  { simpl. by rewrite Z.mod_1_r. }
  pose proof (undigits_bound W32 ltac:(lia) l Hl) as Hb.
  cbn [op_decr undigits length]. rewrite Nat2Z.inj_succ, Z.pow_succ_r by lia.
  set (P := W32 ^ Z.of_nat (length l)) in *.
  destruct (decide (w = 0)) as [->|Hne].
  - change (u32 (0 - 1) =? u32 (-1)) with true. cbn [undigits]. rewrite IH.
    change (u32 (0 - 1)) with (W32 - 1).
    replace (0 + W32 * undigits W32 l - 1) with (W32 - 1 + W32 * (undigits W32 l - 1)) by lia.
    rewrite Z.rem_mul_r by lia.
    destruct (divmod_split W32 (undigits W32 l - 1) (W32 - 1)) as [-> ->]; [lia..|]. done.
  - rewrite u32_small by lia. change (u32 (-1)) with (W32 - 1).
    destruct (Z.eqb_spec (w - 1) (W32 - 1)); [lia|].
    cbn [undigits]. rewrite Z.mod_small; nia.
Qed.

Lemma op_neg_ok W pn : uint_ok W pn -> uint_ok W (op_neg pn).
Proof. intros. by apply op_incr_ok, op_compl_ok. Qed.

Lemma op_neg_spec W pn : uint_ok W pn -> uval (op_neg pn) = (- uval pn) mod W32 ^ Z.of_nat W.
Proof.
  intros H. unfold op_neg. rewrite (op_incr_spec W), (op_compl_spec W) by auto using op_compl_ok.
  rewrite <- (Z_mod_plus_full (- uval pn) 1). f_equal. lia.
Qed.

(** *** Addition and subtraction *)

Lemma add_loop_spec carry a b :
  digits_ok W32 a -> digits_ok W32 b -> length a = length b -> 0 <= carry <= 1 ->
  uint_ok (length a) (add_loop carry a b) /\
  uval (add_loop carry a b) = (carry + uval a + uval b) mod W32 ^ Z.of_nat (length a).
Proof.
  unfold uval. intros Ha. revert carry b.
  induction Ha as [|x a Hx Ha IH]; intros carry [|y b] Hb Hl Hc; try done.
  { simpl. rewrite Z.mod_1_r. split; [split; [done|constructor]|done]. }
  apply Forall_cons in Hb as [Hy Hb]. simpl in Hl. injection Hl as Hl.
  cbn [add_loop undigits]. rewrite u64_small by lia.
  change 0xffffffff with (2 ^ 32 - 1). rewrite land_ones_mod, Z.shiftr_div_pow2 by lia.
  set (n := carry + x + y). assert (Hn : 0 <= n / W32 <= 1).
  { split; [apply Z.div_pos; lia|]. enough (n / W32 < 2) by lia. apply Z.div_lt_upper_bound; lia. }
  destruct (IH (n / W32) b) as [[IHl IHok] IHv]; auto. split.
  - split; cbn [length]; [by rewrite IHl|]. constructor; [apply Z.mod_pos_bound; lia|done].
  - cbn [undigits length]. rewrite IHv, Nat2Z.inj_succ, Z.pow_succ_r by lia.
    assert (0 < W32 ^ Z.of_nat (length a)) by (apply Z.pow_pos_nonneg; lia).
    rewrite (Z.rem_mul_r (carry + _ + _)) by lia.
    replace (carry + (x + W32 * undigits W32 a) + (y + W32 * undigits W32 b))
      with (n + (undigits W32 a + undigits W32 b) * W32) by (unfold n; lia).
    rewrite Z_mod_plus_full, Z.div_add by lia. do 3 f_equal. lia.
Qed.

Lemma op_add_ok W a b : uint_ok W a -> uint_ok W b -> uint_ok W (op_add a b).
Proof. intros [<- Ha] [Hl Hb]. apply add_loop_spec; auto; lia. Qed.

Lemma op_add_spec W a b : uint_ok W a -> uint_ok W b ->
  uval (op_add a b) = (uval a + uval b) mod W32 ^ Z.of_nat W.
Proof. intros [<- Ha] [Hl Hb]. apply add_loop_spec; auto; lia. Qed.

Lemma op_sub_ok W a b : uint_ok W a -> uint_ok W b -> uint_ok W (op_sub a b).
Proof. intros. apply op_add_ok; auto using op_neg_ok. Qed.

Lemma op_sub_spec W a b : uint_ok W a -> uint_ok W b ->
  uval (op_sub a b) = (uval a - uval b) mod W32 ^ Z.of_nat W.
Proof.
  intros. unfold op_sub. rewrite (op_add_spec W), (op_neg_spec W) by auto using op_neg_ok.
  by rewrite Zplus_mod_idemp_r, Z.add_opp_r.
Qed.

Lemma of_uint64_ok W b : (2 <= W)%nat -> 0 <= b < 2 ^ 64 ->
  uint_ok W (of_uint64 W b) /\ uval (of_uint64 W b) = b.
Proof.
  intros HW Hb. unfold of_uint64. rewrite Z.shiftr_div_pow2 by lia. split.
  - split; [simpl; rewrite length_replicate; lia|].
    do 2 (apply Forall_cons; split; [apply u32_range|]). apply Forall_replicate. lia.
  - unfold uval. cbn [undigits]. rewrite undigits_zeros by lia.
    unfold u32. rewrite (Z.mod_small (b / _)).
    + pose proof (Z.div_mod b W32). lia.
    + split; [apply Z.div_pos; lia | apply Z.div_lt_upper_bound; lia].
Qed.

(** *** Comparison *)

Lemma lt_loop_spec a b e :
  digits_ok W32 a -> digits_ok W32 b -> length a = length b ->
  lt_loop (reverse a) (reverse b) e =
  ((uval a <? uval b) || (e && (uval a =? uval b)))%bool.
Proof.
  unfold uval. revert b. induction a as [|x a IH] using rev_ind; intros b Ha Hb Hl.
  { destruct b; [|done]. by rewrite andb_true_r. }
  destruct b as [|y b _] using rev_ind; [rewrite length_app in Hl; simpl in Hl; lia|].
  rewrite !length_app in Hl. simpl in Hl.
  apply Forall_app in Ha as [Ha Hx], Hb as [Hb Hy]. apply Forall_cons in Hx as [Hx _], Hy as [Hy _].
  rewrite !reverse_snoc. cbn [lt_loop]. rewrite !undigits_app.
  assert (Hab : length b = length a) by lia. rewrite Hab. cbn [undigits].
  rewrite !Z.mul_0_r, !Z.add_0_r. pose proof (undigits_bound W32 ltac:(lia) a Ha). pose proof (undigits_bound W32 ltac:(lia) b Hb).
  rewrite Hab in *. set (P := W32 ^ Z.of_nat (length a)) in *.
  destruct (Z.ltb_spec x y); [|destruct (Z.ltb_spec y x)].
  - symmetry. apply orb_true_iff. left. apply Z.ltb_lt. nia.
  - symmetry. apply orb_false_iff. split; [apply Z.ltb_ge; nia|].
    apply andb_false_iff. right. apply Z.eqb_neq. nia.
  - assert (x = y) as -> by lia. rewrite IH by (auto; lia).
    apply eq_true_iff_eq. rewrite !orb_true_iff, !andb_true_iff, !Z.ltb_lt, !Z.eqb_eq.
    split; (intros [?|[??]]; [left; lia | right; split; [done | lia]]).
Qed.

Lemma op_lt_spec W a b : uint_ok W a -> uint_ok W b -> op_lt a b = (uval a <? uval b).
Proof. intros [??] [??]. unfold op_lt. rewrite lt_loop_spec by (auto; lia). apply orb_false_r. Qed.

Lemma op_le_spec W a b : uint_ok W a -> uint_ok W b -> op_le a b = (uval a <=? uval b).
Proof.
  intros [??] [??]. unfold op_le. rewrite lt_loop_spec by (auto; lia).
  apply eq_true_iff_eq. rewrite orb_true_iff, andb_true_l, Z.ltb_lt, Z.eqb_eq, Z.leb_le. lia.
Qed.

Lemma op_gt_spec W a b : uint_ok W a -> uint_ok W b -> op_gt a b = (uval b <? uval a).
Proof. intros. by apply (op_lt_spec W). Qed.

Lemma op_ge_spec W a b : uint_ok W a -> uint_ok W b -> op_ge a b = (uval b <=? uval a).
Proof. intros. by apply (op_le_spec W). Qed.

Lemma op_eq_spec W a b : uint_ok W a -> uint_ok W b -> op_eq a b = (uval a =? uval b).
Proof.
  unfold uval. intros [<- Ha] [Hl Hb]. revert b Hl Hb.
  induction Ha as [|x a Hx Ha IH]; intros [|y b] Hl Hb; try done.
  apply Forall_cons in Hb as [Hy Hb]. simpl in Hl.
  cbn [op_eq undigits].
  destruct (Z.eqb_spec x y) as [->|]; cbn [negb].
  - rewrite IH by (auto; lia). apply eq_true_iff_eq. rewrite !Z.eqb_eq. lia.
  - symmetry. apply Z.eqb_neq. lia.
Qed.

(** *** Shifts

    The loops or two pieces of every word into a zeroed array.  Word [j] of
    the result is described first, then the bits of the number follow. *)

Lemma alter_lookup_nth (f : Z -> Z) (l : list Z) i j : (j < length l)%nat ->
  nth j (alter f i l) 0 = if decide (i = j) then f (nth j l 0) else nth j l 0.
Proof.
  intros Hj. rewrite !nth_lookup. rewrite list_lookup_alter.
  destruct (lookup_lt_is_Some_2 l j Hj) as [x Hx].
  case_decide; [subst|]; rewrite ?decide_True, ?Hx; done.
Qed.

Section ShiftLoop.
Context (a : base_uint) (k : nat) (s : Z) (W : nat).

(** What round [i] of the left-shift loop contributes to word [j]. *)
Definition shl_part (i j : nat) : Z :=
  if decide (j = i + k + 1)%nat then (if s =? 0 then 0 else Z.shiftr (nth i a 0) (32 - s))
  else if decide (j = i + k)%nat then u32 (Z.shiftl (nth i a 0) s) else 0.

Definition shr_part (i j : nat) : Z :=
  if decide (i = j + k + 1)%nat then (if s =? 0 then 0 else u32 (Z.shiftl (nth i a 0) (32 - s)))
  else if decide (i = j + k)%nat then Z.shiftr (nth i a 0) s else 0.

Lemma shl_step_spec pn i j : length pn = W -> (j < W)%nat ->
  nth j (shl_step W a k s pn i) 0 = Z.lor (nth j pn 0) (shl_part i j).
Proof.
  intros Hl Hj. unfold shl_step, shl_part.
  destruct (bool_decide_reflect (i + k + 1 < W)%nat), (Z.eqb_spec s 0);
    destruct (bool_decide_reflect (i + k < W)%nat); cbn [negb andb];
    rewrite ?alter_lookup_nth by (rewrite ?length_alter; lia);
    repeat case_decide; rewrite ?Z.lor_0_r; try lia; reflexivity.
Qed.

Lemma shr_step_spec pn i j : length pn = W -> (j < W)%nat ->
  nth j (shr_step W a k s pn i) 0 = Z.lor (nth j pn 0) (shr_part i j).
Proof.
  intros Hl Hj. unfold shr_step, shr_part.
  destruct (bool_decide_reflect (k + 1 <= i)%nat), (Z.eqb_spec s 0);
    destruct (bool_decide_reflect (k <= i)%nat); cbn [negb andb];
    rewrite ?alter_lookup_nth by (rewrite ?length_alter; lia);
    repeat case_decide; rewrite ?Z.lor_0_r; try lia; reflexivity.
Qed.

(** Folding the steps ors the contributions of all rounds together. *)
Lemma fold_lor_spec (step : base_uint -> nat -> base_uint) (part : nat -> nat -> Z) ixs pn j :
  (forall pn i, length (step pn i) = length pn) ->
  (forall pn i j, length pn = W -> (j < W)%nat ->
     nth j (step pn i) 0 = Z.lor (nth j pn 0) (part i j)) ->
  length pn = W -> (j < W)%nat ->
  nth j (fold_left step ixs pn) 0 = Z.lor (nth j pn 0) (fold_right Z.lor 0 (map (fun i => part i j) ixs)).
Proof.
  intros Hlen Hstep. revert pn. induction ixs as [|i ixs IH]; intros pn Hl Hj; simpl.
  - by rewrite Z.lor_0_r.
  - rewrite IH by (rewrite ?Hlen; done). rewrite Hstep by done. by rewrite Z.lor_assoc.
Qed.

Lemma length_fold_step (step : base_uint -> nat -> base_uint) ixs pn :
  (forall pn i, length (step pn i) = length pn) -> length (fold_left step ixs pn) = length pn.
Proof. intros H. revert pn. induction ixs; intros; simpl; [done|]. by rewrite IHixs, H. Qed.

Lemma length_shl_step pn i : length (shl_step W a k s pn i) = length pn.
Proof. unfold shl_step. repeat dmatch; by rewrite ?length_alter. Qed.

Lemma length_shr_step pn i : length (shr_step W a k s pn i) = length pn.
Proof. unfold shr_step. repeat dmatch; by rewrite ?length_alter. Qed.
End ShiftLoop.

(** A disjunction of contributions, bit by bit. *)
Lemma fold_lor_testbit (f : nat -> Z) ixs b :
  Z.testbit (fold_right Z.lor 0 (map f ixs)) b = existsb (fun i => Z.testbit (f i) b) ixs.
Proof. induction ixs; simpl; [apply Z.bits_0|]. by rewrite Z.lor_spec, IHixs. Qed.

Lemma existsb_seq (p : nat -> bool) n i0 :
  (forall i, (i < n)%nat -> i <> i0 -> p i = false) ->
  existsb p (seq 0 n) = (bool_decide (i0 < n)%nat && p i0)%bool.
Proof.
  intros H. apply eq_true_iff_eq. rewrite existsb_exists, andb_true_iff, bool_decide_eq_true.
  setoid_rewrite in_seq. split.
  - intros (i & Hi & Hp). destruct (decide (i = i0)) as [->|]; [split; [lia|done]|].
    rewrite H in Hp by lia. done.
  - intros [??]. exists i0. split; [lia|done].
Qed.

Lemma word_bit_high (w b : Z) : 0 <= w < W32 -> 32 <= b -> Z.testbit w b = false.
Proof. intros. rewrite <- (Z.mod_small w W32) by lia. apply Z.mod_pow2_bits_high. lia. Qed.

Lemma nth_word_ok a i : digits_ok W32 a -> 0 <= nth i a 0 < W32.
Proof.
  intros H. destruct (decide (i < length a)%nat).
  - eapply Forall_nth in H; [|done]. exact H.
  - rewrite nth_overflow; lia.
Qed.

(** A list of non-negative numbers without bits from 32 up is a list of words. *)
Lemma words_of_bits l :
  (forall j b, (j < length l)%nat -> 32 <= b -> Z.testbit (nth j l 0) b = false) ->
  (forall j, 0 <= nth j l 0) -> digits_ok W32 l.
Proof.
  intros Hb Hp. apply Forall_nth with (d := 0). intros j Hj. split; [apply Hp|].
  rewrite <- (Z.mod_small (nth j l 0) W32); [apply Z.mod_pos_bound; lia|].
  split; [apply Hp|]. destruct (Z.lt_ge_cases (nth j l 0) W32) as [|Hge]; [done|].
  exfalso. pose proof (Hb j (Z.log2 (nth j l 0)) Hj) as E.
  rewrite Z.bit_log2 in E by lia.
  enough (false = true) by done. symmetry. apply E. apply Z.log2_le_pow2; lia.
Qed.

Lemma div_mod_words i b : 0 <= i -> 0 <= b < 32 -> (32 * i + b) / 32 = i /\ (32 * i + b) mod 32 = b.
Proof. intros. destruct (divmod_split 32 i b); [lia..|]. rewrite Z.add_comm. auto. Qed.

Lemma shl_part_bits a k s i j b :
  digits_ok W32 a -> 0 <= s < 32 -> 0 <= b ->
  Z.testbit (shl_part a k s i j) b =
  (if decide (j = i + k + 1)%nat then (b <? s) && Z.testbit (nth i a 0) (b + 32 - s)
   else if decide (j = i + k)%nat then (s <=? b) && (b <? 32) && Z.testbit (nth i a 0) (b - s)
   else false)%bool.
Proof.
  intros Ha Hs Hb. pose proof (nth_word_ok a i Ha). unfold shl_part.
  repeat case_decide; [| |apply Z.bits_0].
  - destruct (Z.eqb_spec s 0) as [->|].
    + rewrite Z.bits_0. destruct (Z.ltb_spec b 0); [lia|done].
    + rewrite Z.shiftr_spec by lia. replace (b + (32 - s)) with (b + 32 - s) by lia.
      destruct (Z.ltb_spec b s); [done|]. apply word_bit_high; lia.
  - unfold u32. destruct (Z.ltb_spec b 32).
    + rewrite Z.mod_pow2_bits_low, Z.shiftl_spec by lia.
      destruct (Z.leb_spec s b); [done|]. apply Z.testbit_neg_r. lia.
    + rewrite Z.mod_pow2_bits_high by lia. by rewrite andb_false_r.
Qed.

Lemma nth_zeros j n : nth j (replicate n 0) 0 = 0.
Proof. revert j. induction n; intros [|j]; simpl; auto. Qed.

(** A bit of the or of all contributions, when at most round [i0] sets it. *)
Lemma existsb_only (p : nat -> bool) n i0 v :
  (forall i, (i < n)%nat -> i <> i0 -> p i = false) ->
  ((i0 < n)%nat -> p i0 = v) -> ((n <= i0)%nat -> v = false) ->
  existsb p (seq 0 n) = v.
Proof.
  intros H Hin Hout. rewrite (existsb_seq _ _ i0 H).
  destruct (bool_decide_reflect (i0 < n)%nat); simpl; [by apply Hin|]. symmetry. apply Hout. lia.
Qed.

(** The quotient and remainder the loops use for the word and bit shifts. *)
Lemma shift_split shift : 0 <= shift ->
  exists k s, Z.to_nat (shift / 32) = k /\ shift mod 32 = s /\
    0 <= s < 32 /\ shift = 32 * Z.of_nat k + s.
Proof.
  intros. eexists _, _. do 2 (split; [reflexivity|]).
  split; [apply Z.mod_pos_bound; lia|].
  rewrite Z2Nat.id by (apply Z.div_pos; lia). apply Z.div_mod. lia.
Qed.

Lemma uval_testbit_at a i b m : digits_ok W32 a -> 0 <= i -> 0 <= b < 32 -> m = 32 * i + b ->
  Z.testbit (uval a) m = Z.testbit (nth (Z.to_nat i) a 0) b.
Proof.
  intros Ha Hi Hb ->. rewrite uval_testbit by (auto; lia).
  by destruct (div_mod_words i b) as [-> ->].
Qed.

Lemma op_shl_word a shift j b :
  digits_ok W32 a -> 0 <= shift -> (j < length a)%nat -> 0 <= b ->
  Z.testbit (nth j (op_shl a shift) 0) b =
  ((b <? 32) && (shift <=? 32 * Z.of_nat j + b) &&
   Z.testbit (uval a) (32 * Z.of_nat j + b - shift))%bool.
Proof.
  intros Ha Hs Hj Hb. unfold op_shl.
  destruct (shift_split shift Hs) as (k & s & -> & -> & Hs' & Hsh).
  rewrite (fold_lor_spec (length a)) with (part := shl_part a k s);
    [|apply length_shl_step|apply shl_step_spec|apply length_replicate|done].
  rewrite nth_zeros, Z.lor_0_l, fold_lor_testbit.
  apply (existsb_only _ _ (if b <? s then (j - k - 1)%nat else (j - k)%nat)); intros;
    rewrite ?shl_part_bits by done; destruct (Z.ltb_spec b s).
  - repeat case_decide; [lia| |done]. by rewrite (proj2 (Z.leb_gt s b)).
  - repeat case_decide; [done|lia|done].
  - destruct (Z.leb_spec shift (32 * Z.of_nat j + b)).
    + rewrite decide_True, (proj2 (Z.ltb_lt b 32)) by lia. cbn [andb].
      rewrite (uval_testbit_at a (Z.of_nat (j - k - 1)) (b + 32 - s)) by (auto; lia).
      by rewrite Nat2Z.id.
    + rewrite andb_false_r. repeat case_decide; [lia| |done]. by rewrite (proj2 (Z.leb_gt s b)).
  - destruct (Z.ltb_spec b 32); cbn [andb]; cycle 1.
    { repeat case_decide; [done | by rewrite andb_false_r | done]. }
    destruct (Z.leb_spec shift (32 * Z.of_nat j + b)).
    + rewrite decide_False, decide_True, (proj2 (Z.leb_le s b)) by lia. cbn [andb].
      rewrite (uval_testbit_at a (Z.of_nat (j - k)) (b - s)) by (auto; lia).
      by rewrite Nat2Z.id.
    + repeat case_decide; [done|lia|done].
  - lia.
  - lia.
Qed.

Lemma op_shl_ok W a shift : uint_ok W a -> 0 <= shift -> uint_ok W (op_shl a shift).
Proof.
  intros [<- Ha] Hs.
  assert (Hl : length (op_shl a shift) = length a).
  { unfold op_shl. rewrite length_fold_step; [apply length_replicate | apply length_shl_step]. }
  split; [done|]. apply words_of_bits.
  - intros j b Hj Hb. rewrite op_shl_word by (auto; lia). by rewrite (proj2 (Z.ltb_ge b 32)).
  - intros j. destruct (decide (j < length a)%nat); [|rewrite nth_overflow; lia].
    apply Z.bits_iff_nonneg_ex. exists 32. intros b Hb. rewrite op_shl_word by (auto; lia).
    by rewrite (proj2 (Z.ltb_ge b 32)) by lia.
Qed.

Lemma pow_W32 W : W32 ^ Z.of_nat W = 2 ^ (32 * Z.of_nat W).
Proof. by rewrite <- Z.pow_mul_r by lia. Qed.

Lemma uval_bit_high W a n : uint_ok W a -> 32 * Z.of_nat W <= n -> Z.testbit (uval a) n = false.
Proof.
  intros H Hn. pose proof (uval_range W a H) as Hr. rewrite pow_W32 in Hr.
  rewrite <- (Z.mod_small (uval a) _ Hr). apply Z.mod_pow2_bits_high. lia.
Qed.

Lemma op_shl_spec W a shift : uint_ok W a -> 0 <= shift ->
  uval (op_shl a shift) = (uval a * 2 ^ shift) mod W32 ^ Z.of_nat W.
Proof.
  intros Ha Hs. pose proof (op_shl_ok W a shift Ha Hs) as Hok. rewrite pow_W32.
  apply Z.bits_inj'. intros n Hn. destruct (Z.lt_ge_cases n (32 * Z.of_nat W)); cycle 1.
  { rewrite (uval_bit_high W) by done. rewrite Z.mod_pow2_bits_high by lia. done. }
  rewrite Z.mod_pow2_bits_low, Z.mul_pow2_bits by lia.
  destruct Ha as [<- Ha], Hok as [_ Hok]. rewrite uval_testbit by done.
  pose proof (Z.mod_pos_bound n 32). pose proof (Z.div_mod n 32).
  assert (n / 32 < Z.of_nat (length a)) by (apply Z.div_lt_upper_bound; lia).
  assert (0 <= n / 32) by (apply Z.div_pos; lia).
  rewrite op_shl_word by (auto; lia). rewrite Z2Nat.id, (proj2 (Z.ltb_lt (n mod 32) 32)) by lia.
  replace (32 * (n / 32) + n mod 32) with n by lia.
  destruct (Z.leb_spec shift n); cbn [andb]; [done|]. by rewrite Z.testbit_neg_r by lia.
Qed.

Lemma shr_part_bits a k s i j b :
  digits_ok W32 a -> 0 <= s < 32 -> 0 <= b ->
  Z.testbit (shr_part a k s i j) b =
  (if decide (i = j + k + 1)%nat then (32 - s <=? b) && (b <? 32) && Z.testbit (nth i a 0) (b - (32 - s))
   else if decide (i = j + k)%nat then (b <? 32 - s) && Z.testbit (nth i a 0) (b + s)
   else false)%bool.
Proof.
  intros Ha Hs Hb. pose proof (nth_word_ok a i Ha). unfold shr_part.
  repeat case_decide; [| |apply Z.bits_0].
  - destruct (Z.eqb_spec s 0) as [->|].
    + rewrite Z.bits_0. destruct (Z.leb_spec (32 - 0) b), (Z.ltb_spec b 32); done || lia.
    + unfold u32. destruct (Z.ltb_spec b 32).
      * rewrite Z.mod_pow2_bits_low, Z.shiftl_spec by lia.
        destruct (Z.leb_spec (32 - s) b); [done|]. apply Z.testbit_neg_r. lia.
      * rewrite Z.mod_pow2_bits_high by lia. by rewrite andb_false_r.
  - rewrite Z.shiftr_spec by lia. destruct (Z.ltb_spec b (32 - s)); [done|].
    apply word_bit_high; lia.
Qed.

Lemma op_shr_word a shift j b :
  digits_ok W32 a -> 0 <= shift -> (j < length a)%nat -> 0 <= b ->
  Z.testbit (nth j (op_shr a shift) 0) b =
  ((b <? 32) && Z.testbit (uval a) (32 * Z.of_nat j + b + shift))%bool.
Proof.
  intros Ha Hs Hj Hb. unfold op_shr.
  destruct (shift_split shift Hs) as (k & s & -> & -> & Hs' & Hsh).
  rewrite (fold_lor_spec (length a)) with (part := shr_part a k s);
    [|apply length_shr_step|apply shr_step_spec|apply length_replicate|done].
  rewrite nth_zeros, Z.lor_0_l, fold_lor_testbit.
  apply (existsb_only _ _ (if b <? 32 - s then (j + k)%nat else (j + k + 1)%nat)); intros;
    rewrite ?shr_part_bits by done; destruct (Z.ltb_spec b (32 - s)).
  - repeat case_decide; [|lia|done]. by rewrite (proj2 (Z.leb_gt (32 - s) b)).
  - repeat case_decide; [lia|done|done].
  - rewrite decide_False, decide_True, (proj2 (Z.ltb_lt b 32)) by lia. cbn [andb].
    rewrite (uval_testbit_at a (Z.of_nat (j + k)) (b + s)) by (auto; lia). by rewrite Nat2Z.id.
  - rewrite decide_True, (proj2 (Z.leb_le (32 - s) b)) by lia. cbn [andb].
    destruct (Z.ltb_spec b 32); [|done]. cbn [andb].
    rewrite (uval_testbit_at a (Z.of_nat (j + k + 1)) (b - (32 - s))) by (auto; lia).
    by rewrite Nat2Z.id.
  - rewrite (proj2 (Z.ltb_lt b 32)) by lia. cbn [andb].
    rewrite (uval_bit_high (length a)); [done|by split|lia].
  - destruct (Z.ltb_spec b 32); [|done]. cbn [andb].
    rewrite (uval_bit_high (length a)); [done|by split|lia].
Qed.

Lemma op_shr_ok W a shift : uint_ok W a -> 0 <= shift -> uint_ok W (op_shr a shift).
Proof.
  intros [<- Ha] Hs.
  assert (Hl : length (op_shr a shift) = length a).
  { unfold op_shr. rewrite length_fold_step; [apply length_replicate | apply length_shr_step]. }
  split; [done|]. apply words_of_bits.
  - intros j b Hj Hb. rewrite op_shr_word by (auto; lia). by rewrite (proj2 (Z.ltb_ge b 32)).
  - intros j. destruct (decide (j < length a)%nat); [|rewrite nth_overflow; lia].
    apply Z.bits_iff_nonneg_ex. exists 32. intros b Hb. rewrite op_shr_word by (auto; lia).
    by rewrite (proj2 (Z.ltb_ge b 32)) by lia.
Qed.

Lemma op_shr_spec W a shift : uint_ok W a -> 0 <= shift ->
  uval (op_shr a shift) = uval a / 2 ^ shift.
Proof.
  intros Ha Hs. pose proof (op_shr_ok W a shift Ha Hs) as Hok.
  apply Z.bits_inj'. intros n Hn. rewrite Z.div_pow2_bits by lia.
  destruct (Z.lt_ge_cases n (32 * Z.of_nat W)); cycle 1.
  { rewrite !(uval_bit_high W) by (done || lia). done. }
  destruct Ha as [<- Ha], Hok as [_ Hok]. rewrite uval_testbit by done.
  pose proof (Z.mod_pos_bound n 32). pose proof (Z.div_mod n 32).
  assert (n / 32 < Z.of_nat (length a)) by (apply Z.div_lt_upper_bound; lia).
  assert (0 <= n / 32) by (apply Z.div_pos; lia).
  rewrite op_shr_word by (auto; lia). rewrite Z2Nat.id, (proj2 (Z.ltb_lt (n mod 32) 32)) by lia.
  cbn [andb]. f_equal. lia.
Qed.

(** *** Bitwise operators and 64-bit access *)

Lemma zip_words_spec (f : Z -> Z -> Z) (g : bool -> bool -> bool) W a b :
  (forall x y n, Z.testbit (f x y) n = g (Z.testbit x n) (Z.testbit y n)) ->
  (forall x y, 0 <= x < W32 -> 0 <= y < W32 -> 0 <= f x y < W32) ->
  f 0 0 = 0 ->
  uint_ok W a -> uint_ok W b ->
  uint_ok W (zip_with f a b) /\ uval (zip_with f a b) = f (uval a) (uval b).
Proof.
  intros Hbit Hr H0 [<- Ha] [Hl Hb].
  assert (Hok : digits_ok W32 (zip_with f a b)).
  { clear Hl. revert b Hb. induction Ha as [|x a Hx Ha IH]; intros [|y b] Hb; try constructor.
    - apply Forall_cons in Hb as [Hy Hb]. by apply Hr.
    - apply Forall_cons in Hb as [Hy Hb]. by apply IH. }
  split; [split; [rewrite length_zip_with; lia|done]|].
  apply Z.bits_inj'. intros n Hn. rewrite Hbit, !uval_testbit by done. rewrite <- Hbit.
  f_equal. set (j := Z.to_nat (n / 32)). clearbody j. rewrite <- H0 at 1. clear -Hl H0.
  revert b j Hl. induction a as [|x a IH]; intros [|y b] [|j] Hl; simpl in *; try lia; auto.
Qed.

Lemma bitop_range (f : Z -> Z -> Z) (g : bool -> bool -> bool) x y :
  (forall x y n, Z.testbit (f x y) n = g (Z.testbit x n) (Z.testbit y n)) ->
  g false false = false ->
  0 <= x < W32 -> 0 <= y < W32 -> 0 <= f x y < W32.
Proof.
  intros Hbit Hg Hx Hy.
  assert (E : f x y = f x y mod W32).
  { apply Z.bits_inj'. intros n Hn. destruct (Z.lt_ge_cases n 32).
    - by rewrite Z.mod_pow2_bits_low by lia.
    - rewrite Z.mod_pow2_bits_high by lia. rewrite Hbit, !word_bit_high by lia. done. }
  rewrite E. apply Z.mod_pos_bound. lia.
Qed.

Lemma bitops_spec W a b : uint_ok W a -> uint_ok W b ->
  (uint_ok W (op_xor a b) /\ uval (op_xor a b) = Z.lxor (uval a) (uval b)) /\
  (uint_ok W (op_and a b) /\ uval (op_and a b) = Z.land (uval a) (uval b)) /\
  (uint_ok W (op_or a b) /\ uval (op_or a b) = Z.lor (uval a) (uval b)).
Proof.
  intros Ha Hb. split; [|split].
  - apply (zip_words_spec _ xorb); auto using Z.lxor_spec.
    intros. apply (bitop_range _ xorb); auto using Z.lxor_spec.
  - apply (zip_words_spec _ andb); auto using Z.land_spec.
    intros. apply (bitop_range _ andb); auto using Z.land_spec.
  - apply (zip_words_spec _ orb); auto using Z.lor_spec.
    intros. apply (bitop_range _ orb); auto using Z.lor_spec.
Qed.

(** [Get64(n)] is the [n]-th 64-bit limb. *)
Lemma Get64_spec pn n : digits_ok W32 pn ->
  Get64 pn n = (uval pn / 2 ^ (64 * Z.of_nat n)) mod 2 ^ 64.
Proof.
  intros H. unfold Get64, u64.
  pose proof (nth_word_ok pn (2 * n) H). pose proof (nth_word_ok pn (2 * n + 1) H).
  rewrite Z.shiftl_mul_pow2, (Z.mod_small (_ * _)) by lia.
  apply Z.bits_inj'. intros i Hi. rewrite Z.lor_spec.
  destruct (Z.lt_ge_cases i 64); cycle 1.
  { rewrite Z.mod_pow2_bits_high by lia. rewrite Z.mul_pow2_bits by lia.
    rewrite !word_bit_high by lia. done. }
  rewrite Z.mod_pow2_bits_low, Z.div_pow2_bits by lia.
  destruct (Z.lt_ge_cases i 32).
  - rewrite Z.mul_pow2_bits_low, orb_false_r by lia.
    rewrite (uval_testbit_at pn (Z.of_nat (2 * n)) i) by (auto; lia). by rewrite Nat2Z.id.
  - rewrite Z.mul_pow2_bits by lia. rewrite word_bit_high by lia. cbn [orb].
    rewrite (uval_testbit_at pn (Z.of_nat (2 * n + 1)) (i - 32)) by (auto; lia). by rewrite Nat2Z.id.
Qed.

(** *** Memory image and hexadecimal round trip *)

Lemma length_uint_bytes pn : length (uint_bytes pn) = (4 * length pn)%nat.
Proof. induction pn as [|w pn IH]; [done|]. cbn [uint_bytes flat_map]. fold (uint_bytes pn).
  rewrite length_app, IH, length_le_bytes. cbn [length]. lia. Qed.

Lemma uint_bytes_ok pn : bytes_ok (uint_bytes pn).
Proof.
  induction pn as [|w pn IH]; [constructor|]. cbn [uint_bytes flat_map].
  apply digits_ok_app; auto with mota.
Qed.

Lemma words_of_uint_bytes pn : digits_ok W32 pn -> words_of_bytes (uint_bytes pn) = pn.
Proof.
  induction 1 as [|w pn Hw Hpn IH]; [done|].
  cbn [uint_bytes flat_map]. fold (uint_bytes pn).
  change (le_bytes 4 w) with [w mod 256; (w / 256) mod 256; (w / 256 / 256) mod 256;
                              (w / 256 / 256 / 256) mod 256].
  cbn [app words_of_bytes]. rewrite IH.
  change [w mod 256; _; _; _] with (le_bytes 4 w). rewrite le_val_bytes.
  by rewrite Z.mod_small by lia.
Qed.

(** The bytes in memory stand for the same number as the words. *)
Lemma uint_bytes_val pn : digits_ok W32 pn -> le_val (uint_bytes pn) = uval pn.
Proof.
  unfold uval. induction 1 as [|w pn Hw Hpn IH]; [done|].
  cbn [uint_bytes flat_map undigits]. fold (uint_bytes pn).
  rewrite undigits_app, le_val_bytes, length_le_bytes, IH by lia.
  rewrite Z.mod_small by lia. done.
Qed.

Lemma hexchar_digit n : 0 <= n < 16 ->
  phexdigit (hexchar n) = n /\ is_hexdigit (hexchar n) = true /\
  is_space (hexchar n) = false /\ hexchar n <> 120 /\ hexchar n <> 88.
Proof.
  intros. assert (n ∈ map Z.of_nat (seq 0 16)) as D.
  { apply list_elem_of_In, in_map_iff. exists (Z.to_nat n). split; [lia|]. apply in_seq. lia. }
  revert D. rewrite list_elem_of_In. simpl. intros D.
  repeat destruct D as [<-|D]; [..|done]; vm_compute; repeat split; congruence.
Qed.

(** The two characters [sprintf] writes for a byte. *)
Definition hex2 (b : Z) : list Z := [hexchar (b / 16); hexchar (b mod 16)].

Lemma byte_nibbles b : is_byte b -> 0 <= b / 16 < 16 /\ 0 <= b mod 16 < 16.
Proof.
  intros. split; [|apply Z.mod_pos_bound; lia].
  split; [apply Z.div_pos; lia | apply Z.div_lt_upper_bound; lia].
Qed.

Lemma take_while_hex bs : bytes_ok bs ->
  take_while is_hexdigit (flat_map hex2 bs) = flat_map hex2 bs.
Proof.
  induction 1 as [|b bs Hb Hbs IH]; [done|]. cbn [flat_map hex2 app take_while].
  destruct (byte_nibbles b Hb) as [H1 H2].
  destruct (hexchar_digit _ H1) as (_ & -> & _), (hexchar_digit _ H2) as (_ & -> & _).
  by rewrite IH.
Qed.

Lemma skip_prefix_hex bs : bytes_ok bs ->
  skip_0x (drop_while is_space (flat_map hex2 bs)) = flat_map hex2 bs.
Proof.
  intros [|b bs' Hb _]; [done|]. cbn [flat_map hex2 app drop_while].
  destruct (byte_nibbles b Hb) as [H1 H2].
  destruct (hexchar_digit _ H1) as (_ & _ & -> & _), (hexchar_digit _ H2) as (_ & _ & _ & ? & ?).
  unfold skip_0x. rewrite (proj2 (Z.eqb_neq _ 120)), (proj2 (Z.eqb_neq _ 88)) by done.
  by rewrite andb_false_r.
Qed.

Lemma fill_bytes_hex bs : bytes_ok bs ->
  fill_bytes (length bs) (flat_map (fun b => reverse (hex2 b)) bs) = bs.
Proof.
  induction 1 as [|b bs Hb Hbs IH]; [done|]. cbn [flat_map hex2 length].
  change (reverse (hex2 b)) with [hexchar (b mod 16); hexchar (b / 16)].
  cbn [app fill_bytes]. destruct (byte_nibbles b Hb) as [H1 H2].
  destruct (hexchar_digit _ H1) as (E1 & _), (hexchar_digit _ H2) as (E2 & _).
  rewrite E1, E2, IH, Z.shiftl_mul_pow2, lor_disjoint by lia. f_equal.
  pose proof (Z.div_mod b 16). lia.
Qed.

Lemma reverse_flat_map (f : Z -> list Z) bs :
  reverse (flat_map f (reverse bs)) = flat_map (fun b => reverse (f b)) bs.
Proof.
  induction bs as [|b bs IH]; [done|]. rewrite reverse_cons, flat_map_app.
  cbn [flat_map]. by rewrite app_nil_r, reverse_app, IH.
Qed.

Lemma SetHex_GetHex W pn : uint_ok W pn -> SetHex W (GetHex pn) = pn.
Proof.
  intros [<- H]. unfold SetHex, GetHex. fold hex2.
  assert (Hb : bytes_ok (reverse (uint_bytes pn))) by apply digits_ok_rev, uint_bytes_ok.
  change (fun b => _) with hex2. rewrite skip_prefix_hex, take_while_hex by done.
  rewrite reverse_flat_map, <- length_uint_bytes, fill_bytes_hex by apply uint_bytes_ok.
  by apply words_of_uint_bytes.
Qed.

Lemma uval_words_of_bytes k bs : length bs = (4 * k)%nat -> bytes_ok bs ->
  uint_ok k (words_of_bytes bs) /\ uval (words_of_bytes bs) = le_val bs.
Proof.
  revert bs. induction k as [|k IH]; intros bs Hl Hb.
  - destruct bs; [|done]. split; [split; [done|constructor]|done].
  - do 4 (destruct bs as [|? bs]; [simpl in Hl; lia|]). cbn [length] in Hl.
    change (?a :: ?b :: ?c :: ?d :: bs) with ([a; b; c; d] ++ bs) in Hb.
    apply digits_ok_app in Hb as [Hw Hb]. destruct (IH bs ltac:(lia) Hb) as [[IH1 IH2] IH3].
    cbn [words_of_bytes]. pose proof (undigits_bound 256 ltac:(lia) _ Hw) as B.
    change (256 ^ Z.of_nat (length [z; z0; z1; z2])) with W32 in B.
    split; [split; [cbn [length]; lia | by apply Forall_cons]|].
    unfold uval in *. cbn [undigits] in *. rewrite IH3. lia.
Qed.

(** ** Properties *)

(** A decision procedure for the representation invariant, for examples. *)
Definition uint_okb (W : nat) (pn : base_uint) : bool :=
  ((length pn =? W)%nat && forallb (fun w => (0 <=? w) && (w <? W32)) pn)%bool.

Lemma uint_okb_spec W pn : uint_okb W pn = true -> uint_ok W pn.
Proof.
  unfold uint_okb. intros H. bprop. split; [done|]. apply Forall_forall. intros x Hx.
  rewrite forallb_forall in H0. specialize (H0 x). rewrite <- list_elem_of_In in H0.
  specialize (H0 Hx). bprop. lia.
Qed.

(** On any width the word loops of [+=], [-=], unary [-], [++] and [--]
    keep the representation invariant and compute addition, subtraction,
    negation, successor and predecessor modulo 2^(32 WIDTH). *)
Theorem base_uint_arithmetic W a b : uint_ok W a -> uint_ok W b ->
  let M := W32 ^ Z.of_nat W in
  (uint_ok W (op_add a b) /\ uval (op_add a b) = (uval a + uval b) mod M) /\
  (uint_ok W (op_sub a b) /\ uval (op_sub a b) = (uval a - uval b) mod M) /\
  (uint_ok W (op_neg a) /\ uval (op_neg a) = (- uval a) mod M) /\
  (uint_ok W (op_incr a) /\ uval (op_incr a) = (uval a + 1) mod M) /\
  (uint_ok W (op_decr a) /\ uval (op_decr a) = (uval a - 1) mod M).
Proof.
  intros Ha Hb M. subst M. conjs;
  auto using op_add_ok, op_add_spec, op_sub_ok, op_sub_spec, op_neg_ok, op_neg_spec,
    op_incr_ok, op_incr_spec, op_decr_ok, op_decr_spec.
Qed.

Lemma base_uint_arithmetic_witness :
  uval (op_sub [0; 1; 0] [1; 0; 0]) = W32 - 1 /\ uval (op_incr [W32 - 1; W32 - 1; 7]) = 8 * W32 ^ 2.
Proof.
  split.
  - destruct (base_uint_arithmetic 3 [0; 1; 0] [1; 0; 0]) as (_ & [_ ->] & _);
      [apply uint_okb_spec; reflexivity.. | reflexivity].
  - reflexivity.
Defined.

(** The comparison loops decide the order and the equality of the numbers
    the arrays stand for, whichever of the six operators is used. *)
Theorem base_uint_comparison W a b : uint_ok W a -> uint_ok W b ->
  op_lt a b = (uval a <? uval b) /\ op_le a b = (uval a <=? uval b) /\
  op_gt a b = (uval b <? uval a) /\ op_ge a b = (uval b <=? uval a) /\
  op_eq a b = (uval a =? uval b) /\ op_ne a b = negb (uval a =? uval b) /\
  (op_eq a b = true <-> a = b).
Proof.
  intros Ha Hb. unfold op_ne. rewrite (op_lt_spec W), (op_le_spec W), (op_gt_spec W),
    (op_ge_spec W), (op_eq_spec W), Z.eqb_eq by done.
  conjs; try done. split; [by apply uval_inj with W | congruence].
Qed.

Lemma base_uint_comparison_witness :
  op_lt [5; 1] [4; 2] = true /\ op_ge [0; 2] [W32 - 1; 1] = true.
Proof.
  split.
  - destruct (base_uint_comparison 2 [5; 1] [4; 2]) as [-> _];
      [apply uint_okb_spec; reflexivity.. | reflexivity].
  - reflexivity.
Defined.

(** The or-ing loops of [<<=] and [>>=] compute multiplication by 2^shift
    modulo 2^(32 WIDTH) and division by 2^shift, for every shift count,
    whole-word shifts and shifts beyond the width included. *)
Theorem base_uint_shifts W a shift : uint_ok W a -> 0 <= shift < 2 ^ 32 ->
  uint_ok W (op_shl a shift) /\ uval (op_shl a shift) = (uval a * 2 ^ shift) mod W32 ^ Z.of_nat W /\
  uint_ok W (op_shr a shift) /\ uval (op_shr a shift) = uval a / 2 ^ shift.
Proof.
  intros Ha [Hs _]. conjs; eauto using op_shl_ok, op_shl_spec, op_shr_ok, op_shr_spec.
Qed.

Lemma base_uint_shifts_witness :
  uval (op_shl [0x80000001; 0; 3] 33) = (0x80000001 + 3 * W32 ^ 2) * 2 ^ 33 mod W32 ^ 3 /\
  uval (op_shr [0; 0; 3] 65) = 1.
Proof.
  split.
  - destruct (base_uint_shifts 3 [0x80000001; 0; 3] 33) as (_ & -> & _);
      [apply uint_okb_spec; reflexivity | lia | reflexivity].
  - reflexivity.
Defined.

(** [SetHex] reads back the number [GetHex] prints, on every width, and
    the 64-bit limbs of [Get64] are the limbs of that number. *)
Theorem base_uint_hex_roundtrip W pn : uint_ok W pn ->
  SetHex W (GetHex pn) = pn /\
  forall n, Get64 pn n = (uval pn / 2 ^ (64 * Z.of_nat n)) mod 2 ^ 64.
Proof.
  intros H. split; [by apply SetHex_GetHex|]. intros n. apply Get64_spec, H.
Qed.

Lemma base_uint_hex_roundtrip_witness :
  SetHex 2 (GetHex [0xdeadbeef; 0x0000001f]) = [0xdeadbeef; 0x0000001f].
Proof.
  apply (base_uint_hex_roundtrip 2 [0xdeadbeef; 0x0000001f]). apply uint_okb_spec. reflexivity.
Defined.
