(* ===== verification/Serialize.v ===== *)
(** * Serialization (src/src/serialize.h)

    The byte stream [CDataStream], the integer encodings (fixed width,
    CompactSize, VarInt) and the container templates.  A type that the program
    can write and read is given by a [codec]; [codec_ok] is what the clients of
    serialization rely on: reading back what was written gives the value and
    leaves the rest of the stream, the size function announces the number of
    bytes written, and whatever is read is a value of the type. *)

From S2P Require Import Prelude.

(** ** CDataStream *)

Module DataStream.

(** The buffer and the read position; [begin()] is [vch.begin() + nReadPos]. *)
Record CDataStream := mk { vch : list Z; nReadPos : Z }.

Definition vch_size (s : CDataStream) : Z := Z.of_nat (length (vch s)).

Definition size (s : CDataStream) : Z := vch_size s - nReadPos s.

(** [read]: [None] is the [ios_base::failure] that [setstate] throws, since
    the exception mask of a stream includes [failbit]. *)
Definition read (s : CDataStream) (nSize : Z) : option (list Z * CDataStream) :=
  let nReadPosNext := u32 (nReadPos s + nSize) in
  let data := take (Z.to_nat nSize) (drop (Z.to_nat (nReadPos s)) (vch s)) in
  if vch_size s <=? nReadPosNext then
    if vch_size s <? nReadPosNext then None
    else Some (data, mk [] 0)
  else Some (data, mk (vch s) nReadPosNext).

Definition ignore (s : CDataStream) (nSize : Z) : option CDataStream :=
  let nReadPosNext := u32 (nReadPos s + nSize) in
  if vch_size s <=? nReadPosNext then
    if vch_size s <? nReadPosNext then None else Some (mk [] 0)
  else Some (mk (vch s) nReadPosNext).

Definition write (s : CDataStream) (pch : list Z) : CDataStream :=
  mk (vch s ++ pch) (nReadPos s).

Definition Compact (s : CDataStream) : CDataStream :=
  mk (drop (Z.to_nat (nReadPos s)) (vch s)) 0.

Definition Rewind (s : CDataStream) (n : Z) : bool * CDataStream :=
  if nReadPos s <? n then (false, s) else (true, mk (vch s) (nReadPos s - n)).

(** [insert(it, first, last)] at offset [at_] of the unread part: at the
    front, the room left by what was read is used when there is enough. *)
Definition insert (s : CDataStream) (at_ : Z) (data : list Z) : CDataStream :=
  let n := Z.of_nat (length data) in
  if ((at_ =? 0) && (n <=? nReadPos s))%bool then
    let p := Z.to_nat (nReadPos s - n) in
    mk (take p (vch s) ++ data ++ drop (p + length data) (vch s)) (nReadPos s - n)
  else
    let p := Z.to_nat (nReadPos s + at_) in
    mk (take p (vch s) ++ data ++ drop p (vch s)) (nReadPos s).

(** [erase(first, last)] of [cnt] bytes at offset [at_] of the unread part. *)
Definition erase (s : CDataStream) (at_ cnt : Z) : CDataStream :=
  let p := Z.to_nat (nReadPos s + at_) in
  if at_ =? 0 then
    if vch_size s =? nReadPos s + cnt then mk [] 0
    else mk (vch s) (nReadPos s + cnt)
  else mk (take p (vch s) ++ drop (p + Z.to_nat cnt) (vch s)) (nReadPos s).

(** What is left to read: the abstract state of a stream. *)
Definition rest (s : CDataStream) : list Z := drop (Z.to_nat (nReadPos s)) (vch s).

(** The read position is inside a buffer of less than 2 GB. *)
Definition ok (s : CDataStream) : Prop := 0 <= nReadPos s <= vch_size s /\ vch_size s < 2 ^ 31.

Lemma length_rest s : ok s -> Z.of_nat (length (rest s)) = size s.
Proof. intros [??]. unfold rest, size, vch_size in *. rewrite length_drop. lia. Qed.

Lemma read_refines s n : ok s -> 0 <= n < 2 ^ 31 ->
  match read s n with
  | Some (data, s') =>
      n <= size s /\ ok s' /\ data = take (Z.to_nat n) (rest s) /\ rest s' = drop (Z.to_nat n) (rest s)
  | None => size s < n
  end.
Proof.
  intros [Hp Hs] Hn. unfold read, size, rest. rewrite u32_small by lia.
  destruct (Z.leb_spec (vch_size s) (nReadPos s + n)); [destruct (Z.ltb_spec (vch_size s) (nReadPos s + n))|].
  - lia.
  - split; [lia|]. split; [split; unfold vch_size; simpl; lia|]. split; [done|].
    cbn [vch nReadPos]. rewrite drop_nil, drop_drop, drop_ge; [done|].
    unfold vch_size in *. lia.
  - split; [lia|]. split; [split; unfold vch_size in *; cbn [vch nReadPos] in *; lia|].
    split; [done|]. cbn [vch nReadPos]. rewrite drop_drop. f_equal. lia.
Qed.

Lemma ignore_read s n : ignore s n = option_map snd (read s n).
Proof. unfold ignore, read. repeat dmatch; done. Qed.

Lemma write_refines s l : ok s -> rest (write s l) = rest s ++ l.
Proof.
  intros [??]. unfold rest, write, vch_size in *. cbn [vch nReadPos].
  rewrite drop_app_le by lia. done.
Qed.

Lemma insert_refines s at_ l : ok s -> 0 <= at_ <= size s ->
  rest (insert s at_ l) = take (Z.to_nat at_) (rest s) ++ l ++ drop (Z.to_nat at_) (rest s).
Proof.
  intros [??] Ha. unfold insert, rest, size, vch_size in *.
  destruct (Z.eqb_spec at_ 0) as [->|]; [destruct (Z.leb_spec (Z.of_nat (length l)) (nReadPos s))|];
    cbn [andb vch nReadPos].
  - rewrite take_0, drop_0. rewrite drop_app_le by (rewrite length_take; lia).
    rewrite (drop_ge (take _ _)) by (rewrite length_take; lia). cbn [app]. do 2 f_equal. lia.
  - rewrite take_0, drop_0, Z.add_0_r. rewrite drop_app_le by (rewrite length_take; lia).
    rewrite (drop_ge (take _ _)) by (rewrite length_take; lia). done.
  - rewrite drop_app_le by (rewrite length_take; lia).
    replace (Z.to_nat (nReadPos s + at_)) with (Z.to_nat (nReadPos s) + Z.to_nat at_)%nat by lia.
    rewrite take_drop_commute, drop_drop. done.
Qed.

Lemma erase_refines s at_ cnt : ok s -> 0 <= at_ -> 0 <= cnt -> at_ + cnt <= size s ->
  rest (erase s at_ cnt) =
  take (Z.to_nat at_) (rest s) ++ drop (Z.to_nat at_ + Z.to_nat cnt) (rest s).
Proof.
  intros [??] Ha Hc Hb. unfold erase, rest, size, vch_size in *.
  destruct (Z.eqb_spec at_ 0) as [->|]; [destruct (Z.eqb_spec (Z.of_nat (length (vch s))) (nReadPos s + cnt))|];
    cbn [vch nReadPos].
  - rewrite drop_nil, take_0, drop_drop, drop_ge by lia. done.
  - rewrite take_0, drop_drop. cbn [app]. f_equal. lia.
  - rewrite drop_app_le by (rewrite length_take; lia).
    replace (Z.to_nat (nReadPos s + at_)) with (Z.to_nat (nReadPos s) + Z.to_nat at_)%nat by lia.
    rewrite take_drop_commute, drop_drop. do 2 f_equal. lia.
Qed.

Lemma Compact_refines s : rest (Compact s) = rest s.
Proof. done. Qed.

(** Rewinding undoes a read that did not empty the buffer. *)
Lemma Rewind_read s n data s' : ok s -> 0 <= n < 2 ^ 31 ->
  read s n = Some (data, s') -> n < size s -> Rewind s' n = (true, s).
Proof.
  intros [??] Hn Hr Hlt. unfold read, size in *. rewrite u32_small in Hr by lia.
  destruct (Z.leb_spec (vch_size s) (nReadPos s + n)); [lia|]. injection Hr as <- <-.
  unfold Rewind. cbn [nReadPos vch]. destruct (Z.ltb_spec (nReadPos s + n) n); [lia|].
  destruct s as [v p]. cbn [nReadPos vch]. do 2 f_equal. lia.
Qed.
End DataStream.

(** ** Codecs

    [enc] is [Serialize], [dec] is [Unserialize] on the unread part of the
    stream ([None] when it throws) and [csize] is [GetSerializeSize], an
    [unsigned int]. *)

Record codec (A : Type) := Codec {
  enc : A -> list Z;
  dec : list Z -> option (A * list Z);
  csize : A -> Z;
}.
Arguments Codec {A}.
Arguments enc {A}.
Arguments dec {A}.
Arguments csize {A}.

(** What clients of serialization rely on, for the values that satisfy [valid]. *)
Record codec_ok {A} (c : codec A) (valid : A -> Prop) : Prop := {
  dec_enc : forall a rest, valid a -> dec c (enc c a ++ rest) = Some (a, rest);
  csize_enc : forall a, valid a -> csize c a = u32 (Z.of_nat (length (enc c a)));
  enc_bytes : forall a, valid a -> bytes_ok (enc c a);
  dec_valid : forall bs a rest, bytes_ok bs -> dec c bs = Some (a, rest) ->
    valid a /\ exists used, bs = used ++ rest;
}.
Arguments dec_enc {A c valid}.
Arguments csize_enc {A c valid}.
Arguments enc_bytes {A c valid}.
Arguments dec_valid {A c valid}.

(** [s.read(p, n)] on the unread part of the stream. *)
Definition read_bytes (n : nat) (bs : list Z) : option (list Z * list Z) :=
  if (n <=? length bs)%nat then Some (take n bs, drop n bs) else None.

Lemma read_bytes_app n l rest : length l = n -> read_bytes n (l ++ rest) = Some (l, rest).
Proof.
  intros <-. unfold read_bytes. rewrite length_app.
  rewrite (proj2 (Nat.leb_le _ _)) by lia. by rewrite take_app_length, drop_app_length.
Qed.

Lemma read_bytes_Some n bs l rest : read_bytes n bs = Some (l, rest) -> bs = l ++ rest /\ length l = n.
Proof.
  unfold read_bytes. destruct (Nat.leb_spec n (length bs)); [|done]. intros [= <- <-].
  rewrite take_drop, length_take. split; [done|lia].
Qed.

(** Reading from a [CDataStream] and from its unread part agree. *)
Lemma read_bytes_stream s n : DataStream.ok s -> 0 <= n < 2 ^ 31 ->
  read_bytes (Z.to_nat n) (DataStream.rest s) =
  option_map (fun r => (fst r, DataStream.rest (snd r))) (DataStream.read s n).
Proof.
  intros Hs Hn. pose proof (DataStream.read_refines s n Hs Hn) as H.
  pose proof (DataStream.length_rest s Hs). unfold read_bytes.
  destruct (DataStream.read s n) as [[d s']|]; simpl.
  - destruct H as (Hle & _ & -> & ->). by rewrite (proj2 (Nat.leb_le _ _)) by lia.
  - by rewrite (proj2 (Nat.leb_gt _ _)) by lia.
Qed.

(** *** Fixed-width integers: WRITEDATA and READDATA *)

(** An unsigned integer of [n] bytes. *)
Definition uint_codec (n : nat) : codec Z := {|
  enc z := le_bytes n z;
  dec bs := option_map (fun r => (le_val (fst r), snd r)) (read_bytes n bs);
  csize _ := Z.of_nat n;
|}.

(** A signed integer of [n] bytes, in two's complement. *)
Definition to_signed (n : nat) (z : Z) : Z :=
  if z <? 2 ^ (8 * Z.of_nat n - 1) then z else z - 2 ^ (8 * Z.of_nat n).

Definition sint_codec (n : nat) : codec Z := {|
  enc z := le_bytes n z;
  dec bs := option_map (fun r => (to_signed n (le_val (fst r)), snd r)) (read_bytes n bs);
  csize _ := Z.of_nat n;
|}.

Definition uint_valid (n : nat) (z : Z) : Prop := 0 <= z < 2 ^ (8 * Z.of_nat n).
Definition sint_valid (n : nat) (z : Z) : Prop :=
  - 2 ^ (8 * Z.of_nat n - 1) <= z < 2 ^ (8 * Z.of_nat n - 1).

Lemma pow256 n : 256 ^ Z.of_nat n = 2 ^ (8 * Z.of_nat n).
Proof. change 256 with (2 ^ 8). by rewrite <- Z.pow_mul_r by lia. Qed.

Lemma uint_codec_ok n : (n <= 8)%nat -> codec_ok (uint_codec n) (uint_valid n).
Proof.
  intros Hn. split; cbn [enc dec csize uint_codec].
  - intros a rest Ha. rewrite read_bytes_app by apply length_le_bytes. cbn [option_map fst snd].
    rewrite le_val_bytes, pow256, Z.mod_small by done. done.
  - intros a _. rewrite length_le_bytes, u32_small by lia. done.
  - auto with mota.
  - intros bs a rest Hb Hd. destruct (read_bytes n bs) as [[l r]|] eqn:E; [|done].
    injection Hd as <- <-. apply read_bytes_Some in E as [-> El].
    apply digits_ok_app in Hb as [Hl _]. split; [|by exists l].
    pose proof (undigits_bound 256 ltac:(lia) l Hl) as B. rewrite El, pow256 in B. exact B.
Qed.

Lemma to_signed_range n z : (1 <= n)%nat -> 0 <= z < 2 ^ (8 * Z.of_nat n) -> sint_valid n (to_signed n z).
Proof.
  intros Hn Hz. unfold sint_valid, to_signed.
  set (h := 8 * Z.of_nat n - 1) in *. assert (Eh : 8 * Z.of_nat n = Z.succ h) by lia.
  rewrite Eh, Z.pow_succ_r in * by lia. destruct (Z.ltb_spec z (2 ^ h)); lia.
Qed.

Lemma to_signed_mod n z : (1 <= n)%nat -> sint_valid n z -> to_signed n (z mod 2 ^ (8 * Z.of_nat n)) = z.
Proof.
  intros Hn Hz. unfold sint_valid, to_signed in *.
  set (h := 8 * Z.of_nat n - 1) in *. assert (Eh : 8 * Z.of_nat n = Z.succ h) by lia.
  rewrite Eh, Z.pow_succ_r by lia.
  destruct (Z.lt_ge_cases z 0).
  - rewrite <- (Z_mod_plus_full z 1), Z.mod_small by lia.
    destruct (Z.ltb_spec (z + 1 * (2 * 2 ^ h)) (2 ^ h)); lia.
  - rewrite Z.mod_small by lia. destruct (Z.ltb_spec z (2 ^ h)); lia.
Qed.

Lemma sint_codec_ok n : (1 <= n <= 8)%nat -> codec_ok (sint_codec n) (sint_valid n).
Proof.
  intros Hn. split; cbn [enc dec csize sint_codec].
  - intros a rest Ha. rewrite read_bytes_app by apply length_le_bytes. cbn [option_map fst snd].
    rewrite le_val_bytes, pow256, to_signed_mod by (done || lia). done.
  - intros a _. rewrite length_le_bytes, u32_small by lia. done.
  - auto with mota.
  - intros bs a rest Hb Hd. destruct (read_bytes n bs) as [[l r]|] eqn:E; [|done].
    injection Hd as <- <-. apply read_bytes_Some in E as [-> El].
    apply digits_ok_app in Hb as [Hl _]. split; [|by exists l].
    pose proof (undigits_bound 256 ltac:(lia) l Hl) as B. rewrite El, pow256 in B.
    apply to_signed_range; [lia|exact B].
Qed.

(** *** CompactSize *)

Definition MAX_SIZE : Z := 0x02000000.

Definition GetSizeOfCompactSize (nSize : Z) : Z :=
  if nSize <? 253 then 1
  else if nSize <=? 0xffff then 1 + 2
  else if nSize <=? 0xffffffff then 1 + 4
  else 1 + 8.

Definition WriteCompactSize (nSize : Z) : list Z :=
  if nSize <? 253 then le_bytes 1 nSize
  else if nSize <=? 0xffff then le_bytes 1 253 ++ le_bytes 2 nSize
  else if nSize <=? 0xffffffff then le_bytes 1 254 ++ le_bytes 4 nSize
  else le_bytes 1 255 ++ le_bytes 8 nSize.

Definition ReadCompactSize (bs : list Z) : option (Z * list Z) :=
  match dec (uint_codec 1) bs with
  | None => None
  | Some (chSize, bs) =>
      let xSize :=
        if chSize <? 253 then Some (chSize, bs)
        else if chSize =? 253 then dec (uint_codec 2) bs
        else if chSize =? 254 then dec (uint_codec 4) bs
        else dec (uint_codec 8) bs in
      match xSize with
      | None => None
      | Some (nSizeRet, bs) => if MAX_SIZE <? nSizeRet then None else Some (nSizeRet, bs)
      end
  end.

Definition compact_codec : codec Z := {|
  enc := WriteCompactSize; dec := ReadCompactSize; csize := GetSizeOfCompactSize |}.

Definition compact_valid (n : Z) : Prop := 0 <= n <= MAX_SIZE.

Lemma compact_codec_ok : codec_ok compact_codec compact_valid.
Proof.
  split; cbn [enc dec csize compact_codec].
  - intros n rest [H0 Hmax]. unfold MAX_SIZE in *.
    assert (Hu : forall k r, (k <= 8)%nat -> uint_valid k n -> dec (uint_codec k) (le_bytes k n ++ r) = Some (n, r))
      by (intros k r Hk Hv; by apply (dec_enc (uint_codec_ok k Hk))).
    unfold WriteCompactSize, ReadCompactSize, MAX_SIZE.
    destruct (Z.ltb_spec n 253); [|destruct (Z.leb_spec n 0xffff); [|destruct (Z.leb_spec n 0xffffffff); [|lia]]].
    + rewrite Hu by (unfold uint_valid; lia). rewrite (proj2 (Z.ltb_lt n 253)) by done.
      by rewrite (proj2 (Z.ltb_ge _ n)) by lia.
    + rewrite <- app_assoc.
      rewrite (dec_enc (uint_codec_ok 1 ltac:(lia)) 253) by (unfold uint_valid; lia).
      cbn -[dec uint_codec digits app]. rewrite Hu by (unfold uint_valid; lia). by rewrite (proj2 (Z.ltb_ge _ n)) by lia.
    + rewrite <- app_assoc.
      rewrite (dec_enc (uint_codec_ok 1 ltac:(lia)) 254) by (unfold uint_valid; lia).
      cbn -[dec uint_codec digits app]. rewrite Hu by (unfold uint_valid; lia). by rewrite (proj2 (Z.ltb_ge _ n)) by lia.
  - intros n [H0 _]. unfold GetSizeOfCompactSize, WriteCompactSize.
    repeat dmatch; rewrite ?length_app, ?length_le_bytes; reflexivity.
  - intros n _. unfold WriteCompactSize.
    repeat dmatch; rewrite ?digits_ok_app; auto with mota.
  - intros bs n rest Hb. unfold ReadCompactSize.
    destruct (dec (uint_codec 1) bs) as [[ch bs1]|] eqn:E1; [|done].
    destruct (dec_valid (uint_codec_ok 1 ltac:(lia)) _ _ _ Hb E1) as [Hch [u ->]].
    apply digits_ok_app in Hb as [Hu Hb1].
    assert (Hk : forall k a r, (k <= 8)%nat -> dec (uint_codec k) bs1 = Some (a, r) ->
      0 <= a /\ exists used, u ++ bs1 = used ++ r).
    { intros k a r Hk Ek. destruct (dec_valid (uint_codec_ok k Hk) _ _ _ Hb1 Ek) as [Ha [v ->]].
      split; [apply Ha|]. exists (u ++ v). by rewrite app_assoc. }
    unfold uint_valid in Hch. intros Hd. unfold compact_valid.
    repeat dmatch_in Hd; simplify_eq; bprop;
      try (edestruct Hk as [? ?]; [|eassumption|]; [lia|]); eauto with lia.
Qed.

(** *** VarInt, for an unsigned type of [w] bits *)

Module VarInt.

(** The loop that fills [tmp], least significant group first; [len] is zero
    for the first byte only.  The fuel is the size of the array [tmp]:
    [None] would be a write past its end. *)
Fixpoint tmp_loop (fuel : nat) (len : nat) (n : Z) : option (list Z) :=
  match fuel with
  | O => None
  | S fuel =>
      let b := Z.lor (Z.land n 0x7F) (if (len =? 0)%nat then 0x00 else 0x80) in
      if n <=? 0x7F then Some [b]
      else option_map (cons b) (tmp_loop fuel (S len) (Z.shiftr n 7 - 1))
  end.

(** [(sizeof(n)*8+6)/7] *)
Definition tmp_size (w : nat) : nat := ((w + 6) / 7)%nat.

Definition WriteVarInt (w : nat) (n : Z) : option (list Z) :=
  option_map reverse (tmp_loop (tmp_size w) 0 n).

Fixpoint size_loop (fuel : nat) (nRet : Z) (n : Z) : Z :=
  match fuel with
  | O => nRet
  | S fuel =>
      let nRet := nRet + 1 in
      if n <=? 0x7F then nRet else size_loop fuel nRet (Z.shiftr n 7 - 1)
  end.

(** Each round divides by 128, so a [w]-bit value needs at most [w] of them. *)
Definition GetSizeOfVarInt (w : nat) (n : Z) : Z := size_loop (S w) 0 n.

Fixpoint read_loop (w : nat) (n : Z) (bs : list Z) : option (Z * list Z) :=
  match bs with
  | [] => None
  | chData :: bs =>
      let n := Z.lor (Z.shiftl n 7 mod 2 ^ Z.of_nat w) (Z.land chData 0x7F) in
      if negb (Z.land chData 0x80 =? 0) then read_loop w ((n + 1) mod 2 ^ Z.of_nat w) bs
      else Some (n, bs)
  end.

Definition ReadVarInt (w : nat) (bs : list Z) : option (Z * list Z) := read_loop w 0 bs.

Lemma low7 n : Z.land n 0x7F = n mod 128.
Proof. change 0x7F with (2 ^ 7 - 1). by rewrite land_ones_mod. Qed.

Lemma group_byte n c : c = 0 \/ c = 0x80 -> is_byte (Z.lor (Z.land n 0x7F) c).
Proof.
  intros Hc. rewrite low7. pose proof (Z.mod_pos_bound n 128).
  destruct Hc as [-> | ->]; [rewrite Z.lor_0_r; lia|].
  pose proof (lor_disjoint (n mod 128) 1 7) as E. change (1 * 2 ^ 7) with 0x80 in E.
  rewrite E; lia.
Qed.

Lemma next_bounds n k : 0x7F < n < 2 ^ (7 * Z.of_nat (S k)) ->
  0 <= Z.shiftr n 7 - 1 < 2 ^ (7 * Z.of_nat k).
Proof.
  intros H. rewrite Z.shiftr_div_pow2 by lia. change (2 ^ 7) with 128.
  assert (1 <= n / 128) by (apply Z.div_le_lower_bound; lia).
  replace (7 * Z.of_nat (S k)) with (7 * Z.of_nat k + 7) in H by lia.
  rewrite Z.pow_add_r in H by lia.
  assert (n / 128 < 2 ^ (7 * Z.of_nat k)) by (apply Z.div_lt_upper_bound; lia). lia.
Qed.

Lemma next_step w n : 0x7F < n < 2 ^ Z.of_nat w ->
  0 <= Z.shiftr n 7 - 1 /\ Z.shiftr n 7 - 1 + 1 < 2 ^ Z.of_nat w.
Proof.
  intros. rewrite Z.shiftr_div_pow2 by lia. change (2 ^ 7) with 128.
  assert (1 <= n / 128) by (apply Z.div_le_lower_bound; lia).
  assert (n / 128 <= n) by (apply Z.div_le_upper_bound; lia). lia.
Qed.

Lemma tmp_loop_S fuel len n :
  tmp_loop (S fuel) len n =
  let b := Z.lor (Z.land n 0x7F) (if (len =? 0)%nat then 0x00 else 0x80) in
  if n <=? 0x7F then Some [b]
  else option_map (cons b) (tmp_loop fuel (S len) (Z.shiftr n 7 - 1)).
Proof. done. Qed.

Lemma tmp_loop_total k len n : 0 <= n < 2 ^ (7 * Z.of_nat (S k)) ->
  exists l, tmp_loop (S k) len n = Some l /\ (1 <= length l <= S k)%nat /\ bytes_ok l /\
    forall f r, (length l <= f)%nat -> size_loop f r n = r + Z.of_nat (length l).
Proof.
  revert len n. induction k as [|k IH]; intros len n Hn;
    rewrite tmp_loop_S; cbv zeta; set (b := Z.lor _ _);
    assert (Hb : is_byte b) by (subst b; destruct (len =? 0)%nat; apply group_byte; auto);
    destruct (Z.leb_spec n 0x7F) as [Hle|Hgt].
  - exists [b]. split; [done|]. split; [simpl; lia|]. split; [by apply digits_ok_one|].
    intros [|f] r Hf; simpl in Hf; [lia|]. cbn. by rewrite (proj2 (Z.leb_le n 127)).
  - simpl in Hn. lia.
  - exists [b]. split; [done|]. split; [simpl; lia|]. split; [by apply digits_ok_one|].
    intros [|f] r Hf; simpl in Hf; [lia|]. cbn. by rewrite (proj2 (Z.leb_le n 127)).
  - destruct (IH (S len) (Z.shiftr n 7 - 1)) as (l & -> & Hl & Hok & Hsz); [apply next_bounds; lia|].
    exists (b :: l). split; [done|]. split; [simpl; lia|]. split; [by apply Forall_cons|].
    intros [|f] r Hf; cbn [length] in *; [lia|]. cbn [size_loop].
    rewrite (proj2 (Z.leb_gt n 127)) by lia. rewrite Hsz by lia. lia.
Qed.

Lemma read_step w n m c : 0 <= n < 2 ^ Z.of_nat w -> Z.shiftr n 7 = m -> c = 0 \/ c = 0x80 ->
  Z.lor (Z.shiftl m 7 mod 2 ^ Z.of_nat w) (Z.land (Z.lor (Z.land n 0x7F) c) 0x7F) = n /\
  Z.land (Z.lor (Z.land n 0x7F) c) 0x80 = c.
Proof.
  intros Hn <- Hc. pose proof (Z.mod_pos_bound n 128). pose proof (Z.div_mod n 128).
  rewrite Z.shiftr_div_pow2, Z.shiftl_mul_pow2 by lia. change (2 ^ 7) with 128.
  rewrite Z.mod_small by lia.
  assert (E : Z.land (Z.lor (Z.land n 0x7F) c) 0x7F = n mod 128).
  { rewrite Z.land_lor_distr_l, <- Z.land_assoc, Z.land_diag, low7.
    destruct Hc as [-> | ->]; apply Z.lor_0_r. }
  rewrite E. split.
  - rewrite Z.lor_comm. change 128 with (2 ^ 7). rewrite lor_disjoint; change (2 ^ 7) with 128; lia.
  - rewrite Z.land_lor_distr_l, <- Z.land_assoc, Z.land_0_r, Z.lor_0_l.
    by destruct Hc as [-> | ->].
Qed.

(** After the bytes of [n] with the continuation bit, the reader holds [n+1]. *)
Lemma read_continued w fuel len n l rest :
  0 <= n -> n + 1 < 2 ^ Z.of_nat w -> tmp_loop fuel (S len) n = Some l ->
  read_loop w 0 (reverse l ++ rest) = read_loop w (n + 1) rest.
Proof.
  revert len n l rest. induction fuel as [|fuel IH]; intros len n l rest H0 Hn; [done|].
  cbn [tmp_loop Nat.eqb]. destruct (Z.leb_spec n 0x7F).
  - intros [= <-]. cbn [reverse rev_append app read_loop].
    destruct (read_step w n 0 0x80) as [-> ->]; [lia| |by right|].
    { rewrite Z.shiftr_div_pow2 by lia. apply Z.div_small. lia. }
    cbn [negb Z.eqb]. by rewrite Z.mod_small by lia.
  - destruct (tmp_loop fuel (S (S len)) (Z.shiftr n 7 - 1)) as [l'|] eqn:E; [|done].
    intros [= <-]. rewrite reverse_cons, <- app_assoc.
    destruct (next_step w n) as [H1 H2]; [lia|].
    rewrite (IH _ _ _ _ H1 H2 E). rewrite Z.sub_add. cbn [app read_loop].
    destruct (read_step w n (Z.shiftr n 7) 0x80) as [-> ->]; [lia|done|by right|].
    cbn [negb Z.eqb]. by rewrite Z.mod_small by lia.
Qed.

Lemma read_write w n rest l : 0 <= n < 2 ^ Z.of_nat w ->
  WriteVarInt w n = Some l -> ReadVarInt w (l ++ rest) = Some (n, rest).
Proof.
  intros Hn. unfold WriteVarInt, ReadVarInt. destruct (tmp_loop _ 0 n) as [t|] eqn:E; [|done].
  intros [= <-]. destruct (tmp_size w) as [|f]; [done|]. cbn [tmp_loop Nat.eqb] in E.
  destruct (Z.leb_spec n 0x7F).
  - injection E as <-. cbn [reverse rev_append app read_loop].
    destruct (read_step w n 0 0) as [-> ->]; [lia| |by left|done].
    rewrite Z.shiftr_div_pow2 by lia. apply Z.div_small. lia.
  - destruct (tmp_loop f 1 _) as [l|] eqn:E'; [|done]. injection E as <-.
    rewrite reverse_cons, <- app_assoc.
    destruct (next_step w n) as [H1 H2]; [lia|].
    rewrite (read_continued _ _ _ _ _ _ H1 H2 E'). rewrite Z.sub_add.
    cbn [app read_loop].
    destruct (read_step w n (Z.shiftr n 7) 0) as [-> ->]; [lia|done|by left|done].
Qed.

(** Writing never runs past [tmp] and announces its size. *)
Lemma write_total w n : (1 <= w <= 64)%nat -> 0 <= n < 2 ^ Z.of_nat w ->
  exists l, WriteVarInt w n = Some l /\ bytes_ok l /\ (length l <= tmp_size w)%nat /\
    GetSizeOfVarInt w n = Z.of_nat (length l).
Proof.
  intros Hw Hn. unfold WriteVarInt, GetSizeOfVarInt.
  pose proof (Nat.div_mod_eq (w + 6) 7) as D. pose proof (Nat.mod_upper_bound (w + 6) 7).
  fold (tmp_size w) in D. destruct (tmp_size w) as [|k] eqn:Ek; [lia|].
  destruct (tmp_loop_total k 0 n) as (l & -> & Hl & Hok & Hsz).
  { split; [lia|]. apply Z.lt_le_trans with (2 ^ Z.of_nat w); [lia|].
    apply Z.pow_le_mono_r; lia. }
  exists (reverse l). split; [done|]. split; [by apply digits_ok_rev|].
  rewrite length_reverse. split; [lia|]. rewrite Hsz; [lia|].
  assert (S k <= w)%nat by nia. lia.
Qed.
End VarInt.

(** *** Containers *)

(** [Unserialize_impl] for a vector of [unsigned char] reads at most 5000000
    bytes at a time, so that a bogus size does not allocate at once. *)
Fixpoint read_blocks (fuel : nat) (nSize i : Z) (bs : list Z) : option (list Z * list Z) :=
  if i <? nSize then
    match fuel with
    | O => None
    | S fuel =>
        let blk := Z.min (nSize - i) (1 + 4999999 / 1) in
        match read_bytes (Z.to_nat blk) bs with
        | None => None
        | Some (l, bs) =>
            match read_blocks fuel nSize (i + blk) bs with
            | None => None
            | Some (v, bs) => Some (l ++ v, bs)
            end
        end
    end
  else Some ([], bs).

Definition bytevec_codec : codec (list Z) := {|
  enc v := WriteCompactSize (Z.of_nat (length v)) ++ v;
  dec bs :=
    match ReadCompactSize bs with
    | None => None
    | Some (nSize, bs) => read_blocks (S (Z.to_nat (nSize / 5000000))) nSize 0 bs
    end;
  csize v := u32 (GetSizeOfCompactSize (Z.of_nat (length v)) + Z.of_nat (length v) * 1);
|}.

(** The element loop of [Unserialize_impl] for a class type; the blocks it
    resizes the vector by change the allocation only. *)
Fixpoint dec_n {A} (c : codec A) (n : nat) (bs : list Z) : option (list A * list Z) :=
  match n with
  | O => Some ([], bs)
  | S n =>
      match dec c bs with
      | None => None
      | Some (a, bs) =>
          match dec_n c n bs with
          | None => None
          | Some (v, bs) => Some (a :: v, bs)
          end
      end
  end.

Definition vector_codec {A} (c : codec A) : codec (list A) := {|
  enc v := WriteCompactSize (Z.of_nat (length v)) ++ flat_map (enc c) v;
  dec bs :=
    match ReadCompactSize bs with
    | None => None
    | Some (nSize, bs) => dec_n c (Z.to_nat nSize) bs
    end;
  csize v := fold_left (fun nSize a => u32 (nSize + csize c a)) v
               (GetSizeOfCompactSize (Z.of_nat (length v)));
|}.

Definition pair_codec {A B} (ca : codec A) (cb : codec B) : codec (A * B) := {|
  enc p := enc ca (fst p) ++ enc cb (snd p);
  dec bs :=
    match dec ca bs with
    | None => None
    | Some (a, bs) =>
        match dec cb bs with
        | None => None
        | Some (b, bs) => Some ((a, b), bs)
        end
    end;
  csize p := u32 (csize ca (fst p) + csize cb (snd p));
|}.

(** A record whose IMPLEMENT_SERIALIZE lists its fields is the codec of the
    fields in order, carried along the constructor of the record. *)
Definition iso_codec {A B} (to : A -> B) (from : B -> A) (c : codec B) : codec A := {|
  enc a := enc c (to a);
  dec bs := option_map (fun r => (from (fst r), snd r)) (dec c bs);
  csize a := csize c (to a);
|}.

Lemma read_blocks_eq fuel nSize i bs : 0 <= i <= nSize -> nSize - i <= 5000000 * Z.of_nat fuel ->
  read_blocks fuel nSize i bs = read_bytes (Z.to_nat (nSize - i)) bs.
Proof.
  revert i bs. induction fuel as [|fuel IH]; intros i bs Hi Hf; cbn [read_blocks];
    destruct (Z.ltb_spec i nSize); try lia;
    try (replace (Z.to_nat (nSize - i)) with 0%nat by lia; reflexivity).
  change (1 + 4999999 / 1) with 5000000. remember (Z.min (nSize - i) 5000000) as blk eqn:Hblk.
  unfold read_bytes at 1.
  destruct (Nat.leb_spec (Z.to_nat blk) (length bs)) as [Hb|Hb].
  - rewrite IH by lia. unfold read_bytes. rewrite length_drop.
    replace (Z.to_nat (nSize - i)) with (Z.to_nat blk + Z.to_nat (nSize - (i + blk)))%nat by lia.
    destruct (Nat.leb_spec (Z.to_nat (nSize - (i + blk))) (length bs - Z.to_nat blk)).
    + rewrite (proj2 (Nat.leb_le _ _)) by lia. rewrite drop_drop. do 2 f_equal.
      rewrite <- (take_drop (Z.to_nat blk) bs) at 3. rewrite take_app_ge by (rewrite length_take; lia).
      rewrite length_take. do 2 f_equal. lia.
    + by rewrite (proj2 (Nat.leb_gt _ _)) by lia.
  - unfold read_bytes. by rewrite (proj2 (Nat.leb_gt _ _)) by lia.
Qed.

Definition bytevec_valid (v : list Z) : Prop := Z.of_nat (length v) <= MAX_SIZE /\ bytes_ok v.

Lemma GetSizeOfCompactSize_bound n : 1 <= GetSizeOfCompactSize n <= 9.
Proof. unfold GetSizeOfCompactSize. repeat dmatch; lia. Qed.

Lemma WriteCompactSize_length n : Z.of_nat (length (WriteCompactSize n)) = GetSizeOfCompactSize n.
Proof.
  unfold GetSizeOfCompactSize, WriteCompactSize.
  repeat dmatch; rewrite ?length_app, ?length_le_bytes; reflexivity.
Qed.

Lemma bytevec_codec_ok : codec_ok bytevec_codec bytevec_valid.
Proof.
  assert (Hrb : forall n bs, 0 <= n -> read_blocks (S (Z.to_nat (n / 5000000))) n 0 bs = read_bytes (Z.to_nat n) bs).
  { intros n bs Hn. rewrite read_blocks_eq; [by rewrite Z.sub_0_r|lia|].
    pose proof (Z.div_mod n 5000000). pose proof (Z.mod_pos_bound n 5000000).
    rewrite Nat2Z.inj_succ, Z2Nat.id by (apply Z.div_pos; lia). lia. }
  split; cbn [enc dec csize bytevec_codec].
  - intros v rest [Hl Hv]. rewrite <- app_assoc.
    rewrite (dec_enc compact_codec_ok (Z.of_nat (length v))) by (split; lia).
    rewrite Hrb, Nat2Z.id by lia. by apply read_bytes_app.
  - intros v [Hl _]. rewrite length_app, Nat2Z.inj_add, WriteCompactSize_length. f_equal. lia.
  - intros v [Hl Hv]. apply digits_ok_app. split; [|done].
    apply (enc_bytes compact_codec_ok). split; lia.
  - intros bs v rest Hb. destruct (ReadCompactSize bs) as [[n bs1]|] eqn:E; [|done].
    destruct (dec_valid compact_codec_ok _ _ _ Hb E) as [[H0 H1] [u ->]].
    apply digits_ok_app in Hb as [_ Hb1]. rewrite Hrb by done. intros Hr.
    apply read_bytes_Some in Hr as [-> Hl]. apply digits_ok_app in Hb1 as [Hv _].
    split; [split; [lia|done]|]. exists (u ++ v). by rewrite app_assoc.
Qed.

Section Combinators.
Context {A B : Type} (ca : codec A) (cb : codec B) (va : A -> Prop) (vb : B -> Prop).
Context (Ha : codec_ok ca va) (Hb : codec_ok cb vb).

Definition vector_valid (v : list A) : Prop := Z.of_nat (length v) <= MAX_SIZE /\ Forall va v.

Lemma u32_add x y : u32 (u32 x + u32 y) = u32 (x + y).
Proof. unfold u32. by rewrite <- Zplus_mod. Qed.

Lemma dec_n_enc v rest : Forall va v ->
  dec_n ca (length v) (flat_map (enc ca) v ++ rest) = Some (v, rest).
Proof.
  induction 1 as [|a v Hv Hvs IH]; [done|]. cbn [length dec_n flat_map].
  rewrite <- app_assoc, (dec_enc Ha) by done. by rewrite IH.
Qed.

Lemma dec_n_valid n bs v rest : bytes_ok bs -> dec_n ca n bs = Some (v, rest) ->
  Forall va v /\ length v = n /\ exists used, bs = used ++ rest.
Proof.
  revert bs v. induction n as [|n IH]; intros bs v Hbs; cbn [dec_n].
  - intros [= <- <-]. split; [constructor|]. split; [done|]. by exists [].
  - destruct (dec ca bs) as [[a bs1]|] eqn:E; [|done].
    destruct (dec_valid Ha _ _ _ Hbs E) as [Hva [u ->]].
    apply digits_ok_app in Hbs as [_ Hbs]. destruct (dec_n ca n bs1) as [[w bs2]|] eqn:E2; [|done].
    intros [= <- <-]. destruct (IH _ _ Hbs E2) as (Hw & Hl & [u2 ->]).
    split; [by constructor|]. split; [simpl; lia|]. exists (u ++ u2). by rewrite app_assoc.
Qed.

Lemma vector_csize v s : Forall va v ->
  fold_left (fun nSize a => u32 (nSize + csize ca a)) v (u32 s) =
  u32 (s + Z.of_nat (length (flat_map (enc ca) v))).
Proof.
  intros H. revert s. induction H as [|a v Hv Hvs IH]; intros s; cbn [fold_left flat_map].
  - f_equal. simpl. lia.
  - rewrite (csize_enc Ha) by done. rewrite u32_add, IH, length_app, Nat2Z.inj_add. f_equal. lia.
Qed.

Lemma vector_codec_ok : codec_ok (vector_codec ca) vector_valid.
Proof.
  split; cbn [enc dec csize vector_codec].
  - intros v rest [Hl Hv]. rewrite <- app_assoc.
    rewrite (dec_enc compact_codec_ok (Z.of_nat (length v))) by (split; lia).
    rewrite Nat2Z.id. by apply dec_n_enc.
  - intros v [Hl Hv]. pose proof (GetSizeOfCompactSize_bound (Z.of_nat (length v))).
    rewrite <- (u32_small (GetSizeOfCompactSize _)) by lia.
    rewrite vector_csize by done. by rewrite length_app, Nat2Z.inj_add, WriteCompactSize_length.
  - intros v [Hl Hv]. apply digits_ok_app. split.
    + apply (enc_bytes compact_codec_ok). split; lia.
    + clear Hl. induction Hv; [constructor|]. apply digits_ok_app. split; [by apply (enc_bytes Ha)|done].
  - intros bs v rest Hbs. destruct (ReadCompactSize bs) as [[n bs1]|] eqn:E; [|done].
    destruct (dec_valid compact_codec_ok _ _ _ Hbs E) as [[H0 H1] [u ->]].
    apply digits_ok_app in Hbs as [_ Hb1]. intros Hr.
    destruct (dec_n_valid _ _ _ _ Hb1 Hr) as (Hv & Hl & [u2 ->]).
    split; [split; [lia|done]|]. exists (u ++ u2). by rewrite app_assoc.
Qed.

Definition pair_valid (p : A * B) : Prop := va (fst p) /\ vb (snd p).

Lemma pair_codec_ok : codec_ok (pair_codec ca cb) pair_valid.
Proof.
  split; cbn [enc dec csize pair_codec].
  - intros [a b] rest [H1 H2]. cbn [fst snd] in *.
    rewrite <- app_assoc, (dec_enc Ha) by done. by rewrite (dec_enc Hb).
  - intros [a b] [H1 H2]. cbn [fst snd] in *. rewrite (csize_enc Ha), (csize_enc Hb) by done.
    by rewrite u32_add, length_app, Nat2Z.inj_add.
  - intros [a b] [H1 H2]. apply digits_ok_app. split; [by apply (enc_bytes Ha) | by apply (enc_bytes Hb)].
  - intros bs [a b] rest Hbs. destruct (dec ca bs) as [[a' bs1]|] eqn:E; [|done].
    destruct (dec_valid Ha _ _ _ Hbs E) as [Hva [u ->]]. apply digits_ok_app in Hbs as [_ Hbs].
    destruct (dec cb bs1) as [[b' bs2]|] eqn:E2; [|done]. intros [= <- <- <-].
    destruct (dec_valid Hb _ _ _ Hbs E2) as [Hvb [u2 ->]].
    split; [by split|]. exists (u ++ u2). by rewrite app_assoc.
Qed.

Lemma iso_codec_ok (to : B -> A) (from : A -> B) :
  (forall b, from (to b) = b) -> (forall a, to (from a) = a) ->
  codec_ok (iso_codec to from ca) (fun b => va (to b)).
Proof.
  intros Hft Htf. split; cbn [enc dec csize iso_codec].
  - intros b rest Hv. rewrite (dec_enc Ha) by done. cbn [option_map fst snd]. by rewrite Hft.
  - intros b Hv. by apply (csize_enc Ha).
  - intros b Hv. by apply (enc_bytes Ha).
  - intros bs b rest Hbs. destruct (dec ca bs) as [[a bs1]|] eqn:E; [|done].
    intros [= <- <-]. rewrite Htf. by apply (dec_valid Ha).
Qed.
End Combinators.

Lemma codec_ok_weaken {A} (c : codec A) (v1 v2 : A -> Prop) :
  codec_ok c v1 -> (forall a, v1 a <-> v2 a) -> codec_ok c v2.
Proof.
  intros H E. split.
  - intros. apply (dec_enc H). by apply E.
  - intros. apply (csize_enc H). by apply E.
  - intros. apply (enc_bytes H). by apply E.
  - intros bs a rest Hb Hd. destruct (dec_valid H _ _ _ Hb Hd). split; [by apply E|done].
Qed.

(** ** Properties *)

(** [CDataStream::read] refines reading from the unread bytes: within a
    buffer of less than 2 GB it returns the next [n] bytes and leaves the rest,
    it throws exactly when fewer than [n] are left, and the buffer reset at the
    end of the data, [Compact], [insert] and [erase] are invisible to readers. *)
Theorem data_stream_refines s n l at_ cnt :
  DataStream.ok s -> 0 <= n < 2 ^ 31 -> 0 <= at_ -> 0 <= cnt -> at_ + cnt <= DataStream.size s ->
  option_map (fun r => (fst r, DataStream.rest (snd r))) (DataStream.read s n) =
    read_bytes (Z.to_nat n) (DataStream.rest s) /\
  DataStream.rest (DataStream.write s l) = DataStream.rest s ++ l /\
  DataStream.rest (DataStream.Compact s) = DataStream.rest s /\
  DataStream.rest (DataStream.insert s at_ l) =
    take (Z.to_nat at_) (DataStream.rest s) ++ l ++ drop (Z.to_nat at_) (DataStream.rest s) /\
  DataStream.rest (DataStream.erase s at_ cnt) =
    take (Z.to_nat at_) (DataStream.rest s) ++ drop (Z.to_nat at_ + Z.to_nat cnt) (DataStream.rest s).
Proof.
  intros. conjs.
  - by rewrite read_bytes_stream.
  - by apply DataStream.write_refines.
  - apply DataStream.Compact_refines.
  - apply DataStream.insert_refines; [done|lia].
  - by apply DataStream.erase_refines.
Qed.

Lemma data_stream_refines_witness :
  read_bytes 2 (DataStream.rest (DataStream.mk [7; 8; 9] 1)) = Some ([8; 9], []).
Proof.
  destruct (data_stream_refines (DataStream.mk [7; 8; 9] 1) 2 [] 0 0) as [H _];
    [unfold DataStream.ok, DataStream.vch_size; simpl; lia | lia.. | vm_compute; congruence |].
  change 2%nat with (Z.to_nat 2). rewrite <- H. reflexivity.
Defined.

(** CompactSize: a size up to MAX_SIZE is read back from what
    [WriteCompactSize] wrote, whatever follows it, in the number of bytes
    [GetSizeOfCompactSize] announces; a larger size is rejected by the reader. *)
Theorem compact_size_roundtrip nSize rest : 0 <= nSize < 2 ^ 64 ->
  Z.of_nat (length (WriteCompactSize nSize)) = GetSizeOfCompactSize nSize /\
  ReadCompactSize (WriteCompactSize nSize ++ rest) =
    if nSize <=? MAX_SIZE then Some (nSize, rest) else None.
Proof.
  intros Hn. split; [apply WriteCompactSize_length|].
  destruct (Z.leb_spec nSize MAX_SIZE).
  - apply (dec_enc compact_codec_ok). split; lia.
  - unfold MAX_SIZE in *. unfold WriteCompactSize, ReadCompactSize.
    destruct (Z.ltb_spec nSize 253); [lia|]. destruct (Z.leb_spec nSize 0xffff); [lia|].
    destruct (Z.leb_spec nSize 0xffffffff); rewrite <- app_assoc.
    + rewrite (dec_enc (uint_codec_ok 1 ltac:(lia)) 254) by (unfold uint_valid; lia).
      cbn -[dec uint_codec digits app MAX_SIZE].
      rewrite (dec_enc (uint_codec_ok 4 ltac:(lia)) nSize) by (unfold uint_valid; lia).
      by rewrite (proj2 (Z.ltb_lt MAX_SIZE nSize)) by (unfold MAX_SIZE; lia).
    + rewrite (dec_enc (uint_codec_ok 1 ltac:(lia)) 255) by (unfold uint_valid; lia).
      cbn -[dec uint_codec digits app MAX_SIZE].
      rewrite (dec_enc (uint_codec_ok 8 ltac:(lia)) nSize) by (unfold uint_valid; lia).
      by rewrite (proj2 (Z.ltb_lt MAX_SIZE nSize)) by (unfold MAX_SIZE; lia).
Qed.

Lemma compact_size_roundtrip_witness :
  ReadCompactSize (WriteCompactSize 70000 ++ [1; 2]) = Some (70000, [1; 2]) /\
  ReadCompactSize (WriteCompactSize 0x02000001) = None.
Proof.
  split.
  - apply (compact_size_roundtrip 70000 [1; 2]). lia.
  - reflexivity.
Defined.

(** VarInt on an unsigned type of up to 64 bits: writing never runs past
    the [tmp] array, writes as many bytes as [GetSizeOfVarInt] says, and
    [ReadVarInt] reads the value back and stops right behind it. *)
Theorem varint_roundtrip w n rest : (1 <= w <= 64)%nat -> 0 <= n < 2 ^ Z.of_nat w ->
  exists l, VarInt.WriteVarInt w n = Some l /\ bytes_ok l /\
    (length l <= VarInt.tmp_size w)%nat /\
    VarInt.GetSizeOfVarInt w n = Z.of_nat (length l) /\
    VarInt.ReadVarInt w (l ++ rest) = Some (n, rest).
Proof.
  intros Hw Hn. destruct (VarInt.write_total w n Hw Hn) as (l & Hl & ? & ? & ?).
  exists l. conjs; try done. by apply VarInt.read_write.
Qed.

Lemma varint_roundtrip_witness :
  VarInt.ReadVarInt 32 ([0x8E; 0xFE; 0xFE; 0xFE; 0x7F] ++ [5]) = Some (0xffffffff, [5]).
Proof.
  destruct (varint_roundtrip 32 0xffffffff [5]) as (l & Hl & _ & _ & _ & Hr); [lia|lia|].
  vm_compute in Hl. injection Hl as <-. exact Hr.
Defined.

(** The table in the comment above [GetSizeOfVarInt] lists [0x80 0xFF 0x7F]
    for 16511 and [0x82 0xFD 0x7F] for 65535; the code writes the two-byte form
    that the same comment promises for 16511, and another byte for 65535. *)
Lemma varint_comment_table :
  VarInt.WriteVarInt 64 16511 = Some [0xFF; 0x7F] /\
  VarInt.WriteVarInt 64 65535 = Some [0x82; 0xFE; 0x7F] /\
  VarInt.WriteVarInt 64 255 = Some [0x80; 0x7F] /\
  VarInt.WriteVarInt 64 (2 ^ 32) = Some [0x8E; 0xFE; 0xFE; 0xFF; 0x00].
Proof. vm_compute. auto. Qed.
