(* ===== verification/BigNum.v ===== *)
(** * Big integers (src/src/bignum.h)

    [CBigNum] wraps an OpenSSL [BIGNUM]; its value is an integer, and the
    library's arithmetic is integer arithmetic.  The conversions to and from
    OpenSSL's MPI byte format and machine words are library code: they are the
    operations of the class [OpenSSL_BN], and [OpenSSL_BN_ok] states what their
    manual pages promise.  Everything else, the leading-zero and sign-byte
    loops and the compact difficulty encoding, is the code of the header. *)

From S2P Require Import Prelude Uint256.

(** ** The MPI format *)

(** Four bytes, most significant first. *)
Definition be32 (n : Z) : list Z :=
  [Z.land (Z.shiftr n 24) 0xff; Z.land (Z.shiftr n 16) 0xff; Z.land (Z.shiftr n 8) 0xff; Z.land n 0xff].

(** The value of a big-endian sign-and-magnitude body: the top bit of the
    first byte is the sign. *)
Definition mpi_val (body : list Z) : Z :=
  let h := 2 ^ (8 * Z.of_nat (length body) - 1) in
  let v := le_val (reverse body) in
  match body with
  | [] => 0
  | _ => if v <? h then v else - (v - h)
  end.

(** Bytes of the shortest body: one bit more than the magnitude has. *)
Definition mpi_len (z : Z) : nat :=
  if z =? 0 then 0%nat else Z.to_nat ((Z.log2 (Z.abs z) + 1) / 8 + 1).

Definition mpi_body (z : Z) : list Z :=
  reverse (le_bytes (mpi_len z)
    (Z.abs z + if z <? 0 then 2 ^ (8 * Z.of_nat (mpi_len z) - 1) else 0)).

(** The library functions the header calls. *)
Class OpenSSL_BN := {
  BN_mpi2bn : list Z -> Z;
  BN_bn2mpi : Z -> list Z;
  BN_get_word : Z -> Z;
}.

(** Their documented behaviour: [BN_mpi2bn] reads a four-byte big-endian
    length and that many bytes of sign and magnitude; [BN_bn2mpi] writes the
    shortest such string; [BN_get_word] returns the magnitude, or all ones when
    it does not fit a word. *)
Class OpenSSL_BN_ok `{OpenSSL_BN} : Prop := {
  BN_mpi2bn_spec : forall body, bytes_ok body -> Z.of_nat (length body) < 2 ^ 31 ->
    BN_mpi2bn (be32 (Z.of_nat (length body)) ++ body) = mpi_val body;
  BN_bn2mpi_spec : forall z, Z.log2 (Z.abs z) < 2 ^ 30 ->
    BN_bn2mpi z = be32 (Z.of_nat (length (mpi_body z))) ++ mpi_body z;
  BN_get_word_spec : forall z,
    BN_get_word z = if Z.abs z <? 2 ^ 64 then Z.abs z else 2 ^ 64 - 1;
}.

(** An instance, for examples. *)
Definition reference_BN : OpenSSL_BN := {|
  BN_mpi2bn mpi := mpi_val (drop 4 mpi);
  BN_bn2mpi z := be32 (Z.of_nat (length (mpi_body z))) ++ mpi_body z;
  BN_get_word z := if Z.abs z <? 2 ^ 64 then Z.abs z else 2 ^ 64 - 1;
|}.

Lemma reference_BN_ok : @OpenSSL_BN_ok reference_BN.
Proof. split; reflexivity. Qed.

(** ** Operations of the class *)

Section CBigNum.
Context `{BN : OpenSSL_BN}.

(** The loop shared by [setint64], [setuint64] and [setuint256]: most
    significant byte first, leading zero bytes dropped, a sign byte inserted
    when the top bit of the first byte kept is taken. *)
Fixpoint emit (fNegative fLeadingZeroes : bool) (cs : list Z) : list Z :=
  match cs with
  | [] => []
  | c :: cs =>
      if fLeadingZeroes then
        if c =? 0 then emit fNegative true cs
        else if negb (Z.land c 0x80 =? 0) then
          (if fNegative then 0x80 else 0) :: c :: emit fNegative false cs
        else (if fNegative then Z.lor c 0x80 else c) :: emit fNegative false cs
      else c :: emit fNegative false cs
  end.

(** [c = (n >> 56) & 0xff; n <<= 8;] repeated [k] times. *)
Fixpoint top_bytes (k : nat) (n : Z) : list Z :=
  match k with
  | O => []
  | S k => Z.land (Z.shiftr n 56) 0xff :: top_bytes k (u64 (Z.shiftl n 8))
  end.

Definition of_mpi_body (body : list Z) : Z :=
  BN_mpi2bn (be32 (Z.of_nat (length body)) ++ body).

Definition setint64 (sn : Z) : Z :=
  let '(n, fNegative) :=
    if sn <? 0 then (u64 (u64 (- (sn + 1)) + 1), true) else (sn, false) in
  of_mpi_body (emit fNegative true (top_bytes 8 n)).

Definition setuint64 (n : Z) : Z := of_mpi_body (emit false true (top_bytes 8 n)).

Definition setuint256 (n : base_uint) : Z :=
  of_mpi_body (emit false true (reverse (uint_bytes n))).

(** [getuint64] and [getuint256] drop the sign bit and copy the last
    [nbytes] bytes of the MPI string, or as many as there are. *)
Definition get_low_bytes (nbytes : nat) (z : Z) : list Z :=
  let vch := BN_bn2mpi z in
  let nSize := length vch in
  if (nSize <? 4)%nat then replicate nbytes 0
  else
    let vch := if (4 <? nSize)%nat then alter (fun b => Z.land b 0x7f) 4%nat vch else vch in
    let l := take nbytes (reverse (drop 4 vch)) in
    l ++ replicate (nbytes - length l) 0.

Definition getuint64 (z : Z) : Z := le_val (get_low_bytes 8 z).
Definition getuint256 (z : Z) : base_uint := words_of_bytes (get_low_bytes 32 z).

Definition setvch (vch : list Z) : Z := of_mpi_body (reverse vch).

Definition getvch (z : Z) : list Z :=
  let vch := BN_bn2mpi z in
  if (length vch <=? 4)%nat then [] else reverse (drop 4 vch).

Definition getulong (z : Z) : Z := BN_get_word z.

Definition INT_MAX : Z := 2 ^ 31 - 1.
Definition INT_MIN : Z := - 2 ^ 31.

Definition getint (z : Z) : Z :=
  let n := getulong z in
  if negb (z <? 0) then (if INT_MAX <? n then INT_MAX else n)
  else (if INT_MAX <? n then INT_MIN else s32 (- n)).

(** [SetCompact]: exponent byte and three mantissa bytes; the vector of
    [4 + nSize] bytes is zero where it is not assigned. *)
Definition SetCompact (nCompact : Z) : Z :=
  let nSize := Z.shiftr nCompact 24 in
  let vch := replicate (4 + Z.to_nat nSize) 0 in
  let vch := <[3%nat := u8 nSize]> vch in
  let vch := if 1 <=? nSize then <[4%nat := Z.land (Z.shiftr nCompact 16) 0xff]> vch else vch in
  let vch := if 2 <=? nSize then <[5%nat := Z.land (Z.shiftr nCompact 8) 0xff]> vch else vch in
  let vch := if 3 <=? nSize then <[6%nat := Z.land (Z.shiftr nCompact 0) 0xff]> vch else vch in
  BN_mpi2bn vch.

Definition GetCompact (z : Z) : Z :=
  let vch := BN_bn2mpi z in
  let nSize := u32 (Z.of_nat (length vch) - 4) in
  let nCompact := u32 (Z.shiftl nSize 24) in
  let nCompact := if 1 <=? nSize then Z.lor nCompact (Z.shiftl (nth 4 vch 0) 16) else nCompact in
  let nCompact := if 2 <=? nSize then Z.lor nCompact (Z.shiftl (nth 5 vch 0) 8) else nCompact in
  let nCompact := if 3 <=? nSize then Z.lor nCompact (Z.shiftl (nth 6 vch 0) 0) else nCompact in
  nCompact.

(** [operator>>=] guards against a library bug: when 2^shift exceeds the
    number the result is set to zero, for a negative number too. *)
Definition bn_shr (z : Z) (shift : Z) : Z :=
  let a := Z.shiftl 1 shift in
  if z <? a then 0 else Z.sgn z * Z.shiftr (Z.abs z) shift.

Definition isxdigit (c : Z) : bool :=
  ((48 <=? c) && (c <=? 57) || (65 <=? c) && (c <=? 70) || (97 <=? c) && (c <=? 102))%bool.

Fixpoint hex_loop (bn : Z) (psz : list Z) : Z :=
  match psz with
  | c :: psz => if isxdigit c then hex_loop (Z.shiftl bn 4 + phexdigit c) psz else bn
  | [] => bn
  end.

Definition bn_SetHex (str : list Z) : Z :=
  let psz := drop_while is_space str in
  let '(fNegative, psz) :=
    match psz with c :: psz' => if c =? 45 then (true, psz') else (false, psz) | [] => (false, psz) end in
  let psz := drop_while is_space (skip_0x psz) in
  let bn := hex_loop 0 psz in
  if fNegative then 0 - bn else bn.

(** The digit loop of [ToString]; the quotient shrinks, so the number of
    binary digits is enough fuel. *)
Fixpoint tostring_loop (fuel : nat) (nBase bn : Z) : list Z :=
  match fuel with
  | O => []
  | S fuel =>
      if 0 <? bn then hexchar (bn mod nBase) :: tostring_loop fuel nBase (bn / nBase) else []
  end.

Definition bn_ToString (nBase : Z) (z : Z) : list Z :=
  let bn := Z.abs z in
  if bn =? 0 then [48]
  else
    let str := tostring_loop (Z.to_nat (Z.log2 bn + 1)) nBase bn in
    reverse (if z <? 0 then str ++ [45] else str).
End CBigNum.

(** ** The value of a body *)

Lemma be_val_cons c cs : le_val (reverse (c :: cs)) = le_val (reverse cs) + 256 ^ Z.of_nat (length cs) * c.
Proof. rewrite reverse_cons, undigits_app, length_reverse by lia. simpl. lia. Qed.

Lemma be_val_bound cs : bytes_ok cs -> 0 <= le_val (reverse cs) < 256 ^ Z.of_nat (length cs).
Proof. intros H. rewrite <- length_reverse. apply undigits_bound; [lia|]. by apply digits_ok_rev. Qed.

Lemma half_pow n : 2 ^ (8 * Z.of_nat (S n) - 1) = 128 * 256 ^ Z.of_nat n.
Proof.
  change 256 with (2 ^ 8). change 128 with (2 ^ 7).
  rewrite <- Z.pow_mul_r, <- Z.pow_add_r by lia. f_equal. lia.
Qed.

Lemma mpi_val_cons c cs : is_byte c -> bytes_ok cs ->
  mpi_val (c :: cs) =
  let low := le_val (reverse cs) in let P := 256 ^ Z.of_nat (length cs) in
  if c <? 128 then low + P * c else - (low + P * (c - 128)).
Proof.
  intros Hc Hcs. pose proof (be_val_bound cs Hcs). unfold mpi_val. cbn [length]. cbv zeta.
  rewrite be_val_cons, half_pow. set (P := 256 ^ _) in *.
  destruct (Z.ltb_spec c 128), (Z.ltb_spec (le_val (reverse cs) + P * c) (128 * P)); nia.
Qed.

Lemma emit_rest b cs : emit b false cs = cs.
Proof. induction cs; simpl; congruence. Qed.

Lemma land_80 c : is_byte c -> (Z.land c 0x80 =? 0) = (c <? 128).
Proof.
  intros. destruct (Z.ltb_spec c 128); change 0x80 with (2 ^ 7).
  - apply Z.eqb_eq. apply Z.bits_inj'. intros i Hi. rewrite Z.land_spec, Z.bits_0, Z.pow2_bits_eqb by lia.
    destruct (Z.eqb_spec 7 i) as [<-|]; [|apply andb_false_r].
    rewrite <- (Z.mod_small c (2 ^ 7)) by (simpl; lia). by rewrite Z.mod_pow2_bits_high by lia.
  - apply Z.eqb_neq. intros E. apply (f_equal (fun z => Z.testbit z 7)) in E.
    rewrite Z.land_spec, Z.bits_0, Z.pow2_bits_true, andb_true_r in E by lia.
    rewrite Z.testbit_false in E by lia. change (2 ^ 7) with 128 in E.
    replace (c / 128) with 1 in E; [done|]. apply Z.div_unique with (c - 128); lia.
Qed.

Lemma lor_80 c : 0 <= c < 128 -> Z.lor c 0x80 = c + 128.
Proof. intros. apply (lor_disjoint c 1 7); simpl; lia. Qed.

Lemma emit_ok neg cs : bytes_ok cs -> bytes_ok (emit neg true cs).
Proof.
  induction 1 as [|c cs Hc Hcs IH]; [constructor|]. cbn [emit]. rewrite land_80 by done.
  destruct (Z.eqb_spec c 0); [done|]. rewrite !emit_rest.
  destruct (Z.ltb_spec c 128); cbn [negb]; repeat (apply Forall_cons; split); try done;
    destruct neg; rewrite ?lor_80; lia.
Qed.

Lemma emit_length neg b cs : (length (emit neg b cs) <= S (length cs))%nat.
Proof.
  revert b. induction cs as [|c cs IH]; intros b; [simpl; lia|]. cbn [emit].
  repeat dmatch; cbn [length]; rewrite ?emit_rest; try lia. specialize (IH true). lia.
Qed.

Lemma emit_val neg cs : bytes_ok cs ->
  mpi_val (emit neg true cs) = (if neg then -1 else 1) * le_val (reverse cs).
Proof.
  induction 1 as [|c cs Hc Hcs IH]; [by destruct neg|]. cbn [emit]. rewrite land_80 by done.
  rewrite be_val_cons. destruct (Z.eqb_spec c 0) as [->|]; [rewrite IH; lia|].
  rewrite !emit_rest. destruct (Z.ltb_spec c 128); cbn [negb].
  - destruct neg; [rewrite lor_80 by lia|]; rewrite mpi_val_cons by (done || lia); cbv zeta.
    + destruct (Z.ltb_spec (c + 128) 128); lia.
    + destruct (Z.ltb_spec c 128); lia.
  - rewrite mpi_val_cons, be_val_cons by (destruct neg; try apply Forall_cons; done || lia).
    destruct neg; cbn -[Z.pow Z.mul undigits]; lia.
Qed.

(** ** The shortest body *)

Lemma mpi_len_pos z : z <> 0 -> exists n, mpi_len z = S n /\
  2 ^ (8 * Z.of_nat n - 1) <= Z.abs z /\ Z.abs z < 2 ^ (8 * Z.of_nat (S n) - 1).
Proof.
  intros Hz. unfold mpi_len. rewrite (proj2 (Z.eqb_neq z 0)) by done.
  set (L := Z.log2 (Z.abs z)). assert (0 <= L) by apply Z.log2_nonneg.
  destruct (Z.log2_spec (Z.abs z) ltac:(lia)) as [HL1 HL2]. fold L in HL1, HL2.
  pose proof (Z.div_mod (L + 1) 8). pose proof (Z.mod_pos_bound (L + 1) 8).
  assert (0 <= (L + 1) / 8) by (apply Z.div_pos; lia).
  exists (Z.to_nat ((L + 1) / 8)). split; [rewrite Z2Nat.inj_add by lia; simpl; lia|]. split.
  - rewrite Z2Nat.id by lia.
    apply Z.le_trans with (2 ^ L); [|lia].
    apply Z.pow_le_mono_r; lia.
  - apply Z.lt_le_trans with (2 ^ Z.succ L); [done|].
    apply Z.pow_le_mono_r; lia.
Qed.

Lemma length_mpi_body z : length (mpi_body z) = mpi_len z.
Proof. unfold mpi_body. by rewrite length_reverse, length_le_bytes. Qed.

Lemma mpi_body_ok z : bytes_ok (mpi_body z).
Proof. apply digits_ok_rev, le_bytes_ok. Qed.

Lemma pow_double n : 2 ^ (8 * Z.of_nat (S n)) = 2 * 2 ^ (8 * Z.of_nat (S n) - 1).
Proof. rewrite <- Z.pow_succ_r by lia. f_equal. lia. Qed.

Lemma pow_256_S n : 256 ^ Z.of_nat (S n) = 2 * 2 ^ (8 * Z.of_nat (S n) - 1).
Proof. change 256 with (2 ^ 8). rewrite <- Z.pow_mul_r by lia. apply pow_double. Qed.

(** The integer stored in a shortest body, as an unsigned number. *)
Lemma mpi_body_val z n : mpi_len z = S n ->
  le_val (reverse (mpi_body z)) = Z.abs z + (if z <? 0 then 2 ^ (8 * Z.of_nat (S n) - 1) else 0).
Proof.
  intros E. unfold mpi_body. rewrite E, reverse_involutive, le_val_bytes, pow_256_S.
  assert (Hz : z <> 0) by (intros ->; done).
  destruct (mpi_len_pos z Hz) as (m & Em & _ & Hlt). rewrite E in Em. injection Em as <-.
  rewrite Z.mod_small; [done|]. destruct (z <? 0); lia.
Qed.

Lemma mpi_val_body z : mpi_val (mpi_body z) = z.
Proof.
  destruct (decide (z = 0)) as [->|Hz]; [done|].
  destruct (mpi_len_pos z Hz) as (n & E & _ & Hlt).
  unfold mpi_val. rewrite (mpi_body_val z n E), length_mpi_body, E.
  destruct (mpi_body z) eqn:Eb; [by rewrite <- length_mpi_body, Eb in E|].
  destruct (Z.ltb_spec z 0); repeat dmatch; bprop; lia.
Qed.

(** The two bounds determine the length. *)
Lemma mpi_len_unique z n : z <> 0 ->
  2 ^ (8 * Z.of_nat n - 1) <= Z.abs z < 2 ^ (8 * Z.of_nat (S n) - 1) -> mpi_len z = S n.
Proof.
  intros Hz [H1 H2]. unfold mpi_len. rewrite (proj2 (Z.eqb_neq z 0)) by done.
  assert (8 * Z.of_nat n <= Z.log2 (Z.abs z) + 1 < 8 * Z.of_nat n + 8).
  { destruct (Z.log2_spec (Z.abs z) ltac:(lia)) as [L1 L2].
    pose proof (Z.log2_nonneg (Z.abs z)). split.
    - destruct n; [lia|]. assert (8 * Z.of_nat (S n) - 1 < Z.succ (Z.log2 (Z.abs z))); [|lia].
      apply (Z.pow_lt_mono_r_iff 2); lia.
    - assert (Z.log2 (Z.abs z) < 8 * Z.of_nat (S n) - 1); [|lia].
      apply (Z.pow_lt_mono_r_iff 2); lia. }
  replace ((Z.log2 (Z.abs z) + 1) / 8) with (Z.of_nat n); [lia|].
  apply Z.div_unique with (Z.log2 (Z.abs z) + 1 - 8 * Z.of_nat n); lia.
Qed.

(** ** Byte lists *)

Lemma undigits_take n l : bytes_ok l -> le_val (take n l) = le_val l mod 256 ^ Z.of_nat n.
Proof.
  intros H. destruct (decide (n <= length l)%nat).
  - rewrite <- (take_drop n l) at 2. rewrite undigits_app, length_take, Nat.min_l by lia.
    rewrite Z.mul_comm, Z_mod_plus_full, Z.mod_small; [done|].
    apply Forall_take_drop with (n := n) in H as [H _].
    pose proof (undigits_bound 256 ltac:(lia) _ H) as B. rewrite length_take, Nat.min_l in B by lia. done.
  - rewrite take_ge by lia. rewrite Z.mod_small; [done|].
    pose proof (undigits_bound 256 ltac:(lia) _ H). split; [lia|].
    apply Z.lt_le_trans with (256 ^ Z.of_nat (length l)); [lia|]. apply Z.pow_le_mono_r; lia.
Qed.

Lemma le_bytes_map k n : le_bytes k n = map (fun i => (n / 256 ^ Z.of_nat i) mod 256) (seq 0 k).
Proof.
  revert n. induction k as [|k IH]; intros n; [done|]. cbn [digits seq map].
  f_equal; [by rewrite Z.pow_0_r, Z.div_1_r|]. rewrite IH, <- seq_shift, map_map. apply map_ext.
  intros i. rewrite Nat2Z.inj_succ, Z.pow_succ_r, Z.div_div by (try apply Z.pow_pos_nonneg; lia). done.
Qed.

Lemma top_bytes_map k n : (k <= 8)%nat -> 0 <= n < 2 ^ 64 ->
  top_bytes k n = map (fun i => (n / 256 ^ (7 - Z.of_nat i)) mod 256) (seq 0 k).
Proof.
  revert n. induction k as [|k IH]; intros n Hk Hn; [done|]. cbn [top_bytes seq map].
  f_equal.
  { change 0xff with (2 ^ 8 - 1). rewrite land_ones_mod, Z.shiftr_div_pow2 by lia. reflexivity. }
  rewrite IH by (try lia; apply u64_range). rewrite <- seq_shift, map_map. apply map_ext_in.
  intros i Hi%in_seq. unfold u64. change 256 with (2 ^ 8). rewrite <- !Z.pow_mul_r by lia.
  apply Z.bits_inj'. intros j Hj. destruct (Z.lt_ge_cases j 8).
  - rewrite !Z.mod_pow2_bits_low, !Z.div_pow2_bits by lia.
    rewrite Z.mod_pow2_bits_low, Z.shiftl_spec by lia. f_equal. lia.
  - by rewrite !Z.mod_pow2_bits_high by lia.
Qed.

Lemma top_bytes_8 n : 0 <= n < 2 ^ 64 -> top_bytes 8 n = reverse (le_bytes 8 n).
Proof. intros. rewrite top_bytes_map, le_bytes_map by (done || lia). reflexivity. Qed.

(** ** Correctness of the conversions *)

Section Correctness.
Context `{BN : OpenSSL_BN} `{BN_ok : !OpenSSL_BN_ok}.

Lemma of_mpi_body_val body : bytes_ok body -> Z.of_nat (length body) < 2 ^ 31 ->
  of_mpi_body body = mpi_val body.
Proof. apply BN_mpi2bn_spec. Qed.

Lemma set_bytes_val neg cs : bytes_ok cs -> (length cs <= 64)%nat ->
  of_mpi_body (emit neg true cs) = (if neg then -1 else 1) * le_val (reverse cs).
Proof.
  intros H Hl. pose proof (emit_length neg true cs).
  rewrite of_mpi_body_val, emit_val by (try apply emit_ok; done || lia). done.
Qed.

Lemma setuint64_spec n : 0 <= n < 2 ^ 64 -> setuint64 n = n.
Proof.
  intros H. unfold setuint64. rewrite top_bytes_8 by done.
  rewrite set_bytes_val by (try apply digits_ok_rev, le_bytes_ok; rewrite length_reverse, length_le_bytes; lia).
  rewrite reverse_involutive, le_val_bytes, Z.mod_small by (simpl; lia). lia.
Qed.

Lemma setint64_spec sn : - 2 ^ 63 <= sn < 2 ^ 63 -> setint64 sn = sn.
Proof.
  intros H. unfold setint64. destruct (Z.ltb_spec sn 0).
  - rewrite (u64_small (- (sn + 1))), (u64_small (_ + 1)), top_bytes_8 by lia.
    rewrite set_bytes_val by (try apply digits_ok_rev, le_bytes_ok; rewrite length_reverse, length_le_bytes; lia).
    rewrite reverse_involutive, le_val_bytes, Z.mod_small by (simpl; lia). lia.
  - rewrite top_bytes_8 by lia.
    rewrite set_bytes_val by (try apply digits_ok_rev, le_bytes_ok; rewrite length_reverse, length_le_bytes; lia).
    rewrite reverse_involutive, le_val_bytes, Z.mod_small by (simpl; lia). lia.
Qed.

Lemma setuint256_spec n : uint_ok 8 n -> setuint256 n = uval n.
Proof.
  intros [Hl Hd]. unfold setuint256.
  rewrite set_bytes_val by (try apply digits_ok_rev, uint_bytes_ok;
    rewrite length_reverse, length_uint_bytes, Hl; lia).
  rewrite reverse_involutive, uint_bytes_val by done. lia.
Qed.

Lemma bn2mpi_parts z : Z.log2 (Z.abs z) < 2 ^ 30 ->
  drop 4 (BN_bn2mpi z) = mpi_body z /\ length (BN_bn2mpi z) = (4 + mpi_len z)%nat.
Proof. intros H. rewrite BN_bn2mpi_spec by done. rewrite length_app, length_mpi_body. done. Qed.

(** Clearing the sign bit leaves the magnitude. *)
Lemma clear_sign_val z c cs : mpi_body z = c :: cs ->
  is_byte (Z.land c 0x7f) /\ le_val (reverse (Z.land c 0x7f :: cs)) = Z.abs z.
Proof.
  intros E. pose proof (mpi_body_ok z) as Hb. rewrite E in Hb. apply Forall_cons in Hb as [Hc Hcs].
  pose proof (mpi_val_body z) as Hv. rewrite E, mpi_val_cons in Hv by done. cbv zeta in Hv.
  pose proof (be_val_bound cs Hcs). rewrite be_val_cons. change 0x7f with (2 ^ 7 - 1).
  rewrite land_ones_mod by lia. change (2 ^ 7) with 128. pose proof (Z.mod_pos_bound c 128).
  split; [lia|]. destruct (Z.ltb_spec c 128).
  - rewrite Z.mod_small by lia. nia.
  - replace (c mod 128) with (c - 128); [nia|]. apply Z.mod_unique with 1; lia.
Qed.

Lemma get_low_bytes_val nbytes z : Z.log2 (Z.abs z) < 2 ^ 30 ->
  length (get_low_bytes nbytes z) = nbytes /\ bytes_ok (get_low_bytes nbytes z) /\
  le_val (get_low_bytes nbytes z) = Z.abs z mod 256 ^ Z.of_nat nbytes.
Proof.
  intros Hz. unfold get_low_bytes. destruct (bn2mpi_parts z Hz) as [Hd ->].
  rewrite (proj2 (Nat.ltb_ge _ 4)) by lia.
  assert (exists l, reverse (drop 4 (if (4 <? 4 + mpi_len z)%nat
      then alter (fun b => Z.land b 0x7f) 4%nat (BN_bn2mpi z) else BN_bn2mpi z)) = l /\
      bytes_ok l /\ le_val l = Z.abs z) as (l & -> & Hl & Hv).
  { destruct (Nat.ltb_spec 4 (4 + mpi_len z)) as [Hgt|Hle]; eexists; (split; [done|]).
    - rewrite BN_bn2mpi_spec by done. destruct (mpi_body z) as [|c cs] eqn:E.
      { pose proof (length_mpi_body z) as HL. rewrite E in HL. simpl in HL. lia. }
      destruct (clear_sign_val z c cs E) as [Hc Hv].
      pose proof (mpi_body_ok z) as Hb. rewrite E in Hb. apply Forall_cons in Hb as [_ Hcs].
      split; [|exact Hv]. apply digits_ok_rev. by apply Forall_cons.
    - rewrite Hd. split; [apply digits_ok_rev, mpi_body_ok|].
      assert (z = 0) as ->; [|done]. destruct (decide (z = 0)) as [|n]; [done|].
      destruct (mpi_len_pos z n) as (? & ? & _). lia. }
  assert (Hlen : length (take nbytes l ++ replicate (nbytes - length (take nbytes l)) 0) = nbytes).
  { rewrite length_app, length_replicate, length_take. lia. }
  split; [exact Hlen|]. split.
  - apply digits_ok_app. split; [by apply Forall_take|]. apply Forall_replicate. lia.
  - rewrite undigits_app, undigits_zeros, undigits_take, Hv by (done || lia). lia.
Qed.

Lemma getuint64_spec z : Z.log2 (Z.abs z) < 2 ^ 30 -> getuint64 z = Z.abs z mod 2 ^ 64.
Proof. intros Hz. unfold getuint64. destruct (get_low_bytes_val 8 z Hz) as (_ & _ & ->). done. Qed.

Lemma getuint256_spec z : Z.log2 (Z.abs z) < 2 ^ 30 ->
  uint_ok 8 (getuint256 z) /\ uval (getuint256 z) = Z.abs z mod 2 ^ 256.
Proof.
  intros Hz. unfold getuint256. destruct (get_low_bytes_val 32 z Hz) as (Hl & Hb & Hv).
  destruct (uval_words_of_bytes 8 _ Hl Hb) as [Hok ->]. rewrite Hv. done.
Qed.

Lemma getvch_body z : Z.log2 (Z.abs z) < 2 ^ 30 -> getvch z = reverse (mpi_body z).
Proof.
  intros Hz. unfold getvch. destruct (bn2mpi_parts z Hz) as [-> ->].
  destruct (Nat.leb_spec (4 + mpi_len z) 4); [|done].
  destruct (mpi_body z) eqn:E; [done|]. rewrite <- length_mpi_body, E in *. simpl in *. lia.
Qed.

Lemma setvch_val v : bytes_ok v -> Z.of_nat (length v) < 2 ^ 31 -> setvch v = mpi_val (reverse v).
Proof.
  intros. apply of_mpi_body_val; [by apply digits_ok_rev | by rewrite length_reverse].
Qed.

Lemma mpi_len_small z : Z.log2 (Z.abs z) < 2 ^ 30 -> Z.of_nat (mpi_len z) < 2 ^ 31.
Proof.
  intros H. unfold mpi_len. destruct (z =? 0); [lia|]. pose proof (Z.log2_nonneg (Z.abs z)).
  assert ((Z.log2 (Z.abs z) + 1) / 8 <= Z.log2 (Z.abs z) + 1) by (apply Z.div_le_upper_bound; lia).
  assert (0 <= (Z.log2 (Z.abs z) + 1) / 8) by (apply Z.div_pos; lia). lia.
Qed.

Lemma setvch_getvch z : Z.log2 (Z.abs z) < 2 ^ 30 -> setvch (getvch z) = z.
Proof.
  intros Hz. rewrite getvch_body by done.
  rewrite setvch_val, reverse_involutive; [apply mpi_val_body|apply digits_ok_rev, mpi_body_ok|].
  rewrite length_reverse, length_mpi_body. by apply mpi_len_small.
Qed.

(** A byte vector of at most four bytes is an integer of 31 bits and a sign. *)
Lemma setvch_range v n : bytes_ok v -> (length v <= n)%nat -> (1 <= n <= 8)%nat ->
  Z.abs (setvch v) < 2 ^ (8 * Z.of_nat n - 1).
Proof.
  intros Hb Hl Hn. rewrite setvch_val by (done || lia).
  pose proof (be_val_bound (reverse v) (digits_ok_rev _ _ Hb)) as B.
  rewrite length_reverse in B. destruct (reverse v) as [|c cs] eqn:E.
  - simpl. assert (0 < 2 ^ (8 * Z.of_nat n - 1)) by (apply Z.pow_pos_nonneg; lia). lia.
  - apply (f_equal length) in E as E'. rewrite length_reverse in E'. cbn [length] in E'.
    assert (Hcc : bytes_ok (c :: cs)) by (rewrite <- E; by apply digits_ok_rev).
    apply Forall_cons in Hcc as [Hc Hcs]. rewrite mpi_val_cons by done. cbv zeta.
    pose proof (be_val_bound cs Hcs) as Bc.
    apply Z.lt_le_trans with (2 ^ (8 * Z.of_nat (S (length cs)) - 1)); [|apply Z.pow_le_mono_r; lia].
    rewrite half_pow. destruct (Z.ltb_spec c 128); nia.
Qed.
End Correctness.

(** ** The compact difficulty encoding *)

(** The number a compact encoding stands for: 23 bits of mantissa, a sign bit
    and a base-256 exponent that counts the bytes. *)
Definition compact_val (c : Z) : Z :=
  let n := c / 2 ^ 24 in
  let mant := c mod 2 ^ 23 in
  let v := if n <=? 3 then mant / 256 ^ (3 - n) else mant * 256 ^ (n - 3) in
  if Z.testbit c 23 then - v else v.

(** A number cut down to its three most significant bytes (of magnitude). *)
Definition compact_trunc (z : Z) : Z :=
  let n := Z.of_nat (mpi_len z) in
  if n <=? 3 then z
  else Z.sgn z * (Z.abs z / 256 ^ (n - 3) * 256 ^ (n - 3)).

Section Compact.
Context `{BN : OpenSSL_BN} `{BN_ok : !OpenSSL_BN_ok}.

(** The three mantissa bytes of a compact encoding. *)
Definition cbyte (c i : Z) : Z := (c / 256 ^ i) mod 256.

Lemma land_ff z k i : 0 <= i -> k = 8 * i -> Z.land (Z.shiftr z k) 0xff = cbyte z i.
Proof.
  intros ? ->. change 0xff with (2 ^ 8 - 1). rewrite land_ones_mod, Z.shiftr_div_pow2 by lia.
  unfold cbyte. change 256 with (2 ^ 8). by rewrite <- Z.pow_mul_r by lia.
Qed.

Lemma cbyte_range c i : is_byte (cbyte c i).
Proof. apply Z.mod_pos_bound. lia. Qed.

Lemma be32_small n : 0 <= n < 256 -> be32 n = [0; 0; 0; n].
Proof.
  intros. unfold be32. rewrite (land_ff n 24 3), (land_ff n 16 2), (land_ff n 8 1) by lia.
  change 0xff with (2 ^ 8 - 1). rewrite land_ones_mod by lia. unfold cbyte.
  rewrite !Z.div_small by (simpl; lia). by rewrite !Z.mod_small by (simpl; lia).
Qed.

(** The body [SetCompact] assembles. *)
Definition compact_body (c : Z) (n : nat) : list Z :=
  take n ([cbyte c 2; cbyte c 1; cbyte c 0] ++ replicate (n - 3) 0).

Lemma length_compact_body c n : length (compact_body c n) = n.
Proof. unfold compact_body. rewrite length_take, length_app, length_replicate. simpl. lia. Qed.

Lemma compact_body_ok c n : bytes_ok (compact_body c n).
Proof.
  apply Forall_take. apply digits_ok_app. split; [|apply Forall_replicate; lia].
  repeat (apply Forall_cons; split; [apply cbyte_range|]). constructor.
Qed.

Lemma SetCompact_body c : 0 <= c < 2 ^ 32 ->
  SetCompact c = mpi_val (compact_body c (Z.to_nat (c / 2 ^ 24))).
Proof.
  intros Hc. assert (Hn : 0 <= c / 2 ^ 24 < 256).
  { split; [apply Z.div_pos; lia | apply Z.div_lt_upper_bound; lia]. }
  unfold SetCompact. rewrite (Z.shiftr_div_pow2 c 24) by lia.
  rewrite (land_ff c 16 2), (land_ff c 8 1), (land_ff c 0 0) by lia.
  unfold u8. rewrite (Z.mod_small (c / 2 ^ 24)) by lia.
  set (n := Z.to_nat (c / 2 ^ 24)). replace (c / 2 ^ 24) with (Z.of_nat n) in * by lia.
  rewrite <- BN_mpi2bn_spec by (try apply compact_body_ok; rewrite length_compact_body; lia).
  rewrite length_compact_body, be32_small by lia. f_equal.
  destruct n as [|[|[|k]]]; [reflexivity..|].
  rewrite (proj2 (Z.leb_le 1 _)), (proj2 (Z.leb_le 2 _)), (proj2 (Z.leb_le 3 _)) by lia.
  unfold compact_body. replace (S (S (S k)) - 3)%nat with k by lia.
  cbn [Nat.add replicate insert list_insert app take]. by rewrite take_ge by (rewrite length_replicate; lia).
Qed.

Lemma cbyte_split c : 0 <= c < 2 ^ 24 -> c = cbyte c 0 + 256 * cbyte c 1 + 65536 * cbyte c 2.
Proof.
  intros. unfold cbyte. rewrite Z.pow_0_r, Z.div_1_r. change (256 ^ 1) with 256. change (256 ^ 2) with (256 * 256).
  rewrite <- Z.div_div by lia. pose proof (Z.div_mod c 256). pose proof (Z.div_mod (c / 256) 256).
  rewrite (Z.mod_small (c / 256 / 256)); [lia|]. split; [do 2 (apply Z.div_pos; [|lia]); lia|].
  do 2 (apply Z.div_lt_upper_bound; [lia|]). lia.
Qed.

Lemma cbyte_mod c i : 0 <= i <= 2 -> cbyte (c mod 2 ^ 24) i = cbyte c i.
Proof.
  intros. unfold cbyte. change 256 with (2 ^ 8). rewrite <- !Z.pow_mul_r by lia.
  apply Z.bits_inj'. intros j Hj. destruct (Z.lt_ge_cases j 8).
  - rewrite !Z.mod_pow2_bits_low, !Z.div_pow2_bits, Z.mod_pow2_bits_low by lia. done.
  - by rewrite !Z.mod_pow2_bits_high by lia.
Qed.

Lemma byte_top_bit b : is_byte b -> Z.testbit b 7 = negb (b <? 128).
Proof.
  intros. destruct (Z.ltb_spec b 128); cbn [negb].
  - rewrite <- (Z.mod_small b (2 ^ 7)) by (simpl; lia). by rewrite Z.mod_pow2_bits_high by lia.
  - rewrite Z.testbit_true by lia. change (2 ^ 7) with 128.
    replace (b / 128) with 1; [done|]. apply Z.div_unique with (b - 128); lia.
Qed.

(** The 24 mantissa bits as sign and magnitude. *)
Lemma compact_mantissa c : 0 <= c ->
  exists b2 b1 b0 : Z, cbyte c 2 = b2 /\ cbyte c 1 = b1 /\ cbyte c 0 = b0 /\
  is_byte b0 /\ is_byte b1 /\ is_byte b2 /\
  c mod 2 ^ 23 = b0 + 256 * b1 + 65536 * (if b2 <? 128 then b2 else b2 - 128) /\
  Z.testbit c 23 = negb (b2 <? 128).
Proof.
  intros Hc. eexists _, _, _. conjs; try done; try apply cbyte_range.
  - pose proof (cbyte_range c 2). pose proof (cbyte_range c 1). pose proof (cbyte_range c 0).
    pose proof (cbyte_split (c mod 2 ^ 24) (Z.mod_pos_bound c (2 ^ 24) ltac:(lia))) as E.
    rewrite !cbyte_mod in E by lia.
    assert (E23 : c mod 2 ^ 23 = (c mod 2 ^ 24) mod 2 ^ 23).
    { change (2 ^ 24) with (2 ^ 23 * 2). rewrite Z.rem_mul_r by lia.
      rewrite Z.mul_comm, Z_mod_plus_full, Zmod_mod. done. }
    rewrite E23, E. destruct (Z.ltb_spec (cbyte c 2) 128); symmetry.
    + apply Z.mod_unique with 0; lia.
    + apply Z.mod_unique with 1; lia.
  - rewrite <- byte_top_bit by apply cbyte_range. unfold cbyte. change 256 with (2 ^ 8).
    rewrite <- Z.pow_mul_r, Z.mod_pow2_bits_low, Z.div_pow2_bits by lia. done.
Qed.
(** A body of three leading bytes and zeros. *)
Lemma mpi_val_3 b2 b1 b0 k : is_byte b2 -> is_byte b1 -> is_byte b0 ->
  mpi_val (b2 :: b1 :: b0 :: replicate k 0) =
  (if b2 <? 128 then 1 else -1) *
  ((b0 + 256 * b1 + 65536 * (if b2 <? 128 then b2 else b2 - 128)) * 256 ^ Z.of_nat k).
Proof.
  intros H2 H1 H0. rewrite mpi_val_cons.
  - cbv zeta. rewrite !be_val_cons, reverse_replicate, undigits_zeros by lia. cbn [length].
    rewrite !length_replicate, !Nat2Z.inj_succ, !Z.pow_succ_r by lia. destruct (b2 <? 128); lia.
  - done.
  - do 2 (apply Forall_cons; split; [done|]). apply Forall_replicate. lia.
Qed.

Lemma SetCompact_val c : 0 <= c < 2 ^ 32 -> SetCompact c = compact_val c.
Proof.
  intros Hc. rewrite SetCompact_body by done. unfold compact_val, compact_body. cbv zeta.
  assert (Hn : 0 <= c / 2 ^ 24) by (apply Z.div_pos; lia).
  destruct (compact_mantissa c ltac:(lia)) as (b2 & b1 & b0 & -> & -> & -> & H0 & H1 & H2 & -> & ->).
  set (n := Z.to_nat (c / 2 ^ 24)). replace (c / 2 ^ 24) with (Z.of_nat n) by lia.
  destruct n as [|[|[|k]]].
  - cbn [take]. change (256 ^ (3 - Z.of_nat 0)) with 16777216.
    destruct (b2 <? 128) eqn:E; bprop; rewrite Z.div_small by lia; done.
  - cbn [take app]. rewrite mpi_val_cons by (done || constructor).
    change (Z.of_nat 1 <=? 3) with true. change (256 ^ (3 - Z.of_nat 1)) with 65536. cbn [length reverse rev_append undigits].
    set (m := if b2 <? 128 then b2 else _).
    replace ((b0 + 256 * b1 + 65536 * m) / 65536) with m by (apply Z.div_unique with (b0 + 256 * b1); lia).
    subst m. destruct (b2 <? 128); simpl; lia.
  - cbn [take app]. rewrite mpi_val_cons by (try apply digits_ok_one; done || lia).
    change (Z.of_nat 2 <=? 3) with true. change (256 ^ (3 - Z.of_nat 2)) with 256. cbn [length].
    set (m := if b2 <? 128 then b2 else _).
    replace ((b0 + 256 * b1 + 65536 * m) / 256) with (b1 + 256 * m) by (apply Z.div_unique with b0; lia).
    subst m. destruct (b2 <? 128); simpl; lia.
  - replace (S (S (S k)) - 3)%nat with k by lia. cbn [take app]. rewrite take_ge by (rewrite length_replicate; lia).
    rewrite mpi_val_3 by done. set (m := b0 + _ + _).
    destruct (Z.leb_spec (Z.of_nat (S (S (S k)))) 3).
    + replace k with 0%nat by lia. cbn -[m]. rewrite Z.div_1_r. destruct (b2 <? 128); cbn [negb]; lia.
    + replace (Z.of_nat (S (S (S k))) - 3) with (Z.of_nat k) by lia. destruct (b2 <? 128); cbn [negb]; lia.
Qed.

Lemma nth_byte l i : bytes_ok l -> is_byte (nth i l 0).
Proof.
  intros H. destruct (decide (i < length l)%nat).
  - by apply (proj1 (Forall_nth _ 0 _) H).
  - rewrite nth_overflow; lia.
Qed.

Lemma lor_field (b : bool) x v k : 0 <= k -> (b = false -> v = 0) -> 0 <= v ->
  0 <= x -> (exists q, x = q * 2 ^ (k + 8)) -> v < 256 ->
  (if b then Z.lor x (Z.shiftl v k) else x) = x + v * 2 ^ k.
Proof.
  intros Hk Hb Hv Hx [q ->] Hv2. destruct b; [|rewrite Hb by done; lia].
  rewrite Z.shiftl_mul_pow2, Z.lor_comm by lia.
  assert (0 < 2 ^ k) by (apply Z.pow_pos_nonneg; lia).
  rewrite lor_disjoint; [lia|lia|]. rewrite Z.pow_add_r by lia. change (2 ^ 8) with 256. nia.
Qed.

Lemma GetCompact_val z : (mpi_len z <= 255)%nat ->
  GetCompact z = (Z.of_nat (mpi_len z) * 65536 * 256
    + nth 0 (mpi_body z) 0 * 65536 + nth 1 (mpi_body z) 0 * 256 + nth 2 (mpi_body z) 0).
Proof.
  intros Hn. assert (Hz : Z.log2 (Z.abs z) < 2 ^ 30).
  { destruct (decide (z = 0)) as [->|Hz]; [simpl; lia|].
    destruct (mpi_len_pos z Hz) as (n & E & _ & Hlt).
    assert (Z.log2 (Z.abs z) < 8 * Z.of_nat (S n) - 1) by (apply Z.log2_lt_pow2; lia). lia. }
  unfold GetCompact. destruct (bn2mpi_parts z Hz) as [_ ->]. rewrite BN_bn2mpi_spec by done.
  rewrite u32_small by lia. replace (Z.of_nat (4 + mpi_len z) - 4) with (Z.of_nat (mpi_len z)) by lia.
  rewrite u32_small by (rewrite Z.shiftl_mul_pow2 by lia; lia). rewrite (Z.shiftl_mul_pow2 _ 24) by lia.
  change (nth 4 (be32 ?n ++ ?l) 0) with (nth 0 l 0). change (nth 5 (be32 ?n ++ ?l) 0) with (nth 1 l 0).
  change (nth 6 (be32 ?n ++ ?l) 0) with (nth 2 l 0).
  pose proof (nth_byte (mpi_body z) 0 (mpi_body_ok z)). pose proof (nth_byte (mpi_body z) 1 (mpi_body_ok z)).
  pose proof (nth_byte (mpi_body z) 2 (mpi_body_ok z)).
  assert (Hov : forall i, (i <? mpi_len z)%nat = false -> nth i (mpi_body z) 0 = 0).
  { intros i Hi. bprop. apply nth_overflow. by rewrite length_mpi_body. }
  assert (Hle : forall i, (Z.of_nat (S i) <=? Z.of_nat (mpi_len z)) = false -> (i <? mpi_len z)%nat = false).
  { intros i Hi. bprop. apply Nat.ltb_ge. lia. }
  set (n := Z.of_nat (mpi_len z)) in *. set (v0 := nth 0 (mpi_body z) 0) in *.
  set (v1 := nth 1 (mpi_body z) 0) in *. set (v2 := nth 2 (mpi_body z) 0) in *.
  rewrite (lor_field (1 <=? n) (n * 2 ^ 24) v0 16);
    [|lia|intros E; apply (Hov 0%nat), (Hle 0%nat), E|lia..|exists n; lia|lia].
  rewrite (lor_field (2 <=? n) _ v1 8);
    [|lia|intros E; apply (Hov 1%nat), (Hle 1%nat), E|lia..|exists (n * 256 + v0); lia|lia].
  rewrite (lor_field (3 <=? n) _ v2 0);
    [|lia|intros E; apply (Hov 2%nat), (Hle 2%nat), E|lia..|exists (n * 65536 + v0 * 256 + v1); lia|lia].
  lia.
Qed.

(** The fields of the 32-bit result. *)
Lemma compact_fields n v0 v1 v2 : 0 <= n < 256 -> is_byte v0 -> is_byte v1 -> is_byte v2 ->
  let c := n * 65536 * 256 + v0 * 65536 + v1 * 256 + v2 in
  0 <= c < 2 ^ 32 /\ c / 2 ^ 24 = n /\ cbyte c 2 = v0 /\ cbyte c 1 = v1 /\ cbyte c 0 = v2.
Proof.
  intros Hn H0 H1 H2 c. unfold cbyte. subst c. split; [lia|]. split; [|split; [|split]].
  - symmetry. apply Z.div_unique with (v0 * 65536 + v1 * 256 + v2); lia.
  - symmetry. apply Z.mod_unique with n; [lia|].
    symmetry. apply Z.div_unique with (v1 * 256 + v2); lia.
  - symmetry. apply Z.mod_unique with (n * 256 + v0); [lia|].
    symmetry. apply Z.div_unique with v2; lia.
  - rewrite Z.pow_0_r, Z.div_1_r. symmetry. apply Z.mod_unique with (n * 65536 + v0 * 256 + v1); lia.
Qed.

Lemma SetCompact_GetCompact_body z : (mpi_len z <= 255)%nat ->
  0 <= GetCompact z < 2 ^ 32 /\
  SetCompact (GetCompact z) =
    mpi_val (take (mpi_len z) (take 3 (mpi_body z ++ replicate (3 - mpi_len z) 0) ++ replicate (mpi_len z - 3) 0)).
Proof.
  intros Hn. rewrite GetCompact_val by done.
  destruct (compact_fields (Z.of_nat (mpi_len z)) (nth 0 (mpi_body z) 0) (nth 1 (mpi_body z) 0)
    (nth 2 (mpi_body z) 0) ltac:(lia)) as (Hc & Hd & H2 & H1 & H0); try apply nth_byte, mpi_body_ok.
  split; [exact Hc|]. rewrite SetCompact_body by done. unfold compact_body. rewrite Hd, H2, H1, H0, Nat2Z.id.
  do 2 f_equal. pose proof (length_mpi_body z) as HL.
  destruct (mpi_body z) as [|a [|b [|c l]]]; cbn [length] in HL; rewrite <- HL; reflexivity.
Qed.

Lemma mpi_val_lead a b c l : is_byte a -> is_byte b -> is_byte c -> bytes_ok l ->
  mpi_val (a :: b :: c :: l) =
  (if a <? 128 then 1 else -1) *
  ((c + 256 * b + 65536 * (if a <? 128 then a else a - 128)) * 256 ^ Z.of_nat (length l)
   + le_val (reverse l)).
Proof.
  intros Ha Hb Hc Hl. rewrite mpi_val_cons by (repeat (apply Forall_cons; split); done).
  cbv zeta. rewrite !be_val_cons. cbn [length]. rewrite !Nat2Z.inj_succ, !Z.pow_succ_r by lia.
  destruct (a <? 128); lia.
Qed.

(** What compaction does to a body of more than three bytes. *)
Lemma mpi_body_long z : (3 <= mpi_len z)%nat -> exists a b c l,
  mpi_body z = a :: b :: c :: l /\ length l = (mpi_len z - 3)%nat /\
  is_byte a /\ is_byte b /\ is_byte c /\ bytes_ok l.
Proof.
  intros Hn. pose proof (length_mpi_body z) as HL. pose proof (mpi_body_ok z) as Hb.
  destruct (mpi_body z) as [|a [|b [|c l]]]; cbn [length] in HL; try lia.
  do 3 apply Forall_cons in Hb as [? Hb]. exists a, b, c, l. conjs; done || lia.
Qed.

Lemma compact_trunc_lead z a b c l : mpi_body z = a :: b :: c :: l ->
  is_byte a -> is_byte b -> is_byte c -> bytes_ok l -> length l = (mpi_len z - 3)%nat ->
  mpi_val (a :: b :: c :: replicate (length l) 0) = compact_trunc z.
Proof.
  intros E Ha Hb Hc Hl Hlen. rewrite mpi_val_3 by done. unfold compact_trunc.
  pose proof (mpi_val_body z) as Hz. rewrite E, mpi_val_lead in Hz by done.
  pose proof (be_val_bound l Hl) as Bl.
  pose proof (length_mpi_body z) as HL. rewrite E in HL. cbn [length] in HL.
  assert (Hnz : z <> 0) by (intros ->; discriminate HL).
  set (m := c + 256 * b + 65536 * _) in *. set (P := 256 ^ Z.of_nat (length l)) in *.
  assert (0 <= m) by (subst m; destruct (Z.ltb_spec a 128); lia).
  assert (Habs : Z.abs z = m * P + le_val (reverse l)) by (destruct (a <? 128); nia).
  assert (Hs : Z.sgn z = if a <? 128 then 1 else -1).
  { destruct (a <? 128); [apply Z.sgn_pos | apply Z.sgn_neg]; nia. }
  destruct (Z.leb_spec (Z.of_nat (mpi_len z)) 3).
  - assert (length l = 0%nat) as Hl0 by lia. destruct l; [|done]. rewrite <- Hz. subst P. simpl. lia.
  - replace (Z.of_nat (mpi_len z) - 3) with (Z.of_nat (length l)) by lia. fold P.
    rewrite Hs, Habs. replace ((m * P + le_val (reverse l)) / P) with m; [done|].
    apply Z.div_unique with (le_val (reverse l)); lia.
Qed.

Lemma SetCompact_GetCompact z : (mpi_len z <= 255)%nat -> SetCompact (GetCompact z) = compact_trunc z.
Proof.
  intros Hn. destruct (SetCompact_GetCompact_body z Hn) as [_ ->].
  destruct (Nat.le_gt_cases 3 (mpi_len z)) as [Hge|Hlt].
  - destruct (mpi_body_long z Hge) as (a & b & c & l & E & Hl & Ha & Hb & Hc & Hlb).
    rewrite <- (compact_trunc_lead z a b c l) by done. rewrite E.
    change (take 3 _) with [a; b; c]. rewrite <- Hl.
    rewrite take_ge by (rewrite length_app, length_replicate; cbn [length]; lia). done.
  - pose proof (length_mpi_body z) as HL. rewrite (take_ge _ 3) by (rewrite length_app, length_replicate; lia).
    rewrite <- app_assoc, take_app_exact by done. rewrite mpi_val_body.
    unfold compact_trunc. by rewrite (proj2 (Z.leb_le _ 3)) by lia.
Qed.

(** A body as long as the shortest one is the shortest one. *)
Lemma mpi_body_unique body : bytes_ok body -> mpi_val body <> 0 ->
  mpi_len (mpi_val body) = length body -> mpi_body (mpi_val body) = body.
Proof.
  intros Hb Hz Hl. destruct body as [|c cs]; [done|]. cbn [length] in Hl.
  apply (inj reverse).
  apply (undigits_inj 256 ltac:(lia));
    [apply digits_ok_rev, mpi_body_ok | by apply digits_ok_rev | by rewrite !length_reverse, length_mpi_body|].
  rewrite (mpi_body_val _ _ Hl), half_pow. apply Forall_cons in Hb as [Hc Hcs].
  pose proof (be_val_bound cs Hcs). rewrite mpi_val_cons, be_val_cons in * by done. cbv zeta in *.
  set (P := 256 ^ Z.of_nat (length cs)) in *.
  destruct (Z.ltb_spec c 128).
  - rewrite (proj2 (Z.ltb_ge _ 0)) by nia. nia.
  - rewrite (proj2 (Z.ltb_lt _ 0)) by nia. nia.
Qed.

Lemma compact_trunc_len z : mpi_len (compact_trunc z) = mpi_len z.
Proof.
  unfold compact_trunc. destruct (Z.leb_spec (Z.of_nat (mpi_len z)) 3); [done|].
  assert (Hz : z <> 0) by (intros ->; change (mpi_len 0) with 0%nat in *; lia).
  destruct (mpi_len_pos z Hz) as (n & E & Hlo & Hhi). rewrite E in *.
  set (P := 256 ^ (Z.of_nat (S n) - 3)). assert (0 < P) by (apply Z.pow_pos_nonneg; lia).
  pose proof (Z.div_mod (Z.abs z) P ltac:(lia)) as Hdm. pose proof (Z.mod_pos_bound (Z.abs z) P ltac:(lia)).
  assert (HP : 2 ^ (8 * Z.of_nat n - 1) = 2 ^ 15 * P).
  { unfold P. change 256 with (2 ^ 8). rewrite <- Z.pow_mul_r, <- Z.pow_add_r by lia. f_equal. lia. }
  assert (2 ^ 15 <= Z.abs z / P) by (apply Z.div_le_lower_bound; lia).
  assert (Ha : Z.abs (Z.sgn z * (Z.abs z / P * P)) = Z.abs z / P * P).
  { rewrite Z.abs_mul, (Z.abs_eq (_ / P * P)) by nia. destruct (Z.sgn_spec z) as [[? ->]|[[? ->]|[? ->]]]; lia. }
  apply mpi_len_unique; [|rewrite Ha]; nia.
Qed.

Lemma GetCompact_trunc z : (mpi_len z <= 255)%nat -> GetCompact (compact_trunc z) = GetCompact z.
Proof.
  intros Hn. destruct (Nat.le_gt_cases (mpi_len z) 3) as [Hle|Hgt].
  { unfold compact_trunc. by rewrite (proj2 (Z.leb_le _ 3)) by lia. }
  rewrite !GetCompact_val by (rewrite ?compact_trunc_len; done). rewrite compact_trunc_len.
  destruct (mpi_body_long z ltac:(lia)) as (a & b & c & l & E & Hl & Ha & Hb & Hc & Hlb).
  pose proof (compact_trunc_lead z a b c l E Ha Hb Hc Hlb Hl) as T. pose proof (compact_trunc_len z) as L.
  rewrite <- T in L |- *. rewrite E, mpi_body_unique; [done| | |].
  - repeat (apply Forall_cons; split; [done|]). apply Forall_replicate. lia.
  - intros Z0. rewrite Z0 in L. change (mpi_len 0) with 0%nat in L. lia.
  - rewrite L. cbn [length]. rewrite length_replicate. lia.
Qed.

Lemma compact_trunc_bounds z : 0 <= z -> 0 <= compact_trunc z <= z.
Proof.
  intros Hz. unfold compact_trunc. destruct (Z.leb_spec (Z.of_nat (mpi_len z)) 3); [lia|].
  set (P := 256 ^ _). assert (0 < P) by (apply Z.pow_pos_nonneg; lia). rewrite Z.abs_eq by done.
  pose proof (Z.div_mod z P ltac:(lia)). pose proof (Z.mod_pos_bound z P ltac:(lia)).
  assert (0 <= z / P) by (apply Z.div_pos; lia).
  destruct (decide (z = 0)) as [->|]; [simpl; lia|]. rewrite Z.sgn_pos by lia. nia.
Qed.
End Compact.

(** ** Properties *)

(** A [CBigNum] set from a 64-bit or 256-bit integer holds that integer,
    read back as an unsigned integer it is the magnitude reduced to the width,
    the script vector [getvch] is the inverse of [setvch], and [getint] clamps
    to the range of an [int], whatever library meets OpenSSL's contract. *)
Theorem bignum_conversions `{BN_ok : OpenSSL_BN_ok} (z : Z) (u : base_uint) :
  Z.log2 (Z.abs z) < 2 ^ 30 -> uint_ok 8 u ->
  (- 2 ^ 63 <= z < 2 ^ 63 -> setint64 z = z) /\
  (0 <= z < 2 ^ 64 -> setuint64 z = z /\ getuint64 z = z) /\
  setuint256 u = uval u /\ getuint256 (uval u) = u /\
  getuint64 z = Z.abs z mod 2 ^ 64 /\
  setvch (getvch z) = z /\
  getint z = Z.max INT_MIN (Z.min INT_MAX z).
Proof.
  intros Hz Hu. conjs.
  - apply setint64_spec.
  - intros. split; [by apply setuint64_spec|]. rewrite getuint64_spec by done. rewrite Z.mod_small; lia.
  - by apply setuint256_spec.
  - destruct Hu as [Hl Hd]. pose proof (undigits_bound W32 ltac:(unfold W32; lia) u Hd) as B. rewrite Hl in B.
    change (W32 ^ Z.of_nat 8) with (2 ^ 256) in B.
    assert (Z.log2 (Z.abs (uval u)) < 2 ^ 30).
    { destruct (decide (uval u = 0)) as [->|]; [simpl; lia|].
      apply Z.lt_trans with 256; [|lia]. apply Z.log2_lt_pow2; unfold uval in *; lia. }
    destruct (getuint256_spec (uval u)) as [[Hl' Hd'] Hv]; [done|].
    apply (undigits_inj W32); [unfold W32; lia|done|done|congruence|].
    change (uval (getuint256 (uval u)) = uval u). rewrite Hv, Z.abs_eq, Z.mod_small; unfold uval; lia.
  - by apply getuint64_spec.
  - by apply setvch_getvch.
  - unfold getint, getulong, INT_MAX, INT_MIN. rewrite BN_get_word_spec.
    unfold s32. repeat dmatch; bprop; try lia.
    all: repeat match goal with |- context [?a mod ?b] => pose proof (Z.mod_pos_bound a b ltac:(lia)); rewrite (Z.mod_small a b) by lia end; lia.
Qed.

Lemma bignum_conversions_witness :
  @setint64 reference_BN (-5) = -5 /\ @getint reference_BN (2 ^ 40) = INT_MAX /\
  @setvch reference_BN (@getvch reference_BN (2 ^ 40)) = 2 ^ 40.
Proof.
  pose proof reference_BN_ok as OK.
  destruct (@bignum_conversions reference_BN OK (-5) (replicate 8 1)) as [H _];
    [vm_compute; reflexivity | split; [reflexivity | repeat constructor; done] |].
  destruct (@bignum_conversions reference_BN OK (2 ^ 40) (replicate 8 1)) as (_ & _ & _ & _ & _ & Hv & Hi);
    [vm_compute; reflexivity | split; [reflexivity | repeat constructor; done] |].
  split; [apply H; lia|]. split; [rewrite Hi; reflexivity | exact Hv].
Defined.

(** The compact difficulty encoding.  [SetCompact] decodes every 32-bit
    word as sign, 23-bit mantissa and base-256 exponent; [GetCompact] of a
    number of at most 255 bytes keeps its three leading bytes, so that decoding
    gives the number truncated there and encoding again gives the same word. *)
Theorem compact_encoding `{BN_ok : OpenSSL_BN_ok} (c z : Z) :
  0 <= c < 2 ^ 32 -> (mpi_len z <= 255)%nat ->
  SetCompact c = compact_val c /\
  0 <= GetCompact z < 2 ^ 32 /\
  SetCompact (GetCompact z) = compact_trunc z /\
  GetCompact (SetCompact (GetCompact z)) = GetCompact z /\
  (0 <= z -> 0 <= compact_trunc z <= z).
Proof.
  intros Hc Hz. conjs.
  - by apply SetCompact_val.
  - by apply SetCompact_GetCompact_body.
  - by apply SetCompact_GetCompact_body.
  - by apply SetCompact_GetCompact.
  - rewrite SetCompact_GetCompact by done. by apply GetCompact_trunc.
  - apply compact_trunc_bounds.
Qed.

Lemma compact_encoding_witness :
  @SetCompact reference_BN 0x1b0404cb = 0x0404cb * 256 ^ 24 /\
  @GetCompact reference_BN (@SetCompact reference_BN (@GetCompact reference_BN (2 ^ 236 - 1))) = 0x1e0fffff.
Proof.
  pose proof reference_BN_ok as OK.
  destruct (@compact_encoding reference_BN OK 0x1b0404cb (2 ^ 236 - 1)) as (H1 & _ & _ & H2 & _); [lia|vm_compute; lia|].
  split; [rewrite H1|rewrite H2]; vm_compute; reflexivity.
Defined.
