(* ===== verification/Tx.v ===== *)
(** * Transactions, blocks and index records (src/src/main.h)

    The data of main.h as records, their serialization (each IMPLEMENT_SERIALIZE
    body is one codec, field by field in the order of the code), the hash
    helpers of util.h over an abstract digest, and the pure predicates of
    [CTransaction] and [CBlock]. *)

From S2P Require Import Prelude Uint256 Serialize.

(** ** Digests

    OpenSSL's digests, and [Hash9], the chain of vendored C hash functions that
    names a block, are library code. *)
Class Digests := {
  SHA256 : list Z -> list Z;
  RIPEMD160 : list Z -> list Z;
  SHA1 : list Z -> list Z;
  Hash9 : list Z -> list Z;
}.

Class Digests_ok `{Digests} : Prop := {
  SHA256_len : forall l, length (SHA256 l) = 32%nat;
  SHA256_bytes : forall l, bytes_ok (SHA256 l);
  RIPEMD160_len : forall l, length (RIPEMD160 l) = 20%nat;
  RIPEMD160_bytes : forall l, bytes_ok (RIPEMD160 l);
  SHA1_len : forall l, length (SHA1 l) = 20%nat;
  SHA1_bytes : forall l, bytes_ok (SHA1 l);
  Hash9_len : forall l, length (Hash9 l) = 32%nat;
  Hash9_bytes : forall l, bytes_ok (Hash9 l);
}.

(** An instance for examples: a toy digest that sums and mixes the bytes. *)
Definition toy_digest (n : nat) (seed : Z) (l : list Z) : list Z :=
  le_bytes n (fold_left (fun h b => (h * 1000003 + b + 1) mod 2 ^ 256) l seed).

Definition toy_digests : Digests := {|
  SHA256 := toy_digest 32 1; RIPEMD160 := toy_digest 20 2;
  SHA1 := toy_digest 20 3; Hash9 := toy_digest 32 4;
|}.

Lemma toy_digests_ok : @Digests_ok toy_digests.
Proof. split; intros; first [apply length_le_bytes | apply le_bytes_ok]. Qed.

(** ** Fixed-width hashes *)

Abbreviation uint256 := base_uint.
Abbreviation uint160 := base_uint.
Abbreviation uint_zero k := (replicate k 0).

Definition uint_fixed_codec (k : nat) : codec base_uint := {|
  enc u := uint_bytes u;
  dec bs := option_map (fun r => (words_of_bytes (fst r), snd r)) (read_bytes (4 * k) bs);
  csize _ := Z.of_nat (4 * k);
|}.

Definition uint256_codec : codec uint256 := uint_fixed_codec 8.

(** A field that is not on the wire and has one value. *)
Definition const_codec {A} (a : A) : codec A := {|
  enc _ := []; dec bs := Some (a, bs); csize _ := 0;
|}.

(** A field whose format depends on one read before it. *)
Definition dep_codec {A B} (ca : codec A) (cb : A -> codec B) : codec (A * B) := {|
  enc p := enc ca (fst p) ++ enc (cb (fst p)) (snd p);
  dec bs :=
    match dec ca bs with
    | Some (a, bs) =>
        match dec (cb a) bs with
        | Some (b, bs) => Some ((a, b), bs)
        | None => None
        end
    | None => None
    end;
  csize p := u32 (csize ca (fst p) + csize (cb (fst p)) (snd p));
|}.

(** ** Records *)

Record COutPoint := mkOutPoint { out_hash : uint256; out_n : Z }.

Record CTxIn := mkTxIn { prevout : COutPoint; scriptSig : list Z; nSequence : Z }.

Record CTxOut := mkTxOut { nValue : Z; scriptPubKey : list Z }.

Record CTransaction := mkTx {
  tx_nVersion : Z; tx_nTime : Z; vin : list CTxIn; vout : list CTxOut; nLockTime : Z;
}.

Record CBlockHeader := mkHeader {
  nVersion : Z; hashPrevBlock : uint256; hashMerkleRoot : uint256; nTime : Z; nBits : Z; nNonce : Z;
}.

Record CBlock := mkBlock { header : CBlockHeader; vtx : list CTransaction; vchBlockSig : list Z }.

Record CDiskTxPos := mkDiskTxPos { nFile : Z; nBlockPos : Z; nTxPos : Z }.

Record CTxIndex := mkTxIndex { pos : CDiskTxPos; vSpent : list CDiskTxPos }.

#[export] Instance COutPoint_eq_dec : EqDecision COutPoint.
Proof. solve_decision. Defined.
#[export] Instance CTxIn_eq_dec : EqDecision CTxIn.
Proof. solve_decision. Defined.
#[export] Instance CTxOut_eq_dec : EqDecision CTxOut.
Proof. solve_decision. Defined.
#[export] Instance CTransaction_eq_dec : EqDecision CTransaction.
Proof. solve_decision. Defined.
#[export] Instance CBlockHeader_eq_dec : EqDecision CBlockHeader.
Proof. solve_decision. Defined.
#[export] Instance CDiskTxPos_eq_dec : EqDecision CDiskTxPos.
Proof. solve_decision. Defined.
#[export] Instance CTxIndex_eq_dec : EqDecision CTxIndex.
Proof. solve_decision. Defined.

#[export] Instance COutPoint_countable : Countable COutPoint.
Proof.
  apply (inj_countable' (fun o => (out_hash o, out_n o)) (fun p => mkOutPoint (fst p) (snd p))).
  by intros [].
Defined.

(** ** Constants of main.h *)

Definition COIN : Z := 100000000.
Definition CENT : Z := 1000000.
Definition MAX_MONEY : Z := 90 * 1000000 * COIN.
Definition MIN_TX_FEE : Z := 20.
Definition MIN_RELAY_TX_FEE : Z := MIN_TX_FEE.
Definition MAX_BLOCK_SIZE : Z := 1000000.
Definition MAX_BLOCK_SIZE_GEN : Z := MAX_BLOCK_SIZE / 2.
Definition MAX_BLOCK_SIGOPS : Z := MAX_BLOCK_SIZE / 50.
Definition MAX_ORPHAN_TRANSACTIONS : Z := MAX_BLOCK_SIZE / 100.
Definition LAST_POW_BLOCK : Z := 978420.
Definition MODIFIER_INTERVAL_SWITCH : Z := 100.
Definition BLOCK_SWITCH_TIME : Z := 1521572400.
Definition LOCKTIME_THRESHOLD : Z := 500000000.
Definition UINT_MAX : Z := 2 ^ 32 - 1.

Definition MoneyRange (nValue : Z) : bool := ((0 <=? nValue) && (nValue <=? MAX_MONEY))%bool.

Definition GetClockDrift (nTime : Z) : Z := if nTime <? BLOCK_SWITCH_TIME then 30 * 60 else 60.

(** ** Null values and predicates *)

Definition COutPoint_null : COutPoint := mkOutPoint (uint_zero 8) UINT_MAX.
Definition COutPoint_IsNull (o : COutPoint) : bool :=
  (op_eq64 (out_hash o) 0 && (out_n o =? UINT_MAX))%bool.

Definition COutPoint_lt (a b : COutPoint) : bool :=
  (op_lt (out_hash a) (out_hash b)
   || (op_eq (out_hash a) (out_hash b) && (out_n a <? out_n b)))%bool.

Definition CDiskTxPos_null : CDiskTxPos := mkDiskTxPos UINT_MAX 0 0.
Definition CDiskTxPos_IsNull (p : CDiskTxPos) : bool := nFile p =? UINT_MAX.

(** [vSpent.resize(nOutputs)] fills with null positions. *)
Definition CTxIndex_make (posIn : CDiskTxPos) (nOutputs : nat) : CTxIndex :=
  mkTxIndex posIn (replicate nOutputs CDiskTxPos_null).

Definition CTxIn_IsFinal (txin : CTxIn) : bool := nSequence txin =? UINT_MAX.

Definition CTxOut_IsEmpty (txout : CTxOut) : bool :=
  ((nValue txout =? 0) && match scriptPubKey txout with [] => true | _ => false end)%bool.

Definition IsCoinBase (tx : CTransaction) : bool :=
  match vin tx with
  | [txin] => (COutPoint_IsNull (prevout txin) && (1 <=? length (vout tx))%nat)%bool
  | _ => false
  end.

Definition IsCoinStake (tx : CTransaction) : bool :=
  match vin tx with
  | txin :: _ =>
      (negb (COutPoint_IsNull (prevout txin)) && (2 <=? length (vout tx))%nat
       && match vout tx with o :: _ => CTxOut_IsEmpty o | [] => false end)%bool
  | [] => false
  end.

(** [IsFinal] reads the node's best height and clock when its arguments are zero. *)
Definition IsFinal (nBestHeight nAdjustedTime : Z) (tx : CTransaction) (nBlockHeight nBlockTime : Z) : bool :=
  if nLockTime tx =? 0 then true
  else
    let nBlockHeight := if nBlockHeight =? 0 then nBestHeight else nBlockHeight in
    let nBlockTime := if nBlockTime =? 0 then nAdjustedTime else nBlockTime in
    if nLockTime tx <? (if nLockTime tx <? LOCKTIME_THRESHOLD then nBlockHeight else nBlockTime) then true
    else forallb CTxIn_IsFinal (vin tx).

(** The second loop of [IsNewerThan], over the pairs of sequence numbers. *)
Fixpoint newer_loop (seqs : list (Z * Z)) (fNewer : bool) (nLowest : Z) : bool :=
  match seqs with
  | [] => fNewer
  | (sNew, sOld) :: seqs =>
      if negb (sNew =? sOld) then
        let '(fNewer, nLowest) := if sNew <=? nLowest then (false, sNew) else (fNewer, nLowest) in
        let '(fNewer, nLowest) := if sOld <? nLowest then (true, sOld) else (fNewer, nLowest) in
        newer_loop seqs fNewer nLowest
      else newer_loop seqs fNewer nLowest
  end.

Definition IsNewerThan (tx old : CTransaction) : bool :=
  if negb (length (vin tx) =? length (vin old))%nat then false
  else if existsb (fun p => negb (bool_decide (prevout (fst p) = prevout (snd p)))) (zip (vin tx) (vin old))
  then false
  else newer_loop (zip (map nSequence (vin tx)) (map nSequence (vin old))) false UINT_MAX.

(** [GetValueOut] throws on a value, or a running sum, out of range. *)
Fixpoint value_out_loop (vout : list CTxOut) (nValueOut : Z) : option Z :=
  match vout with
  | [] => Some nValueOut
  | txout :: vout =>
      let nValueOut := s64 (nValueOut + nValue txout) in
      if (negb (MoneyRange (nValue txout)) || negb (MoneyRange nValueOut))%bool then None
      else value_out_loop vout nValueOut
  end.

Definition GetValueOut (tx : CTransaction) : option Z := value_out_loop (vout tx) 0.

(** [CBlock] *)
Definition IsProofOfStake (b : CBlock) : bool :=
  match vtx b with
  | _ :: tx1 :: _ => IsCoinStake tx1
  | _ => false
  end.

Definition IsProofOfWork (b : CBlock) : bool := negb (IsProofOfStake b).

Definition GetProofOfStake (b : CBlock) : COutPoint * Z :=
  match vtx b with
  | _ :: tx1 :: _ =>
      if IsCoinStake tx1 then
        match vin tx1 with
        | txin :: _ => (prevout txin, tx_nTime tx1)
        | [] => (COutPoint_null, 0)
        end
      else (COutPoint_null, 0)
  | _ => (COutPoint_null, 0)
  end.

Definition GetMaxTransactionTime (b : CBlock) : Z :=
  fold_left (fun m tx => Z.max m (tx_nTime tx)) (vtx b) 0.

(** ** Serialization *)

Definition COutPoint_codec : codec COutPoint :=
  iso_codec (fun o => (out_hash o, out_n o)) (fun '(a, b) => mkOutPoint a b)
    (pair_codec uint256_codec (uint_codec 4)).

Definition CDiskTxPos_codec : codec CDiskTxPos :=
  iso_codec (fun p => (nFile p, (nBlockPos p, nTxPos p))) (fun '(a, (b, c)) => mkDiskTxPos a b c)
    (pair_codec (uint_codec 4) (pair_codec (uint_codec 4) (uint_codec 4))).

Definition CTxIn_codec : codec CTxIn :=
  iso_codec (fun i => (prevout i, (scriptSig i, nSequence i))) (fun '(a, (b, c)) => mkTxIn a b c)
    (pair_codec COutPoint_codec (pair_codec bytevec_codec (uint_codec 4))).

Definition CTxOut_codec : codec CTxOut :=
  iso_codec (fun o => (nValue o, scriptPubKey o)) (fun '(a, b) => mkTxOut a b)
    (pair_codec (sint_codec 8) bytevec_codec).

Definition CTransaction_codec : codec CTransaction :=
  iso_codec (fun t => (tx_nVersion t, (tx_nTime t, (vin t, (vout t, nLockTime t)))))
    (fun '(a, (b, (c, (d, e)))) => mkTx a b c d e)
    (pair_codec (sint_codec 4) (pair_codec (uint_codec 4)
      (pair_codec (vector_codec CTxIn_codec) (pair_codec (vector_codec CTxOut_codec) (uint_codec 4))))).

Definition CBlockHeader_codec : codec CBlockHeader :=
  iso_codec (fun h => (nVersion h, (hashPrevBlock h, (hashMerkleRoot h, (nTime h, (nBits h, nNonce h))))))
    (fun '(a, (b, (c, (d, (e, f))))) => mkHeader a b c d e f)
    (pair_codec (sint_codec 4) (pair_codec uint256_codec (pair_codec uint256_codec
      (pair_codec (uint_codec 4) (pair_codec (uint_codec 4) (uint_codec 4)))))).

(** The body of [CBlock::IMPLEMENT_SERIALIZE]; with SER_GETHASH or
    SER_BLOCKHEADERONLY only the header is on the wire and reading clears the rest. *)
Definition CBlock_codec (fHeaderOnly : bool) : codec CBlock :=
  iso_codec (fun b => (header b, (vtx b, vchBlockSig b))) (fun '(a, (b, c)) => mkBlock a b c)
    (pair_codec CBlockHeader_codec
      (if fHeaderOnly then const_codec ([], [])
       else pair_codec (vector_codec CTransaction_codec) bytevec_codec)).

(** [CTxIndex] on disk: the stream's version number first. *)
Definition CTxIndex_codec : codec (Z * CTxIndex) :=
  pair_codec (sint_codec 4)
    (iso_codec (fun t => (pos t, vSpent t)) (fun '(a, b) => mkTxIndex a b)
      (pair_codec CDiskTxPos_codec (vector_codec CDiskTxPos_codec))).

(** ** Hashes *)

Section Hashes.
Context `{Digests}.

Definition Hash (l : list Z) : uint256 := words_of_bytes (SHA256 (SHA256 l)).
Definition Hash2 (l1 l2 : list Z) : uint256 := words_of_bytes (SHA256 (SHA256 (l1 ++ l2))).
Definition SerializeHash {A} (c : codec A) (a : A) : uint256 := Hash (enc c a).
Definition Hash160 (vch : list Z) : uint160 := words_of_bytes (RIPEMD160 (SHA256 vch)).

Definition CTransaction_GetHash (tx : CTransaction) : uint256 := SerializeHash CTransaction_codec tx.
Definition CTxOut_GetHash (txout : CTxOut) : uint256 := SerializeHash CTxOut_codec txout.

(** [Hash9] runs over the bytes from [nVersion] to [nNonce] in memory, which
    are the serialized header. *)
Definition CBlockHeader_GetHash (h : CBlockHeader) : uint256 :=
  words_of_bytes (Hash9 (enc CBlockHeader_codec h)).

Definition GetStakeEntropyBit (b : CBlock) : Z := Z.land (Get64 (CBlockHeader_GetHash (header b)) 0) 1.
End Hashes.

(** ** Correctness of the codecs *)

Lemma uint_fixed_codec_ok k : (k <= 64)%nat -> codec_ok (uint_fixed_codec k) (uint_ok k).
Proof.
  intros Hk. split; cbn [enc dec csize uint_fixed_codec].
  - intros u rest [Hl Hd]. rewrite read_bytes_app by (rewrite length_uint_bytes, Hl; lia).
    cbn [option_map fst snd]. by rewrite words_of_uint_bytes.
  - intros u [Hl Hd]. rewrite length_uint_bytes, Hl, u32_small by lia. done.
  - intros u [Hl Hd]. apply uint_bytes_ok.
  - intros bs u rest Hb. destruct (read_bytes (4 * k) bs) as [[l r]|] eqn:E; [|done].
    apply read_bytes_Some in E as [-> Hl]. intros [= <- <-]. cbn [fst snd].
    apply digits_ok_app in Hb as [Hb _]. split; [by apply uval_words_of_bytes | by exists l].
Qed.

Lemma const_codec_ok {A} (a : A) : codec_ok (const_codec a) (eq a).
Proof.
  split; cbn [enc dec csize const_codec].
  - by intros ? rest ->.
  - done.
  - constructor.
  - intros bs ? rest _ [= <- <-]. split; [done|]. by exists [].
Qed.

Lemma dep_codec_ok {A B} (ca : codec A) (cb : A -> codec B) va vb :
  codec_ok ca va -> (forall a, codec_ok (cb a) (vb a)) ->
  codec_ok (dep_codec ca cb) (fun p => va (fst p) /\ vb (fst p) (snd p)).
Proof.
  intros Ha Hb. split; cbn [enc dec csize dep_codec].
  - intros [a b] rest [H1 H2]. cbn [fst snd] in *.
    rewrite <- app_assoc, (dec_enc Ha) by done. by rewrite (dec_enc (Hb a)).
  - intros [a b] [H1 H2]. cbn [fst snd] in *. rewrite (csize_enc Ha), (csize_enc (Hb a)) by done.
    by rewrite u32_add, length_app, Nat2Z.inj_add.
  - intros [a b] [H1 H2]. apply digits_ok_app. split; [by apply (enc_bytes Ha) | by apply (enc_bytes (Hb a))].
  - intros bs [a b] rest Hbs. destruct (dec ca bs) as [[a' bs1]|] eqn:E; [|done].
    destruct (dec_valid Ha _ _ _ Hbs E) as [Hva [u ->]]. apply digits_ok_app in Hbs as [_ Hbs].
    destruct (dec (cb a') bs1) as [[b' bs2]|] eqn:E2; [|done]. intros [= <- <- <-].
    destruct (dec_valid (Hb a') _ _ _ Hbs E2) as [Hvb [u2 ->]].
    split; [by split|]. exists (u ++ u2). by rewrite app_assoc.
Qed.

(** The values each format can carry. *)
Definition COutPoint_valid (o : COutPoint) : Prop := uint_ok 8 (out_hash o) /\ uint_valid 4 (out_n o).
Definition CDiskTxPos_valid (p : CDiskTxPos) : Prop :=
  uint_valid 4 (nFile p) /\ uint_valid 4 (nBlockPos p) /\ uint_valid 4 (nTxPos p).
Definition CTxIn_valid (i : CTxIn) : Prop :=
  COutPoint_valid (prevout i) /\ bytevec_valid (scriptSig i) /\ uint_valid 4 (nSequence i).
Definition CTxOut_valid (o : CTxOut) : Prop := sint_valid 8 (nValue o) /\ bytevec_valid (scriptPubKey o).
Definition CTransaction_valid (t : CTransaction) : Prop :=
  sint_valid 4 (tx_nVersion t) /\ uint_valid 4 (tx_nTime t) /\ vector_valid CTxIn_valid (vin t) /\
  vector_valid CTxOut_valid (vout t) /\ uint_valid 4 (nLockTime t).
Definition CBlockHeader_valid (h : CBlockHeader) : Prop :=
  sint_valid 4 (nVersion h) /\ uint_ok 8 (hashPrevBlock h) /\ uint_ok 8 (hashMerkleRoot h) /\
  uint_valid 4 (nTime h) /\ uint_valid 4 (nBits h) /\ uint_valid 4 (nNonce h).
Definition CBlock_valid (fHeaderOnly : bool) (b : CBlock) : Prop :=
  CBlockHeader_valid (header b) /\
  if fHeaderOnly then vtx b = [] /\ vchBlockSig b = []
  else vector_valid CTransaction_valid (vtx b) /\ bytevec_valid (vchBlockSig b).
Definition CTxIndex_valid (p : Z * CTxIndex) : Prop :=
  sint_valid 4 (fst p) /\ CDiskTxPos_valid (pos (snd p)) /\ vector_valid CDiskTxPos_valid (vSpent (snd p)).

(** A codec built by [iso_codec] over pairs: name the component codecs. *)
Ltac codec_tac :=
  repeat first
    [ eapply pair_codec_ok | eapply vector_codec_ok | apply bytevec_codec_ok
    | apply uint_codec_ok; lia | apply sint_codec_ok; lia
    | apply uint_fixed_codec_ok; lia | eassumption | apply const_codec_ok ].
Ltac record_codec :=
  eapply codec_ok_weaken;
  [ eapply iso_codec_ok; [codec_tac | by intros [] | intros; repeat case_match; by simplify_eq/=]
  | intros; reflexivity ].

Lemma COutPoint_codec_ok : codec_ok COutPoint_codec COutPoint_valid.
Proof. record_codec. Qed.

Lemma CDiskTxPos_codec_ok : codec_ok CDiskTxPos_codec CDiskTxPos_valid.
Proof. record_codec. Qed.

Lemma CTxIn_codec_ok : codec_ok CTxIn_codec CTxIn_valid.
Proof. pose proof COutPoint_codec_ok. record_codec. Qed.

Lemma CTxOut_codec_ok : codec_ok CTxOut_codec CTxOut_valid.
Proof. record_codec. Qed.

Lemma CTransaction_codec_ok : codec_ok CTransaction_codec CTransaction_valid.
Proof. pose proof CTxIn_codec_ok. pose proof CTxOut_codec_ok. record_codec. Qed.

Lemma CBlockHeader_codec_ok : codec_ok CBlockHeader_codec CBlockHeader_valid.
Proof. record_codec. Qed.

Lemma CBlock_codec_ok fHeaderOnly : codec_ok (CBlock_codec fHeaderOnly) (CBlock_valid fHeaderOnly).
Proof.
  pose proof CBlockHeader_codec_ok. pose proof CTransaction_codec_ok. destruct fHeaderOnly; [|record_codec].
  eapply codec_ok_weaken; [eapply iso_codec_ok; [codec_tac|by intros []|by intros [? []]]|].
  intros [h t g]. unfold pair_valid, CBlock_valid. cbn [fst snd header vtx vchBlockSig].
  split; [intros [? [= <- <-]] | intros [? [-> ->]]]; auto.
Qed.

Lemma CTxIndex_codec_ok : codec_ok CTxIndex_codec CTxIndex_valid.
Proof.
  pose proof CDiskTxPos_codec_ok. eapply codec_ok_weaken.
  - apply pair_codec_ok; [codec_tac|].
    eapply iso_codec_ok; [codec_tac | by intros [] | by intros []].
  - intros; reflexivity.
Qed.

Section HashFacts.
Context `{HD : Digests} `{HDok : !Digests_ok}.

Lemma words_of_32 l : length l = 32%nat -> bytes_ok l -> uint_ok 8 (words_of_bytes l).
Proof. intros. by apply uval_words_of_bytes. Qed.

Lemma Hash_ok l : uint_ok 8 (Hash l).
Proof. apply words_of_32; [apply SHA256_len | apply SHA256_bytes]. Qed.

Lemma Hash160_ok l : uint_ok 5 (Hash160 l).
Proof. apply (uval_words_of_bytes 5); [apply RIPEMD160_len | apply RIPEMD160_bytes]. Qed.

Lemma header_hash_ok h : uint_ok 8 (CBlockHeader_GetHash h).
Proof. apply words_of_32; [apply Hash9_len | apply Hash9_bytes]. Qed.
End HashFacts.

(** ** Values *)

Lemma MoneyRange_spec v : MoneyRange v = true <-> 0 <= v <= MAX_MONEY.
Proof. unfold MoneyRange. rewrite andb_true_iff, !Z.leb_le. lia. Qed.

Lemma money_s64 v w : 0 <= v <= MAX_MONEY -> 0 <= w <= MAX_MONEY -> s64 (v + w) = v + w.
Proof. unfold MAX_MONEY, COIN. intros. apply s64_small. lia. Qed.

Lemma value_out_loop_spec os acc : 0 <= acc <= MAX_MONEY ->
  value_out_loop os acc =
  if decide (Forall (fun o => 0 <= nValue o) os /\ acc + sumZ (map nValue os) <= MAX_MONEY)
  then Some (acc + sumZ (map nValue os)) else None.
Proof.
  revert acc. induction os as [|o os IH]; intros acc Hacc; cbn [value_out_loop map sumZ fold_right].
  - rewrite decide_True by (split; [constructor|lia]). f_equal. lia.
  - change (fold_right Z.add 0 (map nValue os)) with (sumZ (map nValue os)).
    destruct (MoneyRange (nValue o)) eqn:E1; cbn [negb orb].
    + apply MoneyRange_spec in E1. rewrite money_s64 by done.
      destruct (MoneyRange (acc + nValue o)) eqn:E2; cbn [negb].
      * apply MoneyRange_spec in E2. rewrite IH by done.
        repeat case_decide; rewrite ?Forall_cons in *; try (f_equal; lia); exfalso; intuition lia.
      * assert (~ 0 <= acc + nValue o <= MAX_MONEY) by (rewrite <- MoneyRange_spec; congruence).
        rewrite decide_False; [done|]. intros [[? Hos]%Forall_cons Hs].
        assert (0 <= sumZ (map nValue os)) by (apply sumZ_nonneg; by apply Forall_map).
        lia.
    + assert (~ 0 <= nValue o <= MAX_MONEY) by (rewrite <- MoneyRange_spec; congruence).
      rewrite decide_False; [done|]. intros [[? Hos]%Forall_cons Hs].
      assert (0 <= sumZ (map nValue os)) by (apply sumZ_nonneg; by apply Forall_map).
      lia.
Qed.

(** The least sequence number of a list. *)
Definition lowest (l : list Z) : Z := fold_right Z.min UINT_MAX l.

(** The sequence numbers of the inputs on which two transactions differ. *)
Definition diffs (seqs : list (Z * Z)) : list (Z * Z) := filter (fun p => fst p <> snd p) seqs.

Lemma diffs_cons a b seqs : diffs ((a, b) :: seqs) = if decide (a <> b) then (a, b) :: diffs seqs else diffs seqs.
Proof. unfold diffs. rewrite filter_cons. done. Qed.

Lemma lowest_cons a l : lowest (a :: l) = Z.min a (lowest l).
Proof. done. Qed.

(** The loop keeps the lower of the two running minima and which one it is. *)
Lemma newer_loop_spec seqs mn mo : mn <= UINT_MAX -> mo <= UINT_MAX ->
  newer_loop seqs (mo <? mn) (Z.min mo mn) =
  (Z.min mo (lowest (map snd (diffs seqs))) <? Z.min mn (lowest (map fst (diffs seqs)))).
Proof.
  revert mn mo. induction seqs as [|[a b] seqs IH]; intros mn mo Hn Ho.
  - cbn. by rewrite !Z.min_l by done.
  - cbn [newer_loop]. rewrite diffs_cons.
    destruct (Z.eqb_spec a b) as [->|Hne]; cbn [negb].
    { rewrite decide_False by auto. by apply IH. }
    rewrite decide_True by done. cbn [map fst snd]. rewrite !lowest_cons, !Z.min_assoc.
    rewrite <- (IH (Z.min mn a) (Z.min mo b)) by lia.
    destruct (Z.leb_spec a (Z.min mo mn)), (Z.ltb_spec b a), (Z.ltb_spec b (Z.min mo mn)); try lia;
      f_equal; try lia; destruct (Z.ltb_spec mo mn), (Z.ltb_spec (Z.min mo b) (Z.min mn a)); done || lia.
Qed.

Lemma lowest_max l : lowest l <= UINT_MAX.
Proof. induction l as [|a l IH]; [done|]. rewrite lowest_cons. lia. Qed.

(** The first two checks of [IsNewerThan]. *)
Lemma prevouts_differ {B} (a b : list CTxIn) (no yes : B) :
  (if negb (length a =? length b)%nat then no
   else if existsb (fun p => negb (bool_decide (prevout (fst p) = prevout (snd p)))) (zip a b)
   then no else yes) = if decide (map prevout a = map prevout b) then yes else no.
Proof.
  revert b. induction a as [|x a IH]; intros [|y b]; try done.
  cbn [length Nat.eqb zip zip_with existsb map fst snd]. specialize (IH b).
  destruct (bool_decide (prevout x = prevout y)) eqn:E; bprop; cbn [negb orb].
  - rewrite IH. repeat case_decide; try done; congruence.
  - rewrite decide_False by congruence. by destruct (negb _).
Qed.

Lemma all_final vi : forallb CTxIn_IsFinal vi = true <-> Forall (fun i => nSequence i = UINT_MAX) vi.
Proof.
  unfold CTxIn_IsFinal. rewrite forallb_forall, Forall_forall.
  split; intros H x Hx; specialize (H x); apply Z.eqb_eq || rewrite Z.eqb_eq in *; apply H; by apply list_elem_of_In.
Qed.

(** ** Properties *)

(** The wire formats of transactions, block headers, blocks (whole or header
    only) and transaction-index records: reading what was written gives the
    value back and stops at its end, the announced size is the number of bytes
    written, and whatever the reader accepts is a value the writer can write. *)
Theorem chain_data_formats fHeaderOnly :
  codec_ok CTransaction_codec CTransaction_valid /\
  codec_ok CBlockHeader_codec CBlockHeader_valid /\
  codec_ok (CBlock_codec fHeaderOnly) (CBlock_valid fHeaderOnly) /\
  codec_ok CTxIndex_codec CTxIndex_valid.
Proof.
  conjs; [apply CTransaction_codec_ok | apply CBlockHeader_codec_ok
    | apply CBlock_codec_ok | apply CTxIndex_codec_ok].
Qed.

(** [GetValueOut] returns the mathematical sum of the outputs exactly when
    every output is non-negative and the sum is at most MAX_MONEY, and throws
    otherwise: the 64-bit wrap-around of the running sum is never returned. *)
Theorem GetValueOut_correct (tx : CTransaction) :
  GetValueOut tx =
  if decide (Forall (fun o => 0 <= nValue o) (vout tx) /\ sumZ (map nValue (vout tx)) <= MAX_MONEY)
  then Some (sumZ (map nValue (vout tx))) else None.
Proof. unfold GetValueOut. by rewrite value_out_loop_spec by (unfold MAX_MONEY, COIN; lia). Qed.

(** [IsNewerThan] decides replacement of a transaction by another that
    spends the same outpoints in the same order: the newer one is the one whose
    sequence numbers, on the inputs where the two differ, have the higher minimum. *)
Theorem IsNewerThan_correct (tx old : CTransaction) :
  IsNewerThan tx old = true <->
  map prevout (vin tx) = map prevout (vin old) /\
  let ds := diffs (zip (map nSequence (vin tx)) (map nSequence (vin old))) in
  lowest (map snd ds) < lowest (map fst ds).
Proof.
  unfold IsNewerThan. cbv zeta. rewrite prevouts_differ.
  case_decide as E.
  - rewrite (newer_loop_spec _ UINT_MAX UINT_MAX) by done.
    rewrite !Z.min_r by apply lowest_max. rewrite Z.ltb_lt. tauto.
  - split; [done | by intros [? _]].
Qed.

(** [IsFinal]: a transaction is final at a block exactly when it has no lock
    time, or its lock, a height below LOCKTIME_THRESHOLD and a time otherwise,
    is before the block's, or every input opted out with the maximal sequence
    number; later blocks keep it final. *)
Theorem IsFinal_monotone best now (tx : CTransaction) h t h' t' :
  0 < h <= h' -> 0 < t <= t' ->
  (IsFinal best now tx h t = true <->
   nLockTime tx = 0 \/
   (nLockTime tx < LOCKTIME_THRESHOLD /\ nLockTime tx < h) \/
   (LOCKTIME_THRESHOLD <= nLockTime tx /\ nLockTime tx < t) \/
   Forall (fun i => nSequence i = UINT_MAX) (vin tx)) /\
  (IsFinal best now tx h t = true -> IsFinal best now tx h' t' = true).
Proof.
  intros Hh Ht.
  assert (forall h t, 0 < h -> 0 < t -> IsFinal best now tx h t = true <->
   nLockTime tx = 0 \/ (nLockTime tx < LOCKTIME_THRESHOLD /\ nLockTime tx < h) \/
   (LOCKTIME_THRESHOLD <= nLockTime tx /\ nLockTime tx < t) \/
   Forall (fun i => nSequence i = UINT_MAX) (vin tx)) as HI.
  { intros a b Ha Hb. unfold IsFinal. destruct (Z.eqb_spec a 0), (Z.eqb_spec b 0); try lia.
    rewrite <- all_final. destruct (forallb CTxIn_IsFinal (vin tx)); repeat dmatch; bprop; split; intros; try done; intuition lia. }
  split; [apply HI; lia|]. rewrite !HI by lia. intuition lia.
Qed.

Lemma IsFinal_monotone_witness :
  IsFinal 0 0 (mkTx 1 0 [mkTxIn COutPoint_null [] 5] [] 100) 101 7 = true /\
  IsFinal 0 0 (mkTx 1 0 [mkTxIn COutPoint_null [] 5] [] 100) 100 7 = false.
Proof.
  split; [|reflexivity].
  destruct (IsFinal_monotone 0 0 (mkTx 1 0 [mkTxIn COutPoint_null [] 5] [] 100) 101 7 200 9) as [H _]; [lia|lia|].
  apply H. right; left. cbn. unfold LOCKTIME_THRESHOLD. lia.
Defined.
