(* ===== verification/Merkle.v ===== *)
(** * Merkle trees (src/src/main.h, src/src/main.cpp)

    [CBlock::BuildMerkleTree], [GetMerkleBranch] and [CheckMerkleBranch] work on
    one flat vector that holds the levels of the tree one after the other;
    [CPartialMerkleTree] encodes a subset of the leaves by a depth-first
    traversal.  The reference is the list of levels, each obtained from the one
    below by hashing neighbours. *)

From S2P Require Import Prelude Uint256 Serialize Tx.

(** ** The code *)

Section Code.
Context `{Digests}.

Definition node (l r : uint256) : uint256 := Hash2 (uint_bytes l) (uint_bytes r).

(** [vMerkleTree[i]] *)
Definition at_ (tree : list uint256) (i : nat) : uint256 := nth i tree (uint_zero 8).

(** [for (int i = 0; i < nSize; i += 2)] *)
Fixpoint build_inner (fuel : nat) (tree : list uint256) (j nSize i : nat) : list uint256 :=
  match fuel with
  | O => tree
  | S fuel =>
      if (i <? nSize)%nat then
        let i2 := Nat.min (i + 1) (nSize - 1) in
        build_inner fuel (tree ++ [node (at_ tree (j + i)) (at_ tree (j + i2))]) j nSize (i + 2)
      else tree
  end.

(** [for (int nSize = vtx.size(); nSize > 1; nSize = (nSize + 1) / 2)] *)
Fixpoint build_outer (fuel : nat) (tree : list uint256) (j nSize : nat) : list uint256 :=
  match fuel with
  | O => tree
  | S fuel =>
      if (1 <? nSize)%nat then
        build_outer fuel (build_inner nSize tree j nSize 0) (j + nSize) ((nSize + 1) / 2)
      else tree
  end.

(** The vector the method leaves in [vMerkleTree], from the transaction ids. *)
Definition merkle_vector (txids : list uint256) : list uint256 :=
  build_outer (length txids) txids 0 (length txids).

Definition BuildMerkleTree (b : CBlock) : uint256 :=
  match last (merkle_vector (map CTransaction_GetHash (vtx b))) with
  | Some h => h
  | None => uint_zero 8
  end.

Fixpoint branch_loop (fuel : nat) (tree : list uint256) (j nSize : nat) (nIndex : Z) : list uint256 :=
  match fuel with
  | O => []
  | S fuel =>
      if (1 <? nSize)%nat then
        let i := Z.to_nat (Z.min (Z.lxor nIndex 1) (Z.of_nat nSize - 1)) in
        at_ tree (j + i) :: branch_loop fuel tree (j + nSize) ((nSize + 1) / 2) (Z.shiftr nIndex 1)
      else []
  end.

Definition GetMerkleBranch (txids : list uint256) (nIndex : Z) : list uint256 :=
  branch_loop (length txids) (merkle_vector txids) 0 (length txids) nIndex.

Fixpoint check_branch_loop (hash : uint256) (vMerkleBranch : list uint256) (nIndex : Z) : uint256 :=
  match vMerkleBranch with
  | [] => hash
  | otherside :: branch =>
      let hash := if negb (Z.land nIndex 1 =? 0) then node otherside hash else node hash otherside in
      check_branch_loop hash branch (Z.shiftr nIndex 1)
  end.

Definition CheckMerkleBranch (hash : uint256) (vMerkleBranch : list uint256) (nIndex : Z) : uint256 :=
  if nIndex =? -1 then uint_zero 8 else check_branch_loop hash vMerkleBranch nIndex.

(** *** [CPartialMerkleTree] *)

Record CPartialMerkleTree := mkPMT { nTransactions : Z; vBits : list bool; vHash : list uint256 }.

Definition CalcTreeWidth (nTransactions : Z) (height : nat) : nat :=
  Z.to_nat (Z.shiftr (u32 (nTransactions + Z.shiftl 1 (Z.of_nat height) - 1)) (Z.of_nat height)).

Fixpoint CalcHash (nTransactions : Z) (height pos : nat) (vTxid : list uint256) : uint256 :=
  match height with
  | O => at_ vTxid pos
  | S height =>
      let left := CalcHash nTransactions height (pos * 2) vTxid in
      let right :=
        if (pos * 2 + 1 <? CalcTreeWidth nTransactions height)%nat
        then CalcHash nTransactions height (pos * 2 + 1) vTxid else left in
      node left right
  end.

(** The loop over the leaves below a node: positions [pos << height] up to
    [(pos+1) << height], cut at [nTransactions]. *)
Definition ParentOfMatch (nTransactions : Z) (height pos : nat) (vMatch : list bool) : bool :=
  let lo := (pos * 2 ^ height)%nat in
  let hi := Nat.min ((pos + 1) * 2 ^ height)%nat (Z.to_nat nTransactions) in
  existsb (fun b => b) (take (hi - lo) (drop lo vMatch)).

(** [TraverseAndBuild]: the bits and hashes it appends. *)
Fixpoint TraverseAndBuild (nTransactions : Z) (height pos : nat)
    (vTxid : list uint256) (vMatch : list bool) : list bool * list uint256 :=
  let fParentOfMatch := ParentOfMatch nTransactions height pos vMatch in
  let stop := ([fParentOfMatch], [CalcHash nTransactions height pos vTxid]) in
  match height with
  | O => stop
  | S height =>
      if negb fParentOfMatch then stop
      else
        let '(b1, h1) := TraverseAndBuild nTransactions height (pos * 2) vTxid vMatch in
        let '(b2, h2) :=
          if (pos * 2 + 1 <? CalcTreeWidth nTransactions height)%nat
          then TraverseAndBuild nTransactions height (pos * 2 + 1) vTxid vMatch else ([], []) in
        (fParentOfMatch :: b1 ++ b2, h1 ++ h2)
  end.

(** [while (CalcTreeWidth(nHeight) > 1) nHeight++;] *)
Fixpoint height_loop (fuel : nat) (nTransactions : Z) (nHeight : nat) : nat :=
  match fuel with
  | O => nHeight
  | S fuel => if (1 <? CalcTreeWidth nTransactions nHeight)%nat then height_loop fuel nTransactions (S nHeight) else nHeight
  end.

Definition PMT_make (vTxid : list uint256) (vMatch : list bool) : CPartialMerkleTree :=
  let n := u32 (Z.of_nat (length vTxid)) in
  let '(bits, hashes) := TraverseAndBuild n (height_loop 32 n 0) 0 vTxid vMatch in
  mkPMT n bits hashes.

(** The traversal state: bits and hashes used, the matches and [fBad]. *)
Record extract_state := mkExtract { nBitsUsed : nat; nHashUsed : nat; matches : list uint256; fBad : bool }.

Definition set_bad (s : extract_state) : extract_state := mkExtract (nBitsUsed s) (nHashUsed s) (matches s) true.

(** The part of [TraverseAndExtract] that does not recurse: use a stored hash. *)
Definition extract_leaf (p : CPartialMerkleTree) (leaf fParentOfMatch : bool) (s : extract_state) : uint256 * extract_state :=
  match vHash p !! nHashUsed s with
  | None => (uint_zero 8, set_bad s)
  | Some hash =>
      (hash, mkExtract (nBitsUsed s) (S (nHashUsed s))
               (if (leaf && fParentOfMatch)%bool then matches s ++ [hash] else matches s) (fBad s))
  end.

Fixpoint TraverseAndExtract (p : CPartialMerkleTree) (height pos : nat) (s : extract_state) : uint256 * extract_state :=
  match vBits p !! nBitsUsed s with
  | None => (uint_zero 8, set_bad s)
  | Some fParentOfMatch =>
      let s := mkExtract (S (nBitsUsed s)) (nHashUsed s) (matches s) (fBad s) in
      match height with
      | O => extract_leaf p true fParentOfMatch s
      | S height =>
          if negb fParentOfMatch then extract_leaf p false fParentOfMatch s
          else
            let '(lhash, s) := TraverseAndExtract p height (pos * 2) s in
            let '(rhash, s) :=
              if (pos * 2 + 1 <? CalcTreeWidth (nTransactions p) height)%nat
              then TraverseAndExtract p height (pos * 2 + 1) s else (lhash, s) in
            (node lhash rhash, s)
      end
  end.

(** [ExtractMatches]: the root, or zero on failure, and the matches. *)
Definition ExtractMatches (p : CPartialMerkleTree) : uint256 * list uint256 :=
  if nTransactions p =? 0 then (uint_zero 8, [])
  else if MAX_BLOCK_SIZE / 60 <? nTransactions p then (uint_zero 8, [])
  else if nTransactions p <? Z.of_nat (length (vHash p)) then (uint_zero 8, [])
  else if (length (vBits p) <? length (vHash p))%nat then (uint_zero 8, [])
  else
    let nHeight := height_loop 32 (nTransactions p) 0 in
    let '(root, s) := TraverseAndExtract p nHeight 0 (mkExtract 0 0 [] false) in
    if fBad s then (uint_zero 8, matches s)
    else if negb ((nBitsUsed s + 7) / 8 =? (length (vBits p) + 7) / 8)%nat then (uint_zero 8, matches s)
    else if negb (nHashUsed s =? length (vHash p))%nat then (uint_zero 8, matches s)
    else (root, matches s).

(** *** Its serialization: bits packed eight to a byte, the first lowest *)

(** [vBytes[p / 8] |= vBits[p] << (p % 8)] *)
Definition pack_step (bits : list bool) (vBytes : list Z) (p : nat) : list Z :=
  alter (fun b => Z.lor b (Z.shiftl (if nth p bits false then 1 else 0) (Z.of_nat (p mod 8)))) (p / 8)%nat vBytes.

Definition vBytes_of (bits : list bool) : list Z :=
  fold_left (pack_step bits) (seq 0 (length bits)) (replicate ((length bits + 7) / 8) 0).

Definition unpack_bits (vBytes : list Z) : list bool :=
  map (fun p => negb (Z.land (nth (p / 8) vBytes 0) (Z.shiftl 1 (Z.of_nat (p mod 8))) =? 0))
    (seq 0 (length vBytes * 8)).

Definition PMT_enc (p : CPartialMerkleTree) : list Z :=
  enc (uint_codec 4) (nTransactions p) ++ enc (vector_codec uint256_codec) (vHash p)
    ++ enc bytevec_codec (vBytes_of (vBits p)).

Definition PMT_dec (bs : list Z) : option (CPartialMerkleTree * list Z) :=
  match dec (pair_codec (uint_codec 4) (pair_codec (vector_codec uint256_codec) bytevec_codec)) bs with
  | Some ((n, (hs, vBytes)), rest) => Some (mkPMT n (unpack_bits vBytes) hs, rest)
  | None => None
  end.
End Code.

(** ** The reference: levels of the tree *)

Section Levels.
Context `{HD : Digests}.

(** The level above: neighbours hashed, the last one with itself. *)
Fixpoint up (l : list uint256) : list uint256 :=
  match l with
  | [] => []
  | [a] => [node a a]
  | a :: b :: l => node a b :: up l
  end.

Fixpoint levels (fuel : nat) (l : list uint256) : list uint256 :=
  match fuel with
  | O => l
  | S fuel => if (1 <? length l)%nat then l ++ levels fuel (up l) else l
  end.

Fixpoint root (fuel : nat) (l : list uint256) : uint256 :=
  match fuel with
  | O => at_ l 0
  | S fuel => if (1 <? length l)%nat then root fuel (up l) else at_ l 0
  end.

(** The Merkle root of a list of leaves; zero for the empty list. *)
Definition merkle_root (txids : list uint256) : uint256 := root (length txids) txids.

(** Induction two elements at a time. *)
Lemma pair_ind (P : list uint256 -> Prop) :
  P [] -> (forall a, P [a]) -> (forall a b l, P l -> P (a :: b :: l)) -> forall l, P l.
Proof.
  intros H0 H1 H2 l. enough (P l /\ forall a, P (a :: l)) by tauto.
  induction l as [|b l [IH1 IH2]]; [auto|]. split; [apply IH2|]. intros a. by apply H2.
Qed.

Lemma length_up l : length (up l) = ((length l + 1) / 2)%nat.
Proof.
  induction l as [| |a b l IH] using pair_ind; [done..|]. cbn [up length]. rewrite IH.
  replace (S (S (length l)) + 1)%nat with (length l + 1 + 1 * 2)%nat by lia.
  rewrite Nat.div_add by lia. lia.
Qed.

Lemma length_up_lt l : (1 < length l)%nat -> (length (up l) < length l)%nat.
Proof.
  intros. rewrite length_up. apply Nat.Div0.div_lt_upper_bound; lia.
Qed.

Lemma length_up_pos l : l <> [] -> (1 <= length (up l))%nat.
Proof. destruct l as [|a [|b l]]; [done|cbn; lia..]. Qed.

Lemma at_app_r l k i : at_ (l ++ k) (length l + i) = at_ k i.
Proof. unfold at_. by rewrite app_nth2_plus. Qed.

Lemma at_app_l l k i : (i < length l)%nat -> at_ (l ++ k) i = at_ l i.
Proof. intros. unfold at_. by rewrite app_nth1. Qed.

(** Reading at an offset into a level inside the vector. *)
Lemma at_level pre l1 a l2 : at_ (pre ++ l1 ++ a :: l2) (length pre + length l1) = a.
Proof. rewrite at_app_r, <- (Nat.add_0_r (length l1)), at_app_r. done. Qed.

Lemma at_level1 pre l1 a b l2 : at_ (pre ++ l1 ++ a :: b :: l2) (length pre + (length l1 + 1)) = b.
Proof. rewrite !at_app_r. done. Qed.

(** An element of the level above. *)
Lemma at_up l i : (i < length (up l))%nat ->
  at_ (up l) i = node (at_ l (2 * i)) (at_ l (if (2 * i + 1 <? length l)%nat then 2 * i + 1 else 2 * i)).
Proof.
  revert i. induction l as [| |a b l IH] using pair_ind; intros i Hi.
  - cbn in Hi. lia.
  - cbn in Hi. replace i with 0%nat by lia. done.
  - destruct i as [|i]; [done|]. cbn [up length] in Hi |- *.
    change (at_ (node a b :: up l) (S i)) with (at_ (up l) i). rewrite IH by lia.
    replace (2 * S i)%nat with (S (S (2 * i))) by lia.
    change (at_ (a :: b :: l) (S (S ?k))) with (at_ l k). f_equal.
    replace (S (S (2 * i)) + 1)%nat with (S (S (2 * i + 1))) by lia.
    change (S (S (2 * i + 1)) <? S (S (length l)))%nat with (2 * i + 1 <? length l)%nat.
    by destruct (2 * i + 1 <? length l)%nat.
Qed.

(** The inner loop appends the level above. *)
Lemma build_inner_spec fuel pre l1 l2 acc : (length l2 <= fuel)%nat ->
  build_inner fuel (pre ++ l1 ++ l2 ++ acc) (length pre) (length l1 + length l2) (length l1)
  = pre ++ l1 ++ l2 ++ acc ++ up l2.
Proof.
  revert l1 acc fuel. induction l2 as [|a|a b l2 IH] using pair_ind; intros l1 acc fuel Hf.
  - cbn [length up app]. rewrite Nat.add_0_r, app_nil_r. destruct fuel; [done|]. cbn [build_inner].
    by rewrite Nat.ltb_irrefl.
  - destruct fuel as [|fuel]; [cbn in Hf; lia|]. cbn [build_inner length up].
    rewrite (proj2 (Nat.ltb_lt _ _)) by lia. rewrite Nat.min_r by lia.
    replace (length l1 + 1 - 1)%nat with (length l1 + 0)%nat by lia. rewrite !Nat.add_0_r.
    cbn [app]. rewrite at_level.
    destruct fuel; cbn [build_inner]; [|rewrite (proj2 (Nat.ltb_ge _ _)) by lia]; by rewrite <- !app_assoc.
  - destruct fuel as [|fuel]; [cbn in Hf; lia|]. cbn [build_inner length up] in *.
    rewrite (proj2 (Nat.ltb_lt _ _)) by lia. rewrite Nat.min_l by lia.
    cbn [app]. rewrite at_level, at_level1.
    specialize (IH (l1 ++ [a; b]) (acc ++ [node a b]) fuel ltac:(lia)).
    rewrite !length_app in IH. cbn [length] in IH. rewrite <- !app_assoc in *. cbn [app] in *. rewrite <- ?app_assoc.
    replace (length l1 + S (S (length l2)))%nat with (length l1 + 2 + length l2)%nat by lia. exact IH.
Qed.

Lemma build_outer_spec fuel pre l : (length l <= fuel)%nat ->
  build_outer fuel (pre ++ l) (length pre) (length l) = pre ++ levels fuel l.
Proof.
  revert pre l. induction fuel as [|fuel IH]; intros pre l Hf; [done|]. cbn [build_outer levels].
  destruct (Nat.ltb_spec 1 (length l)); [|done].
  pose proof (build_inner_spec (length l) pre [] l [] ltac:(lia)) as E.
  rewrite !app_nil_r in E. cbn [app length Nat.add] in E. rewrite E, <- length_up, app_assoc.
  rewrite <- length_app, IH; [by rewrite <- app_assoc|]. pose proof (length_up_lt l). lia.
Qed.

Lemma merkle_vector_levels l : merkle_vector l = levels (length l) l.
Proof. apply (build_outer_spec (length l) [] l). lia. Qed.

Lemma levels_last fuel l : (length l <= fuel)%nat -> l <> [] -> last (levels fuel l) = Some (root fuel l).
Proof.
  revert l. induction fuel as [|fuel IH]; intros l Hf Hl; cbn [levels root].
  - destruct l; [done|]. cbn in Hf. lia.
  - destruct (Nat.ltb_spec 1 (length l)).
    + pose proof (length_up_lt l). pose proof (length_up_pos l Hl).
      rewrite last_app, IH; [done|lia|]. intros E. rewrite E in *. cbn in *. lia.
    + destruct l as [|a [|b l]]; [done|done|]. cbn in *. lia.
Qed.

(** *** Branches *)

Lemma lxor_1 (i : nat) : Z.lxor (Z.of_nat i) 1 = Z.of_nat (if Nat.even i then i + 1 else i - 1).
Proof.
  destruct (Nat.Even_or_Odd i) as [[k ->]|[k ->]].
  - rewrite Nat.even_even. rewrite <- Z.add_nocarry_lxor; [lia|].
    apply Z.bits_inj'. intros j Hj. rewrite Z.land_spec, Z.bits_0. destruct (decide (j = 0)) as [->|].
    + rewrite Nat2Z.inj_mul. change (Z.of_nat 2) with 2. by rewrite Z.testbit_even_0.
    + rewrite (Z.bits_above_log2 1 j) by (simpl; lia). apply andb_false_r.
  - rewrite Nat.even_odd. replace (2 * k + 1 - 1)%nat with (2 * k)%nat by lia.
    apply Z.bits_inj'. intros j Hj. rewrite Z.lxor_spec, !Nat2Z.inj_add, !Nat2Z.inj_mul.
    change (Z.of_nat 2) with 2. change (Z.of_nat 1) with 1. destruct (decide (j = 0)) as [->|].
    + by rewrite Z.testbit_odd_0, Z.testbit_even_0.
    + replace j with (Z.succ (j - 1)) by lia. rewrite Z.testbit_odd_succ, Z.testbit_even_succ by lia.
      rewrite (Z.bits_above_log2 1) by (simpl; lia). apply xorb_false_r.
Qed.

Lemma land_1 (i : nat) : (Z.land (Z.of_nat i) 1 =? 0) = Nat.even i.
Proof.
  change 1 with (2 ^ 1 - 1). rewrite land_ones_mod by lia. change (2 ^ 1) with 2.
  destruct (Nat.Even_or_Odd i) as [[k ->]|[k ->]].
  - rewrite Nat.even_even. apply Z.eqb_eq. rewrite Nat2Z.inj_mul, Z.mul_comm. apply Z.mod_mul. lia.
  - rewrite Nat.even_odd. apply Z.eqb_neq. rewrite Nat2Z.inj_add, Nat2Z.inj_mul, Z.add_comm, Z.mul_comm.
    change (Z.of_nat 2) with 2. by rewrite Z_mod_plus_full.
Qed.

Lemma shiftr_1 (i : nat) : Z.shiftr (Z.of_nat i) 1 = Z.of_nat (i / 2).
Proof. rewrite Z.shiftr_div_pow2, Nat2Z.inj_div by lia. done. Qed.

(** The sibling the branch records, and the hash one level up. *)
Lemma branch_step l (i : nat) : (i < length l)%nat -> (1 < length l)%nat ->
  let sib := Z.to_nat (Z.min (Z.lxor (Z.of_nat i) 1) (Z.of_nat (length l) - 1)) in
  (sib < length l)%nat /\
  (if negb (Z.land (Z.of_nat i) 1 =? 0) then node (at_ l sib) (at_ l i) else node (at_ l i) (at_ l sib))
  = at_ (up l) (i / 2).
Proof.
  intros Hi Hl sib. assert (Hsib : sib = Nat.min (if Nat.even i then i + 1 else i - 1) (length l - 1)).
  { subst sib. rewrite lxor_1. lia. }
  split; [destruct (Nat.even i); lia|]. rewrite land_1. clearbody sib. subst sib.
  assert (i / 2 < length (up l))%nat.
  { rewrite length_up. apply Nat.div_le_lower_bound; [lia|]. pose proof (Nat.div_mod_eq i 2).
    pose proof (Nat.mod_upper_bound i 2). lia. }
  rewrite at_up by done. destruct (Nat.Even_or_Odd i) as [[k ->]|[k ->]].
  - rewrite Nat.even_even. cbn [negb]. replace (2 * k / 2)%nat with k in * by (rewrite Nat.mul_comm, Nat.div_mul; lia).
    f_equal. f_equal. destruct (Nat.ltb_spec (2 * k + 1) (length l)); lia.
  - rewrite Nat.even_odd. cbn [negb].
    replace ((2 * k + 1) / 2)%nat with k in * by (apply Nat.div_unique with 1%nat; lia).
    rewrite (proj2 (Nat.ltb_lt _ _)) by lia. f_equal. f_equal. lia.
Qed.

Lemma branch_spec fuel pre l (i : nat) : (length l <= fuel)%nat -> (i < length l)%nat ->
  check_branch_loop (at_ l i)
    (branch_loop fuel (pre ++ levels fuel l) (length pre) (length l) (Z.of_nat i)) (Z.of_nat i)
  = root fuel l.
Proof.
  revert pre l i. induction fuel as [|fuel IH]; intros pre l i Hf Hi; [lia|].
  cbn [branch_loop levels root]. destruct (Nat.ltb_spec 1 (length l)) as [Hl|Hl].
  - destruct (branch_step l i Hi Hl) as [Hs Hn]. set (sib := Z.to_nat _) in *.
    cbn [check_branch_loop]. rewrite at_app_r, at_app_l by done. rewrite Hn, !shiftr_1.
    rewrite app_assoc, <- length_app, <- length_up. pose proof (length_up_lt l Hl).
    apply IH; [lia|]. rewrite length_up. apply Nat.div_le_lower_bound; [lia|].
    pose proof (Nat.div_mod_eq i 2). pose proof (Nat.mod_upper_bound i 2). lia.
  - cbn [check_branch_loop]. f_equal. lia.
Qed.
End Levels.

(** ** Partial trees *)

Section Partial.
Context `{HD : Digests}.
Context (vTxid : list uint256).
Context (Hn : 1 <= Z.of_nat (length vTxid) <= 2 ^ 31).

Let n : Z := Z.of_nat (length vTxid).

(** The level at a height. *)
Definition level (h : nat) : list uint256 := Nat.iter h up vTxid.

Lemma width_Z h : (h <= 31)%nat ->
  Z.of_nat (CalcTreeWidth n h) = (n + 2 ^ Z.of_nat h - 1) / 2 ^ Z.of_nat h.
Proof.
  intros Hh. unfold CalcTreeWidth. rewrite Z.shiftl_1_l, Z.shiftr_div_pow2 by lia.
  assert (0 < 2 ^ Z.of_nat h <= 2 ^ 31) by (split; [apply Z.pow_pos_nonneg; lia | apply Z.pow_le_mono_r; lia]).
  subst n. rewrite u32_small by lia. rewrite Z2Nat.id; [done|]. apply Z.div_pos; lia.
Qed.

Lemma width_succ h : (S h <= 31)%nat -> CalcTreeWidth n (S h) = ((CalcTreeWidth n h + 1) / 2)%nat.
Proof.
  intros Hh. apply Nat2Z.inj. rewrite width_Z, Nat2Z.inj_div, Nat2Z.inj_add, width_Z by lia.
  rewrite Nat2Z.inj_succ, Z.pow_succ_r by lia. set (P := 2 ^ Z.of_nat h).
  assert (0 < P) by (apply Z.pow_pos_nonneg; lia). change (Z.of_nat 1) with 1. change (Z.of_nat 2) with 2.
  rewrite <- (Z.div_add (n + P - 1) 1 P) by lia. rewrite Z.div_div by lia.
  f_equal; lia.
Qed.

Lemma width_level h : (h <= 31)%nat -> CalcTreeWidth n h = length (level h).
Proof.
  induction h as [|h IH]; intros Hh.
  - apply Nat2Z.inj. rewrite width_Z by lia. cbn. rewrite Z.div_1_r. subst n. lia.
  - rewrite width_succ, IH by lia. cbn. by rewrite length_up.
Qed.

Lemma level_top : length (level 31) = 1%nat.
Proof.
  rewrite <- width_level by lia. apply Nat2Z.inj. rewrite width_Z by lia.
  change (Z.of_nat 31) with 31. change (Z.of_nat 1) with 1. symmetry.
  apply Z.div_unique with (n - 1); subst n; lia.
Qed.

Lemma level_pos h : (1 <= length (level h))%nat.
Proof.
  induction h as [|h IH]; [cbn; lia|]. cbn. apply length_up_pos. intros E.
  change (level h = []) in E. rewrite E in IH. cbn in IH. lia.
Qed.

(** Both children of a node are in the level below, or only the left one. *)
Lemma children h pos : (pos < length (level (S h)))%nat ->
  (pos * 2 < length (level h))%nat /\
  at_ (level (S h)) pos =
    node (at_ (level h) (pos * 2))
      (if (pos * 2 + 1 <? length (level h))%nat then at_ (level h) (pos * 2 + 1) else at_ (level h) (pos * 2)).
Proof.
  intros Hp. change (level (S h)) with (up (level h)) in *. rewrite at_up by done.
  rewrite length_up in Hp. assert (2 * ((length (level h) + 1) / 2) <= length (level h) + 1)%nat.
  { apply Nat.Div0.mul_div_le. }
  split; [lia|]. rewrite (Nat.mul_comm 2 pos). by destruct (_ <? _)%nat.
Qed.

Lemma CalcHash_level h pos : (h <= 31)%nat -> (pos < length (level h))%nat ->
  CalcHash n h pos vTxid = at_ (level h) pos.
Proof.
  revert pos. induction h as [|h IH]; intros pos Hh Hp; [done|].
  destruct (children h pos Hp) as [Hp2 ->]. cbn [CalcHash]. rewrite width_level, IH by lia.
  destruct (Nat.ltb_spec (pos * 2 + 1) (length (level h))); [|done]. by rewrite IH by lia.
Qed.

Lemma height_loop_spec fuel h : (h + fuel <= 31)%nat -> length (level (h + fuel)) = 1%nat ->
  (forall k, (k < h)%nat -> (1 < length (level k))%nat) ->
  let H := height_loop (S fuel) n h in
  (H <= 31)%nat /\ length (level H) = 1%nat /\ forall k, (k < H)%nat -> (1 < length (level k))%nat.
Proof.
  revert h. induction fuel as [|fuel IH]; intros h Hf Ht Hk.
  - rewrite Nat.add_0_r in Ht. cbn [height_loop]. rewrite width_level, Ht by lia. cbn. auto with lia.
  - cbn [height_loop]. rewrite width_level by lia. destruct (Nat.ltb_spec 1 (length (level h))) as [H1|H1].
    + apply (IH (S h)); [lia|by rewrite Nat.add_succ_comm in *|].
      intros k Hk'. destruct (decide (k = h)) as [->|]; [done|]. apply Hk. lia.
    + pose proof (level_pos h). cbn. split; [lia|]. split; [lia|done].
Qed.

Definition tree_height : nat := height_loop 32 n 0.

Lemma tree_height_spec : (tree_height <= 31)%nat /\ length (level tree_height) = 1%nat /\
  forall k, (k < tree_height)%nat -> (1 < length (level k))%nat.
Proof.
  apply (height_loop_spec 31 0); [lia|apply level_top|]. intros k Hk. lia.
Qed.
End Partial.

Lemma root_iter `{Digests} fuel h l : (length l <= fuel)%nat ->
  (length (Nat.iter h up l) <= 1)%nat -> (forall k, (k < h)%nat -> (1 < length (Nat.iter k up l))%nat) ->
  root fuel l = at_ (Nat.iter h up l) 0.
Proof.
  revert fuel l. induction h as [|h IH]; intros fuel l Hf Ht Hk.
  - cbn in *. destruct fuel; [done|]. cbn [root]. by rewrite (proj2 (Nat.ltb_ge _ _)) by lia.
  - pose proof (Hk 0%nat ltac:(lia)) as Hl. cbn in Hl. destruct fuel as [|fuel]; [lia|].
    cbn [root]. rewrite (proj2 (Nat.ltb_lt _ _)) by lia. pose proof (length_up_lt l Hl).
    rewrite Nat.iter_succ_r in *. apply IH; [lia|done|].
    intros k Hk'. specialize (Hk (S k) ltac:(lia)). by rewrite Nat.iter_succ_r in Hk.
Qed.

Lemma merkle_root_level `{Digests} vTxid : 1 <= Z.of_nat (length vTxid) <= 2 ^ 31 ->
  merkle_root vTxid = at_ (level vTxid (tree_height vTxid)) 0.
Proof.
  intros Hn. destruct (tree_height_spec vTxid Hn) as (_ & H1 & H2).
  apply root_iter; [lia| |done]. change (length (level vTxid (tree_height vTxid)) <= 1)%nat. lia.
Qed.

(** In range, [nth] is the lookup. *)
Lemma nth_lookup_some {A} (l : list A) i d : (i < length l)%nat -> l !! i = Some (nth i l d).
Proof.
  intros Hi. destruct (lookup_lt_is_Some_2 l i Hi) as [x Hx]. by rewrite (nth_lookup_Some l i d x Hx).
Qed.

Section Extract.
Context `{HD : Digests}.
Context (vTxid : list uint256) (vMatch : list bool).
Context (Hn : 1 <= Z.of_nat (length vTxid) <= 2 ^ 31) (Hm : length vMatch = length vTxid).

Let n : Z := Z.of_nat (length vTxid).

(** The leaves below a node, with their flags. *)
Definition below (h pos : nat) : list (uint256 * bool) := take (2 ^ h) (drop (pos * 2 ^ h) (zip vTxid vMatch)).

(** The ids selected by the flags. *)
Definition selected (l : list (uint256 * bool)) : list uint256 := map fst (filter (fun p => snd p = true) l).

Lemma length_zip_txid : length (zip vTxid vMatch) = length vTxid.
Proof. rewrite length_zip_with. lia. Qed.

Lemma below_split h pos : below (S h) pos = below h (pos * 2) ++ below h (pos * 2 + 1).
Proof.
  unfold below. rewrite Nat.pow_succ_r'. replace (2 * 2 ^ h)%nat with (2 ^ h + 2 ^ h)%nat by lia.
  rewrite <- take_take_drop. f_equal; [f_equal; f_equal; lia|]. rewrite drop_drop. do 2 f_equal. lia.
Qed.

(** A position of a level is one with leaves below it. *)
Lemma level_below h pos : (h <= 31)%nat ->
  (pos < length (level vTxid h))%nat <-> (pos * 2 ^ h < length vTxid)%nat.
Proof.
  intros Hh. rewrite <- width_level by done. rewrite (Nat2Z.inj_lt pos), width_Z by done.
  assert (HP : 2 ^ Z.of_nat h = Z.of_nat (2 ^ h)) by (by rewrite Nat2Z.inj_pow). rewrite HP.
  pose proof (Nat.pow_nonzero 2 h). set (P := (2 ^ h)%nat) in *.
  rewrite (Nat2Z.inj_lt (pos * P)), Nat2Z.inj_mul. fold n. split; intros Hlt.
  - assert (Z.of_nat pos + 1 <= (n + Z.of_nat P - 1) / Z.of_nat P) as H1 by lia.
    apply (Z.mul_le_mono_nonneg_l _ _ (Z.of_nat P)) in H1; [|lia].
    pose proof (Z.mul_div_le (n + Z.of_nat P - 1) (Z.of_nat P)). lia.
  - assert (Z.of_nat pos + 1 <= (n + Z.of_nat P - 1) / Z.of_nat P); [|lia].
    apply Z.div_le_lower_bound; lia.
Qed.

Lemma below_nil h pos : (length vTxid <= pos * 2 ^ h)%nat -> below h pos = [].
Proof. intros Hp. unfold below. rewrite drop_ge by (rewrite length_zip_txid; lia). apply take_nil. Qed.

Lemma length_below h pos : (pos * 2 ^ h < length vTxid)%nat -> (1 <= length (below h pos))%nat.
Proof.
  intros Hp. unfold below. rewrite length_take, length_drop, length_zip_txid.
  pose proof (Nat.pow_nonzero 2 h). lia.
Qed.

Lemma ParentOfMatch_below h pos : ParentOfMatch n h pos vMatch = existsb snd (below h pos).
Proof.
  unfold ParentOfMatch, below. subst n. rewrite Nat2Z.id.
  assert (Hs : map snd (zip vTxid vMatch) = vMatch) by (apply snd_zip; lia).
  transitivity (existsb (fun b => b) (map snd (take (2 ^ h) (drop (pos * 2 ^ h) (zip vTxid vMatch))))).
  - rewrite <- firstn_map, <- skipn_map, Hs. f_equal.
    destruct (Nat.le_gt_cases (length vTxid) (pos * 2 ^ h)).
    + rewrite drop_ge by lia. by rewrite !take_nil.
    + destruct (Nat.le_gt_cases ((pos + 1) * 2 ^ h) (length vTxid)).
      * f_equal. lia.
      * rewrite !take_ge by (rewrite length_drop; lia). done.
  - set (l := take _ _). clearbody l. induction l as [|x l IH]; [done|]. cbn. by rewrite IH.
Qed.

Lemma selected_none l : existsb snd l = false -> selected l = [].
Proof.
  unfold selected. induction l as [|[x b] l IH]; [done|]. cbn [existsb snd]. intros [-> Hl]%orb_false_iff.
  rewrite filter_cons, decide_False by done. auto.
Qed.

Lemma selected_app l k : selected (l ++ k) = selected l ++ selected k.
Proof. unfold selected. by rewrite filter_app, map_app. Qed.

(** At a leaf. *)
Lemma below_leaf pos : (pos < length vTxid)%nat ->
  selected (below 0 pos) = if ParentOfMatch n 0 pos vMatch then [at_ vTxid pos] else [].
Proof.
  intros Hp. rewrite ParentOfMatch_below. unfold below. rewrite Nat.pow_0_r, Nat.mul_1_r.
  assert (Hz : zip vTxid vMatch !! pos = Some (at_ vTxid pos, nth pos vMatch false)).
  { apply lookup_zip_Some.
    split; apply nth_lookup_some; lia. }
  rewrite (drop_S _ _ _ Hz). cbn [take existsb snd]. unfold selected. rewrite filter_cons.
  destruct (nth pos vMatch false); reflexivity.
Qed.

(** Reading the next bit and the next hash of an encoding. *)
Lemma extract_leaf_next p leaf b preh h posth nb m bad : vHash p = preh ++ h :: posth ->
  extract_leaf p leaf b (mkExtract nb (length preh) m bad) =
  (h, mkExtract nb (S (length preh)) (if (leaf && b)%bool then m ++ [h] else m) bad).
Proof.
  intros Hh. unfold extract_leaf. cbn [nHashUsed nBitsUsed matches fBad]. rewrite Hh.
  rewrite lookup_app_r, Nat.sub_diag by lia. done.
Qed.

(** What the traversal of a node must do with an encoding of it. *)
Definition decodes (p : CPartialMerkleTree) (h pos : nat) (bits : list bool) (hashes : list uint256) : Prop :=
  forall preb postb preh posth m bad,
    vBits p = preb ++ bits ++ postb -> vHash p = preh ++ hashes ++ posth ->
    TraverseAndExtract p h pos (mkExtract (length preb) (length preh) m bad) =
    (at_ (level vTxid h) pos,
     mkExtract (length preb + length bits) (length preh + length hashes) (m ++ selected (below h pos)) bad).

Lemma decodes_stop p h pos : (h <= 31)%nat -> (pos < length (level vTxid h))%nat ->
  h = 0%nat \/ ParentOfMatch n h pos vMatch = false ->
  decodes p h pos [ParentOfMatch n h pos vMatch] [at_ (level vTxid h) pos].
Proof.
  intros Hh Hp Hstop preb postb preh posth m bad Hb Hhs.
  assert (Hbit : vBits p !! length preb = Some (ParentOfMatch n h pos vMatch)).
  { rewrite Hb, lookup_app_r, Nat.sub_diag by lia. done. }
  assert (Hsel : selected (below h pos) =
    if ((h =? 0)%nat && ParentOfMatch n h pos vMatch)%bool then [at_ (level vTxid h) pos] else []).
  { destruct h as [|h]; [by apply below_leaf|]. destruct Hstop as [|Hstop]; [done|].
    rewrite selected_none; [done|]. by rewrite <- ParentOfMatch_below. }
  rewrite Hsel. cbn [length]. rewrite !Nat.add_1_r.
  destruct h as [|h]; cbn [TraverseAndExtract nBitsUsed nHashUsed matches fBad Nat.eqb]; rewrite Hbit.
  - rewrite (extract_leaf_next p true _ preh _ posth _ m bad Hhs). cbn [andb].
    destruct (ParentOfMatch n 0 pos vMatch); [done|]. by rewrite app_nil_r.
  - destruct Hstop as [|E0]; [done|]. rewrite E0. cbn [negb].
    rewrite (extract_leaf_next p false _ preh _ posth _ m bad Hhs). cbn [andb]. by rewrite app_nil_r.
Qed.

Lemma decodes_node p h pos b1 h1 b2 h2 : (S h <= 31)%nat -> nTransactions p = n ->
  (pos < length (level vTxid (S h)))%nat ->
  decodes p h (pos * 2) b1 h1 ->
  (if (pos * 2 + 1 <? length (level vTxid h))%nat then decodes p h (pos * 2 + 1) b2 h2 else b2 = [] /\ h2 = []) ->
  decodes p (S h) pos (true :: b1 ++ b2) (h1 ++ h2).
Proof.
  intros Hh Hpn Hp HL HR preb postb preh posth m bad Hb Hhs.
  assert (Hbit : vBits p !! length preb = Some true).
  { rewrite Hb, lookup_app_r, Nat.sub_diag by lia. done. }
  cbn [TraverseAndExtract nBitsUsed nHashUsed matches fBad]. rewrite Hbit. cbn [negb].
  destruct (children vTxid h pos Hp) as [Hp2 ->].
  specialize (HL (preb ++ [true]) (b2 ++ postb) preh (h2 ++ posth) m bad).
  rewrite length_app in HL. cbn [length] in HL. rewrite Nat.add_1_r in HL.
  rewrite HL by (rewrite ?Hb, ?Hhs, <- ?app_assoc; cbn [app]; by rewrite <- ?app_assoc).
  rewrite Hpn. unfold n. rewrite width_level by lia. rewrite below_split, selected_app.
  destruct (Nat.ltb_spec (pos * 2 + 1) (length (level vTxid h))) as [Hlt|Hge].
  - specialize (HR (preb ++ true :: b1) postb (preh ++ h1) posth (m ++ selected (below h (pos * 2))) bad).
    rewrite !length_app in HR. cbn [length] in HR.
    replace (S (length preb) + length b1)%nat with (length preb + S (length b1))%nat by lia.
    rewrite HR by (rewrite ?Hb, ?Hhs, <- ?app_assoc; cbn [app]; by rewrite <- ?app_assoc).
    f_equal. f_equal; cbn [length]; rewrite ?length_app; try lia. by rewrite app_assoc.
  - destruct HR as [-> ->]. rewrite (below_nil h (pos * 2 + 1)).
    + f_equal. f_equal; cbn [length]; rewrite ?length_app; cbn [length]; try lia.
      rewrite app_nil_r. done.
    + apply Nat.nlt_ge. intros Hc. apply level_below in Hc; lia.
Qed.

Lemma TraverseAndBuild_decodes p h pos : (h <= 31)%nat -> nTransactions p = n ->
  (pos < length (level vTxid h))%nat ->
  let '(bits, hashes) := TraverseAndBuild n h pos vTxid vMatch in
  decodes p h pos bits hashes /\ (length hashes <= length (below h pos))%nat /\
  (length hashes <= length bits)%nat.
Proof.
  intros Hh Hpn. revert pos. induction h as [|h IH]; intros pos Hp.
  - assert (pos * 2 ^ 0 < length vTxid)%nat by (apply level_below; done || lia).
    pose proof (length_below 0 pos ltac:(done)). cbn [TraverseAndBuild CalcHash].
    split; [apply (decodes_stop p 0); auto|cbn [length]; lia].
  - assert (pos * 2 ^ (S h) < length vTxid)%nat as Hb by (apply level_below; done || lia).
    pose proof (length_below (S h) pos Hb). cbn [TraverseAndBuild].
    replace (CalcHash n (S h) pos vTxid) with (at_ (level vTxid (S h)) pos) by (symmetry; by apply CalcHash_level).
    destruct (ParentOfMatch n (S h) pos vMatch) eqn:E; cbn [negb].
    + destruct (children vTxid h pos Hp) as [Hp2 _].
      pose proof (IH ltac:(lia) (pos * 2)%nat Hp2) as IHl.
      destruct (TraverseAndBuild n h (pos * 2) vTxid vMatch) as [b1 h1]. destruct IHl as (Dl & Hl1 & Hl2).
      unfold n. rewrite width_level by lia. fold n. rewrite below_split, length_app.
      destruct (Nat.ltb_spec (pos * 2 + 1) (length (level vTxid h))) as [Hlt|Hge].
      * pose proof (IH ltac:(lia) (pos * 2 + 1)%nat Hlt) as IHr.
        destruct (TraverseAndBuild n h (pos * 2 + 1) vTxid vMatch) as [b2 h2]. destruct IHr as (Dr & Hr1 & Hr2).
        rewrite !length_app. cbn [length]. rewrite length_app. split; [|lia].
        apply decodes_node; try done. by rewrite (proj2 (Nat.ltb_lt _ _)).
      * rewrite !app_nil_r. cbn [length]. split; [|lia].
        rewrite <- (app_nil_r b1), <- (app_nil_r h1). apply decodes_node; try done.
        by rewrite (proj2 (Nat.ltb_ge _ _)).
    + split; [|cbn [length]; lia]. rewrite <- E. apply decodes_stop; auto.
Qed.

(** Building, then extracting, also from a copy whose last byte of bits was padded. *)
Lemma extract_built pad : n <= MAX_BLOCK_SIZE / 60 ->
  let p := PMT_make vTxid vMatch in
  (((length (vBits p) + length pad) + 7) / 8 = (length (vBits p) + 7) / 8)%nat ->
  ExtractMatches (mkPMT (nTransactions p) (vBits p ++ pad) (vHash p)) =
  (merkle_root vTxid, selected (zip vTxid vMatch)).
Proof.
  intros Hmax. unfold PMT_make. fold n. rewrite u32_small by (subst n; lia).
  change (height_loop 32 n 0) with (tree_height vTxid). destruct (tree_height_spec vTxid Hn) as (H31 & H1 & _).
  destruct (TraverseAndBuild n (tree_height vTxid) 0 vTxid vMatch) as [bits hashes] eqn:EB.
  cbn [nTransactions vBits vHash]. intros Hpad. set (p := mkPMT n (bits ++ pad) hashes).
  pose proof (TraverseAndBuild_decodes p (tree_height vTxid) 0 H31 eq_refl ltac:(lia)) as HD'.
  rewrite EB in HD'. destruct HD' as (Hdec & Hl1 & Hl2).
  assert (Hb0 : below (tree_height vTxid) 0 = zip vTxid vMatch).
  { unfold below. cbn [Nat.mul]. rewrite drop_0. apply take_ge. rewrite length_zip_txid.
    pose proof (level_below (tree_height vTxid) 1 H31). pose proof (Nat.pow_nonzero 2 (tree_height vTxid)).
    apply Nat.nlt_ge. intros Hc. rewrite H1 in *. lia. }
  rewrite Hb0, length_zip_txid in Hl1. unfold ExtractMatches.
  change (nTransactions p) with n. change (vBits p) with (bits ++ pad). change (vHash p) with hashes.
  rewrite (proj2 (Z.eqb_neq n 0)) by (subst n; lia). rewrite (proj2 (Z.ltb_ge _ n)) by done.
  rewrite (proj2 (Z.ltb_ge n _)) by (subst n; lia). rewrite length_app, (proj2 (Nat.ltb_ge _ _)) by lia.
  change (height_loop 32 n 0) with (tree_height vTxid). specialize (Hdec [] pad [] [] [] false eq_refl ltac:(by rewrite app_nil_r)).
  cbn [length app] in Hdec. rewrite Hdec. cbn [fBad nBitsUsed nHashUsed matches length Nat.add].
  rewrite Hpad, Nat.eqb_refl, Nat.eqb_refl, Hb0, <- merkle_root_level by done. done.
Qed.
End Extract.

(** ** The packed flag bits *)

Lemma land_bit_test b j : 0 <= j -> negb (Z.land b (Z.shiftl 1 j) =? 0) = Z.testbit b j.
Proof.
  intros Hj. rewrite Z.shiftl_1_l. destruct (Z.testbit b j) eqn:E.
  - apply negb_true_iff, Z.eqb_neq. intros H0. apply (f_equal (fun z => Z.testbit z j)) in H0.
    by rewrite Z.land_spec, E, Z.pow2_bits_true, Z.bits_0 in H0.
  - apply negb_false_iff, Z.eqb_eq, Z.bits_inj'. intros i Hi. rewrite Z.land_spec, Z.bits_0, Z.pow2_bits_eqb by done.
    destruct (Z.eqb_spec j i) as [<-|]; [by rewrite E|apply andb_false_r].
Qed.

Lemma nth_alter {A} (f : A -> A) (v : list A) i j d : (j < length v)%nat ->
  nth i (alter f j v) d = if (i =? j)%nat then f (nth i v d) else nth i v d.
Proof.
  intros Hj. rewrite !nth_lookup, list_lookup_alter. destruct (Nat.eqb_spec i j) as [->|Hne].
  - rewrite decide_True by done. rewrite (nth_lookup_some v j d) by done. done.
  - by rewrite decide_False by done.
Qed.

Lemma is_byte_lor_bit b (c : bool) (j : nat) : is_byte b -> (j < 8)%nat ->
  is_byte (Z.lor b (Z.shiftl (if c then 1 else 0) (Z.of_nat j))).
Proof.
  intros Hb Hj. assert (0 <= Z.shiftl (if c then 1 else 0) (Z.of_nat j) < 2 ^ 8) as Hs.
  { destruct c; [|rewrite Z.shiftl_0_l; lia]. rewrite Z.shiftl_1_l.
    split; [apply Z.pow_nonneg; lia | apply Z.pow_lt_mono_r; lia]. }
  split; [apply Z.lor_nonneg; lia|]. change 256 with (2 ^ 8) in *.
  destruct (decide (Z.lor b (Z.shiftl (if c then 1 else 0) (Z.of_nat j)) = 0)) as [->|Hne]; [lia|].
  assert (forall x, 0 <= x < 2 ^ 8 -> Z.log2 x < 8) as Hlog.
  { intros x Hx. destruct (decide (x = 0)) as [->|]; [done|]. apply Z.log2_lt_pow2; lia. }
  apply Z.log2_lt_pow2; [pose proof (proj2 (Z.lor_nonneg b (Z.shiftl (if c then 1 else 0) (Z.of_nat j)))); lia|].
  rewrite Z.log2_lor by lia. apply Z.max_lub_lt; by apply Hlog.
Qed.

Lemma pack_inv bits k L : (k <= 8 * L)%nat ->
  let v := fold_left (pack_step bits) (seq 0 k) (replicate L 0) in
  length v = L /\ bytes_ok v /\
  forall q, (q < 8 * L)%nat -> Z.testbit (nth (q / 8) v 0) (Z.of_nat (q mod 8)) = ((q <? k)%nat && nth q bits false)%bool.
Proof.
  induction k as [|k IH]; intros Hk.
  - cbn [seq fold_left]. cbv zeta. rewrite length_replicate. split; [done|]. split; [apply Forall_replicate; lia|].
    intros q Hq. rewrite nth_lookup, lookup_replicate_2; [apply Z.bits_0|]. apply Nat.Div0.div_lt_upper_bound. lia.
  - rewrite seq_S, fold_left_app. cbn [fold_left Nat.add]. destruct (IH ltac:(lia)) as (Hl & Hb & Ht).
    set (v := fold_left (pack_step bits) (seq 0 k) (replicate L 0)) in *. clearbody v.
    assert (Hk8 : (k / 8 < length v)%nat) by (rewrite Hl; apply Nat.Div0.div_lt_upper_bound; lia).
    assert (Hm8 : (k mod 8 < 8)%nat) by (apply Nat.mod_upper_bound; lia).
    unfold pack_step. rewrite length_alter. split; [done|]. split.
    + apply Forall_lookup. intros i x. rewrite list_lookup_alter. case_decide; [|apply (proj1 (Forall_lookup _ _) Hb)].
      intros (b & Eb & ->)%fmap_Some_1. apply is_byte_lor_bit; [|done].
      by eapply (proj1 (Forall_lookup _ _) Hb).
    + intros q Hq. rewrite nth_alter by done. pose proof (Nat.div_mod_eq q 8). pose proof (Nat.div_mod_eq k 8).
      assert (q mod 8 < 8)%nat by (apply Nat.mod_upper_bound; lia).
      specialize (Ht q Hq). destruct (Nat.eqb_spec (q / 8) (k / 8)) as [E|E].
      * rewrite Z.lor_spec, Ht, Z.shiftl_spec by lia. destruct (decide (q = k)) as [->|Hne].
        -- rewrite Z.sub_diag, Nat.ltb_irrefl, (proj2 (Nat.ltb_lt k (S k))) by lia.
           by destruct (nth k bits false).
        -- assert (Z.testbit (if nth k bits false then 1 else 0) (Z.of_nat (q mod 8) - Z.of_nat (k mod 8)) = false) as ->.
           { destruct (nth k bits false); [|apply Z.bits_0].
             destruct (Z.lt_ge_cases (Z.of_nat (q mod 8) - Z.of_nat (k mod 8)) 0); [by apply Z.testbit_neg_r|].
             apply Z.bits_above_log2; [lia|]. change (Z.log2 1) with 0. lia. }
           rewrite orb_false_r. f_equal. destruct (Nat.ltb_spec q k), (Nat.ltb_spec q (S k)); lia.
      * rewrite Ht. f_equal. destruct (Nat.ltb_spec q k), (Nat.ltb_spec q (S k)); try done; try lia.
Qed.

Lemma unpack_pack bits : exists pad,
  unpack_bits (vBytes_of bits) = bits ++ pad /\ ((length (bits ++ pad) + 7) / 8 = (length bits + 7) / 8)%nat /\
  length (vBytes_of bits) = ((length bits + 7) / 8)%nat /\ bytes_ok (vBytes_of bits).
Proof.
  set (L := ((length bits + 7) / 8)%nat). pose proof (Nat.div_mod_eq (length bits + 7) 8).
  assert ((length bits + 7) mod 8 < 8)%nat by (apply Nat.mod_upper_bound; lia). fold L in H.
  destruct (pack_inv bits (length bits) L ltac:(lia)) as (Hl & Hb & Ht).
  change (fold_left _ _ _) with (vBytes_of bits) in Hl, Hb, Ht.
  exists (replicate (8 * L - length bits) false). split; [|split; [|by split]].
  - unfold unpack_bits. rewrite Hl. apply list_eq_same_length with (L * 8)%nat;
      [rewrite length_app, length_replicate; lia | by rewrite length_map, length_seq |].
    intros q x y Hq. rewrite list_lookup_fmap, lookup_seq_lt by lia. cbn [fmap option_fmap option_map Nat.add].
    intros <-%Some_inj Hy. rewrite land_bit_test by lia. rewrite Ht by lia. destruct (Nat.ltb_spec q (length bits)).
    + rewrite lookup_app_l, (nth_lookup_some bits q false) in Hy by lia. by injection Hy.
    + rewrite lookup_app_r in Hy by lia. apply lookup_replicate in Hy as [-> _]. done.
  - rewrite length_app, length_replicate. replace (length bits + (8 * L - length bits) + 7)%nat with (7 + L * 8)%nat by lia.
    rewrite Nat.div_add by lia. done.
Qed.

(** ** Soundness of extraction, up to collisions of the hash *)

(** The pairs of hashes that a run of [TraverseAndExtract] joins. *)
Fixpoint extract_pairs `{Digests} (p : CPartialMerkleTree) (height pos : nat) (s : extract_state) : list (uint256 * uint256) :=
  match height, vBits p !! nBitsUsed s with
  | S height, Some true =>
      let s := mkExtract (S (nBitsUsed s)) (nHashUsed s) (matches s) (fBad s) in
      let '(lhash, s1) := TraverseAndExtract p height (pos * 2) s in
      if (pos * 2 + 1 <? CalcTreeWidth (nTransactions p) height)%nat
      then let '(rhash, _) := TraverseAndExtract p height (pos * 2 + 1) s1 in
           (lhash, rhash) :: extract_pairs p height (pos * 2) s ++ extract_pairs p height (pos * 2 + 1) s1
      else (lhash, lhash) :: extract_pairs p height (pos * 2) s
  | _, _ => []
  end.

(** The pairs that are joined in the Merkle tree of a block, level by level. *)
Definition tree_pair `{Digests} (vTxid : list uint256) (h pos : nat) : uint256 * uint256 :=
  (at_ (level vTxid h) (pos * 2),
   if (pos * 2 + 1 <? length (level vTxid h))%nat then at_ (level vTxid h) (pos * 2 + 1) else at_ (level vTxid h) (pos * 2)).
Definition tree_pairs `{Digests} (vTxid : list uint256) : list (uint256 * uint256) :=
  flat_map (fun h => map (tree_pair vTxid h) (seq 0 (length (level vTxid (S h))))) (seq 0 (tree_height vTxid)).

(** A pair of the one list and a different pair of the other that have the same hash. *)
Definition collision_between `{Digests} (xs ys : list (uint256 * uint256)) : Prop :=
  exists x y, x ∈ xs /\ y ∈ ys /\ x <> y /\ node (fst x) (snd x) = node (fst y) (snd y).

Lemma collision_mono `{Digests} xs xs' ys : xs ⊆ xs' -> collision_between xs ys -> collision_between xs' ys.
Proof. intros Hs (x & y & Hx & ?). exists x, y. split; [by apply Hs | done]. Qed.

Section Sound.
Context `{HD : Digests} `{HDok : !Digests_ok}.

Lemma words_of_bytes_inj k l1 l2 : length l1 = (4 * k)%nat -> length l2 = (4 * k)%nat ->
  bytes_ok l1 -> bytes_ok l2 -> words_of_bytes l1 = words_of_bytes l2 -> l1 = l2.
Proof.
  intros H1 H2 B1 B2 E. destruct (uval_words_of_bytes k l1 H1 B1) as [_ V1].
  destruct (uval_words_of_bytes k l2 H2 B2) as [_ V2].
  apply (undigits_inj 256); [lia|done|done|congruence|]. rewrite <- V1, <- V2. by rewrite E.
Qed.

Lemma node_ok a b : uint_ok 8 (node a b).
Proof. apply words_of_32; [apply SHA256_len | apply SHA256_bytes]. Qed.

Context (vTxid : list uint256) (Hn : 1 <= Z.of_nat (length vTxid) <= 2 ^ 31).
Context (Hok : Forall (uint_ok 8) vTxid).

Lemma up_ok l : Forall (uint_ok 8) (up l).
Proof. induction l as [| |a b l IH] using pair_ind; repeat constructor; try apply node_ok. done. Qed.

Lemma level_ok h pos : (pos < length (level vTxid h))%nat -> uint_ok 8 (at_ (level vTxid h) pos).
Proof.
  intros Hp. unfold at_. apply (proj1 (Forall_nth _ _ _)); [|done].
  destruct h; [exact Hok|apply up_ok].
Qed.

Lemma extract_leaf_ok p leaf b s h s' : Forall (uint_ok 8) (vHash p) ->
  extract_leaf p leaf b s = (h, s') -> fBad s' = false ->
  uint_ok 8 h /\ fBad s = false /\
  matches s' = matches s ++ (if (leaf && b)%bool then [h] else []).
Proof.
  intros Hp. unfold extract_leaf. destruct (vHash p !! nHashUsed s) as [x|] eqn:E; [|by intros [= <- <-]].
  intros [= <- <-]. cbn [fBad matches]. intros Hb. split; [by eapply Forall_lookup in Hp|]. split; [done|].
  destruct (leaf && b)%bool; [done|by rewrite app_nil_r].
Qed.

Lemma tree_pair_in h pos : (h < tree_height vTxid)%nat -> (pos < length (level vTxid (S h)))%nat -> tree_pair vTxid h pos ∈ tree_pairs vTxid.
Proof.
  intros Hh Hp. apply list_elem_of_In, in_flat_map. exists h. split; [apply in_seq; lia|]. apply in_map, in_seq. lia.
Qed.

(** The two pairs of a node are the same, or collide. *)
Lemma pair_same (x y : uint256 * uint256) xs ys : x ∈ xs -> y ∈ ys -> node (fst x) (snd x) = node (fst y) (snd y) -> x = y \/ collision_between xs ys.
Proof. intros Hx Hy E. destruct (decide (x = y)); [by left|]. right. by exists x, y. Qed.

Lemma extract_sound p h pos s hsh s' : (h <= tree_height vTxid)%nat -> Forall (uint_ok 8) (vHash p) ->
  nTransactions p = Z.of_nat (length vTxid) -> (pos < length (level vTxid h))%nat ->
  TraverseAndExtract p h pos s = (hsh, s') -> fBad s' = false ->
  uint_ok 8 hsh /\ fBad s = false /\
  exists ms, matches s' = matches s ++ ms /\
    (hsh = at_ (level vTxid h) pos -> Forall (fun t => t ∈ vTxid) ms \/ collision_between (extract_pairs p h pos s) (tree_pairs vTxid)).
Proof.
  intros Hh Hp Hpn. destruct (tree_height_spec vTxid Hn) as (H31 & _). revert pos s hsh s'. induction h as [|h IH]; intros pos s hsh s' Hpos Ht Hbad.
  - cbn [TraverseAndExtract] in Ht. destruct (vBits p !! nBitsUsed s) as [b|]; [|by injection Ht as <- <-].
    destruct (extract_leaf_ok _ _ _ _ _ _ Hp Ht Hbad) as (? & ? & Em). split; [done|]. split; [done|].
    eexists. split; [exact Em|]. intros ->. left. destruct (true && b)%bool; [|constructor].
    apply Forall_singleton, list_elem_of_lookup_2 with pos. apply nth_lookup_some. exact Hpos.
  - cbn [TraverseAndExtract extract_pairs] in Ht |- *. destruct (vBits p !! nBitsUsed s) as [b|]; [|by injection Ht as <- <-].
    pose proof (tree_pair_in h pos ltac:(lia) Hpos) as Hin. unfold tree_pair in Hin.
    destruct (children vTxid h pos Hpos) as [Hp2 Hat]. destruct b; cbn [negb] in Ht.
    + destruct (TraverseAndExtract p h (pos * 2) _) as [lh s1] eqn:E1.
      rewrite Hpn, width_level in Ht |- * by lia. rewrite Hat.
      destruct (Nat.ltb_spec (pos * 2 + 1) (length (level vTxid h))) as [Hlt|Hge].
      * destruct (TraverseAndExtract p h (pos * 2 + 1) s1) as [rh s2] eqn:E2. injection Ht as <- <-.
        destruct (IH ltac:(lia) _ _ _ _ Hlt E2 Hbad) as (Or & Hb1 & m2 & M2 & S2).
        destruct (IH ltac:(lia) _ _ _ _ Hp2 E1 Hb1) as (Ol & Hb0 & m1 & M1 & S1).
        split; [apply node_ok|]. split; [done|]. exists (m1 ++ m2).
        split; [by rewrite M2, M1, app_assoc|]. intros En. set (xs := (lh, rh) :: _).
        destruct (pair_same (lh, rh) _ xs _ ltac:(by left) Hin En) as [[= El Er]|]; [|by right].
        destruct (S1 El) as [F1|HC]; [|right; eapply collision_mono; [|exact HC]; set_solver].
        destruct (S2 Er) as [F2|HC]; [|right; eapply collision_mono; [|exact HC]; set_solver].
        left. by apply Forall_app.
      * injection Ht as <- <-. destruct (IH ltac:(lia) _ _ _ _ Hp2 E1 Hbad) as (Ol & Hb0 & m1 & M1 & S1).
        split; [apply node_ok|]. split; [done|]. exists m1. split; [done|]. intros En. set (xs := (lh, lh) :: _).
        destruct (pair_same (lh, lh) _ xs _ ltac:(by left) Hin En) as [[= El _]|]; [|by right].
        destruct (S1 El) as [F1|HC]; [by left|right; eapply collision_mono; [|exact HC]; set_solver].
    + destruct (extract_leaf_ok _ _ _ _ _ _ Hp Ht Hbad) as (? & ? & Em). split; [done|]. split; [done|].
      exists []. split; [exact Em|]. intros _. left. constructor.
Qed.
End Sound.

(** ** Sizes of an encoding *)

Section Sizes.
Context `{HD : Digests} `{HDok : !Digests_ok}.

Lemma CalcHash_ok n h pos vTxid : Forall (uint_ok 8) vTxid -> uint_ok 8 (CalcHash n h pos vTxid).
Proof.
  intros Hok. destruct h; [|apply node_ok]. cbn. unfold at_. destruct (nth_in_or_default pos vTxid (uint_zero 8)) as [Hin|E].
  - apply list_elem_of_In in Hin. by eapply Forall_forall in Hok.
  - rewrite E. split; [done|]. apply Forall_replicate. lia.
Qed.

Lemma build_sizes n h pos vTxid vMatch : Forall (uint_ok 8) vTxid ->
  let '(bits, hashes) := TraverseAndBuild n h pos vTxid vMatch in
  (length bits < 2 ^ S h)%nat /\ Forall (uint_ok 8) hashes.
Proof.
  intros Hok. revert pos. induction h as [|h IH]; intros pos; cbn [TraverseAndBuild].
  - split; [cbn; lia|]. apply Forall_singleton, (CalcHash_ok n 0). done.
  - pose proof (Nat.pow_nonzero 2 h). destruct (ParentOfMatch n (S h) pos vMatch); cbn [negb].
    + pose proof (IH (pos * 2)%nat) as IHl. destruct (TraverseAndBuild n h (pos * 2) vTxid vMatch) as [b1 h1].
      destruct IHl as [L1 F1]. rewrite !Nat.pow_succ_r' in *. destruct (_ <? _)%nat.
      * pose proof (IH (pos * 2 + 1)%nat) as IHr. destruct (TraverseAndBuild n h (pos * 2 + 1) vTxid vMatch) as [b2 h2].
        destruct IHr as [L2 F2]. cbn [length]. rewrite length_app. split; [lia|]. by apply Forall_app.
      * rewrite !app_nil_r. cbn [length]. split; [lia|done].
    + split; [rewrite !Nat.pow_succ_r'; cbn [length]; lia|]. by apply Forall_singleton, CalcHash_ok.
Qed.

Lemma tree_height_bound vTxid : 1 <= Z.of_nat (length vTxid) <= 2 ^ 31 ->
  (2 ^ tree_height vTxid <= 2 * length vTxid)%nat.
Proof.
  intros Hn. destruct (tree_height_spec vTxid Hn) as (H31 & _ & H2).
  destruct (tree_height vTxid) as [|h] eqn:E; [cbn; lia|].
  specialize (H2 h ltac:(lia)).
  apply (level_below vTxid (replicate (length vTxid) false) Hn (length_replicate _ _) h 1 ltac:(lia)) in H2.
  rewrite Nat.pow_succ_r'. lia.
Qed.

Lemma PMT_make_sizes vTxid vMatch : Forall (uint_ok 8) vTxid ->
  1 <= Z.of_nat (length vTxid) <= MAX_BLOCK_SIZE / 60 -> length vMatch = length vTxid ->
  let p := PMT_make vTxid vMatch in
  nTransactions p = Z.of_nat (length vTxid) /\ Z.of_nat (length (vBits p)) <= 66664 /\
  Forall (uint_ok 8) (vHash p) /\ (length (vHash p) <= length vTxid)%nat.
Proof.
  intros Hok Hn Hm. change (MAX_BLOCK_SIZE / 60) with 16666 in Hn.
  assert (Hn' : 1 <= Z.of_nat (length vTxid) <= 2 ^ 31) by lia.
  destruct (tree_height_spec vTxid Hn') as (H31 & H1 & _). pose proof (tree_height_bound vTxid Hn') as HB.
  unfold PMT_make. rewrite u32_small by lia. fold (tree_height vTxid).
  pose proof (build_sizes (Z.of_nat (length vTxid)) (tree_height vTxid) 0 vTxid vMatch Hok) as HS.
  pose proof (TraverseAndBuild_decodes vTxid vMatch Hn' Hm (mkPMT (Z.of_nat (length vTxid)) [] [])
    (tree_height vTxid) 0 H31 eq_refl ltac:(lia)) as HT.
  destruct (TraverseAndBuild _ _ 0 vTxid vMatch) as [bits hashes]. destruct HS as [HS1 HS2], HT as (_ & HT & _).
  cbn [nTransactions vBits vHash]. rewrite Nat.pow_succ_r' in HS1. split; [done|]. split; [lia|]. split; [done|].
  unfold below in HT. rewrite length_take, length_drop, length_zip_with in HT. lia.
Qed.
End Sizes.

Lemma hashes_okb_spec l : forallb (uint_okb 8) l = true -> Forall (uint_ok 8) l.
Proof.
  intros H. apply Forall_forall. intros u Hu%list_elem_of_In. rewrite forallb_forall in H. by apply uint_okb_spec, H.
Qed.

(** ** Properties *)

(** [BuildMerkleTree] computes the Merkle root of the transaction ids, and
    the branch [GetMerkleBranch] takes from the flat vector for any leaf leads
    [CheckMerkleBranch] from that leaf to the root. *)
Theorem merkle_branch_complete `{Digests} (b : CBlock) (i : nat) :
  let txids := map CTransaction_GetHash (vtx b) in
  (i < length txids)%nat ->
  BuildMerkleTree b = merkle_root txids /\
  CheckMerkleBranch (at_ txids i) (GetMerkleBranch txids (Z.of_nat i)) (Z.of_nat i) = BuildMerkleTree b.
Proof.
  intros txids Hi. assert (HB : BuildMerkleTree b = merkle_root txids).
  { unfold BuildMerkleTree. fold txids. rewrite merkle_vector_levels, levels_last; [done|lia|].
    intros E. rewrite E in Hi. cbn in Hi. lia. }
  split; [exact HB|]. rewrite HB. unfold CheckMerkleBranch, GetMerkleBranch.
  rewrite (proj2 (Z.eqb_neq _ (-1))) by lia. rewrite merkle_vector_levels.
  apply (branch_spec (length txids) [] txids i); [lia|done].
Qed.

Lemma merkle_branch_complete_witness :
  let tx k := mkTx 1 k [] [] 0 in
  let b := mkBlock (mkHeader 1 [] [] 0 0 0) [tx 1; tx 2; tx 3] [] in
  @CheckMerkleBranch toy_digests (@CTransaction_GetHash toy_digests (tx 3))
    (@GetMerkleBranch toy_digests (map (@CTransaction_GetHash toy_digests) (vtx b)) 2) 2
  = @BuildMerkleTree toy_digests b.
Proof.
  intros tx b. destruct (@merkle_branch_complete toy_digests b 2) as [_ H]; [cbn; lia|]. exact H.
Defined.

(** A partial Merkle tree built for a block of up to MAX_BLOCK_SIZE/60
    transactions, serialized, read back (with the flag bits padded to whole
    bytes) and extracted gives the Merkle root of all the ids and exactly the
    selected ids in block order. *)
Theorem partial_merkle_roundtrip `{HDok : Digests_ok} (vTxid : list uint256) (vMatch : list bool) rest :
  1 <= Z.of_nat (length vTxid) <= MAX_BLOCK_SIZE / 60 -> length vMatch = length vTxid ->
  Forall (uint_ok 8) vTxid ->
  ExtractMatches (PMT_make vTxid vMatch) = (merkle_root vTxid, selected (zip vTxid vMatch)) /\
  exists p, PMT_dec (PMT_enc (PMT_make vTxid vMatch) ++ rest) = Some (p, rest) /\
    ExtractMatches p = (merkle_root vTxid, selected (zip vTxid vMatch)).
Proof.
  intros Hn Hm Hok. destruct (PMT_make_sizes vTxid vMatch Hok Hn Hm) as (Ep & Hb & Hh & Hl).
  assert (Hn' : 1 <= Z.of_nat (length vTxid) <= 2 ^ 31) by (change (MAX_BLOCK_SIZE / 60) with 16666 in Hn; lia).
  pose proof (extract_built vTxid vMatch Hn' Hm) as HE. split.
  - specialize (HE [] ltac:(lia)). cbv zeta in HE. rewrite app_nil_r in HE. cbn [length] in HE.
    rewrite Nat.add_0_r in HE. specialize (HE eq_refl). by destruct (PMT_make vTxid vMatch).
  - destruct (unpack_pack (vBits (PMT_make vTxid vMatch))) as (pad & Eu & Epad & Hlen & Hby).
    exists (mkPMT (nTransactions (PMT_make vTxid vMatch)) (vBits (PMT_make vTxid vMatch) ++ pad) (vHash (PMT_make vTxid vMatch))).
    split; [|apply HE; [lia|]; rewrite <- length_app; exact Epad].
    unfold PMT_dec. rewrite <- Eu. change (MAX_BLOCK_SIZE / 60) with 16666 in Hn.
    set (q := PMT_make vTxid vMatch) in *.
    change (PMT_enc q) with (enc (pair_codec (uint_codec 4) (pair_codec (vector_codec uint256_codec) bytevec_codec))
      (nTransactions q, (vHash q, vBytes_of (vBits q)))).
    assert (C : codec_ok (pair_codec (uint_codec 4) (pair_codec (vector_codec uint256_codec) bytevec_codec)) _)
      by (codec_tac; apply (uint_fixed_codec_ok 8); lia).
    erewrite (dec_enc C); [done|].
    split; [rewrite Ep; unfold uint_valid; cbn [fst]; lia|]. split.
    + split; [unfold MAX_SIZE; cbn [fst snd]; lia|exact Hh].
    + split; [|exact Hby]. cbn [fst snd]. rewrite Hlen. unfold MAX_SIZE.
      rewrite Nat2Z.inj_div, Nat2Z.inj_add. apply Z.div_le_upper_bound; lia.
Qed.

Lemma partial_merkle_roundtrip_witness :
  let txids := [uint_zero 8; replicate 8 1; replicate 8 2] in
  snd (@ExtractMatches toy_digests (@PMT_make toy_digests txids [false; true; false])) = [replicate 8 1].
Proof.
  intros txids. pose proof toy_digests_ok as OK.
  destruct (@partial_merkle_roundtrip toy_digests OK txids [false; true; false] []) as [-> _];
    [change (MAX_BLOCK_SIZE / 60) with 16666; cbn; lia | done
    | apply hashes_okb_spec; reflexivity |].
  reflexivity.
Defined.

(** C40: extraction is sound: when a (possibly hostile) partial tree that claims
    as many transactions as the block has yields the block's Merkle root, every
    id it reports as matched is one of the block's, or one of the pairs of hashes
    that the extraction joins and a different pair that is joined in the block's
    own tree have the same double SHA-256. *)
Theorem partial_merkle_sound `{HDok : Digests_ok} (vTxid : list uint256) (p : CPartialMerkleTree) :
  1 <= Z.of_nat (length vTxid) <= 2 ^ 31 -> Forall (uint_ok 8) vTxid -> Forall (uint_ok 8) (vHash p) ->
  nTransactions p = Z.of_nat (length vTxid) ->
  fst (ExtractMatches p) = merkle_root vTxid -> merkle_root vTxid <> uint_zero 8 ->
  Forall (fun t => t ∈ vTxid) (snd (ExtractMatches p)) \/
  collision_between (extract_pairs p (tree_height vTxid) 0 (mkExtract 0 0 [] false)) (tree_pairs vTxid).
Proof.
  intros Hn Hok Hh Hpn He Hz. destruct (tree_height_spec vTxid Hn) as (H31 & H1 & _).
  rewrite (merkle_root_level vTxid Hn) in *. revert He. unfold ExtractMatches. rewrite Hpn.
  fold (tree_height vTxid).
  destruct (TraverseAndExtract p (tree_height vTxid) 0 (mkExtract 0 0 [] false)) as [r s] eqn:E.
  repeat dmatch; cbn [fst snd]; intros He; try (by left); try congruence.
  destruct (extract_sound vTxid Hn Hok p (tree_height vTxid) 0 _ r s ltac:(lia) Hh Hpn ltac:(lia) E ltac:(done)) as (_ & _ & ms & Em & Hs).
  rewrite Em. cbn [matches app]. by apply Hs.
Qed.

(** On this block no two joined pairs collide, so the id is one of the block's. *)
Lemma partial_merkle_sound_witness :
  let txids := [replicate 8 3; replicate 8 1; replicate 8 2] in
  let p := @PMT_make toy_digests txids [false; true; false] in
  Forall (fun t => t ∈ txids) (snd (@ExtractMatches toy_digests p)) /\ snd (@ExtractMatches toy_digests p) = [replicate 8 1].
Proof.
  intros txids p. pose proof toy_digests_ok as OK. split; [|vm_compute; reflexivity].
  destruct (@partial_merkle_sound toy_digests OK txids p) as [H|(x & y & Hx & Hy & Hne & E)].
  - cbn. lia.
  - apply hashes_okb_spec. reflexivity.
  - apply hashes_okb_spec. vm_compute. reflexivity.
  - vm_compute. reflexivity.
  - vm_compute. reflexivity.
  - vm_compute. congruence.
  - exact H.
  - exfalso. set (xs := extract_pairs _ _ _ _) in Hx. set (ys := tree_pairs _) in Hy.
    assert (HF : Forall (fun x => Forall (fun y => x = y \/ @node toy_digests (fst x) (snd x) <> @node toy_digests (fst y) (snd y)) ys) xs)
      by (apply (bool_decide_unpack _); vm_compute; exact I).
    rewrite Forall_forall in HF. specialize (HF _ Hx). rewrite Forall_forall in HF. destruct (HF _ Hy); contradiction.
Defined.

(** The number of transactions must be the block's: a tree that claims one
    transaction yields the root as its id. *)
Example forged_count :
  let txids := [replicate 8 3; replicate 8 1] in
  let r := @merkle_root toy_digests txids in
  @ExtractMatches toy_digests (mkPMT 1 [true] [r]) = (r, [r]) /\ (r ∉ txids).
Proof. split; [vm_compute; reflexivity|]. apply (bool_decide_unpack _). vm_compute. exact I. Qed.
