(* ===== verification/Script.v ===== *)
(** * Scripts (src/src/script.h, src/src/script.cpp)

    A [CScript] is a byte vector.  This file holds the opcode numbers, the
    writing operators, the instruction reader [GetOp] and the functions that
    walk a script instruction by instruction.  An iterator into a script is the
    suffix it points at. *)

From S2P Require Import Prelude Uint256 BigNum Tx.

(** ** Opcodes: the values of [enum opcodetype] that the code names *)

Definition OP_0 : Z := 0x00.
Definition OP_PUSHDATA1 : Z := 0x4c.
Definition OP_PUSHDATA2 : Z := 0x4d.
Definition OP_PUSHDATA4 : Z := 0x4e.
Definition OP_1NEGATE : Z := 0x4f.
Definition OP_1 : Z := 0x51.
Definition OP_16 : Z := 0x60.
Definition OP_NOP : Z := 0x61.
Definition OP_IF : Z := 0x63.
Definition OP_NOTIF : Z := 0x64.
Definition OP_ELSE : Z := 0x67.
Definition OP_ENDIF : Z := 0x68.
Definition OP_VERIFY : Z := 0x69.
Definition OP_RETURN : Z := 0x6a.
Definition OP_TOALTSTACK : Z := 0x6b.
Definition OP_FROMALTSTACK : Z := 0x6c.
Definition OP_2DROP : Z := 0x6d.
Definition OP_2DUP : Z := 0x6e.
Definition OP_3DUP : Z := 0x6f.
Definition OP_2OVER : Z := 0x70.
Definition OP_2ROT : Z := 0x71.
Definition OP_2SWAP : Z := 0x72.
Definition OP_IFDUP : Z := 0x73.
Definition OP_DEPTH : Z := 0x74.
Definition OP_DROP : Z := 0x75.
Definition OP_DUP : Z := 0x76.
Definition OP_NIP : Z := 0x77.
Definition OP_OVER : Z := 0x78.
Definition OP_PICK : Z := 0x79.
Definition OP_ROLL : Z := 0x7a.
Definition OP_ROT : Z := 0x7b.
Definition OP_SWAP : Z := 0x7c.
Definition OP_TUCK : Z := 0x7d.
Definition OP_CAT : Z := 0x7e.
Definition OP_SUBSTR : Z := 0x7f.
Definition OP_LEFT : Z := 0x80.
Definition OP_RIGHT : Z := 0x81.
Definition OP_SIZE : Z := 0x82.
Definition OP_INVERT : Z := 0x83.
Definition OP_AND : Z := 0x84.
Definition OP_OR : Z := 0x85.
Definition OP_XOR : Z := 0x86.
Definition OP_EQUAL : Z := 0x87.
Definition OP_EQUALVERIFY : Z := 0x88.
Definition OP_1ADD : Z := 0x8b.
Definition OP_1SUB : Z := 0x8c.
Definition OP_2MUL : Z := 0x8d.
Definition OP_2DIV : Z := 0x8e.
Definition OP_NEGATE : Z := 0x8f.
Definition OP_ABS : Z := 0x90.
Definition OP_NOT : Z := 0x91.
Definition OP_0NOTEQUAL : Z := 0x92.
Definition OP_ADD : Z := 0x93.
Definition OP_SUB : Z := 0x94.
Definition OP_MUL : Z := 0x95.
Definition OP_DIV : Z := 0x96.
Definition OP_MOD : Z := 0x97.
Definition OP_LSHIFT : Z := 0x98.
Definition OP_RSHIFT : Z := 0x99.
Definition OP_BOOLAND : Z := 0x9a.
Definition OP_BOOLOR : Z := 0x9b.
Definition OP_NUMEQUAL : Z := 0x9c.
Definition OP_NUMEQUALVERIFY : Z := 0x9d.
Definition OP_NUMNOTEQUAL : Z := 0x9e.
Definition OP_LESSTHAN : Z := 0x9f.
Definition OP_GREATERTHAN : Z := 0xa0.
Definition OP_LESSTHANOREQUAL : Z := 0xa1.
Definition OP_GREATERTHANOREQUAL : Z := 0xa2.
Definition OP_MIN : Z := 0xa3.
Definition OP_MAX : Z := 0xa4.
Definition OP_WITHIN : Z := 0xa5.
Definition OP_RIPEMD160 : Z := 0xa6.
Definition OP_SHA1 : Z := 0xa7.
Definition OP_SHA256 : Z := 0xa8.
Definition OP_HASH160 : Z := 0xa9.
Definition OP_HASH256 : Z := 0xaa.
Definition OP_CODESEPARATOR : Z := 0xab.
Definition OP_CHECKSIG : Z := 0xac.
Definition OP_CHECKSIGVERIFY : Z := 0xad.
Definition OP_CHECKMULTISIG : Z := 0xae.
Definition OP_CHECKMULTISIGVERIFY : Z := 0xaf.
Definition OP_NOP1 : Z := 0xb0.
Definition OP_NOP10 : Z := 0xb9.
Definition OP_SMALLINTEGER : Z := 0xfa.
Definition OP_PUBKEYS : Z := 0xfb.
Definition OP_PUBKEYHASH : Z := 0xfd.
Definition OP_PUBKEY : Z := 0xfe.
Definition OP_INVALIDOPCODE : Z := 0xff.

Abbreviation CScript := (list Z).
Abbreviation valtype := (list Z).

(** ** Writing: what each [operator<<] appends *)

(** [operator<<(const std::vector<unsigned char>&)] *)
Definition push_data (b : valtype) : CScript :=
  let n := Z.of_nat (length b) in
  (if n <? OP_PUSHDATA1 then [u8 n]
   else if n <=? 0xff then [OP_PUSHDATA1; u8 n]
   else if n <=? 0xffff then OP_PUSHDATA2 :: le_bytes 2 (u16 n)
   else OP_PUSHDATA4 :: le_bytes 4 (u32 n)) ++ b.

(** [operator<<(const uint160&)] and [operator<<(const uint256&)]: a size byte
    and the memory image. *)
Definition push_uint (b : base_uint) : CScript := Z.of_nat (length (uint_bytes b)) :: uint_bytes b.

Section Push.
Context `{BN : OpenSSL_BN}.

Definition push_int64 (n : Z) : CScript :=
  if ((n =? -1) || ((1 <=? n) && (n <=? 16)))%bool then [u8 (n + (OP_1 - 1))]
  else push_data (getvch (setint64 n)).

Definition push_uint64 (n : Z) : CScript :=
  if ((1 <=? n) && (n <=? 16))%bool then [u8 (n + (OP_1 - 1))]
  else push_data (getvch (setuint64 n)).
End Push.

(** ** Reading one instruction *)

(** The operand size of a push opcode and what follows it. *)
Definition push_size (opcode : Z) (rest : CScript) : option (Z * CScript) :=
  if opcode <? OP_PUSHDATA1 then Some (opcode, rest)
  else if opcode =? OP_PUSHDATA1 then
    match rest with b :: rest => Some (b, rest) | [] => None end
  else if opcode =? OP_PUSHDATA2 then
    if (length rest <? 2)%nat then None else Some (le_val (take 2 rest), drop 2 rest)
  else
    if (length rest <? 4)%nat then None else Some (le_val (take 4 rest), drop 4 rest).

(** [GetOp2]: opcode, operand and the iterator behind the instruction. *)
Definition GetOp (pc : CScript) : option (Z * valtype * CScript) :=
  match pc with
  | [] => None
  | opcode :: rest =>
      if opcode <=? OP_PUSHDATA4 then
        match push_size opcode rest with
        | None => None
        | Some (nSize, rest) =>
            if Z.of_nat (length rest) <? nSize then None
            else Some (opcode, take (Z.to_nat nSize) rest, drop (Z.to_nat nSize) rest)
        end
      else Some (opcode, [], rest)
  end.

Definition DecodeOP_N (opcode : Z) : Z := if opcode =? OP_0 then 0 else opcode - (OP_1 - 1).
Definition EncodeOP_N (n : Z) : Z := if n =? 0 then OP_0 else OP_1 + n - 1.

(** ** Walking a script *)

(** [memcmp] at the iterator: does the rest start with [b]? *)
Definition starts_with (b pc : CScript) : bool := bool_decide (take (length b) pc = b).

(** The inner loop of [FindAndDelete]: erase [b] at the iterator while it is there. *)
Fixpoint erase_here (fuel : nat) (b pc : CScript) (nFound : Z) : CScript * Z :=
  match fuel with
  | O => (pc, nFound)
  | S fuel =>
      if starts_with b pc then erase_here fuel b (drop (length b) pc) (nFound + 1) else (pc, nFound)
  end.

(** The outer loop; [pre] is what lies before the iterator. *)
Fixpoint find_and_delete_loop (fuel : nat) (b pre pc : CScript) (nFound : Z) : CScript * Z :=
  match fuel with
  | O => (pre ++ pc, nFound)
  | S fuel =>
      let '(pc, nFound) := erase_here (length pc) b pc nFound in
      match GetOp pc with
      | None => (pre ++ pc, nFound)
      | Some (_, _, rest) =>
          find_and_delete_loop fuel b (pre ++ take (length pc - length rest) pc) rest nFound
      end
  end.

(** The script after the deletions, and how many there were. *)
Definition FindAndDelete (script b : CScript) : CScript * Z :=
  match b with
  | [] => (script, 0)
  | _ => find_and_delete_loop (S (length script)) b [] script 0
  end.

Fixpoint find_loop (fuel : nat) (op : Z) (pc : CScript) (nFound : Z) : Z :=
  match fuel with
  | O => nFound
  | S fuel =>
      match GetOp pc with
      | None => nFound
      | Some (opcode, _, rest) => find_loop fuel op rest (if opcode =? op then nFound + 1 else nFound)
      end
  end.

Definition Find (script : CScript) (op : Z) : Z := find_loop (length script) op script 0.

(** [while (pc < end())] loops of the predicates below. *)
Fixpoint push_only_loop (fuel : nat) (pc : CScript) : bool :=
  match fuel with
  | O => true
  | S fuel =>
      match pc with
      | [] => true
      | _ =>
          match GetOp pc with
          | None => false
          | Some (opcode, _, rest) => if OP_16 <? opcode then false else push_only_loop fuel rest
          end
      end
  end.

Definition IsPushOnly (script : CScript) : bool := push_only_loop (S (length script)) script.

Definition canonical_push (opcode : Z) (data : valtype) : bool :=
  let n := Z.of_nat (length data) in
  if OP_16 <? opcode then true
  else if ((opcode <? OP_PUSHDATA1) && (OP_0 <? opcode) && ((n =? 1) && (nth 0 data 0 <=? 16)))%bool then false
  else if ((opcode =? OP_PUSHDATA1) && (n <? OP_PUSHDATA1))%bool then false
  else if ((opcode =? OP_PUSHDATA2) && (n <=? 0xFF))%bool then false
  else if ((opcode =? OP_PUSHDATA4) && (n <=? 0xFFFF))%bool then false
  else true.

Fixpoint canonical_loop (fuel : nat) (pc : CScript) : bool :=
  match fuel with
  | O => true
  | S fuel =>
      match pc with
      | [] => true
      | _ =>
          match GetOp pc with
          | None => false
          | Some (opcode, data, rest) => if canonical_push opcode data then canonical_loop fuel rest else false
          end
      end
  end.

Definition HasCanonicalPushes (script : CScript) : bool := canonical_loop (S (length script)) script.

(** One instruction of [GetSigOpCount]. *)
Definition sigop_step (fAccurate : bool) (lastOpcode opcode n : Z) : Z :=
  if ((opcode =? OP_CHECKSIG) || (opcode =? OP_CHECKSIGVERIFY))%bool then u32 (n + 1)
  else if ((opcode =? OP_CHECKMULTISIG) || (opcode =? OP_CHECKMULTISIGVERIFY))%bool then
    if (fAccurate && (OP_1 <=? lastOpcode) && (lastOpcode <=? OP_16))%bool
    then u32 (n + DecodeOP_N lastOpcode) else u32 (n + 20)
  else n.

Fixpoint sigop_loop (fuel : nat) (fAccurate : bool) (pc : CScript) (lastOpcode n : Z) : Z :=
  match fuel with
  | O => n
  | S fuel =>
      match pc with
      | [] => n
      | _ =>
          match GetOp pc with
          | None => n
          | Some (opcode, _, rest) =>
              sigop_loop fuel fAccurate rest opcode (sigop_step fAccurate lastOpcode opcode n)
          end
      end
  end.

Definition GetSigOpCount (fAccurate : bool) (script : CScript) : Z :=
  sigop_loop (S (length script)) fAccurate script OP_INVALIDOPCODE 0.

Definition IsPayToScriptHash (script : CScript) : bool :=
  ((length script =? 23)%nat && (nth 0 script 0 =? OP_HASH160) && (nth 1 script 0 =? 0x14)
   && (nth 22 script 0 =? OP_EQUAL))%bool.

(** The last item a push-only script pushes; [None] on an error or another opcode. *)
Fixpoint last_push_loop (fuel : nat) (pc : CScript) (data : valtype) : option valtype :=
  match fuel with
  | O => Some data
  | S fuel =>
      match pc with
      | [] => Some data
      | _ =>
          match GetOp pc with
          | None => None
          | Some (opcode, data, rest) => if OP_16 <? opcode then None else last_push_loop fuel rest data
          end
      end
  end.

(** [scriptPubKey.GetSigOpCount(scriptSig)] *)
Definition GetSigOpCount_p2sh (scriptPubKey scriptSig : CScript) : Z :=
  if negb (IsPayToScriptHash scriptPubKey) then GetSigOpCount true scriptPubKey
  else
    match last_push_loop (S (length scriptSig)) scriptSig [] with
    | None => 0
    | Some data => GetSigOpCount true data
    end.

(** ** Destinations *)

Inductive CTxDestination :=
  | CNoDestination
  | CKeyID (keyID : uint160)
  | CScriptID (scriptID : uint160).

#[export] Instance CTxDestination_eq_dec : EqDecision CTxDestination.
Proof. solve_decision. Defined.

Definition SetDestination (dest : CTxDestination) : CScript :=
  match dest with
  | CNoDestination => []
  | CKeyID keyID => [OP_DUP; OP_HASH160] ++ push_uint keyID ++ [OP_EQUALVERIFY; OP_CHECKSIG]
  | CScriptID scriptID => [OP_HASH160] ++ push_uint scriptID ++ [OP_EQUAL]
  end.

(** [SetMultisig], from the raw public keys. *)
Definition SetMultisig (nRequired : Z) (keys : list valtype) : CScript :=
  [EncodeOP_N nRequired] ++ flat_map push_data keys ++ [EncodeOP_N (Z.of_nat (length keys)); OP_CHECKMULTISIG].

Definition GetID `{Digests} (script : CScript) : uint160 := Hash160 script.

(** ** The instruction reader *)

Lemma push_size_suffix opcode rest n rest' : push_size opcode rest = Some (n, rest') ->
  exists pre, rest = pre ++ rest' /\ forall k, push_size opcode (pre ++ k) = Some (n, k).
Proof.
  unfold push_size. intros H.
  destruct (opcode <? OP_PUSHDATA1); [injection H as <- <-; by exists []|].
  destruct (opcode =? OP_PUSHDATA1).
  { destruct rest as [|b rest]; [done|]. injection H as <- <-. by exists [b]. }
  destruct (opcode =? OP_PUSHDATA2).
  - destruct (Nat.ltb_spec (length rest) 2); [done|]. injection H as <- <-.
    destruct rest as [|a [|b rest]]; [cbn in *; lia..|]. by exists [a; b].
  - destruct (Nat.ltb_spec (length rest) 4); [done|]. injection H as <- <-.
    destruct rest as [|a [|b [|c [|d rest]]]]; [cbn in *; lia..|]. by exists [a; b; c; d].
Qed.

Lemma push_size_nonneg opcode rest n rest' : bytes_ok (opcode :: rest) ->
  push_size opcode rest = Some (n, rest') -> 0 <= n.
Proof.
  intros [Ho Hr]%Forall_cons. unfold push_size. intros H.
  repeat dmatch_in H; simplify_eq; bprop; try lia.
  - by apply Forall_cons in Hr as [? _]; lia.
  - apply undigits_nonneg; [lia|]. by apply Forall_take.
  - apply undigits_nonneg; [lia|]. by apply Forall_take.
Qed.

(** An instruction is a non-empty prefix, and it is read the same way whatever follows. *)
Lemma GetOp_chunk pc opcode data rest : bytes_ok pc -> GetOp pc = Some (opcode, data, rest) ->
  exists chunk, pc = chunk ++ rest /\ chunk <> [] /\ forall k, GetOp (chunk ++ k) = Some (opcode, data, k).
Proof.
  intros Hb H. destruct pc as [|op pc]; [done|]. cbn [GetOp] in H.
  destruct (op <=? OP_PUSHDATA4) eqn:E4.
  - destruct (push_size op pc) as [[n r]|] eqn:Ep; [|done].
    destruct (Z.ltb_spec (Z.of_nat (length r)) n) as [|Hle]; [done|]. injection H as <- <- <-.
    pose proof (push_size_nonneg _ _ _ _ Hb Ep) as Hn.
    destruct (push_size_suffix _ _ _ _ Ep) as (pre & -> & Hpre).
    exists (op :: pre ++ take (Z.to_nat n) r). split; [by rewrite <- app_comm_cons, <- app_assoc, take_drop|].
    split; [done|]. intros k. rewrite <- app_comm_cons, <- app_assoc. cbn [GetOp]. rewrite E4, Hpre.
    assert (Hl : length (take (Z.to_nat n) r) = Z.to_nat n) by (rewrite length_take; lia).
    rewrite (proj2 (Z.ltb_ge _ _)) by (rewrite length_app; lia).
    by rewrite take_app_exact, drop_app_exact by done.
  - injection H as <- <- <-. exists [op]. split; [done|]. split; [done|]. intros k. cbn. by rewrite E4.
Qed.

Lemma GetOp_length pc opcode data rest : bytes_ok pc -> GetOp pc = Some (opcode, data, rest) ->
  (length rest < length pc)%nat /\ bytes_ok rest /\ bytes_ok data.
Proof.
  intros Hb H. assert (bytes_ok data).
  { destruct pc as [|x pc]; [done|]. apply Forall_cons in Hb as [_ Hb]. cbn [GetOp] in H.
    destruct (x <=? OP_PUSHDATA4); [|injection H as <- <- <-; constructor].
    destruct (push_size x pc) as [[n r]|] eqn:E; [|done]. destruct (_ <? n); [done|]. injection H as <- <- <-.
    destruct (push_size_suffix _ _ _ _ E) as (pre & -> & _). apply digits_ok_app in Hb as [_ Hb]. by apply Forall_take. }
  destruct (GetOp_chunk _ _ _ _ Hb H) as (c & -> & Hc & _).
  apply digits_ok_app in Hb as [Hb1 Hb2]. rewrite length_app. destruct c as [|x c]; [done|]. cbn [length].
  split; [lia|done].
Qed.

(** The opcode [push_data] chooses for an operand of [n] bytes. *)
Definition push_opcode (n : Z) : Z :=
  if n <? OP_PUSHDATA1 then n else if n <=? 0xff then OP_PUSHDATA1
  else if n <=? 0xffff then OP_PUSHDATA2 else OP_PUSHDATA4.

Lemma push_opcode_range n : 0 <= n -> 0 <= push_opcode n <= OP_PUSHDATA4.
Proof. intros. unfold push_opcode, OP_PUSHDATA1, OP_PUSHDATA2, OP_PUSHDATA4. repeat dmatch; bprop; lia. Qed.

Lemma GetOp_push_data b rest : Z.of_nat (length b) < 2 ^ 32 ->
  GetOp (push_data b ++ rest) = Some (push_opcode (Z.of_nat (length b)), b, rest).
Proof.
  intros Hb. unfold push_data, push_opcode. cbv zeta. set (n := Z.of_nat (length b)) in *.
  assert (Hcut : (Z.of_nat (length (b ++ rest)) <? n) = false) by (apply Z.ltb_ge; rewrite length_app; lia).
  assert (Ht : take (Z.to_nat n) (b ++ rest) = b) by (apply take_app_exact; lia).
  assert (Hd : drop (Z.to_nat n) (b ++ rest) = rest) by (apply drop_app_exact; lia).
  unfold OP_PUSHDATA1, OP_PUSHDATA2, OP_PUSHDATA4.
  destruct (Z.ltb_spec n 76); [|destruct (Z.leb_spec n 255); [|destruct (Z.leb_spec n 65535)]].
  - unfold u8. rewrite Z.mod_small by lia. cbn [app]. unfold GetOp, push_size.
    unfold OP_PUSHDATA4, OP_PUSHDATA1. rewrite (proj2 (Z.leb_le n 78)), (proj2 (Z.ltb_lt n 76)) by lia.
    by rewrite Hcut, Ht, Hd.
  - unfold u8. rewrite Z.mod_small by lia. cbn [app]. unfold GetOp, push_size.
    cbn -[app length]. by rewrite Hcut, Ht, Hd.
  - rewrite <- app_assoc. unfold GetOp, push_size. cbn [app]. cbn -[app length digits take drop undigits].
    rewrite length_app, length_le_bytes. cbn -[app digits take drop undigits].
    rewrite take_app_exact, drop_app_exact by (by rewrite length_le_bytes).
    rewrite le_val_bytes. unfold u16. rewrite !(Z.mod_small n) by (simpl; lia).
    by rewrite Hcut, Ht, Hd.
  - rewrite <- app_assoc. unfold GetOp, push_size. cbn [app]. cbn -[app length digits take drop undigits].
    rewrite length_app, length_le_bytes. cbn -[app digits take drop undigits].
    rewrite take_app_exact, drop_app_exact by (by rewrite length_le_bytes).
    rewrite le_val_bytes. unfold u32. rewrite !(Z.mod_small n) by (simpl; lia).
    by rewrite Hcut, Ht, Hd.
Qed.

(** ** A script as a sequence of instructions *)

(** The instructions of a script and what is left when the reader fails. *)
Fixpoint split_ops (fuel : nat) (pc : CScript) : list CScript * CScript :=
  match fuel with
  | O => ([], pc)
  | S fuel =>
      match GetOp pc with
      | None => ([], pc)
      | Some (_, _, rest) =>
          let '(cs, tail) := split_ops fuel rest in (take (length pc - length rest) pc :: cs, tail)
      end
  end.

Definition ops_of (script : CScript) : list CScript * CScript := split_ops (length script) script.

(** One whole instruction. *)
Definition is_op (c : CScript) : Prop := exists opcode data, forall k, GetOp (c ++ k) = Some (opcode, data, k).

Lemma is_op_nonempty c : is_op c -> c <> [].
Proof. intros (o & d & H) ->. specialize (H []). done. Qed.

Lemma GetOp_is_op pc opcode data rest : bytes_ok pc -> GetOp pc = Some (opcode, data, rest) ->
  pc = take (length pc - length rest) pc ++ rest /\ is_op (take (length pc - length rest) pc).
Proof.
  intros Hb H. destruct (GetOp_chunk _ _ _ _ Hb H) as (c & -> & _ & Hc).
  rewrite length_app, take_app_exact by lia. split; [done|]. by exists opcode, data.
Qed.

(** Two instructions at the same place are the same. *)
Lemma is_op_prefix c c' r r' : is_op c -> is_op c' -> c ++ r = c' ++ r' -> c = c' /\ r = r'.
Proof.
  intros (o & d & H) (o' & d' & H') E. specialize (H r). specialize (H' r').
  rewrite E, H' in H. injection H as <- <- ->. split; [|done]. by apply app_inv_tail in E.
Qed.

Lemma split_ops_spec fuel pc : bytes_ok pc -> (length pc <= fuel)%nat ->
  let '(cs, tail) := split_ops fuel pc in
  pc = concat cs ++ tail /\ Forall is_op cs /\ GetOp tail = None.
Proof.
  revert pc. induction fuel as [|fuel IH]; intros pc Hb Hf.
  - destruct pc; [|cbn in Hf; lia]. cbn. split; [done|]. split; [constructor|done].
  - cbn [split_ops]. destruct (GetOp pc) as [[[o d] rest]|] eqn:E; [|by split; [|split]].
    destruct (GetOp_length _ _ _ _ Hb E) as (Hl & Hr & _). destruct (GetOp_is_op _ _ _ _ Hb E) as [Epc Hop].
    specialize (IH rest Hr ltac:(lia)). destruct (split_ops fuel rest) as [cs tail].
    destruct IH as (-> & Hcs & Ht). split; [|split; [by constructor|done]].
    cbn [concat]. by rewrite <- app_assoc.
Qed.

(** Induction over the instructions of a script: reading one, then the rest. *)
Lemma script_ind (P : CScript -> Prop) :
  (forall pc, bytes_ok pc -> GetOp pc = None -> P pc) ->
  (forall pc opcode data rest, bytes_ok pc -> GetOp pc = Some (opcode, data, rest) ->
     (length rest < length pc)%nat -> P rest -> P pc) ->
  forall pc, bytes_ok pc -> P pc.
Proof.
  intros H0 H1 pc. remember (length pc) as n eqn:En. revert pc En.
  induction (lt_wf n) as [n _ IH]. intros pc -> Hb. destruct (GetOp pc) as [[[o d] rest]|] eqn:E.
  - destruct (GetOp_length _ _ _ _ Hb E) as (Hl & Hr & _). eapply H1; eauto.
  - by apply H0.
Qed.

(** ** FindAndDelete *)

Lemma FindAndDelete_nonempty script b : b <> [] ->
  FindAndDelete script b = find_and_delete_loop (S (length script)) b [] script 0.
Proof. by destruct b. Qed.

Section FindDelete.
Context (b : CScript) (Hb : is_op b).

Lemma starts_with_spec pc : starts_with b pc = true <-> exists r, pc = b ++ r.
Proof.
  unfold starts_with. rewrite bool_decide_eq_true. split.
  - intros E. exists (drop (length b) pc). rewrite <- (take_drop (length b) pc) at 1. by rewrite E.
  - intros [r ->]. by rewrite take_app_length.
Qed.

(** Skip the leading instructions that are [b]. *)
Fixpoint skip_b (cs : list CScript) : list CScript :=
  match cs with
  | c :: cs' => if decide (c = b) then skip_b cs' else cs
  | [] => []
  end.

Lemma skip_b_filter cs :
  filter (fun c => c <> b) (skip_b cs) = filter (fun c => c <> b) cs /\
  Z.of_nat (length (filter (fun c => c = b) cs)) =
    Z.of_nat (length cs - length (skip_b cs)) + Z.of_nat (length (filter (fun c => c = b) (skip_b cs))) /\
  (length (skip_b cs) <= length cs)%nat /\
  (match skip_b cs with c :: _ => c <> b | [] => True end) /\
  (Forall is_op cs -> Forall is_op (skip_b cs)).
Proof.
  induction cs as [|c cs (IH1 & IH2 & IH3 & IH4 & IH5)]; [by repeat split|]. cbn [skip_b]. case_decide as E.
  - subst c. rewrite (filter_cons_False (fun c => c <> b)) by auto.
    rewrite (filter_cons_True (fun c => c = b)) by done. cbn [length].
    split; [done|]. split; [|split; [lia|split; [done|]]].
    + rewrite Nat2Z.inj_succ, IH2. lia.
    + intros [_ HF]%Forall_cons. auto.
  - repeat split; try done. cbn [length]. lia.
Qed.

Lemma erase_here_spec fuel cs tail n : Forall is_op cs -> GetOp tail = None ->
  (length (concat cs ++ tail) <= fuel)%nat ->
  erase_here fuel b (concat cs ++ tail) n =
  (concat (skip_b cs) ++ tail, n + Z.of_nat (length cs - length (skip_b cs))).
Proof.
  intros HF Ht. revert fuel n. induction HF as [|c cs Hc HF IH]; intros fuel n Hf; cbn [concat skip_b].
  - assert (Hs : starts_with b tail = false).
    { apply not_true_iff_false. intros [r ->]%starts_with_spec. destruct Hb as (o & d & H). by rewrite H in Ht. }
    destruct fuel; cbn [erase_here app]; rewrite ?Hs; f_equal; cbn [length]; lia.
  - cbn [concat] in Hf. rewrite <- app_assoc in *. rewrite !length_app in Hf.
    assert (Hl : (length c <> 0)%nat) by (intros E%length_zero_iff_nil; by apply is_op_nonempty in Hc).
    destruct fuel as [|fuel]; [lia|]. cbn [erase_here]. case_decide as E.
    + subst c. rewrite (proj2 (starts_with_spec _)) by (by eexists). rewrite drop_app_length.
      rewrite IH by (rewrite length_app; lia). f_equal. cbn [length].
      destruct (skip_b_filter cs) as (_ & _ & Hle & _). lia.
    + assert (Hs : starts_with b (c ++ concat cs ++ tail) = false).
      { apply not_true_iff_false. intros [r Er]%starts_with_spec.
        destruct (is_op_prefix _ _ _ _ Hc Hb Er). done. }
      rewrite Hs. cbn [concat]. rewrite <- app_assoc. f_equal. lia.
Qed.

Lemma find_and_delete_loop_spec fuel cs tail pre n : Forall is_op cs -> GetOp tail = None ->
  (length cs < fuel)%nat ->
  find_and_delete_loop fuel b pre (concat cs ++ tail) n =
  (pre ++ concat (filter (fun c => c <> b) cs) ++ tail, n + Z.of_nat (length (filter (fun c => c = b) cs))).
Proof.
  revert cs pre n. induction fuel as [|fuel IH]; intros cs pre n HF Ht Hf; [lia|].
  cbn [find_and_delete_loop]. rewrite erase_here_spec by done.
  destruct (skip_b_filter cs) as (E1 & -> & Hle & Hhd & HF'). specialize (HF' HF). rewrite <- E1.
  destruct (skip_b cs) as [|c cs'].
  - cbn [concat app]. rewrite Ht. f_equal. cbn. lia.
  - apply Forall_cons in HF' as [Hc HF']. cbn [concat]. rewrite <- app_assoc.
    destruct Hc as (o & d & HG). rewrite HG. rewrite length_app, take_app_exact by lia.
    cbn [length] in *. rewrite IH by (done || lia). rewrite (filter_cons_True (fun c => c <> b)) by done.
    rewrite (filter_cons_False (fun c => c = b)) by done. cbn [concat length]. rewrite <- !app_assoc. f_equal. lia.
Qed.

Lemma FindAndDelete_ops script cs tail : bytes_ok script -> ops_of script = (cs, tail) ->
  FindAndDelete script b =
  (concat (filter (fun c => c <> b) cs) ++ tail, Z.of_nat (length (filter (fun c => c = b) cs))).
Proof.
  intros Hs E. pose proof (split_ops_spec (length script) script Hs ltac:(lia)) as H.
  unfold ops_of in E. rewrite E in H. destruct H as (-> & HF & Ht).
  rewrite FindAndDelete_nonempty by (by apply is_op_nonempty).
  rewrite find_and_delete_loop_spec; [done|done|done|].
  rewrite length_app. assert (length cs <= length (concat cs))%nat; [|lia].
  clear -HF. induction HF as [|c cs Hc HF IH]; [done|]. cbn [concat length]. rewrite length_app.
  assert (length c <> 0)%nat by (intros E%length_zero_iff_nil; by apply is_op_nonempty in Hc). lia.
Qed.
End FindDelete.

Lemma push_data_is_op v : Z.of_nat (length v) < 2 ^ 32 -> is_op (push_data v).
Proof. intros Hv. exists (push_opcode (Z.of_nat (length v))), v. intros k. by apply GetOp_push_data. Qed.

Lemma push_data_bytes v : bytes_ok v -> bytes_ok (push_data v).
Proof.
  intros Hv. unfold push_data. cbv zeta. apply digits_ok_app. split; [|done].
  assert (forall z, is_byte (u8 z)) as Hu by (intros; apply Z.mod_pos_bound; lia).
  repeat dmatch; repeat (apply Forall_cons; split); try apply Hu; try apply le_bytes_ok; try constructor;
    unfold OP_PUSHDATA1, OP_PUSHDATA2, OP_PUSHDATA4; lia.
Qed.

Lemma push_data_length v : (length (push_data v) <= 5 + length v)%nat.
Proof.
  unfold push_data. cbv zeta. rewrite length_app. repeat dmatch; cbn [length]; rewrite ?length_le_bytes; lia.
Qed.

(** ** Canonical pushes *)

Lemma canonical_push_data v : Z.of_nat (length v) < 2 ^ 32 ->
  (forall b, v = [b] -> 16 < b) ->
  canonical_push (push_opcode (Z.of_nat (length v))) v = true.
Proof.
  intros Hv H1. unfold canonical_push, push_opcode, OP_PUSHDATA1, OP_PUSHDATA2, OP_PUSHDATA4, OP_16, OP_0. cbv zeta.
  repeat dmatch; bprop; try done; try lia.
  destruct v as [|b [|c v]]; cbn [length nth] in *; try lia. specialize (H1 b eq_refl). lia.
Qed.

Lemma canonical_one pc opcode data : bytes_ok pc -> GetOp pc = Some (opcode, data, []) ->
  HasCanonicalPushes pc = canonical_push opcode data.
Proof.
  intros Hb H. unfold HasCanonicalPushes. cbn [canonical_loop]. destruct pc as [|x pc]; [done|].
  rewrite H. cbn [length canonical_loop]. by destruct (canonical_push opcode data).
Qed.

Section PushInt.
Context `{BN : OpenSSL_BN} `{BN_ok : !OpenSSL_BN_ok}.

Lemma log2_64 n : - 2 ^ 64 < n < 2 ^ 64 -> Z.log2 (Z.abs n) < 64.
Proof. intros. destruct (decide (n = 0)) as [->|]; [done|]. apply Z.log2_lt_pow2; lia. Qed.

Lemma getvch_len n : - 2 ^ 64 < n < 2 ^ 64 -> (length (getvch n) <= 9)%nat /\ bytes_ok (getvch n).
Proof.
  intros Hn. pose proof (log2_64 n Hn). rewrite getvch_body by lia.
  rewrite length_reverse, length_mpi_body. split; [|apply digits_ok_rev, mpi_body_ok].
  unfold mpi_len. destruct (n =? 0); [lia|]. pose proof (Z.log2_nonneg (Z.abs n)).
  assert ((Z.log2 (Z.abs n) + 1) / 8 <= 8) by (apply Z.div_le_upper_bound; lia). lia.
Qed.

(** A one-byte script number of 16 or less is one of 1 to 16. *)
Lemma getvch_one n b : - 2 ^ 63 <= n < 2 ^ 63 -> getvch n = [b] -> b <= 16 -> 1 <= n <= 16.
Proof.
  intros Hn E Hb. pose proof (log2_64 n ltac:(lia)) as HL.
  pose proof (setvch_getvch n ltac:(lia)) as Hr. destruct (getvch_len n ltac:(lia)) as [_ Hby].
  rewrite E in Hr, Hby. apply Forall_cons in Hby as [Hby _].
  rewrite setvch_val in Hr by (try (by apply digits_ok_one); cbn; lia).
  change (reverse [b]) with [b] in Hr. rewrite mpi_val_cons in Hr by (done || constructor).
  cbn in Hr. rewrite (proj2 (Z.ltb_lt b 128)) in Hr by lia.
  assert (n <> 0); [|lia]. intros ->. rewrite getvch_body in E by (cbn; lia). done.
Qed.

Lemma push_int64_spec n rest : - 2 ^ 63 <= n < 2 ^ 63 ->
  exists opcode data, GetOp (push_int64 n ++ rest) = Some (opcode, data, rest) /\
    canonical_push opcode data = true /\ opcode <= OP_16 /\
    (if opcode <=? OP_PUSHDATA4 then setvch data = n else opcode - (OP_1 - 1) = n).
Proof.
  intros Hn. unfold push_int64. destruct (_ || _)%bool eqn:E.
  - assert (n = -1 \/ 1 <= n <= 16) as Hs by (bprop; destruct E; bprop; lia).
    exists (n + 80), []. unfold OP_1, u8. rewrite Z.mod_small by lia.
    cbn [app GetOp]. change (81 - 1) with 80. unfold OP_PUSHDATA4, OP_16.
    rewrite (proj2 (Z.leb_gt (n + 80) 78)) by lia. split; [done|]. split; [|split; lia].
    unfold canonical_push, OP_16, OP_PUSHDATA1, OP_PUSHDATA2, OP_PUSHDATA4, OP_0. cbn [length nth]. cbv zeta.
    repeat dmatch; bprop; try done; try lia.
  - rewrite setint64_spec by done. destruct (getvch_len n ltac:(lia)) as [Hl Hb].
    pose proof (push_opcode_range (Z.of_nat (length (getvch n))) (Nat2Z.is_nonneg _)) as Hr.
    exists (push_opcode (Z.of_nat (length (getvch n)))), (getvch n). rewrite GetOp_push_data by lia. split; [done|].
    split; [|split; [unfold OP_PUSHDATA4, OP_16 in *; lia|]].
    + apply canonical_push_data; [lia|]. intros b Eb. destruct (Z.le_gt_cases b 16) as [Hle|]; [|lia].
      pose proof (getvch_one n b Hn Eb Hle). bprop. lia.
    + rewrite (proj2 (Z.leb_le _ OP_PUSHDATA4)) by lia. apply setvch_getvch.
      pose proof (log2_64 n ltac:(lia)). lia.
Qed.
End PushInt.

(** ** Signature operations *)

Lemma sigop_loop_bounds fuel pc lo na ni : bytes_ok pc -> (length pc < fuel)%nat ->
  0 <= na <= ni -> ni + 20 * Z.of_nat (length pc) < 2 ^ 32 ->
  sigop_loop fuel true pc lo na <= sigop_loop fuel false pc lo ni <= ni + 20 * Z.of_nat (length pc) /\
  na <= sigop_loop fuel true pc lo na.
Proof.
  intros Hb. revert fuel lo na ni. pattern pc. revert pc Hb. apply script_ind;
    [intros pc Hb H|intros pc o d rest Hb H Hl IH];
    intros fuel lo na ni Hf Hn Hlim; (destruct fuel as [|fuel]; [lia|]); cbn [sigop_loop].
  - rewrite H. destruct pc; cbn [length] in *; lia.
  - rewrite H. destruct pc as [|x pc]; [done|]. cbn [length] in Hf, Hl, Hlim.
    assert (Hd : OP_1 <= lo -> lo <= OP_16 -> 1 <= DecodeOP_N lo <= 16).
    { unfold DecodeOP_N, OP_0, OP_1, OP_16. intros. rewrite (proj2 (Z.eqb_neq lo 0)); lia. }
    assert (na <= sigop_step true lo o na /\ 0 <= sigop_step true lo o na <= sigop_step false lo o ni /\
      sigop_step false lo o ni <= ni + 20) as (H1 & H2 & H3).
    { unfold sigop_step. cbn [andb]. repeat dmatch; bprop; rewrite ?u32_small by lia; lia. }
    specialize (IH fuel o _ _ ltac:(lia) H2 ltac:(lia)). cbn [length]. lia.
Qed.

(** ** Pay-to-script-hash *)

Lemma list_split_23 (s : list Z) : length s = 23%nat ->
  s = nth 0 s 0 :: nth 1 s 0 :: take 20 (drop 2 s) ++ [nth 22 s 0].
Proof.
  intros Hl. do 23 (destruct s as [|? s]; [discriminate|]). destruct s; [reflexivity|discriminate].
Qed.

Lemma IsPayToScriptHash_spec script : bytes_ok script ->
  IsPayToScriptHash script = true <-> exists h, uint_ok 5 h /\ script = SetDestination (CScriptID h).
Proof.
  intros Hb. unfold IsPayToScriptHash. split.
  - intros H. bprop. rename select (length _ = _) into Hl. pose proof (list_split_23 script Hl) as E.
    set (body := take 20 (drop 2 script)) in *.
    assert (Hbl : length body = 20%nat) by (unfold body; rewrite length_take, length_drop; lia).
    assert (Hbb : bytes_ok body) by (by apply Forall_take, Forall_drop).
    exists (words_of_bytes body). destruct (uval_words_of_bytes 5 body Hbl Hbb) as [Hok _]. split; [done|].
    assert (Hub : uint_bytes (words_of_bytes body) = body).
    { destruct Hok as [Hlw Hdw]. apply (undigits_inj 256); [lia|apply uint_bytes_ok|done| |].
      - rewrite length_uint_bytes, Hlw. lia.
      - rewrite uint_bytes_val by done. by apply (uval_words_of_bytes 5). }
    cbn [SetDestination]. unfold push_uint. rewrite Hub, Hbl. rewrite E. cbn [app].
    repeat match goal with Hx : nth _ script 0 = _ |- _ => rewrite Hx; clear Hx end. done.
  - intros (h & [Hl Hd] & ->). assert (Hn : length (uint_bytes h) = 20%nat) by (rewrite length_uint_bytes, Hl; lia).
    cbn [SetDestination]. unfold push_uint. rewrite Hn. cbn [app nth].
    rewrite length_cons, length_cons, length_app, Hn.
    replace (nth 20 (uint_bytes h ++ [OP_EQUAL]) 0) with OP_EQUAL; [done|].
    rewrite app_nth2, Hn by lia. done.
Qed.

(** ** Properties *)

(** Writing then reading a script element: a vector of less than 2^32 bytes
    is read back with the shortest push opcode and the iterator right behind
    it; a 64-bit integer is read back as that number, by a push that
    [HasCanonicalPushes] accepts. *)
Theorem script_push_roundtrip `{BN_ok : OpenSSL_BN_ok} (v : valtype) (n : Z) (rest : CScript) :
  Z.of_nat (length v) < 2 ^ 32 -> - 2 ^ 63 <= n < 2 ^ 63 ->
  GetOp (push_data v ++ rest) = Some (push_opcode (Z.of_nat (length v)), v, rest) /\
  exists opcode data, GetOp (push_int64 n ++ rest) = Some (opcode, data, rest) /\
    canonical_push opcode data = true /\
    (if opcode <=? OP_PUSHDATA4 then setvch data = n else opcode - (OP_1 - 1) = n).
Proof.
  intros Hv Hn. split; [by apply GetOp_push_data|].
  destruct (push_int64_spec n rest Hn) as (o & d & H1 & H2 & _ & H3). by exists o, d.
Qed.

Lemma script_push_roundtrip_witness :
  GetOp (push_data (replicate 80 7) ++ [1]) = Some (OP_PUSHDATA1, replicate 80 7, [1]) /\
  exists d, GetOp (@push_int64 reference_BN (-300)) = Some (2, d, []) /\ @setvch reference_BN d = -300.
Proof.
  destruct (@script_push_roundtrip reference_BN reference_BN_ok (replicate 80 7) (-300) [1]) as [H _]; [cbn; lia|lia|].
  split; [exact H|].
  destruct (@script_push_roundtrip reference_BN reference_BN_ok [] (-300) []) as [_ (o & d & H1 & _ & H2)]; [cbn; lia|lia|].
  vm_compute in H1. injection H1 as <- <-. exists [0x2c; 0x81]. split; [vm_compute; reflexivity|exact H2].
Defined.

(** [FindAndDelete] of one instruction [b] removes exactly the instructions
    of the script that are [b], wherever they stand, leaves every other byte
    (operands that contain [b] and an unreadable tail included) and counts them. *)
Theorem FindAndDelete_exact (script b : CScript) cs tail :
  bytes_ok script -> is_op b -> ops_of script = (cs, tail) ->
  script = concat cs ++ tail /\
  FindAndDelete script b =
    (concat (filter (fun c => c <> b) cs) ++ tail, Z.of_nat (length (filter (fun c => c = b) cs))).
Proof.
  intros Hs Hb E. split; [|by apply FindAndDelete_ops].
  pose proof (split_ops_spec (length script) script Hs ltac:(lia)) as H. unfold ops_of in E. rewrite E in H. tauto.
Qed.

Lemma FindAndDelete_exact_witness :
  FindAndDelete [2; 1; 7; 1; 7; 1; 7; OP_DUP] (push_data [7]) = ([2; 1; 7; OP_DUP], 2).
Proof.
  destruct (FindAndDelete_exact [2; 1; 7; 1; 7; 1; 7; OP_DUP] (push_data [7])
    [[2; 1; 7]; [1; 7]; [1; 7]; [OP_DUP]] []) as [_ H].
  - by apply bytes_okb_spec.
  - apply push_data_is_op. cbn. lia.
  - reflexivity.
  - exact H.
Defined.

(** Signature-operation counting: the accurate count never exceeds the
    legacy one, which is at most 20 per byte of script, and no count wraps
    around for a script of less than 2^27 bytes. *)
Theorem GetSigOpCount_bounds (script : CScript) :
  bytes_ok script -> Z.of_nat (length script) < 2 ^ 27 ->
  0 <= GetSigOpCount true script <= GetSigOpCount false script /\
  GetSigOpCount false script <= 20 * Z.of_nat (length script).
Proof.
  intros Hb Hl. unfold GetSigOpCount.
  pose proof (sigop_loop_bounds (S (length script)) script OP_INVALIDOPCODE 0 0 Hb ltac:(lia)). lia.
Qed.

Lemma GetSigOpCount_bounds_witness : GetSigOpCount true [0x52; OP_CHECKMULTISIG] <= 20 * 2.
Proof.
  destruct (GetSigOpCount_bounds [0x52; OP_CHECKMULTISIG]) as [[_ H1] H2]; [by apply bytes_okb_spec|cbn; lia|].
  eapply Z.le_trans; [exact H1|exact H2].
Defined.

(** The byte test [IsPayToScriptHash] recognises exactly the scripts that
    [SetDestination] writes for a script id. *)
Theorem IsPayToScriptHash_exact (script : CScript) : bytes_ok script ->
  IsPayToScriptHash script = true <-> exists h, uint_ok 5 h /\ script = SetDestination (CScriptID h).
Proof. apply IsPayToScriptHash_spec. Qed.

Lemma IsPayToScriptHash_exact_witness :
  IsPayToScriptHash (SetDestination (CScriptID [1; 2; 3; 4; 5])) = true.
Proof.
  apply (IsPayToScriptHash_exact (SetDestination (CScriptID [1; 2; 3; 4; 5]))).
  - by apply bytes_okb_spec.
  - exists [1; 2; 3; 4; 5]. split; [|reflexivity]. split; [reflexivity|].
    repeat (apply Forall_cons; split; [lia|]). constructor.
Defined.
