(* ===== verification/Interp.v ===== *)
(** * The script interpreter (src/src/script.cpp)

    [EvalScript] as a loop over an explicit state; an operation either
    continues with a new state or stops with the state it had when the C++ code
    returns false or throws (callers can observe the stack of a failed run).
    The switch is cut into one definition per group of opcodes.  Signature
    checking is a parameter that threads a state of its own, so that the same
    interpreter runs with and without the signature cache. *)

From S2P Require Import Prelude Uint256 Serialize BigNum Tx Script.

(** ** Casts *)

Definition vchFalse : valtype := [].
Definition vchTrue : valtype := [1].
Definition vch_of_bool (b : bool) : valtype := if b then vchTrue else vchFalse.

Definition nMaxNumSize : nat := 4.

(** [CastToBool]: any non-zero byte, except a last byte 0x80 (negative zero). *)
Fixpoint CastToBool (vch : valtype) : bool :=
  match vch with
  | [] => false
  | b :: vch' =>
      if negb (b =? 0) then
        match vch' with [] => negb (b =? 0x80) | _ => true end
      else CastToBool vch'
  end.

Section Cast.
Context `{BN : OpenSSL_BN}.

(** [None]: the overflow exception. *)
Definition CastToBigNum (vch : valtype) : option Z :=
  if (nMaxNumSize <? length vch)%nat then None else Some (setvch (getvch (setvch vch))).
End Cast.

(** ** Canonical keys and signatures *)

Definition IsCanonicalPubKey (vchPubKey : valtype) : bool :=
  if (length vchPubKey <? 33)%nat then false
  else if nth 0 vchPubKey 0 =? 0x04 then (length vchPubKey =? 65)%nat
  else if ((nth 0 vchPubKey 0 =? 0x02) || (nth 0 vchPubKey 0 =? 0x03))%bool then (length vchPubKey =? 33)%nat
  else false.

Definition SIGHASH_ALL : Z := 1.
Definition SIGHASH_NONE : Z := 2.
Definition SIGHASH_SINGLE : Z := 3.
Definition SIGHASH_ANYONECANPAY : Z := 0x80.

Definition IsCanonicalSignature (vchSig : valtype) : bool :=
  let size := Z.of_nat (length vchSig) in
  let at_ i := nth (Z.to_nat i) vchSig 0 in
  if size <? 9 then false
  else if 73 <? size then false
  else
    let nHashType := Z.land (at_ (size - 1)) (u8 (Z.lnot SIGHASH_ANYONECANPAY)) in
    if ((nHashType <? SIGHASH_ALL) || (SIGHASH_SINGLE <? nHashType))%bool then false
    else if negb (at_ 0 =? 0x30) then false
    else if negb (at_ 1 =? size - 3) then false
    else
      let nLenR := at_ 3 in
      if size <=? 5 + nLenR then false
      else
        let nLenS := at_ (5 + nLenR) in
        if negb (nLenR + nLenS + 7 =? size) then false
        else if negb (at_ (4 - 2) =? 0x02) then false
        else if nLenR =? 0 then false
        else if negb (Z.land (at_ 4) 0x80 =? 0) then false
        else if ((1 <? nLenR) && (at_ 4 =? 0) && (Z.land (at_ 5) 0x80 =? 0))%bool then false
        else if negb (at_ (6 + nLenR - 2) =? 0x02) then false
        else if nLenS =? 0 then false
        else if negb (Z.land (at_ (6 + nLenR)) 0x80 =? 0) then false
        else if ((1 <? nLenS) && (at_ (6 + nLenR) =? 0) && (Z.land (at_ (7 + nLenR)) 0x80 =? 0))%bool then false
        else negb (32 <? nLenS).

(** ** State *)

(** Stacks have their top at the head; [vfExec] has its back at the head;
    [codehash] is the script from [pbegincodehash] to its end. *)
Record istate := mkState {
  stack : list valtype; altstack : list valtype; vfExec : list bool;
  codehash : CScript; nOpCount : Z;
}.

Definition set_stack (st : istate) (s : list valtype) : istate :=
  mkState s (altstack st) (vfExec st) (codehash st) (nOpCount st).
Definition set_altstack (st : istate) (s : list valtype) : istate :=
  mkState (stack st) s (vfExec st) (codehash st) (nOpCount st).
Definition set_vfExec (st : istate) (v : list bool) : istate :=
  mkState (stack st) (altstack st) v (codehash st) (nOpCount st).
Definition set_codehash (st : istate) (c : CScript) : istate :=
  mkState (stack st) (altstack st) (vfExec st) c (nOpCount st).
Definition set_nOpCount (st : istate) (n : Z) : istate :=
  mkState (stack st) (altstack st) (vfExec st) (codehash st) n.

Inductive outcome := Cont (st : istate) | Stop (st : istate).

Definition state_of (o : outcome) : istate := match o with Cont st | Stop st => st end.

(** ** The opcodes, by group *)

Section Ops.
Context `{BN : OpenSSL_BN} `{HD : Digests}.

(** [bn.getvch()] for a machine integer. *)
Definition vch_of_int (n : Z) : valtype := getvch n.

(** OP_IF and OP_NOTIF, executed also in a branch that is not taken. *)
Definition op_if (fExec fNot : bool) (st : istate) : outcome :=
  if fExec then
    match stack st with
    | vch :: s =>
        let fValue := CastToBool vch in
        let fValue := if fNot then negb fValue else fValue in
        Cont (set_vfExec (set_stack st s) (fValue :: vfExec st))
    | [] => Stop st
    end
  else Cont (set_vfExec st (false :: vfExec st)).

Definition op_control (fExec : bool) (opcode : Z) (st : istate) : outcome :=
  if opcode =? OP_IF then op_if fExec false st
  else if opcode =? OP_NOTIF then op_if fExec true st
  else if opcode =? OP_ELSE then
    match vfExec st with v :: vs => Cont (set_vfExec st (negb v :: vs)) | [] => Stop st end
  else if opcode =? OP_ENDIF then
    match vfExec st with _ :: vs => Cont (set_vfExec st vs) | [] => Stop st end
  else if opcode =? OP_VERIFY then
    match stack st with
    | v :: s => if CastToBool v then Cont (set_stack st s) else Stop st
    | [] => Stop st
    end
  else if opcode =? OP_RETURN then Stop st
  else Stop st.

(** OP_PICK and OP_ROLL. *)
Definition op_pick (fRoll : bool) (st : istate) : outcome :=
  match stack st with
  | v :: x :: s' =>
      match CastToBigNum v with
      | None => Stop st
      | Some bn =>
          let n := getint bn in
          let s := x :: s' in
          let st := set_stack st s in
          if ((n <? 0) || (Z.of_nat (length s) <=? n))%bool then Stop st
          else
            let vch := nth (Z.to_nat n) s [] in
            let s := if fRoll then take (Z.to_nat n) s ++ drop (S (Z.to_nat n)) s else s in
            Cont (set_stack st (vch :: s))
      end
  | _ => Stop st
  end.

Definition op_stack (opcode : Z) (st : istate) : outcome :=
  let s := stack st in
  let ok s := Cont (set_stack st s) in
  if opcode =? OP_TOALTSTACK then
    match s with x :: s => Cont (set_altstack (set_stack st s) (x :: altstack st)) | _ => Stop st end
  else if opcode =? OP_FROMALTSTACK then
    match altstack st with x :: a => Cont (set_altstack (set_stack st (x :: s)) a) | _ => Stop st end
  else if opcode =? OP_2DROP then match s with _ :: _ :: s => ok s | _ => Stop st end
  else if opcode =? OP_2DUP then match s with x2 :: x1 :: _ => ok (x2 :: x1 :: s) | _ => Stop st end
  else if opcode =? OP_3DUP then match s with x3 :: x2 :: x1 :: _ => ok (x3 :: x2 :: x1 :: s) | _ => Stop st end
  else if opcode =? OP_2OVER then
    match s with _ :: _ :: x2 :: x1 :: _ => ok (x2 :: x1 :: s) | _ => Stop st end
  else if opcode =? OP_2ROT then
    match s with x6 :: x5 :: x4 :: x3 :: x2 :: x1 :: s => ok (x2 :: x1 :: x6 :: x5 :: x4 :: x3 :: s) | _ => Stop st end
  else if opcode =? OP_2SWAP then
    match s with x4 :: x3 :: x2 :: x1 :: s => ok (x2 :: x1 :: x4 :: x3 :: s) | _ => Stop st end
  else if opcode =? OP_IFDUP then
    match s with x :: _ => if CastToBool x then ok (x :: s) else ok s | _ => Stop st end
  else if opcode =? OP_DEPTH then ok (vch_of_int (Z.of_nat (length s)) :: s)
  else if opcode =? OP_DROP then match s with _ :: s => ok s | _ => Stop st end
  else if opcode =? OP_DUP then match s with x :: _ => ok (x :: s) | _ => Stop st end
  else if opcode =? OP_NIP then match s with x2 :: _ :: s => ok (x2 :: s) | _ => Stop st end
  else if opcode =? OP_OVER then match s with _ :: x1 :: _ => ok (x1 :: s) | _ => Stop st end
  else if opcode =? OP_PICK then op_pick false st
  else if opcode =? OP_ROLL then op_pick true st
  else if opcode =? OP_ROT then match s with x3 :: x2 :: x1 :: s => ok (x1 :: x3 :: x2 :: s) | _ => Stop st end
  else if opcode =? OP_SWAP then match s with x2 :: x1 :: s => ok (x1 :: x2 :: s) | _ => Stop st end
  else if opcode =? OP_TUCK then match s with x2 :: x1 :: s => ok (x2 :: x1 :: x2 :: s) | _ => Stop st end
  else if opcode =? OP_SIZE then
    match s with x :: _ => ok (vch_of_int (Z.of_nat (length x)) :: s) | _ => Stop st end
  else Stop st.

(** The comparisons that push a boolean and, in their VERIFY form, pop it again. *)
Definition push_verify (st : istate) (s : list valtype) (fVerify : bool) (v : valtype) (fOk : bool) : outcome :=
  if fVerify then (if fOk then Cont (set_stack st s) else Stop (set_stack st (v :: s)))
  else Cont (set_stack st (v :: s)).

Definition op_equal (opcode : Z) (st : istate) : outcome :=
  match stack st with
  | vch2 :: vch1 :: s =>
      let fEqual := bool_decide (vch1 = vch2) in
      push_verify st s (opcode =? OP_EQUALVERIFY) (vch_of_bool fEqual) fEqual
  | _ => Stop st
  end.

Definition op_unary (opcode : Z) (st : istate) : outcome :=
  match stack st with
  | x :: s =>
      match CastToBigNum x with
      | None => Stop st
      | Some bn =>
          let bn :=
            if opcode =? OP_1ADD then bn + 1
            else if opcode =? OP_1SUB then bn - 1
            else if opcode =? OP_NEGATE then - bn
            else if opcode =? OP_ABS then (if bn <? 0 then - bn else bn)
            else if opcode =? OP_NOT then Z.b2z (bn =? 0)
            else Z.b2z (negb (bn =? 0)) in
          Cont (set_stack st (getvch bn :: s))
      end
  | [] => Stop st
  end.

Definition op_binary (opcode : Z) (st : istate) : outcome :=
  match stack st with
  | x2 :: x1 :: s =>
      match CastToBigNum x1, CastToBigNum x2 with
      | Some bn1, Some bn2 =>
          let bn :=
            if opcode =? OP_ADD then bn1 + bn2
            else if opcode =? OP_SUB then bn1 - bn2
            else if opcode =? OP_BOOLAND then Z.b2z (negb (bn1 =? 0) && negb (bn2 =? 0))
            else if opcode =? OP_BOOLOR then Z.b2z (negb (bn1 =? 0) || negb (bn2 =? 0))
            else if opcode =? OP_NUMEQUAL then Z.b2z (bn1 =? bn2)
            else if opcode =? OP_NUMEQUALVERIFY then Z.b2z (bn1 =? bn2)
            else if opcode =? OP_NUMNOTEQUAL then Z.b2z (negb (bn1 =? bn2))
            else if opcode =? OP_LESSTHAN then Z.b2z (bn1 <? bn2)
            else if opcode =? OP_GREATERTHAN then Z.b2z (bn2 <? bn1)
            else if opcode =? OP_LESSTHANOREQUAL then Z.b2z (bn1 <=? bn2)
            else if opcode =? OP_GREATERTHANOREQUAL then Z.b2z (bn2 <=? bn1)
            else if opcode =? OP_MIN then (if bn1 <? bn2 then bn1 else bn2)
            else (if bn2 <? bn1 then bn1 else bn2) in
          push_verify st s (opcode =? OP_NUMEQUALVERIFY) (getvch bn) (CastToBool (getvch bn))
      | _, _ => Stop st
      end
  | _ => Stop st
  end.

Definition op_within (st : istate) : outcome :=
  match stack st with
  | x3 :: x2 :: x1 :: s =>
      match CastToBigNum x1, CastToBigNum x2, CastToBigNum x3 with
      | Some bn1, Some bn2, Some bn3 =>
          Cont (set_stack st (vch_of_bool ((bn2 <=? bn1) && (bn1 <? bn3)) :: s))
      | _, _, _ => Stop st
      end
  | _ => Stop st
  end.

Definition op_hash (opcode : Z) (st : istate) : outcome :=
  match stack st with
  | vch :: s =>
      let vchHash :=
        if opcode =? OP_RIPEMD160 then RIPEMD160 vch
        else if opcode =? OP_SHA1 then SHA1 vch
        else if opcode =? OP_SHA256 then SHA256 vch
        else if opcode =? OP_HASH160 then uint_bytes (Hash160 vch)
        else uint_bytes (Hash vch) in
      Cont (set_stack st (vchHash :: s))
  | [] => Stop st
  end.
End Ops.

(** ** Signature checking and the main loop *)

Definition disabled (opcode : Z) : bool :=
  existsb (Z.eqb opcode)
    [OP_CAT; OP_SUBSTR; OP_LEFT; OP_RIGHT; OP_INVERT; OP_AND; OP_OR; OP_XOR; OP_2MUL; OP_2DIV;
     OP_MUL; OP_DIV; OP_MOD; OP_LSHIFT; OP_RSHIFT].

Section Eval.
Context `{BN : OpenSSL_BN} `{HD : Digests}.
(** The state the checker threads, and [CheckSig] for a fixed transaction,
    input and hash type. *)
Context {W : Type} (CheckSigW : valtype -> valtype -> CScript -> W -> bool * W).

Definition op_checksig (opcode : Z) (st : istate) (w : W) : outcome * W :=
  match stack st with
  | vchPubKey :: vchSig :: s =>
      let scriptCode := fst (FindAndDelete (codehash st) (push_data vchSig)) in
      let fCanonicalSignature := IsCanonicalSignature vchSig in
      let fCanonicalPubKey := IsCanonicalPubKey vchPubKey in
      let '(fCheckSig, w) := CheckSigW vchSig vchPubKey scriptCode w in
      let fSuccess := (fCanonicalSignature && fCanonicalPubKey && fCheckSig)%bool in
      (push_verify st s (opcode =? OP_CHECKSIGVERIFY) (vch_of_bool fSuccess) fSuccess, w)
  | _ => (Stop st, w)
  end.

(** [while (fSuccess && nSigsCount > 0)]; [isig] and [ikey] index the stack
    from its top, starting at 1. *)
Fixpoint multisig_loop (fuel : nat) (s : list valtype) (scriptCode : CScript)
    (isig ikey : nat) (nSigsCount nKeysCount : nat) (w : W) : bool * W :=
  match fuel with
  | O => (true, w)
  | S fuel =>
      if (0 <? nSigsCount)%nat then
        let vchSig := nth (isig - 1) s [] in
        let vchPubKey := nth (ikey - 1) s [] in
        let '(fOk, w) :=
          if (IsCanonicalSignature vchSig && IsCanonicalPubKey vchPubKey)%bool
          then CheckSigW vchSig vchPubKey scriptCode w else (false, w) in
        let isig := if fOk then S isig else isig in
        let nSigsCount := if fOk then (nSigsCount - 1)%nat else nSigsCount in
        let nKeysCount := (nKeysCount - 1)%nat in
        if (nKeysCount <? nSigsCount)%nat then (false, w)
        else multisig_loop fuel s scriptCode isig (S ikey) nSigsCount nKeysCount w
      else (true, w)
  end.

Definition op_checkmultisig (opcode : Z) (st : istate) (w : W) : outcome * W :=
  let s := stack st in
  if (length s <? 1)%nat then (Stop st, w)
  else
    match CastToBigNum (nth 0 s []) with
    | None => (Stop st, w)
    | Some bn =>
        let nKeysCount := getint bn in
        if ((nKeysCount <? 0) || (20 <? nKeysCount))%bool then (Stop st, w)
        else
          let st := set_nOpCount st (nOpCount st + nKeysCount) in
          if 201 <? nOpCount st then (Stop st, w)
          else
            let nKeys := Z.to_nat nKeysCount in
            let ikey := 2%nat in
            let i := (2 + nKeys)%nat in
            if (length s <? i)%nat then (Stop st, w)
            else
              match CastToBigNum (nth (i - 1) s []) with
              | None => (Stop st, w)
              | Some bn =>
                  let nSigsCount := getint bn in
                  if ((nSigsCount <? 0) || (nKeysCount <? nSigsCount))%bool then (Stop st, w)
                  else
                    let nSigs := Z.to_nat nSigsCount in
                    let isig := (i + 1)%nat in
                    let i := (isig + nSigs)%nat in
                    if (length s <? i)%nat then (Stop st, w)
                    else
                      let scriptCode :=
                        fold_left (fun sc k => fst (FindAndDelete sc (push_data (nth (isig + k - 1) s []))))
                          (seq 0 nSigs) (codehash st) in
                      let '(fSuccess, w) := multisig_loop (S nKeys) s scriptCode isig ikey nSigs nKeys w in
                      (push_verify st (drop i s) (opcode =? OP_CHECKMULTISIGVERIFY) (vch_of_bool fSuccess) fSuccess, w)
              end
    end.

(** The switch.  [pc] is the iterator behind the instruction.  The cases of
    the disabled opcodes are not reachable: [eval_step] rejects them first. *)
Definition eval_op (fExec : bool) (opcode : Z) (pc : CScript) (st : istate) (w : W) : outcome * W :=
  if ((opcode =? OP_1NEGATE) || ((OP_1 <=? opcode) && (opcode <=? OP_16)))%bool then
    (Cont (set_stack st (vch_of_int (opcode - (OP_1 - 1)) :: stack st)), w)
  else if ((opcode =? OP_NOP) || ((OP_NOP1 <=? opcode) && (opcode <=? OP_NOP10)))%bool then (Cont st, w)
  else if ((OP_IF <=? opcode) && (opcode <=? OP_RETURN))%bool then (op_control fExec opcode st, w)
  else if (((OP_TOALTSTACK <=? opcode) && (opcode <=? OP_TUCK)) || (opcode =? OP_SIZE))%bool then (op_stack opcode st, w)
  else if ((opcode =? OP_EQUAL) || (opcode =? OP_EQUALVERIFY))%bool then (op_equal opcode st, w)
  else if ((opcode =? OP_1ADD) || (opcode =? OP_1SUB) || ((OP_NEGATE <=? opcode) && (opcode <=? OP_0NOTEQUAL)))%bool then
    (op_unary opcode st, w)
  else if ((opcode =? OP_ADD) || (opcode =? OP_SUB) || ((OP_BOOLAND <=? opcode) && (opcode <=? OP_MAX)))%bool then
    (op_binary opcode st, w)
  else if opcode =? OP_WITHIN then (op_within st, w)
  else if ((OP_RIPEMD160 <=? opcode) && (opcode <=? OP_HASH256))%bool then (op_hash opcode st, w)
  else if opcode =? OP_CODESEPARATOR then (Cont (set_codehash st pc), w)
  else if ((opcode =? OP_CHECKSIG) || (opcode =? OP_CHECKSIGVERIFY))%bool then op_checksig opcode st w
  else if ((opcode =? OP_CHECKMULTISIG) || (opcode =? OP_CHECKMULTISIGVERIFY))%bool then op_checkmultisig opcode st w
  else (Stop st, w).

(** Push the operand, run the switch, or skip the instruction. *)
Definition eval_instr (fExec : bool) (opcode : Z) (vchPushValue : valtype) (pc : CScript) (st : istate) (w : W) : outcome * W :=
  if (fExec && (0 <=? opcode) && (opcode <=? OP_PUSHDATA4))%bool
  then (Cont (set_stack st (vchPushValue :: stack st)), w)
  else if (fExec || ((OP_IF <=? opcode) && (opcode <=? OP_ENDIF)))%bool
  then eval_op fExec opcode pc st w
  else (Cont st, w).

(** One turn of the loop, after the instruction was read. *)
Definition eval_step (opcode : Z) (vchPushValue : valtype) (pc : CScript) (st : istate) (w : W) : outcome * W :=
  let fExec := forallb (fun b => b) (vfExec st) in
  if (520 <? length vchPushValue)%nat then (Stop st, w)
  else
    let st := if OP_16 <? opcode then set_nOpCount st (nOpCount st + 1) else st in
    if ((OP_16 <? opcode) && (201 <? nOpCount st))%bool then (Stop st, w)
    else if disabled opcode then (Stop st, w)
    else
      match eval_instr fExec opcode vchPushValue pc st w with
      | (Stop st, w) => (Stop st, w)
      | (Cont st, w) =>
          if (1000 <? length (stack st) + length (altstack st))%nat then (Stop st, w) else (Cont st, w)
      end.

Fixpoint eval_loop (fuel : nat) (pc : CScript) (st : istate) (w : W) : outcome * W :=
  match fuel with
  | O => (Stop st, w)
  | S fuel =>
      match pc with
      | [] => (if match vfExec st with [] => true | _ => false end then Cont st else Stop st, w)
      | _ =>
          match GetOp pc with
          | None => (Stop st, w)
          | Some (opcode, vchPushValue, pc) =>
              match eval_step opcode vchPushValue pc st w with
              | (Stop st, w) => (Stop st, w)
              | (Cont st, w) => eval_loop fuel pc st w
              end
          end
      end
  end.

(** The result, the stack as the caller sees it, and the checker's state.
    Each instruction takes a byte at least, so the length bounds the turns. *)
Definition EvalScript (s : list valtype) (script : CScript) (w : W) : bool * list valtype * W :=
  if 10000 <? Z.of_nat (length script) then (false, s, w)
  else
    match eval_loop (S (length script)) script (mkState s [] [] script 0) w with
    | (Cont st, w) => (true, stack st, w)
    | (Stop st, w) => (false, stack st, w)
    end.

Definition VerifyScript (scriptSig scriptPubKey : CScript) (w : W) : bool * W :=
  let '(ok, s, w) := EvalScript [] scriptSig w in
  if negb ok then (false, w)
  else
    let stackCopy := s in
    let '(ok, s, w) := EvalScript s scriptPubKey w in
    if negb ok then (false, w)
    else
      match s with
      | [] => (false, w)
      | top :: _ =>
          if negb (CastToBool top) then (false, w)
          else if IsPayToScriptHash scriptPubKey then
            if negb (IsPushOnly scriptSig) then (false, w)
            else
              match stackCopy with
              | [] => (false, w)
              | pubKey2 :: stackCopy =>
                  let '(ok, s, w) := EvalScript stackCopy pubKey2 w in
                  if negb ok then (false, w)
                  else match s with [] => (false, w) | top :: _ => (CastToBool top, w) end
              end
          else (true, w)
      end.
End Eval.

(** ** The hash a signature signs *)

Section SigHash.
Context `{HD : Digests}.

Definition blank_sigs (scriptCode : CScript) (nIn : nat) (vi : list CTxIn) : list CTxIn :=
  imap (fun i txin => mkTxIn (prevout txin) (if (i =? nIn)%nat then scriptCode else []) (nSequence txin)) vi.

(** Let the others update at will. *)
Definition blank_seqs (nIn : nat) (vi : list CTxIn) : list CTxIn :=
  imap (fun i txin => mkTxIn (prevout txin) (scriptSig txin) (if (i =? nIn)%nat then nSequence txin else 0)) vi.

Definition CTxOut_null : CTxOut := mkTxOut (-1) [].

(** The copy of the transaction that is hashed; [None] is the error value one. *)
Definition sighash_tx (scriptCode : CScript) (txTo : CTransaction) (nIn : nat) (nHashType : Z) : option CTransaction :=
  let scriptCode := fst (FindAndDelete scriptCode [OP_CODESEPARATOR]) in
  let vi := blank_sigs scriptCode nIn (vin txTo) in
  let mk vi vo := mkTx (tx_nVersion txTo) (tx_nTime txTo) vi vo (nLockTime txTo) in
  let r :=
    if Z.land nHashType 0x1f =? SIGHASH_NONE then Some (blank_seqs nIn vi, [])
    else if Z.land nHashType 0x1f =? SIGHASH_SINGLE then
      if (length (vout txTo) <=? nIn)%nat then None
      else Some (blank_seqs nIn vi, replicate nIn CTxOut_null ++ take 1 (drop nIn (vout txTo)))
    else Some (vi, vout txTo) in
  match r with
  | None => None
  | Some (vi, vo) =>
      let vi := if negb (Z.land nHashType SIGHASH_ANYONECANPAY =? 0) then take 1 (drop nIn vi) else vi in
      Some (mk vi vo)
  end.

Definition SignatureHash (scriptCode : CScript) (txTo : CTransaction) (nIn : nat) (nHashType : Z) : uint256 :=
  if (length (vin txTo) <=? nIn)%nat then of_uint64 8 1
  else
    match sighash_tx scriptCode txTo nIn nHashType with
    | None => of_uint64 8 1
    | Some txTmp => Hash (enc CTransaction_codec txTmp ++ le_bytes 4 nHashType)
    end.
End SigHash.

(** ** CheckSig and the signature cache *)

(** OpenSSL's public-key parsing and ECDSA verification, on the raw key. *)
Class ECDSA := {
  o2i_ECPublicKey : valtype -> bool;
  ECDSA_verify : uint256 -> valtype -> valtype -> bool;
}.

(** The key of the cache and its order: hash, signature, public key. *)
Definition sigdata : Type := uint256 * valtype * valtype.

Fixpoint vec_lt (a b : list Z) : bool :=
  match a, b with
  | _, [] => false
  | [], _ => true
  | x :: a, y :: b => if x <? y then true else if y <? x then false else vec_lt a b
  end.

Definition sigdata_lt (a b : sigdata) : bool :=
  let '(h1, s1, k1) := a in
  let '(h2, s2, k2) := b in
  if op_lt h1 h2 then true else if op_lt h2 h1 then false
  else if vec_lt s1 s2 then true else if vec_lt s2 s1 then false
  else vec_lt k1 k2.

Section CheckSig.
Context `{HD : Digests} `{EC : ECDSA}.
(** The successive values of [GetRandHash]. *)
Context (GetRandHash : nat -> uint256).
Context (txTo : CTransaction) (nIn : nat).

(** The part before the cache: the hash type byte. *)
Definition sig_split (vchSig : valtype) (nHashType : Z) : option (valtype * Z) :=
  match last vchSig with
  | None => None
  | Some t =>
      if nHashType =? 0 then Some (removelast vchSig, t)
      else if negb (nHashType =? t) then None
      else Some (removelast vchSig, nHashType)
  end.

(** [CheckSig] as it would be without the cache. *)
Definition CheckSig_pure (nHashType : Z) (vchSig vchPubKey : valtype) (scriptCode : CScript) (_ : unit) : bool * unit :=
  match sig_split vchSig nHashType with
  | None => (false, tt)
  | Some (vchSig, nHashType) =>
      let sighash := SignatureHash scriptCode txTo nIn nHashType in
      ((o2i_ECPublicKey vchPubKey && ECDSA_verify sighash vchSig vchPubKey)%bool, tt)
  end.

(** [CSignatureCache]: the entries in the order of the C++ set, the
    configured size, and how many random hashes were drawn. *)
Record CSignatureCache := mkCache { setValid : list sigdata; nMaxCacheSize : Z; nDrawn : nat }.

Definition cache_Get (c : CSignatureCache) (k : sigdata) : bool := bool_decide (k ∈ setValid c).

(** The entry [lower_bound] finds for a random hash, or the first one. *)
Definition evict_index (entries : list sigdata) (randomHash : uint256) : nat :=
  match list_find (fun e => sigdata_lt e (randomHash, [], []) = false) entries with
  | Some (i, _) => i
  | None => 0%nat
  end.

Fixpoint evict_loop (fuel : nat) (entries : list sigdata) (nMax : Z) (n : nat) : list sigdata * nat :=
  match fuel with
  | O => (entries, n)
  | S fuel =>
      if nMax <? Z.of_nat (length entries)
      then evict_loop fuel (delete (evict_index entries (GetRandHash n)) entries) nMax (S n)
      else (entries, n)
  end.

(** [std::set::insert]: in order, and nothing if it is there already. *)
Fixpoint set_insert (k : sigdata) (entries : list sigdata) : list sigdata :=
  match entries with
  | [] => [k]
  | e :: es =>
      if sigdata_lt k e then k :: entries
      else if sigdata_lt e k then e :: set_insert k es
      else entries
  end.

Definition cache_Set (c : CSignatureCache) (k : sigdata) : CSignatureCache :=
  if nMaxCacheSize c <=? 0 then c
  else
    let '(entries, n) := evict_loop (length (setValid c)) (setValid c) (nMaxCacheSize c) (nDrawn c) in
    mkCache (set_insert k entries) (nMaxCacheSize c) n.

Definition CheckSig (nHashType : Z) (vchSig vchPubKey : valtype) (scriptCode : CScript) (c : CSignatureCache)
    : bool * CSignatureCache :=
  match sig_split vchSig nHashType with
  | None => (false, c)
  | Some (vchSig, nHashType) =>
      let sighash := SignatureHash scriptCode txTo nIn nHashType in
      if cache_Get c (sighash, vchSig, vchPubKey) then (true, c)
      else if negb (o2i_ECPublicKey vchPubKey) then (false, c)
      else if negb (ECDSA_verify sighash vchSig vchPubKey) then (false, c)
      else (true, cache_Set c (sighash, vchSig, vchPubKey))
  end.
End CheckSig.

Definition VerifySignature `{OpenSSL_BN} `{Digests} `{ECDSA} (GetRandHash : nat -> uint256)
    (txFrom txTo : CTransaction) (nIn : nat) (nHashType : Z) (c : CSignatureCache) : bool * CSignatureCache :=
  match vin txTo !! nIn with
  | None => (false, c)
  | Some txin =>
      if Z.of_nat (length (vout txFrom)) <=? out_n (prevout txin) then (false, c)
      else
        match vout txFrom !! Z.to_nat (out_n (prevout txin)) with
        | None => (false, c)
        | Some txout =>
            if op_ne (out_hash (prevout txin)) (CTransaction_GetHash txFrom) then (false, c)
            else VerifyScript (CheckSig GetRandHash txTo nIn nHashType) (scriptSig txin) (scriptPubKey txout) c
        end
  end.

(** ** Two checkers that agree run every script alike *)

Section Simulation.
Context `{BN : OpenSSL_BN} `{HD : Digests}.
Context {W1 W2 : Type} (C1 : valtype -> valtype -> CScript -> W1 -> bool * W1)
        (C2 : valtype -> valtype -> CScript -> W2 -> bool * W2).
Context (R : W1 -> W2 -> Prop).

(** Same answer, related states. *)
Definition agree {A} (r1 : A * W1) (r2 : A * W2) : Prop := fst r1 = fst r2 /\ R (snd r1) (snd r2).

Context (HC : forall sg k sc w1 w2, R w1 w2 -> agree (C1 sg k sc w1) (C2 sg k sc w2)).

Lemma agree_ret {A} (a : A) w1 w2 : R w1 w2 -> agree (a, w1) (a, w2).
Proof. by split. Qed.

Lemma op_checksig_agree opcode st w1 w2 : R w1 w2 ->
  agree (op_checksig C1 opcode st w1) (op_checksig C2 opcode st w2).
Proof.
  intros HR. unfold op_checksig. destruct (stack st) as [|k [|sg s]]; try by apply agree_ret.
  pose proof (HC sg k (fst (FindAndDelete (codehash st) (push_data sg))) w1 w2 HR) as HH.
  destruct (C1 sg k _ w1) as [b1 w1'], (C2 sg k _ w2) as [b2 w2']. destruct HH as [E HR'].
  cbn [fst snd] in *. subst b2. by apply agree_ret.
Qed.

Lemma multisig_loop_agree fuel s sc isig ikey ns nk w1 w2 : R w1 w2 ->
  agree (multisig_loop C1 fuel s sc isig ikey ns nk w1) (multisig_loop C2 fuel s sc isig ikey ns nk w2).
Proof.
  revert isig ikey ns nk w1 w2. induction fuel as [|fuel IH]; intros isig ikey ns nk w1 w2 HR; [by apply agree_ret|].
  cbn [multisig_loop]. destruct (0 <? ns)%nat; [|by apply agree_ret]. set (sg := nth (isig - 1) s []). set (k := nth (ikey - 1) s []).
  assert (agree (if (IsCanonicalSignature sg && IsCanonicalPubKey k)%bool then C1 sg k sc w1 else (false, w1))
                (if (IsCanonicalSignature sg && IsCanonicalPubKey k)%bool then C2 sg k sc w2 else (false, w2))) as HH.
  { destruct (_ && _)%bool; [by apply HC|by apply agree_ret]. }
  match type of HH with agree ?a ?b => destruct a as [b1 w1'], b as [b2 w2'] end.
  destruct HH as [E HR']. cbn [fst snd] in *. subst b2. destruct (_ <? _)%nat; [by apply agree_ret|]. by apply IH.
Qed.

Lemma op_checkmultisig_agree opcode st w1 w2 : R w1 w2 ->
  agree (op_checkmultisig C1 opcode st w1) (op_checkmultisig C2 opcode st w2).
Proof.
  intros HR. unfold op_checkmultisig. cbv zeta.
  repeat (match goal with
    | |- agree (if ?b then _ else _) _ => destruct b
    | |- agree (match ?o with Some _ => _ | None => _ end) _ => destruct o
    end; try by apply agree_ret).
  match goal with |- agree (let '(_, _) := multisig_loop _ ?f ?s ?sc ?i ?k ?ns ?nk _ in _) _ =>
    pose proof (multisig_loop_agree f s sc i k ns nk w1 w2 HR) as HH end.
  destruct (multisig_loop C1 _ _ _ _ _ _ _ w1) as [b1 w1'], (multisig_loop C2 _ _ _ _ _ _ _ w2) as [b2 w2'].
  destruct HH as [E HR']. cbn [fst snd] in *. subst b2. by apply agree_ret.
Qed.

Lemma eval_op_agree fExec opcode pc st w1 w2 : R w1 w2 ->
  agree (eval_op C1 fExec opcode pc st w1) (eval_op C2 fExec opcode pc st w2).
Proof.
  intros HR. unfold eval_op.
  repeat match goal with |- agree (if ?b then _ else _) _ => destruct b end;
    first [by apply agree_ret | by apply op_checksig_agree | by apply op_checkmultisig_agree].
Qed.

Lemma eval_instr_agree fExec opcode v pc st w1 w2 : R w1 w2 ->
  agree (eval_instr C1 fExec opcode v pc st w1) (eval_instr C2 fExec opcode v pc st w2).
Proof.
  intros HR. unfold eval_instr. destruct (_ && _)%bool; [by apply agree_ret|].
  destruct (_ || _)%bool; [by apply eval_op_agree|by apply agree_ret].
Qed.

Lemma eval_step_agree opcode v pc st w1 w2 : R w1 w2 ->
  agree (eval_step C1 opcode v pc st w1) (eval_step C2 opcode v pc st w2).
Proof.
  intros HR. unfold eval_step. cbv zeta.
  do 3 (match goal with |- agree (if ?b then _ else _) _ => destruct b end; [by apply agree_ret|]).
  match goal with |- agree (match eval_instr C1 ?f _ _ _ ?st1 _ with _ => _ end) _ =>
    pose proof (eval_instr_agree f opcode v pc st1 w1 w2 HR) as HH;
    destruct (eval_instr C1 f opcode v pc st1 w1) as [o1 w1'], (eval_instr C2 f opcode v pc st1 w2) as [o2 w2'] end.
  destruct HH as [E HR']. cbn [fst snd] in *. subst o2. destruct o1; [|by apply agree_ret].
  destruct (_ <? _)%nat; by apply agree_ret.
Qed.

Lemma eval_loop_agree fuel pc st w1 w2 : R w1 w2 ->
  agree (eval_loop C1 fuel pc st w1) (eval_loop C2 fuel pc st w2).
Proof.
  revert pc st w1 w2. induction fuel as [|fuel IH]; intros pc st w1 w2 HR; [by apply agree_ret|].
  cbn [eval_loop]. destruct pc as [|x pc]; [by apply agree_ret|].
  destruct (GetOp (x :: pc)) as [[[o v] rest]|]; [|by apply agree_ret].
  pose proof (eval_step_agree o v rest st w1 w2 HR) as HH.
  destruct (eval_step C1 o v rest st w1) as [o1 w1'], (eval_step C2 o v rest st w2) as [o2 w2'].
  destruct HH as [E HR']. cbn [fst snd] in *. subst o2. destruct o1; [by apply IH|by apply agree_ret].
Qed.

Lemma EvalScript_agree s script w1 w2 : R w1 w2 ->
  agree (EvalScript C1 s script w1) (EvalScript C2 s script w2).
Proof.
  intros HR. unfold EvalScript. destruct (_ <? _); [by apply agree_ret|].
  pose proof (eval_loop_agree (S (length script)) script (mkState s [] [] script 0) w1 w2 HR) as HH.
  destruct (eval_loop C1 _ _ _ w1) as [o1 w1'], (eval_loop C2 _ _ _ w2) as [o2 w2'].
  destruct HH as [E HR']. cbn [fst snd] in *. subst o2. destruct o1; by apply agree_ret.
Qed.

(** Run one more script in both and continue with the common result. *)
Ltac eval_both s script HR :=
  let HH := fresh in pose proof (EvalScript_agree s script _ _ HR) as HH;
  destruct (EvalScript C1 s script _) as [[? ?] ?], (EvalScript C2 s script _) as [[? ?] ?];
  destruct HH as [[= <- <-] ?]; cbn [snd] in *.

Lemma VerifyScript_agree scriptSig scriptPubKey w1 w2 : R w1 w2 ->
  agree (VerifyScript C1 scriptSig scriptPubKey w1) (VerifyScript C2 scriptSig scriptPubKey w2).
Proof.
  intros HR. unfold VerifyScript. eval_both (@nil valtype) scriptSig HR.
  destruct (negb b); [by apply agree_ret|]. eval_both l scriptPubKey H0.
  destruct (negb b0); [by apply agree_ret|]. destruct l0 as [|top l0]; [by apply agree_ret|].
  destruct (negb (CastToBool top)); [by apply agree_ret|].
  destruct (IsPayToScriptHash scriptPubKey); [|by apply agree_ret].
  destruct (negb (IsPushOnly scriptSig)); [by apply agree_ret|].
  destruct l as [|pubKey2 l]; [by apply agree_ret|]. eval_both l pubKey2 H1.
  destruct (negb b1); [by apply agree_ret|]. destruct l1; by apply agree_ret.
Qed.
End Simulation.

(** ** The cache *)

Section Cache.
Context `{HD : Digests} `{EC : ECDSA} (GetRandHash : nat -> uint256).

(** Every entry is a signature that verifies. *)
Definition entry_valid (e : sigdata) : Prop :=
  let '(h, sg, k) := e in o2i_ECPublicKey k = true /\ ECDSA_verify h sg k = true.
Definition cache_valid (c : CSignatureCache) : Prop := Forall entry_valid (setValid c).

Lemma evict_loop_valid fuel entries nMax n : Forall entry_valid entries ->
  Forall entry_valid (fst (evict_loop GetRandHash fuel entries nMax n)).
Proof.
  revert entries n. induction fuel as [|fuel IH]; intros entries n HF; [done|]. cbn [evict_loop].
  destruct (_ <? _); [|done]. apply IH. by apply Forall_delete.
Qed.

Lemma evict_loop_length fuel entries nMax n : 0 < nMax -> (length entries <= fuel)%nat ->
  Z.of_nat (length (fst (evict_loop GetRandHash fuel entries nMax n))) <= Z.max nMax 0 /\
  (length (fst (evict_loop GetRandHash fuel entries nMax n)) <= length entries)%nat.
Proof.
  intros Hm. revert entries n. induction fuel as [|fuel IH]; intros entries n Hf.
  - cbn [evict_loop fst]. lia.
  - cbn [evict_loop]. destruct (Z.ltb_spec nMax (Z.of_nat (length entries))) as [Hgt|]; [|cbn [fst]; lia].
    assert (Hi : (evict_index entries (GetRandHash n) < length entries)%nat).
    { unfold evict_index. destruct (list_find _ entries) as [[i e]|] eqn:E; [|lia].
      apply list_find_Some in E as [E _]. by apply lookup_lt_Some in E. }
    assert (Hd : length (delete (evict_index entries (GetRandHash n)) entries) = (length entries - 1)%nat).
    { destruct (lookup_lt_is_Some_2 _ _ Hi) as [x Hx]. by apply length_delete. }
    destruct (IH (delete (evict_index entries (GetRandHash n)) entries) (S n) ltac:(lia)). lia.
Qed.

Lemma set_insert_valid k es : entry_valid k -> Forall entry_valid es -> Forall entry_valid (set_insert k es).
Proof.
  intros Hk HF. induction HF as [|e es He HF IH]; cbn [set_insert]; [by apply Forall_singleton|].
  repeat destruct (sigdata_lt _ _); repeat (apply Forall_cons; split); done.
Qed.

Lemma set_insert_length k es : (length (set_insert k es) <= S (length es))%nat.
Proof. induction es as [|e es IH]; cbn [set_insert]; repeat destruct (sigdata_lt _ _); cbn [length]; lia. Qed.

Lemma cache_Set_valid c k : cache_valid c -> entry_valid k -> cache_valid (cache_Set GetRandHash c k).
Proof.
  intros Hc Hk. unfold cache_Set. destruct (_ <=? 0); [done|].
  pose proof (evict_loop_valid (length (setValid c)) (setValid c) (nMaxCacheSize c) (nDrawn c) Hc) as HV.
  destruct (evict_loop _ _ _ _ _) as [es n]. by apply set_insert_valid.
Qed.

(** The cache never holds more than one entry above the configured size. *)
Lemma cache_Set_bound c k : Z.of_nat (length (setValid c)) <= Z.max (nMaxCacheSize c) 0 + 1 ->
  nMaxCacheSize (cache_Set GetRandHash c k) = nMaxCacheSize c /\
  Z.of_nat (length (setValid (cache_Set GetRandHash c k))) <= Z.max (nMaxCacheSize c) 0 + 1.
Proof.
  intros Hb. unfold cache_Set. destruct (Z.leb_spec (nMaxCacheSize c) 0); [done|].
  pose proof (evict_loop_length (length (setValid c)) (setValid c) (nMaxCacheSize c) (nDrawn c) ltac:(lia) ltac:(lia)) as HL.
  destruct (evict_loop _ _ _ _ _) as [es n]. cbn [fst nMaxCacheSize setValid] in *.
  split; [done|]. pose proof (set_insert_length k es). lia.
Qed.

Lemma CheckSig_agree txTo nIn nHashType sg k sc c u : cache_valid c ->
  agree (fun c _ => cache_valid c) (CheckSig GetRandHash txTo nIn nHashType sg k sc c)
    (CheckSig_pure txTo nIn nHashType sg k sc u).
Proof.
  intros Hc. unfold CheckSig, CheckSig_pure. destruct (sig_split sg nHashType) as [[sg' t]|]; [|by split].
  set (h := SignatureHash sc txTo nIn t). unfold cache_Get. case_bool_decide as Hin.
  - eapply Forall_forall in Hc as He; [|exact Hin]. destruct He as [-> ->]. by split.
  - destruct (o2i_ECPublicKey k) eqn:E1; cbn [negb andb]; [|by split].
    destruct (ECDSA_verify h sg' k) eqn:E2; cbn [negb]; [|by split].
    split; [done|]. cbn [snd]. by apply cache_Set_valid.
Qed.
End Cache.
