(* ===== verification/InterpFacts.v ===== *)
(** * What the script interpreter guarantees

    Theorems about [Interp]: greedy multisignature matching, the casts, the
    invariant on stack elements, the shape of a script that succeeds, and
    complete runs of standard scripts. *)

From S2P Require Import Prelude Uint256 Serialize BigNum Tx Script Interp.

(** ** CHECKMULTISIG matches signatures to keys in order *)

Section Multisig.
Context (ok : valtype -> valtype -> bool).

(** Try each key once, moving to the next signature when it fits. *)
Fixpoint greedy (sigs keys : list valtype) : bool :=
  match sigs, keys with
  | [], _ => true
  | _, [] => false
  | sg :: sigs', k :: keys' => greedy (if ok sg k then sigs' else sigs) keys'
  end.

Lemma greedy_short sigs keys : (length keys < length sigs)%nat -> greedy sigs keys = false.
Proof.
  revert sigs. induction keys as [|k keys IH]; intros [|sg sigs] Hl; cbn [length] in Hl; [lia|done|lia|].
  cbn [greedy]. apply IH. destruct (ok sg k); cbn [length]; lia.
Qed.

Lemma greedy_spec sigs keys :
  greedy sigs keys = true <-> exists ks, ks `sublist_of` keys /\ Forall2 (fun sg k => ok sg k = true) sigs ks.
Proof.
  revert sigs. induction keys as [|k keys IH]; intros [|sg sigs]; cbn [greedy].
  - split; [|done]. intros _. exists []. split; [done|constructor].
  - split; [done|]. intros (ks & Hs & HF). apply sublist_nil_r in Hs as ->. inversion HF.
  - split; [|done]. intros _. exists []. split; [apply sublist_nil_l|constructor].
  - destruct (ok sg k) eqn:E; rewrite IH; split.
    + intros (ks & Hs & HF). exists (k :: ks). split; [by apply sublist_skip|by constructor].
    + intros (ks & Hs & HF). inversion HF as [|? k1 ? ks1 Hk HF1]; subst.
      exists ks1. split; [|done]. apply sublist_cons_r in Hs as [Hs|(l & [= -> <-] & Hs)]; [|done].
      etrans; [|exact Hs]. by apply sublist_cons.
    + intros (ks & Hs & HF). exists ks. split; [by apply sublist_cons|done].
    + intros (ks & Hs & HF). inversion HF as [|? k1 ? ks1 Hk HF1]; subst.
      exists (k1 :: ks1). split; [|by constructor].
      apply sublist_cons_r in Hs as [Hs|(l & [= -> <-] & Hs)]; [done|congruence].
Qed.
End Multisig.

(** A window of the stack, as a list. *)
Lemma window_cons (s : list valtype) i n : (i + S n <= length s)%nat ->
  take (S n) (drop i s) = nth i s [] :: take n (drop (S i) s).
Proof.
  intros Hl. destruct (lookup_lt_is_Some_2 s i ltac:(lia)) as [x Hx].
  rewrite (drop_S s x i Hx). cbn [take]. by rewrite (nth_lookup_Some s i [] x Hx).
Qed.

(** A checker without a state. *)
Definition stateless (chk : valtype -> valtype -> CScript -> bool) : valtype -> valtype -> CScript -> unit -> bool * unit :=
  fun sg k sc _ => (chk sg k sc, tt).

(** What a signature and a key must satisfy in CHECKSIG and CHECKMULTISIG. *)
Definition sig_ok (chk : valtype -> valtype -> CScript -> bool) (sc : CScript) (sg k : valtype) : bool :=
  (IsCanonicalSignature sg && IsCanonicalPubKey k && chk sg k sc)%bool.

Lemma multisig_loop_greedy chk fuel s sc isig ikey ns nk : (nk < fuel)%nat -> (ns <= nk)%nat ->
  (1 <= isig)%nat -> (1 <= ikey)%nat -> (isig - 1 + ns <= length s)%nat -> (ikey - 1 + nk <= length s)%nat ->
  multisig_loop (stateless chk) fuel s sc isig ikey ns nk tt =
  (greedy (sig_ok chk sc) (take ns (drop (isig - 1) s)) (take nk (drop (ikey - 1) s)), tt).
Proof.
  revert isig ikey ns nk. induction fuel as [|fuel IH]; intros isig ikey ns nk Hf Hle Hi1 Hk1 Hi Hk; [lia|].
  cbn [multisig_loop]. destruct ns as [|ns]; [by destruct (take nk _)|].
  destruct nk as [|nk]; [lia|]. rewrite (window_cons s (isig - 1) ns), (window_cons s (ikey - 1) nk) by lia.
  rewrite (proj2 (Nat.ltb_lt 0 (S ns))) by lia. cbn [greedy]. set (sg := nth (isig - 1) s []). set (k := nth (ikey - 1) s []).
  assert ((if (IsCanonicalSignature sg && IsCanonicalPubKey k)%bool then stateless chk sg k sc tt else (false, tt))
    = (sig_ok chk sc sg k, tt)) as ->.
  { unfold sig_ok, stateless. by destruct (_ && _)%bool. }
  replace (S nk - 1)%nat with nk by lia. replace (S (ikey - 1)) with (S ikey - 1)%nat by lia.
  replace (S (isig - 1)) with (S isig - 1)%nat by lia. replace (S ns - 1)%nat with ns by lia.
  destruct (sig_ok chk sc sg k) eqn:E.
  - rewrite (proj2 (Nat.ltb_ge nk ns)) by lia. by rewrite IH by lia.
  - destruct (Nat.ltb_spec nk (S ns)) as [Hlt|Hge].
    + rewrite greedy_short; [done|]. cbn [length]. rewrite !length_take, !length_drop. lia.
    + rewrite IH by lia. rewrite (window_cons s (isig - 1) ns) by lia.
      by replace (S (isig - 1)) with (S isig - 1)%nat by lia.
Qed.

(** ** Casts *)

Lemma CastToBool_snoc v c : CastToBool (v ++ [c]) =
  (existsb (fun b => negb (b =? 0)) v || (negb (c =? 0) && negb (c =? 0x80)))%bool.
Proof.
  induction v as [|b v IH].
  - cbn. by destruct (c =? 0).
  - cbn [app CastToBool existsb]. destruct (negb (b =? 0)); [|exact IH]. cbn [orb].
    destruct (v ++ [c]) eqn:E; [by destruct v|done].
Qed.

Lemma le_val_zero v : bytes_ok v -> (le_val v =? 0) = negb (existsb (fun b => negb (b =? 0)) v).
Proof.
  induction 1 as [|b v Hb Hv IH]; [done|]. cbn [undigits existsb]. pose proof (undigits_nonneg 256 ltac:(lia) v Hv).
  destruct (Z.eqb_spec b 0) as [->|Hne]; cbn [negb orb].
  - rewrite <- IH. destruct (Z.eqb_spec (le_val v) 0), (Z.eqb_spec (0 + 256 * le_val v) 0); lia.
  - apply Z.eqb_neq. lia.
Qed.

Section CastFacts.
Context `{BN : OpenSSL_BN} `{BN_ok : !OpenSSL_BN_ok}.

Lemma CastToBool_setvch v : bytes_ok v -> Z.of_nat (length v) < 2 ^ 31 -> CastToBool v = negb (setvch v =? 0).
Proof.
  intros Hb Hl. rewrite setvch_val by done. destruct v as [|c v _] using rev_ind; [done|].
  apply digits_ok_app in Hb as [Hv Hc]. apply Forall_cons in Hc as [Hc _].
  rewrite CastToBool_snoc, reverse_app. change (reverse [c] ++ reverse v) with (c :: reverse v).
  rewrite mpi_val_cons by (try apply digits_ok_rev; done). cbv zeta. rewrite reverse_involutive, length_reverse.
  pose proof (le_val_zero v Hv) as E0. pose proof (undigits_nonneg 256 ltac:(lia) v Hv) as H0.
  set (P := 256 ^ Z.of_nat (length v)). assert (0 < P) by (apply Z.pow_pos_nonneg; lia).
  destruct (existsb _ v); cbn [negb orb] in *.
  - apply Z.eqb_neq in E0. symmetry. apply negb_true_iff, Z.eqb_neq. destruct (Z.ltb_spec c 128); nia.
  - apply Z.eqb_eq in E0. rewrite E0.
    destruct (Z.ltb_spec c 128), (Z.eqb_spec c 0), (Z.eqb_spec c 128); cbn [negb andb]; try lia; symmetry;
      (apply negb_true_iff, Z.eqb_neq || apply negb_false_iff, Z.eqb_eq); nia.
Qed.

Lemma CastToBigNum_spec v bn : bytes_ok v -> CastToBigNum v = Some bn -> bn = setvch v /\ Z.abs bn < 2 ^ 31.
Proof.
  intros Hb. unfold CastToBigNum, nMaxNumSize. destruct (Nat.ltb_spec 4 (length v)); [done|]. intros [= <-].
  pose proof (setvch_range v 4 Hb ltac:(lia) ltac:(lia)) as Hr. change (8 * Z.of_nat 4 - 1) with 31 in Hr.
  assert (Z.log2 (Z.abs (setvch v)) < 64) by (apply log2_64; lia).
  rewrite setvch_getvch by lia. done.
Qed.

Lemma getvch_short n : Z.abs n < 2 ^ 31 -> (length (getvch n) <= 4)%nat.
Proof.
  intros Hn. pose proof (log2_64 n ltac:(lia)). rewrite getvch_body by lia.
  rewrite length_reverse, length_mpi_body. destruct (decide (n = 0)) as [->|Hne]; [cbn; lia|].
  destruct (mpi_len_pos n Hne) as (m & -> & Hlo & _). destruct (Nat.le_gt_cases m 3); [lia|].
  assert (2 ^ 31 <= 2 ^ (8 * Z.of_nat m - 1)) by (apply Z.pow_le_mono_r; lia). lia.
Qed.

Lemma CastToBigNum_getvch n : Z.abs n < 2 ^ 31 -> CastToBigNum (getvch n) = Some n.
Proof.
  intros Hn. unfold CastToBigNum, nMaxNumSize. pose proof (getvch_short n Hn).
  rewrite (proj2 (Nat.ltb_ge _ _)) by lia. pose proof (log2_64 n ltac:(lia)). by rewrite !setvch_getvch by (rewrite ?setvch_getvch; lia).
Qed.

Lemma getint_small n : Z.abs n < 2 ^ 31 -> getint n = n.
Proof.
  intros Hn. unfold getint, getulong, INT_MAX, INT_MIN. rewrite BN_get_word_spec.
  rewrite (proj2 (Z.ltb_lt (Z.abs n) (2 ^ 64))) by lia. repeat dmatch; bprop; try lia. rewrite s32_small; lia.
Qed.
End CastFacts.

(** ** What every stack element satisfies *)

Section Inv.
Context `{BN : OpenSSL_BN} `{BN_ok : !OpenSSL_BN_ok} `{HD : Digests} `{HDok : !Digests_ok}.
Context {W : Type} (CheckSigW : valtype -> valtype -> CScript -> W -> bool * W).

Definition elem_ok (v : valtype) : Prop := bytes_ok v /\ (length v <= 520)%nat.

(** Bytes, at most 520 of them, and at most 1000 elements on the two stacks. *)
Definition state_ok (st : istate) : Prop :=
  Forall elem_ok (stack st) /\ Forall elem_ok (altstack st) /\ (length (stack st) + length (altstack st) <= 1000)%nat.

(** The same without the bound: what holds in the middle of a turn. *)
Definition elems_ok (o : outcome) : Prop :=
  Forall elem_ok (stack (state_of o)) /\ Forall elem_ok (altstack (state_of o)).

Lemma elem_getvch n : - 2 ^ 64 < n < 2 ^ 64 -> elem_ok (getvch n).
Proof. intros Hn. destruct (getvch_len n Hn). split; [done|lia]. Qed.

Lemma elem_bool b : elem_ok (vch_of_bool b).
Proof. destruct b; split; [apply digits_ok_one; lia | cbn; lia | constructor | cbn; lia]. Qed.

Lemma elem_hash k l : length l = (4 * k)%nat -> bytes_ok l -> (k <= 8)%nat -> elem_ok (uint_bytes (words_of_bytes l)).
Proof.
  intros Hl Hb Hk. destruct (uval_words_of_bytes k l Hl Hb) as [[Hlw Hd] _].
  split; [apply uint_bytes_ok|]. rewrite length_uint_bytes, Hlw. lia.
Qed.

(** Solve [elems_ok] of a state built from parts of a good one. *)
Ltac elems :=
  unfold elems_ok; repeat case_match; simplify_eq;
  cbn [state_of stack altstack set_stack set_altstack set_vfExec set_codehash set_nOpCount] in *; simplify_eq;
  repeat match goal with H : Forall _ (_ :: _) |- _ => apply Forall_cons in H as [? ?] end;
  split; repeat (apply Forall_cons; split); try done;
  try apply elem_bool; try (apply elem_getvch; unfold Z.b2z; repeat case_match; lia).

Lemma push_verify_ok st s f v b : state_ok st -> Forall elem_ok s -> elem_ok v -> elems_ok (push_verify st s f v b).
Proof. intros (Hs & Ha & Hl) H1 H2. unfold push_verify. elems. Qed.

Lemma op_control_ok fExec opcode st : state_ok st -> elems_ok (op_control fExec opcode st).
Proof.
  destruct st as [s a v c n]. intros (Hs & Ha & Hl). unfold op_control, op_if. cbn [stack vfExec] in *.
  do 6 (destruct (opcode =? _); [elems|]). elems.
Qed.

Lemma op_pick_ok fRoll st : state_ok st -> elems_ok (op_pick fRoll st).
Proof.
  destruct st as [s a v c n]. intros (Hs & Ha & Hl). unfold op_pick. cbn [stack altstack] in *.
  destruct s as [|x [|y s]]; [elems|elems|]. destruct (CastToBigNum x) as [bn|]; [|elems].
  apply Forall_cons in Hs as [Hx Hs]. destruct (_ || _)%bool; [elems|].
  assert (He : elem_ok (nth (Z.to_nat (getint bn)) (y :: s) [])).
  { destruct (nth_in_or_default (Z.to_nat (getint bn)) (y :: s) []) as [Hin|E]; [|rewrite E].
    - apply list_elem_of_In in Hin. by eapply Forall_forall in Hs.
    - split; [constructor|cbn; lia]. }
  set (e := nth _ _ _) in *. set (ys := y :: s) in *. clearbody e ys.
  split; cbn [state_of stack altstack set_stack]; [|done]. apply Forall_cons. split; [done|].
  destruct fRoll; [|done]. apply Forall_app. split; [by apply Forall_take|by apply Forall_drop].
Qed.

Lemma op_stack_ok opcode st : state_ok st -> elems_ok (op_stack opcode st).
Proof.
  intros Hok. unfold op_stack. cbv zeta.
  assert (Hp : forall f, elems_ok (op_pick f st)) by (intros; by apply op_pick_ok).
  destruct st as [s a v c n]. destruct Hok as (Hs & Ha & Hl). cbn [stack altstack] in *. unfold vch_of_int.
  do 14 (destruct (opcode =? _); [elems|]). do 2 (destruct (opcode =? _); [apply Hp|]).
  do 3 (destruct (opcode =? _); [elems|]). destruct (opcode =? _); [|elems].
  destruct s as [|x s]; [elems|]. apply Forall_cons in Hs as [[Hxb Hxl] Hs]. elems.
Qed.

Lemma op_equal_ok opcode st : state_ok st -> elems_ok (op_equal opcode st).
Proof.
  intros Hok. unfold op_equal. assert (Hst : elems_ok (Stop st)) by (by destruct Hok as (? & ? & _); split).
  destruct (stack st) as [|x [|y s]] eqn:E; try done.
  apply push_verify_ok; [done| |apply elem_bool]. destruct Hok as (Hs & _). rewrite E in Hs.
  by do 2 apply Forall_cons in Hs as [_ Hs].
Qed.

Lemma op_unary_ok opcode st : state_ok st -> elems_ok (op_unary opcode st).
Proof.
  destruct st as [s a v c n]. intros (Hs & Ha & Hl). unfold op_unary. cbn [stack altstack] in *.
  destruct s as [|x s]; [elems|]. apply Forall_cons in Hs as [[Hxb Hxl] Hs].
  destruct (CastToBigNum x) as [bn|] eqn:E; [|split; [by apply Forall_cons|done]].
  destruct (CastToBigNum_spec x bn Hxb E) as [_ Hr]. cbv zeta.
  split; [|done]. cbn [state_of stack set_stack]. apply Forall_cons. split; [|done].
  apply elem_getvch. unfold Z.b2z. repeat case_match; lia.
Qed.

Lemma op_binary_ok opcode st : state_ok st -> elems_ok (op_binary opcode st).
Proof.
  intros Hok. unfold op_binary. assert (Hst : elems_ok (Stop st)) by (by destruct Hok as (? & ? & _); split).
  destruct (stack st) as [|x [|y s]] eqn:E; try done. pose proof Hok as (Hs & _). rewrite E in Hs.
  apply Forall_cons in Hs as [[Hx _] Hs]. apply Forall_cons in Hs as [[Hy _] Hs].
  destruct (CastToBigNum y) as [bn1|] eqn:E1; [|done]. destruct (CastToBigNum x) as [bn2|] eqn:E2; [|done].
  destruct (CastToBigNum_spec y bn1 Hy E1) as [_ H1]. destruct (CastToBigNum_spec x bn2 Hx E2) as [_ H2].
  cbv zeta. apply push_verify_ok; [done|done|]. apply elem_getvch. unfold Z.b2z. repeat case_match; lia.
Qed.

Lemma op_within_ok st : state_ok st -> elems_ok (op_within st).
Proof.
  intros (Hs & Ha & Hl). unfold op_within. destruct st as [s a v c n]. cbn [stack altstack] in *. elems.
Qed.

Lemma op_hash_ok opcode st : state_ok st -> elems_ok (op_hash opcode st).
Proof.
  destruct st as [s a v c n]. intros (Hs & Ha & Hl). unfold op_hash. cbn [stack altstack] in *.
  destruct s as [|x s]; [elems|]. apply Forall_cons in Hs as [Hx Hs]. cbv zeta. split; [|done].
  cbn [state_of stack set_stack]. apply Forall_cons. split; [|done].
  repeat case_match.
  - split; [apply RIPEMD160_bytes|rewrite RIPEMD160_len; lia].
  - split; [apply SHA1_bytes|rewrite SHA1_len; lia].
  - split; [apply SHA256_bytes|rewrite SHA256_len; lia].
  - apply (elem_hash 5); [apply RIPEMD160_len|apply RIPEMD160_bytes|lia].
  - apply (elem_hash 8); [apply SHA256_len|apply SHA256_bytes|lia].
Qed.

Lemma op_checksig_ok opcode st w : state_ok st -> elems_ok (fst (op_checksig CheckSigW opcode st w)).
Proof.
  intros Hok. unfold op_checksig. assert (Hst : elems_ok (Stop st)) by (by destruct Hok as (? & ? & _); split).
  destruct (stack st) as [|x [|y s]] eqn:E; try done. pose proof Hok as (Hs & _). rewrite E in Hs.
  do 2 apply Forall_cons in Hs as [_ Hs]. destruct (CheckSigW y x _ w) as [b w'].
  apply push_verify_ok; [done|done|apply elem_bool].
Qed.

Lemma op_checkmultisig_ok opcode st w : state_ok st -> elems_ok (fst (op_checkmultisig CheckSigW opcode st w)).
Proof.
  intros Hok. unfold op_checkmultisig. cbv zeta.
  assert (Hst : elems_ok (Stop st)) by (by destruct Hok as (? & ? & _); split).
  assert (Hst' : forall z, elems_ok (Stop (set_nOpCount st z))) by done.
  repeat (match goal with
    | |- elems_ok (fst (if ?b then _ else _)) => destruct b
    | |- elems_ok (fst (match ?o with Some _ => _ | None => _ end)) => destruct o
    end; try done).
  destruct (multisig_loop _ _ _ _ _ _ _ _ _) as [b w']. cbn [fst].
  apply push_verify_ok; [done| |apply elem_bool]. destruct Hok as (Hs & _). by apply Forall_drop.
Qed.

Lemma eval_op_ok fExec opcode pc st w : state_ok st -> elems_ok (fst (eval_op CheckSigW fExec opcode pc st w)).
Proof.
  intros Hok. unfold eval_op.
  repeat match goal with |- elems_ok (fst (if ?b then _ else _)) => destruct b eqn:? end; cbn [fst];
    first [by apply op_control_ok | by apply op_stack_ok | by apply op_equal_ok | by apply op_unary_ok
          | by apply op_binary_ok | by apply op_within_ok | by apply op_hash_ok | by apply op_checksig_ok
          | by apply op_checkmultisig_ok | idtac]; destruct Hok as (Hs & Ha & _); split; try done.
  cbn [state_of stack set_stack]. apply Forall_cons. split; [|done]. apply elem_getvch.
  unfold OP_1, OP_1NEGATE, OP_16 in *. bprop. intuition (bprop; lia).
Qed.

Lemma eval_instr_ok fExec opcode v pc st w : state_ok st -> elem_ok v ->
  elems_ok (fst (eval_instr CheckSigW fExec opcode v pc st w)).
Proof.
  intros Hok Hv. unfold eval_instr. pose proof Hok as (Hs & Ha & _). destruct (_ && _)%bool.
  - split; [|done]. cbn [fst state_of stack set_stack]. by apply Forall_cons.
  - destruct (_ || _)%bool; [by apply eval_op_ok|done].
Qed.

Lemma eval_step_ok opcode v pc st w : state_ok st -> bytes_ok v ->
  let '(o, _) := eval_step CheckSigW opcode v pc st w in
  elems_ok o /\ match o with Cont st' => state_ok st' | Stop _ => True end.
Proof.
  intros Hok Hv. unfold eval_step. cbv zeta.
  assert (Hst : forall z, state_ok (set_nOpCount st z)) by done.
  set (st1 := if OP_16 <? opcode then _ else _).
  assert (Hok1 : state_ok st1) by (subst st1; destruct (_ <? _); done). clearbody st1.
  assert (Hs1 : elems_ok (Stop st1)) by (by destruct Hok1 as (? & ? & _); split).
  destruct (Nat.ltb_spec 520 (length v)); [by destruct Hok as (? & ? & _)|].
  assert (Hv' : elem_ok v) by (by split; [|lia]).
  match goal with |- context [if ?c then (Stop st1, w) else _] => destruct c; [done|] end.
  destruct (disabled opcode); [done|].
  pose proof (eval_instr_ok (forallb (fun b => b) (vfExec st)) opcode v pc st1 w Hok1 Hv') as HH.
  destruct (eval_instr CheckSigW _ opcode v pc st1 w) as [o w']. cbn [fst] in HH.
  destruct o as [st2|st2]; [|done]. destruct (Nat.ltb_spec 1000 (length (stack st2) + length (altstack st2))); [done|].
  split; [done|]. destruct HH as [H1 H2]. split; [done|]. split; [done|lia].
Qed.

Lemma eval_loop_ok fuel pc st w : bytes_ok pc -> state_ok st ->
  let '(o, _) := eval_loop CheckSigW fuel pc st w in
  elems_ok o /\ match o with Cont st' => state_ok st' | Stop _ => True end.
Proof.
  revert pc st w. induction fuel as [|fuel IH]; intros pc st w Hb Hok; cbn [eval_loop].
  - by destruct Hok as (? & ? & _).
  - destruct pc as [|x pc]; [destruct (vfExec st); by destruct Hok as (? & ? & ?)|].
    destruct (GetOp (x :: pc)) as [[[o v] rest]|] eqn:E; [|by destruct Hok as (? & ? & _)].
    destruct (GetOp_length _ _ _ _ Hb E) as (_ & Hr & Hv).
    pose proof (eval_step_ok o v rest st w Hok Hv) as HS.
    destruct (eval_step CheckSigW o v rest st w) as [[st'|st'] w']; [|done]. apply IH; tauto.
Qed.
End Inv.

(** ** The shape of a script that succeeds *)

(** The opcodes of a script that can be read to its end. *)
Fixpoint opcodes (fuel : nat) (pc : CScript) : option (list Z) :=
  match fuel with
  | O => None
  | S fuel =>
      match pc with
      | [] => Some []
      | _ =>
          match GetOp pc with
          | None => None
          | Some (opcode, _, rest) => option_map (cons opcode) (opcodes fuel rest)
          end
      end
  end.

(** How an opcode changes the number of open conditionals. *)
Definition nest (opcode : Z) (d : nat) : option nat :=
  if ((opcode =? OP_IF) || (opcode =? OP_NOTIF))%bool then Some (S d)
  else if opcode =? OP_ELSE then match d with O => None | _ => Some d end
  else if opcode =? OP_ENDIF then match d with O => None | S d => Some d end
  else Some d.

Fixpoint nested (ops : list Z) (d : nat) : option nat :=
  match ops with
  | [] => Some d
  | o :: ops => match nest o d with Some d => nested ops d | None => None end
  end.

(** Opcodes that count against the limit of 201. *)
Definition counted (ops : list Z) : Z := Z.of_nat (length (filter (fun o => OP_16 < o) ops)).

Section Shape.
Context `{BN : OpenSSL_BN} `{HD : Digests}.
Context {W : Type} (CheckSigW : valtype -> valtype -> CScript -> W -> bool * W).

(** Conditionals untouched; operations counted, within the limit. *)
Definition keeps (st : istate) (o : outcome) : Prop :=
  match o with
  | Cont st' => vfExec st' = vfExec st /\ nOpCount st <= nOpCount st' /\
                (nOpCount st' = nOpCount st \/ nOpCount st' <= 201)
  | Stop _ => True
  end.

Ltac keeps_tac :=
  repeat case_match; cbn [keeps]; try exact I; cbn [vfExec nOpCount set_stack set_altstack set_codehash];
  (split; [done|]; split; [lia|by left]).

Lemma push_verify_keeps st s f v b : keeps st (push_verify st s f v b).
Proof. unfold push_verify. keeps_tac. Qed.

Lemma op_stack_keeps opcode st : keeps st (op_stack opcode st).
Proof.
  unfold op_stack, op_pick. cbv zeta. do 20 (destruct (opcode =? _); [keeps_tac|]). exact I.
Qed.

Lemma op_checkmultisig_keeps opcode st w : keeps st (fst (op_checkmultisig CheckSigW opcode st w)).
Proof.
  unfold op_checkmultisig. cbv zeta. destruct (_ <? 1)%nat; [exact I|].
  destruct (CastToBigNum _) as [bn|]; [|exact I].
  destruct (_ || _)%bool eqn:E1; [exact I|]. bprop. destruct (201 <? _) eqn:E2; [exact I|]. bprop.
  destruct (_ <? _)%nat; [exact I|]. destruct (CastToBigNum _); [|exact I].
  destruct (_ || _)%bool; [exact I|]. destruct (_ <? _)%nat; [exact I|].
  destruct (multisig_loop _ _ _ _ _ _ _ _ _) as [b w']. cbn [fst]. cbn [nOpCount set_nOpCount] in *.
  unfold push_verify. repeat case_match; cbn [keeps]; try exact I;
    cbn [vfExec nOpCount set_stack set_nOpCount]; (split; [done|]; split; [lia|right; lia]).
Qed.

Lemma op_checksig_keeps opcode st w : keeps st (fst (op_checksig CheckSigW opcode st w)).
Proof.
  unfold op_checksig. destruct (stack st) as [|k [|sg s]]; [exact I..|].
  destruct (CheckSigW _ _ _ _) as [b w']. apply push_verify_keeps.
Qed.

(** Conditionals change as [nest] says. *)
Definition nests (opcode : Z) (st : istate) (o : outcome) : Prop :=
  match o with
  | Cont st' => nest opcode (length (vfExec st)) = Some (length (vfExec st')) /\ nOpCount st <= nOpCount st' /\
                (nOpCount st' = nOpCount st \/ nOpCount st' <= 201)
  | Stop _ => True
  end.

Lemma keeps_nests opcode st o : (opcode < OP_IF \/ OP_ENDIF < opcode) -> keeps st o -> nests opcode st o.
Proof.
  intros Ho. destruct o as [st'|st']; [|done]. intros (E & H). split; [rewrite E; clear E H|exact H].
  unfold nest, OP_IF, OP_NOTIF, OP_ELSE, OP_ENDIF in *. repeat dmatch; bprop; try done; intuition (bprop; lia).
Qed.

Lemma op_control_nests fExec opcode st : OP_IF <= opcode -> nests opcode st (op_control fExec opcode st).
Proof.
  intros Ho. destruct st as [s a v c n]. unfold op_control, op_if, nests, nest. cbn [stack vfExec nOpCount].
  destruct (opcode =? OP_IF); [|destruct (opcode =? OP_NOTIF); [|destruct (opcode =? OP_ELSE); [|destruct (opcode =? OP_ENDIF)]]];
    cbn [orb]; destruct v as [|b v]; cbn [length]; repeat case_match; try exact I; simplify_eq;
    cbn [vfExec nOpCount set_vfExec set_stack length]; (split; [done|]; split; [lia|by left]).
Qed.

Lemma eval_op_nests fExec opcode pc st w : nests opcode st (fst (eval_op CheckSigW fExec opcode pc st w)).
Proof.
  assert (Hc : keeps st (Cont st)) by (split; [done|split; [lia|by left]]).
  unfold eval_op. repeat match goal with |- nests _ _ (fst (if ?b then _ else _)) => destruct b eqn:? end; cbn [fst].
  all: try exact I; try (apply op_control_nests; bprop; lia).
  all: apply keeps_nests;
    [unfold OP_1NEGATE, OP_1, OP_16, OP_NOP, OP_NOP1, OP_NOP10, OP_IF, OP_RETURN, OP_ENDIF, OP_TOALTSTACK, OP_TUCK,
       OP_SIZE, OP_EQUAL, OP_EQUALVERIFY, OP_1ADD, OP_1SUB, OP_NEGATE, OP_0NOTEQUAL, OP_ADD, OP_SUB, OP_BOOLAND,
       OP_MAX, OP_WITHIN, OP_RIPEMD160, OP_HASH256, OP_CODESEPARATOR, OP_CHECKSIG, OP_CHECKSIGVERIFY,
       OP_CHECKMULTISIG, OP_CHECKMULTISIGVERIFY in *; bprop; intuition (bprop; lia)|].
  all: try first [apply op_stack_keeps | apply op_checksig_keeps | apply op_checkmultisig_keeps | exact Hc
                 | unfold op_equal, op_unary, op_binary, op_within, op_hash; keeps_tac].
  all: unfold op_equal, op_binary; repeat case_match; try exact I; apply push_verify_keeps.
Qed.

Lemma eval_instr_nests fExec opcode v pc st w :
  nests opcode st (fst (eval_instr CheckSigW fExec opcode v pc st w)).
Proof.
  assert (Hc : keeps st (Cont st)) by (split; [done|split; [lia|by left]]).
  unfold eval_instr. destruct (_ && _)%bool eqn:E1.
  - apply keeps_nests; [bprop; unfold OP_PUSHDATA4, OP_IF in *; lia|]. split; [done|split; [cbn; lia|by left]].
  - destruct (_ || _)%bool eqn:E2; [apply eval_op_nests|]. bprop. apply keeps_nests; [|done].
    unfold OP_IF, OP_ENDIF in *. intuition (bprop; lia).
Qed.

Lemma eval_step_shape opcode v pc st w st' w' : eval_step CheckSigW opcode v pc st w = (Cont st', w') ->
  disabled opcode = false /\ nest opcode (length (vfExec st)) = Some (length (vfExec st')) /\
  nOpCount st + counted [opcode] <= nOpCount st' /\ (nOpCount st <= 201 -> nOpCount st' <= 201).
Proof.
  unfold eval_step. cbv zeta. destruct (_ <? _)%nat; [done|].
  assert (Hcnt : counted [opcode] = if OP_16 <? opcode then 1 else 0).
  { unfold counted. rewrite filter_cons. destruct (Z.ltb_spec OP_16 opcode); [rewrite decide_True|rewrite decide_False]; done || lia. }
  rewrite Hcnt. set (st1 := if OP_16 <? opcode then _ else _).
  assert (H1 : vfExec st1 = vfExec st /\ nOpCount st1 = nOpCount st + if OP_16 <? opcode then 1 else 0).
  { subst st1. destruct (OP_16 <? opcode); cbn; [done|split; [done|lia]]. }
  destruct H1 as [Hv1 Hn1].
  destruct ((OP_16 <? opcode) && (201 <? nOpCount st1))%bool eqn:E1; [done|].
  destruct (disabled opcode) eqn:E2; [done|].
  pose proof (eval_instr_nests (forallb (fun b => b) (vfExec st)) opcode v pc st1 w) as HN.
  destruct (eval_instr _ _ _ _ _ _ _) as [[st2|st2] w2]; [|done]. cbn [fst nests] in HN. rewrite Hv1 in HN.
  destruct (_ <? _)%nat; [done|]. intros [= <- <-]. destruct HN as (HN & Hle & Hor).
  split; [done|]. split; [done|]. clearbody st1. destruct (OP_16 <? opcode); bprop; intuition (bprop; lia).
Qed.

Lemma eval_loop_shape fuel pc st w st' w' : bytes_ok pc -> eval_loop CheckSigW fuel pc st w = (Cont st', w') ->
  nOpCount st <= 201 ->
  exists ops, opcodes fuel pc = Some ops /\ Forall (fun o => disabled o = false) ops /\
    nested ops (length (vfExec st)) = Some 0%nat /\ nOpCount st + counted ops <= 201.
Proof.
  revert pc st w. induction fuel as [|fuel IH]; intros pc st w Hb; cbn [eval_loop opcodes]; [done|].
  destruct pc as [|x pc].
  - destruct (vfExec st) eqn:E; [|done]. intros [= <- <-] Hn. exists []. split; [done|]. split; [constructor|].
    split; [done|]. change (counted []) with 0. lia.
  - destruct (GetOp (x :: pc)) as [[[o v] rest]|] eqn:E; [|done].
    destruct (GetOp_length _ _ _ _ Hb E) as (_ & Hr & _).
    destruct (eval_step CheckSigW o v rest st w) as [[st1|st1] w1] eqn:ES; [|done]. intros Hl Hn.
    destruct (eval_step_shape _ _ _ _ _ _ _ ES) as (Hd & Hnest & Hc & H201).
    destruct (IH rest st1 w1 Hr Hl ltac:(lia)) as (ops & -> & HF & HN & Hcnt).
    exists (o :: ops). cbn [option_map nested]. rewrite Hnest. split; [done|]. split; [by constructor|]. split; [done|].
    assert (counted (o :: ops) = counted [o] + counted ops) as ->; [|lia].
    unfold counted. change (o :: ops) with ([o] ++ ops). rewrite filter_app, length_app. lia.
Qed.
End Shape.

(** ** Running a script instruction by instruction *)

Lemma disabled_range o : disabled o = true -> OP_CAT <= o.
Proof.
  unfold disabled. rewrite existsb_exists. intros (y & Hy & E). apply Z.eqb_eq in E. subst y. apply Z.leb_le.
  assert (HF : forallb (Z.leb OP_CAT)
    [OP_CAT; OP_SUBSTR; OP_LEFT; OP_RIGHT; OP_INVERT; OP_AND; OP_OR; OP_XOR; OP_2MUL; OP_2DIV;
     OP_MUL; OP_DIV; OP_MOD; OP_LSHIFT; OP_RSHIFT] = true) by reflexivity.
  rewrite forallb_forall in HF. by apply HF.
Qed.

Section Run.
Context `{BN : OpenSSL_BN} `{HD : Digests}.
Context {W : Type} (CheckSigW : valtype -> valtype -> CScript -> W -> bool * W).

(** Any fuel above the length gives the same run: the loop never runs out. *)
Lemma eval_loop_fuel f1 f2 pc st w : bytes_ok pc -> (length pc < f1)%nat -> (length pc < f2)%nat ->
  eval_loop CheckSigW f1 pc st w = eval_loop CheckSigW f2 pc st w.
Proof.
  revert f2 pc st w. induction f1 as [|f1 IH]; intros f2 pc st w Hb H1 H2; [lia|]. destruct f2 as [|f2]; [lia|].
  cbn [eval_loop]. destruct pc as [|x pc]; [done|].
  destruct (GetOp (x :: pc)) as [[[o v] rest]|] eqn:E; [|done]. destruct (GetOp_length _ _ _ _ Hb E) as (Hl & Hr & _).
  destruct (eval_step CheckSigW o v rest st w) as [[st1|st1] w1]; [|done]. apply IH; [done|lia|lia].
Qed.

Definition eval_run (pc : CScript) (st : istate) (w : W) : outcome * W := eval_loop CheckSigW (S (length pc)) pc st w.

Lemma eval_run_op pc o v rest st w : bytes_ok pc -> GetOp pc = Some (o, v, rest) ->
  eval_run pc st w =
  match eval_step CheckSigW o v rest st w with
  | (Stop st, w) => (Stop st, w)
  | (Cont st, w) => eval_run rest st w
  end.
Proof.
  intros Hb E. unfold eval_run. destruct (GetOp_length _ _ _ _ Hb E) as (Hl & Hr & _).
  destruct pc as [|x pc]; [done|]. remember (S (length rest)) as m eqn:Em.
  remember (length (x :: pc)) as n eqn:En. cbn [eval_loop]. rewrite E.
  destruct (eval_step CheckSigW o v rest st w) as [[st1|st1] w1]; [|done]. apply eval_loop_fuel; [done|lia|lia].
Qed.

(** A push in an executed branch. *)
Lemma eval_step_push v pc st w : (length v <= 520)%nat -> vfExec st = [] ->
  eval_step CheckSigW (push_opcode (Z.of_nat (length v))) v pc st w =
  (if (1000 <? S (length (stack st)) + length (altstack st))%nat
   then Stop (set_stack st (v :: stack st)) else Cont (set_stack st (v :: stack st)), w).
Proof.
  intros Hl Hf. pose proof (push_opcode_range (Z.of_nat (length v)) (Nat2Z.is_nonneg _)) as Ho. set (o := push_opcode _) in *.
  unfold eval_step. rewrite Hf. cbn [forallb]. cbv zeta. rewrite (proj2 (Nat.ltb_ge 520 _)) by lia.
  rewrite (proj2 (Z.ltb_ge OP_16 o)) by (unfold OP_PUSHDATA4, OP_16 in *; lia). cbn [andb].
  assert (disabled o = false) as ->.
  { apply not_true_iff_false. intros H%disabled_range. unfold OP_PUSHDATA4, OP_CAT in *. lia. }
  unfold eval_instr. rewrite (proj2 (Z.leb_le 0 o)), (proj2 (Z.leb_le o OP_PUSHDATA4)) by lia. cbn [andb].
  cbn [stack altstack set_stack length]. by destruct (_ <? _)%nat.
Qed.

Lemma eval_run_push v rest st w : bytes_ok v -> bytes_ok rest -> (length v <= 520)%nat -> vfExec st = [] ->
  eval_run (push_data v ++ rest) st w =
  if (1000 <? S (length (stack st)) + length (altstack st))%nat then (Stop (set_stack st (v :: stack st)), w)
  else eval_run rest (set_stack st (v :: stack st)) w.
Proof.
  intros Hv Hr Hl Hf. assert (Hb : bytes_ok (push_data v ++ rest)).
  { apply digits_ok_app. split; [|done]. by apply push_data_bytes. }
  rewrite (eval_run_op _ _ _ _ _ _ Hb (GetOp_push_data v rest ltac:(lia))).
  rewrite eval_step_push by done. by destruct (_ <? _)%nat.
Qed.

Lemma eval_run_nil st w : vfExec st = [] -> eval_run [] st w = (Cont st, w).
Proof. intros E. unfold eval_run. cbn. by rewrite E. Qed.

Lemma EvalScript_run s script w : Z.of_nat (length script) <= 10000 ->
  EvalScript CheckSigW s script w =
  match eval_run script (mkState s [] [] script 0) w with
  | (Cont st, w) => (true, stack st, w)
  | (Stop st, w) => (false, stack st, w)
  end.
Proof. intros Hl. unfold EvalScript. by rewrite (proj2 (Z.ltb_ge 10000 _)) by lia. Qed.
End Run.
