(* ===== verification/InterpRun.v ===== *)
(** * Standard scripts, run to the end

    The main theorems about the interpreter, proved from [InterpFacts]. *)

From S2P Require Import Prelude Uint256 Serialize BigNum Tx Script Interp InterpFacts.

(** ** Pay to public key hash *)

Section P2PKH.
Context `{BN : OpenSSL_BN} `{HD : Digests} `{HDok : !Digests_ok}.
Context (chk : valtype -> valtype -> CScript -> bool).

Lemma uint_bytes_inj k a b : uint_ok k a -> uint_ok k b -> uint_bytes a = uint_bytes b -> a = b.
Proof.
  intros [La Da] [Lb Db] E. rewrite <- (words_of_uint_bytes a), <- (words_of_uint_bytes b) by done. by rewrite E.
Qed.

Lemma push_uint_data h : uint_ok 5 h -> push_uint h = push_data (uint_bytes h).
Proof.
  intros [Hl Hd]. unfold push_uint, push_data. cbv zeta. rewrite length_uint_bytes, Hl. reflexivity.
Qed.

(** Two pushes onto the empty stack. *)
Lemma run_two_pushes sg key w : elem_ok sg -> elem_ok key ->
  EvalScript (stateless chk) [] (push_data sg ++ push_data key) w = (true, [key; sg], w).
Proof.
  intros [Bs Ls] [Bk Lk]. pose proof (push_data_length sg). pose proof (push_data_length key).
  rewrite EvalScript_run by (rewrite length_app; lia).
  rewrite eval_run_push; [|done|by apply push_data_bytes|done|done]. cbn -[eval_run push_data].
  rewrite <- (app_nil_r (push_data key)).
  rewrite eval_run_push; [|done|constructor|done|done]. cbn -[eval_run]. by rewrite eval_run_nil.
Qed.

Lemma run_p2pkh sg key h w : elem_ok sg -> elem_ok key -> uint_ok 5 h ->
  let script := SetDestination (CKeyID h) in
  EvalScript (stateless chk) [key; sg] script w =
  if decide (Hash160 key = h)
  then (true, [vch_of_bool (sig_ok chk (fst (FindAndDelete script (push_data sg))) sg key)], w)
  else (false, [vchFalse; key; sg], w).
Proof.
  intros Hs Hk Hh script. destruct w. assert (Hlen : length script = 25%nat).
  { unfold script. cbn [SetDestination]. unfold push_uint. rewrite !length_app. cbn [length].
    destruct Hh as [Hl _]. rewrite length_uint_bytes, Hl. lia. }
  rewrite EvalScript_run by lia.
  assert (E : script = OP_DUP :: OP_HASH160 :: push_data (uint_bytes h) ++ [OP_EQUALVERIFY; OP_CHECKSIG]).
  { unfold script. cbn [SetDestination app]. by rewrite push_uint_data. }
  clearbody script.
  assert (Hub : bytes_ok (uint_bytes h)) by apply uint_bytes_ok.
  assert (Htail : bytes_ok [OP_EQUALVERIFY; OP_CHECKSIG]) by (by apply bytes_okb_spec).
  assert (Hmid : bytes_ok (push_data (uint_bytes h) ++ [OP_EQUALVERIFY; OP_CHECKSIG])).
  { apply digits_ok_app. split; [by apply push_data_bytes|done]. }
  assert (H2 : bytes_ok (OP_HASH160 :: push_data (uint_bytes h) ++ [OP_EQUALVERIFY; OP_CHECKSIG])).
  { apply Forall_cons. split; [unfold OP_HASH160; lia|done]. }
  assert (H1 : bytes_ok script) by (rewrite E; apply Forall_cons; split; [unfold OP_DUP; lia|done]).
  set (sc := fst (FindAndDelete script (push_data sg))).
  rewrite (eval_run_op _ script OP_DUP [] (OP_HASH160 :: push_data (uint_bytes h) ++ [OP_EQUALVERIFY; OP_CHECKSIG]))
    by (try done; rewrite E; done).
  change (eval_step _ OP_DUP [] _ _ tt) with (Cont (mkState [key; key; sg] [] [] script 1), tt). cbv iota beta.
  rewrite (eval_run_op _ _ OP_HASH160 [] (push_data (uint_bytes h) ++ [OP_EQUALVERIFY; OP_CHECKSIG])) by done.
  change (eval_step _ OP_HASH160 [] _ _ tt) with
    (Cont (mkState [uint_bytes (Hash160 key); key; sg] [] [] script 2), tt). cbv iota beta.
  rewrite eval_run_push; [|done|done|destruct Hh as [Hl _]; rewrite length_uint_bytes, Hl; lia|done].
  match goal with |- context [if ?c then (Stop _, tt) else _] => change c with false end.
  rewrite (eval_run_op _ _ OP_EQUALVERIFY [] [OP_CHECKSIG]) by done.
  case_decide as Eh.
  - subst h. assert (eval_step (stateless chk) OP_EQUALVERIFY [] [OP_CHECKSIG]
      (set_stack (mkState [uint_bytes (Hash160 key); key; sg] [] [] script 2)
        (uint_bytes (Hash160 key) :: stack (mkState [uint_bytes (Hash160 key); key; sg] [] [] script 2))) tt
      = (Cont (mkState [key; sg] [] [] script 3), tt)) as ->.
    { unfold eval_step. cbn -[Hash160 uint_bytes bool_decide]. by rewrite bool_decide_true by done. }
    rewrite (eval_run_op _ _ OP_CHECKSIG [] []) by (try done; by apply bytes_okb_spec).
    change (eval_step _ OP_CHECKSIG [] [] _ tt) with
      (Cont (mkState [vch_of_bool (sig_ok chk sc sg key)] [] [] script 4), tt). cbv iota beta.
    by rewrite eval_run_nil.
  - assert (eval_step (stateless chk) OP_EQUALVERIFY [] [OP_CHECKSIG]
      (set_stack (mkState [uint_bytes (Hash160 key); key; sg] [] [] script 2)
        (uint_bytes h :: stack (mkState [uint_bytes (Hash160 key); key; sg] [] [] script 2))) tt
      = (Stop (mkState [vchFalse; key; sg] [] [] script 3), tt)) as ->; [|done].
    unfold eval_step. cbn -[Hash160 uint_bytes bool_decide]. rewrite bool_decide_false; [done|].
    intros E'. apply Eh. apply (uint_bytes_inj 5); [apply Hash160_ok|done|done].
Qed.

Lemma verify_p2pkh sg key h : elem_ok sg -> elem_ok key -> uint_ok 5 h ->
  let script := SetDestination (CKeyID h) in
  VerifyScript (stateless chk) (push_data sg ++ push_data key) script tt =
  ((bool_decide (Hash160 key = h) && sig_ok chk (fst (FindAndDelete script (push_data sg))) sg key)%bool, tt).
Proof.
  intros Hs Hk Hh script. unfold VerifyScript. rewrite run_two_pushes by done. cbn [negb].
  unfold script. rewrite run_p2pkh by done. fold script. case_decide as E.
  - rewrite bool_decide_true by done. cbn [negb andb]. set (b := sig_ok _ _ _ _). clearbody b.
    assert (Hp : IsPayToScriptHash script = false).
    { unfold IsPayToScriptHash, script. cbn [SetDestination]. unfold push_uint. rewrite !length_app. cbn [length].
      destruct Hh as [Hl _]. by rewrite length_uint_bytes, Hl. }
    rewrite Hp. by destruct b.
  - by rewrite bool_decide_false.
Qed.
End P2PKH.

(** ** Pay to script hash *)

Section P2SH.
Context `{BN : OpenSSL_BN} `{HD : Digests} `{HDok : !Digests_ok}.
Context (chk : valtype -> valtype -> CScript -> bool).

Lemma run_p2sh s h : uint_ok 5 h -> (length s <= 1000)%nat ->
  EvalScript (stateless chk) s (SetDestination (CScriptID h)) tt =
  match s with
  | [] => (false, [], tt)
  | redeem :: st =>
      if (length st <? 999)%nat then (true, vch_of_bool (bool_decide (Hash160 redeem = h)) :: st, tt)
      else (false, uint_bytes h :: uint_bytes (Hash160 redeem) :: st, tt)
  end.
Proof.
  intros Hh Hl. set (script := SetDestination (CScriptID h)).
  assert (E : script = OP_HASH160 :: push_data (uint_bytes h) ++ [OP_EQUAL]).
  { unfold script. cbn [SetDestination app]. by rewrite push_uint_data. }
  assert (Hlen : length script = 23%nat).
  { unfold script. cbn [SetDestination]. unfold push_uint. rewrite !length_app. cbn [length].
    destruct Hh as [Hl' _]. rewrite length_uint_bytes, Hl'. lia. }
  clearbody script. assert (Hub : bytes_ok (uint_bytes h)) by apply uint_bytes_ok.
  assert (Hul : length (uint_bytes h) = 20%nat) by (destruct Hh as [Hl' _]; rewrite length_uint_bytes, Hl'; lia).
  assert (Hmid : bytes_ok (push_data (uint_bytes h) ++ [OP_EQUAL])).
  { apply digits_ok_app. split; [by apply push_data_bytes|by apply bytes_okb_spec]. }
  assert (H1 : bytes_ok script) by (rewrite E; apply Forall_cons; split; [unfold OP_HASH160; lia|done]).
  rewrite EvalScript_run by lia.
  rewrite (eval_run_op _ script OP_HASH160 [] (push_data (uint_bytes h) ++ [OP_EQUAL])) by (try done; rewrite E; done).
  destruct s as [|redeem st]; [done|]. cbn [length] in Hl.
  assert (eval_step (stateless chk) OP_HASH160 [] (push_data (uint_bytes h) ++ [OP_EQUAL]) (mkState (redeem :: st) [] [] script 0) tt
    = (Cont (mkState (uint_bytes (Hash160 redeem) :: st) [] [] script 1), tt)) as ->.
  { unfold eval_step. cbn -[Hash160 uint_bytes Nat.ltb length app]. cbn [length].
    by rewrite (proj2 (Nat.ltb_ge 1000 _)) by lia. }
  rewrite eval_run_push; [|done|by apply bytes_okb_spec|lia|done].
  match goal with |- context [if ?c then (Stop _, tt) else _] => change c with (1000 <? S (S (length st)) + 0)%nat end.
  destruct (Nat.ltb_spec (length st) 999) as [Hlt|Hge]; [|by rewrite (proj2 (Nat.ltb_lt 1000 _)) by lia].
  rewrite (proj2 (Nat.ltb_ge 1000 _)) by lia.
    rewrite (eval_run_op _ _ OP_EQUAL [] []) by (try done; by apply bytes_okb_spec).
    assert (eval_step (stateless chk) OP_EQUAL [] []
      (set_stack (mkState (uint_bytes (Hash160 redeem) :: st) [] [] script 1)
        (uint_bytes h :: stack (mkState (uint_bytes (Hash160 redeem) :: st) [] [] script 1))) tt
      = (Cont (mkState (vch_of_bool (bool_decide (Hash160 redeem = h)) :: st) [] [] script 2), tt)) as ->.
    { unfold eval_step. cbn -[Hash160 uint_bytes Nat.ltb length bool_decide vch_of_bool]. cbn [length].
      rewrite (proj2 (Nat.ltb_ge 1000 _)) by lia.
      rewrite (bool_decide_ext (uint_bytes (Hash160 redeem) = uint_bytes h) (Hash160 redeem = h)); [done|].
      split; [|by intros ->]. apply (uint_bytes_inj 5); [apply Hash160_ok|done]. }
    by rewrite eval_run_nil.
Qed.
End P2SH.

Section P2SHVerify.
Context `{BN : OpenSSL_BN} `{BN_ok : !OpenSSL_BN_ok} `{HD : Digests} `{HDok : !Digests_ok}.
Context (chk : valtype -> valtype -> CScript -> bool).

Lemma EvalScript_length script s' u : bytes_ok script ->
  EvalScript (stateless chk) [] script tt = (true, s', u) -> (length s' <= 1000)%nat.
Proof.
  intros Hb. unfold EvalScript. destruct (_ <? _); [done|].
  assert (Hst : state_ok (mkState [] [] [] script 0)) by (split; [constructor|split; [constructor|cbn; lia]]).
  pose proof (eval_loop_ok (stateless chk) (S (length script)) script _ tt Hb Hst) as H.
  destruct (eval_loop _ _ _ _ tt) as [[st|st] w']; [|done]. intros [= <- <-]. destruct H as [_ (_ & _ & H)]. lia.
Qed.

Lemma CastToBool_vch b : CastToBool (vch_of_bool b) = b.
Proof. by destruct b. Qed.

Lemma verify_p2sh scriptSig h : bytes_ok scriptSig -> uint_ok 5 h ->
  VerifyScript (stateless chk) scriptSig (SetDestination (CScriptID h)) tt = (true, tt) <->
  IsPushOnly scriptSig = true /\
  exists redeem st top rest,
    EvalScript (stateless chk) [] scriptSig tt = (true, redeem :: st, tt) /\ (length st < 999)%nat /\
    Hash160 redeem = h /\
    EvalScript (stateless chk) st redeem tt = (true, top :: rest, tt) /\ CastToBool top = true.
Proof.
  intros Hb Hh. unfold VerifyScript.
  assert (Hp : IsPayToScriptHash (SetDestination (CScriptID h)) = true).
  { apply IsPayToScriptHash_spec; [|by exists h].
    cbn [SetDestination app]. rewrite push_uint_data by done. apply Forall_cons. split; [unfold OP_HASH160; lia|].
    apply digits_ok_app. split; [apply push_data_bytes, uint_bytes_ok|by apply bytes_okb_spec]. }
  rewrite Hp. destruct (EvalScript (stateless chk) [] scriptSig tt) as [[[] s] []] eqn:E1; cbn [negb].
  2: { split; [done|]. intros (_ & ? & ? & ? & ? & [=] & _). }
  rewrite run_p2sh by (try done; by eapply EvalScript_length).
  destruct s as [|redeem st]; cbn [negb].
  { split; [done|]. intros (_ & ? & ? & ? & ? & [=] & _). }
  destruct (Nat.ltb_spec (length st) 999) as [Hlt|Hge]; cbn [negb].
  2: { split; [done|]. intros (_ & ? & ? & ? & ? & [= <- <-] & ? & _). lia. }
  rewrite CastToBool_vch. case_bool_decide as Eh; cbn [negb].
  2: { split; [done|]. intros (_ & ? & ? & ? & ? & [= <- <-] & _ & ? & _). done. }
  destruct (IsPushOnly scriptSig); cbn [negb]; [|split; [done|by intros [? _]]].
  destruct (EvalScript (stateless chk) st redeem tt) as [[[] s2] []] eqn:E2; cbn [negb].
  2: { split; [done|]. intros (_ & ? & ? & ? & ? & [= <- <-] & _ & _ & E3 & _). congruence. }
  destruct s2 as [|top rest].
  { split; [done|]. intros (_ & ? & ? & ? & ? & [= <- <-] & _ & _ & E3 & _). congruence. }
  split.
  - intros [= Et]. split; [done|]. by exists redeem, st, top, rest.
  - intros (_ & ? & ? & top' & rest' & [= <- <-] & _ & _ & E3 & Et). rewrite E2 in E3. injection E3 as <- <-. by rewrite Et.
Qed.
End P2SHVerify.

(** ** What a signature signs *)

(** Everything of a transaction but its input scripts. *)
Definition tx_core (tx : CTransaction) : Z * Z * list (COutPoint * Z) * list CTxOut * Z :=
  (tx_nVersion tx, tx_nTime tx, map (fun i => (prevout i, nSequence i)) (vin tx), vout tx, nLockTime tx).

(** The bytes that [SignatureHash] hashes for SIGHASH_ALL. *)
Definition signed_bytes (sc : CScript) (tx : CTransaction) (nIn : nat) (t : Z) : list Z :=
  enc CTransaction_codec (mkTx (tx_nVersion tx) (tx_nTime tx)
    (blank_sigs (fst (FindAndDelete sc [OP_CODESEPARATOR])) nIn (vin tx)) (vout tx) (nLockTime tx)) ++ le_bytes 4 t.

Section SigHashFacts.
Context `{HD : Digests} `{HDok : !Digests_ok}.

Lemma blank_sigs_core sc nIn vi vi' :
  map (fun i => (prevout i, nSequence i)) vi = map (fun i => (prevout i, nSequence i)) vi' <->
  blank_sigs sc nIn vi = blank_sigs sc nIn vi'.
Proof.
  unfold blank_sigs. split.
  - revert nIn vi'. induction vi as [|i vi IH]; intros nIn [|i' vi'] E; try done. injection E as E1 E2 E3.
    rewrite !imap_cons. f_equal; [by rewrite E1, E2|]. destruct nIn as [|nIn].
    + assert (forall l : list CTxIn, imap ((fun i txin => mkTxIn (prevout txin) (if (i =? 0)%nat then sc else []) (nSequence txin)) ∘ S) l
        = map (fun txin => mkTxIn (prevout txin) [] (nSequence txin)) l) as Hmap.
      { intros l. etrans; [|apply (imap_const (fun txin => mkTxIn (prevout txin) [] (nSequence txin)))]. by apply imap_ext. }
      rewrite !Hmap. clear -E3. revert vi' E3. induction vi as [|i vi IH]; intros [|i' vi'] E3; try done.
      injection E3 as E1 E2 E3. cbn. f_equal; [by rewrite E1, E2|by apply IH].
    + specialize (IH nIn vi' E3). exact IH.
  - intros E. apply (f_equal (map (fun i => (prevout i, nSequence i)))) in E.
    assert (forall l, map (fun i => (prevout i, nSequence i)) (imap (fun i txin => mkTxIn (prevout txin) (if (i =? nIn)%nat then sc else []) (nSequence txin)) l)
      = map (fun i => (prevout i, nSequence i)) l) as Hm.
    { intros l. etrans; [apply (fmap_imap _ (fun i : CTxIn => (prevout i, nSequence i)))|].
      etrans; [|apply (imap_const (fun i : CTxIn => (prevout i, nSequence i)))]. by apply imap_ext. }
    by rewrite !Hm in E.
Qed.

Lemma blank_sigs_valid sc nIn vi : bytevec_valid sc -> vector_valid CTxIn_valid vi ->
  vector_valid CTxIn_valid (blank_sigs sc nIn vi).
Proof.
  intros Hsc [Hl HF]. unfold blank_sigs. split; [by rewrite length_imap|]. apply Forall_lookup. intros i x Hx.
  rewrite list_lookup_imap in Hx. destruct (vi !! i) as [y|] eqn:E; [|done]. injection Hx as <-.
  eapply Forall_lookup in HF as (H1 & _ & H3); [|exact E]. split; [done|]. split; [|done].
  cbn [scriptSig]. destruct (i =? nIn)%nat; [done|]. split; [cbn; unfold MAX_SIZE; lia|constructor].
Qed.

(** SIGHASH_ALL: the copy that is hashed is the transaction with its input scripts replaced. *)
Lemma sighash_tx_all sc tx nIn t : Z.land t 0x1f <> SIGHASH_NONE -> Z.land t 0x1f <> SIGHASH_SINGLE ->
  Z.land t SIGHASH_ANYONECANPAY = 0 ->
  sighash_tx sc tx nIn t =
  Some (mkTx (tx_nVersion tx) (tx_nTime tx)
    (blank_sigs (fst (FindAndDelete sc [OP_CODESEPARATOR])) nIn (vin tx)) (vout tx) (nLockTime tx)).
Proof.
  intros H1 H2 H3. unfold sighash_tx. cbv zeta.
  rewrite (proj2 (Z.eqb_neq _ SIGHASH_NONE)), (proj2 (Z.eqb_neq _ SIGHASH_SINGLE)) by done. by rewrite H3.
Qed.

Lemma sighash_all_iff sc tx tx' nIn t :
  CTransaction_valid tx -> CTransaction_valid tx' -> bytevec_valid (fst (FindAndDelete sc [OP_CODESEPARATOR])) ->
  (nIn < length (vin tx))%nat -> (nIn < length (vin tx'))%nat ->
  Z.land t 0x1f <> SIGHASH_NONE -> Z.land t 0x1f <> SIGHASH_SINGLE -> Z.land t SIGHASH_ANYONECANPAY = 0 ->
  SignatureHash sc tx nIn t = Hash (signed_bytes sc tx nIn t) /\
  (signed_bytes sc tx nIn t = signed_bytes sc tx' nIn t <-> tx_core tx = tx_core tx').
Proof.
  intros V V' Vs Hl Hl' H1 H2 H3. unfold SignatureHash, signed_bytes.
  rewrite (proj2 (Nat.leb_gt (length (vin tx)) nIn)) by done.
  rewrite !sighash_tx_all by done. set (sc' := fst _) in *. split; [done|]. split.
  - intros E. apply app_inv_tail in E.
    apply (f_equal (fun l => dec CTransaction_codec (l ++ []))) in E.
    destruct V as (A & B & C & D & F), V' as (A' & B' & C' & D' & F').
    rewrite !(dec_enc CTransaction_codec_ok) in E by (repeat (split; [try done; by apply blank_sigs_valid|]); done).
    injection E as E1 E2 E3 E4 E5. unfold tx_core. rewrite E1, E2, E4, E5.
    by rewrite (proj2 (blank_sigs_core sc' nIn (vin tx) (vin tx')) E3).
  - unfold tx_core. intros [= -> -> E -> ->]. do 2 f_equal. apply f_equal4; try done. by apply blank_sigs_core.
Qed.
End SigHashFacts.

(** ** CHECKMULTISIG on a stack of the expected layout *)

Section MultisigOp.
Context `{BN : OpenSSL_BN} `{BN_ok : !OpenSSL_BN_ok} `{HD : Digests}.
Context (chk : valtype -> valtype -> CScript -> bool).

(** The script code with every signature deleted. *)
Definition drop_sigs (code : CScript) (sigs : list valtype) : CScript :=
  fold_left (fun sc sg => fst (FindAndDelete sc (push_data sg))) sigs code.

(** The stack as the operation finds it, top first. *)
Definition multisig_stack (keys sigs : list valtype) (dummy : valtype) (s : list valtype) : list valtype :=
  getvch (Z.of_nat (length keys)) :: keys ++ getvch (Z.of_nat (length sigs)) :: sigs ++ dummy :: s.

Lemma multisig_stack_parts keys sigs dummy s : let ms := multisig_stack keys sigs dummy s in
  nth (1 + length keys) ms [] = getvch (Z.of_nat (length sigs)) /\
  take (length keys) (drop 1 ms) = keys /\
  take (length sigs) (drop (2 + length keys) ms) = sigs /\
  drop (3 + length keys + length sigs) ms = s /\
  length ms = (3 + length keys + length sigs + length s)%nat.
Proof.
  intros ms. unfold ms, multisig_stack. cbn [Nat.add nth drop length]. conjs.
  - apply nth_middle.
  - apply take_app_length.
  - change (S (length keys)) with (1 + length keys)%nat. rewrite Nat.add_comm.
    rewrite drop_app_add. cbn [drop]. apply take_app_length.
  - replace (S (S (length keys + length sigs))) with (length keys + S (length sigs + 1))%nat by lia.
    rewrite drop_app_add. cbn [drop]. rewrite drop_app_add. done.
  - rewrite length_app. cbn [length]. rewrite length_app. cbn [length]. lia.
Qed.

Lemma fold_seq_nth {A} (f : A -> valtype -> A) (s : list valtype) off m n a : (off + m + n <= length s)%nat ->
  fold_left (fun x k => f x (nth (off + k) s [])) (seq m n) a = fold_left f (take n (drop (off + m) s)) a.
Proof.
  revert m a. induction n as [|n IH]; intros m a Hl; [done|].
  rewrite window_cons by lia. cbn [seq fold_left]. rewrite IH by lia.
  by replace (S (off + m)) with (off + S m)%nat by lia.
Qed.

Lemma op_checkmultisig_layout st keys sigs dummy s :
  stack st = multisig_stack keys sigs dummy s ->
  (length sigs <= length keys <= 20)%nat -> nOpCount st + Z.of_nat (length keys) <= 201 ->
  op_checkmultisig (stateless chk) OP_CHECKMULTISIG st tt =
  (Cont (set_stack (set_nOpCount st (nOpCount st + Z.of_nat (length keys)))
     (vch_of_bool (greedy (sig_ok chk (drop_sigs (codehash st) sigs)) sigs keys) :: s)), tt).
Proof.
  intros Hs Hl Hn. unfold op_checkmultisig. cbv zeta. rewrite Hs.
  destruct (multisig_stack_parts keys sigs dummy s) as (P1 & P2 & P3 & P4 & P5).
  set (ms := multisig_stack keys sigs dummy s) in *.
  assert (P0 : nth 0 ms [] = getvch (Z.of_nat (length keys))) by done. clearbody ms.
  rewrite (proj2 (Nat.ltb_ge _ 1)) by lia. rewrite P0, CastToBigNum_getvch by lia. rewrite getint_small by lia.
  rewrite (proj2 (Z.ltb_ge _ 0)), (proj2 (Z.ltb_ge 20 _)) by lia. cbn [orb nOpCount set_nOpCount].
  rewrite (proj2 (Z.ltb_ge 201 _)) by lia. rewrite Nat2Z.id.
  rewrite (proj2 (Nat.ltb_ge _ (2 + length keys))) by lia.
  replace (2 + length keys - 1)%nat with (1 + length keys)%nat by lia.
  rewrite P1, CastToBigNum_getvch by lia. rewrite getint_small by lia.
  rewrite (proj2 (Z.ltb_ge _ 0)), (proj2 (Z.ltb_ge (Z.of_nat (length keys)) _)) by lia. cbn [orb]. rewrite Nat2Z.id.
  replace (2 + length keys + 1)%nat with (3 + length keys)%nat by lia.
  rewrite (proj2 (Nat.ltb_ge _ (3 + length keys + length sigs))) by lia. cbn [codehash set_nOpCount].
  assert (Hsc : fold_left (fun sc k => fst (FindAndDelete sc (push_data (nth (3 + length keys + k - 1) ms []))))
    (seq 0 (length sigs)) (codehash st) = drop_sigs (codehash st) sigs).
  { unfold drop_sigs. rewrite <- P3 at 2. rewrite <- (Nat.add_0_r (2 + length keys)), <- fold_seq_nth by lia.
    f_equal. }
  rewrite Hsc, multisig_loop_greedy by lia.
  replace (3 + length keys - 1)%nat with (2 + length keys)%nat by lia. change (2 - 1)%nat with 1%nat.
  rewrite P2, P3, P4. done.
Qed.
End MultisigOp.

(** ** Canonical signatures *)

(** A non-negative DER integer without needless padding. *)
Definition der_int (R : list Z) : Prop :=
  R <> [] /\ nth 0 R 0 < 128 /\ ((1 < length R)%nat -> nth 0 R 0 = 0 -> 128 <= nth 1 R 0).

Definition der_sig (R T : list Z) (t : Z) : list Z :=
  [0x30; Z.of_nat (length R) + Z.of_nat (length T) + 4; 0x02; Z.of_nat (length R)] ++ R
  ++ [0x02; Z.of_nat (length T)] ++ T ++ [t].

Lemma window_Z (s : list Z) i n : (i < length s)%nat -> take (S n) (drop i s) = nth i s 0 :: take n (drop (S i) s).
Proof.
  intros Hl. destruct (lookup_lt_is_Some_2 s i Hl) as [x Hx].
  rewrite (drop_S s x i Hx). cbn [take]. by rewrite (nth_lookup_Some s i 0 x Hx).
Qed.

Lemma sig_decompose (l : list Z) r s : length l = (7 + r + s)%nat ->
  l = [nth 0 l 0; nth 1 l 0; nth 2 l 0; nth 3 l 0] ++ take r (drop 4 l)
      ++ [nth (4 + r) l 0; nth (5 + r) l 0] ++ take s (drop (6 + r) l) ++ [nth (6 + r + s) l 0].
Proof.
  intros Hl. rewrite <- (take_drop 4 l) at 1. rewrite <- (take_drop r (drop 4 l)) at 1.
  rewrite <- (take_drop 2 (drop r (drop 4 l))) at 1. rewrite <- (take_drop s (drop 2 (drop r (drop 4 l)))) at 1.
  rewrite !drop_drop.
  replace (4 + r + 2)%nat with (6 + r)%nat by lia.
  f_equal; [rewrite <- (drop_0 l) at 1; rewrite !window_Z by lia; done|]. f_equal.
  f_equal; [rewrite !window_Z by lia; done|]. f_equal.
  rewrite <- (take_ge (drop (6 + r + s) l) 1) by (rewrite length_drop; lia). rewrite window_Z by lia. done.
Qed.

Lemma der_sig_parts R T t : let l := der_sig R T t in let r := length R in let s := length T in
  length l = (7 + r + s)%nat /\ nth 0 l 0 = 0x30 /\ nth 1 l 0 = Z.of_nat r + Z.of_nat s + 4 /\ nth 2 l 0 = 2 /\
  nth 3 l 0 = Z.of_nat r /\ (forall i, (i < r)%nat -> nth (4 + i) l 0 = nth i R 0) /\
  nth (4 + r) l 0 = 2 /\ nth (5 + r) l 0 = Z.of_nat s /\ (forall i, (i < s)%nat -> nth (6 + r + i) l 0 = nth i T 0) /\
  nth (6 + r + s) l 0 = t.
Proof.
  intros l r s. subst l. unfold der_sig. conjs; try done.
  - cbn [app length]. rewrite !length_app. cbn [length]. rewrite length_app. cbn [length]. subst r s. lia.
  - intros i Hi. cbn [app Nat.add nth]. by apply app_nth1.
  - cbn [app Nat.add nth]. apply nth_middle.
  - cbn [app Nat.add nth]. replace (S r) with (length (R ++ [2])) by (rewrite length_app; subst r; cbn; lia).
    change (R ++ 2 :: ?x :: ?y) with (R ++ [2] ++ x :: y). rewrite app_assoc. apply nth_middle.
  - intros i Hi. cbn [app Nat.add nth]. rewrite app_nth2 by (subst r; lia).
    replace (S (S (r + i)) - length R)%nat with (S (S i)) by (subst r; lia). cbn [nth]. by apply app_nth1.
  - cbn [app Nat.add nth]. rewrite app_nth2 by (subst r; lia).
    replace (S (S (r + s)) - length R)%nat with (S (S s)) by (subst r; lia). cbn [nth]. apply nth_middle.
Qed.

Lemma land_80_byte b : is_byte b -> (Z.land b 0x80 =? 0) = (b <? 128).
Proof. apply land_80. Qed.

Lemma canonical_sound sg : bytes_ok sg -> IsCanonicalSignature sg = true ->
  exists R T t, sg = der_sig R T t /\ (9 <= length sg <= 73)%nat /\ 1 <= Z.land t 0x7f <= 3 /\
    der_int R /\ der_int T /\ (length T <= 32)%nat.
Proof.
  intros Hb. unfold IsCanonicalSignature. cbv zeta. change (u8 (Z.lnot SIGHASH_ANYONECANPAY)) with 0x7f.
  unfold SIGHASH_ALL, SIGHASH_SINGLE.
  change (Z.to_nat 0) with 0%nat. change (Z.to_nat 1) with 1%nat. change (Z.to_nat (4 - 2)) with 2%nat.
  change (Z.to_nat 3) with 3%nat. change (Z.to_nat 4) with 4%nat. change (Z.to_nat 5) with 5%nat.
  assert (HB : forall i, is_byte (nth i sg 0)) by (intros; by apply nth_byte).
  pose proof (HB 3%nat) as H3. set (r := nth 3 sg 0) in *. pose proof (HB (Z.to_nat (5 + r))) as H5.
  set (s := nth (Z.to_nat (5 + r)) sg 0) in *.
  rewrite !land_80 by apply HB.
  set (n := length sg) in *. intros H.
  repeat match type of H with (if ?c then false else _) = true => destruct c eqn:?; [discriminate H|] end. bprop.
  assert (Hlen : n = (7 + Z.to_nat r + Z.to_nat s)%nat) by lia.
  pose proof (sig_decompose sg (Z.to_nat r) (Z.to_nat s) Hlen) as E.
  set (R := take (Z.to_nat r) (drop 4 sg)) in *. set (T := take (Z.to_nat s) (drop (6 + Z.to_nat r) sg)) in *.
  assert (LR : length R = Z.to_nat r) by (unfold R; rewrite length_take, length_drop; lia).
  assert (LT : length T = Z.to_nat s) by (unfold T; rewrite length_take, length_drop; lia).
  assert (NR : forall i, (i < Z.to_nat r)%nat -> nth i R 0 = nth (4 + i) sg 0).
  { intros i Hi. unfold R. rewrite !nth_lookup, lookup_take, lookup_drop by lia.
    by destruct (decide (i < Z.to_nat r)%nat); [|lia]. }
  assert (NT : forall i, (i < Z.to_nat s)%nat -> nth i T 0 = nth (6 + Z.to_nat r + i) sg 0).
  { intros i Hi. unfold T. rewrite !nth_lookup, lookup_take, lookup_drop by lia.
    by destruct (decide (i < Z.to_nat s)%nat); [|lia]. }
  replace (Z.to_nat (6 + r)) with (6 + Z.to_nat r + 0)%nat in * by lia.
  replace (Z.to_nat (7 + r)) with (6 + Z.to_nat r + 1)%nat in * by lia.
  replace (Z.to_nat (6 + r - 2)) with (4 + Z.to_nat r)%nat in * by lia.
  replace (Z.to_nat (Z.of_nat n - 1)) with (6 + Z.to_nat r + Z.to_nat s)%nat in * by lia.
  assert (Es : nth (5 + Z.to_nat r) sg 0 = s) by (unfold s; f_equal; lia).
  exists R, T, (nth (6 + Z.to_nat r + Z.to_nat s) sg 0). conjs; try lia.
  - rewrite E at 1. unfold der_sig. rewrite LR, LT, Es, !Z2Nat.id by lia. fold r.
    repeat match goal with Hx : nth _ sg 0 = _ |- _ => rewrite Hx end.
    replace (Z.of_nat n - 3) with (r + s + 4) by lia. done.
  - split; [intros E0; rewrite E0 in LR; cbn in LR; lia|]. rewrite (NR 0%nat) by lia. split; [cbn [Nat.add]; lia|].
    intros Hl1 E0. rewrite NR by lia. cbn [Nat.add] in *. intuition (bprop; lia).
  - split; [intros E0; rewrite E0 in LT; cbn in LT; lia|]. rewrite (NT 0%nat) by lia. split; [lia|].
    intros Hl1 E0. rewrite NT by lia. intuition (bprop; lia).
Qed.

Lemma canonical_complete R T t : bytes_ok (der_sig R T t) ->
  (9 <= length (der_sig R T t) <= 73)%nat -> 1 <= Z.land t 0x7f <= 3 -> der_int R -> der_int T -> (length T <= 32)%nat ->
  IsCanonicalSignature (der_sig R T t) = true.
Proof.
  intros Hb Hl Ht (R0 & R1 & R2) (T0 & T1 & T2) HT.
  destruct (der_sig_parts R T t) as (PL & P0 & P1 & P2 & P3 & PR & P4 & P5 & PT & P6).
  assert (HR1 : (1 <= length R)%nat) by (destruct R; [done|cbn; lia]).
  assert (HT1 : (1 <= length T)%nat) by (destruct T; [done|cbn; lia]).
  assert (HB : forall i, is_byte (nth i (der_sig R T t) 0)) by (intros; by apply nth_byte).
  set (l := der_sig R T t) in *. clearbody l. unfold IsCanonicalSignature. cbv zeta.
  change (u8 (Z.lnot SIGHASH_ANYONECANPAY)) with 0x7f. unfold SIGHASH_ALL, SIGHASH_SINGLE.
  change (Z.to_nat 0) with 0%nat. change (Z.to_nat 1) with 1%nat. change (Z.to_nat (4 - 2)) with 2%nat.
  change (Z.to_nat 3) with 3%nat. change (Z.to_nat 4) with (4 + 0)%nat. change (Z.to_nat 5) with (4 + 1)%nat.
  rewrite !land_80 by apply HB. rewrite P0, P1, P2, P3, PL.
  replace (Z.to_nat (Z.of_nat (7 + length R + length T) - 1)) with (6 + length R + length T)%nat by lia.
  replace (Z.to_nat (5 + Z.of_nat (length R))) with (5 + length R)%nat by lia.
  replace (Z.to_nat (6 + Z.of_nat (length R))) with (6 + length R + 0)%nat by lia.
  replace (Z.to_nat (7 + Z.of_nat (length R))) with (6 + length R + 1)%nat by lia.
  replace (Z.to_nat (6 + Z.of_nat (length R) - 2)) with (4 + length R)%nat by lia.
  rewrite P6, P4, P5, (PR 0%nat), (PT 0%nat) by lia.
  repeat match goal with |- (if ?c then false else _) = true => destruct c eqn:? end; bprop; try lia.
  all: try (intuition (bprop; lia)).
  - destruct (Nat.le_gt_cases (length R) 1); [lia|]. rewrite (PR 1%nat) in * by lia. intuition lia.
  - destruct (Nat.le_gt_cases (length T) 1); [lia|]. rewrite (PT 1%nat) in * by lia. intuition lia.
Qed.

(** ** Properties *)

(** C30: memory safety of the interpreter: from a stack of at most 1000 elements
    of at most 520 bytes, every run of every script, successful or not and
    whatever the signature checker answers, leaves only such elements, and a
    successful one at most 1000 of them. *)
Theorem EvalScript_stack_ok `{BN_ok : OpenSSL_BN_ok} `{HDok : Digests_ok} {W} CheckSigW s script (w : W) :
  bytes_ok script -> Forall elem_ok s -> (length s <= 1000)%nat ->
  let '(ok, s', _) := EvalScript CheckSigW s script w in
  Forall elem_ok s' /\ (ok = true -> (length s' <= 1000)%nat).
Proof.
  intros Hb Hs Hl. unfold EvalScript. destruct (_ <? _); [by split|].
  assert (Hst : state_ok (mkState s [] [] script 0)) by (split; [done|split; [constructor|cbn; lia]]).
  pose proof (eval_loop_ok CheckSigW (S (length script)) script _ w Hb Hst) as HL.
  destruct (eval_loop _ _ _ _ w) as [[st|st] w'].
  - destruct HL as [[HF _] (_ & _ & HN)]. split; [done|]. intros _. lia.
  - destruct HL as [[HF _] _]. by split.
Qed.

Lemma EvalScript_stack_ok_witness :
  Forall elem_ok (snd (fst (@EvalScript reference_BN toy_digests unit (stateless (fun _ _ _ => false)) [[5]] [OP_DUP; OP_ADD] tt))).
Proof.
  pose proof (@EvalScript_stack_ok reference_BN reference_BN_ok toy_digests toy_digests_ok unit
    (stateless (fun _ _ _ => false)) [[5]] [OP_DUP; OP_ADD] tt) as H.
  assert (Forall elem_ok [[5]]) as HF by (apply Forall_singleton; split; [by apply bytes_okb_spec|cbn; lia]).
  specialize (H ltac:(by apply bytes_okb_spec) HF ltac:(cbn; lia)).
  destruct (EvalScript _ _ _ _) as [[ok s'] u]. apply H.
Defined.

(** Limits and structure of a successful script: it has at most 10,000
    bytes, is readable to its last byte, contains none of the disabled opcodes
    (in a branch not taken either), at most 201 counted operations, and its
    conditionals are properly nested and closed. *)
Theorem EvalScript_shape `{BN : OpenSSL_BN} `{HD : Digests} {W} CheckSigW s script (w : W) s' w' :
  bytes_ok script -> EvalScript CheckSigW s script w = (true, s', w') ->
  Z.of_nat (length script) <= 10000 /\
  exists ops, opcodes (S (length script)) script = Some ops /\ Forall (fun o => disabled o = false) ops /\
    nested ops 0 = Some 0%nat /\ counted ops <= 201.
Proof.
  intros Hb. unfold EvalScript. destruct (Z.ltb_spec 10000 (Z.of_nat (length script))) as [|Hle]; [done|].
  destruct (eval_loop _ _ _ _ w) as [[st|st] w1] eqn:E; [|done]. intros _. split; [done|].
  destruct (eval_loop_shape _ _ _ _ _ _ _ Hb E) as (ops & Ho & Hd & Hn & Hc); [cbn; lia|].
  exists ops. cbn [nOpCount vfExec length] in *. conjs; done || lia.
Qed.

Lemma EvalScript_shape_witness :
  exists ops, opcodes 6 [0x51; OP_IF; 0x52; OP_ELSE; OP_ENDIF] = Some ops /\ counted ops <= 201.
Proof.
  destruct (@EvalScript_shape reference_BN toy_digests unit (stateless (fun _ _ _ => false)) []
    [0x51; OP_IF; 0x52; OP_ELSE; OP_ENDIF] tt [[2]] tt) as (_ & ops & H1 & _ & _ & H2).
  - by apply bytes_okb_spec.
  - vm_compute. reflexivity.
  - exists ops. by split.
Defined.

(** C33: the signature cache is transparent: with a cache that holds only valid
    entries, verifying an input gives the answer the uncached check gives, and
    the cache stays valid, whatever the random evictions. *)
Theorem signature_cache_transparent `{BN : OpenSSL_BN} `{HD : Digests} `{EC : ECDSA} GetRandHash
    (txTo : CTransaction) (nIn : nat) (nHashType : Z) (scriptSig scriptPubKey : CScript) (c : CSignatureCache) :
  cache_valid c ->
  let '(ok, c') := VerifyScript (CheckSig GetRandHash txTo nIn nHashType) scriptSig scriptPubKey c in
  ok = fst (VerifyScript (CheckSig_pure txTo nIn nHashType) scriptSig scriptPubKey tt) /\ cache_valid c'.
Proof.
  intros Hc. pose proof (VerifyScript_agree (CheckSig GetRandHash txTo nIn nHashType) (CheckSig_pure txTo nIn nHashType)
    (fun c _ => cache_valid c)) as HA.
  specialize (HA ltac:(intros; by apply CheckSig_agree) scriptSig scriptPubKey c tt Hc).
  destruct (VerifyScript (CheckSig _ _ _ _) _ _ _) as [ok c']. exact HA.
Qed.

(** A key and signature scheme for examples: a signature is the key's bytes. *)
Definition toy_ECDSA : ECDSA := {| o2i_ECPublicKey _ := true; ECDSA_verify _ sg k := bool_decide (sg = take 1 k) |}.

Lemma signature_cache_transparent_witness :
  let tx := mkTx 1 0 [mkTxIn COutPoint_null [] 0] [] 0 in
  let c := mkCache [(uint_zero 8, [7], [7; 8])] 10 0 in
  let r := @VerifyScript reference_BN toy_digests _
    (@CheckSig toy_digests toy_ECDSA (fun _ => []) tx 0 0) [0x51] [0x51] c in
  fst r = true /\ @cache_valid toy_ECDSA (snd r).
Proof.
  intros tx c r.
  pose proof (@signature_cache_transparent reference_BN toy_digests toy_ECDSA (fun _ => []) tx 0 0 [0x51] [0x51] c) as H.
  assert (Hc : @cache_valid toy_ECDSA c) by (apply Forall_singleton; split; reflexivity).
  specialize (H Hc). fold r in H. destruct r as [ok c']. destruct H as [-> Hv]. split; [vm_compute; reflexivity|exact Hv].
Defined.

(** C31: CHECKMULTISIG on a stack laid out as its comment says (and one more
    element, which it pops too) succeeds exactly when the signatures can be
    matched, in order, to a subsequence of the keys, each pair canonical and
    valid over the script code without the signatures. *)
Theorem checkmultisig_matches `{BN_ok : OpenSSL_BN_ok} `{HD : Digests} chk st keys sigs dummy s :
  stack st = multisig_stack keys sigs dummy s ->
  (length sigs <= length keys <= 20)%nat -> nOpCount st + Z.of_nat (length keys) <= 201 ->
  exists fSuccess,
    op_checkmultisig (stateless chk) OP_CHECKMULTISIG st tt =
      (Cont (set_stack (set_nOpCount st (nOpCount st + Z.of_nat (length keys))) (vch_of_bool fSuccess :: s)), tt) /\
    (fSuccess = true <->
     exists ks, ks `sublist_of` keys /\
       Forall2 (fun sg k => sig_ok chk (drop_sigs (codehash st) sigs) sg k = true) sigs ks).
Proof.
  intros Hs Hl Hn. eexists. split; [by apply (op_checkmultisig_layout chk st keys sigs dummy s)|]. apply greedy_spec.
Qed.

Lemma checkmultisig_matches_witness :
  let st := mkState (@multisig_stack reference_BN [[1]; [2]] [] [] []) [] [] [] 0 in
  fst (@op_checkmultisig reference_BN unit (stateless (fun _ _ _ => false)) OP_CHECKMULTISIG st tt)
  = Cont (mkState [vchTrue] [] [] [] 2).
Proof.
  intros st. pose proof reference_BN_ok as OK.
  destruct (@checkmultisig_matches reference_BN OK toy_digests (fun _ _ _ => false) st [[1]; [2]] [] [] []) as (b & -> & Hb).
  - reflexivity.
  - cbn. lia.
  - cbn. lia.
  - assert (b = true) as -> by (apply Hb; exists []; split; [apply sublist_nil_l|constructor]). reflexivity.
Defined.

(** Spending a pay-to-public-key-hash output: [VerifyScript] on a signature
    and a key accepts exactly when the key hashes to the output's key id and
    the canonical signature checks against it. *)
Theorem verify_pay_to_pubkey_hash `{BN : OpenSSL_BN} `{HDok : Digests_ok} chk (sg key : valtype) (h : uint160) :
  elem_ok sg -> elem_ok key -> uint_ok 5 h ->
  let script := SetDestination (CKeyID h) in
  VerifyScript (stateless chk) (push_data sg ++ push_data key) script tt =
  ((bool_decide (Hash160 key = h) && sig_ok chk (fst (FindAndDelete script (push_data sg))) sg key)%bool, tt).
Proof. apply verify_p2pkh. Qed.

Lemma verify_pay_to_pubkey_hash_witness :
  @VerifyScript reference_BN toy_digests unit (stateless (fun _ _ _ => true)) (push_data [1] ++ push_data [2])
    (SetDestination (CKeyID (@Hash160 toy_digests [2]))) tt = (false, tt).
Proof.
  rewrite (@verify_pay_to_pubkey_hash reference_BN toy_digests toy_digests_ok (fun _ _ _ => true) [1] [2]).
  - vm_compute. reflexivity.
  - split; [by apply bytes_okb_spec|cbn; lia].
  - split; [by apply bytes_okb_spec|cbn; lia].
  - apply (@Hash160_ok toy_digests toy_digests_ok).
Defined.

(** C32: spending a pay-to-script-hash output: [VerifyScript] accepts exactly
    when the input script only pushes, its last push hashes to the output's
    script id, and that push, run as a script on the rest of the stack, ends
    with a true top element. *)
Theorem verify_pay_to_script_hash `{BN_ok : OpenSSL_BN_ok} `{HDok : Digests_ok} chk (scriptSig : CScript) (h : uint160) :
  bytes_ok scriptSig -> uint_ok 5 h ->
  VerifyScript (stateless chk) scriptSig (SetDestination (CScriptID h)) tt = (true, tt) <->
  IsPushOnly scriptSig = true /\
  exists redeem st top rest,
    EvalScript (stateless chk) [] scriptSig tt = (true, redeem :: st, tt) /\ (length st < 999)%nat /\
    Hash160 redeem = h /\
    EvalScript (stateless chk) st redeem tt = (true, top :: rest, tt) /\ CastToBool top = true.
Proof.
  intros Hb Hh. apply verify_p2sh; done.
Qed.

(** A run of the theorem: the redeem script is [OP_1]. *)
Lemma verify_pay_to_script_hash_witness :
  @VerifyScript reference_BN toy_digests unit (stateless (fun _ _ _ => false)) (push_data [0x51])
    (SetDestination (CScriptID (@Hash160 toy_digests [0x51]))) tt = (true, tt).
Proof.
  apply (@verify_pay_to_script_hash reference_BN reference_BN_ok toy_digests toy_digests_ok (fun _ _ _ => false)
    (push_data [0x51]) (@Hash160 toy_digests [0x51])).
  - by apply bytes_okb_spec.
  - apply (@Hash160_ok toy_digests toy_digests_ok).
  - split; [reflexivity|]. exists [0x51], [], [1], []. conjs; try (vm_compute; reflexivity). cbn. lia.
Defined.

(** [CastToBool] is the numeric test: a stack element is false exactly when,
    read as a script number, it is zero (of either sign). *)
Theorem CastToBool_numeric `{BN_ok : OpenSSL_BN_ok} (v : valtype) :
  bytes_ok v -> Z.of_nat (length v) < 2 ^ 31 -> CastToBool v = negb (setvch v =? 0).
Proof. apply CastToBool_setvch. Qed.

Lemma CastToBool_numeric_witness : CastToBool [0; 0x80] = negb (@setvch reference_BN [0; 0x80] =? 0).
Proof.
  apply (@CastToBool_numeric reference_BN reference_BN_ok [0; 0x80]); [by apply bytes_okb_spec|cbn; lia].
Defined.

(** A SIGHASH_ALL signature hash commits to the whole transaction except the
    input scripts: the bytes that are hashed are the same for two transactions
    exactly when these agree on everything else. *)
Theorem SignatureHash_all_commits `{HD : Digests} sc tx tx' nIn t :
  CTransaction_valid tx -> CTransaction_valid tx' -> bytevec_valid (fst (FindAndDelete sc [OP_CODESEPARATOR])) ->
  (nIn < length (vin tx))%nat -> (nIn < length (vin tx'))%nat ->
  Z.land t 0x1f <> SIGHASH_NONE -> Z.land t 0x1f <> SIGHASH_SINGLE -> Z.land t SIGHASH_ANYONECANPAY = 0 ->
  SignatureHash sc tx nIn t = Hash (signed_bytes sc tx nIn t) /\
  (signed_bytes sc tx nIn t = signed_bytes sc tx' nIn t <-> tx_core tx = tx_core tx').
Proof. apply sighash_all_iff. Qed.

Lemma SignatureHash_all_commits_witness :
  let tx sg := mkTx 1 2 [mkTxIn (mkOutPoint (uint_zero 8) 3) sg 4] [mkTxOut 5 [6]] 7 in
  signed_bytes [OP_DUP] (tx []) 0 SIGHASH_ALL = signed_bytes [OP_DUP] (tx [9; 9]) 0 SIGHASH_ALL.
Proof.
  intros tx.
  assert (V : forall sg, bytes_okb sg = true -> (length sg <= 9)%nat -> CTransaction_valid (tx sg)).
  { intros sg Hb Hl. split; [|split; [|split; [|split]]]; try (unfold sint_valid, uint_valid; cbn; lia).
    - split; [cbn; unfold MAX_SIZE; lia|]. apply Forall_singleton. split; [|split].
      + split; [split; [reflexivity|apply Forall_replicate; lia]|unfold uint_valid; cbn; lia].
      + split; [cbn; unfold MAX_SIZE; lia|by apply bytes_okb_spec].
      + unfold uint_valid. cbn. lia.
    - split; [cbn; unfold MAX_SIZE; lia|]. apply Forall_singleton. split; [unfold sint_valid; cbn; lia|].
      split; [cbn; unfold MAX_SIZE; lia|by apply bytes_okb_spec]. }
  destruct (@SignatureHash_all_commits toy_digests [OP_DUP] (tx []) (tx [9; 9]) 0 SIGHASH_ALL) as [_ H].
  - by apply V; [|cbn; lia].
  - by apply V; [|cbn; lia].
  - split; [cbv; discriminate|by apply bytes_okb_spec].
  - cbn. lia.
  - cbn. lia.
  - done.
  - done.
  - done.
  - by apply H.
Defined.

(** [IsCanonicalSignature] accepts exactly the strict encoding its comment
    describes: 30 len 02 lenR R 02 lenS S hashtype, R and S non-negative and
    minimally padded, S of at most 32 bytes, 9 to 73 bytes in all and a
    hash type of 1 to 3 with or without ANYONECANPAY. *)
Theorem IsCanonicalSignature_strict (sg : valtype) : bytes_ok sg ->
  IsCanonicalSignature sg = true <->
  exists R T t, sg = der_sig R T t /\ (9 <= length sg <= 73)%nat /\ 1 <= Z.land t 0x7f <= 3 /\
    der_int R /\ der_int T /\ (length T <= 32)%nat.
Proof.
  intros Hb. split; [by apply canonical_sound|]. intros (R & T & t & -> & H). apply canonical_complete; tauto.
Qed.

Lemma IsCanonicalSignature_strict_witness :
  IsCanonicalSignature [0x30; 6; 2; 1; 5; 2; 1; 7; 1] = true.
Proof.
  apply (IsCanonicalSignature_strict [0x30; 6; 2; 1; 5; 2; 1; 7; 1]); [by apply bytes_okb_spec|].
  exists [5], [7], 1. conjs; try reflexivity; try (cbn; lia); unfold der_int; cbn; conjs; done || lia.
Defined.
