(* ===== verification/Standard.v ===== *)
(** * Standard transactions: templates, key stores and signing (script.cpp, keystore.cpp)

    [Solver] matches an output script against the standard templates; the
    functions below it classify, extract destinations, decide ownership and
    sign.  A key store is the two maps of [CBasicKeyStore]; deriving public keys
    from secrets and signing are OpenSSL's and enter through a class. *)

From S2P Require Import Prelude Uint256 Serialize BigNum Tx Script Interp InterpFacts InterpRun.

Inductive txnouttype := TX_NONSTANDARD | TX_PUBKEY | TX_PUBKEYHASH | TX_SCRIPTHASH | TX_MULTISIG.

#[export] Instance txnouttype_eq_dec : EqDecision txnouttype.
Proof. solve_decision. Defined.

(** ** The templates *)

(** In the order of the map: by type. *)
Definition mTemplates : list (txnouttype * CScript) :=
  [(TX_PUBKEY, [OP_PUBKEY; OP_CHECKSIG]);
   (TX_PUBKEYHASH, [OP_DUP; OP_HASH160; OP_PUBKEYHASH; OP_EQUALVERIFY; OP_CHECKSIG]);
   (TX_MULTISIG, [OP_SMALLINTEGER; OP_PUBKEYS; OP_SMALLINTEGER; OP_CHECKMULTISIG])].

Definition pubkey_size (vch : valtype) : bool := ((33 <=? length vch) && (length vch <=? 120))%nat%bool.

(** The inner loop of OP_PUBKEYS: collect public keys until something else, or
    an unreadable instruction, comes up. *)
Fixpoint pubkeys_loop (fuel : nat) (opcode1 : Z) (vch1 : valtype) (pc1 : CScript) (sols : list valtype)
    : Z * valtype * CScript * list valtype :=
  match fuel with
  | O => (opcode1, vch1, pc1, sols)
  | S fuel =>
      if pubkey_size vch1 then
        match GetOp pc1 with
        | None => (OP_INVALIDOPCODE, [], pc1, sols ++ [vch1])
        | Some (opcode1, vch1', pc1) => pubkeys_loop fuel opcode1 vch1' pc1 (sols ++ [vch1])
        end
      else (opcode1, vch1, pc1, sols)
  end.

(** Match one instruction against one template opcode: the solutions so far, or
    [None] to give the template up. *)
Definition match_opcode (opcode1 : Z) (vch1 : valtype) (opcode2 : Z) (vch2 : valtype) (sols : list valtype)
    : option (list valtype) :=
  if opcode2 =? OP_PUBKEY then
    if pubkey_size vch1 then Some (sols ++ [vch1]) else None
  else if opcode2 =? OP_PUBKEYHASH then
    if (length vch1 =? 20)%nat then Some (sols ++ [vch1]) else None
  else if opcode2 =? OP_SMALLINTEGER then
    if ((opcode1 =? OP_0) || ((OP_1 <=? opcode1) && (opcode1 <=? OP_16)))%bool
    then Some (sols ++ [[DecodeOP_N opcode1]]) else None
  else if (negb (opcode1 =? opcode2) || negb (bool_decide (vch1 = vch2)))%bool then None
  else Some sols.

(** [while (true)]: every turn reads from the template, so its length is fuel enough. *)
Fixpoint match_loop (fuel : nat) (pc1 pc2 : CScript) (sols : list valtype) : option (list valtype) :=
  match fuel with
  | O => None
  | S fuel =>
      match pc1, pc2 with
      | [], [] => Some sols
      | _, _ =>
          match GetOp pc1 with
          | None => None
          | Some (opcode1, vch1, pc1) =>
              match GetOp pc2 with
              | None => None
              | Some (opcode2, vch2, pc2) =>
                  if opcode2 =? OP_PUBKEYS then
                    let '(opcode1, vch1, pc1, sols) := pubkeys_loop (S (length pc1)) opcode1 vch1 pc1 sols in
                    match GetOp pc2 with
                    | None => None
                    | Some (opcode2, vch2, pc2) =>
                        match match_opcode opcode1 vch1 opcode2 vch2 sols with
                        | None => None
                        | Some sols => match_loop fuel pc1 pc2 sols
                        end
                    end
                  else
                    match match_opcode opcode1 vch1 opcode2 vch2 sols with
                    | None => None
                    | Some sols => match_loop fuel pc1 pc2 sols
                    end
              end
          end
      end
  end.

Definition match_template (script1 script2 : CScript) : option (list valtype) :=
  match_loop (S (length script2)) script1 script2 [].

(** The check of a matched multisig: m of n keys, and n of them given. *)
Definition multisig_counts (sols : list valtype) : bool :=
  let m := nth 0 (nth 0 sols []) 0 in
  let n := nth 0 (List.last sols []) 0 in
  negb ((m <? 1) || (n <? 1) || (n <? m) || negb (Z.of_nat (length sols) - 2 =? n)).

Fixpoint scan_templates (script : CScript) (tpls : list (txnouttype * CScript)) : bool * txnouttype * list valtype :=
  match tpls with
  | [] => (false, TX_NONSTANDARD, [])
  | (t, tpl) :: tpls =>
      match match_template script tpl with
      | None => scan_templates script tpls
      | Some sols =>
          match t with
          | TX_MULTISIG => (multisig_counts sols, t, sols)
          | _ => (true, t, sols)
          end
      end
  end.

(** The answer, the type and the solutions. *)
Definition Solver (scriptPubKey : CScript) : bool * txnouttype * list valtype :=
  if IsPayToScriptHash scriptPubKey then (true, TX_SCRIPTHASH, [take 20 (drop 2 scriptPubKey)])
  else scan_templates scriptPubKey mTemplates.

Definition ScriptSigArgsExpected (t : txnouttype) (vSolutions : list valtype) : Z :=
  match t with
  | TX_NONSTANDARD => -1
  | TX_PUBKEY => 1
  | TX_PUBKEYHASH => 2
  | TX_MULTISIG =>
      match vSolutions with
      | (m :: _) :: _ => m + 1
      | _ => -1
      end
  | TX_SCRIPTHASH => 1
  end.

Definition IsStandard (scriptPubKey : CScript) : bool :=
  match Solver scriptPubKey with
  | (false, _, _) => false
  | (true, TX_MULTISIG, vSolutions) =>
      let m := nth 0 (nth 0 vSolutions []) 0 in
      let n := nth 0 (List.last vSolutions []) 0 in
      if ((n <? 1) || (3 <? n))%bool then false
      else if ((m <? 1) || (n <? m))%bool then false
      else true
  | (true, t, _) => negb (bool_decide (t = TX_NONSTANDARD))
  end.

(** [CTransaction::IsStandard]; [CURRENT_VERSION] is 1. *)
Definition tx_IsStandard (fEnforceCanonical : bool) (tx : CTransaction) : bool :=
  if 1 <? tx_nVersion tx then false
  else if negb (forallb (fun txin =>
      (length (scriptSig txin) <=? 500)%nat && IsPushOnly (scriptSig txin) &&
      negb (fEnforceCanonical && negb (HasCanonicalPushes (scriptSig txin))))%bool (vin tx)) then false
  else forallb (fun txout =>
      (IsStandard (scriptPubKey txout) && negb (nValue txout =? 0) &&
       negb (fEnforceCanonical && negb (HasCanonicalPushes (scriptPubKey txout))))%bool) (vout tx).

(** ** Destinations *)

Section Destinations.
Context `{HD : Digests}.

(** [CPubKey(vch).GetID()] *)
Definition CPubKey_GetID (vch : valtype) : uint160 := Hash160 vch.

Definition ExtractDestination (scriptPubKey : CScript) : option CTxDestination :=
  match Solver scriptPubKey with
  | (true, TX_PUBKEY, vSolutions) => Some (CKeyID (CPubKey_GetID (nth 0 vSolutions [])))
  | (true, TX_PUBKEYHASH, vSolutions) => Some (CKeyID (uint_of_vch 5 (nth 0 vSolutions [])))
  | (true, TX_SCRIPTHASH, vSolutions) => Some (CScriptID (uint_of_vch 5 (nth 0 vSolutions [])))
  | _ => None
  end.

(** The type, the destinations and how many must sign. *)
Definition ExtractDestinations (scriptPubKey : CScript) : option (txnouttype * list CTxDestination * Z) :=
  match Solver scriptPubKey with
  | (false, _, _) => None
  | (true, TX_MULTISIG, vSolutions) =>
      let keys := removelast (tail vSolutions) in
      Some (TX_MULTISIG, map (fun k => CKeyID (CPubKey_GetID k)) keys, nth 0 (nth 0 vSolutions []) 0)
  | (true, t, _) =>
      match ExtractDestination scriptPubKey with
      | Some address => Some (t, [address], 1)
      | None => None
      end
  end.
End Destinations.

(** ** Key stores *)

(** A [CSecret] and whether the public key is compressed. *)
Definition secret : Type := list Z * bool.

(** [CKey] on a secret: the public key, and a signature of a hash. *)
Class ECKeys := {
  key_GetPubKey : secret -> valtype;
  key_Sign : secret -> uint256 -> option valtype;
}.

Record CBasicKeyStore := mkKeyStore {
  mapKeys : gmap uint160 secret;
  mapScripts : gmap uint160 CScript;
}.

Section KeyStore.
Context `{HD : Digests} `{EK : ECKeys}.

Definition AddKey (ks : CBasicKeyStore) (key : secret) : CBasicKeyStore :=
  mkKeyStore (<[CPubKey_GetID (key_GetPubKey key) := key]> (mapKeys ks)) (mapScripts ks).

Definition AddCScript (ks : CBasicKeyStore) (redeemScript : CScript) : CBasicKeyStore :=
  mkKeyStore (mapKeys ks) (<[GetID redeemScript := redeemScript]> (mapScripts ks)).

Definition HaveKey (ks : CBasicKeyStore) (address : uint160) : bool := bool_decide (is_Some (mapKeys ks !! address)).
Definition HaveCScript (ks : CBasicKeyStore) (h : uint160) : bool := bool_decide (is_Some (mapScripts ks !! h)).
Definition GetKey (ks : CBasicKeyStore) (address : uint160) : option secret := mapKeys ks !! address.
Definition GetCScript (ks : CBasicKeyStore) (h : uint160) : option CScript := mapScripts ks !! h.
Definition GetPubKey (ks : CBasicKeyStore) (address : uint160) : option valtype :=
  match GetKey ks address with Some key => Some (key_GetPubKey key) | None => None end.

Definition HaveKeys (pubkeys : list valtype) (ks : CBasicKeyStore) : Z :=
  fold_left (fun n pubkey => if HaveKey ks (CPubKey_GetID pubkey) then n + 1 else n) pubkeys 0.

Definition IsMine_dest (ks : CBasicKeyStore) (dest : CTxDestination) : bool :=
  match dest with
  | CNoDestination => false
  | CKeyID keyID => HaveKey ks keyID
  | CScriptID scriptID => HaveCScript ks scriptID
  end.

(** [IsMine]; each level of script hash follows the store, so a store without
    cycles needs no more fuel than it has scripts. *)
Fixpoint IsMine_loop (fuel : nat) (ks : CBasicKeyStore) (scriptPubKey : CScript) : bool :=
  match Solver scriptPubKey with
  | (false, _, _) => false
  | (true, t, vSolutions) =>
      match t with
      | TX_NONSTANDARD => false
      | TX_PUBKEY => HaveKey ks (CPubKey_GetID (nth 0 vSolutions []))
      | TX_PUBKEYHASH => HaveKey ks (uint_of_vch 5 (nth 0 vSolutions []))
      | TX_SCRIPTHASH =>
          match GetCScript ks (uint_of_vch 5 (nth 0 vSolutions [])), fuel with
          | Some subscript, S fuel => IsMine_loop fuel ks subscript
          | _, _ => false
          end
      | TX_MULTISIG =>
          let keys := removelast (tail vSolutions) in
          HaveKeys keys ks =? Z.of_nat (length keys)
      end
  end.

Definition IsMine (ks : CBasicKeyStore) (scriptPubKey : CScript) : bool :=
  IsMine_loop (size (mapScripts ks)) ks scriptPubKey.

(** ** Signing *)

(** [scriptSigRet] before and after; unchanged on failure. *)
Definition Sign1 (address : uint160) (ks : CBasicKeyStore) (hash : uint256) (nHashType : Z) (scriptSigRet : CScript)
    : bool * CScript :=
  match GetKey ks address with
  | None => (false, scriptSigRet)
  | Some key =>
      match key_Sign key hash with
      | None => (false, scriptSigRet)
      | Some vchSig => (true, scriptSigRet ++ push_data (vchSig ++ [u8 nHashType]))
      end
  end.

Fixpoint SignN_loop (keys : list valtype) (nRequired : Z) (ks : CBasicKeyStore) (hash : uint256) (nHashType : Z)
    (nSigned : Z) (scriptSigRet : CScript) : Z * CScript :=
  match keys with
  | [] => (nSigned, scriptSigRet)
  | pubkey :: keys =>
      if nSigned <? nRequired then
        let '(ok, scriptSigRet) := Sign1 (CPubKey_GetID pubkey) ks hash nHashType scriptSigRet in
        SignN_loop keys nRequired ks hash nHashType (if ok then nSigned + 1 else nSigned) scriptSigRet
      else (nSigned, scriptSigRet)
  end.

Definition SignN (multisigdata : list valtype) (ks : CBasicKeyStore) (hash : uint256) (nHashType : Z)
    (scriptSigRet : CScript) : bool * CScript :=
  let nRequired := nth 0 (nth 0 multisigdata []) 0 in
  let '(nSigned, scriptSigRet) :=
    SignN_loop (removelast (tail multisigdata)) nRequired ks hash nHashType 0 scriptSigRet in
  (nSigned =? nRequired, scriptSigRet).

(** The signing [Solver]: success, the input script and the type. *)
Definition Solver_sign (ks : CBasicKeyStore) (scriptPubKey : CScript) (hash : uint256) (nHashType : Z)
    : bool * CScript * txnouttype :=
  match Solver scriptPubKey with
  | (false, t, _) => (false, [], t)
  | (true, t, vSolutions) =>
      match t with
      | TX_NONSTANDARD => (false, [], t)
      | TX_PUBKEY => (Sign1 (CPubKey_GetID (nth 0 vSolutions [])) ks hash nHashType [], t)
      | TX_PUBKEYHASH =>
          let keyID := uint_of_vch 5 (nth 0 vSolutions []) in
          match Sign1 keyID ks hash nHashType [] with
          | (false, s) => (false, s, t)
          | (true, s) => (true, s ++ push_data (match GetPubKey ks keyID with Some vch => vch | None => [] end), t)
          end
      | TX_SCRIPTHASH =>
          match GetCScript ks (uint_of_vch 5 (nth 0 vSolutions [])) with
          | Some s => (true, s, t)
          | None => (false, [], t)
          end
      | TX_MULTISIG => (SignN vSolutions ks hash nHashType [OP_0], t)
      end
  end.

Definition set_scriptSig (tx : CTransaction) (nIn : nat) (s : CScript) : CTransaction :=
  mkTx (tx_nVersion tx) (tx_nTime tx)
    (alter (fun i => mkTxIn (prevout i) s (nSequence i)) nIn (vin tx)) (vout tx) (nLockTime tx).

Context `{BN : OpenSSL_BN} `{EC : ECDSA} (GetRandHash : nat -> uint256).

(** [SignSignature]: whether the input is fully signed, and the transaction with
    its input script set; the solution is tested before it is reported. *)
Definition SignSignature (ks : CBasicKeyStore) (fromPubKey : CScript) (txTo : CTransaction) (nIn : nat) (nHashType : Z)
    (c : CSignatureCache) : bool * CTransaction * CSignatureCache :=
  let hash := SignatureHash fromPubKey txTo nIn nHashType in
  let '(ok, s, whichType) := Solver_sign ks fromPubKey hash nHashType in
  if negb ok then (false, set_scriptSig txTo nIn s, c)
  else
    let '(fSolved, s) :=
      match whichType with
      | TX_SCRIPTHASH =>
          let subscript := s in
          let hash2 := SignatureHash subscript (set_scriptSig txTo nIn s) nIn nHashType in
          let '(ok2, s2, subType) := Solver_sign ks subscript hash2 nHashType in
          ((ok2 && negb (bool_decide (subType = TX_SCRIPTHASH)))%bool, s2 ++ push_data subscript)
      | _ => (true, s)
      end in
    let txTo := set_scriptSig txTo nIn s in
    if negb fSolved then (false, txTo, c)
    else let '(v, c) := VerifyScript (CheckSig GetRandHash txTo nIn 0) s fromPubKey c in (v, txTo, c).
End KeyStore.

(** ** Matching the scripts the program writes *)

Lemma GetOp_op opcode rest : OP_PUSHDATA4 < opcode -> GetOp (opcode :: rest) = Some (opcode, [], rest).
Proof. intros H. cbn [GetOp]. rewrite (proj2 (Z.leb_gt _ _)) by exact H. done. Qed.

Lemma match_step f pc1 pc2 sols o1 v1 p1 o2 v2 p2 :
  GetOp pc1 = Some (o1, v1, p1) -> GetOp pc2 = Some (o2, v2, p2) -> o2 <> OP_PUBKEYS ->
  match_loop (S f) pc1 pc2 sols =
  match match_opcode o1 v1 o2 v2 sols with None => None | Some sols => match_loop f p1 p2 sols end.
Proof.
  intros E1 E2 Hne. cbn [match_loop]. rewrite E1, E2, (proj2 (Z.eqb_neq _ _)) by done.
  destruct pc1; [discriminate E1|]. done.
Qed.

Lemma match_end f sols : match_loop (S f) [] [] sols = Some sols.
Proof. done. Qed.

Lemma push_data_nonempty b : (1 <= length (push_data b))%nat.
Proof. unfold push_data. cbv zeta. rewrite length_app. repeat dmatch; cbn [length]; lia. Qed.

(** OP_PUBKEYS takes all the keys and the instruction after them. *)
Lemma pubkeys_loop_keys keys : forall fuel key sols o0 o1 p rest,
  Forall (fun k => pubkey_size k = true) (key :: keys) ->
  GetOp rest = Some (o1, [], p) -> (length (flat_map push_data keys ++ rest) < fuel)%nat ->
  pubkeys_loop fuel o0 key (flat_map push_data keys ++ rest) sols = (o1, [], p, sols ++ key :: keys).
Proof.
  induction keys as [|k keys IH]; intros [|fuel] key sols o0 o1 p rest HF Hr Hf; try lia;
    apply Forall_cons in HF as [Hk HF]; cbn [pubkeys_loop flat_map]; rewrite Hk.
  - cbn [app]. rewrite Hr. by destruct fuel.
  - rewrite <- app_assoc, GetOp_push_data by
      (apply Forall_cons in HF as [Hk' _]; unfold pubkey_size in Hk'; bprop; lia).
    cbn [flat_map] in Hf. rewrite <- app_assoc, length_app in Hf. pose proof (push_data_nonempty k).
    rewrite (IH fuel k (sols ++ [key]) _ o1 p rest) by (done || lia). by rewrite <- app_assoc.
Qed.

Lemma match_pubkeys f keys rest o1 p sols tpl o2 p2 :
  Forall (fun k => pubkey_size k = true) keys -> keys <> [] ->
  GetOp rest = Some (o1, [], p) -> GetOp tpl = Some (o2, [], p2) ->
  match_loop (S f) (flat_map push_data keys ++ rest) (OP_PUBKEYS :: tpl) sols =
  match match_opcode o1 [] o2 [] (sols ++ keys) with None => None | Some sols => match_loop f p p2 sols end.
Proof.
  intros HF Hne Hr Ht. destruct keys as [|key keys]; [done|].
  cbn [match_loop flat_map]. rewrite <- app_assoc, GetOp_push_data by
    (apply Forall_cons in HF as [Hk' _]; unfold pubkey_size in Hk'; bprop; lia).
  rewrite (GetOp_op OP_PUBKEYS) by done. change (OP_PUBKEYS =? OP_PUBKEYS) with true. cbv beta iota.
  rewrite (pubkeys_loop_keys keys _ key sols _ o1 p rest) by (done || lia). rewrite Ht.
  destruct (push_data key) eqn:E; [|done]. pose proof (push_data_nonempty key) as Hp. rewrite E in Hp. cbn in Hp. lia.
Qed.

Lemma Solver_key key : pubkey_size key = true ->
  Solver (push_data key ++ [OP_CHECKSIG]) = (true, TX_PUBKEY, [key]).
Proof.
  intros Hk. assert (Hl : (length key <= 120)%nat) by (unfold pubkey_size in Hk; bprop; lia).
  assert (IsPayToScriptHash (push_data key ++ [OP_CHECKSIG]) = false) as Hp.
  { destruct (IsPayToScriptHash _) eqn:E; [|done]. unfold IsPayToScriptHash in E. bprop.
    rename select (nth 0 _ _ = _) into E0. exfalso. revert E0.
    unfold push_data, OP_HASH160, OP_PUSHDATA1, u8. cbv zeta.
    destruct (Z.ltb_spec (Z.of_nat (length key)) 0x4c); cbn [app nth]; [rewrite Z.mod_small by lia; lia|].
    rewrite (proj2 (Z.leb_le _ _)) by lia. cbn. lia. }
  unfold Solver. rewrite Hp. cbn [scan_templates mTemplates]. unfold match_template. cbn [length].
  erewrite match_step; [|apply GetOp_push_data; lia | by apply GetOp_op | done].
  unfold match_opcode at 1. change (OP_PUBKEY =? OP_PUBKEY) with true. cbn match. rewrite Hk.
  erewrite match_step; [|by apply GetOp_op | by apply GetOp_op | done]. reflexivity.
Qed.

(** A list of twenty bytes, written out. *)
Ltac explode20 l Hl := do 20 (destruct l as [|? l]; [discriminate Hl|]); destruct l; [|discriminate Hl]; clear Hl.

Lemma Solver_keyhash h : uint_ok 5 h ->
  Solver (SetDestination (CKeyID h)) = (true, TX_PUBKEYHASH, [uint_bytes h]).
Proof.
  intros Hh. assert (Hl : length (uint_bytes h) = 20%nat) by (rewrite length_uint_bytes; by destruct Hh as [-> _]).
  unfold SetDestination, push_uint. generalize dependent (uint_bytes h). intros l Hl. explode20 l Hl. reflexivity.
Qed.

Lemma Solver_scripthash h : uint_ok 5 h ->
  Solver (SetDestination (CScriptID h)) = (true, TX_SCRIPTHASH, [uint_bytes h]).
Proof.
  intros Hh. assert (Hl : length (uint_bytes h) = 20%nat) by (rewrite length_uint_bytes; by destruct Hh as [-> _]).
  unfold SetDestination, push_uint. generalize dependent (uint_bytes h). intros l Hl. explode20 l Hl. reflexivity.
Qed.

Lemma uint_of_vch_bytes h : uint_ok 5 h -> uint_of_vch 5 (uint_bytes h) = h.
Proof.
  intros Hh. unfold uint_of_vch. rewrite length_uint_bytes. destruct Hh as [Hl Hd]. rewrite Hl.
  by apply words_of_uint_bytes.
Qed.

Lemma EncodeOP_N_opcode n : 1 <= n <= 16 ->
  OP_PUSHDATA4 < EncodeOP_N n /\ OP_1 <= EncodeOP_N n <= OP_16 /\ DecodeOP_N (EncodeOP_N n) = n.
Proof.
  intros Hn. unfold EncodeOP_N, DecodeOP_N. rewrite (proj2 (Z.eqb_neq n 0)) by lia.
  change OP_PUSHDATA4 with 78. change OP_1 with 81. change OP_16 with 96. change OP_0 with 0.
  rewrite (proj2 (Z.eqb_neq _ _)) by lia. lia.
Qed.

Lemma match_small n sols : 1 <= n <= 16 ->
  match_opcode (EncodeOP_N n) [] OP_SMALLINTEGER [] sols = Some (sols ++ [[n]]).
Proof.
  intros Hn. destruct (EncodeOP_N_opcode n Hn) as (_ & [H1 H2] & HD). unfold match_opcode.
  change (OP_SMALLINTEGER =? OP_PUBKEY) with false. change (OP_SMALLINTEGER =? OP_PUBKEYHASH) with false.
  change (OP_SMALLINTEGER =? OP_SMALLINTEGER) with true. cbv beta iota.
  rewrite (proj2 (Z.leb_le _ _) H1), (proj2 (Z.leb_le _ _) H2), orb_true_r, HD. done.
Qed.

Lemma Solver_multisig m keys : Forall (fun k => pubkey_size k = true) keys ->
  1 <= m <= Z.of_nat (length keys) -> Z.of_nat (length keys) <= 16 ->
  Solver (SetMultisig m keys) = (true, TX_MULTISIG, [m] :: keys ++ [[Z.of_nat (length keys)]]).
Proof.
  intros HF Hm Hn. set (n := Z.of_nat (length keys)) in *.
  destruct (EncodeOP_N_opcode m ltac:(lia)) as (Pm & Rm & _), (EncodeOP_N_opcode n ltac:(lia)) as (Pn & Rn & _).
  change OP_1 with 81 in *. change OP_16 with 96 in *.
  assert (IsPayToScriptHash (SetMultisig m keys) = false) as Hp.
  { unfold IsPayToScriptHash, SetMultisig. cbn [app nth]. rewrite (proj2 (Z.eqb_neq (EncodeOP_N m) OP_HASH160)).
    - by rewrite andb_false_r.
    - unfold OP_HASH160. lia. }
  unfold Solver. rewrite Hp. unfold SetMultisig. cbn [app]. fold n. cbn [scan_templates mTemplates].
  unfold match_template. cbn [length].
  erewrite (match_step 2); [|by apply GetOp_op | by apply GetOp_op | done]. cbn match.
  change (match_opcode (EncodeOP_N m) [] OP_PUBKEY [] []) with (@None (list valtype)). cbv beta iota.
  erewrite (match_step 5); [|by apply GetOp_op | by apply GetOp_op | done].
  replace (match_opcode (EncodeOP_N m) [] OP_DUP [] []) with (@None (list valtype)); cbv beta iota.
  2: { unfold match_opcode. do 3 (change (OP_DUP =? _) with false at 1; cbv beta iota).
       rewrite (proj2 (Z.eqb_neq (EncodeOP_N m) OP_DUP)) by (unfold OP_DUP; lia). done. }
  erewrite (match_step 4); [|by apply GetOp_op | by apply GetOp_op | done]. rewrite match_small by lia. cbv beta iota.
  rewrite (match_pubkeys 3 keys _ (EncodeOP_N n) [OP_CHECKMULTISIG] _ _ OP_SMALLINTEGER [OP_CHECKMULTISIG]);
    [|done|destruct keys; cbn in *; done || lia|by apply GetOp_op|by apply GetOp_op].
  rewrite match_small by lia. cbv beta iota.
  erewrite (match_step 2); [|by apply GetOp_op | by apply GetOp_op | done].
  change (match_opcode OP_CHECKMULTISIG [] OP_CHECKMULTISIG [] ?s) with (Some s). cbv beta iota. rewrite match_end.
  rewrite <- app_assoc. cbn [app]. f_equal. f_equal. unfold multisig_counts. cbn [nth].
  rewrite app_comm_cons, List.last_last. cbn [nth length]. rewrite length_app. cbn [length].
  rewrite (proj2 (Z.ltb_ge m 1)), (proj2 (Z.ltb_ge n 1)), (proj2 (Z.ltb_ge n m)) by lia.
  rewrite (proj2 (Z.eqb_eq _ _)) by lia. done.
Qed.

(** ** Signing *)

(** What OpenSSL and the low-S rule of [CKey::Sign] promise: the public key is
    one it parses back, in canonical form, and a signature verifies under it and
    is canonical once the hash type is appended. *)
Class ECKeys_ok `{EK : ECKeys} `{EC : ECDSA} : Prop := {
  pubkey_ok : forall k, o2i_ECPublicKey (key_GetPubKey k) = true /\
    IsCanonicalPubKey (key_GetPubKey k) = true /\ bytes_ok (key_GetPubKey k) /\ (length (key_GetPubKey k) <= 65)%nat;
  sign_ok : forall k h sg, key_Sign k h = Some sg -> ECDSA_verify h sg (key_GetPubKey k) = true /\ bytes_ok sg /\
    forall t, SIGHASH_ALL <= t <= SIGHASH_SINGLE -> IsCanonicalSignature (sg ++ [t]) = true;
}.

(** Every key of the store is filed under its public key's id. *)
Definition keystore_ok `{Digests} `{ECKeys} (ks : CBasicKeyStore) : Prop :=
  map_Forall (fun address key => CPubKey_GetID (key_GetPubKey key) = address) (mapKeys ks).

Lemma AddKey_ok `{Digests} `{ECKeys} ks key : keystore_ok ks -> keystore_ok (AddKey ks key).
Proof. intros Hk. by apply map_Forall_insert_2. Qed.

(** Signatures do not commit to input scripts. *)
Lemma blank_sigs_set sc n s vi m :
  blank_sigs sc n (alter (fun i => mkTxIn (prevout i) s (nSequence i)) m vi) = blank_sigs sc n vi.
Proof.
  apply list_eq. intros j. unfold blank_sigs. rewrite !list_lookup_imap.
  destruct (decide (m = j)) as [->|Hne].
  - rewrite list_lookup_alter_eq. by destruct (vi !! j).
  - by rewrite list_lookup_alter_ne.
Qed.

Lemma SignatureHash_set_scriptSig `{Digests} sc tx n s m t :
  SignatureHash sc (set_scriptSig tx m s) n t = SignatureHash sc tx n t.
Proof.
  unfold SignatureHash, sighash_tx, set_scriptSig. cbn [vin vout tx_nVersion tx_nTime nLockTime].
  by rewrite blank_sigs_set, length_alter.
Qed.

Lemma canonical_length sg : IsCanonicalSignature sg = true -> (9 <= length sg <= 73)%nat.
Proof.
  unfold IsCanonicalSignature. cbv zeta.
  destruct (Z.ltb_spec (Z.of_nat (length sg)) 9); [done|]. destruct (Z.ltb_spec 73 (Z.of_nat (length sg))); [done|]. lia.
Qed.

(** The instructions of a pay-to-public-key-hash script. *)
Lemma ops_of_keyhash h : uint_ok 5 h ->
  ops_of (SetDestination (CKeyID h)) =
  ([[OP_DUP]; [OP_HASH160]; push_data (uint_bytes h); [OP_EQUALVERIFY]; [OP_CHECKSIG]], []).
Proof.
  intros Hh. assert (Hl : length (uint_bytes h) = 20%nat) by (rewrite length_uint_bytes; by destruct Hh as [-> _]).
  unfold SetDestination, push_uint. generalize dependent (uint_bytes h). intros l Hl. explode20 l Hl. reflexivity.
Qed.

Lemma FindAndDelete_keyhash h sg : uint_ok 5 h -> elem_ok sg -> sg <> uint_bytes h -> (2 <= length sg)%nat ->
  fst (FindAndDelete (SetDestination (CKeyID h)) (push_data sg)) = SetDestination (CKeyID h).
Proof.
  intros Hh [Hb Hl] Hne Hlen.
  assert (Hbytes : bytes_ok (SetDestination (CKeyID h))).
  { cbn [SetDestination]. rewrite push_uint_data by done.
    apply Forall_app. split; [by apply bytes_okb_spec|].
    apply Forall_app. split; [apply push_data_bytes, uint_bytes_ok | by apply bytes_okb_spec]. }
  rewrite (FindAndDelete_ops (push_data sg) ltac:(apply push_data_is_op; lia) _ _ _ Hbytes (ops_of_keyhash h Hh)).
  cbn [fst].
  assert (forall o, [o] <> push_data sg) as Hop.
  { intros o E. apply (f_equal length) in E. unfold push_data in E. cbv zeta in E. rewrite length_app in E. change (length [o]) with 1%nat in E. lia. }
  assert (push_data (uint_bytes h) <> push_data sg) as Hpush.
  { intros E. assert (Hu : length (uint_bytes h) = 20%nat) by (rewrite length_uint_bytes; by destruct Hh as [-> _]).
    pose proof (GetOp_push_data (uint_bytes h) [] ltac:(lia)) as G1. rewrite E, GetOp_push_data in G1 by lia. congruence. }
  rewrite !filter_cons, !decide_True by done. rewrite filter_nil. cbn [concat SetDestination].
  by rewrite push_uint_data, app_nil_r by done.
Qed.

Section SignVerify.
Context `{BN : OpenSSL_BN} `{HDok : Digests_ok} `{EKok : ECKeys_ok} (GetRandHash : nat -> uint256).

(** The signature the input script must carry, and what checking it answers. *)
Lemma signed_checks key hash sg t tx nIn script : key_Sign key hash = Some sg ->
  SIGHASH_ALL <= t <= SIGHASH_SINGLE -> hash = SignatureHash script tx nIn t ->
  sig_ok (fun s k sc => fst (CheckSig_pure tx nIn 0 s k sc tt)) script (sg ++ [t]) (key_GetPubKey key) = true.
Proof.
  intros Hs Ht ->. destruct (sign_ok _ _ _ Hs) as (Hv & _ & Hc), (pubkey_ok key) as (Ho & Hk & _).
  unfold sig_ok, CheckSig_pure, sig_split. rewrite Hc, Hk by done. rewrite last_snoc, removelast_last. cbn [fst].
  change (0 =? 0) with true. cbn [fst]. by rewrite Ho, Hv.
Qed.

Lemma stateless_CheckSig tx nIn nHashType a b c u :
  CheckSig_pure tx nIn nHashType a b c u = stateless (fun s k sc => fst (CheckSig_pure tx nIn nHashType s k sc tt)) a b c u.
Proof. unfold stateless, CheckSig_pure. by destruct u, (sig_split a nHashType) as [[? ?]|]. Qed.

(** Running the input script against the output, with the cache. *)
Lemma verify_keyhash_cached tx nIn sg key h c : cache_valid c -> elem_ok sg -> elem_ok key -> uint_ok 5 h ->
  let script := SetDestination (CKeyID h) in
  let '(v, c') := VerifyScript (CheckSig GetRandHash tx nIn 0) (push_data sg ++ push_data key) script c in
  cache_valid c' /\
  v = (bool_decide (Hash160 key = h) &&
       sig_ok (fun s k sc => fst (CheckSig_pure tx nIn 0 s k sc tt)) (fst (FindAndDelete script (push_data sg))) sg key)%bool.
Proof.
  intros Hc Hs Hk Hh script.
  pose proof (VerifyScript_agree (CheckSig GetRandHash tx nIn 0)
    (stateless (fun s k sc => fst (CheckSig_pure tx nIn 0 s k sc tt))) (fun c _ => cache_valid c)) as HA.
  specialize (HA ltac:(intros; rewrite <- stateless_CheckSig; by apply CheckSig_agree)
    (push_data sg ++ push_data key) script c tt Hc).
  destruct (VerifyScript (CheckSig _ _ _ _) _ _ _) as [v c']. destruct HA as [Hv Hc']. cbn [fst snd] in *.
  unfold script in Hv. rewrite verify_p2pkh in Hv by done. by split.
Qed.
End SignVerify.

(** ** Properties *)

(** The scripts the program writes are the ones it recognises: the output for
    a key id or a script id solves to that destination, a bare public key to the
    key's id, and an m-of-n multisig of up to 16 keys to exactly those keys. *)
Theorem solver_recognises `{Digests} (h : uint160) (key : valtype) (m : Z) (keys : list valtype) :
  uint_ok 5 h -> Forall (fun k => pubkey_size k = true) (key :: keys) ->
  1 <= m <= Z.of_nat (length keys) -> Z.of_nat (length keys) <= 16 ->
  ExtractDestination (SetDestination (CKeyID h)) = Some (CKeyID h) /\
  ExtractDestination (SetDestination (CScriptID h)) = Some (CScriptID h) /\
  ExtractDestination (push_data key ++ [OP_CHECKSIG]) = Some (CKeyID (Hash160 key)) /\
  ExtractDestinations (SetMultisig m keys) = Some (TX_MULTISIG, map (fun k => CKeyID (Hash160 k)) keys, m).
Proof.
  intros Hh HF Hm Hn. apply Forall_cons in HF as [Hk HF]. unfold ExtractDestinations, ExtractDestination.
  rewrite Solver_keyhash, Solver_scripthash, Solver_key, Solver_multisig by done. cbn [nth tail].
  rewrite uint_of_vch_bytes, removelast_last by done. done.
Qed.

Lemma solver_recognises_witness :
  @ExtractDestinations toy_digests (SetMultisig 1 [replicate 33 2; replicate 65 4]) =
  Some (TX_MULTISIG, [CKeyID (@Hash160 toy_digests (replicate 33 2)); CKeyID (@Hash160 toy_digests (replicate 65 4))], 1).
Proof.
  destruct (@solver_recognises toy_digests (replicate 5 7) (replicate 33 2) 1 [replicate 33 2; replicate 65 4])
    as (_ & _ & _ & H); [split; [reflexivity | repeat constructor; done] | repeat constructor; done | cbn; lia | cbn; lia | exact H].
Defined.

(** C39: signing is complete: with a key store that holds the key of the output's
    key id, [SignSignature] fills in the input script with the signature and the
    public key, and its own verification of the result succeeds. *)
Theorem sign_then_verify `{BN : OpenSSL_BN} `{HDok : Digests_ok} `{EKok : ECKeys_ok} GetRandHash
    (ks : CBasicKeyStore) (h : uint160) (key : secret) (sg : valtype) (tx : CTransaction) (nIn : nat) (t : Z) (c : CSignatureCache) :
  let script := SetDestination (CKeyID h) in
  let input := push_data (sg ++ [t]) ++ push_data (key_GetPubKey key) in
  keystore_ok ks -> cache_valid c -> uint_ok 5 h -> mapKeys ks !! h = Some key ->
  SIGHASH_ALL <= t <= SIGHASH_SINGLE -> key_Sign key (SignatureHash script tx nIn t) = Some sg ->
  sg ++ [t] <> uint_bytes h ->
  exists c', SignSignature GetRandHash ks script tx nIn t c = (true, set_scriptSig tx nIn input, c') /\ cache_valid c'.
Proof.
  intros script input Hks Hc Hh Hkey Ht Hsg Hne.
  destruct (sign_ok _ _ _ Hsg) as (_ & Hb & Hcan), (pubkey_ok key) as (_ & _ & Hkb & Hkl).
  pose proof (canonical_length _ (Hcan t Ht)) as Hlen.
  assert (Hel : elem_ok (sg ++ [t])).
  { split; [|lia]. apply Forall_app. split; [done|]. apply Forall_singleton. unfold SIGHASH_ALL, SIGHASH_SINGLE in Ht. lia. }
  assert (Hu : u8 t = t) by (apply Z.mod_small; unfold SIGHASH_ALL, SIGHASH_SINGLE in Ht; lia).
  pose proof (verify_keyhash_cached GetRandHash (set_scriptSig tx nIn input) nIn (sg ++ [t]) (key_GetPubKey key) h c
    Hc Hel ltac:(split; [done|lia]) Hh) as HV.
  unfold SignSignature, Solver_sign, Sign1, GetPubKey, GetKey. unfold script. rewrite Solver_keyhash by done. cbn [nth].
  rewrite uint_of_vch_bytes, Hkey by done. fold script. rewrite Hsg, Hu. cbn [negb app]. fold input.
  unfold input at 2. cbv zeta in HV. fold script in HV.
  destruct (VerifyScript _ _ _ _) as [v c']. destruct HV as [Hc' ->]. exists c'. split; [|done]. do 2 f_equal.
  unfold script. rewrite FindAndDelete_keyhash by (done || lia). rewrite bool_decide_true by (by apply (Hks h key)).
  cbn [andb]. eapply signed_checks; [exact Hsg|done|]. by rewrite SignatureHash_set_scriptSig.
Qed.

(** A scheme with one signature, for examples. *)
Definition one_sig : valtype := [0x30; 6; 2; 1; 5; 2; 1; 7].
Definition one_sig_ECDSA : ECDSA := {| o2i_ECPublicKey _ := true; ECDSA_verify _ sg _ := bool_decide (sg = one_sig) |}.
Definition one_sig_keys : ECKeys := {| key_GetPubKey _ := 2 :: replicate 32 1; key_Sign _ _ := Some one_sig |}.

Lemma one_sig_keys_ok : @ECKeys_ok one_sig_keys one_sig_ECDSA.
Proof.
  split.
  - intros k. repeat split; try done; [by apply bytes_okb_spec | cbn; lia].
  - intros k h sg [= <-]. repeat split; [by apply bytes_okb_spec|]. intros t Ht.
    unfold SIGHASH_ALL, SIGHASH_SINGLE in Ht. assert (t = 1 \/ t = 2 \/ t = 3) as [-> | [-> | ->]] by lia; done.
Qed.

Lemma sign_then_verify_witness :
  let h := @Hash160 toy_digests (2 :: replicate 32 1) in
  let tx := mkTx 1 0 [mkTxIn COutPoint_null [] 0] [] 0 in
  let ks := @AddKey toy_digests one_sig_keys (mkKeyStore ∅ ∅) ([], true) in
  fst (fst (@SignSignature toy_digests one_sig_keys reference_BN one_sig_ECDSA (fun _ => []) ks
    (SetDestination (CKeyID h)) tx 0 SIGHASH_ALL (mkCache [] 10 0))) = true.
Proof.
  intros h tx ks.
  destruct (@sign_then_verify reference_BN toy_digests toy_digests_ok one_sig_keys one_sig_ECDSA one_sig_keys_ok
    (fun _ => []) ks h ([], true) one_sig tx 0 SIGHASH_ALL (mkCache [] 10 0)) as (c' & E & _).
  - apply AddKey_ok. apply map_Forall_empty.
  - constructor.
  - apply (@Hash160_ok toy_digests toy_digests_ok).
  - apply lookup_insert_eq.
  - unfold SIGHASH_ALL, SIGHASH_SINGLE. lia.
  - reflexivity.
  - vm_compute. discriminate.
  - rewrite E. reflexivity.
Defined.
