(* ===== verification/Consensus.v ===== *)
(** * Consensus rules without context (main.cpp, main.h)

    Transaction checks, the minimum fee, the reward schedules, the block index
    records and the difficulty rules that walk them.  A [CBlockIndex*] is the
    list of the record and its [pprev] ancestors, tip first; [NULL] is the
    empty list.  The network's mutable parameters (changed for the test network
    by [LoadBlockIndex]) are a record. *)

From S2P Require Import Prelude Uint256 Serialize BigNum Tx Script.

(** ** Floating-point constants

    The schedule writes amounts such as [2.3 * COIN]: a binary64 literal times
    an integer, rounded to binary64, then truncated to [int64_t]. *)

(** The integer nearest to [n / d], ties to even. *)
Definition round_even (n d : Z) : Z :=
  let q := n / d in
  let r := n mod d in
  if 2 * r <? d then q else if d <? 2 * r then q + 1 else if Z.even q then q else q + 1.

(** [(m, e)] with [m * 2^e] the binary64 number nearest to the positive [n / d]. *)
Definition binary64 (n d : Z) : Z * Z :=
  let e0 := Z.log2 n - Z.log2 d in
  let top := if d * 2 ^ Z.max 0 e0 <=? n * 2 ^ Z.max 0 (- e0) then e0 else e0 - 1 in
  let e := top - 52 in
  (round_even (n * 2 ^ Z.max 0 (- e)) (d * 2 ^ Z.max 0 e), e).

Definition trunc64 (x : Z * Z) : Z := fst x * 2 ^ Z.max 0 (snd x) / 2 ^ Z.max 0 (- snd x).

(** [(int64_t)(n/d * k)] for the decimal literal [n/d] and an integer [k]
    that binary64 represents. *)
Definition literal_times (n d k : Z) : Z :=
  let '(m, e) := binary64 n d in
  trunc64 (binary64 (m * k * 2 ^ Z.max 0 e) (2 ^ Z.max 0 (- e))).

(** ** Transactions *)

(** A check's answer: accepted, or refused with the amount [DoS] adds to the
    misbehaviour score (zero for a plain [return false]). *)
Inductive verdict := Accept | Reject (nDoS : Z).

#[export] Instance verdict_eq_dec : EqDecision verdict.
Proof. solve_decision. Defined.

Fixpoint check_outputs (fUser : bool) (os : list CTxOut) (nValueOut : Z) : verdict :=
  match os with
  | [] => Accept
  | txout :: os =>
      if (CTxOut_IsEmpty txout && fUser)%bool then Reject 100
      else if nValue txout <? 0 then Reject 100
      else if MAX_MONEY <? nValue txout then Reject 100
      else
        let nValueOut := s64 (nValueOut + nValue txout) in
        if negb (MoneyRange nValueOut) then Reject 100 else check_outputs fUser os nValueOut
  end.

Fixpoint check_duplicates (vi : list CTxIn) (vInOutPoints : gset COutPoint) : bool :=
  match vi with
  | [] => true
  | txin :: vi =>
      if bool_decide (prevout txin ∈ vInOutPoints) then false
      else check_duplicates vi ({[prevout txin]} ∪ vInOutPoints)
  end.

Definition CheckTransaction (tx : CTransaction) : verdict :=
  match vin tx, vout tx with
  | [], _ => Reject 10
  | _, [] => Reject 10
  | txin0 :: _, _ =>
      if MAX_BLOCK_SIZE <? csize CTransaction_codec tx then Reject 100
      else
        match check_outputs (negb (IsCoinBase tx) && negb (IsCoinStake tx)) (vout tx) 0 with
        | Reject n => Reject n
        | Accept =>
            if negb (check_duplicates (vin tx) ∅) then Reject 0
            else if IsCoinBase tx then
              if ((length (scriptSig txin0) <? 2) || (100 <? length (scriptSig txin0)))%nat%bool
              then Reject 100 else Accept
            else if existsb (fun txin => COutPoint_IsNull (prevout txin)) (vin tx) then Reject 10
            else Accept
        end
  end.

Definition GetLegacySigOpCount (tx : CTransaction) : Z :=
  let nSigOps := fold_left (fun n txin => u32 (n + GetSigOpCount false (scriptSig txin))) (vin tx) 0 in
  fold_left (fun n txout => u32 (n + GetSigOpCount false (scriptPubKey txout))) (vout tx) nSigOps.

Inductive GetMinFee_mode := GMF_BLOCK | GMF_RELAY | GMF_SEND.

Definition GetMinFee (tx : CTransaction) (nBlockSize : Z) (mode : GetMinFee_mode) (nBytes : Z) : Z :=
  let nBaseFee := match mode with GMF_RELAY => MIN_RELAY_TX_FEE | _ => MIN_TX_FEE end in
  let nNewBlockSize := u32 (nBlockSize + nBytes) in
  let nMinFee := s64 ((1 + Z.quot nBytes 1000) * nBaseFee) in
  let nMinFee :=
    if nMinFee <? nBaseFee then
      fold_left (fun n txout => if nValue txout <? CENT then nBaseFee else n) (vout tx) nMinFee
    else nMinFee in
  if (negb (nBlockSize =? 1) && (MAX_BLOCK_SIZE_GEN / 2 <=? nNewBlockSize))%bool then
    if MAX_BLOCK_SIZE_GEN <=? nNewBlockSize then MAX_MONEY
    else
      let nMinFee := s64 (nMinFee * (MAX_BLOCK_SIZE_GEN / (MAX_BLOCK_SIZE_GEN - nNewBlockSize))) in
      if negb (MoneyRange nMinFee) then MAX_MONEY else nMinFee
  else if negb (MoneyRange nMinFee) then MAX_MONEY else nMinFee.

(** ** Rewards *)

(** The subsidy of [GetProofOfWorkReward], before the fees. *)
Definition pow_subsidy (nHeight : Z) : Z :=
  if ((1 <? nHeight) && (nHeight <=? 2))%bool then 53100000 * COIN
  else if nHeight <? 10000 then literal_times 42 100 COIN
  else if nHeight <? 61742 then 75 * COIN
  else if nHeight <? 123484 then 66 * COIN
  else if nHeight <=? 185226 then 55 * COIN
  else if nHeight <? 246968 then 50 * COIN
  else if nHeight <? 308710 then 47 * COIN
  else if nHeight <=? 370452 then 44 * COIN
  else if nHeight <? 432194 then 41 * COIN
  else if nHeight <? 493936 then 39 * COIN
  else if nHeight <=? 555678 then 37 * COIN
  else if nHeight <? 617420 then 35 * COIN
  else if nHeight <? 679162 then 33 * COIN
  else if nHeight <? 740904 then 32 * COIN
  else if nHeight <? 770420 then 31 * COIN
  else if nHeight <? 802646 then literal_times 31 10 COIN
  else if nHeight <? 864388 then literal_times 29 10 COIN
  else if nHeight <? 926130 then literal_times 26 10 COIN
  else if nHeight <? 987872 then literal_times 23 10 COIN
  else if nHeight <? 1049614 then 2 * COIN
  else if nHeight <? 1111356 then literal_times 17 10 COIN
  else if nHeight <? 1173098 then literal_times 14 10 COIN
  else if nHeight <? 1234526 then 1 * COIN
  else 0 * COIN.

Definition GetProofOfWorkReward (nHeight nFees : Z) : Z := s64 (pow_subsidy nHeight + nFees).

Definition MAX_MINT_PROOF_OF_STAKE : Z := 12 * CENT.

Definition hextable (c : Z) : Z := if is_hexdigit c then phexdigit c else -1.

(** [hex2long]: stops early when the sign bit gets set. *)
Fixpoint hex2long_loop (s : list Z) (ret : Z) : Z :=
  match s with
  | [] => ret
  | c :: s => if 0 <=? ret then hex2long_loop s (Z.lor (s64 (Z.shiftl ret 4)) (hextable c)) else ret
  end.

Definition hex2long (s : list Z) : Z := hex2long_loop s 0.

Section StakeReward.
(** [uniform_int_distribution<>(0, range)] drawn once from [mt19937(seed)]. *)
Context (mt19937_uniform : Z -> Z -> Z).

Definition generateMTRandom (seed range : Z) : Z := mt19937_uniform (u32 seed) range.

Definition GetProofOfStakeReward (nCoinAge nBits nTime nFees nValueIn : Z) (prevHash : uint256) : Z :=
  let nRewardCoinYear := MAX_MINT_PROOF_OF_STAKE in
  let nSubsidy := Z.quot (Z.quot (s64 (nCoinAge * nRewardCoinYear)) 365) COIN in
  let seed := hex2long (take 7 (drop 7 (GetHex prevHash))) in
  let rand i := generateMTRandom (seed + i) 100 in
  let inputcoins := Z.quot nValueIn COIN in
  let nBonusSubsidy :=
    if 99000000 <=? inputcoins then
      (if rand 0 <=? 5 then 100 * COIN else 0) + (if rand 1 <=? 4 then 200 * COIN else 0)
      + (if rand 2 <=? 3 then 300 * COIN else 0) + (if rand 3 <=? 2 then 500 * COIN else 0)
      + (if rand 4 <=? 1 then 1000 * COIN else 0)
    else 0 in
  s64 (nSubsidy + nBonusSubsidy + nFees).
End StakeReward.

(** ** The block index *)

Record CBlockIndex := mkBlockIndex {
  bi_hash : uint256; bi_nFile : Z; bi_nBlockPos : Z; nChainTrust : uint256; nHeight : Z;
  nMint : Z; nMoneySupply : Z; nFlags : Z; nStakeModifier : Z; nStakeModifierChecksum : Z;
  prevoutStake : COutPoint; nStakeTime : Z; hashProofOfStake : uint256;
  bi_nVersion : Z; bi_hashMerkleRoot : uint256; bi_nTime : Z; bi_nBits : Z; bi_nNonce : Z;
}.

Definition BLOCK_PROOF_OF_STAKE : Z := 1.
Definition BLOCK_STAKE_ENTROPY : Z := 2.
Definition BLOCK_STAKE_MODIFIER : Z := 4.

Definition bi_IsProofOfStake (b : CBlockIndex) : bool := negb (Z.land (nFlags b) BLOCK_PROOF_OF_STAKE =? 0).
Definition bi_IsProofOfWork (b : CBlockIndex) : bool := Z.land (nFlags b) BLOCK_PROOF_OF_STAKE =? 0.
Definition bi_GetStakeEntropyBit (b : CBlockIndex) : Z := Z.shiftr (Z.land (nFlags b) BLOCK_STAKE_ENTROPY) 1.
Definition GeneratedStakeModifier (b : CBlockIndex) : bool := negb (Z.land (nFlags b) BLOCK_STAKE_MODIFIER =? 0).

Definition set_nFlags (b : CBlockIndex) (f : Z) : CBlockIndex :=
  mkBlockIndex (bi_hash b) (bi_nFile b) (bi_nBlockPos b) (nChainTrust b) (nHeight b) (nMint b)
    (nMoneySupply b) f (nStakeModifier b) (nStakeModifierChecksum b) (prevoutStake b) (nStakeTime b)
    (hashProofOfStake b) (bi_nVersion b) (bi_hashMerkleRoot b) (bi_nTime b) (bi_nBits b) (bi_nNonce b).

Definition SetStakeEntropyBit (b : CBlockIndex) (nEntropyBit : Z) : option CBlockIndex :=
  if 1 <? nEntropyBit then None
  else Some (set_nFlags b (Z.lor (nFlags b) (if nEntropyBit =? 0 then 0 else BLOCK_STAKE_ENTROPY))).

Definition SetStakeModifier (b : CBlockIndex) (nModifier : Z) (fGenerated : bool) : CBlockIndex :=
  let f := if fGenerated then Z.lor (nFlags b) BLOCK_STAKE_MODIFIER else nFlags b in
  mkBlockIndex (bi_hash b) (bi_nFile b) (bi_nBlockPos b) (nChainTrust b) (nHeight b) (nMint b)
    (nMoneySupply b) f nModifier (nStakeModifierChecksum b) (prevoutStake b) (nStakeTime b)
    (hashProofOfStake b) (bi_nVersion b) (bi_hashMerkleRoot b) (bi_nTime b) (bi_nBits b) (bi_nNonce b).

(** [CBlockIndex(nFile, nBlockPos, block)]; the hash is what [phashBlock] will point to. *)
Definition CBlockIndex_make (nFileIn nBlockPosIn : Z) (hash : uint256) (b : CBlock) : CBlockIndex :=
  let '(stake, time) := GetProofOfStake b in
  let h := header b in
  mkBlockIndex hash nFileIn nBlockPosIn (uint_zero 8) 0 0 0
    (if IsProofOfStake b then Z.lor 0 BLOCK_PROOF_OF_STAKE else 0) 0 0 stake time (uint_zero 8)
    (nVersion h) (hashMerkleRoot h) (nTime h) (nBits h) (nNonce h).

(** [std::sort] of the times. *)
Fixpoint insert_sorted (x : Z) (l : list Z) : list Z :=
  match l with
  | [] => [x]
  | y :: l' => if x <=? y then x :: l else y :: insert_sorted x l'
  end.

Definition sort (l : list Z) : list Z := fold_right insert_sorted [] l.

Definition nMedianTimeSpan : nat := 11.

Definition GetMedianTimePast (pindex : list CBlockIndex) : Z :=
  let times := sort (reverse (map bi_nTime (take nMedianTimeSpan pindex))) in
  nth (length times / 2) times 0.

(** [IsSuperMajority]: are [nRequired] of the last [nToCheck] blocks of the version? *)
Fixpoint super_loop (minVersion : Z) (pstart : list CBlockIndex) (nRequired : Z) (nToCheck : nat) (nFound : Z) : Z :=
  match nToCheck, pstart with
  | S nToCheck, b :: pprev =>
      if nFound <? nRequired then
        super_loop minVersion pprev nRequired nToCheck (if minVersion <=? bi_nVersion b then nFound + 1 else nFound)
      else nFound
  | _, _ => nFound
  end.

Definition IsSuperMajority (minVersion : Z) (pstart : list CBlockIndex) (nRequired : Z) (nToCheck : nat) : bool :=
  nRequired <=? super_loop minVersion pstart nRequired nToCheck 0.

(** ** Network parameters *)

Record chain_params := mkParams {
  bnProofOfWorkLimit : Z; bnProofOfStakeLimit : Z; nStakeMinAge : Z; nCoinbaseMaturity : Z; nModifierInterval : Z;
}.

Definition nTargetSpacing : Z := literal_times 43 10 60.
Definition nStakeTargetSpacing : Z := nTargetSpacing.
Definition nStakeMaxAge : Z := 25 * 24 * 60 * 60.
Definition nTargetTimespan : Z := 60 * 60.

Section Targets.
Context `{BN : OpenSSL_BN}.

Definition limit_bits (n : Z) : Z := setuint256 (op_shr (op_compl (uint_zero 8)) n).

Definition main_net : chain_params :=
  mkParams (limit_bits 20) (limit_bits 24) (15 * 60) 10 (10 * 60).

(** What [LoadBlockIndex] changes when [fTestNet] is set. *)
Definition test_net : chain_params :=
  mkParams (limit_bits 16) (bnProofOfStakeLimit main_net) (15 * 60) 10 60.

Context (params : chain_params).

(** [while (nTime > 0 && bnResult < bnTargetLimit)] *)
Fixpoint max_bits_loop (fuel : nat) (bnTargetLimit bnResult nTime : Z) : Z :=
  match fuel with
  | O => bnResult
  | S fuel =>
      if ((0 <? nTime) && (bnResult <? bnTargetLimit))%bool
      then max_bits_loop fuel bnTargetLimit (bnResult * 2) (nTime - 24 * 60 * 60)
      else bnResult
  end.

(** The loop runs at most once a day of [nTime]. *)
Definition ComputeMaxBits (bnTargetLimit nBase nTime : Z) : Z :=
  let bnResult := SetCompact nBase * 2 in
  let bnResult := max_bits_loop (S (Z.to_nat (nTime / (24 * 60 * 60)))) bnTargetLimit bnResult nTime in
  GetCompact (if bnTargetLimit <? bnResult then bnTargetLimit else bnResult).

Definition ComputeMinWork (nBase nTime : Z) : Z := ComputeMaxBits (bnProofOfWorkLimit params) nBase nTime.
Definition ComputeMinStake (nBase nTime nBlockTime : Z) : Z :=
  ComputeMaxBits (bnProofOfStakeLimit params) nBase nTime.

Fixpoint GetLastBlockIndex (pindex : list CBlockIndex) (fProofOfStake : bool) : list CBlockIndex :=
  match pindex with
  | b :: ((_ :: _) as pprev) =>
      if negb (Bool.eqb (bi_IsProofOfStake b) fProofOfStake) then GetLastBlockIndex pprev fProofOfStake else pindex
  | _ => pindex
  end.

(** The arithmetic of [GetNextTargetRequired] on the two last blocks of the kind. *)
Definition retarget (bnTargetLimit nBitsPrev timePrev timePrevPrev : Z) : Z :=
  let nActualSpacing := s32 (timePrev - timePrevPrev) in
  let nActualSpacing := if nActualSpacing <? 0 then nTargetSpacing else nActualSpacing in
  let nInterval := Z.quot nTargetTimespan nStakeTargetSpacing in
  let bnNew := SetCompact nBitsPrev * s32 ((nInterval - 1) * nStakeTargetSpacing + nActualSpacing + nActualSpacing) in
  let bnNew := Z.quot bnNew ((nInterval + 1) * nStakeTargetSpacing) in
  if ((bnNew <=? 0) || (bnTargetLimit <? bnNew))%bool then bnTargetLimit else bnNew.

Definition GetNextTargetRequired (pindexLast : list CBlockIndex) (fProofOfStake : bool) : Z :=
  let bnTargetLimit := if fProofOfStake then bnProofOfStakeLimit params else bnProofOfWorkLimit params in
  match GetLastBlockIndex pindexLast fProofOfStake with
  | prev :: ((_ :: _) as pprev) =>
      match GetLastBlockIndex pprev fProofOfStake with
      | prevprev :: _ :: _ => GetCompact (retarget bnTargetLimit (bi_nBits prev) (bi_nTime prev) (bi_nTime prevprev))
      | _ => GetCompact bnTargetLimit (* second block *)
      end
  | _ => GetCompact bnTargetLimit (* genesis or first block *)
  end.

Definition CheckProofOfWork (hash : uint256) (nBits : Z) : bool :=
  let bnTarget := SetCompact nBits in
  if ((bnTarget <=? 0) || (bnProofOfWorkLimit params <? bnTarget))%bool then false
  else if op_gt hash (getuint256 bnTarget) then false
  else true.

Definition GetBlockTrust (b : CBlockIndex) : uint256 :=
  let bnTarget := SetCompact (bi_nBits b) in
  if bnTarget <=? 0 then uint_zero 8 else getuint256 (Z.quot (Z.shiftl 1 256) (bnTarget + 1)).
End Targets.

(** ** Transaction checks *)

Lemma check_outputs_spec fUser os acc : 0 <= acc <= MAX_MONEY ->
  check_outputs fUser os acc = Accept <->
  Forall (fun o => 0 <= nValue o /\ (fUser = true -> CTxOut_IsEmpty o = false)) os /\
  acc + sumZ (map nValue os) <= MAX_MONEY.
Proof.
  revert acc. induction os as [|o os IH]; intros acc Hacc; cbn [check_outputs map].
  - split; [intros _; split; [constructor | cbn; lia] | done].
  - change (sumZ (nValue o :: map nValue os)) with (nValue o + sumZ (map nValue os)).
    rewrite Forall_cons.
    assert (Forall (fun o => 0 <= nValue o /\ (fUser = true -> CTxOut_IsEmpty o = false)) os ->
            0 <= sumZ (map nValue os)) as Hpos.
    { intros H. apply sumZ_nonneg, Forall_map. eapply Forall_impl; [done|]. by intros ? []. }
    destruct (CTxOut_IsEmpty o && fUser)%bool eqn:E1; [bprop; split; [done|]; intros [[[_ Hu] _] _]; intuition congruence|].
    destruct (Z.ltb_spec (nValue o) 0); [split; [done|]; intros [[[? _] _] _]; lia|].
    destruct (Z.ltb_spec MAX_MONEY (nValue o)); [split; [done|]; intros [[_ ?] ?]; specialize (Hpos ltac:(done)); lia|].
    rewrite money_s64 by lia.
    destruct (MoneyRange (acc + nValue o)) eqn:E2; cbn [negb].
    + apply MoneyRange_spec in E2. rewrite IH by done.
      bprop. split; intros [? ?]; repeat split; intuition (try congruence; try lia).
    + assert (~ 0 <= acc + nValue o <= MAX_MONEY) by (rewrite <- MoneyRange_spec; congruence).
      split; [done|]. intros [[_ ?] ?]. specialize (Hpos ltac:(done)). lia.
Qed.

Lemma check_duplicates_spec vi seen :
  check_duplicates vi seen = true <-> NoDup (map prevout vi) /\ Forall (fun o => o ∉ seen) (map prevout vi).
Proof.
  revert seen. induction vi as [|i vi IH]; intros seen; cbn [check_duplicates map].
  - split; [intros _; split; constructor | done].
  - case_bool_decide as E; [split; [done|]; intros [_ H]; apply Forall_cons in H; tauto|].
    rewrite IH, NoDup_cons, Forall_cons, !Forall_forall.
    split.
    + intros [Hnd Hs]. repeat split; try done.
      * intros Hin. apply Hs in Hin. rewrite not_elem_of_union, not_elem_of_singleton in Hin. tauto.
      * intros x Hx. apply Hs in Hx. rewrite not_elem_of_union in Hx. tauto.
    + intros [[Hni Hnd] [_ Hs]]. split; [done|]. intros x Hx.
      rewrite not_elem_of_union, not_elem_of_singleton. split; [congruence | by apply Hs].
Qed.

(** What a transaction must satisfy whatever the chain. *)
Definition well_formed (tx : CTransaction) : Prop :=
  vin tx <> [] /\ vout tx <> [] /\ csize CTransaction_codec tx <= MAX_BLOCK_SIZE /\
  Forall (fun o => 0 <= nValue o) (vout tx) /\ sumZ (map nValue (vout tx)) <= MAX_MONEY /\
  (IsCoinBase tx = false -> IsCoinStake tx = false -> Forall (fun o => CTxOut_IsEmpty o = false) (vout tx)) /\
  NoDup (map prevout (vin tx)) /\
  (if IsCoinBase tx then Forall (fun i => (2 <= length (scriptSig i) <= 100)%nat) (vin tx)
   else Forall (fun i => COutPoint_IsNull (prevout i) = false) (vin tx)).

Lemma existsb_Forall {A} (f : A -> bool) l : existsb f l = false <-> Forall (fun x => f x = false) l.
Proof.
  induction l as [|x l IH]; cbn; [split; constructor|].
  rewrite orb_false_iff, Forall_cons, IH. done.
Qed.

Lemma IsCoinBase_one tx : IsCoinBase tx = true -> exists i, vin tx = [i].
Proof. unfold IsCoinBase. destruct (vin tx) as [|i [|]]; try done. by exists i. Qed.

(** The checks after the sizes, as one condition. *)
Lemma check_inputs_spec (tx : CTransaction) i vi : vin tx = i :: vi ->
  (if negb (check_duplicates (vin tx) ∅) then Reject 0
   else if IsCoinBase tx then
     if ((length (scriptSig i) <? 2) || (100 <? length (scriptSig i)))%nat%bool then Reject 100 else Accept
   else if existsb (fun txin => COutPoint_IsNull (prevout txin)) (vin tx) then Reject 10 else Accept) = Accept <->
  NoDup (map prevout (vin tx)) /\
  (if IsCoinBase tx then Forall (fun i => (2 <= length (scriptSig i) <= 100)%nat) (vin tx)
   else Forall (fun i => COutPoint_IsNull (prevout i) = false) (vin tx)).
Proof.
  intros Hv.
  pose proof (check_duplicates_spec (vin tx) ∅) as D.
  assert (NoDup (map prevout (vin tx)) <-> check_duplicates (vin tx) ∅ = true) as ->.
  { rewrite D. split; [intros; split; [done|] | by intros []]. apply Forall_forall. set_solver. }
  destruct (check_duplicates (vin tx) ∅); cbn [negb]; [|split; [done | by intros []]].
  destruct (IsCoinBase tx) eqn:Ecb.
  - apply IsCoinBase_one in Ecb as [j Hj]. rewrite Hj in Hv. injection Hv as -> <-. rewrite Hj, Forall_singleton.
    destruct (Nat.ltb_spec (length (scriptSig i)) 2), (Nat.ltb_spec 100 (length (scriptSig i))); cbn [orb];
      split; intros; try done; intuition lia.
  - rewrite <- (existsb_Forall (fun txin => COutPoint_IsNull (prevout txin))).
    destruct (existsb _ (vin tx)); split; try done; by intros [].
Qed.

(** ** Sums of a schedule *)

(** The total of [f] over the [n] heights from [a]. *)
Definition issued (f : Z -> Z) (a n : Z) : Z := sumZ (map f (seqZ a n)).

Lemma issued_split f a m n : 0 <= m <= n -> issued f a n = issued f a m + issued f (a + m) (n - m).
Proof.
  intros. unfold issued. rewrite <- sumZ_app, <- map_app, <- seqZ_app by lia. do 3 f_equal. lia.
Qed.

Lemma issued_const f v a n : 0 <= n -> (forall h, a <= h < a + n -> f h = v) -> issued f a n = n * v.
Proof.
  intros Hn. revert a. pattern n. apply natlike_ind; [done| |done]. clear n Hn. intros n Hn IH a Hf.
  rewrite (issued_split f a 1) by lia. unfold issued at 1. cbn [seqZ map sumZ fold_right].
  change (seqZ a 1) with [a]. cbn [map sumZ fold_right].
  rewrite Hf by lia. replace (Z.succ n - 1) with n by lia. rewrite IH by (intros; apply Hf; lia). lia.
Qed.

Lemma issued_mono f a n n' : (forall h, 0 <= f h) -> n <= n' -> issued f a n <= issued f a n'.
Proof.
  intros Hf Hn. destruct (Z.le_gt_cases 0 n).
  - rewrite (issued_split f a n n') by lia. assert (0 <= issued f (a + n) (n' - n)); [|lia].
    apply sumZ_nonneg, Forall_map, Forall_forall. auto.
  - unfold issued at 1. rewrite seqZ_nil by lia. apply sumZ_nonneg, Forall_map, Forall_forall. auto.
Qed.

(** ** The proof-of-work schedule *)

(** Decide the tests of [pow_subsidy] from bounds on the height. *)
Ltac subsidy_at :=
  intros; unfold pow_subsidy;
  repeat match goal with
  | |- (if (?a && ?b)%bool then _ else _) = _ =>
      first [replace (a && b)%bool with false by (symmetry; apply andb_false_iff; rewrite Z.ltb_ge, Z.leb_gt; lia)
            | replace (a && b)%bool with true by (symmetry; apply andb_true_iff; rewrite Z.ltb_lt, Z.leb_le; lia)]
  | |- (if ?a <? ?b then _ else _) = _ =>
      first [rewrite (proj2 (Z.ltb_ge a b)) by lia | rewrite (proj2 (Z.ltb_lt a b)) by lia]
  | |- (if ?a <=? ?b then _ else _) = _ =>
      first [rewrite (proj2 (Z.leb_gt a b)) by lia | rewrite (proj2 (Z.leb_le a b)) by lia]
  end; vm_compute; reflexivity.

(** Consecutive stretches of a schedule: a number of heights and the value of each. *)
Fixpoint follows (f : Z -> Z) (a : Z) (l : list (Z * Z)) : Prop :=
  match l with
  | [] => True
  | (m, v) :: l => 0 <= m /\ (forall h, a <= h < a + m -> f h = v) /\ follows f (a + m) l
  end.

Lemma follows_issued f l a : follows f a l ->
  0 <= sumZ (map fst l) /\ issued f a (sumZ (map fst l)) = sumZ (map (fun p => fst p * snd p) l).
Proof.
  revert a. induction l as [|[m v] l IH]; intros a; cbn [follows map fst snd]; [done|].
  intros (Hm & Hv & Hl). apply IH in Hl as [Hl IH']. unfold sumZ in *. cbn [fold_right]. split; [lia|].
  rewrite (issued_split f a m) by lia. rewrite (issued_const f v a m) by (lia || done).
  rewrite Z.add_simpl_l. lia.
Qed.

Definition pow_schedule : list (Z * Z) :=
  [(2, 42000000); (1, 5310000000000000); (9997, 42000000); (51742, 7500000000); (61742, 6600000000);
   (61743, 5500000000); (61741, 5000000000); (61742, 4700000000); (61743, 4400000000); (61741, 4100000000);
   (61742, 3900000000); (61743, 3700000000); (61741, 3500000000); (61742, 3300000000); (61742, 3200000000);
   (29516, 3100000000); (32226, 310000000); (61742, 290000000); (61742, 260000000); (52291, 229999999)].

Definition pow_schedule_rest : list (Z * Z) :=
  [(9451, 229999999); (61742, 200000000); (61742, 170000000); (61742, 140000000); (61428, 100000000)].

Lemma pow_schedule_follows :
  follows pow_subsidy 0 pow_schedule /\ follows pow_subsidy 978421 pow_schedule_rest.
Proof. cbn [follows pow_schedule pow_schedule_rest]. repeat split; try lia; subsidy_at. Qed.

Lemma pow_subsidy_end h : 1234526 <= h -> pow_subsidy h = 0.
Proof. subsidy_at. Qed.

Lemma pow_subsidy_range h : 0 <= pow_subsidy h <= 5310000000000000.
Proof. unfold pow_subsidy. repeat (destruct (_ : bool); [by vm_compute|]). by vm_compute. Qed.

Lemma pow_subsidy_nonneg h : 0 <= pow_subsidy h.
Proof. apply pow_subsidy_range. Qed.

(** Everything the schedule ever issues. *)
Lemma pow_issued_total n : 1234526 <= n -> issued pow_subsidy 0 n = 8843207397938258.
Proof.
  intros Hn. destruct pow_schedule_follows as [F1 F2].
  apply follows_issued in F1 as [_ F1], F2 as [_ F2].
  rewrite (issued_split _ 0 978421), (issued_split _ (0 + 978421) 256105) by lia.
  rewrite (issued_const _ 0 (0 + 978421 + 256105)) by (lia || (intros; apply pow_subsidy_end; lia)).
  change (sumZ (map fst pow_schedule)) with 978421 in F1.
  change (sumZ (map fst pow_schedule_rest)) with 256105 in F2.
  change (0 + 978421) with 978421. rewrite F1, F2, Z.mul_0_r. vm_compute. reflexivity.
Qed.

(** ** Stake rewards *)

Lemma stake_bonus_off mt age bits time fees valueIn prev : 0 <= valueIn <= MAX_MONEY ->
  GetProofOfStakeReward mt age bits time fees valueIn prev =
  s64 (Z.quot (Z.quot (s64 (age * MAX_MINT_PROOF_OF_STAKE)) 365) COIN + fees).
Proof.
  intros Hv. unfold GetProofOfStakeReward. cbv zeta.
  destruct (Z.leb_spec 99000000 (Z.quot valueIn COIN)) as [H|_]; [|by rewrite Z.add_0_r].
  exfalso. rewrite Z.quot_div_nonneg in H by (unfold COIN; lia).
  pose proof (Z.div_le_mono valueIn MAX_MONEY COIN ltac:(unfold COIN; lia) ltac:(lia)) as D.
  change (MAX_MONEY / COIN) with 90000000 in D. lia.
Qed.

(** ** Targets *)

Lemma limit_bits_val `{OpenSSL_BN_ok} n : 0 <= n <= 256 -> limit_bits n = 2 ^ (256 - n) - 1.
Proof.
  intros Hn. unfold limit_bits.
  assert (uint_ok 8 (uint_zero 8)) as Z8 by (split; [done | repeat constructor; done]).
  pose proof (op_compl_ok _ _ Z8) as C8.
  rewrite setuint256_spec by (apply op_shr_ok; [done|lia]).
  rewrite (op_shr_spec 8) by (done || lia). rewrite (op_compl_spec 8) by done.
  change (W32 ^ Z.of_nat 8 - 1 - uval (uint_zero 8)) with (2 ^ 256 - 1).
  replace (2 ^ 256) with (2 ^ (256 - n) * 2 ^ n) by (rewrite <- Z.pow_add_r by lia; f_equal; lia).
  assert (0 < 2 ^ n) by (apply Z.pow_pos_nonneg; lia).
  symmetry. apply Z.div_unique with (2 ^ n - 1); lia.
Qed.

Lemma compact_trunc_pos z : 0 < z -> 0 < compact_trunc z.
Proof.
  intros Hz. unfold compact_trunc. destruct (Z.leb_spec (Z.of_nat (mpi_len z)) 3) as [|Hn]; [done|].
  rewrite Z.abs_eq, Z.sgn_pos by lia.
  assert (256 ^ (Z.of_nat (mpi_len z) - 3) <= z) as Hle.
  { etrans; [|apply (Z.log2_spec z); lia]. change 256 with (2 ^ 8). rewrite <- Z.pow_mul_r by lia.
    apply Z.pow_le_mono_r; [lia|]. unfold mpi_len in *. destruct (Z.eqb_spec z 0); [lia|].
    rewrite Z.abs_eq in * by lia. pose proof (Z.log2_nonneg z).
    pose proof (Z.mul_div_le (Z.log2 z + 1) 8 ltac:(lia)). lia. }
  assert (0 < 256 ^ (Z.of_nat (mpi_len z) - 3)) by (apply Z.pow_pos_nonneg; lia).
  assert (1 <= z / 256 ^ (Z.of_nat (mpi_len z) - 3)) by (apply Z.div_le_lower_bound; lia). nia.
Qed.

Lemma mpi_len_256 z : 0 <= z < 2 ^ 256 -> (mpi_len z <= 255)%nat.
Proof.
  intros Hz. unfold mpi_len. destruct (Z.eqb_spec z 0); [lia|]. rewrite Z.abs_eq by lia.
  assert (Z.log2 z < 256) by (apply Z.log2_lt_pow2; lia). pose proof (Z.log2_nonneg z).
  assert ((Z.log2 z + 1) / 8 < 33) by (apply Z.div_lt_upper_bound; lia).
  assert (0 <= (Z.log2 z + 1) / 8) by (apply Z.div_pos; lia). lia.
Qed.

Lemma retarget_range `{OpenSSL_BN} limit bits t1 t0 : 0 < limit -> 0 < retarget limit bits t1 t0 <= limit.
Proof.
  intros. unfold retarget. cbv zeta. set (N := Z.quot _ _).
  destruct (Z.leb_spec N 0), (Z.ltb_spec limit N); cbn [orb]; lia.
Qed.

(** The spacing that counts: a block before the last but one counts as on schedule. *)
Definition counted_spacing (t1 t0 : Z) : Z := if t1 - t0 <? 0 then nTargetSpacing else t1 - t0.

(** The exponential moving average: twelve parts of the old target spacing and
    two of the last one, over fourteen; the limit when that is not positive or above it. *)
Lemma retarget_average `{OpenSSL_BN} limit bits t1 t0 : 0 < limit -> - 2 ^ 31 <= t1 - t0 < 2 ^ 29 ->
  let average := SetCompact bits * (12 * nTargetSpacing + 2 * counted_spacing t1 t0) / (14 * nTargetSpacing) in
  retarget limit bits t1 t0 = if average <=? 0 then limit else Z.min limit average.
Proof.
  unfold retarget, nStakeTargetSpacing, counted_spacing. change nTargetSpacing with 258. change (Z.quot nTargetTimespan 258) with 13.
  cbv zeta. intros Hl Ha. rewrite (s32_small (t1 - t0)) by lia. set (sp := if t1 - t0 <? 0 then 258 else t1 - t0).
  assert (0 <= sp < 2 ^ 29) by (unfold sp; destruct (Z.ltb_spec (t1 - t0) 0); lia).
  replace ((13 - 1) * 258 + sp + sp) with (12 * 258 + 2 * sp) by lia.
  rewrite s32_small by lia. change ((13 + 1) * 258) with (14 * 258). set (x := _ * (12 * 258 + 2 * sp)).
  destruct (Z.le_gt_cases 0 x) as [Hx|Hx].
  - rewrite Z.quot_div_nonneg by lia. set (N := _ / _). destruct (Z.leb_spec N 0), (Z.ltb_spec limit N); cbn [orb]; lia.
  - assert (Z.quot x (14 * 258) <= 0) by (apply Z.quot_le_upper_bound; lia).
    assert (x / (14 * 258) <= 0) by (apply Z.div_le_upper_bound; lia).
    destruct (Z.leb_spec (Z.quot x (14 * 258)) 0), (Z.leb_spec (x / (14 * 258)) 0); cbn [orb]; lia.
Qed.

Lemma target_word `{OpenSSL_BN_ok} limit t : limit < 2 ^ 256 -> 0 < t <= limit ->
  0 <= GetCompact t < 2 ^ 32 /\ 0 < SetCompact (GetCompact t) <= limit.
Proof.
  intros Hl Ht. assert (mpi_len t <= 255)%nat as Hm by (apply mpi_len_256; lia). split.
  - by apply SetCompact_GetCompact_body.
  - rewrite SetCompact_GetCompact by done. pose proof (compact_trunc_bounds t ltac:(lia)).
    pose proof (compact_trunc_pos t ltac:(lia)). lia.
Qed.

Lemma CheckProofOfWork_spec `{OpenSSL_BN_ok} params hash bits :
  bnProofOfWorkLimit params < 2 ^ 256 -> uint_ok 8 hash ->
  CheckProofOfWork params hash bits = true <->
  0 < SetCompact bits <= bnProofOfWorkLimit params /\ uval hash <= SetCompact bits.
Proof.
  intros Hl Hh. unfold CheckProofOfWork. cbv zeta.
  destruct (Z.leb_spec (SetCompact bits) 0), (Z.ltb_spec (bnProofOfWorkLimit params) (SetCompact bits));
    cbn [orb]; try (split; [done|lia]).
  assert (Z.log2 (Z.abs (SetCompact bits)) < 2 ^ 30) as Hlog.
  { rewrite Z.abs_eq by lia. assert (Z.log2 (SetCompact bits) < 256) by (apply Z.log2_lt_pow2; lia). lia. }
  destruct (getuint256_spec _ Hlog) as [Hok Hv]. rewrite (op_gt_spec 8) by done. rewrite Hv.
  rewrite Z.abs_eq, Z.mod_small by lia. destruct (Z.ltb_spec (SetCompact bits) (uval hash)); split; intros; done || lia.
Qed.

Lemma CheckTransaction_spec tx : CheckTransaction tx = Accept <-> well_formed tx.
Proof.
  unfold CheckTransaction, well_formed.
  destruct (vin tx) as [|i vi] eqn:Ei; [split; [done | by intros []]|].
  destruct (vout tx) as [|o os] eqn:Eo; [split; [done | by intros (_ & ? & _)]|]. rewrite <- Ei, <- Eo.
  destruct (Z.ltb_spec MAX_BLOCK_SIZE (csize CTransaction_codec tx)); [split; [done|]; intros (_ & _ & ? & _); lia|].
  pose proof (check_outputs_spec (negb (IsCoinBase tx) && negb (IsCoinStake tx)) (vout tx) 0) as Ho.
  rewrite Z.add_0_l in Ho. specialize (Ho ltac:(by vm_compute)). rewrite Forall_and in Ho.
  pose proof (check_inputs_spec tx i vi Ei) as Hi.
  destruct (check_outputs _ _ _) eqn:Ec.
  - rewrite Hi. destruct (proj1 Ho eq_refl) as [[Hv He] Hs]. split; [|tauto]. intros [? ?].
    repeat split; try done; try congruence.
    intros E1 E2. rewrite E1, E2 in He. eapply Forall_impl; [exact He|]. cbn. auto.
  - split; [done|]. intros (_ & _ & _ & Hv & Hs & He & _). exfalso.
    assert (Reject nDoS = Accept) as X; [|discriminate X]. apply Ho. repeat split; try done.
    destruct (IsCoinBase tx), (IsCoinStake tx); cbn [negb andb]; try (apply Forall_forall; done).
    eapply Forall_impl; [by apply He|]. done.
Qed.

Lemma CheckTransaction_value tx : CheckTransaction tx = Accept -> GetValueOut tx = Some (sumZ (map nValue (vout tx))).
Proof.
  intros (_ & _ & _ & Hv & Hs & _)%CheckTransaction_spec. unfold GetValueOut.
  rewrite value_out_loop_spec by (by vm_compute). by rewrite decide_True.
Qed.

(** ** Properties *)

(** C34: [CheckTransaction] accepts exactly the well-formed transactions: inputs
    and outputs present, at most MAX_BLOCK_SIZE bytes, non-negative outputs that
    sum to at most MAX_MONEY (no empty one in a user transaction), no outpoint
    spent twice, and no null outpoint unless it is a coinbase, whose script has
    2 to 100 bytes.  What it accepts has a value: [GetValueOut] does not throw. *)
Theorem CheckTransaction_correct (tx : CTransaction) :
  (CheckTransaction tx = Accept <-> well_formed tx) /\
  (CheckTransaction tx = Accept -> GetValueOut tx = Some (sumZ (map nValue (vout tx)))).
Proof.
  split; [apply CheckTransaction_spec | apply CheckTransaction_value].
Qed.

Lemma CheckTransaction_correct_witness :
  let tx := mkTx 1 0 [mkTxIn (mkOutPoint (uint_zero 8) 0) [] UINT_MAX] [mkTxOut 5 [OP_1]; mkTxOut 7 [OP_1]] 0 in
  CheckTransaction tx = Accept /\ GetValueOut tx = Some 12.
Proof.
  cbv zeta. destruct (CheckTransaction_correct (mkTx 1 0 [mkTxIn (mkOutPoint (uint_zero 8) 0) [] UINT_MAX]
    [mkTxOut 5 [OP_1]; mkTxOut 7 [OP_1]] 0)) as [_ H].
  split; [vm_compute; reflexivity | apply H; vm_compute; reflexivity].
Defined.

(** C36: the proof-of-work schedule: heights 0 to LAST_POW_BLOCK issue
    88,034,024.47947709 coins, no number of blocks ever issues more than
    88,432,073.97938258, and so the total stays within MAX_MONEY. *)
Theorem pow_supply_bounded (n : Z) :
  issued pow_subsidy 0 (LAST_POW_BLOCK + 1) = 8803402447947709 /\
  0 <= issued pow_subsidy 0 n <= 8843207397938258 /\
  MoneyRange (issued pow_subsidy 0 n) = true.
Proof.
  assert (0 <= issued pow_subsidy 0 n <= 8843207397938258) as H.
  { split.
    - apply sumZ_nonneg, Forall_map, Forall_forall. intros. apply pow_subsidy_nonneg.
    - rewrite <- (pow_issued_total (Z.max n 1234526)) by lia. apply issued_mono; [apply pow_subsidy_nonneg|lia]. }
  split; [|split; [done|]].
  - destruct pow_schedule_follows as [F _]. apply follows_issued in F as [_ F].
    change (sumZ (map fst pow_schedule)) with (LAST_POW_BLOCK + 1) in F. rewrite F. clear F. vm_compute. reflexivity.
  - apply MoneyRange_spec. assert (MAX_MONEY = 9000000000000000) by reflexivity. lia.
Qed.

(** The bonus that the draws give from 99 million coins on. *)
Lemma stake_bonus mt age bits time fees valueIn prev : exists nBonus,
  GetProofOfStakeReward mt age bits time fees valueIn prev =
    s64 (Z.quot (Z.quot (s64 (age * MAX_MINT_PROOF_OF_STAKE)) 365) COIN + nBonus + fees) /\
  0 <= nBonus <= 2100 * COIN /\ (valueIn < 99000000 * COIN -> nBonus = 0).
Proof.
  unfold GetProofOfStakeReward. cbv zeta. destruct (Z.leb_spec 99000000 (Z.quot valueIn COIN)) as [H|_].
  - eexists. split; [done|]. split; [repeat destruct (_ <=? _); unfold COIN; lia|]. intros Hlt. exfalso.
    assert (Z.quot valueIn COIN < 99000000); [|lia]. destruct (Z.le_gt_cases 0 valueIn); [apply Z.quot_lt_upper_bound; unfold COIN in *; lia|].
    assert (Z.quot valueIn COIN <= 0) by (apply Z.quot_le_upper_bound; unfold COIN; lia). lia.
  - exists 0. split; [done|]. unfold COIN. lia.
Qed.

(** C37: the stake reward is one year's 12 percent of the coin age, plus a bonus and
    the fees.  The bonus is at most 2,100 coins and zero unless the inputs are worth
    99 million.  The product of coin age and rate is a signed 64-bit number: from
    2^63 on, at some 7,686 coin-days, it counts as negative, and the reward falls
    below the bonus and the fees by what is missing to 2^64. *)
Theorem stake_reward_range (mt : Z -> Z -> Z) nCoinAge bits time nFees nValueIn prevHash :
  0 <= nCoinAge -> nCoinAge * MAX_MINT_PROOF_OF_STAKE < 2 ^ 64 -> 0 <= nFees <= MAX_MONEY ->
  exists nBonus, 0 <= nBonus <= 2100 * COIN /\ (nValueIn < 99000000 * COIN -> nBonus = 0) /\
  GetProofOfStakeReward mt nCoinAge bits time nFees nValueIn prevHash =
    (if nCoinAge * MAX_MINT_PROOF_OF_STAKE <? 2 ^ 63 then nCoinAge * MAX_MINT_PROOF_OF_STAKE / 365 / COIN
     else - ((2 ^ 64 - nCoinAge * MAX_MINT_PROOF_OF_STAKE) / 365 / COIN)) + nBonus + nFees.
Proof.
  intros Ha Hp Hf. destruct (stake_bonus mt nCoinAge bits time nFees nValueIn prevHash) as (nBonus & -> & Hb & H0).
  exists nBonus. split; [done|]. split; [done|]. assert (0 <= nCoinAge * MAX_MINT_PROOF_OF_STAKE) by (unfold MAX_MINT_PROOF_OF_STAKE, CENT; lia).
  set (x := nCoinAge * MAX_MINT_PROOF_OF_STAKE) in *.
  assert (Hq : forall y, 0 <= y <= 2 ^ 63 -> Z.quot (Z.quot y 365) COIN = y / 365 / COIN /\ 0 <= y / 365 / COIN < 2 ^ 40).
  { intros y Hy. assert (0 <= y / 365 < 2 ^ 63) by (split; [apply Z.div_pos | apply Z.div_lt_upper_bound]; lia).
    rewrite (Z.quot_div_nonneg y), Z.quot_div_nonneg by (unfold COIN; lia). split; [done|].
    split; [apply Z.div_pos | apply Z.div_lt_upper_bound]; unfold COIN; lia. }
  unfold MAX_MONEY, COIN in Hf, Hb. destruct (Z.ltb_spec x (2 ^ 63)) as [Hlt|Hge].
  - rewrite (s64_small x) by lia. destruct (Hq x ltac:(lia)) as [-> ?]. apply s64_small. lia.
  - replace (s64 x) with (- (2 ^ 64 - x)) by (unfold s64; rewrite <- (Z.mod_add (x + 2 ^ 63) (-1)), Z.mod_small; lia). rewrite !Z.quot_opp_l by (unfold COIN; lia).
    destruct (Hq (2 ^ 64 - x) ltac:(lia)) as [-> ?]. apply s64_small. lia.
Qed.

(** At 7,687 coin-days, without fees and bonus, the reward is negative. *)
Lemma stake_reward_range_witness :
  GetProofOfStakeReward (fun _ _ => 0) (7687 * COIN) 0 0 0 (500 * COIN) (uint_zero 8) < 0.
Proof.
  destruct (stake_reward_range (fun _ _ => 0) (7687 * COIN) 0 0 0 (500 * COIN) (uint_zero 8)) as (nBonus & _ & H0 & ->);
    [vm_compute; discriminate | vm_compute; reflexivity | vm_compute; split; discriminate|].
  rewrite H0 by (vm_compute; reflexivity). vm_compute. reflexivity.
Defined.

(** C35: difficulty.  Whatever the chain, the target [GetNextTargetRequired] asks
    for is a positive number up to the limit, in a 32-bit compact word.  With fewer
    than two earlier blocks of the kind that have a parent it is the limit;
    otherwise, for times less than 2^29 seconds apart, it is the exponential moving
    average: the old target times twelve parts of the schedule and two of the last
    spacing, over fourteen, where a negative spacing counts as on schedule and an
    average that is not positive, or above the limit, gives the limit.  And
    [CheckProofOfWork] against the word accepts exactly the hashes up to the target. *)
Theorem next_target_correct `{OpenSSL_BN_ok} (params : chain_params) (pindexLast : list CBlockIndex) (fProofOfStake : bool) (hash : uint256) :
  let limit := if fProofOfStake then bnProofOfStakeLimit params else bnProofOfWorkLimit params in
  let bits := GetNextTargetRequired params pindexLast fProofOfStake in
  0 < bnProofOfStakeLimit params < 2 ^ 256 -> 0 < bnProofOfWorkLimit params < 2 ^ 256 -> uint_ok 8 hash ->
  (0 <= bits < 2 ^ 32 /\ 0 < SetCompact bits <= limit) /\
  ((length (GetLastBlockIndex (tail (GetLastBlockIndex pindexLast fProofOfStake)) fProofOfStake) <= 1)%nat -> bits = GetCompact limit) /\
  (forall prev pprev prevprev rest,
    GetLastBlockIndex pindexLast fProofOfStake = prev :: pprev ->
    GetLastBlockIndex pprev fProofOfStake = prevprev :: rest -> rest <> [] ->
    - 2 ^ 31 <= bi_nTime prev - bi_nTime prevprev < 2 ^ 29 ->
    let spacing := if bi_nTime prev <? bi_nTime prevprev then nTargetSpacing else bi_nTime prev - bi_nTime prevprev in
    let average := SetCompact (bi_nBits prev) * (12 * nTargetSpacing + 2 * spacing) / (14 * nTargetSpacing) in
    bits = GetCompact (if average <=? 0 then limit else Z.min limit average)) /\
  (fProofOfStake = false -> CheckProofOfWork params hash bits = true <-> uval hash <= SetCompact bits).
Proof.
  intros limit bits Hs Hw Hh.
  assert (0 < limit < 2 ^ 256) as Hl by (unfold limit; by destruct fProofOfStake).
  assert (0 <= bits < 2 ^ 32 /\ 0 < SetCompact bits <= limit) as Hb.
  { unfold bits, GetNextTargetRequired. fold limit.
    repeat case_match; apply target_word; try lia; apply retarget_range; lia. }
  split; [done|split; [|split]].
  - unfold bits, GetNextTargetRequired. fold limit. destruct (GetLastBlockIndex pindexLast fProofOfStake) as [|prev [|x pprev]]; cbn [tail]; [done..|].
    destruct (GetLastBlockIndex (x :: pprev) fProofOfStake) as [|y [|z rest]]; cbn [length]; [done..|lia].
  - intros prev pprev prevprev rest E1 E2 Hne Hsp spacing average.
    unfold bits, GetNextTargetRequired. fold limit. rewrite E1.
    destruct pprev as [|x pprev]; [discriminate E2|]. rewrite E2. destruct rest; [done|].
    rewrite retarget_average by (done || lia). unfold average, spacing, counted_spacing.
    replace (bi_nTime prev - bi_nTime prevprev <? 0) with (bi_nTime prev <? bi_nTime prevprev); [done|].
    destruct (Z.ltb_spec (bi_nTime prev) (bi_nTime prevprev)), (Z.ltb_spec (bi_nTime prev - bi_nTime prevprev) 0); lia.
  - intros ->. rewrite CheckProofOfWork_spec by (done || lia). unfold limit in Hb. tauto.
Qed.

Lemma next_target_correct_witness :
  let blk t := mkBlockIndex (uint_zero 8) 0 0 (uint_zero 8) 0 0 0 0 0 0 COutPoint_null 0 (uint_zero 8) 6 (uint_zero 8) t 0x1d00ffff 0 in
  @GetNextTargetRequired reference_BN (@main_net reference_BN) [blk 1258; blk 1000; blk 0] false = 0x1d00ffff.
Proof.
  intros blk.
  destruct (@next_target_correct reference_BN reference_BN_ok (@main_net reference_BN) [blk 1258; blk 1000; blk 0] false (uint_zero 8))
    as (_ & _ & H & _); [vm_compute; split; congruence | vm_compute; split; congruence
    | split; [reflexivity | repeat constructor; done] |].
  rewrite (H (blk 1258) [blk 1000; blk 0] (blk 1000) [blk 0]); vm_compute; try split; congruence.
Defined.
