(* ===== verification/Ledger.v ===== *)
(** * The transaction index: connecting and disconnecting transactions and blocks (main.cpp)

    The transaction database is the map from transaction ids to [CTxIndex]
    records; the block files are a function from disk positions to the
    transaction stored there.  A function that can return false or throw is in
    the result monad below; changes made before a failure are not returned,
    since the callers abort the database transaction. *)

From S2P Require Import Prelude Uint256 Serialize BigNum Tx Merkle Script Interp Standard Consensus.

(** ** Results *)

(** [Ok], a [return false] with the score [DoS] added, or an exception. *)
Inductive res (A : Type) := Ok (a : A) | Fail (nDoS : Z) | Throw.
Arguments Ok {A}.
Arguments Fail {A}.
Arguments Throw {A}.

Definition rbind {A B} (r : res A) (k : A -> res B) : res B :=
  match r with Ok a => k a | Fail n => Fail n | Throw => Throw end.

Definition of_verdict (v : verdict) : res unit := match v with Accept => Ok () | Reject n => Fail n end.
Definition of_option {A} (o : option A) : res A := match o with Some a => Ok a | None => Throw end.
Definition guard_ (b : bool) (nDoS : Z) : res unit := if b then Ok () else Fail nDoS.

Declare Scope res_scope.
Notation "'let*' x := r 'in' k" := (rbind r (fun x => k))
  (at level 10, x pattern, r at level 200, k at level 200) : res_scope.
Notation "r ;; k" := (rbind r (fun _ => k)) (at level 100, k at level 200, right associativity) : res_scope.
#[global] Open Scope res_scope.

Abbreviation txindex_map := (gmap uint256 CTxIndex).
Abbreviation MapPrevTx := (gmap uint256 (CTxIndex * CTransaction)).

Definition txindex_null : CTxIndex := mkTxIndex CDiskTxPos_null [].
Definition pos_mempool : CDiskTxPos := mkDiskTxPos 1 1 1.

(** ** The block index on disk, and the wallets *)

Record CDiskBlockIndex := mkDiskBlockIndex { d_index : CBlockIndex; hashPrev : uint256; hashNext : uint256 }.

Definition head_hash (pindex : list CBlockIndex) : uint256 := match pindex with [] => uint_zero 8 | b :: _ => bi_hash b end.

(** The record written for the first block of [pindex], if there is one. *)
Definition CDiskBlockIndex_make (pindex : list CBlockIndex) (hashNext : uint256) : list CDiskBlockIndex :=
  match pindex with [] => [] | b :: pprev => [mkDiskBlockIndex b (head_hash pprev) hashNext] end.

(** The calls of [SyncWithWallets] with the block, and the block records written. *)
Record wallet_sync := mkSync { ws_tx : CTransaction; ws_fUpdate : bool; ws_fConnect : bool }.
Record effects := mkEffects { WriteBlockIndex : list CDiskBlockIndex; SyncWithWallets : list wallet_sync }.

(** ** Inputs *)

Section Inputs.
Context `{HD : Digests}.
(** The block files, the memory pool's transactions and [GetAdjustedTime]. *)
Context (ReadTxFromDisk : CDiskTxPos -> option CTransaction).
Context (mempool : gmap uint256 CTransaction).
Context (nAdjustedTime : Z).

Definition CTransaction_null : CTransaction := mkTx 1 (u32 nAdjustedTime) [] [] 0.

Record fetched := mkFetched { f_ok : bool; f_invalid : bool; f_inputs : MapPrevTx }.

(** The first loop: find each previous transaction.  On failure [inputsRet] keeps
    the entry made for the input that could not be found. *)
Fixpoint fetch_loop (txdb mapTestPool : txindex_map) (fBlock fMiner : bool) (vi : list CTxIn) (inputsRet : MapPrevTx)
    : bool * MapPrevTx :=
  match vi with
  | [] => (true, inputsRet)
  | txin :: vi =>
      let hash := out_hash (prevout txin) in
      if bool_decide (is_Some (inputsRet !! hash)) then fetch_loop txdb mapTestPool fBlock fMiner vi inputsRet
      else
        let found :=
          if (fBlock || fMiner)%bool then
            match mapTestPool !! hash with Some i => Some i | None => txdb !! hash end
          else txdb !! hash in
        match found with
        | None =>
            if (fBlock || fMiner)%bool then (false, <[hash := (txindex_null, CTransaction_null)]> inputsRet)
            else
              match mempool !! hash with
              | None => (false, <[hash := (txindex_null, CTransaction_null)]> inputsRet)
              | Some txPrev =>
                  fetch_loop txdb mapTestPool fBlock fMiner vi
                    (<[hash := (CTxIndex_make CDiskTxPos_null (length (vout txPrev)), txPrev)]> inputsRet)
              end
        | Some txindex =>
            match (if decide (pos txindex = pos_mempool) then mempool !! hash else ReadTxFromDisk (pos txindex)) with
            | None => (false, <[hash := (txindex, CTransaction_null)]> inputsRet)
            | Some txPrev => fetch_loop txdb mapTestPool fBlock fMiner vi (<[hash := (txindex, txPrev)]> inputsRet)
            end
        end
  end.

(** [prevout.n] is within both the outputs and the spent flags. *)
Definition index_in_range (inputs : MapPrevTx) (o : COutPoint) : bool :=
  match inputs !! out_hash o with
  | None => false
  | Some (txindex, txPrev) =>
      (out_n o <? Z.of_nat (length (vout txPrev))) && (out_n o <? Z.of_nat (length (vSpent txindex)))
  end%bool.

Definition FetchInputs (txdb mapTestPool : txindex_map) (fBlock fMiner : bool) (tx : CTransaction) (inputsRet : MapPrevTx)
    : fetched :=
  if IsCoinBase tx then mkFetched true false inputsRet
  else
    let '(ok, inputs) := fetch_loop txdb mapTestPool fBlock fMiner (vin tx) inputsRet in
    if negb ok then mkFetched false false inputs
    else if forallb (fun txin => index_in_range inputs (prevout txin)) (vin tx) then mkFetched true false inputs
    else mkFetched false true inputs.

(** [None] when it throws. *)
Definition GetOutputFor (txin : CTxIn) (inputs : MapPrevTx) : option CTxOut :=
  match inputs !! out_hash (prevout txin) with
  | None => None
  | Some (_, txPrev) =>
      if Z.of_nat (length (vout txPrev)) <=? out_n (prevout txin) then None
      else vout txPrev !! Z.to_nat (out_n (prevout txin))
  end.

Fixpoint value_in_loop (inputs : MapPrevTx) (vi : list CTxIn) (nResult : Z) : option Z :=
  match vi with
  | [] => Some nResult
  | txin :: vi =>
      match GetOutputFor txin inputs with
      | None => None
      | Some o => value_in_loop inputs vi (s64 (nResult + nValue o))
      end
  end.

Definition GetValueMapIn (tx : CTransaction) (inputs : MapPrevTx) : option Z :=
  if IsCoinBase tx then Some 0 else value_in_loop inputs (vin tx) 0.

Fixpoint p2sh_sigops_loop (inputs : MapPrevTx) (vi : list CTxIn) (nSigOps : Z) : option Z :=
  match vi with
  | [] => Some nSigOps
  | txin :: vi =>
      match GetOutputFor txin inputs with
      | None => None
      | Some o =>
          p2sh_sigops_loop inputs vi
            (if IsPayToScriptHash (scriptPubKey o)
             then u32 (nSigOps + GetSigOpCount_p2sh (scriptPubKey o) (scriptSig txin)) else nSigOps)
      end
  end.

Definition GetP2SHSigOpCount (tx : CTransaction) (inputs : MapPrevTx) : option Z :=
  if IsCoinBase tx then Some 0 else p2sh_sigops_loop inputs (vin tx) 0.

(** ** ConnectInputs *)

(** The maturity walk: is one of the last [nCoinbaseMaturity] blocks the one at [p]? *)
Fixpoint immature (nCoinbaseMaturity nTipHeight : Z) (pindex : list CBlockIndex) (p : CDiskTxPos) : bool :=
  match pindex with
  | [] => false
  | b :: pprev =>
      if nTipHeight - nHeight b <? nCoinbaseMaturity then
        if ((bi_nBlockPos b =? nBlockPos p) && (bi_nFile b =? nFile p))%bool then true
        else immature nCoinbaseMaturity nTipHeight pprev p
      else false
  end.

Definition is_immature (nCoinbaseMaturity : Z) (pindexBlock : list CBlockIndex) (p : CDiskTxPos) : bool :=
  match pindexBlock with
  | [] => false
  | tip :: _ => immature nCoinbaseMaturity (nHeight tip) pindexBlock p
  end.

(** The cheap checks of each input, and the running value. *)
Fixpoint connect_checks (nCoinbaseMaturity : Z) (pindexBlock : list CBlockIndex) (inputs : MapPrevTx)
    (nTime : Z) (vi : list CTxIn) (nValueIn : Z) : res Z :=
  match vi with
  | [] => Ok nValueIn
  | txin :: vi =>
      let o := prevout txin in
      let* (txindex, txPrev) := of_option (inputs !! out_hash o) in
      guard_ (index_in_range inputs o) 100 ;;
      guard_ (negb ((IsCoinBase txPrev || IsCoinStake txPrev)
                    && is_immature nCoinbaseMaturity pindexBlock (pos txindex)))%bool 0 ;;
      guard_ (tx_nTime txPrev <=? nTime) 100 ;;
      let* txout := of_option (vout txPrev !! Z.to_nat (out_n o)) in
      let nValueIn := s64 (nValueIn + nValue txout) in
      guard_ (MoneyRange (nValue txout) && MoneyRange nValueIn)%bool 100 ;;
      connect_checks nCoinbaseMaturity pindexBlock inputs nTime vi nValueIn
  end.

Definition mark_spent (posThisTx : CDiskTxPos) (n : Z) (txindex : CTxIndex) : CTxIndex :=
  mkTxIndex (pos txindex) (<[Z.to_nat n := posThisTx]> (vSpent txindex)).

Context {W : Type} (VerifySig : CTransaction -> CTransaction -> nat -> W -> bool * W).

(** The second loop: double-spend check, signature, and the spent mark, written
    back to the pool when the transaction is for a block. *)
Fixpoint connect_spends (fBlock fMiner fSkipSigs : bool) (tx : CTransaction) (posThisTx : CDiskTxPos)
    (vi : list CTxIn) (i : nat) (inputs : MapPrevTx) (mapTestPool : txindex_map) (w : W) : res (txindex_map * W) :=
  match vi with
  | [] => Ok (mapTestPool, w)
  | txin :: vi =>
      let hash := out_hash (prevout txin) in
      let n := out_n (prevout txin) in
      let* (txindex, txPrev) := of_option (inputs !! hash) in
      let* spent := of_option (vSpent txindex !! Z.to_nat n) in
      guard_ (CDiskTxPos_IsNull spent) 0 ;;
      let '(fSig, w) := if fSkipSigs then (true, w) else VerifySig txPrev tx i w in
      guard_ fSig 100 ;;
      let txindex := mark_spent posThisTx n txindex in
      let mapTestPool := if (fBlock || fMiner)%bool then <[hash := txindex]> mapTestPool else mapTestPool in
      connect_spends fBlock fMiner fSkipSigs tx posThisTx vi (S i) (<[hash := (txindex, txPrev)]> inputs) mapTestPool w
  end.

(** [fSkipSigs] is [fBlock && nBestHeight < GetTotalBlocksEstimate()]. *)
Definition ConnectInputs (nCoinbaseMaturity : Z) (inputs : MapPrevTx) (mapTestPool : txindex_map) (posThisTx : CDiskTxPos)
    (pindexBlock : list CBlockIndex) (fBlock fMiner fSkipSigs : bool) (tx : CTransaction) (w : W) : res (txindex_map * W) :=
  if IsCoinBase tx then Ok (mapTestPool, w)
  else
    let* nValueIn := connect_checks nCoinbaseMaturity pindexBlock inputs (tx_nTime tx) (vin tx) 0 in
    let* (pool, w) := connect_spends fBlock fMiner fSkipSigs tx posThisTx (vin tx) 0 inputs mapTestPool w in
    if IsCoinStake tx then Ok (pool, w)
    else
      let* nValueOut := of_option (GetValueOut tx) in
      guard_ (nValueOut <=? nValueIn) 100 ;;
      let nTxFee := nValueIn - nValueOut in
      guard_ (GetMinFee tx 1 GMF_BLOCK 0 <=? nTxFee) (if fBlock then 100 else 0) ;;
      guard_ (MoneyRange nTxFee) 100 ;;
      Ok (pool, w).

(** ** DisconnectInputs *)

Fixpoint disconnect_loop (vi : list CTxIn) (txdb : txindex_map) : option txindex_map :=
  match vi with
  | [] => Some txdb
  | txin :: vi =>
      let hash := out_hash (prevout txin) in
      let n := out_n (prevout txin) in
      match txdb !! hash with
      | None => None
      | Some txindex =>
          if Z.of_nat (length (vSpent txindex)) <=? n then None
          else disconnect_loop vi (<[hash := mark_spent CDiskTxPos_null n txindex]> txdb)
      end
  end.

Definition DisconnectInputs (tx : CTransaction) (txdb : txindex_map) : option txindex_map :=
  match (if IsCoinBase tx then Some txdb else disconnect_loop (vin tx) txdb) with
  | None => None
  | Some txdb => Some (delete (CTransaction_GetHash tx) txdb)
  end.

Fixpoint disconnect_txs (txs : list CTransaction) (txdb : txindex_map) : option txindex_map :=
  match txs with
  | [] => Some txdb
  | tx :: txs => match DisconnectInputs tx txdb with None => None | Some txdb => disconnect_txs txs txdb end
  end.

(** [pindex] is the block's record followed by its ancestors'. *)
Definition DisconnectBlock (b : CBlock) (pindex : list CBlockIndex) (txdb : txindex_map) : option (txindex_map * effects) :=
  match disconnect_txs (reverse (vtx b)) txdb with
  | None => None
  | Some txdb =>
      Some (txdb, mkEffects (CDiskBlockIndex_make (drop 1 pindex) (uint_zero 8))
                    (map (fun tx => mkSync tx false false) (vtx b)))
  end.
End Inputs.

(** ** Block checks *)

Section Blocks.
Context `{HD : Digests} `{BN : OpenSSL_BN} `{EC : ECDSA}.

Definition CheckBlockSignature (b : CBlock) : bool :=
  if IsProofOfWork b then match vchBlockSig b with [] => true | _ => false end
  else
    match vtx b !! 1%nat ≫= (fun tx => vout tx !! 1%nat) with
    | None => false
    | Some txout =>
        match Solver (scriptPubKey txout) with
        | (true, TX_PUBKEY, vSolutions) =>
            let vchPubKey := nth 0 vSolutions [] in
            if negb (o2i_ECPublicKey vchPubKey) then false
            else
              match vchBlockSig b with
              | [] => false
              | _ => ECDSA_verify (CBlockHeader_GetHash (header b)) (vchBlockSig b) vchPubKey
              end
        | _ => false
        end
    end.

(** kernel.cpp *)
Definition CheckCoinStakeTimestamp (nTimeBlock nTimeTx : Z) : bool := nTimeBlock =? nTimeTx.

(** The coinstake rules, applied only when the second transaction is one. *)
Definition check_stake_block (fCheckSig : bool) (b : CBlock) (coinbase : CTransaction) : res unit :=
  if IsProofOfStake b then
    guard_ (match vout coinbase with [o1; o2] => CTxOut_IsEmpty o1 && CTxOut_IsEmpty o2 | _ => false end)%bool 0 ;;
    guard_ (forallb (fun tx => negb (IsCoinStake tx)) (drop 2 (vtx b))) 100 ;;
    guard_ (CheckCoinStakeTimestamp (nTime (header b)) (snd (GetProofOfStake b))) 50 ;;
    guard_ (negb (fCheckSig && negb (CheckBlockSignature b)))%bool 100
  else Ok ().

Fixpoint check_txs (nBlockTime : Z) (txs : list CTransaction) : res unit :=
  match txs with
  | [] => Ok ()
  | tx :: txs =>
      of_verdict (CheckTransaction tx) ;;
      guard_ (tx_nTime tx <=? nBlockTime) 50 ;;
      check_txs nBlockTime txs
  end.

Definition block_sigops (txs : list CTransaction) : Z := fold_left (fun n tx => u32 (n + GetLegacySigOpCount tx)) txs 0.

Definition CheckBlock (params : chain_params) (nAdjustedTime : Z) (fCheckPOW fCheckMerkleRoot fCheckSig : bool)
    (b : CBlock) : res unit :=
  let h := header b in
  match vtx b with
  | [] => Fail 100
  | coinbase :: rest =>
      guard_ ((Z.of_nat (length (vtx b)) <=? MAX_BLOCK_SIZE) && (csize (CBlock_codec false) b <=? MAX_BLOCK_SIZE))%bool 100 ;;
      guard_ (negb (fCheckPOW && IsProofOfWork b
                    && negb (CheckProofOfWork params (CBlockHeader_GetHash h) (nBits h))))%bool 50 ;;
      guard_ (nTime h <=? nAdjustedTime + GetClockDrift (nTime h)) 0 ;;
      guard_ (IsCoinBase coinbase) 100 ;;
      guard_ (forallb (fun tx => negb (IsCoinBase tx)) rest) 100 ;;
      guard_ (nTime h <=? tx_nTime coinbase + GetClockDrift (tx_nTime coinbase)) 50 ;;
      check_stake_block fCheckSig b coinbase ;;
      check_txs (nTime h) (vtx b) ;;
      guard_ (bool_decide (NoDup (map CTransaction_GetHash (vtx b)))) 100 ;;
      guard_ (block_sigops (vtx b) <=? MAX_BLOCK_SIGOPS) 100 ;;
      guard_ (negb (fCheckMerkleRoot && op_ne (hashMerkleRoot h) (BuildMerkleTree b)))%bool 100
  end.

(** ** Coin age *)

Context (ReadTxFromDisk : CDiskTxPos -> option CTransaction).
(** The header of the block at a file and position. *)
Context (ReadHeaderFromDisk : Z -> Z -> option CBlockHeader).

Fixpoint coin_age_loop (nStakeMinAge : Z) (txdb : txindex_map) (nTimeTx : Z) (vi : list CTxIn) (bnCentSecond : Z) : option Z :=
  match vi with
  | [] => Some bnCentSecond
  | txin :: vi =>
      let o := prevout txin in
      let prev :=
        match txdb !! out_hash o with
        | None => None
        | Some txindex =>
            match ReadTxFromDisk (pos txindex) with
            | None => None
            | Some txPrev =>
                if Z.of_nat (length (vout txPrev)) <=? out_n o then None
                else match vout txPrev !! Z.to_nat (out_n o) with
                     | None => None
                     | Some txout => Some (txindex, txPrev, txout)
                     end
            end
        end in
      match prev with
      | None => coin_age_loop nStakeMinAge txdb nTimeTx vi bnCentSecond
      | Some (txindex, txPrev, txout) =>
          if nTimeTx <? tx_nTime txPrev then None
          else
            match ReadHeaderFromDisk (nFile (pos txindex)) (nBlockPos (pos txindex)) with
            | None => None
            | Some h =>
                if nTimeTx <? nTime h + nStakeMinAge then coin_age_loop nStakeMinAge txdb nTimeTx vi bnCentSecond
                else coin_age_loop nStakeMinAge txdb nTimeTx vi
                       (bnCentSecond + Z.quot (nValue txout * (nTimeTx - tx_nTime txPrev)) CENT)
            end
      end
  end.

Definition GetCoinAge (nStakeMinAge : Z) (txdb : txindex_map) (tx : CTransaction) : option Z :=
  if IsCoinBase tx then Some 0
  else
    match coin_age_loop nStakeMinAge txdb (tx_nTime tx) (vin tx) 0 with
    | None => None
    | Some bnCentSecond => Some (getuint64 (Z.quot (bnCentSecond * CENT) (24 * 60 * 60)))
    end.

(** ** ConnectBlock *)

Context (mempool : gmap uint256 CTransaction) (nAdjustedTime : Z).
Context {W : Type} (VerifySig : CTransaction -> CTransaction -> nat -> W -> bool * W).
Context (mt19937_uniform : Z -> Z -> Z).

Record connecting := mkConnecting {
  mapQueuedChanges : txindex_map; c_nFees : Z; c_nValueIn : Z; c_nValueOut : Z; c_nStakeReward : Z;
  c_nSigOps : Z; c_nTxPos : Z; c_w : W;
}.

(** An older transaction with the same id must be spent completely. *)
Definition overwrites (txdb : txindex_map) (hashTx : uint256) : bool :=
  match txdb !! hashTx with
  | None => false
  | Some txindexOld => existsb CDiskTxPos_IsNull (vSpent txindexOld)
  end.

(** [if (!tx.f(...)) return false;]: the score is the transaction's, not the block's. *)
Definition return_false {A} (r : res A) : res A := match r with Fail _ => Fail 0 | r => r end.

(** One turn of the loop over the block's transactions.  A result that is not [Ok] leaves
    out the state [W] of the verifier: what a failed run adds to the signature cache
    never changes an answer. *)
Definition connect_tx (params : chain_params) (txdb : txindex_map) (pindex : list CBlockIndex) (bi : CBlockIndex)
    (fJustCheck fSkipSigs : bool) (s : connecting) (tx : CTransaction) : res connecting :=
  let hashTx := CTransaction_GetHash tx in
  guard_ (negb (overwrites txdb hashTx)) 0 ;;
  let nSigOps := u32 (c_nSigOps s + GetLegacySigOpCount tx) in
  guard_ (nSigOps <=? MAX_BLOCK_SIGOPS) 100 ;;
  let posThisTx := mkDiskTxPos (bi_nFile bi) (bi_nBlockPos bi) (c_nTxPos s) in
  let nTxPos := if fJustCheck then c_nTxPos s else u32 (c_nTxPos s + csize CTransaction_codec tx) in
  let done q nIn nOut fees stake sigops w :=
    mkConnecting (<[hashTx := CTxIndex_make posThisTx (length (vout tx))]> q)
      fees (s64 (c_nValueIn s + nIn)) (s64 (c_nValueOut s + nOut)) stake sigops nTxPos w in
  if IsCoinBase tx then
    let* nTxValueOut := of_option (GetValueOut tx) in
    Ok (done (mapQueuedChanges s) 0 nTxValueOut (c_nFees s) (c_nStakeReward s) nSigOps (c_w s))
  else
    let f := FetchInputs ReadTxFromDisk mempool nAdjustedTime txdb (mapQueuedChanges s) true false tx ∅ in
    guard_ (f_ok f) 0 ;;
    let* nP2SH := of_option (GetP2SHSigOpCount tx (f_inputs f)) in
    let nSigOps := u32 (nSigOps + nP2SH) in
    guard_ (nSigOps <=? MAX_BLOCK_SIGOPS) 100 ;;
    let* nTxValueIn := of_option (GetValueMapIn tx (f_inputs f)) in
    let* nTxValueOut := of_option (GetValueOut tx) in
    let fees := if IsCoinStake tx then c_nFees s else s64 (c_nFees s + (nTxValueIn - nTxValueOut)) in
    let stake := if IsCoinStake tx then s64 (nTxValueOut - nTxValueIn) else c_nStakeReward s in
    let* (q, w) := return_false (ConnectInputs VerifySig (nCoinbaseMaturity params) (f_inputs f) (mapQueuedChanges s) posThisTx pindex
                     true false fSkipSigs tx (c_w s)) in
    Ok (done q nTxValueIn nTxValueOut fees stake nSigOps w).

Fixpoint connect_txs (params : chain_params) (txdb : txindex_map) (pindex : list CBlockIndex) (bi : CBlockIndex)
    (fJustCheck fSkipSigs : bool) (s : connecting) (txs : list CTransaction) : res connecting :=
  match txs with
  | [] => Ok s
  | tx :: txs =>
      let* s := connect_tx params txdb pindex bi fJustCheck fSkipSigs s tx in
      connect_txs params txdb pindex bi fJustCheck fSkipSigs s txs
  end.

Definition set_supply (b : CBlockIndex) (mint supply : Z) : CBlockIndex :=
  mkBlockIndex (bi_hash b) (bi_nFile b) (bi_nBlockPos b) (nChainTrust b) (nHeight b) mint
    supply (nFlags b) (nStakeModifier b) (nStakeModifierChecksum b) (prevoutStake b) (nStakeTime b)
    (hashProofOfStake b) (bi_nVersion b) (bi_hashMerkleRoot b) (bi_nTime b) (bi_nBits b) (bi_nNonce b).

(** The reward limits, of a proof-of-work and of a proof-of-stake block. *)
Definition check_rewards (params : chain_params) (txdb : txindex_map) (nBestHeight : Z) (bi : CBlockIndex)
    (prevHash : uint256) (b : CBlock) (s : connecting) : res unit :=
  match vtx b with
  | [] => Fail 0
  | coinbase :: _ =>
      if IsProofOfWork b then
        let* nOut := of_option (GetValueOut coinbase) in
        guard_ (nOut <=? GetProofOfWorkReward nBestHeight (c_nFees s)) 50
      else
        match vtx b !! 1%nat with
        | None => Fail 0
        | Some coinstake =>
            match GetCoinAge (nStakeMinAge params) txdb coinstake with
            | None => Fail 0
            | Some nCoinAge =>
                guard_ (c_nStakeReward s <=? GetProofOfStakeReward mt19937_uniform (s64 nCoinAge) (bi_nBits bi)
                          (nTime (header b)) (c_nFees s) (c_nValueIn s) prevHash) 100
            end
        end
  end.

Definition CBlock_empty : CBlock := mkBlock (mkHeader 6 (uint_zero 8) (uint_zero 8) 0 0 0) [] [].

(** [ConnectBlock]: the new block's index record with its mint and supply, the
    transaction index (unchanged when [fJustCheck]), the verifier's state and the
    other effects.  [nBestHeight] is [pindexBest->nHeight], [hashNext] the hash of
    [pindex->pnext] or zero. *)
Definition ConnectBlock (params : chain_params) (txdb : txindex_map) (nBestHeight : Z) (pindex : list CBlockIndex)
    (hashNext : uint256) (fJustCheck fSkipSigs : bool) (b : CBlock) (w : W) : res (CBlockIndex * txindex_map * W * effects) :=
  CheckBlock params nAdjustedTime (negb fJustCheck) (negb fJustCheck) false b ;;
  match pindex with
  | [] => Throw
  | bi :: pprev =>
      let nTxPos :=
        if fJustCheck then 1
        else u32 (bi_nBlockPos bi + csize (CBlock_codec false) CBlock_empty - 2 * GetSizeOfCompactSize 0
                  + GetSizeOfCompactSize (Z.of_nat (length (vtx b)))) in
      let* s := connect_txs params txdb pindex bi fJustCheck fSkipSigs (mkConnecting ∅ 0 0 0 0 0 nTxPos w) (vtx b) in
      check_rewards params txdb nBestHeight bi (head_hash pprev) b s ;;
      let supply := match pprev with [] => 0 | p :: _ => nMoneySupply p end in
      let bi := set_supply bi (s64 (c_nValueOut s - c_nValueIn s + c_nFees s)) (s64 (supply + c_nValueOut s - c_nValueIn s)) in
      let written := CDiskBlockIndex_make (bi :: pprev) hashNext in
      if fJustCheck then Ok (bi, txdb, c_w s, mkEffects written [])
      else Ok (bi, mapQueuedChanges s ∪ txdb, c_w s,
               mkEffects (written ++ CDiskBlockIndex_make pprev (bi_hash bi)) (map (fun tx => mkSync tx true true) (vtx b)))
  end.
End Blocks.

(** ** Spending and unspending an output *)

Definition spend (p : CDiskTxPos) (o : COutPoint) (m : txindex_map) : txindex_map :=
  alter (mark_spent p (out_n o)) (out_hash o) m.

Definition spend_all (p : CDiskTxPos) (os : list COutPoint) (m : txindex_map) : txindex_map :=
  fold_left (fun m o => spend p o m) os m.

(** The outpoint is there and not spent. *)
Definition unspent (m : txindex_map) (o : COutPoint) : Prop :=
  exists txindex p, m !! out_hash o = Some txindex /\ vSpent txindex !! Z.to_nat (out_n o) = Some p /\ CDiskTxPos_IsNull p = true.

(** Unspent flags are written as [SetNull] writes them. *)
Definition canonical (m : txindex_map) : Prop :=
  map_Forall (fun _ i => Forall (fun p => CDiskTxPos_IsNull p = true -> p = CDiskTxPos_null) (vSpent i)) m.

Lemma mark_spent_id n i p : vSpent i !! Z.to_nat n = Some p -> mark_spent p n i = i.
Proof. intros H. destruct i as [q l]. unfold mark_spent. cbn in *. by rewrite list_insert_id. Qed.

Lemma mark_spent_twice p q n i : mark_spent p n (mark_spent q n i) = mark_spent p n i.
Proof. unfold mark_spent. cbn. by rewrite list_insert_insert_eq. Qed.

Lemma mark_spent_commute p q n n' i : 0 <= n -> 0 <= n' -> n <> n' ->
  mark_spent p n (mark_spent q n' i) = mark_spent q n' (mark_spent p n i).
Proof. intros. unfold mark_spent. cbn. rewrite list_insert_insert_ne by lia. done. Qed.

Lemma spend_lookup p o m h : spend p o m !! h =
  if decide (h = out_hash o) then mark_spent p (out_n o) <$> m !! h else m !! h.
Proof.
  unfold spend. case_decide as E; [subst; by rewrite lookup_alter_eq | by rewrite lookup_alter_ne].
Qed.

Lemma spend_commute p q o o' m : 0 <= out_n o -> 0 <= out_n o' -> o <> o' ->
  spend p o (spend q o' m) = spend q o' (spend p o m).
Proof.
  intros Ho Ho' Hne. apply map_eq. intros h. rewrite !spend_lookup.
  repeat case_decide; try done. destruct (m !! h) as [i|]; [|done]. cbn. f_equal.
  apply mark_spent_commute; [done|done|]. destruct o, o'. cbn in *. congruence.
Qed.

Lemma unspend_spend p o m : canonical m -> unspent m o -> spend CDiskTxPos_null o (spend p o m) = m.
Proof.
  intros Hc (i & q & Hi & Hq & Hn). apply map_eq. intros h. rewrite !spend_lookup. case_decide as E; [|done].
  subst h. rewrite Hi. cbn. f_equal. rewrite mark_spent_twice. apply mark_spent_id. rewrite Hq. f_equal.
  eapply Forall_lookup_1 in Hq; [|apply (Hc _ _ Hi)]. auto.
Qed.

(** Outputs spent one after the other, each unspent when its turn comes. *)
Fixpoint spendable (p : CDiskTxPos) (os : list COutPoint) (m : txindex_map) : Prop :=
  match os with
  | [] => True
  | o :: os => unspent m o /\ spendable p os (spend p o m)
  end.

Lemma unspent_spend p o o' m : CDiskTxPos_IsNull p = false -> unspent (spend p o m) o' -> o <> o' /\ unspent m o'.
Proof.
  intros Hp (i & q & Hi & Hq & Hn). rewrite spend_lookup in Hi. case_decide as E.
  - destruct (m !! out_hash o') as [i0|] eqn:E0; [|done]. cbn in Hi. injection Hi as <-. cbn in Hq.
    destruct (decide (Z.to_nat (out_n o) = Z.to_nat (out_n o'))) as [En|En].
    + rewrite En in Hq. assert (Z.to_nat (out_n o') < length (vSpent i0))%nat.
      { apply lookup_lt_Some in Hq. by rewrite length_insert in Hq. }
      rewrite list_lookup_insert_eq in Hq by done. congruence.
    + rewrite list_lookup_insert_ne in Hq by done. split; [congruence|]. by exists i0, q.
  - split; [congruence|]. by exists i, q.
Qed.

Lemma spendable_iff p os m : CDiskTxPos_IsNull p = false -> spendable p os m -> NoDup os /\ Forall (unspent m) os.
Proof.
  intros Hp. revert m. induction os as [|o os IH]; intros m; cbn [spendable]; [intros _; split; constructor|].
  intros [Ho Hs]. apply IH in Hs as [Hnd HF]. rewrite NoDup_cons, Forall_cons. repeat split; try done.
  - intros Hin. eapply Forall_forall in HF; [|exact Hin]. by apply unspent_spend in HF as [? _].
  - eapply Forall_impl; [exact HF|]. intros o' H'. by apply unspent_spend in H' as [_ ?].
Qed.

Lemma spend_all_cons p o os m : spend_all p (o :: os) m = spend_all p os (spend p o m).
Proof. done. Qed.

Lemma spend_all_commute p q o os m : 0 <= out_n o -> Forall (fun o => 0 <= out_n o) os -> o ∉ os ->
  spend_all p os (spend q o m) = spend q o (spend_all p os m).
Proof.
  intros Ho HF. revert m. induction HF as [|o' os Ho' HF IH]; intros m Hni; [done|].
  rewrite !spend_all_cons. apply not_elem_of_cons in Hni as [Hne Hni].
  rewrite spend_commute by done. by apply IH.
Qed.

Lemma canonical_spend p o m : CDiskTxPos_IsNull p = false -> canonical m -> canonical (spend p o m).
Proof.
  intros Hp Hc h i. rewrite spend_lookup. case_decide; [|apply Hc].
  destruct (m !! h) as [i0|] eqn:E; [|done]. intros [= <-]. cbn. apply Forall_insert; [by apply (Hc h)|]. congruence.
Qed.

Lemma unspent_spend_ne p o o' m : 0 <= out_n o -> 0 <= out_n o' -> o <> o' -> unspent m o' -> unspent (spend p o m) o'.
Proof.
  intros Ho Ho' Hne (i & q & Hi & Hq & Hn). unfold unspent. setoid_rewrite spend_lookup. case_decide as E.
  - rewrite Hi. exists (mark_spent p (out_n o) i), q. cbn. repeat split; [|done].
    rewrite list_lookup_insert_ne; [done|]. destruct o, o'. cbn in *. assert (out_n0 <> out_n) by congruence. lia.
  - by exists i, q.
Qed.

Lemma spend_all_keeps p os m : CDiskTxPos_IsNull p = false -> canonical m -> canonical (spend_all p os m).
Proof.
  intros Hp. revert m. induction os as [|o os IH]; intros m Hc; [done|]. by apply IH, canonical_spend.
Qed.

Lemma unspent_spend_all p o os m : 0 <= out_n o -> Forall (fun o => 0 <= out_n o) os -> o ∉ os ->
  unspent m o -> unspent (spend_all p os m) o.
Proof.
  intros Ho HF. revert m. induction HF as [|o' os Ho' HF IH]; intros m Hni Hu; [done|].
  apply not_elem_of_cons in Hni as [Hne Hni]. apply IH; [done|]. by apply unspent_spend_ne.
Qed.

(** Unspending everything a transaction spent, in the same order. *)
Lemma unspend_all p os m : CDiskTxPos_IsNull p = false -> canonical m -> Forall (fun o => 0 <= out_n o) os ->
  NoDup os -> Forall (unspent m) os -> spend_all CDiskTxPos_null os (spend_all p os m) = m.
Proof.
  intros Hp Hc Hn. induction Hn as [|o os Ho Hn IH]; intros Hnd HF; [done|].
  apply NoDup_cons in Hnd as [Hni Hnd]. apply Forall_cons in HF as [Hu HF].
  rewrite !spend_all_cons, (spend_all_commute p p) by done.
  rewrite unspend_spend; [by apply IH | by apply spend_all_keeps | by apply unspent_spend_all].
Qed.

(** [disconnect_loop] succeeds on outputs the index has. *)
Lemma disconnect_loop_spec vi m :
  Forall (fun o => exists i, m !! out_hash o = Some i /\ 0 <= out_n o < Z.of_nat (length (vSpent i))) (map prevout vi) ->
  disconnect_loop vi m = Some (spend_all CDiskTxPos_null (map prevout vi) m).
Proof.
  revert m. induction vi as [|x vi IH]; intros m HF; [done|]. cbn [map disconnect_loop] in *.
  apply Forall_cons in HF as [(i & Hi & Hn) HF]. rewrite Hi.
  rewrite (proj2 (Z.leb_gt _ _)) by lia.
  assert (<[out_hash (prevout x) := mark_spent CDiskTxPos_null (out_n (prevout x)) i]> m =
          spend CDiskTxPos_null (prevout x) m) as ->.
  { apply map_eq. intros h. rewrite spend_lookup. case_decide as E; [subst; rewrite lookup_insert_eq; by rewrite Hi|].
    by rewrite lookup_insert_ne. }
  rewrite IH; [done|]. eapply Forall_impl; [exact HF|]. cbn. intros o (j & Hj & Hoj).
  rewrite spend_lookup. case_decide; [|by exists j]. rewrite Hj. exists (mark_spent CDiskTxPos_null (out_n (prevout x)) j).
  cbn. by rewrite length_insert.
Qed.

(** ** What fetching and connecting do to the index *)

(** Break a successful run of the monad into its steps. *)
Ltac res_inv H :=
  repeat match type of H with
  | rbind ?r _ = Ok _ => let E := fresh "E" in destruct r eqn:E; cbn [rbind] in H; [|discriminate H|discriminate H]
  | (let '(_, _) := ?p in _) = Ok _ => let E := fresh "E" in destruct p eqn:E
  end.

Lemma guard_Ok b n u : guard_ b n = Ok u -> b = true.
Proof. by destruct b. Qed.

Lemma of_option_Ok {A} (o : option A) a : of_option o = Ok a -> o = Some a.
Proof. destruct o; [|done]. by intros [= ->]. Qed.

Lemma return_false_Ok {A} (r : res A) a : return_false r = Ok a -> r = Ok a.
Proof. by destruct r. Qed.

(** Turn the steps into facts. *)
Ltac res_facts :=
  repeat match goal with
  | H : return_false _ = Ok _ |- _ => apply return_false_Ok in H
  | H : guard_ _ _ = Ok _ |- _ => apply guard_Ok in H
  | H : of_option _ = Ok _ |- _ => apply of_option_Ok in H
  | H : unit |- _ => destruct H
  | H : Ok _ = Ok _ |- _ => injection H as H; subst
  end.

Section Connecting.
Context (ReadTxFromDisk : CDiskTxPos -> option CTransaction) (mempool : gmap uint256 CTransaction) (nAdjustedTime : Z).
Context {W : Type} (VerifySig : CTransaction -> CTransaction -> nat -> W -> bool * W).

(** The fetched index records are those of the current state of the index. *)
Definition current (m : txindex_map) (inputs : MapPrevTx) : Prop :=
  forall h e, inputs !! h = Some e -> m !! h = Some (fst e).

Lemma current_insert m inputs h i t : m !! h = Some i -> current m inputs -> current m (<[h := (i, t)]> inputs).
Proof.
  intros Hi Hc k e. destruct (decide (h = k)) as [<-|]; [rewrite lookup_insert_eq; by intros [= <-]|].
  rewrite lookup_insert_ne by done. apply Hc.
Qed.

Lemma fetch_loop_current txdb q vi inputs inputs' : current (q ∪ txdb) inputs ->
  fetch_loop ReadTxFromDisk mempool nAdjustedTime txdb q true false vi inputs = (true, inputs') ->
  current (q ∪ txdb) inputs'.
Proof.
  revert inputs. induction vi as [|x vi IH]; intros inputs Hc; cbn [fetch_loop]; [by intros [= <-]|].
  case_bool_decide; [by apply IH|]. cbn [orb].
  assert (match q !! out_hash (prevout x) with Some i => Some i | None => txdb !! out_hash (prevout x) end =
          (q ∪ txdb) !! out_hash (prevout x)) as ->.
  { rewrite lookup_union. by destruct (q !! _), (txdb !! _). }
  destruct ((q ∪ txdb) !! out_hash (prevout x)) as [i|] eqn:Ei; [|done].
  destruct (if decide _ then _ else _) as [t|]; [|done]. apply IH. by apply current_insert.
Qed.

Lemma connect_spends_spec fMiner fSkip tx p vi : forall i inputs q txdb w q' w',
  current (q ∪ txdb) inputs ->
  connect_spends VerifySig true fMiner fSkip tx p vi i inputs q w = Ok (q', w') ->
  spendable p (map prevout vi) (q ∪ txdb) /\ q' ∪ txdb = spend_all p (map prevout vi) (q ∪ txdb).
Proof.
  induction vi as [|x vi IH]; intros i inputs q txdb w q' w' Hc H; cbn [connect_spends map spendable] in *.
  { by injection H as -> ->. }
  res_inv H. res_facts. rename select (inputs !! _ = _) into Ei. rename select (vSpent _ !! _ = _) into Es.
  apply Hc in Ei as Em. cbn [fst] in Em.
  assert (<[out_hash (prevout x) := mark_spent p (out_n (prevout x)) c]> q ∪ txdb = spend p (prevout x) (q ∪ txdb)) as Eq.
  { rewrite <- insert_union_l. apply map_eq. intros h. rewrite spend_lookup.
    case_decide as E'; [subst h; by rewrite lookup_insert_eq, Em | by rewrite lookup_insert_ne]. }
  cbn [orb] in H. apply (IH _ _ _ txdb) in H as [Hs ->].
  - rewrite Eq in *. split; [|done]. split; [|done]. by exists c, a0.
  - rewrite Eq. intros h e. rewrite spend_lookup. destruct (decide (h = out_hash (prevout x))) as [->|Hne].
    + rewrite lookup_insert_eq, Em. by intros [= <-].
    + rewrite lookup_insert_ne by done. apply Hc.
Qed.

(** The checks pass with a value that is the exact sum of the inputs, the one
    [GetValueMapIn] computes; the inputs exist and are not newer. *)
Lemma connect_checks_spec mat pindex inputs t vi : Forall (fun x => 0 <= out_n (prevout x)) vi ->
  forall acc v, 0 <= acc <= MAX_MONEY -> connect_checks mat pindex inputs t vi acc = Ok v ->
  0 <= v <= MAX_MONEY /\ value_in_loop inputs vi acc = Some v /\
  Forall (fun x => exists i txPrev o, inputs !! out_hash (prevout x) = Some (i, txPrev) /\
    GetOutputFor x inputs = Some o /\ 0 <= nValue o <= MAX_MONEY /\ tx_nTime txPrev <= t /\
    out_n (prevout x) < Z.of_nat (length (vSpent i))) vi.
Proof.
  induction 1 as [|x vi Hx Hn IH]; intros acc v Hacc H; cbn [connect_checks value_in_loop] in *.
  { injection H as <-. split; [done|]. split; [done|constructor]. }
  res_inv H. res_facts. rename select CTxOut into o. rename select CTxIndex into idx. rename select CTransaction into txp.
  rename select (index_in_range _ _ = true) into Er. rename select (vout _ !! _ = _) into Eo. rename select (inputs !! _ = _) into Ei.
  bprop. unfold index_in_range in Er. rewrite Ei in Er. bprop.
  assert (GetOutputFor x inputs = Some o) as Hout.
  { unfold GetOutputFor. rewrite Ei. rewrite (proj2 (Z.leb_gt _ _)) by lia. done. }
  rewrite Hout.
  rename select (MoneyRange (nValue o) = true) into M1. rename select (MoneyRange (s64 _) = true) into M2.
  apply MoneyRange_spec in M1. apply MoneyRange_spec in M2. rewrite money_s64 in M2 by done. rewrite money_s64 in H by done.
  rewrite money_s64 by done. destruct (IH _ v M2 H) as (Hv & -> & HF).
  split; [done|]. split; [done|]. constructor; [|done]. by exists idx, txp, o.
Qed.

Lemma GetMinFee_base tx : GetMinFee tx 1 GMF_BLOCK 0 = MIN_TX_FEE.
Proof. reflexivity. Qed.

(** What a transaction accepted for a block does: its inputs are distinct unspent
    outputs, they get spent, and but for a coinstake their value covers the
    outputs and the minimum fee. *)
Lemma ConnectInputs_spec mat inputs q txdb p pindex fSkip tx w q' w' :
  IsCoinBase tx = false -> Forall (fun x => 0 <= out_n (prevout x)) (vin tx) -> current (q ∪ txdb) inputs ->
  ConnectInputs VerifySig mat inputs q p pindex true false fSkip tx w = Ok (q', w') ->
  spendable p (map prevout (vin tx)) (q ∪ txdb) /\
  q' ∪ txdb = spend_all p (map prevout (vin tx)) (q ∪ txdb) /\
  exists v, GetValueMapIn tx inputs = Some v /\ 0 <= v <= MAX_MONEY /\
    Forall (fun x => exists i, (q ∪ txdb) !! out_hash (prevout x) = Some i /\ out_n (prevout x) < Z.of_nat (length (vSpent i))) (vin tx) /\
    (IsCoinStake tx = false -> exists out, GetValueOut tx = Some out /\ out + MIN_TX_FEE <= v).
Proof.
  intros Hcb Hn Hc H. unfold ConnectInputs in H. rewrite Hcb in H.
  res_inv H. rename select (connect_checks _ _ _ _ _ _ = _) into Ech. rename select (connect_spends _ _ _ _ _ _ _ _ _ _ _ = _) into Esp.
  apply connect_checks_spec in Ech as (Hv & Hval & HF); [|done|by vm_compute].
  match type of Esp with _ = Ok ?r => assert (r = (q', w') /\ (IsCoinStake tx = false -> exists out, GetValueOut tx = Some out /\ out + MIN_TX_FEE <= a)) as [Er Hfee] end.
  { destruct (IsCoinStake tx); [by injection H as -> ->|]. res_inv H. res_facts. rewrite GetMinFee_base in *. bprop.
    split; [done|]. intros _. eexists. split; [done|]. lia. }
  rewrite Er in Esp.
  apply (connect_spends_spec _ _ _ _ _ _ _ _ txdb) in Esp as [Hs Hq]; [|done].
  split; [done|]. split; [done|]. exists a. unfold GetValueMapIn. rewrite Hcb. repeat split; try done; try lia.
  eapply Forall_impl; [exact HF|]. cbn. intros x (i & t' & o & Hi & _ & _ & _ & Hl). exists i. split; [|done].
  by apply Hc in Hi.
Qed.
End Connecting.

Section Undo.
Context `{HD : Digests} `{BN : OpenSSL_BN} `{EC : ECDSA}.
Context (ReadTxFromDisk : CDiskTxPos -> option CTransaction) (ReadHeaderFromDisk : Z -> Z -> option CBlockHeader).
Context (mempool : gmap uint256 CTransaction) (nAdjustedTime : Z).
Context {W : Type} (VerifySig : CTransaction -> CTransaction -> nat -> W -> bool * W).
Context (mt19937_uniform : Z -> Z -> Z).
Context (params : chain_params) (txdb : txindex_map) (pindex : list CBlockIndex) (bi : CBlockIndex) (fJust fSkip : bool).

Local Abbreviation connect_tx' := (connect_tx ReadTxFromDisk mempool nAdjustedTime VerifySig params txdb pindex bi fJust fSkip).
Local Abbreviation connect_txs' := (connect_txs ReadTxFromDisk mempool nAdjustedTime VerifySig params txdb pindex bi fJust fSkip).

(** The index as the block's transactions see it. *)
Definition view (s : @connecting W) : txindex_map := mapQueuedChanges s ∪ txdb.

Definition tx_pos (s : @connecting W) : CDiskTxPos := mkDiskTxPos (bi_nFile bi) (bi_nBlockPos bi) (c_nTxPos s).

(** The outputs a transaction spends. *)
Definition spends (tx : CTransaction) : list COutPoint := if IsCoinBase tx then [] else map prevout (vin tx).

(** [prevout.n] is unsigned. *)
Definition inputs_valid (tx : CTransaction) : Prop := Forall (fun x => 0 <= out_n (prevout x)) (vin tx).

Definition has_output (m : txindex_map) (o : COutPoint) : Prop :=
  exists i, m !! out_hash o = Some i /\ 0 <= out_n o < Z.of_nat (length (vSpent i)).

Lemma connect_tx_spec s tx s' : inputs_valid tx -> connect_tx' s tx = Ok s' ->
  spendable (tx_pos s) (spends tx) (view s) /\ Forall (has_output (view s)) (spends tx) /\
  view s' = <[CTransaction_GetHash tx := CTxIndex_make (tx_pos s) (length (vout tx))]> (spend_all (tx_pos s) (spends tx) (view s)) /\
  exists nIn nOut, GetValueOut tx = Some nOut /\ 0 <= nIn <= MAX_MONEY /\
    c_nValueIn s' = s64 (c_nValueIn s + nIn) /\ c_nValueOut s' = s64 (c_nValueOut s + nOut) /\
    (if IsCoinBase tx then nIn = 0 /\ c_nFees s' = c_nFees s
     else if IsCoinStake tx then c_nFees s' = c_nFees s
     else c_nFees s' = s64 (c_nFees s + (nIn - nOut)) /\ nOut + MIN_TX_FEE <= nIn).
Proof.
  intros Hv H. unfold connect_tx in H. res_inv H. destruct (IsCoinBase tx) eqn:Ecb; res_inv H; res_facts.
  - unfold spends. rewrite Ecb. split; [done|]. split; [constructor|]. cbn [mapQueuedChanges c_nValueIn c_nValueOut c_nFees].
    unfold view at 1. cbn [mapQueuedChanges]. rewrite <- insert_union_l. split; [done|].
    eexists 0, _. by repeat split.
  - rename select (ConnectInputs _ _ _ _ _ _ _ _ _ _ _ = _) into Ec. rename select (f_ok _ = true) into Ef.
    rename select (GetValueMapIn _ _ = _) into Ev. revert Ef Ec Ev. unfold FetchInputs. rewrite Ecb.
    destruct (fetch_loop _ _ _ _ _ _ _ _ _) as [ok inputs] eqn:El. destruct ok; cbn [negb f_ok f_inputs]; [|done].
    destruct (forallb _ _); cbn [f_ok f_inputs]; [|done]. intros _ Ec Evi.
    apply fetch_loop_current in El; [|intros h e He; by rewrite lookup_empty in He].
    apply (ConnectInputs_spec _ _ _ _ txdb) in Ec as (Hs & Hq & v & Hval & Hr & HF & Hfee); [|done|done|done].
    unfold spends. rewrite Ecb. fold (view s) in *.
    split; [done|]. split.
    { apply Forall_map. unfold inputs_valid in Hv. rewrite Forall_forall in HF, Hv |- *.
      intros x Hx. destruct (HF x Hx) as (i & Hi & Hl). specialize (Hv x Hx). by exists i. }
    unfold view at 1. cbn [mapQueuedChanges c_nValueIn c_nValueOut c_nFees]. rewrite <- insert_union_l, Hq. split; [done|].
    rename select (GetValueOut tx = _) into Eout. rewrite Hval in Evi. injection Evi as <-.
    exists v. eexists. repeat split; try done; try lia.
    destruct (IsCoinStake tx); [done|]. destruct Hfee as (out & Ho & Hle); [done|]. split; [done|]. congruence.
Qed.

Lemma dom_spend_all p os m h : is_Some (spend_all p os m !! h) <-> is_Some (m !! h).
Proof.
  revert m. induction os as [|o os IH]; intros m; [done|]. rewrite spend_all_cons, IH, spend_lookup.
  case_decide; [apply fmap_is_Some | done].
Qed.

Lemma lookup_spend_all_ne p os m h : Forall (fun o => out_hash o <> h) os -> spend_all p os m !! h = m !! h.
Proof.
  revert m. induction os as [|o os IH]; intros m HF; [done|]. apply Forall_cons in HF as [Ho HF].
  rewrite spend_all_cons, IH, spend_lookup by done. by rewrite decide_False.
Qed.

Lemma spend_all_insert p os m h i : Forall (fun o => out_hash o <> h) os ->
  spend_all p os (<[h := i]> m) = <[h := i]> (spend_all p os m).
Proof.
  revert m. induction os as [|o os IH]; intros m HF; [done|]. apply Forall_cons in HF as [Ho HF].
  rewrite !spend_all_cons, <- IH by done. f_equal. unfold spend. by rewrite alter_insert_ne.
Qed.

Lemma has_output_spend_all p os m o : has_output m o -> has_output (spend_all p os m) o.
Proof.
  revert m. induction os as [|o' os IH]; intros m Hm; [done|]. rewrite spend_all_cons. apply IH.
  destruct Hm as (i & Hi & Hn). unfold has_output. rewrite spend_lookup. case_decide; [|by exists i].
  rewrite Hi. exists (mark_spent p (out_n o') i). cbn. by rewrite length_insert.
Qed.

Lemma canonical_insert_new p n m h : canonical m -> canonical (<[h := CTxIndex_make p n]> m).
Proof.
  intros Hm. apply map_Forall_insert_2; [|done]. apply Forall_replicate. done.
Qed.

(** A connected transaction is undone exactly, if its id was new. *)
Lemma connect_tx_undo s tx s' : inputs_valid tx -> bi_nFile bi <> UINT_MAX -> canonical (view s) ->
  view s !! CTransaction_GetHash tx = None -> connect_tx' s tx = Ok s' ->
  DisconnectInputs tx (view s') = Some (view s) /\ canonical (view s') /\
  (forall h, is_Some (view s' !! h) <-> h = CTransaction_GetHash tx \/ is_Some (view s !! h)).
Proof.
  intros Hv Hf Hc Hnew H. apply connect_tx_spec in H as (Hs & HO & -> & _); [|done].
  set (p := tx_pos s) in *. set (h := CTransaction_GetHash tx) in *. set (i := CTxIndex_make p _).
  assert (CDiskTxPos_IsNull p = false) as Hp by (by apply Z.eqb_neq).
  assert (Forall (fun o => out_hash o <> h) (spends tx)) as Hne.
  { eapply Forall_impl; [exact HO|]. intros o (j & Hj & _) <-. congruence. }
  destruct (spendable_iff _ _ _ Hp Hs) as [Hnd HU].
  assert (Forall (fun o => 0 <= out_n o) (spends tx)) as Hnn by (eapply Forall_impl; [exact HO|]; intros o (j & _ & ?); lia).
  split; [|split].
  - unfold DisconnectInputs. fold h.
    assert ((if IsCoinBase tx then Some (<[h := i]> (spend_all p (spends tx) (view s)))
             else disconnect_loop (vin tx) (<[h := i]> (spend_all p (spends tx) (view s)))) =
            Some (spend_all CDiskTxPos_null (spends tx) (<[h := i]> (spend_all p (spends tx) (view s))))) as ->.
    { unfold spends in *. destruct (IsCoinBase tx); [done|]. apply disconnect_loop_spec.
      eapply Forall_impl; [exact HO|]. intros o Ho. pose proof (has_output_spend_all p (map prevout (vin tx)) _ _ Ho) as (j & Hj & Hl).
      exists j. rewrite lookup_insert_ne; [done|]. destruct Ho as (j' & Hj' & _). congruence. }
    rewrite spend_all_insert, unspend_all by done. f_equal. by apply delete_insert_id.
  - apply canonical_insert_new. by apply spend_all_keeps.
  - intros k. rewrite lookup_insert_is_Some, dom_spend_all. split; [intros [<-|[_ ?]]; auto|].
    destruct (decide (h = k)); [by left|]. intros [->|?]; [done|]. by right.
Qed.

(** And so is a block: its transactions are disconnected in reverse order. *)
Lemma connect_txs_undo txs : forall s s', Forall inputs_valid txs -> bi_nFile bi <> UINT_MAX -> canonical (view s) ->
  NoDup (map CTransaction_GetHash txs) -> Forall (fun tx => view s !! CTransaction_GetHash tx = None) txs ->
  connect_txs' s txs = Ok s' -> disconnect_txs (reverse txs) (view s') = Some (view s).
Proof.
  induction txs as [|tx txs IH]; intros s s' Hv Hf Hc Hnd Hnew H; cbn [connect_txs] in H.
  { by injection H as <-. }
  res_inv H. rename select (connect_tx _ _ _ _ _ _ _ _ _ _ _ _ = _) into Et. rename select connecting into s1.
  apply Forall_cons in Hv as [Hv1 Hv], Hnew as [Hn1 Hnew]. cbn [map] in Hnd. apply NoDup_cons in Hnd as [Hni Hnd].
  apply connect_tx_undo in Et as (Hd & Hc1 & Hdom); [|done..].
  rewrite reverse_cons.
  assert (forall l m, disconnect_txs (l ++ [tx]) m = (disconnect_txs l m ≫= DisconnectInputs tx)) as Happ.
  { induction l as [|t l IHl]; intros m; cbn [app disconnect_txs]; [cbn; by destruct (DisconnectInputs tx m)|].
    destruct (DisconnectInputs t m); [apply IHl|done]. }
  assert (Forall (fun tx => view s1 !! CTransaction_GetHash tx = None) txs) as Hnew1.
  { apply Forall_forall. intros t Ht. eapply Forall_forall in Hnew; [|exact Ht]. apply eq_None_not_Some. rewrite Hdom.
    intros [E|E]; [|rewrite Hnew in E; by apply is_Some_None in E].
    apply Hni. rewrite <- E. by apply list_elem_of_fmap_2. }
  rewrite Happ, (IH s1) by done.
  exact Hd.
Qed.

(** ** Sums over a block *)

Lemma GetValueOut_range tx v : GetValueOut tx = Some v -> 0 <= v <= MAX_MONEY.
Proof.
  unfold GetValueOut. rewrite value_out_loop_spec by (by vm_compute). case_decide as E; [|done]. intros [= <-].
  destruct E as [HF Hs]. split; [|lia]. rewrite Z.add_0_l. by apply sumZ_nonneg, Forall_map.
Qed.

(** After [n] transactions the running sums are small. *)
Definition sums_ok (n : Z) (s : @connecting W) : Prop :=
  0 <= c_nValueIn s <= n * MAX_MONEY /\ 0 <= c_nValueOut s <= n * MAX_MONEY /\ 0 <= c_nFees s <= n * MAX_MONEY.

Lemma connect_tx_sums n s tx s' : inputs_valid tx -> IsCoinStake tx = false -> 0 <= n < 1000 -> sums_ok n s ->
  connect_tx' s tx = Ok s' ->
  sums_ok (n + 1) s' /\ exists nOut, GetValueOut tx = Some nOut /\
  c_nValueOut s' - c_nValueIn s' + c_nFees s' =
  c_nValueOut s - c_nValueIn s + c_nFees s + (if IsCoinBase tx then nOut else 0).
Proof.
  intros Hv Hst Hn (H1 & H2 & H3) H.
  apply connect_tx_spec in H as (_ & _ & _ & nIn & nOut & Ho & HIn & EI & EO & EF); [|done].
  pose proof (GetValueOut_range _ _ Ho) as HOut. rewrite Hst in EF.
  assert (MAX_MONEY = 9000000000000000) as HM by reflexivity. unfold sums_ok. rewrite EI, EO.
  rewrite !(s64_small (_ + _)) by lia.
  assert (0 <= c_nFees s' <= (n + 1) * MAX_MONEY /\
    c_nFees s' = c_nFees s + (if IsCoinBase tx then 0 else nIn - nOut) /\ (IsCoinBase tx = true -> nIn = 0)) as (HF & EF' & H0).
  { destruct (IsCoinBase tx); [lia|]. destruct EF as [-> Hfee]. unfold MIN_TX_FEE in Hfee. rewrite s64_small by lia. lia. }
  split; [lia|]. exists nOut. split; [done|]. rewrite EF'. destruct (IsCoinBase tx); lia.
Qed.

Lemma connect_txs_sums txs : forall n s s', Forall inputs_valid txs ->
  Forall (fun tx => IsCoinStake tx = false /\ IsCoinBase tx = false) txs ->
  0 <= n -> n + Z.of_nat (length txs) <= 1000 -> sums_ok n s -> connect_txs' s txs = Ok s' ->
  sums_ok (n + Z.of_nat (length txs)) s' /\
  c_nValueOut s' - c_nValueIn s' + c_nFees s' = c_nValueOut s - c_nValueIn s + c_nFees s.
Proof.
  induction txs as [|tx txs IH]; intros n s s' Hv Hst Hn Hl Hs H; cbn [connect_txs length] in *.
  { injection H as <-. rewrite Z.add_0_r. done. }
  res_inv H. rename select (connect_tx _ _ _ _ _ _ _ _ _ _ _ _ = _) into Et. rename select connecting into s1.
  apply Forall_cons in Hv as [Hv1 Hv], Hst as [[Hst1 Hcb1] Hst].
  apply (connect_tx_sums n) in Et as (Hs1 & nOut & _ & E1); [|done|done|lia|done]. rewrite Hcb1 in E1.
  apply (IH (n + 1)) in H as [Hs' E']; [|done|done|lia|lia|done].
  split; [|lia]. replace (n + Z.of_nat (S (length txs))) with (n + 1 + Z.of_nat (length txs)) by lia. done.
Qed.

(** What [CheckBlock] ensures of the transactions. *)
Lemma CheckBlock_txs fPOW fMerkle fSig b u : CheckBlock params nAdjustedTime fPOW fMerkle fSig b = Ok u ->
  NoDup (map CTransaction_GetHash (vtx b)) /\
  exists coinbase rest, vtx b = coinbase :: rest /\ IsCoinBase coinbase = true /\ Forall (fun tx => IsCoinBase tx = false) rest.
Proof.
  intros H. unfold CheckBlock in H. destruct (vtx b) as [|coinbase rest]; [done|]. res_inv H. res_facts.
  rename select (IsCoinBase _ = true) into Hcb. rename select (forallb _ rest = true) into Hr.
  rename select (bool_decide _ = true) into Hnd. apply bool_decide_eq_true in Hnd. split; [done|].
  exists coinbase, rest. repeat split; [done|]. apply Forall_forall. intros tx Htx.
  apply list_elem_of_In in Htx. apply (proj1 (forallb_forall _ _) Hr) in Htx. by apply negb_true_iff in Htx.
Qed.

Lemma spent_stays p os m o : CDiskTxPos_IsNull p = false -> unspent (spend_all p os m) o -> (o ∉ os) /\ unspent m o.
Proof.
  intros Hp. revert m. induction os as [|o' os IH]; intros m; [intros; split; [apply not_elem_of_nil|done]|].
  rewrite spend_all_cons. intros [Hni Hu]%IH. apply unspent_spend in Hu as [Hne Hu]; [|done].
  rewrite not_elem_of_cons. auto.
Qed.

Lemma connect_txs_rewards txs s s' n : n = Z.of_nat (length txs) -> n <= 1000 ->
  sums_ok 0 s -> c_nValueOut s - c_nValueIn s + c_nFees s = 0 ->
  Forall inputs_valid txs -> Forall (fun tx => IsCoinStake tx = false) txs ->
  (exists coinbase rest, txs = coinbase :: rest /\ IsCoinBase coinbase = true /\ Forall (fun tx => IsCoinBase tx = false) rest) ->
  connect_txs' s txs = Ok s' ->
  sums_ok n s' /\ exists nOut, GetValueOut (default (mkTx 0 0 [] [] 0) (head txs)) = Some nOut /\
  c_nValueOut s' - c_nValueIn s' + c_nFees s' = nOut.
Proof.
  intros -> Hn Hs E0 Hv Hst (cb & rest & -> & Hcb & Hr) H. cbn [connect_txs length head default] in *. res_inv H.
  rename select (connect_tx _ _ _ _ _ _ _ _ _ _ _ _ = _) into Et. rename select connecting into s1.
  apply Forall_cons in Hv as [Hv1 Hv], Hst as [Hst1 Hst].
  apply (connect_tx_sums 0) in Et as (Hs1 & nOut & Ho & E1); [|done|done|lia|done].
  apply (connect_txs_sums _ 1) in H as [Hs' E']; [|done|apply Forall_and; done|lia|lia|done].
  rewrite Hcb in E1. split; [|exists nOut; split; [done|lia]].
  replace (Z.of_nat (S (length rest))) with (1 + Z.of_nat (length rest)) by lia. done.
Qed.
End Undo.

(** ** Properties *)

(** C2: no double spend.  A transaction connected to a block spends distinct
    outputs that exist and are unspent at that point of the block, none of them
    can be spent again, and a user transaction brings at least its outputs and
    the minimum fee. *)
Theorem connect_tx_no_double_spend `{HD : Digests} (ReadTxFromDisk : CDiskTxPos -> option CTransaction)
    (mempool : gmap uint256 CTransaction) (nAdjustedTime : Z) {W : Type}
    (VerifySig : CTransaction -> CTransaction -> nat -> W -> bool * W)
    (params : chain_params) (txdb : txindex_map) (pindex : list CBlockIndex) (bi : CBlockIndex) (fJust fSkip : bool)
    (s s' : connecting) (tx : CTransaction) :
  inputs_valid tx -> bi_nFile bi <> UINT_MAX -> view txdb s !! CTransaction_GetHash tx = None ->
  connect_tx ReadTxFromDisk mempool nAdjustedTime VerifySig params txdb pindex bi fJust fSkip s tx = Ok s' ->
  NoDup (spends tx) /\ Forall (unspent (view txdb s)) (spends tx) /\
  Forall (fun o => ~ unspent (view txdb s') o) (spends tx) /\
  (IsCoinBase tx = false -> IsCoinStake tx = false -> exists nIn nOut,
     GetValueOut tx = Some nOut /\ nOut + MIN_TX_FEE <= nIn <= MAX_MONEY /\ c_nFees s' = s64 (c_nFees s + (nIn - nOut))).
Proof.
  intros Hv Hf Hnew H. apply connect_tx_spec in H as (Hs & HO & Hview & nIn & nOut & Ho & HIn & _ & _ & EF); [|done].
  assert (CDiskTxPos_IsNull (tx_pos bi s) = false) as Hp by (by apply Z.eqb_neq).
  destruct (spendable_iff _ _ _ Hp Hs) as [Hnd HU]. repeat split; try done.
  - rewrite Forall_forall in HO |- *. intros o Hin (i & p & Hi & Hq & Hn).
    destruct (HO _ Hin) as (j & Hj & _). rewrite Hview, lookup_insert_ne in Hi by congruence.
    apply (spent_stays (tx_pos bi s) (spends tx) (view txdb s) o); [done|by exists i, p|done].
  - intros Hcb Hst. rewrite Hcb, Hst in EF. exists nIn, nOut. repeat split; try done; lia.
Qed.

(** What [ConnectBlock] with new transaction ids did, disconnecting undoes; of the
    record it sets the mint and the supply. *)
Lemma ConnectBlock_undo `{HD : Digests} `{BN : OpenSSL_BN} `{EC : ECDSA}
    (ReadTxFromDisk : CDiskTxPos -> option CTransaction) (ReadHeaderFromDisk : Z -> Z -> option CBlockHeader)
    (mempool : gmap uint256 CTransaction) (nAdjustedTime : Z) {W : Type} (VerifySig : CTransaction -> CTransaction -> nat -> W -> bool * W)
    (mt : Z -> Z -> Z) (params : chain_params) (txdb : txindex_map) (nBestHeight : Z) (bi : CBlockIndex)
    (pprev : list CBlockIndex) (hashNext : uint256) (fSkip : bool) (b : CBlock) (w : W)
    (bi' : CBlockIndex) (txdb' : txindex_map) (w' : W) (e : effects) :
  ConnectBlock ReadTxFromDisk ReadHeaderFromDisk mempool nAdjustedTime VerifySig mt params txdb nBestHeight
    (bi :: pprev) hashNext false fSkip b w = Ok (bi', txdb', w', e) ->
  (exists mint supply, bi' = set_supply bi mint supply) /\
  WriteBlockIndex e = mkDiskBlockIndex bi' (head_hash pprev) hashNext :: CDiskBlockIndex_make pprev (bi_hash bi) /\
  (Forall inputs_valid (vtx b) -> bi_nFile bi <> UINT_MAX -> canonical txdb ->
   Forall (fun tx => txdb !! CTransaction_GetHash tx = None) (vtx b) -> disconnect_txs (reverse (vtx b)) txdb' = Some txdb).
Proof.
  intros H. unfold ConnectBlock in H. res_inv H.
  rename select (CheckBlock _ _ _ _ _ _ = _) into Ec. apply CheckBlock_txs in Ec as [Hnd _].
  rename select (connect_txs _ _ _ _ _ _ _ _ _ _ _ _ = _) into Et. rename select connecting into s1.
  injection H as <- <- _ <-. split; [by eexists _, _|]. split; [done|]. intros Hv Hf Hc Hnew.
  change (mapQueuedChanges s1 ∪ txdb) with (view txdb s1).
  apply connect_txs_undo in Et; unfold view in *; cbn [mapQueuedChanges] in *; rewrite ?(left_id_L ∅ (∪)) in *; done.
Qed.

(** C1: disconnecting undoes connecting: after [ConnectBlock] of a block with new
    transaction ids, [DisconnectBlock] gives the transaction index back exactly,
    spends inside the block included. *)
Theorem disconnect_undoes_connect `{HD : Digests} `{BN : OpenSSL_BN} `{EC : ECDSA}
    (ReadTxFromDisk : CDiskTxPos -> option CTransaction) (ReadHeaderFromDisk : Z -> Z -> option CBlockHeader)
    (mempool : gmap uint256 CTransaction) (nAdjustedTime : Z) {W : Type} (VerifySig : CTransaction -> CTransaction -> nat -> W -> bool * W)
    (mt : Z -> Z -> Z) (params : chain_params) (txdb : txindex_map) (nBestHeight : Z) (bi : CBlockIndex)
    (pprev : list CBlockIndex) (hashNext : uint256) (fSkip : bool) (b : CBlock) (w : W)
    (bi' : CBlockIndex) (txdb' : txindex_map) (w' : W) (e : effects) :
  Forall inputs_valid (vtx b) -> bi_nFile bi <> UINT_MAX -> canonical txdb ->
  Forall (fun tx => txdb !! CTransaction_GetHash tx = None) (vtx b) ->
  ConnectBlock ReadTxFromDisk ReadHeaderFromDisk mempool nAdjustedTime VerifySig mt params txdb nBestHeight
    (bi :: pprev) hashNext false fSkip b w = Ok (bi', txdb', w', e) ->
  DisconnectBlock b (bi' :: pprev) txdb' =
    Some (txdb, mkEffects (CDiskBlockIndex_make pprev (uint_zero 8)) (map (fun tx => mkSync tx false false) (vtx b))) /\
  WriteBlockIndex e = mkDiskBlockIndex bi' (head_hash pprev) hashNext :: CDiskBlockIndex_make pprev (bi_hash bi).
Proof.
  intros Hv Hf Hc Hnew H. apply ConnectBlock_undo in H as (_ & He & Hd). split; [|done]. unfold DisconnectBlock. by rewrite Hd.
Qed.

(** C3: money supply.  A proof-of-work block without coinstakes, of at most 1000
    transactions, that [ConnectBlock] accepts raises the recorded supply by no
    more than the subsidy of the height it is checked against, from every
    supply to which a 64-bit integer can still add the subsidy: fees do not create
    coins, and the sums over the block do not overflow. *)
Theorem block_supply_bounded `{HD : Digests} `{BN : OpenSSL_BN} `{EC : ECDSA}
    (ReadTxFromDisk : CDiskTxPos -> option CTransaction) (ReadHeaderFromDisk : Z -> Z -> option CBlockHeader)
    (mempool : gmap uint256 CTransaction) (nAdjustedTime : Z) {W : Type} (VerifySig : CTransaction -> CTransaction -> nat -> W -> bool * W)
    (mt : Z -> Z -> Z) (params : chain_params) (txdb : txindex_map) (nBestHeight : Z) (bi prev : CBlockIndex)
    (pprev : list CBlockIndex) (hashNext : uint256) (fJust fSkip : bool) (b : CBlock) (w : W)
    (bi' : CBlockIndex) (txdb' : txindex_map) (w' : W) (e : effects) :
  Forall inputs_valid (vtx b) -> Forall (fun tx => IsCoinStake tx = false) (vtx b) -> (length (vtx b) <= 1000)%nat ->
  0 <= nMoneySupply prev -> nMoneySupply prev + pow_subsidy nBestHeight < 2 ^ 63 ->
  ConnectBlock ReadTxFromDisk ReadHeaderFromDisk mempool nAdjustedTime VerifySig mt params txdb nBestHeight
    (bi :: prev :: pprev) hashNext fJust fSkip b w = Ok (bi', txdb', w', e) ->
  nMoneySupply bi' <= nMoneySupply prev + pow_subsidy nBestHeight.
Proof.
  intros Hv Hst Hn Hsup Hroom H. unfold ConnectBlock in H. res_inv H.
  rename select (CheckBlock _ _ _ _ _ _ = _) into Ec. apply CheckBlock_txs in Ec as [_ Hshape].
  rename select (connect_txs _ _ _ _ _ _ _ _ _ _ _ _ = _) into Et. rename select connecting into s1.
  rename select (check_rewards _ _ _ _ _ _ _ _ _ _ = _) into Er. assert (bi' = set_supply bi (s64 (c_nValueOut s1 - c_nValueIn s1 + c_nFees s1))
    (s64 (nMoneySupply prev + c_nValueOut s1 - c_nValueIn s1))) as -> by (destruct fJust; by injection H).
  apply (connect_txs_rewards _ _ _ _ _ _ _ _ _ _ _ _ _ (Z.of_nat (length (vtx b)))) in Et as ((H1 & H2 & H3) & nOut & Ho & E);
    [|done|lia|by vm_compute|done|done|done|done].
  destruct Hshape as (cb & rest & Evtx & _ & _). unfold check_rewards in Er.
  assert (IsProofOfWork b = true) as Hpow.
  { unfold IsProofOfWork, IsProofOfStake. rewrite Evtx in *. destruct rest as [|t rest]; [done|].
    apply Forall_cons in Hst as [_ [Ht _]%Forall_cons]. by rewrite Ht. }
  rewrite Hpow, Evtx in *. cbn [head default] in Ho. res_inv Er. res_facts. rename select (GetValueOut cb = Some _) into Ho'.
  rename select ((_ <=? _) = true) into Hrew. bprop. unfold id in Ho. rewrite Ho in Ho'. injection Ho' as ->.
  unfold GetProofOfWorkReward in Hrew. pose proof (pow_subsidy_range nBestHeight) as HR.
  assert (MAX_MONEY = 9000000000000000) as HM by reflexivity.
  cbn [set_supply nMoneySupply]. rewrite s64_small in Hrew by lia. rewrite s64_small by lia. lia.
Qed.

(** ** A concrete block *)

(** Digests for examples: every block meets its proof-of-work target. *)
Definition easy_digests : Digests := {|
  SHA256 := toy_digest 32 1; RIPEMD160 := toy_digest 20 2; SHA1 := toy_digest 20 3; Hash9 _ := replicate 32 0;
|}.

(** A stored transaction with one output of 5 coins, a coinbase, a transaction
    that spends the stored output and one that spends the output of that one. *)
Definition ex_stored : CTransaction := mkTx 1 1000 [mkTxIn (mkOutPoint (replicate 8 7) 0) [] 0] [mkTxOut (5 * COIN) [0x51]] 0.
Definition ex_coinbase : CTransaction := mkTx 1 2000 [mkTxIn COutPoint_null [1; 2; 3] 0] [mkTxOut (2 * CENT) [0x51]] 0.
Definition ex_spend (h : uint256) (v : Z) : CTransaction := mkTx 1 2000 [mkTxIn (mkOutPoint h 0) [] 0] [mkTxOut v [0x51]] 0.
Definition ex_tx1 : CTransaction := ex_spend (@CTransaction_GetHash easy_digests ex_stored) (4 * COIN).
Definition ex_tx2 : CTransaction := ex_spend (@CTransaction_GetHash easy_digests ex_tx1) (3 * COIN).
Definition ex_txs : list CTransaction := [ex_coinbase; ex_tx1; ex_tx2].
Definition ex_header (root : uint256) : CBlockHeader := mkHeader 6 (replicate 8 9) root 2000 0x1e0fffff 0.
Definition ex_block : CBlock :=
  mkBlock (ex_header (@BuildMerkleTree easy_digests (mkBlock (ex_header (uint_zero 8)) ex_txs []))) ex_txs [].
Definition ex_pos : CDiskTxPos := mkDiskTxPos 1 500 600.
Definition ex_txdb : txindex_map := {[ @CTransaction_GetHash easy_digests ex_stored := CTxIndex_make ex_pos 1 ]}.
Definition ex_disk (p : CDiskTxPos) : option CTransaction :=
  if decide (p = ex_pos) then Some ex_stored else if nTxPos p =? 9149 then Some ex_tx1 else None.
Definition ex_index (height : Z) : CBlockIndex :=
  mkBlockIndex (replicate 8 height) 1 9000 (uint_zero 8) height 0 (7 * COIN) 0 0 0 COutPoint_null 0 (uint_zero 8) 6
    (uint_zero 8) 2000 0x1e0fffff 0.

Abbreviation ex_connected :=
  (@ConnectBlock easy_digests reference_BN one_sig_ECDSA ex_disk (fun _ _ => None) ∅ 2100 unit (fun _ _ _ w => (true, w))
    (fun a _ => a) (@main_net reference_BN) ex_txdb 100000 [ex_index 100001; ex_index 100000] (uint_zero 8) false true ex_block tt).
Definition result_or {A} (d : A) (r : res A) : A := match r with Ok a => a | _ => d end.
Definition ex_result : CBlockIndex * txindex_map * unit * effects :=
  result_or (ex_index 0, ∅, tt, mkEffects [] []) ex_connected.
Definition ex_indexed : CBlockIndex := fst (fst (fst ex_result)).
Definition ex_after : txindex_map := snd (fst (fst ex_result)).
Definition ex_effects : effects := snd ex_result.

Lemma result_or_Ok {A} (d : A) r : match r with Ok _ => true | _ => false end = true -> r = Ok (result_or d r).
Proof. by destruct r. Qed.

Lemma ex_connects : ex_connected = Ok (ex_indexed, ex_after, tt, ex_effects).
Proof.
  assert (ex_connected = Ok ex_result) as -> by (apply result_or_Ok; vm_compute; reflexivity).
  unfold ex_indexed, ex_after, ex_effects. by destruct ex_result as [[[? ?] []] ?].
Qed.

Lemma ex_inputs_valid : Forall inputs_valid (vtx ex_block).
Proof. repeat constructor; vm_compute; discriminate. Qed.

Lemma ex_canonical : canonical ex_txdb.
Proof. apply map_Forall_singleton. repeat constructor. Qed.

Lemma ex_new : Forall (fun tx => ex_txdb !! @CTransaction_GetHash easy_digests tx = None) (vtx ex_block).
Proof. apply (bool_decide_unpack _). vm_compute. exact I. Qed.

Lemma disconnect_undoes_connect_witness :
  fst <$> @DisconnectBlock easy_digests ex_block [ex_indexed; ex_index 100000] ex_after = Some ex_txdb.
Proof.
  destruct (@disconnect_undoes_connect easy_digests reference_BN one_sig_ECDSA ex_disk (fun _ _ => None) ∅ 2100 unit
    (fun _ _ _ w => (true, w)) (fun a _ => a) (@main_net reference_BN) ex_txdb 100000 (ex_index 100001) [ex_index 100000]
    (uint_zero 8) true ex_block tt ex_indexed ex_after tt ex_effects) as [-> _].
  - exact ex_inputs_valid.
  - unfold ex_index, UINT_MAX. cbn. lia.
  - exact ex_canonical.
  - exact ex_new.
  - exact ex_connects.
  - reflexivity.
Defined.

Lemma block_supply_bounded_witness : nMoneySupply ex_indexed <= 7 * COIN + pow_subsidy 100000.
Proof.
  apply (@block_supply_bounded easy_digests reference_BN one_sig_ECDSA ex_disk (fun _ _ => None) ∅ 2100 unit
    (fun _ _ _ w => (true, w)) (fun a _ => a) (@main_net reference_BN) ex_txdb 100000 (ex_index 100001) (ex_index 100000) []
    (uint_zero 8) false true ex_block tt ex_indexed ex_after tt ex_effects).
  - exact ex_inputs_valid.
  - apply (bool_decide_unpack _). vm_compute. exact I.
  - cbn. lia.
  - vm_compute. discriminate.
  - vm_compute. reflexivity.
  - exact ex_connects.
Defined.

(** The first user transaction of the block, connected alone. *)
Definition ex_step : res (@connecting unit) :=
  @connect_tx easy_digests ex_disk ∅ 2100 unit (fun _ _ _ w => (true, w)) (@main_net reference_BN) ex_txdb [ex_index 100001]
    (ex_index 100001) false true (mkConnecting ∅ 0 0 0 0 0 9149 tt) ex_tx1.
Definition ex_stepped : @connecting unit := result_or (mkConnecting ∅ 0 0 0 0 0 0 tt) ex_step.

Lemma connect_tx_no_double_spend_witness : Forall (fun o => ~ unspent (view ex_txdb ex_stepped) o) (spends ex_tx1).
Proof.
  destruct (@connect_tx_no_double_spend easy_digests ex_disk ∅ 2100 unit (fun _ _ _ w => (true, w)) (@main_net reference_BN)
    ex_txdb [ex_index 100001] (ex_index 100001) false true (mkConnecting ∅ 0 0 0 0 0 9149 tt) ex_stepped ex_tx1)
    as (_ & _ & H & _).
  - repeat constructor; vm_compute; discriminate.
  - unfold ex_index, UINT_MAX. cbn. lia.
  - vm_compute. reflexivity.
  - apply result_or_Ok. vm_compute. reflexivity.
  - exact H.
Defined.
