(* ===== verification/Mempool.v ===== *)
(** * The memory pool, orphan transactions and the arrival of a transaction (main.cpp, main.h)

    The pool keeps the transactions that wait for a block and an index from each
    spent output to its spender; a transaction whose inputs are unknown waits in
    the orphan maps.  A pointer into [mapTx] is the key of the entry it points to. *)

From S2P Require Import Prelude Uint256 Serialize BigNum Tx Merkle Script Interp Standard Consensus Ledger.

(** ** Orphan transactions *)

Record orphanage := mkOrphanage {
  mapOrphanTransactions : gmap uint256 CTransaction;
  mapOrphanTransactionsByPrev : gmap uint256 (gset uint256);
}.

(** [m[k]] on a map of sets: a missing entry is made empty. *)
Definition at_prev (m : gmap uint256 (gset uint256)) (p : uint256) : gset uint256 := default ∅ (m !! p).

Section Orphans.
Context `{HD : Digests}.

Fixpoint index_orphan (hash : uint256) (vi : list CTxIn) (m : gmap uint256 (gset uint256)) : gmap uint256 (gset uint256) :=
  match vi with
  | [] => m
  | txin :: vi =>
      let p := out_hash (prevout txin) in
      index_orphan hash vi (<[p := {[hash]} ∪ at_prev m p]> m)
  end.

Definition AddOrphanTx (tx : CTransaction) (s : orphanage) : bool * orphanage :=
  let hash := CTransaction_GetHash tx in
  if bool_decide (is_Some (mapOrphanTransactions s !! hash)) then (false, s)
  else if 5000 <? csize CTransaction_codec tx then (false, s)
  else (true, mkOrphanage (<[hash := tx]> (mapOrphanTransactions s)) (index_orphan hash (vin tx) (mapOrphanTransactionsByPrev s))).

Fixpoint unindex_orphan (hash : uint256) (vi : list CTxIn) (m : gmap uint256 (gset uint256)) : gmap uint256 (gset uint256) :=
  match vi with
  | [] => m
  | txin :: vi =>
      let p := out_hash (prevout txin) in
      let rest := at_prev m p ∖ {[hash]} in
      unindex_orphan hash vi (if decide (rest = ∅) then delete p m else <[p := rest]> m)
  end.

Definition EraseOrphanTx (hash : uint256) (s : orphanage) : orphanage :=
  match mapOrphanTransactions s !! hash with
  | None => s
  | Some tx => mkOrphanage (delete hash (mapOrphanTransactions s)) (unindex_orphan hash (vin tx) (mapOrphanTransactionsByPrev s))
  end.

(** The least key, and the least key not below [r], in the order of the map. *)
Fixpoint least (l : list uint256) : option uint256 :=
  match l with
  | [] => None
  | h :: l => match least l with Some k => if op_lt k h then Some k else Some h | None => Some h end
  end.

Definition lower_bound (r : uint256) (m : gmap uint256 CTransaction) : option uint256 :=
  least (filter (fun k => op_lt k r = false) (map fst (map_to_list m))).

(** [draws] are the successive values of [GetRandHash]; one turn per orphan too many. *)
Fixpoint limit_loop (fuel : nat) (draws : nat -> uint256) (nMaxOrphans nEvicted : Z) (s : orphanage) : Z * orphanage :=
  match fuel with
  | O => (nEvicted, s)
  | S fuel =>
      if nMaxOrphans <? Z.of_nat (size (mapOrphanTransactions s)) then
        let m := mapOrphanTransactions s in
        match (match lower_bound (draws O) m with Some k => Some k | None => least (map fst (map_to_list m)) end) with
        | None => (nEvicted, s)
        | Some k => limit_loop fuel (fun i => draws (S i)) nMaxOrphans (u32 (nEvicted + 1)) (EraseOrphanTx k s)
        end
      else (nEvicted, s)
  end.

Definition LimitOrphanTxSize (draws : nat -> uint256) (nMaxOrphans : Z) (s : orphanage) : Z * orphanage :=
  limit_loop (S (size (mapOrphanTransactions s))) draws nMaxOrphans 0 s.
End Orphans.

(** ** The pool *)

(** [ip_tx] is the key of the transaction [ptx] points to. *)
Record CInPoint := mkInPoint { ip_tx : uint256; ip_n : nat }.

Record CTxMemPool := mkPool { mapTx : gmap uint256 CTransaction; mapNextTx : gmap COutPoint CInPoint; nTransactionsUpdated : Z }.

Section Pool.
Context `{HD : Digests}.

Fixpoint index_inputs (hash : uint256) (vi : list CTxIn) (i : nat) (m : gmap COutPoint CInPoint) : gmap COutPoint CInPoint :=
  match vi with
  | [] => m
  | txin :: vi => index_inputs hash vi (S i) (<[prevout txin := mkInPoint hash i]> m)
  end.

Definition addUnchecked (hash : uint256) (tx : CTransaction) (p : CTxMemPool) : CTxMemPool :=
  mkPool (<[hash := tx]> (mapTx p)) (index_inputs hash (vin tx) 0 (mapNextTx p)) (u32 (nTransactionsUpdated p + 1)).

Definition erase_inputs (vi : list CTxIn) (m : gmap COutPoint CInPoint) : gmap COutPoint CInPoint :=
  fold_left (fun m txin => delete (prevout txin) m) vi m.

Definition erase_tx (hash : uint256) (tx : CTransaction) (p : CTxMemPool) : CTxMemPool :=
  mkPool (delete hash (mapTx p)) (erase_inputs (vin tx) (mapNextTx p)) (u32 (nTransactionsUpdated p + 1)).

(** The loop over the outputs, with the recursive call as [rec].  [None]: a pointer
    to an entry that is gone. *)
Fixpoint remove_children (rec : CTxMemPool -> CTransaction -> option CTxMemPool) (hash : uint256) (i n : nat) (p : CTxMemPool)
    : option CTxMemPool :=
  match n with
  | O => Some p
  | S n =>
      match mapNextTx p !! mkOutPoint hash (Z.of_nat i) with
      | None => remove_children rec hash (S i) n p
      | Some ip =>
          match mapTx p !! ip_tx ip with
          | None => None
          | Some child =>
              match rec p child with None => None | Some p => remove_children rec hash (S i) n p end
          end
      end
  end.

(** [None]: out of fuel, or as above. *)
Fixpoint remove_from (fuel : nat) (fRecursive : bool) (p : CTxMemPool) (tx : CTransaction) : option CTxMemPool :=
  match fuel with
  | O => None
  | S fuel =>
      let hash := CTransaction_GetHash tx in
      match mapTx p !! hash with
      | None => Some p
      | Some _ =>
          match (if fRecursive then remove_children (remove_from fuel true) hash 0 (length (vout tx)) p else Some p) with
          | None => None
          | Some p => Some (erase_tx hash tx p)
          end
      end
  end.

(** The chain of spenders is no longer than the pool. *)
Definition remove (fRecursive : bool) (tx : CTransaction) (p : CTxMemPool) : option CTxMemPool :=
  remove_from (S (size (mapTx p))) fRecursive p tx.

Fixpoint conflicts_loop (tx : CTransaction) (vi : list CTxIn) (p : CTxMemPool) : option CTxMemPool :=
  match vi with
  | [] => Some p
  | txin :: vi =>
      match mapNextTx p !! prevout txin with
      | None => conflicts_loop tx vi p
      | Some ip =>
          match mapTx p !! ip_tx ip with
          | None => None
          | Some txConflict =>
              if decide (txConflict = tx) then conflicts_loop tx vi p
              else match remove true txConflict p with None => None | Some p => conflicts_loop tx vi p end
          end
      end
  end.

Definition removeConflicts (tx : CTransaction) (p : CTxMemPool) : option CTxMemPool := conflicts_loop tx (vin tx) p.

Definition clear (p : CTxMemPool) : CTxMemPool := mkPool ∅ ∅ (u32 (nTransactionsUpdated p + 1)).

Definition pool_exists (hash : uint256) (p : CTxMemPool) : bool := bool_decide (is_Some (mapTx p !! hash)).
End Pool.

(** ** Acceptance *)

Section Accept.
Context `{BN : OpenSSL_BN} `{HD : Digests} `{EC : ECDSA}.
Context (GetRandHash : nat -> uint256).
Context (ReadTxFromDisk : CDiskTxPos -> option CTransaction) (nAdjustedTime : Z).
Context (params : chain_params) (fTestNet fEnforceCanonical : bool).

(** One input, with the output it spends. *)
Definition input_standard (tx : CTransaction) (i : nat) (txin : CTxIn) (prev : CTxOut) (c : CSignatureCache) : bool * CSignatureCache :=
  match Solver (scriptPubKey prev) with
  | (false, _, _) => (false, c)
  | (true, whichType, vSolutions) =>
      let nArgsExpected := ScriptSigArgsExpected whichType vSolutions in
      if nArgsExpected <? 0 then (false, c)
      else
        let '(ok, stack, c) := EvalScript (CheckSig GetRandHash tx i 0) [] (scriptSig txin) c in
        if negb ok then (false, c)
        else if decide (whichType = TX_SCRIPTHASH) then
          match stack with
          | [] => (false, c)
          | subscript :: _ =>
              match Solver subscript with
              | (false, _, _) => (false, c)
              | (true, whichType2, vSolutions2) =>
                  if decide (whichType2 = TX_SCRIPTHASH) then (false, c)
                  else
                    let tmpExpected := ScriptSigArgsExpected whichType2 vSolutions2 in
                    if tmpExpected <? 0 then (false, c)
                    else (Z.of_nat (length stack) =? nArgsExpected + tmpExpected, c)
              end
          end
        else (Z.of_nat (length stack) =? nArgsExpected, c)
  end.

(** [None] when [GetOutputFor] throws. *)
Fixpoint inputs_standard_loop (tx : CTransaction) (inputs : MapPrevTx) (vi : list CTxIn) (i : nat) (c : CSignatureCache)
    : option (bool * CSignatureCache) :=
  match vi with
  | [] => Some (true, c)
  | txin :: vi =>
      match GetOutputFor txin inputs with
      | None => None
      | Some prev =>
          let '(ok, c) := input_standard tx i txin prev c in
          if ok then inputs_standard_loop tx inputs vi (S i) c else Some (false, c)
      end
  end.

Definition AreInputsStandard (tx : CTransaction) (inputs : MapPrevTx) (c : CSignatureCache) : option (bool * CSignatureCache) :=
  if IsCoinBase tx then Some (true, c) else inputs_standard_loop tx inputs (vin tx) 0 c.

(** The limiter of free transactions: its state, and what it says of one of a size
    (a decaying count of bytes in doubles). *)
Context {L : Type} (limiter : CTransaction -> Z -> L -> bool * L).

(** The result, [pfMissingInputs], the misbehaviour score, and the state. *)
Record accepted := mkAccepted {
  a_ok : bool; a_fMissingInputs : bool; a_nDoS : Z; a_pool : CTxMemPool; a_cache : CSignatureCache; a_limiter : L;
}.

Definition verify_sig (txPrev tx : CTransaction) (i : nat) (c : CSignatureCache) : bool * CSignatureCache :=
  VerifySignature GetRandHash txPrev tx i 0 c.

(** The checks of [accept] against the inputs: [None] when it throws, otherwise
    whether it passed and the rest of the result.  An input that points past the
    outputs of a known transaction costs its sender 100, one that is not known
    nothing.  When an input does not connect, the cache of the result is the one
    before [ConnectInputs]: the entries of the inputs already verified, which the
    program keeps, change no later verdict (signature_cache_transparent). *)
Definition check_inputs (txdb : txindex_map) (pindexBest : list CBlockIndex) (tx : CTransaction) (p : CTxMemPool)
    (c : CSignatureCache) (l : L) : option accepted :=
  let f := FetchInputs ReadTxFromDisk (mapTx p) nAdjustedTime txdb ∅ false false tx ∅ in
  if negb (f_ok f) then Some (mkAccepted false (negb (f_invalid f)) (if f_invalid f then 100 else 0) p c l)
  else
    match AreInputsStandard tx (f_inputs f) c with
    | None => None
    | Some (std, c) =>
        if (negb std && negb fTestNet)%bool then Some (mkAccepted false false 0 p c l)
        else
          match GetValueMapIn tx (f_inputs f), GetValueOut tx with
          | Some nIn, Some nOut =>
              let nFees := s64 (nIn - nOut) in
              let nSize := csize CTransaction_codec tx in
              if nFees <? GetMinFee tx 1000 GMF_RELAY nSize then Some (mkAccepted false false 0 p c l)
              else
                let '(pass, l) := if nFees <? MIN_RELAY_TX_FEE then limiter tx nSize l else (true, l) in
                if negb pass then Some (mkAccepted false false 0 p c l)
                else
                  match ConnectInputs verify_sig (nCoinbaseMaturity params) (f_inputs f) ∅ pos_mempool pindexBest
                          false false false tx c with
                  | Throw => None
                  | Fail n => Some (mkAccepted false false n p c l)
                  | Ok (_, c) => Some (mkAccepted true false 0 p c l)
                  end
          | _, _ => None
          end
    end.

(** [CTxMemPool::accept]; [None] when it throws.  After a conflict it returns at
    once: replacement is disabled. *)
Definition accept (txdb : txindex_map) (pindexBest : list CBlockIndex) (tx : CTransaction) (fCheckInputs : bool)
    (p : CTxMemPool) (c : CSignatureCache) (l : L) : option accepted :=
  let reject n := Some (mkAccepted false false n p c l) in
  match CheckTransaction tx with
  | Reject n => reject n
  | Accept =>
      let hash := CTransaction_GetHash tx in
      if IsCoinBase tx then reject 100
      else if IsCoinStake tx then reject 100
      else if 2 ^ 31 - 1 <? nLockTime tx then reject 0
      else if (negb fTestNet && negb (tx_IsStandard fEnforceCanonical tx))%bool then reject 0
      else if pool_exists hash p then reject 0
      else if (fCheckInputs && bool_decide (is_Some (txdb !! hash)))%bool then reject 0
      else if existsb (fun txin => bool_decide (is_Some (mapNextTx p !! prevout txin))) (vin tx) then reject 0
      else
        match (if fCheckInputs then check_inputs txdb pindexBest tx p c l else Some (mkAccepted true false 0 p c l)) with
        | None => None
        | Some a =>
            if a_ok a then Some (mkAccepted true false 0 (addUnchecked hash tx (a_pool a)) (a_cache a) (a_limiter a)) else Some a
        end
  end.
End Accept.

(** ** The arrival of a transaction *)

(** What the handler needs of the pool: try to accept a transaction (result,
    [pfMissingInputs], score, new state; [None] when it throws), and whether the pool
    has one. *)
Class Acceptance (P : Type) := {
  try_accept : CTransaction -> P -> option (bool * bool * Z * P);
  has_tx : P -> uint256 -> bool;
}.

(** What the pool promises of a transaction as the wire has it: it returns, an
    accepted transaction was not in the pool and is in it now, one that is in the
    pool is refused as known, and nothing leaves the pool on the way. *)
Class Acceptance_ok `{HD : Digests} {P : Type} (A : Acceptance P) : Prop := {
  accept_returns : forall tx p, inputs_valid tx -> is_Some (try_accept tx p);
  accept_enters : forall tx p ms n p', inputs_valid tx -> try_accept tx p = Some (true, ms, n, p') ->
    has_tx p (CTransaction_GetHash tx) = false /\ has_tx p' (CTransaction_GetHash tx) = true;
  accept_keeps : forall tx p ok ms n p' h, inputs_valid tx -> try_accept tx p = Some (ok, ms, n, p') ->
    has_tx p h = true -> has_tx p' h = true;
}.

(** The pool with the signature cache and the limiter. *)
Definition pool_acceptance `{BN : OpenSSL_BN} `{HD : Digests} `{EC : ECDSA} (GetRandHash : nat -> uint256)
    (ReadTxFromDisk : CDiskTxPos -> option CTransaction) (nAdjustedTime : Z) (params : chain_params)
    (fTestNet fEnforceCanonical : bool) {L : Type} (limiter : CTransaction -> Z -> L -> bool * L)
    (txdb : txindex_map) (pindexBest : list CBlockIndex) : Acceptance (CTxMemPool * CSignatureCache * L) := {|
  try_accept tx '(p, c, l) :=
    match accept GetRandHash ReadTxFromDisk nAdjustedTime params fTestNet fEnforceCanonical limiter txdb pindexBest tx true p c l with
    | None => None
    | Some a => Some (a_ok a, a_fMissingInputs a, a_nDoS a, (a_pool a, a_cache a, a_limiter a))
    end;
  has_tx '(p, c, l) h := pool_exists h p;
|}.

Section Arrival.
Context `{HD : Digests} {P : Type} {A : Acceptance P}.

(** A [set<uint256>] in the order of its iterator. *)
Fixpoint insert_hash (h : uint256) (l : list uint256) : list uint256 :=
  match l with
  | [] => [h]
  | k :: l => if op_lt k h then k :: insert_hash h l else h :: k :: l
  end.
Definition in_order (s : gset uint256) : list uint256 := fold_right insert_hash [] (elements s).

(** [SyncWithWallets] and [RelayTransaction] calls are recorded, latest last; the
    queue holds what the loop has not reached yet. *)
Record arrival := mkArrival {
  ar_pool : P; ar_orphans : orphanage; ar_queue : list uint256; ar_erase : list uint256;
  ar_synced : list CTransaction; ar_relayed : list uint256;
}.

(** The orphans that wait for one transaction. *)
Fixpoint try_orphans (tx : CTransaction) (hs : list uint256) (s : arrival) : option arrival :=
  match hs with
  | [] => Some s
  | orphanTxHash :: hs =>
      match mapOrphanTransactions (ar_orphans s) !! orphanTxHash with
      | None => None
      | Some orphanTx =>
          match try_accept orphanTx (ar_pool s) with
          | None => None
          | Some (ok, fMissingInputs2, _, p) =>
              try_orphans tx hs
                (if ok then
                   mkArrival p (ar_orphans s) (ar_queue s ++ [orphanTxHash]) (ar_erase s ++ [orphanTxHash])
                     (ar_synced s ++ [tx]) (ar_relayed s ++ [orphanTxHash])
                 else
                   mkArrival p (ar_orphans s) (ar_queue s)
                     (if fMissingInputs2 then ar_erase s else ar_erase s ++ [orphanTxHash]) (ar_synced s) (ar_relayed s))
          end
      end
  end.

(** [mapOrphanTransactionsByPrev[hashPrev]] makes an empty entry where there is none. *)
Definition touch_prev (hashPrev : uint256) (s : orphanage) : orphanage :=
  mkOrphanage (mapOrphanTransactions s)
    (<[hashPrev := at_prev (mapOrphanTransactionsByPrev s) hashPrev]> (mapOrphanTransactionsByPrev s)).

(** The work queue; [None] when a call throws or the fuel is spent. *)
Fixpoint work_loop (fuel : nat) (tx : CTransaction) (s : arrival) : option arrival :=
  match ar_queue s with
  | [] => Some s
  | hashPrev :: queue =>
      match fuel with
      | O => None
      | S fuel =>
          let orphans := touch_prev hashPrev (ar_orphans s) in
          let s := mkArrival (ar_pool s) orphans queue (ar_erase s) (ar_synced s) (ar_relayed s) in
          match try_orphans tx (in_order (at_prev (mapOrphanTransactionsByPrev orphans) hashPrev)) s with
          | None => None
          | Some s => work_loop fuel tx s
          end
      end
  end.

(** The handler of a tx message: the final state and the sender's score. *)
Definition ProcessMessage_tx (draws : nat -> uint256) (tx : CTransaction) (p : P) (o : orphanage) : option (arrival * Z) :=
  let hash := CTransaction_GetHash tx in
  match try_accept tx p with
  | None => None
  | Some (true, _, nDoS, p) =>
      match work_loop (S (size (mapOrphanTransactions o))) tx (mkArrival p o [hash] [hash] [tx] [hash]) with
      | None => None
      | Some s =>
          let orphans := fold_left (fun o h => EraseOrphanTx h o) (ar_erase s) (ar_orphans s) in
          Some (mkArrival (ar_pool s) orphans [] (ar_erase s) (ar_synced s) (ar_relayed s), nDoS)
      end
  | Some (false, fMissingInputs, nDoS, p) =>
      let o := if fMissingInputs then snd (LimitOrphanTxSize draws MAX_ORPHAN_TRANSACTIONS (snd (AddOrphanTx tx o))) else o in
      Some (mkArrival p o [] [] [] [], nDoS)
  end.
End Arrival.
