(* ===== verification/MempoolFacts.v ===== *)
(** * The memory pool and the orphans: invariants and theorems *)

From S2P Require Import Prelude Uint256 Serialize BigNum Tx Merkle Script Interp InterpRun Standard Consensus Ledger Mempool.

(** ** Orphans *)

Definition prevs (vi : list CTxIn) : list uint256 := map (fun x => out_hash (prevout x)) vi.

Section OrphanFacts.
Context `{HD : Digests}.

(** The index by previous transaction is exact. *)
Definition orphans_ok (s : orphanage) : Prop :=
  (forall h tx, mapOrphanTransactions s !! h = Some tx -> CTransaction_GetHash tx = h) /\
  (forall p h, h ∈ at_prev (mapOrphanTransactionsByPrev s) p <->
     exists tx, mapOrphanTransactions s !! h = Some tx /\ p ∈ prevs (vin tx)).

Lemma empty_orphans_ok : orphans_ok (mkOrphanage ∅ ∅).
Proof.
  split; [intros h tx; cbn; by rewrite lookup_empty|]. intros p h. unfold at_prev. cbn. rewrite lookup_empty. cbn.
  split; [set_solver|]. by intros (tx & H & _).
Qed.

Lemma at_prev_insert m p v q : at_prev (<[p := v]> m) q = if decide (q = p) then v else at_prev m q.
Proof. unfold at_prev. case_decide; [subst; by rewrite lookup_insert_eq | by rewrite lookup_insert_ne]. Qed.

Lemma at_prev_delete m p q : at_prev (delete p m) q = if decide (q = p) then ∅ else at_prev m q.
Proof. unfold at_prev. case_decide; [subst; by rewrite lookup_delete_eq | by rewrite lookup_delete_ne]. Qed.

Lemma at_prev_index hash vi m p h : h ∈ at_prev (index_orphan hash vi m) p <->
  h ∈ at_prev m p \/ (h = hash /\ p ∈ prevs vi).
Proof.
  revert m. induction vi as [|x vi IH]; intros m; cbn [index_orphan prevs map]; [set_solver|].
  rewrite IH, at_prev_insert. fold (prevs vi). rewrite elem_of_cons. case_decide; set_solver.
Qed.

Lemma at_prev_unindex hash vi m p h : h ∈ at_prev (unindex_orphan hash vi m) p <->
  h ∈ at_prev m p /\ ~ (h = hash /\ p ∈ prevs vi).
Proof.
  revert m. induction vi as [|x vi IH]; intros m; cbn [unindex_orphan prevs map]; [set_solver|].
  fold (prevs vi). rewrite IH, elem_of_cons. set (q := out_hash (prevout x)).
  case_decide as E; [rewrite at_prev_delete | rewrite at_prev_insert]; case_decide as Eq; subst; set_solver.
Qed.

Lemma AddOrphanTx_ok tx s : orphans_ok s -> orphans_ok (snd (AddOrphanTx tx s)).
Proof.
  intros [Hh Hi]. unfold AddOrphanTx. case_bool_decide as E; [done|]. destruct (_ <? _); [done|]. cbn [snd].
  apply eq_None_not_Some in E. split; cbn [mapOrphanTransactions mapOrphanTransactionsByPrev].
  - intros h t. rewrite lookup_insert_Some. intros [[<- <-]|[_ H]]; [done|by apply Hh].
  - intros p h. rewrite at_prev_index, Hi. destruct (decide (h = CTransaction_GetHash tx)) as [->|Hne].
    + rewrite lookup_insert_eq, E. naive_solver.
    + rewrite lookup_insert_ne by done. naive_solver.
Qed.

Lemma EraseOrphanTx_lookup k s h : mapOrphanTransactions (EraseOrphanTx k s) !! h =
  if decide (h = k) then None else mapOrphanTransactions s !! h.
Proof.
  unfold EraseOrphanTx. destruct (mapOrphanTransactions s !! k) as [tx|] eqn:E; cbn [mapOrphanTransactions].
  - case_decide; [subst; by rewrite lookup_delete_eq | by rewrite lookup_delete_ne].
  - case_decide; [by subst|done].
Qed.

Lemma EraseOrphanTx_ok k s : orphans_ok s -> orphans_ok (EraseOrphanTx k s).
Proof.
  intros [Hh Hi]. split; [intros h t; rewrite EraseOrphanTx_lookup; case_decide; [done|apply Hh]|].
  intros p h. rewrite EraseOrphanTx_lookup. unfold EraseOrphanTx.
  destruct (mapOrphanTransactions s !! k) as [tx|] eqn:E; cbn [mapOrphanTransactionsByPrev].
  - rewrite at_prev_unindex, Hi. case_decide as Ek; [subst|]; naive_solver.
  - rewrite Hi. case_decide as Ek; [subst|]; naive_solver.
Qed.

Lemma touch_prev_ok p s : orphans_ok s -> orphans_ok (touch_prev p s).
Proof.
  intros [Hh Hi]. split; [done|]. intros q h. unfold touch_prev. cbn [mapOrphanTransactions mapOrphanTransactionsByPrev].
  rewrite at_prev_insert, <- Hi. case_decide; [by subst|done].
Qed.

(** ** Eviction *)

Lemma least_elem l k : least l = Some k -> k ∈ l.
Proof.
  revert k. induction l as [|h l IH]; intros k; cbn [least]; [done|].
  destruct (least l) as [k'|]; [destruct (op_lt k' h)|]; intros [= <-]; rewrite elem_of_cons; auto.
Qed.

Lemma least_nonempty l : l <> [] -> is_Some (least l).
Proof. destruct l as [|h l]; [done|]. intros _. cbn [least]. destruct (least l); [case_match|]; eauto. Qed.

Lemma victim_exists (r : uint256) (m : gmap uint256 CTransaction) : (0 < size m)%nat ->
  exists k, match lower_bound r m with Some k => Some k | None => least (map fst (map_to_list m)) end = Some k /\ is_Some (m !! k).
Proof.
  intros Hm.
  assert (forall k, k ∈ map fst (map_to_list m) -> is_Some (m !! k)) as Hin.
  { intros k ([h t] & -> & H)%list_elem_of_fmap. apply elem_of_map_to_list in H. by exists t. }
  destruct (lower_bound r m) as [k|] eqn:E.
  - exists k. split; [done|]. apply Hin. apply least_elem in E. by apply list_elem_of_filter in E as [_ ?].
  - destruct (least_nonempty (map fst (map_to_list m))) as [k Hk].
    { intros Hnil. apply (f_equal length) in Hnil. rewrite length_map, length_map_to_list in Hnil. cbn in Hnil. lia. }
    exists k. split; [done|]. by apply Hin, least_elem.
Qed.

Lemma EraseOrphanTx_size k s : is_Some (mapOrphanTransactions s !! k) ->
  S (size (mapOrphanTransactions (EraseOrphanTx k s))) = size (mapOrphanTransactions s).
Proof.
  intros [tx E]. unfold EraseOrphanTx. rewrite E. cbn [mapOrphanTransactions]. rewrite map_size_delete_Some by eauto.
  assert (size (mapOrphanTransactions s) <> 0%nat); [|lia]. rewrite map_size_non_empty_iff. intros Em. by rewrite Em, lookup_empty in E.
Qed.

Lemma EraseOrphanTx_sub k s : mapOrphanTransactions (EraseOrphanTx k s) ⊆ mapOrphanTransactions s.
Proof. apply map_subseteq_spec. intros h t. rewrite EraseOrphanTx_lookup. by case_decide. Qed.

Lemma limit_loop_spec fuel : forall draws nMax n s, 0 <= nMax -> 0 <= n -> orphans_ok s ->
  n + Z.of_nat (size (mapOrphanTransactions s)) < 2 ^ 32 -> (size (mapOrphanTransactions s) < fuel)%nat ->
  let '(n', s') := limit_loop fuel draws nMax n s in
  orphans_ok s' /\ mapOrphanTransactions s' ⊆ mapOrphanTransactions s /\
  Z.of_nat (size (mapOrphanTransactions s')) = Z.min nMax (Z.of_nat (size (mapOrphanTransactions s))) /\
  n' = n + (Z.of_nat (size (mapOrphanTransactions s)) - Z.of_nat (size (mapOrphanTransactions s'))).
Proof.
  induction fuel as [|fuel IH]; intros draws nMax n s Hm Hn Hok Hb Hf; [lia|]. cbn [limit_loop].
  destruct (Z.ltb_spec nMax (Z.of_nat (size (mapOrphanTransactions s)))) as [Hlt|Hge]; [|conjs; try done; lia].
  destruct (victim_exists (draws O) (mapOrphanTransactions s)) as (k & -> & Hk); [lia|].
  pose proof (EraseOrphanTx_size k s Hk) as Hs. rewrite u32_small by lia.
  specialize (IH (fun i => draws (S i)) nMax (n + 1) (EraseOrphanTx k s) Hm ltac:(lia) (EraseOrphanTx_ok _ _ Hok) ltac:(lia) ltac:(lia)).
  destruct (limit_loop _ _ _ _ _) as [n' s']. destruct IH as (H1 & H2 & H3 & H4).
  conjs; [done | etrans; [exact H2 | apply EraseOrphanTx_sub] | lia | lia].
Qed.
End OrphanFacts.

(** ** The pool's invariant *)

Section PoolFacts.
Context `{HD : Digests}.

(** Entries are filed under their ids, spend distinct outputs, and [mapNextTx] is
    exactly the index of the outputs the entries spend. *)
Record pool_ok (p : CTxMemPool) : Prop := {
  ok_hash : forall h tx, mapTx p !! h = Some tx -> CTransaction_GetHash tx = h /\ NoDup (map prevout (vin tx));
  ok_next : forall o h i, mapNextTx p !! o = Some (mkInPoint h i) <->
    exists tx x, mapTx p !! h = Some tx /\ vin tx !! i = Some x /\ prevout x = o;
}.

(** No two entries spend the same output. *)
Lemma pool_no_conflict p h1 h2 t1 t2 o : pool_ok p -> mapTx p !! h1 = Some t1 -> mapTx p !! h2 = Some t2 ->
  o ∈ map prevout (vin t1) -> o ∈ map prevout (vin t2) -> h1 = h2.
Proof.
  intros [_ Hn] H1 H2 (x1 & -> & [i1 E1]%list_elem_of_lookup)%list_elem_of_fmap (x2 & Eo & [i2 E2]%list_elem_of_lookup)%list_elem_of_fmap.
  assert (mapNextTx p !! prevout x1 = Some (mkInPoint h1 i1)) as L1 by (apply Hn; by exists t1, x1).
  assert (mapNextTx p !! prevout x1 = Some (mkInPoint h2 i2)) as L2 by (apply Hn; by exists t2, x2).
  congruence.
Qed.

Lemma pool_next_some p o ip : pool_ok p -> mapNextTx p !! o = Some ip ->
  exists tx x, mapTx p !! ip_tx ip = Some tx /\ vin tx !! ip_n ip = Some x /\ prevout x = o.
Proof. destruct ip as [h i]. intros [_ Hn] H. by apply Hn. Qed.

Lemma empty_pool_ok n : pool_ok (mkPool ∅ ∅ n).
Proof. split; cbn; intros *; rewrite ?lookup_empty; [done|]. split; [done|]. by intros (? & ? & H & _). Qed.

(** Removing *)

Lemma lookup_erase_inputs vi m o : erase_inputs vi m !! o = if decide (o ∈ map prevout vi) then None else m !! o.
Proof.
  unfold erase_inputs. revert m. induction vi as [|x vi IH]; intros m; cbn [fold_left map].
  { rewrite decide_False; [done|]. apply not_elem_of_nil. }
  rewrite IH. destruct (decide (o = prevout x)) as [->|Hne].
  - rewrite lookup_delete_eq. rewrite (decide_True (P := prevout x ∈ _ :: _)) by (by constructor). by case_decide.
  - rewrite lookup_delete_ne by done. destruct (decide (o ∈ map prevout vi)).
    + rewrite decide_True; [done|]. by right.
    + rewrite decide_False; [done|]. by apply not_elem_of_cons.
Qed.

Lemma erase_tx_ok p h tx : pool_ok p -> mapTx p !! h = Some tx -> pool_ok (erase_tx h tx p).
Proof.
  intros Hok Hh. split; cbn [erase_tx mapTx mapNextTx].
  - intros k t. rewrite lookup_delete_Some. intros [_ H]. by apply Hok.
  - intros o k i. rewrite lookup_erase_inputs. setoid_rewrite lookup_delete_Some.
    case_decide as E.
    + split; [done|]. intros (t & x & [Hne Ht] & Hx & <-). destruct Hne. eapply pool_no_conflict; [exact Hok|exact Hh|exact Ht|done|].
      eapply list_elem_of_fmap_2', eq_refl. by eapply list_elem_of_lookup_2.
    + rewrite (ok_next _ Hok). split; [|naive_solver]. intros (t & x & Ht & Hx & <-). exists t, x. repeat split; try done.
      intros ->. rewrite Hh in Ht. injection Ht as <-. apply E. eapply list_elem_of_fmap_2', eq_refl. by eapply list_elem_of_lookup_2.
Qed.

(** Adding *)

Lemma index_inputs_ne hash vi i m o : o ∉ map prevout vi -> index_inputs hash vi i m !! o = m !! o.
Proof.
  revert i m. induction vi as [|x vi IH]; intros i m Ho; cbn [index_inputs map] in *; [done|].
  apply not_elem_of_cons in Ho as [Hne Ho]. rewrite IH by done. by rewrite lookup_insert_ne.
Qed.

Lemma index_inputs_eq hash vi i m j x : NoDup (map prevout vi) -> vi !! j = Some x ->
  index_inputs hash vi i m !! prevout x = Some (mkInPoint hash (i + j)).
Proof.
  revert i m j. induction vi as [|y vi IH]; intros i m j Hnd Hj; cbn [index_inputs map] in *; [done|].
  apply NoDup_cons in Hnd as [Hni Hnd]. destruct j as [|j]; cbn in Hj.
  - injection Hj as ->. rewrite index_inputs_ne by done. rewrite lookup_insert_eq. by rewrite Nat.add_0_r.
  - rewrite (IH _ _ j) by done. by rewrite Nat.add_succ_comm.
Qed.

Lemma addUnchecked_ok p tx : pool_ok p -> mapTx p !! CTransaction_GetHash tx = None -> NoDup (map prevout (vin tx)) ->
  Forall (fun x => mapNextTx p !! prevout x = None) (vin tx) -> pool_ok (addUnchecked (CTransaction_GetHash tx) tx p).
Proof.
  intros Hok Hnew Hnd Hfree. set (hash := CTransaction_GetHash tx) in *. split; cbn [addUnchecked mapTx mapNextTx].
  - intros h t. rewrite lookup_insert_Some. intros [[<- <-]|[_ H]]; [done|by apply Hok].
  - intros o h i. destruct (decide (o ∈ map prevout (vin tx))) as [(y & -> & [j Hj]%list_elem_of_lookup)%list_elem_of_fmap | Hni].
    + rewrite (index_inputs_eq _ _ _ _ j) by done. cbn [Nat.add]. split.
      * intros [= <- <-]. exists tx, y. by rewrite lookup_insert_eq.
      * intros (t & x & Ht & Hx & Ex). apply lookup_insert_Some in Ht as [[<- <-]|[Hne Ht]].
        -- do 2 f_equal. eapply (NoDup_lookup (map prevout (vin tx))); [done|rewrite list_lookup_fmap, Hj; done|].
           rewrite list_lookup_fmap, Hx. cbn. by rewrite Ex.
        -- assert (mapNextTx p !! prevout y = Some (mkInPoint h i)) as Hl by (apply Hok; exists t, x; auto).
           rewrite Forall_forall in Hfree. rewrite Hfree in Hl by (by eapply list_elem_of_lookup_2). done.
    + rewrite index_inputs_ne by done. rewrite (ok_next _ Hok). split.
      * intros (t & x & Ht & Hx & <-). exists t, x. rewrite lookup_insert_ne by congruence. done.
      * intros (t & x & Ht & Hx & <-). apply lookup_insert_Some in Ht as [[<- <-]|[Hne Ht]]; [|by exists t, x].
        destruct Hni. eapply list_elem_of_fmap_2', eq_refl. by eapply list_elem_of_lookup_2.
Qed.

(** ** Recursive removal *)

(** [k] spends an output of [h]. *)
Definition child (p : CTxMemPool) (h k : uint256) : Prop :=
  exists tp tk x, mapTx p !! h = Some tp /\ mapTx p !! k = Some tk /\ x ∈ vin tk /\ out_hash (prevout x) = h /\
    0 <= out_n (prevout x) < Z.of_nat (length (vout tp)).

(** Spending goes upwards in some rank of the ids: there is no cycle. *)
Definition ranked (rank : uint256 -> nat) (p : CTxMemPool) : Prop :=
  forall h tx x, mapTx p !! h = Some tx -> x ∈ vin tx -> (rank (out_hash (prevout x)) < rank h)%nat.

(** [p] is [p0] without the entries of [D], with whom all their spenders are gone. *)
Definition removed (p0 : CTxMemPool) (D : gset uint256) (p : CTxMemPool) : Prop :=
  pool_ok p /\ (forall h, mapTx p !! h = if decide (h ∈ D) then None else mapTx p0 !! h) /\
  (forall h k, h ∈ D -> child p0 h k -> k ∈ D).

(** How many entries are ranked above [h]. *)
Definition above (rank : uint256 -> nat) (p : CTxMemPool) (h : uint256) : nat :=
  size (filter (fun kv => (rank h < rank (fst kv))%nat) (mapTx p)).

Lemma child_rank rank p h k : ranked rank p -> child p h k -> (rank h < rank k)%nat.
Proof. intros Hr (tp & tk & x & _ & Hk & Hx & <- & _). by eapply Hr. Qed.

Lemma rtc_rank rank p h k : ranked rank p -> rtc (child p) h k -> (rank h <= rank k)%nat.
Proof. intros Hr. induction 1 as [|a b c Hab _ IH]; [done|]. apply (child_rank rank) in Hab; [lia|done]. Qed.

Lemma above_le rank p p' h : mapTx p' ⊆ mapTx p -> (above rank p' h <= above rank p h)%nat.
Proof.
  intros H. apply map_subseteq_size, map_subseteq_spec. intros k t. rewrite !map_lookup_filter_Some. intros [Hk ?].
  split; [by eapply lookup_weaken|done].
Qed.

Lemma above_lt rank p h k : (rank h < rank k)%nat -> is_Some (mapTx p !! k) -> (above rank p k < above rank p h)%nat.
Proof.
  intros Hlt [t Hk]. apply map_subset_size. split.
  - apply map_subseteq_spec. intros j u. rewrite !map_lookup_filter_Some. cbn. intros [? ?]. split; [done|lia].
  - rewrite map_subseteq_spec. intros H. specialize (H k t). rewrite !map_lookup_filter_Some in H. cbn in H.
    destruct H as [_ H]; [done|lia].
Qed.

Lemma above_size rank p h : is_Some (mapTx p !! h) -> (above rank p h < size (mapTx p))%nat.
Proof.
  intros [t Hh]. apply map_subset_size. split; [apply map_filter_subseteq|].
  rewrite map_subseteq_spec. intros H. specialize (H h t Hh). apply map_lookup_filter_Some in H as [_ H]. cbn in H. lia.
Qed.

Lemma removed_sub p0 D D' p p' : removed p0 D p -> removed p0 D' p' -> D ⊆ D' -> mapTx p' ⊆ mapTx p.
Proof.
  intros (_ & H1 & _) (_ & H2 & _) HDD. apply map_subseteq_spec. intros h t. rewrite H1, H2.
  repeat case_decide; try done. set_solver.
Qed.

Lemma next_sub p p' o : pool_ok p -> pool_ok p' -> mapTx p' ⊆ mapTx p -> mapNextTx p !! o = None -> mapNextTx p' !! o = None.
Proof.
  intros Hok Hok' Hs Hn. apply eq_None_not_Some. intros [[h i] Hip]. apply (ok_next _ Hok') in Hip as (t & x & Ht & Hx & <-).
  assert (mapNextTx p !! prevout x = Some (mkInPoint h i)); [|congruence].
  apply (ok_next _ Hok). exists t, x. repeat split; [|done]. by eapply lookup_weaken.
Qed.

(** When the spender of an output is gone, so is its entry in the index. *)
Lemma slot_cleared p p1 p' o ip : pool_ok p -> pool_ok p' -> mapTx p1 ⊆ mapTx p -> mapTx p' ⊆ mapTx p1 ->
  mapNextTx p !! o = Some ip -> mapTx p1 !! ip_tx ip = None -> mapNextTx p' !! o = None.
Proof.
  intros Hok Hok' Hs Hs' Hip Hgone. apply eq_None_not_Some. intros [ip' Hip'].
  destruct (pool_next_some _ _ _ Hok Hip) as (t & x & Ht & Hx & <-).
  destruct (pool_next_some _ _ _ Hok' Hip') as (t' & x' & Ht' & Hx' & Ex').
  assert (mapTx p1 !! ip_tx ip' = Some t') as Ht1 by (by eapply lookup_weaken).
  assert (ip_tx ip' = ip_tx ip); [|congruence].
  eapply (pool_no_conflict p _ _ t' t (prevout x)); [exact Hok|by eapply lookup_weaken|exact Ht| |].
  - eapply list_elem_of_fmap_2'; [by eapply list_elem_of_lookup_2|done].
  - eapply list_elem_of_fmap_2'; [by eapply list_elem_of_lookup_2|done].
Qed.

Section Remove.
Context (rank : uint256 -> nat) (p0 : CTxMemPool) (Hrank : ranked rank p0).

Lemma removed_child D p h k tp tk x : removed p0 D p -> mapTx p !! h = Some tp -> mapTx p !! k = Some tk ->
  x ∈ vin tk -> out_hash (prevout x) = h -> 0 <= out_n (prevout x) < Z.of_nat (length (vout tp)) -> child p0 h k.
Proof.
  intros (_ & Hl & _) Hh Hk Hx Ho Hn. rewrite Hl in Hh, Hk. case_decide; [done|]. case_decide; [done|]. by exists tp, tk, x.
Qed.

(** What one recursive call does. *)
Definition removes (rec : CTxMemPool -> CTransaction -> option CTxMemPool) (bound : nat) : Prop :=
  forall D p h tx, removed p0 D p -> mapTx p !! h = Some tx -> (above rank p h < bound)%nat ->
  exists p' D', rec p tx = Some p' /\ removed p0 D' p' /\ D ⊆ D' /\ h ∈ D' /\
    (forall k, k ∈ D' -> k ∈ D \/ rtc (child p0) h k).

Lemma remove_children_spec rec bound h tx n : removes rec bound -> forall i D p, removed p0 D p ->
  mapTx p !! h = Some tx -> (above rank p h <= bound)%nat -> (i + n)%nat = length (vout tx) ->
  exists p' D', remove_children rec h i n p = Some p' /\ removed p0 D' p' /\ D ⊆ D' /\ mapTx p' !! h = Some tx /\
    (forall k, k ∈ D' -> k ∈ D \/ exists c, child p0 h c /\ rtc (child p0) c k) /\
    (forall j, (i <= j < i + n)%nat -> mapNextTx p' !! mkOutPoint h (Z.of_nat j) = None).
Proof.
  intros Hrec. induction n as [|n IH]; intros i D p Hp Hh Hb Hlen; cbn [remove_children].
  { exists p, D. conjs; try done; [naive_solver|]. intros j Hj. lia. }
  pose proof Hp as (Hok & Hl & Hcl).
  destruct (mapNextTx p !! mkOutPoint h (Z.of_nat i)) as [ip|] eqn:En.
  - destruct (pool_next_some _ _ _ Hok En) as (tc & x & Hc & Hx & Hxo). rewrite Hc. set (c := ip_tx ip) in *.
    assert (child p0 h c) as Hchild.
    { eapply (removed_child D p); [done|exact Hh|exact Hc|by eapply list_elem_of_lookup_2|by rewrite Hxo|]. rewrite Hxo. cbn. lia. }
    pose proof (child_rank rank p0 h c Hrank Hchild) as Hrk.
    destruct (Hrec D p c tc Hp Hc) as (p1 & D1 & E1 & Hp1 & HS1 & Hc1 & Hback).
    { eapply Nat.lt_le_trans; [apply above_lt; [exact Hrk|eauto]|done]. }
    rewrite E1. pose proof (removed_sub _ _ _ _ _ Hp Hp1 HS1) as Hsub.
    assert (mapTx p1 !! h = Some tx) as Hh1.
    { destruct Hp1 as (_ & Hl1 & _). rewrite Hl in Hh. case_decide as Ed; [done|]. rewrite Hl1, decide_False; [done|].
      intros [?|Hd]%Hback; [done|]. apply (rtc_rank rank) in Hd; [lia|done]. }
    destruct (IH (S i) D1 p1) as (p' & D' & E' & Hp' & HD' & Hh' & Hback' & Hnone); [done|done| |lia|].
    { pose proof (above_le rank _ _ h Hsub). lia. }
    exists p', D'. conjs; try done; [set_solver| |].
    + intros k [Hk|Hk]%Hback'; [|by right]. apply Hback in Hk as [Hk|Hk]; [by left|]. right. by exists c.
    + intros j Hj. destruct (decide (j = i)) as [->|]; [|apply Hnone; lia].
      eapply (slot_cleared p p1 p'); [exact Hok|apply Hp'|exact Hsub|by eapply (removed_sub p0 D1 D')|exact En|].
      destruct Hp1 as (_ & Hl1 & _). by rewrite Hl1, decide_True.
  - destruct (IH (S i) D p) as (p' & D' & E' & Hp' & HD' & Hh' & Hback' & Hnone); [done|done|done|lia|].
    exists p', D'. conjs; try done. intros j Hj. destruct (decide (j = i)) as [->|]; [|apply Hnone; lia].
    eapply next_sub; [exact Hok|apply Hp'|eapply removed_sub; done|done].
Qed.
(** The entry goes once its spenders are gone. *)
Lemma removed_erase D p h tx : removed p0 D p -> mapTx p !! h = Some tx ->
  (forall j, (j < length (vout tx))%nat -> mapNextTx p !! mkOutPoint h (Z.of_nat j) = None) ->
  removed p0 ({[h]} ∪ D) (erase_tx h tx p).
Proof.
  intros Hp Hh Hnone. pose proof Hp as (Hok & Hl & Hcl). split; [by apply erase_tx_ok|]. split.
  - intros k. cbn [erase_tx mapTx]. destruct (decide (k = h)) as [->|Hne].
    + rewrite lookup_delete_eq, decide_True by set_solver. done.
    + rewrite lookup_delete_ne, Hl by done. destruct (decide (k ∈ D)); [rewrite decide_True by set_solver | rewrite decide_False by set_solver]; done.
  - intros a k [->%elem_of_singleton|Ha]%elem_of_union Hc; [|set_solver]. destruct (decide (k ∈ D)) as [|Hk]; [set_solver|]. exfalso.
    destruct Hc as (tp & tk & x & Hp0 & Hk0 & [i Hx]%list_elem_of_lookup & Ho & Hn).
    assert (tp = tx) as -> by (rewrite Hl in Hh; case_decide; congruence).
    assert (mapNextTx p !! prevout x = Some (mkInPoint k i)) as Hi.
    { apply (ok_next _ Hok). exists tk, x. rewrite Hl, decide_False by done. done. }
    specialize (Hnone (Z.to_nat (out_n (prevout x))) ltac:(lia)). rewrite Z2Nat.id in Hnone by lia.
    rewrite <- Ho in Hnone. destruct (prevout x). cbn in *. congruence.
Qed.

Lemma remove_from_spec fuel : removes (remove_from fuel true) fuel.
Proof.
  induction fuel as [|fuel IH]; intros D p h tx Hp Hh Hb; [lia|]. cbn [remove_from].
  pose proof Hp as (Hok & _ & _). destruct (ok_hash _ Hok _ _ Hh) as [-> _]. rewrite Hh.
  destruct (remove_children_spec (remove_from fuel true) fuel h tx (length (vout tx)) IH 0 D p)
    as (p1 & D1 & -> & Hp1 & HS1 & Hh1 & Hback & Hnone); [done|done|lia|lia|].
  exists (erase_tx h tx p1), ({[h]} ∪ D1). split; [done|].
  split; [apply removed_erase; [done|done|intros; apply Hnone; lia]|]. split; [set_solver|]. split; [set_solver|].
  intros k [->%elem_of_singleton|Hk]%elem_of_union; [by right|]. apply Hback in Hk as [?|(c & Hc & Hk)]; [by left|].
  right. by eapply rtc_l.
Qed.
End Remove.

(** Removal with everything that depends on it. *)
Lemma remove_true_spec rank p h tx : pool_ok p -> ranked rank p -> mapTx p !! h = Some tx ->
  exists p', remove true tx p = Some p' /\ pool_ok p' /\
    forall k, (rtc (child p) h k -> mapTx p' !! k = None) /\ (~ rtc (child p) h k -> mapTx p' !! k = mapTx p !! k).
Proof.
  intros Hok Hr Hh.
  assert (removed p ∅ p) as Hp by (split; [done|]; split; [|set_solver]; intros k; by rewrite decide_False by set_solver).
  destruct (remove_from_spec rank p Hr (S (size (mapTx p))) ∅ p h tx Hp Hh) as (p' & D' & E & Hp' & _ & Hin & Hback).
  { pose proof (above_size rank p h ltac:(eauto)). lia. }
  exists p'. split; [done|]. split; [apply Hp'|]. destruct Hp' as (_ & Hl & Hcl). intros k. rewrite Hl. split.
  - intros Hk. apply decide_True. clear -Hk Hin Hcl. induction Hk as [|a b c Hab _ IH]; [done|]. apply IH. by eapply Hcl.
  - intros Hk. rewrite decide_False; [done|]. intros [?%not_elem_of_empty|?]%Hback; done.
Qed.

(** Removal of a transaction of the pool or of one that is not there. *)
Lemma remove_ok rank p fRec tx : pool_ok p -> ranked rank p ->
  (forall t, mapTx p !! CTransaction_GetHash tx = Some t -> t = tx) ->
  exists p', remove fRec tx p = Some p' /\ pool_ok p' /\ mapTx p' ⊆ mapTx p /\ mapTx p' !! CTransaction_GetHash tx = None.
Proof.
  intros Hok Hr Hsame. destruct (mapTx p !! CTransaction_GetHash tx) as [t|] eqn:E.
  - specialize (Hsame t eq_refl) as ->. destruct fRec.
    + destruct (remove_true_spec rank p _ _ Hok Hr E) as (p' & -> & Hok' & Hl). exists p'. conjs; [done|done| |by apply Hl].
      apply map_subseteq_spec. intros k t Hk. destruct (mapTx p !! k) as [t'|] eqn:Ek.
      * destruct (Hl k) as [Hd Hn]. rewrite <- Ek, <- Hn; [done|]. intros Hc. by rewrite (Hd Hc) in Hk.
      * destruct (Hl k) as [Hd Hn]. destruct (decide (mapTx p' !! k = None)) as [E'|]; [congruence|].
        rewrite <- Ek, <- Hn; [done|]. intros Hc%Hd. done.
    + unfold remove. cbn [remove_from]. rewrite E. eexists. split; [done|]. split; [by apply erase_tx_ok|].
      cbn [erase_tx mapTx]. split; [apply delete_subseteq | apply lookup_delete_eq].
  - exists p. unfold remove. cbn [remove_from]. rewrite E. done.
Qed.

Lemma ranked_sub rank p p' : mapTx p' ⊆ mapTx p -> ranked rank p -> ranked rank p'.
Proof. intros Hs Hr h tx x Hh. apply Hr. by eapply lookup_weaken. Qed.

Lemma conflicts_loop_ok rank tx vi : forall p, pool_ok p -> ranked rank p ->
  exists p', conflicts_loop tx vi p = Some p' /\ pool_ok p' /\ mapTx p' ⊆ mapTx p /\
    Forall (fun x => forall ip, mapNextTx p' !! prevout x = Some ip -> mapTx p' !! ip_tx ip = Some tx) vi.
Proof.
  induction vi as [|x vi IH]; intros p Hok Hr; cbn [conflicts_loop]; [by exists p|].
  assert (forall p1, pool_ok p1 -> mapTx p1 ⊆ mapTx p -> ranked rank p1 ->
    (forall ip, mapNextTx p1 !! prevout x = Some ip -> mapTx p1 !! ip_tx ip = Some tx) ->
    exists p', conflicts_loop tx vi p1 = Some p' /\ pool_ok p' /\ mapTx p' ⊆ mapTx p /\
      Forall (fun x => forall ip, mapNextTx p' !! prevout x = Some ip -> mapTx p' !! ip_tx ip = Some tx) (x :: vi)) as Hgo.
  { intros p1 Hok1 Hs1 Hr1 Hx. destruct (IH p1 Hok1 Hr1) as (p' & E & Hok' & Hs' & HF).
    exists p'. conjs; [done|done|by etrans|]. constructor; [|done]. intros ip Hip.
    destruct (pool_next_some _ _ _ Hok' Hip) as (t & y & Ht & Hy & Ey). destruct ip as [h i]. cbn [ip_tx ip_n] in *.
    assert (mapTx p1 !! h = Some t) as Ht1 by (by eapply lookup_weaken).
    assert (mapNextTx p1 !! prevout x = Some (mkInPoint h i)) as H1 by (apply Hok1; by exists t, y).
    apply Hx in H1. cbn in H1. congruence. }
  destruct (mapNextTx p !! prevout x) as [ip|] eqn:En; [|apply Hgo; try done; intros ip; by rewrite En].
  destruct (pool_next_some _ _ _ Hok En) as (t & y & Ht & Hy & Ey). rewrite Ht.
  case_decide as Et; [subst t; apply Hgo; try done; intros ip'; rewrite En; by intros [= <-]|].
  destruct (ok_hash _ Hok _ _ Ht) as [Hh _].
  destruct (remove_ok rank p true t Hok Hr) as (p1 & -> & Hok1 & Hs1 & Hgone); [intros t'; rewrite Hh, Ht; by intros [= ->]|].
  apply Hgo; [done|done|by eapply ranked_sub|]. intros ip' Hip'.
  assert (mapNextTx p1 !! prevout x = None); [|congruence].
  eapply (slot_cleared p p1 p1); [done|done|done|done|exact En|by rewrite <- Hh].
Qed.
End PoolFacts.

(** ** Acceptance *)

Lemma csize_tx_range tx : 0 <= csize CTransaction_codec tx < 2 ^ 32.
Proof. cbn [csize CTransaction_codec iso_codec pair_codec]. apply u32_range. Qed.

(** The relay fee is never below the base fee, so the limiter has nothing to limit. *)
Lemma GetMinFee_relay tx n : 0 <= n <= MAX_BLOCK_SIZE -> MIN_RELAY_TX_FEE <= GetMinFee tx 1000 GMF_RELAY n.
Proof.
  intros Hn. unfold GetMinFee. assert (0 <= Z.quot n 1000 <= 1000) as Hq.
  { rewrite Z.quot_div_nonneg by lia. split; [apply Z.div_pos; lia|]. apply Z.div_le_upper_bound; [lia|]. unfold MAX_BLOCK_SIZE in Hn. lia. }
  set (q := Z.quot n 1000) in *. clearbody q. assert (MAX_MONEY = 9000000000000000) as HM by reflexivity.
  change MAX_BLOCK_SIZE_GEN with 500000. change MIN_RELAY_TX_FEE with 20.
  rewrite (s64_small ((1 + q) * 20)) by lia. rewrite (proj2 (Z.ltb_ge ((1 + q) * 20) 20)) by lia.
  assert (forall v, 20 <= v -> 20 <= if negb (MoneyRange v) then MAX_MONEY else v) as Hm by (intros v; destruct (MoneyRange v); cbn; lia).
  destruct (negb (1000 =? 1) && _)%bool; [|apply Hm; lia].
  destruct (Z.leb_spec 500000 (u32 (1000 + n))) as [|Hlt]; [lia|]. apply Hm.
  pose proof (u32_range (1000 + n)) as Hu.
  assert (1 <= 500000 / (500000 - u32 (1000 + n)) <= 500000).
  { split; [apply Z.div_le_lower_bound; lia | apply Z.div_le_upper_bound; nia]. }
  rewrite s64_small by nia. nia.
Qed.

(** Every input's output is there. *)
Definition inputs_there (inputs : MapPrevTx) (vi : list CTxIn) : Prop :=
  Forall (fun x => 0 <= out_n (prevout x) /\ index_in_range inputs (prevout x) = true) vi.

Lemma range_entry inputs o : index_in_range inputs o = true ->
  exists i t, inputs !! out_hash o = Some (i, t) /\ out_n o < Z.of_nat (length (vout t)) /\ out_n o < Z.of_nat (length (vSpent i)).
Proof. unfold index_in_range. destruct (inputs !! out_hash o) as [[i t]|]; [|done]. intros H. bprop. by exists i, t. Qed.

Lemma GetOutputFor_there inputs x : 0 <= out_n (prevout x) -> index_in_range inputs (prevout x) = true ->
  is_Some (GetOutputFor x inputs).
Proof.
  intros Hn (i & t & Hi & Hv & _)%range_entry. unfold GetOutputFor. rewrite Hi, (proj2 (Z.leb_gt _ _)) by lia.
  apply lookup_lt_is_Some. lia.
Qed.

Lemma value_in_there inputs vi : inputs_there inputs vi -> forall n, is_Some (value_in_loop inputs vi n).
Proof.
  induction 1 as [|x vi [Hn Hr] _ IH]; intros n; cbn [value_in_loop]; [eauto|].
  destruct (GetOutputFor_there _ _ Hn Hr) as [o ->]. apply IH.
Qed.

Lemma bind_guard {B} b n (k : unit -> res B) : k tt <> Throw -> rbind (guard_ b n) k <> Throw.
Proof. by destruct b. Qed.

Lemma connect_checks_there mat pindex inputs t vi : inputs_there inputs vi -> forall n, connect_checks mat pindex inputs t vi n <> Throw.
Proof.
  induction 1 as [|x vi [Hn Hr] _ IH]; intros n; cbn [connect_checks]; [done|].
  destruct (range_entry _ _ Hr) as (i & tp & Hi & Hv & _). rewrite Hi. cbn [of_option rbind].
  do 3 apply bind_guard. destruct (lookup_lt_is_Some_2 (vout tp) (Z.to_nat (out_n (prevout x)))) as [o ->]; [lia|].
  cbn [of_option rbind]. apply bind_guard, IH.
Qed.

(** Marking an output spent keeps every output there. *)
Lemma inputs_there_mark inputs h i t p n vi : inputs !! h = Some (i, t) -> inputs_there inputs vi ->
  inputs_there (<[h := (mark_spent p n i, t)]> inputs) vi.
Proof.
  intros Hi HF. eapply Forall_impl; [exact HF|]. intros x [Hn Hr]. split; [done|]. revert Hr. unfold index_in_range.
  destruct (decide (h = out_hash (prevout x))) as [<-|Hne]; [|by rewrite lookup_insert_ne].
  rewrite lookup_insert_eq, Hi. cbn. by rewrite length_insert.
Qed.

Lemma connect_spends_there {W} (V : CTransaction -> CTransaction -> nat -> W -> bool * W) fB fM fS tx p vi :
  forall i inputs pool w, inputs_there inputs vi -> connect_spends V fB fM fS tx p vi i inputs pool w <> Throw.
Proof.
  induction vi as [|x vi IH]; intros i inputs pool w HF; cbn [connect_spends]; [done|].
  apply Forall_cons in HF as [[Hn Hr] HF]. destruct (range_entry _ _ Hr) as (idx & tp & Hi & _ & Hs). rewrite Hi. cbn [of_option rbind].
  destruct (lookup_lt_is_Some_2 (vSpent idx) (Z.to_nat (out_n (prevout x)))) as [sp ->]; [lia|]. cbn [of_option rbind].
  apply bind_guard. destruct (if fS then _ else _) as [ok w']. apply bind_guard. apply IH. by apply inputs_there_mark.
Qed.

Lemma bind_no_throw {A B} (r : res A) (k : A -> res B) : r <> Throw -> (forall a, k a <> Throw) -> rbind r k <> Throw.
Proof. destruct r; cbn; auto. Qed.

Lemma ConnectInputs_there {W} (V : CTransaction -> CTransaction -> nat -> W -> bool * W) mat inputs pool p pindex fB fM fS tx w :
  inputs_there inputs (vin tx) -> is_Some (GetValueOut tx) -> ConnectInputs V mat inputs pool p pindex fB fM fS tx w <> Throw.
Proof.
  intros HF [v Hv]. unfold ConnectInputs. destruct (IsCoinBase tx); [done|].
  apply bind_no_throw; [by apply connect_checks_there|]. intros nIn.
  apply bind_no_throw; [by apply connect_spends_there|]. intros [q w']. destruct (IsCoinStake tx); [done|].
  rewrite Hv. cbn [of_option rbind]. by repeat apply bind_guard.
Qed.

Lemma FetchInputs_there rd mp t txdb q fB fM tx inputs0 : IsCoinBase tx = false -> inputs_valid tx ->
  f_ok (FetchInputs rd mp t txdb q fB fM tx inputs0) = true ->
  inputs_there (f_inputs (FetchInputs rd mp t txdb q fB fM tx inputs0)) (vin tx).
Proof.
  intros Hcb Hv. unfold FetchInputs. rewrite Hcb. destruct (fetch_loop _ _ _ _ _ _ _ _ _) as [[] inputs]; [|done]. cbn [negb].
  destruct (forallb _ (vin tx)) eqn:E; [|done]. intros _. cbn [f_inputs]. apply Forall_forall. intros x Hx.
  unfold inputs_valid in Hv. rewrite Forall_forall in Hv. split; [by apply Hv|]. apply list_elem_of_In in Hx.
  by apply (proj1 (forallb_forall _ _) E).
Qed.

Section AcceptFacts.
Context `{BN : OpenSSL_BN} `{HD : Digests} `{EC : ECDSA}.
Context (GetRandHash : nat -> uint256) (ReadTxFromDisk : CDiskTxPos -> option CTransaction) (nAdjustedTime : Z).
Context (params : chain_params) (fTestNet fEnforceCanonical : bool).
Context {L : Type} (limiter : CTransaction -> Z -> L -> bool * L).
Context (txdb : txindex_map) (pindexBest : list CBlockIndex).

Local Abbreviation accept' := (accept GetRandHash ReadTxFromDisk nAdjustedTime params fTestNet fEnforceCanonical limiter txdb pindexBest).
Local Abbreviation check_inputs' := (check_inputs GetRandHash ReadTxFromDisk nAdjustedTime params fTestNet limiter txdb pindexBest).

Lemma inputs_standard_there tx inputs vi : inputs_there inputs vi -> forall i c,
  is_Some (inputs_standard_loop GetRandHash tx inputs vi i c).
Proof.
  induction 1 as [|x vi [Hn Hr] _ IH]; intros i c; cbn [inputs_standard_loop]; [eauto|].
  destruct (GetOutputFor_there _ _ Hn Hr) as [o ->]. destruct (input_standard _ _ _ _ _ _) as [[] c']; eauto.
Qed.

(** The checks against the inputs always return, leave the pool alone and never
    ask the limiter. *)
Lemma check_inputs_spec' tx p c l : CheckTransaction tx = Accept -> IsCoinBase tx = false -> inputs_valid tx ->
  exists a, check_inputs' tx p c l = Some a /\ a_pool a = p /\ a_limiter a = l.
Proof.
  intros Hct Hcb Hv. unfold check_inputs. set (f := FetchInputs _ _ _ _ _ _ _ _ _).
  destruct (f_ok f) eqn:Ef; cbn [negb]; [|by eexists].
  assert (inputs_there (f_inputs f) (vin tx)) as Hin by (by apply FetchInputs_there).
  unfold AreInputsStandard, GetValueMapIn. rewrite Hcb.
  destruct (inputs_standard_there tx _ _ Hin 0 c) as [[std c'] ->].
  destruct (negb std && negb fTestNet)%bool; [by eexists|].
  destruct (value_in_there _ _ Hin 0) as [nIn ->]. pose proof (CheckTransaction_value _ Hct) as HO. rewrite HO.
  set (nFees := s64 _). pose proof Hct as (_ & _ & Hsize & _)%CheckTransaction_spec.
  pose proof (GetMinFee_relay tx (csize CTransaction_codec tx)) as Hfee. pose proof (csize_tx_range tx) as Hr.
  destruct (Z.ltb_spec nFees (GetMinFee tx 1000 GMF_RELAY (csize CTransaction_codec tx))) as [|Hge]; [by eexists|].
  rewrite (proj2 (Z.ltb_ge nFees MIN_RELAY_TX_FEE)) by lia. cbn [negb].
  destruct (ConnectInputs _ _ _ _ _ _ _ _ _ _ _) as [[q w]|n|] eqn:E; [by eexists|by eexists|].
  exfalso. revert E. apply ConnectInputs_there; [done|]. by rewrite HO.
Qed.

(** What [accept] does: it returns, the limiter is not asked, and either the pool
    is as before or the transaction is new, conflict-free and added. *)
Lemma accept_spec tx fCheck p c l : inputs_valid tx ->
  exists a, accept' tx fCheck p c l = Some a /\ a_limiter a = l /\
  if a_ok a then
    a_fMissingInputs a = false /\ a_pool a = addUnchecked (CTransaction_GetHash tx) tx p /\
    well_formed tx /\ mapTx p !! CTransaction_GetHash tx = None /\
    Forall (fun x => mapNextTx p !! prevout x = None) (vin tx)
  else a_pool a = p.
Proof.
  intros Hv. unfold accept. destruct (CheckTransaction tx) eqn:Hct; [|by eexists].
  destruct (IsCoinBase tx) eqn:Hcb; [by eexists|]. destruct (IsCoinStake tx); [by eexists|].
  destruct (_ <? nLockTime tx); [by eexists|]. destruct (negb fTestNet && _)%bool; [by eexists|].
  unfold pool_exists. case_bool_decide as Ep; [by eexists|]. destruct (fCheck && _)%bool; [by eexists|].
  destruct (existsb _ (vin tx)) eqn:Ex; [by eexists|].
  assert (exists a, (if fCheck then check_inputs' tx p c l else Some (mkAccepted true false 0 p c l)) = Some a /\
    a_pool a = p /\ a_limiter a = l) as (a & -> & Hp & Hl) by (destruct fCheck; [by apply check_inputs_spec'|by eexists]).
  destruct (a_ok a) eqn:Ea; [|exists a; by rewrite Ea].
  eexists. split; [done|]. cbn. rewrite Hp. conjs; try done; [by apply CheckTransaction_spec|by apply eq_None_not_Some|].
  apply Forall_forall. intros x Hx. apply list_elem_of_In in Hx. apply eq_None_not_Some. intros Hs.
  apply not_true_iff_false in Ex. apply Ex. apply existsb_exists. exists x. split; [done|]. by apply bool_decide_eq_true.
Qed.

Lemma accept_ok tx fCheck p c l a : inputs_valid tx -> pool_ok p -> accept' tx fCheck p c l = Some a -> pool_ok (a_pool a).
Proof.
  intros Hv Hok E. destruct (accept_spec tx fCheck p c l Hv) as (a' & E' & _ & H). rewrite E in E'. injection E' as <-.
  destruct (a_ok a); [|by rewrite H]. destruct H as (_ & -> & Hwf & Hnew & Hfree).
  apply addUnchecked_ok; try done. by destruct Hwf as (_ & _ & _ & _ & _ & _ & ? & _).
Qed.

End AcceptFacts.

(** ** Steps of the pool *)

Section PoolSteps.
Context `{BN : OpenSSL_BN} `{HD : Digests} `{EC : ECDSA} (params : chain_params) (fTestNet : bool).

(** What the node sees when it accepts a transaction: the clock, the files and
    the index, the best chain, the random source and the limiter, all of which move
    between one operation on the pool and the next. *)
Record pool_view := mkView {
  v_time : Z; v_disk : CDiskTxPos -> option CTransaction; v_txdb : txindex_map; v_best : list CBlockIndex;
  v_rand : nat -> uint256; v_canonical : bool; v_limiter : CTransaction -> Z -> Z -> bool * Z;
}.

Definition accept_in (v : pool_view) : CTransaction -> bool -> CTxMemPool -> CSignatureCache -> Z -> option (accepted (L := Z)) :=
  accept (v_rand v) (v_disk v) (v_time v) params fTestNet (v_canonical v) (v_limiter v) (v_txdb v) (v_best v).

(** No transaction of the world spends an output of itself or of one that depends
    on it: some rank grows along spending. *)
Definition tx_ranked (rank : uint256 -> nat) (tx : CTransaction) : Prop :=
  forall x, x ∈ vin tx -> (rank (out_hash (prevout x)) < rank (CTransaction_GetHash tx))%nat.

(** The pool holds no other transaction under the id of [tx]. *)
Definition same_under_id (tx : CTransaction) (p : CTxMemPool) : Prop :=
  forall t, mapTx p !! CTransaction_GetHash tx = Some t -> t = tx.

(** The operations the program performs on the pool, each in its own view. *)
Inductive pool_step (rank : uint256 -> nat) : CTxMemPool -> CTxMemPool -> Prop :=
| step_accept v tx fCheck p c l a : inputs_valid tx -> tx_ranked rank tx ->
    accept_in v tx fCheck p c l = Some a -> pool_step rank p (a_pool a)
| step_remove fRec tx p p' : same_under_id tx p -> remove fRec tx p = Some p' -> pool_step rank p p'
| step_conflicts tx p p' : removeConflicts tx p = Some p' -> pool_step rank p p'
| step_clear p : pool_step rank p (clear p).

(** Acceptance, in any view and with any limiter, keeps the pool's invariant. *)
Lemma accept_ranked rank gr rd t fE {L} (lim : CTransaction -> Z -> L -> bool * L) txdb best tx fCheck p c l a :
  inputs_valid tx -> tx_ranked rank tx ->
  accept gr rd t params fTestNet fE lim txdb best tx fCheck p c l = Some a ->
  pool_ok p /\ ranked rank p -> pool_ok (a_pool a) /\ ranked rank (a_pool a).
Proof.
  intros Hv Hrk E [Hok Hr]. split; [by eapply accept_ok|].
  destruct (accept_spec gr rd t params fTestNet fE lim txdb best tx fCheck p c l Hv) as (a' & E' & _ & H).
  rewrite E in E'. injection E' as <-.
  destruct (a_ok a); [|by rewrite H]. destruct H as (_ & -> & _). intros h u x. cbn [addUnchecked mapTx].
  rewrite lookup_insert_Some. intros [[<- <-]|[_ Hu]] Hx; [by apply Hrk|by eapply Hr].
Qed.

Lemma pool_step_ok rank p p' : pool_step rank p p' -> pool_ok p /\ ranked rank p -> pool_ok p' /\ ranked rank p'.
Proof.
  intros Hstep [Hok Hr]. destruct Hstep as [v tx fCheck p c l a Hv Hrk E | fRec tx p p' Hsame E | tx p p' E | p].
  - by eapply accept_ranked.
  - destruct (remove_ok rank p fRec tx Hok Hr Hsame) as (q & E' & Hok' & Hs & _). rewrite E in E'. injection E' as <-.
    split; [done|]. by eapply ranked_sub.
  - destruct (conflicts_loop_ok rank tx (vin tx) p Hok Hr) as (q & E' & Hok' & Hs & _). unfold removeConflicts in E.
    rewrite E in E'. injection E' as <-. split; [done|]. by eapply ranked_sub.
  - split; [apply empty_pool_ok|]. intros h t x. cbn. by rewrite lookup_empty.
Qed.
End PoolSteps.

(** ** The pool keeps its promises *)

Lemma pool_acceptance_ok `{BN : OpenSSL_BN} `{HD : Digests} `{EC : ECDSA} GetRandHash rd t params fT fE
    {L : Type} (limiter : CTransaction -> Z -> L -> bool * L) txdb pindexBest :
  Acceptance_ok (pool_acceptance GetRandHash rd t params fT fE limiter txdb pindexBest).
Proof.
  split.
  - intros tx [[p c] l] Hv. cbn.
    destruct (accept_spec GetRandHash rd t params fT fE limiter txdb pindexBest tx true p c l Hv) as (a & -> & _). eauto.
  - intros tx [[p c] l] ms n p' Hv. cbn.
    destruct (accept_spec GetRandHash rd t params fT fE limiter txdb pindexBest tx true p c l Hv) as (a & -> & _ & H).
    intros [= Ea <- <- <-]. rewrite Ea in H. destruct H as (_ & -> & _ & Hnew & _). unfold pool_exists. cbn.
    by rewrite Hnew, lookup_insert_eq.
  - intros tx [[p c] l] ok ms n p' h Hv. cbn.
    destruct (accept_spec GetRandHash rd t params fT fE limiter txdb pindexBest tx true p c l Hv) as (a & -> & _ & H).
    intros [= <- <- <- <-]. unfold pool_exists. destruct (a_ok a); [|by rewrite H]. destruct H as (_ & -> & _). cbn.
    rewrite !bool_decide_eq_true, lookup_insert_is_Some. destruct (decide (CTransaction_GetHash tx = h)); [by left|by right].
Qed.

(** ** Arrival *)

Section ArrivalFacts.
Context `{HD : Digests} {P : Type} {A : Acceptance P} {Aok : Acceptance_ok A}.

Definition orphans_valid (o : orphanage) : Prop := map_Forall (fun _ tx => inputs_valid tx) (mapOrphanTransactions o).

(** The orphans that are not in the pool, and with them what the queue can still grow by. *)
Definition waiting (s : arrival) : nat :=
  size (filter (fun kv => has_tx (ar_pool s) (fst kv) = false) (mapOrphanTransactions (ar_orphans s))).

(** While the queue is worked off: what was relayed is in the pool, once each, and
    due to be erased; the wallets were called once for each. *)
Record arriving (tx : CTransaction) (o : orphanage) (s : arrival) : Prop := {
  av_orphans : mapOrphanTransactions (ar_orphans s) = mapOrphanTransactions o;
  av_ok : orphans_ok (ar_orphans s);
  av_nodup : NoDup (ar_relayed s);
  av_pool : Forall (fun h => has_tx (ar_pool s) h = true) (ar_relayed s);
  av_erase : ar_relayed s ⊆ ar_erase s;
  av_synced : ar_synced s = replicate (length (ar_relayed s)) tx;
}.

Lemma filter_has_sub (p p' : P) (m : gmap uint256 CTransaction) : (forall h, has_tx p h = true -> has_tx p' h = true) ->
  filter (fun kv => has_tx p' (fst kv) = false) m ⊆ filter (fun kv => has_tx p (fst kv) = false) m.
Proof.
  intros Hk. apply map_subseteq_spec. intros h t. rewrite !map_lookup_filter_Some. cbn. intros [? Hf]. split; [done|].
  specialize (Hk h). destruct (has_tx p h); [|done]. rewrite Hk in Hf by done. done.
Qed.

Lemma waiting_accept (p p' : P) (m : gmap uint256 CTransaction) h : (forall h, has_tx p h = true -> has_tx p' h = true) ->
  is_Some (m !! h) -> has_tx p h = false -> has_tx p' h = true ->
  (S (size (filter (fun kv => has_tx p' (fst kv) = false) m)) <= size (filter (fun kv => has_tx p (fst kv) = false) m))%nat.
Proof.
  intros Hk [t Ht] H1 H2. apply map_subset_size. split; [by apply filter_has_sub|].
  rewrite map_subseteq_spec. intros Hs. specialize (Hs h t). rewrite !map_lookup_filter_Some in Hs. cbn in Hs.
  destruct Hs as [_ Hs]; [done|congruence].
Qed.

Lemma try_orphans_spec tx o hs : orphans_valid o -> Forall (fun h => is_Some (mapOrphanTransactions o !! h)) hs ->
  forall s, arriving tx o s -> exists s', try_orphans tx hs s = Some s' /\ arriving tx o s' /\
    (length (ar_queue s') + waiting s' <= length (ar_queue s) + waiting s)%nat /\
    (forall h, has_tx (ar_pool s) h = true -> has_tx (ar_pool s') h = true).
Proof.
  intros Hov. induction 1 as [|h hs [otx Ho] _ IH]; intros s Hs; cbn [try_orphans]; [by exists s|].
  rewrite (av_orphans _ _ _ Hs), Ho. pose proof (Hov _ _ Ho) as Hiv. cbn beta in Hiv.
  assert (CTransaction_GetHash otx = h) as Hh by (apply (av_ok _ _ _ Hs); by rewrite (av_orphans _ _ _ Hs)).
  destruct (accept_returns otx (ar_pool s) Hiv) as [[[[ok ms] n] p'] Ea]. rewrite Ea.
  pose proof (fun k => accept_keeps otx (ar_pool s) ok ms n p' k Hiv Ea) as Hkeep.
  match goal with |- context [try_orphans tx hs ?x] => set (s1 := x) end.
  assert (arriving tx o s1 /\ (length (ar_queue s1) + waiting s1 <= length (ar_queue s) + waiting s)%nat /\ ar_pool s1 = p')
    as (Hs1 & Hm1 & Hp1).
  { destruct Hs as [H1 H2 H3 H4 H5 H6]. subst s1. destruct ok.
    - destruct (accept_enters otx (ar_pool s) ms n p' Hiv Ea) as [Hb Ha]. rewrite Hh in Hb, Ha. split; [|split; [|done]].
      + split; cbn; try done.
        * apply NoDup_app. repeat split; [done| |apply NoDup_singleton]. intros k Hk ->%list_elem_of_singleton.
          rewrite Forall_forall in H4. rewrite H4 in Hb; done.
        * apply Forall_app. split; [|by apply Forall_singleton]. eapply Forall_impl; [exact H4|]. auto.
        * intros k [Hk| ->%list_elem_of_singleton]%elem_of_app; apply elem_of_app; [left; auto|right; by constructor].
        * rewrite length_app, H6. by rewrite replicate_add.
      + unfold waiting. cbn. rewrite length_app. cbn.
        pose proof (waiting_accept (ar_pool s) p' (mapOrphanTransactions (ar_orphans s)) h Hkeep ltac:(rewrite H1; eauto) Hb Ha). lia.
    - split; [|split; [|done]].
      + split; cbn; try done; [eapply Forall_impl; [exact H4|]; auto|]. destruct ms; [done|]. set_solver.
      + unfold waiting. cbn. apply Nat.add_le_mono_l, map_subseteq_size. by apply filter_has_sub. }
  destruct (IH s1 Hs1) as (s' & E' & Hs' & Hm' & Hk'). exists s'. conjs; [done|done|lia|].
  intros k Hk. apply Hk'. rewrite Hp1. auto.
Qed.

Lemma elem_insert_hash h k l : k ∈ insert_hash h l <-> k = h \/ k ∈ l.
Proof. induction l as [|j l IH]; cbn [insert_hash]; [set_solver|]. destruct (op_lt j h); set_solver. Qed.

Lemma elem_in_order (k : uint256) (X : gset uint256) : k ∈ in_order X <-> k ∈ X.
Proof.
  rewrite <- elem_of_elements. unfold in_order. induction (elements X) as [|h l IH]; cbn [fold_right]; [set_solver|].
  rewrite elem_insert_hash, IH. set_solver.
Qed.

Lemma work_loop_spec tx o : orphans_valid o -> forall fuel s, arriving tx o s ->
  (length (ar_queue s) + waiting s <= fuel)%nat ->
  exists s', work_loop fuel tx s = Some s' /\ arriving tx o s' /\ (forall h, has_tx (ar_pool s) h = true -> has_tx (ar_pool s') h = true).
Proof.
  intros Hov. induction fuel as [|fuel IH]; intros s Hs Hf; cbn [work_loop].
  { destruct (ar_queue s); [by exists s|]. cbn in Hf. lia. }
  destruct (ar_queue s) as [|h q] eqn:Eq; [by exists s|]. cbn [length] in Hf.
  set (s0 := mkArrival _ _ _ _ _ _).
  assert (arriving tx o s0) as Hs0.
  { destruct Hs as [H1 H2 H3 H4 H5 H6]. split; try done. by apply touch_prev_ok. }
  destruct (try_orphans_spec tx o (in_order (at_prev (mapOrphanTransactionsByPrev (touch_prev h (ar_orphans s))) h)) Hov) with (s := s0)
    as (s1 & -> & Hs1 & Hm1 & Hk1); [|done|].
  { apply Forall_forall. intros k Hk%elem_in_order. destruct (av_ok _ _ _ Hs0) as [_ Hi].
    apply Hi in Hk as (t & Ht & _). rewrite <- (av_orphans _ _ _ Hs0). eauto. }
  destruct (IH s1 Hs1) as (s' & E' & Hs' & Hk').
  { change (length (ar_queue s0)) with (length q) in Hm1. change (waiting s0) with (waiting s) in Hm1. lia. }
  exists s'. conjs; [done|done|]. intros k Hk. apply Hk', Hk1. done.
Qed.

Lemma erase_all_spec l : forall o, orphans_ok o ->
  let o' := fold_left (fun o h => EraseOrphanTx h o) l o in
  orphans_ok o' /\ (forall h, mapOrphanTransactions o' !! h = if decide (h ∈ l) then None else mapOrphanTransactions o !! h).
Proof.
  induction l as [|k l IH]; intros o Ho; cbn [fold_left].
  { split; [done|]. intros h. rewrite decide_False; [done|]. apply not_elem_of_nil. }
  destruct (IH (EraseOrphanTx k o) (EraseOrphanTx_ok _ _ Ho)) as [H1 H2]. split; [done|]. intros h. rewrite H2, EraseOrphanTx_lookup.
  destruct (decide (h ∈ l)); [rewrite decide_True; [done|by right]|]. destruct (decide (h = k)) as [->|]; [rewrite decide_True; [done|by left]|].
  rewrite decide_False; [done|]. by apply not_elem_of_cons.
Qed.

Lemma AddOrphanTx_size tx o : (size (mapOrphanTransactions (snd (AddOrphanTx tx o))) <= S (size (mapOrphanTransactions o)))%nat.
Proof.
  unfold AddOrphanTx. case_bool_decide as E; cbn [snd]; [lia|]. destruct (_ <? _); cbn [snd mapOrphanTransactions]; [lia|].
  rewrite map_size_insert_None by (by apply eq_None_not_Some). lia.
Qed.

Lemma AddOrphanTx_only tx o h u : mapOrphanTransactions (snd (AddOrphanTx tx o)) !! h = Some u ->
  mapOrphanTransactions o !! h = Some u \/ (h = CTransaction_GetHash tx /\ u = tx).
Proof.
  unfold AddOrphanTx. case_bool_decide; cbn [snd]; [by left|]. destruct (_ <? _); cbn [snd mapOrphanTransactions]; [by left|].
  rewrite lookup_insert_Some. intros [[<- <-]|[_ ?]]; auto.
Qed.

(** An orphan is stored and the number of orphans limited. *)
Lemma store_orphan_spec draws tx o : orphans_ok o -> Z.of_nat (size (mapOrphanTransactions o)) <= MAX_ORPHAN_TRANSACTIONS ->
  let o' := snd (LimitOrphanTxSize draws MAX_ORPHAN_TRANSACTIONS (snd (AddOrphanTx tx o))) in
  orphans_ok o' /\
  (forall h u, mapOrphanTransactions o' !! h = Some u ->
     mapOrphanTransactions o !! h = Some u \/ (h = CTransaction_GetHash tx /\ u = tx)) /\
  Z.of_nat (size (mapOrphanTransactions o')) <= MAX_ORPHAN_TRANSACTIONS.
Proof.
  intros Hok Hsz. pose proof (AddOrphanTx_ok tx o Hok) as Ha. pose proof (AddOrphanTx_size tx o) as Hsa.
  assert (MAX_ORPHAN_TRANSACTIONS = 10000) as HM by reflexivity. unfold LimitOrphanTxSize.
  pose proof (limit_loop_spec (S (size (mapOrphanTransactions (snd (AddOrphanTx tx o))))) draws MAX_ORPHAN_TRANSACTIONS 0
    (snd (AddOrphanTx tx o)) ltac:(lia) ltac:(lia) Ha ltac:(lia) ltac:(lia)) as Hlim.
  destruct (limit_loop _ _ _ _ _) as [n' o']. destruct Hlim as (L1 & L2 & L3 & _). cbn [snd]. conjs; [done| |lia].
  intros h u Hu. eapply lookup_weaken in Hu; [|exact L2]. by apply AddOrphanTx_only.
Qed.
End ArrivalFacts.

(** ** Properties *)

(** C8: the memory pool's invariant.  After any sequence of acceptances, removals
    (alone or with all that depends on them), removals of conflicts and clearing,
    each acceptance at its own time and against its own chain, files and index, the
    index of spent outputs is exactly that of the pool's transactions and no two of
    them spend the same output.  From there every operation returns, without
    following a dangling pointer: acceptance of any transaction off the wire in any
    view, removal of any transaction under whose id the pool holds no other, and
    removal of conflicts, after which what still spends the transaction's inputs is
    the transaction itself.  The transactions accepted are assumed not to spend in a
    circle: their ids can be ranked. *)
Theorem mempool_invariant `{BN : OpenSSL_BN} `{HD : Digests} `{EC : ECDSA} (params : chain_params) (fT : bool)
    (rank : uint256 -> nat) (n : Z) (p : CTxMemPool) :
  rtc (pool_step params fT rank) (mkPool ∅ ∅ n) p ->
  pool_ok p /\
  (forall h1 h2 t1 t2 o, mapTx p !! h1 = Some t1 -> mapTx p !! h2 = Some t2 ->
     o ∈ map prevout (vin t1) -> o ∈ map prevout (vin t2) -> h1 = h2) /\
  (forall v tx fCheck c l, inputs_valid tx -> is_Some (accept_in params fT v tx fCheck p c l)) /\
  (forall fRec tx, same_under_id tx p -> is_Some (remove fRec tx p)) /\
  (forall tx, exists p', removeConflicts tx p = Some p' /\
     Forall (fun x => forall ip, mapNextTx p' !! prevout x = Some ip -> mapTx p' !! ip_tx ip = Some tx) (vin tx)).
Proof.
  intros Hs.
  assert (pool_ok p /\ ranked rank p) as [Hok Hr].
  { assert (pool_ok (mkPool ∅ ∅ n) /\ ranked rank (mkPool ∅ ∅ n)) as H0.
    { split; [apply empty_pool_ok|]. intros h tx x. cbn. by rewrite lookup_empty. }
    revert H0. induction Hs as [|a b c Hab _ IH]; [done|]. intros Ha. apply IH. by eapply pool_step_ok. }
  conjs; [done|intros *; by apply pool_no_conflict| | |].
  - intros v tx fCheck c l Hv. edestruct accept_spec as (a & E & _); [exact Hv|]. by exists a.
  - intros fRec tx Hsame. destruct (remove_ok rank p fRec tx Hok Hr Hsame) as (p' & E & _). by exists p'.
  - intros tx. destruct (conflicts_loop_ok rank tx (vin tx) p Hok Hr) as (p' & E & _ & _ & HF). by exists p'.
Qed.

(** C29: removal with dependents.  In a pool without cycles of spending, [remove] with
    [fRecursive] ends and takes out exactly the transaction and everything that
    spends, directly or not, one of its outputs. *)
Theorem remove_recursive_exact `{HD : Digests} (rank : uint256 -> nat) (p : CTxMemPool) (h : uint256) (tx : CTransaction) :
  pool_ok p -> ranked rank p -> mapTx p !! h = Some tx ->
  exists p', remove true tx p = Some p' /\ pool_ok p' /\
    forall k, (rtc (child p) h k -> mapTx p' !! k = None) /\ (~ rtc (child p) h k -> mapTx p' !! k = mapTx p !! k).
Proof. apply remove_true_spec. Qed.

(** C10: [accept] never throws: for every transaction off the wire it returns, the
    rate limiter of free transactions is never reached (its count stays), and
    either the pool is unchanged or the transaction is well formed, new and free of
    conflicts, and is exactly what was added. *)
Theorem accept_returns_exact `{BN : OpenSSL_BN} `{HD : Digests} `{EC : ECDSA} (GetRandHash : nat -> uint256)
    (rd : CDiskTxPos -> option CTransaction) (t : Z) (params : chain_params) (fT fE : bool)
    {L : Type} (limiter : CTransaction -> Z -> L -> bool * L) (txdb : txindex_map) (pindexBest : list CBlockIndex)
    (tx : CTransaction) (fCheck : bool) (p : CTxMemPool) (c : CSignatureCache) (l : L) :
  inputs_valid tx ->
  exists a, accept GetRandHash rd t params fT fE limiter txdb pindexBest tx fCheck p c l = Some a /\ a_limiter a = l /\
  if a_ok a then
    a_fMissingInputs a = false /\ a_pool a = addUnchecked (CTransaction_GetHash tx) tx p /\
    well_formed tx /\ mapTx p !! CTransaction_GetHash tx = None /\
    Forall (fun x => mapNextTx p !! prevout x = None) (vin tx)
  else a_pool a = p.
Proof. apply accept_spec. Qed.

(** C9: the arrival of a transaction.  Whatever pool keeps the interface's
    promises, the handler ends after at most one turn of its queue per orphan and
    one more; everything it relays is in the pool, once each, and no longer an
    orphan; the orphan index stays exact, no orphan is added but the arrived
    transaction, and their number stays within MAX_ORPHAN_TRANSACTIONS. *)
Theorem arrival_terminates `{HD : Digests} {P : Type} {A : Acceptance P} {Aok : Acceptance_ok A}
    (draws : nat -> uint256) (tx : CTransaction) (p : P) (o : orphanage) :
  inputs_valid tx -> orphans_ok o -> orphans_valid o ->
  Z.of_nat (size (mapOrphanTransactions o)) <= MAX_ORPHAN_TRANSACTIONS ->
  exists s n, ProcessMessage_tx draws tx p o = Some (s, n) /\
    NoDup (ar_relayed s) /\ Forall (fun h => has_tx (ar_pool s) h = true) (ar_relayed s) /\
    Forall (fun h => mapOrphanTransactions (ar_orphans s) !! h = None) (ar_relayed s) /\
    orphans_ok (ar_orphans s) /\
    (forall h u, mapOrphanTransactions (ar_orphans s) !! h = Some u ->
       mapOrphanTransactions o !! h = Some u \/ (h = CTransaction_GetHash tx /\ u = tx)) /\
    Z.of_nat (size (mapOrphanTransactions (ar_orphans s))) <= MAX_ORPHAN_TRANSACTIONS.
Proof.
  intros Hv Hok Hov Hsz. unfold ProcessMessage_tx. destruct (accept_returns tx p Hv) as [[[[ok ms] n] p'] Ea]. rewrite Ea.
  destruct ok.
  - destruct (accept_enters tx p ms n p' Hv Ea) as [_ Hin].
    set (s0 := mkArrival p' o [CTransaction_GetHash tx] [CTransaction_GetHash tx] [tx] [CTransaction_GetHash tx]).
    destruct (work_loop_spec tx o Hov (S (size (mapOrphanTransactions o))) s0) as (s & -> & Hs & _).
    + split; cbn; try done; [apply NoDup_singleton|by constructor].
    + unfold waiting. cbn. apply le_n_S, map_subseteq_size, map_filter_subseteq.
    + destruct (erase_all_spec (ar_erase s) _ (av_ok _ _ _ Hs)) as [Ho' Hl']. eexists _, _. split; [done|].
      cbn [ar_relayed ar_pool ar_orphans]. set (o' := fold_left _ _ _) in *.
      assert (mapOrphanTransactions o' ⊆ mapOrphanTransactions o) as Hsub.
      { apply map_subseteq_spec. intros h u. rewrite Hl', (av_orphans _ _ _ Hs). by case_decide. }
      conjs; [apply Hs|apply Hs| |done| |].
      * apply Forall_forall. intros h Hh. rewrite Hl', decide_True; [done|]. by apply (av_erase _ _ _ Hs).
      * intros h u Hu. left. by eapply lookup_weaken.
      * apply map_subseteq_size in Hsub. lia.
  - eexists _, _. split; [done|]. cbn [ar_relayed ar_pool ar_orphans]. conjs; [constructor|constructor|constructor| | |].
    all: destruct (store_orphan_spec draws tx o Hok Hsz) as (L1 & L2 & L3); destruct ms; done || auto.
Qed.

(** ** Concrete pools *)

(** The pool of the block's second transaction and its spender, on a test network. *)
Abbreviation ex_hash := (@CTransaction_GetHash easy_digests).
Abbreviation ex_accept := (@accept reference_BN easy_digests one_sig_ECDSA (fun _ => uint_zero 8) ex_disk 2100
  (@main_net reference_BN) true false unit (fun _ _ l => (true, l)) ex_txdb []).
Definition ex_cache : CSignatureCache := mkCache [] 10 0.
Definition ex_rank (h : uint256) : nat := if decide (h = ex_hash ex_tx2) then 2 else if decide (h = ex_hash ex_tx1) then 1 else 0.
Definition ex_pool1 : CTxMemPool := addUnchecked (ex_hash ex_tx1) ex_tx1 (mkPool ∅ ∅ 0).
Definition ex_pool2 : CTxMemPool := addUnchecked (ex_hash ex_tx2) ex_tx2 ex_pool1.

Lemma ex_valid1 : inputs_valid ex_tx1.
Proof. repeat constructor; vm_compute; discriminate. Qed.
Lemma ex_valid2 : inputs_valid ex_tx2.
Proof. repeat constructor; vm_compute; discriminate. Qed.

Lemma ex_ranked tx : tx = ex_tx1 \/ tx = ex_tx2 -> @tx_ranked easy_digests ex_rank tx.
Proof. intros [-> | ->] x [->|[]%elem_of_nil]%elem_of_cons; vm_compute; lia. Qed.

(** The first transaction is accepted; then the clock ticks and the second is. *)
Definition ex_view (t : Z) : pool_view := mkView t ex_disk ex_txdb [] (fun _ => uint_zero 8) false (fun _ _ l => (true, l)).
Abbreviation ex_accept_in := (@accept_in reference_BN easy_digests one_sig_ECDSA (@main_net reference_BN) true).
Abbreviation ex_step := (@pool_step reference_BN easy_digests one_sig_ECDSA (@main_net reference_BN) true ex_rank).

Lemma ex_step_accept t tx p : inputs_valid tx -> @tx_ranked easy_digests ex_rank tx ->
  (a_ok <$> ex_accept_in (ex_view t) tx false p ex_cache 0) = Some true -> ex_step p (addUnchecked (ex_hash tx) tx p).
Proof.
  intros Hv Hrk Ha. destruct (ex_accept_in (ex_view t) tx false p ex_cache 0) as [a|] eqn:E; [|done].
  injection Ha as Ea. replace (addUnchecked (ex_hash tx) tx p) with (a_pool a).
  - by eapply step_accept.
  - edestruct (@accept_spec reference_BN easy_digests one_sig_ECDSA) as (a' & E' & _ & H); [exact Hv|].
    unfold accept_in in E. rewrite E in E'. injection E' as <-. rewrite Ea in H. by destruct H as (_ & -> & _).
Qed.

Lemma ex_pool_steps : rtc ex_step (mkPool ∅ ∅ 0) ex_pool2.
Proof.
  eapply rtc_l; [|apply rtc_once].
  - apply (ex_step_accept 2100); [exact ex_valid1|apply ex_ranked; by left|by vm_compute].
  - apply (ex_step_accept 2101); [exact ex_valid2|apply ex_ranked; by right|by vm_compute].
Qed.

Lemma ex_pool2_ok : @pool_ok easy_digests ex_pool2.
Proof.
  apply addUnchecked_ok; [apply addUnchecked_ok; [apply empty_pool_ok|done| |]|by vm_compute| |].
  all: try (apply (bool_decide_unpack _); vm_compute; exact I).
Qed.

Lemma ex_pool2_ranked : ranked ex_rank ex_pool2.
Proof.
  intros h tx x. cbn [ex_pool2 ex_pool1 addUnchecked mapTx]. rewrite !lookup_insert_Some, lookup_empty.
  intros [[<- <-]|[_ [[<- <-]|[_ ?]]]]; [apply ex_ranked; by right|apply ex_ranked; by left|done].
Qed.

Lemma mempool_invariant_witness : @pool_ok easy_digests ex_pool2 /\ is_Some (@remove easy_digests true ex_tx1 ex_pool2).
Proof.
  destruct (@mempool_invariant reference_BN easy_digests one_sig_ECDSA (@main_net reference_BN) true ex_rank 0 ex_pool2 ex_pool_steps)
    as (Hok & _ & _ & Hrem & _).
  split; [exact Hok|]. apply Hrem. intros t Ht. vm_compute in Ht. by injection Ht as <-.
Defined.

Lemma remove_recursive_exact_witness :
  exists p', @remove easy_digests true ex_tx1 ex_pool2 = Some p' /\ mapTx p' !! ex_hash ex_tx2 = None.
Proof.
  destruct (@remove_recursive_exact easy_digests ex_rank ex_pool2 (ex_hash ex_tx1) ex_tx1 ex_pool2_ok ex_pool2_ranked)
    as (p' & E & _ & Hl); [by vm_compute|].
  exists p'. split; [exact E|]. apply (proj1 (Hl _)). apply rtc_once.
  exists ex_tx1, ex_tx2, (mkTxIn (mkOutPoint (ex_hash ex_tx1) 0) [] 0).
  conjs; [by vm_compute | by vm_compute | by constructor | done | done | done].
Defined.

Lemma accept_returns_exact_witness : exists a, ex_accept ex_tx1 true (mkPool ∅ ∅ 0) ex_cache tt = Some a /\ a_limiter a = tt.
Proof.
  destruct (@accept_returns_exact reference_BN easy_digests one_sig_ECDSA (fun _ => uint_zero 8) ex_disk 2100 (@main_net reference_BN)
    true false unit (fun _ _ l => (true, l)) ex_txdb [] ex_tx1 true (mkPool ∅ ∅ 0) ex_cache tt) as (a & E & Hl & _);
    [exact ex_valid1|]. exists a. split; [exact E | exact Hl].
Defined.

(** The spender of the first transaction waits as an orphan when that arrives. *)
Definition ex_orphans : orphanage := snd (@AddOrphanTx easy_digests ex_tx2 (mkOrphanage ∅ ∅)).
Definition ex_acceptance : Acceptance (CTxMemPool * CSignatureCache * unit) :=
  @pool_acceptance reference_BN easy_digests one_sig_ECDSA (fun _ => uint_zero 8) ex_disk 2100 (@main_net reference_BN)
    true false unit (fun _ _ l => (true, l)) ex_txdb [].

Lemma ex_orphans_ok : @orphans_ok easy_digests ex_orphans.
Proof. unfold ex_orphans. apply (@AddOrphanTx_ok easy_digests), empty_orphans_ok. Qed.

Lemma ex_orphans_valid : orphans_valid ex_orphans.
Proof.
  unfold ex_orphans. intros h tx H. apply (@AddOrphanTx_only easy_digests) in H as [H|[_ ->]]; [done|exact ex_valid2].
Qed.

Lemma arrival_terminates_witness :
  exists s n, @ProcessMessage_tx easy_digests _ ex_acceptance (fun _ => uint_zero 8) ex_tx1 (mkPool ∅ ∅ 0, ex_cache, tt) ex_orphans = Some (s, n) /\
    NoDup (ar_relayed s).
Proof.
  destruct (@arrival_terminates easy_digests _ ex_acceptance (pool_acceptance_ok _ _ _ _ _ _ _ _ _)
    (fun _ => uint_zero 8) ex_tx1 (mkPool ∅ ∅ 0, ex_cache, tt) ex_orphans) as (s & n & E & H & _).
  - exact ex_valid1.
  - exact ex_orphans_ok.
  - exact ex_orphans_valid.
  - vm_compute. discriminate.
  - exists s, n. split; [exact E | exact H].
Defined.

(** What the code does there: both transactions are relayed, and the wallets are told
    twice of the first one. *)
Example ex_arrival :
  (fun r => (ar_relayed (fst r), ar_synced (fst r))) <$>
    @ProcessMessage_tx easy_digests _ ex_acceptance (fun _ => uint_zero 8) ex_tx1 (mkPool ∅ ∅ 0, ex_cache, tt) ex_orphans
  = Some ([ex_hash ex_tx1; ex_hash ex_tx2], [ex_tx1; ex_tx1]).
Proof. vm_compute. reflexivity. Qed.
