(* ===== verification/Kernel.v ===== *)
(** * Proof of stake: the stake modifier and the kernel (kernel.cpp, kernel.h)

    A block's stake modifier is 64 bits, each the entropy bit of one of up to 64
    blocks selected from the recent chain; a coinstake is valid when the hash of its
    kernel under the modifier of a later time meets a target weighted by the coin's
    age and value.  As in the other files a pointer into the chain is the list of
    the block and its ancestors. *)

From S2P Require Import Prelude Uint256 Serialize BigNum Tx Merkle Script Interp InterpRun Standard Consensus Ledger.
From Stdlib Require Import Sorting.Sorted.

Definition MODIFIER_INTERVAL_RATIO : Z := 3.

Section Modifier.
Context `{HD : Digests}.
Context (params : chain_params) (mapBlockIndex : gmap uint256 CBlockIndex).

Definition GetWeight (nIntervalBeginning nIntervalEnd : Z) : Z :=
  Z.min (s64 (nIntervalEnd - nIntervalBeginning - nStakeMinAge params)) nStakeMaxAge.

(** ** Selection *)

(** The block the loop stops at: the first that generated a modifier, or the last. *)
Fixpoint last_generated (pindex : list CBlockIndex) : option CBlockIndex :=
  match pindex with
  | [] => None
  | b :: pprev => if GeneratedStakeModifier b then Some b else match pprev with [] => Some b | _ => last_generated pprev end
  end.

(** [None] when it returns false. *)
Definition GetLastStakeModifier (pindex : list CBlockIndex) : option (Z * Z) :=
  match last_generated pindex with
  | None => None
  | Some b => if GeneratedStakeModifier b then Some (nStakeModifier b, bi_nTime b) else None
  end.

(** Unsigned 32-bit arithmetic. *)
Definition GetStakeModifierSelectionIntervalSection (nSection : Z) : Z :=
  u32 (nModifierInterval params * 63) / (63 + (63 - nSection) * (MODIFIER_INTERVAL_RATIO - 1)).

Definition GetStakeModifierSelectionInterval : Z :=
  fold_left (fun n s => s64 (n + GetStakeModifierSelectionIntervalSection (Z.of_nat s))) (seq 0 64) 0.

Definition hashSelection (nStakeModifierPrev : Z) (b : CBlockIndex) : uint256 :=
  let hashProof := if bi_IsProofOfStake b then hashProofOfStake b else bi_hash b in
  let h := Hash (uint_bytes hashProof ++ le_bytes 8 nStakeModifierPrev) in
  if bi_IsProofOfStake b then op_shr h 32 else h.

(** The loop of [SelectBlockFromCandidates]; [best] is the block selected so far with
    its hash.  The outer [None] is the error of a block that is not indexed. *)
Fixpoint select_loop (items : list (Z * uint256)) (selected : gset uint256) (nSelectionIntervalStop nStakeModifierPrev : Z)
    (best : option (uint256 * CBlockIndex)) : option (option (uint256 * CBlockIndex)) :=
  match items with
  | [] => Some best
  | item :: items =>
      match mapBlockIndex !! snd item with
      | None => None
      | Some pindex =>
          if (bool_decide (is_Some best) && (nSelectionIntervalStop <? bi_nTime pindex))%bool then Some best
          else if bool_decide (bi_hash pindex ∈ selected) then select_loop items selected nSelectionIntervalStop nStakeModifierPrev best
          else
            let h := hashSelection nStakeModifierPrev pindex in
            let best :=
              match best with
              | Some (hashBest, _) => if op_lt h hashBest then Some (h, pindex) else best
              | None => Some (h, pindex)
              end in
            select_loop items selected nSelectionIntervalStop nStakeModifierPrev best
      end
  end.

(** [None] when it returns false. *)
Definition SelectBlockFromCandidates (vSortedByTimestamp : list (Z * uint256)) (mapSelectedBlocks : gset uint256)
    (nSelectionIntervalStop nStakeModifierPrev : Z) : option CBlockIndex :=
  match select_loop vSortedByTimestamp mapSelectedBlocks nSelectionIntervalStop nStakeModifierPrev None with
  | Some (Some (_, pindex)) => Some pindex
  | _ => None
  end.

(** [pair<int64_t, uint256>] is ordered by time, then by hash. *)
Definition item_lt (a b : Z * uint256) : bool :=
  (fst a <? fst b) || ((fst a =? fst b) && op_lt (snd a) (snd b)).

Fixpoint insert_item (x : Z * uint256) (l : list (Z * uint256)) : list (Z * uint256) :=
  match l with
  | [] => [x]
  | y :: l => if item_lt y x then y :: insert_item x l else x :: y :: l
  end.
Definition sort_items (l : list (Z * uint256)) : list (Z * uint256) := fold_right insert_item [] l.

(** The candidates, latest first. *)
Fixpoint candidates (nSelectionIntervalStart : Z) (pindex : list CBlockIndex) : list (Z * uint256) :=
  match pindex with
  | [] => []
  | b :: pprev =>
      if nSelectionIntervalStart <=? bi_nTime b then (bi_nTime b, bi_hash b) :: candidates nSelectionIntervalStart pprev else []
  end.

(** The rounds from [nRound] on, [n] of them; also returns the blocks selected. *)
Fixpoint select_rounds (n : nat) (nRound : Z) (items : list (Z * uint256)) (nSelectionIntervalStop nStakeModifierPrev : Z)
    (selected : gset uint256) (nStakeModifierNew : Z) : option (Z * list CBlockIndex) :=
  match n with
  | O => Some (nStakeModifierNew, [])
  | S n =>
      let stop := s64 (nSelectionIntervalStop + GetStakeModifierSelectionIntervalSection nRound) in
      match SelectBlockFromCandidates items selected stop nStakeModifierPrev with
      | None => None
      | Some b =>
          match select_rounds n (nRound + 1) items stop nStakeModifierPrev ({[bi_hash b]} ∪ selected)
                  (Z.lor nStakeModifierNew (u64 (Z.shiftl (bi_GetStakeEntropyBit b) nRound))) with
          | None => None
          | Some (m, bs) => Some (m, b :: bs)
          end
      end
  end.

(** The modifier and [fGeneratedStakeModifier]; [None] when it returns false. *)
Definition ComputeNextStakeModifier (pindexPrev : list CBlockIndex) : option (Z * bool) :=
  match pindexPrev with
  | [] => Some (0, true)
  | prev :: _ =>
      match GetLastStakeModifier pindexPrev with
      | None => None
      | Some (nStakeModifier, nModifierTime) =>
          if Z.quot (bi_nTime prev) (nModifierInterval params) <=? Z.quot nModifierTime (nModifierInterval params)
          then Some (nStakeModifier, false)
          else
            let nSelectionIntervalStart :=
              s64 (Z.quot (bi_nTime prev) (nModifierInterval params) * nModifierInterval params - GetStakeModifierSelectionInterval) in
            let items := sort_items (reverse (candidates nSelectionIntervalStart pindexPrev)) in
            match select_rounds (Nat.min 64 (length items)) 0 items nSelectionIntervalStart nStakeModifier ∅ 0 with
            | None => None
            | Some (m, _) => Some (m, true)
            end
      end
  end.
End Modifier.

(** ** The kernel *)

Section Kernel.
Context `{HD : Digests} `{BN : OpenSSL_BN}.
Context (params : chain_params) (mapBlockIndex : gmap uint256 CBlockIndex).
(** The main chain after a block, in order of height ([pnext]). *)
Context (pnexts : uint256 -> list CBlockIndex).

Fixpoint modifier_loop (nUntil : Z) (pindex : CBlockIndex) (pnext : list CBlockIndex) (nStakeModifierTime : Z) : option Z :=
  if nStakeModifierTime <? nUntil then
    match pnext with
    | [] => None
    | b :: pnext => modifier_loop nUntil b pnext (if GeneratedStakeModifier b then bi_nTime b else nStakeModifierTime)
    end
  else Some (nStakeModifier pindex).

(** [None] when it returns false. *)
Definition GetKernelStakeModifier (hashBlockFrom : uint256) : option Z :=
  match mapBlockIndex !! hashBlockFrom with
  | None => None
  | Some pindexFrom =>
      modifier_loop (bi_nTime pindexFrom + GetStakeModifierSelectionInterval params) pindexFrom (pnexts hashBlockFrom) (bi_nTime pindexFrom)
  end.

Definition stakeHash (nTimeTx nTxPrevTime : Z) (ss : list Z) (prevoutIndex nTxPrevOffset nTimeBlockFrom : Z) : uint256 :=
  Hash (ss ++ le_bytes 4 nTimeBlockFrom ++ le_bytes 4 nTxPrevOffset ++ le_bytes 4 nTxPrevTime ++ le_bytes 4 prevoutIndex ++
        le_bytes 4 nTimeTx).

Definition stakeTargetHit (hashProofOfStake : uint256) (nTimeWeight nValueIn bnTargetPerCoinDay : Z) : bool :=
  let bnCoinDayWeight := Z.quot (Z.quot (nValueIn * nTimeWeight) COIN) (24 * 60 * 60) in
  setuint256 hashProofOfStake <? bnCoinDayWeight * bnTargetPerCoinDay.

(** The search: [nTimeTx] and [hashProofOfStake] are updated as the loop goes on, also
    after a success. *)
Fixpoint search_loop (n : nat) (i nHashDrift nTxPrevTime nValueIn bnTargetPerCoinDay : Z) (ss : list Z)
    (prevoutIndex nTxPrevOffset nTimeBlockFrom nTimeTx : Z) (fSuccess : bool) (hashProof : uint256) : bool * Z * uint256 :=
  match n with
  | O => (fSuccess, nTimeTx, hashProof)
  | S n =>
      let nTryTime := u32 (nTimeTx + nHashDrift - i) in
      let hashProof := stakeHash nTryTime nTxPrevTime ss prevoutIndex nTxPrevOffset nTimeBlockFrom in
      if stakeTargetHit hashProof (GetWeight params nTxPrevTime nTimeTx) nValueIn bnTargetPerCoinDay
      then search_loop n (i + 1) nHashDrift nTxPrevTime nValueIn bnTargetPerCoinDay ss prevoutIndex nTxPrevOffset nTimeBlockFrom
             nTryTime true hashProof
      else search_loop n (i + 1) nHashDrift nTxPrevTime nValueIn bnTargetPerCoinDay ss prevoutIndex nTxPrevOffset nTimeBlockFrom
             nTimeTx fSuccess hashProof
  end.

(** The result, [nTimeTx] and [hashProofOfStake]; the outer [None] when
    [txPrev.vout[prevout.n]] is out of range.  The time of the last search, kept for
    the miner, is left out. *)
Definition CheckStakeKernelHash (nBits : Z) (blockFrom : CBlockHeader) (nTxPrevOffset : Z) (txPrev : CTransaction)
    (prevout : COutPoint) (nTimeTx nHashDrift : Z) (fCheck : bool) (hashProof : uint256) : option (bool * Z * uint256) :=
  match vout txPrev !! Z.to_nat (out_n prevout) with
  | None => None
  | Some txout =>
      let nTxPrevTime := tx_nTime txPrev in
      let nTimeBlockFrom := nTime blockFrom in
      if nTimeTx <? nTxPrevTime then Some (false, nTimeTx, hashProof)
      else if nTimeTx <? u32 (nTimeBlockFrom + nStakeMinAge params) then Some (false, nTimeTx, hashProof)
      else
        let bnTargetPerCoinDay := SetCompact nBits in
        match GetKernelStakeModifier (CBlockHeader_GetHash blockFrom) with
        | None => Some (false, nTimeTx, hashProof)
        | Some nStakeModifier =>
            let ss := le_bytes 8 nStakeModifier in
            if fCheck then
              let hashProof := stakeHash nTimeTx nTxPrevTime ss (out_n prevout) nTxPrevOffset nTimeBlockFrom in
              Some (stakeTargetHit hashProof (GetWeight params nTxPrevTime nTimeTx) (nValue txout) bnTargetPerCoinDay, nTimeTx, hashProof)
            else
              Some (search_loop (Z.to_nat nHashDrift) 0 nHashDrift nTxPrevTime (nValue txout) bnTargetPerCoinDay ss
                      (out_n prevout) nTxPrevOffset nTimeBlockFrom nTimeTx false hashProof)
        end
  end.

Context `{EC : ECDSA} (GetRandHash : nat -> uint256).
Context (ReadTxFromDisk : CDiskTxPos -> option CTransaction) (ReadHeaderFromDisk : Z -> Z -> option CBlockHeader).

(** [CTransaction::ReadFromDisk(txdb, prevout, txindex)] *)
Definition ReadPrevFromDisk (txdb : txindex_map) (o : COutPoint) : option (CTxIndex * CTransaction) :=
  match txdb !! out_hash o with
  | None => None
  | Some txindex =>
      match ReadTxFromDisk (pos txindex) with
      | None => None
      | Some tx => if Z.of_nat (length (vout tx)) <=? out_n o then None else Some (txindex, tx)
      end
  end.

(** The hash of the proof, with the signature cache, or the score of the refusal. *)
Definition CheckProofOfStake (txdb : txindex_map) (tx : CTransaction) (nBits : Z) (c : CSignatureCache)
    : res (uint256 * CSignatureCache) :=
  guard_ (IsCoinStake tx) 0 ;;
  let* txin := of_option (head (vin tx)) in
  match ReadPrevFromDisk txdb (prevout txin) with
  | None => Fail 1
  | Some (txindex, txPrev) =>
      let '(fSig, c) := VerifySignature GetRandHash txPrev tx 0 0 c in
      guard_ fSig 100 ;;
      match ReadHeaderFromDisk (nFile (pos txindex)) (nBlockPos (pos txindex)) with
      | None => Fail 0
      | Some block =>
          let* (ok, _, hashProof) := of_option (CheckStakeKernelHash nBits block (u32 (nTxPos (pos txindex) - nBlockPos (pos txindex)))
            txPrev (prevout txin) (tx_nTime tx) 0 true (uint_zero 8)) in
          guard_ ok 1 ;;
          Ok (hashProof, c)
      end
  end.
End Kernel.

(** ** Checksums *)

(** [prev] is the parent's record, if there is one; the assertion that only the
    genesis block has none is not modelled. *)
Definition GetStakeModifierChecksum `{HD : Digests} (prev : option CBlockIndex) (b : CBlockIndex) : Z :=
  let ss := match prev with Some p => le_bytes 4 (nStakeModifierChecksum p) | None => [] end ++
            le_bytes 4 (nFlags b) ++ uint_bytes (hashProofOfStake b) ++ le_bytes 8 (nStakeModifier b) in
  u32 (Get64 (op_shr (Hash ss) (256 - 32)) 0).

Definition mapStakeModifierCheckpoints : gmap Z Z := {[ 0 := 0x0e00670b ]}.

Definition CheckStakeModifierCheckpoints (nHeight nStakeModifierChecksum : Z) : bool :=
  match mapStakeModifierCheckpoints !! nHeight with
  | Some c => nStakeModifierChecksum =? c
  | None => true
  end.

(** ** Which block is selected *)

Section Select.
Context `{HDok : Digests_ok}.
Context (mapBlockIndex : gmap uint256 CBlockIndex).

(** An item stands for an indexed block. *)
Definition item_of (item : Z * uint256) (b : CBlockIndex) : Prop :=
  mapBlockIndex !! snd item = Some b /\ bi_hash b = snd item /\ bi_nTime b = fst item.

Lemma hashSelection_ok m b : uint_ok 8 (hashSelection m b).
Proof. unfold hashSelection. case_match; [apply op_shr_ok; [apply Hash_ok|lia] | apply Hash_ok]. Qed.

Definition weight_of (m : Z) (b : CBlockIndex) : Z := uval (hashSelection m b).

(** The part of the loop after the first selection keeps the least hash of the blocks
    up to the stop time. *)
Lemma select_loop_some items bs sel stop m : Forall2 item_of items bs ->
  StronglySorted (fun a b => bi_nTime a <= bi_nTime b) bs -> forall b0,
  exists b', select_loop mapBlockIndex items sel stop m (Some (hashSelection m b0, b0)) = Some (Some (hashSelection m b', b')) /\
    (b' = b0 \/ ((b' ∈ bs) /\ (bi_hash b' ∉ sel) /\ bi_nTime b' <= stop)) /\ weight_of m b' <= weight_of m b0 /\
    (forall b, b ∈ bs -> bi_hash b ∉ sel -> bi_nTime b <= stop -> weight_of m b' <= weight_of m b).
Proof.
  induction 1 as [|item b items bs (Hm & Hh & Ht) HF IH]; intros Hs b0; cbn [select_loop].
  { exists b0. conjs; [done|by left|done|]. intros b []%elem_of_nil. }
  apply StronglySorted_inv in Hs as [Hs Hle]. rewrite Hm. rewrite bool_decide_true by eauto. cbn [andb].
  destruct (Z.ltb_spec stop (bi_nTime b)) as [Hlt|Hge].
  { exists b0. conjs; [done|by left|done|]. intros c [->|Hc]%elem_of_cons _ Hct; [lia|].
    rewrite Forall_forall in Hle. specialize (Hle _ Hc). lia. }
  case_bool_decide as Esel.
  - destruct (IH Hs b0) as (b' & E & Hor & Hw & Hall). exists b'. conjs; [done| |done|].
    + destruct Hor as [?|(? & ? & ?)]; [by left|right]. conjs; [by right|done|done].
    + intros c [->|Hc]%elem_of_cons; [done|]. by apply Hall.
  - rewrite (op_lt_spec 8) by apply hashSelection_ok. fold (weight_of m b) (weight_of m b0).
    destruct (Z.ltb_spec (weight_of m b) (weight_of m b0)) as [Hl|Hl].
    + destruct (IH Hs b) as (b' & E & Hor & Hw & Hall). exists b'. conjs; [done| |lia|].
      * right. destruct Hor as [->|(? & ? & ?)]; conjs; try done; [by left|by right].
      * intros c [->|Hc]%elem_of_cons; [done|]. by apply Hall.
    + destruct (IH Hs b0) as (b' & E & Hor & Hw & Hall). exists b'. conjs; [done| |done|].
      * destruct Hor as [?|(? & ? & ?)]; [by left|right]. conjs; [by right|done|done].
      * intros c [->|Hc]%elem_of_cons; [lia|]. by apply Hall.
Qed.

(** A round takes a block of the least selection hash among those not selected yet up
    to the stop time; when there are none, one of the earliest that are left. *)
Definition selects (bs : list CBlockIndex) (sel : gset uint256) (stop m : Z) (b : CBlockIndex) : Prop :=
  (b ∈ bs) /\ (bi_hash b ∉ sel) /\
  forall c, c ∈ bs -> bi_hash c ∉ sel ->
    (bi_nTime c <= stop -> bi_nTime b <= stop /\ weight_of m b <= weight_of m c) /\
    (stop < bi_nTime b -> bi_nTime b <= bi_nTime c).

Lemma SelectBlock_spec items bs sel stop m : Forall2 item_of items bs ->
  StronglySorted (fun a b => bi_nTime a <= bi_nTime b) bs -> Exists (fun b => bi_hash b ∉ sel) bs ->
  exists b, SelectBlockFromCandidates mapBlockIndex items sel stop m = Some b /\ selects bs sel stop m b.
Proof.
  unfold SelectBlockFromCandidates, selects. induction 1 as [|item b items bs (Hm & Hh & Ht) HF IH]; intros Hs Hex; [by inversion Hex|].
  cbn [select_loop]. apply StronglySorted_inv in Hs as [Hs Hle]. rewrite Hm. rewrite bool_decide_false by (intros [? ?]; done). cbn [andb].
  case_bool_decide as Esel.
  - apply Exists_cons in Hex as [?|Hex]; [done|]. destruct (IH Hs Hex) as (b' & E & Hin & Hns & Hall).
    exists b'. conjs; [done|by right|done|]. intros c [->|Hc]%elem_of_cons; [done|]. by apply Hall.
  - destruct (select_loop_some items bs sel stop m HF Hs b) as (b' & -> & Hor & Hw & Hall). exists b'.
    conjs; [done| | |].
    + destruct Hor as [->|(? & _)]; [by left|by right].
    + by destruct Hor as [->|(_ & ? & _)].
    + rewrite Forall_forall in Hle. intros c Hc Hcs. split.
      * intros Hct. apply elem_of_cons in Hc as [->|Hc]; [split; [|done]; by destruct Hor as [->|(_ & _ & ?)]|].
        split; [|by apply Hall]. destruct Hor as [->|(_ & _ & ?)]; [|done]. specialize (Hle _ Hc). lia.
      * intros Hlt. destruct Hor as [->|(_ & _ & ?)]; [|lia]. apply elem_of_cons in Hc as [->|Hc]; [done|by apply Hle].
Qed.

(** ** Sorting *)

Lemma insert_item_perm x l : insert_item x l ≡ₚ x :: l.
Proof. induction l as [|y l IH]; cbn [insert_item]; [done|]. destruct (item_lt y x); [|done]. rewrite IH. constructor. Qed.

Lemma sort_items_perm l : sort_items l ≡ₚ l.
Proof. unfold sort_items. induction l as [|x l IH]; cbn [fold_right]; [done|]. by rewrite insert_item_perm, IH. Qed.

Lemma insert_item_sorted x l : StronglySorted (fun a b : Z * uint256 => fst a <= fst b) l ->
  StronglySorted (fun a b : Z * uint256 => fst a <= fst b) (insert_item x l).
Proof.
  induction 1 as [|y l Hs IH Hy]; cbn [insert_item]; [repeat constructor|].
  destruct (item_lt y x) eqn:E.
  - constructor; [done|]. rewrite insert_item_perm. constructor; [|done]. unfold item_lt in E. apply orb_true_iff in E. bprop.
    destruct E; bprop; lia.
  - assert (fst x <= fst y) as Hxy.
    { unfold item_lt in E. apply orb_false_iff in E as [E _]. bprop. lia. }
    constructor; [by constructor|]. constructor; [done|]. eapply Forall_impl; [exact Hy|]. cbn. intros z ?. lia.
Qed.

Lemma sort_items_sorted l : StronglySorted (fun a b : Z * uint256 => fst a <= fst b) (sort_items l).
Proof. unfold sort_items. induction l as [|x l IH]; cbn [fold_right]; [constructor|by apply insert_item_sorted]. Qed.

Lemma items_blocks items : Forall (fun i => exists b, item_of i b) items ->
  exists bs, Forall2 item_of items bs /\ map bi_hash bs = map snd items.
Proof.
  induction 1 as [|i items [b Hb] _ (bs & HF & E)]; [by exists []|]. exists (b :: bs). split; [by constructor|].
  cbn. rewrite E. destruct Hb as (_ & -> & _). done.
Qed.

Lemma items_sorted items bs : Forall2 item_of items bs -> StronglySorted (fun a b : Z * uint256 => fst a <= fst b) items ->
  StronglySorted (fun a b => bi_nTime a <= bi_nTime b) bs.
Proof.
  induction 1 as [|i b items bs (_ & _ & Ht) HF IH]; intros Hs; [constructor|]. apply StronglySorted_inv in Hs as [Hs Hle].
  constructor; [auto|]. apply Forall_forall. intros c Hc. rewrite Forall_forall in Hle.
  apply list_elem_of_lookup in Hc as [k Hk]. eapply Forall2_lookup_r in HF as (j & Hj & (_ & _ & Hjt)); [|exact Hk].
  rewrite Ht, Hjt. apply Hle. by eapply list_elem_of_lookup_2.
Qed.

(** ** Entropy bits *)

Lemma entropy_bit b : bi_GetStakeEntropyBit b = Z.b2z (Z.testbit (nFlags b) 1).
Proof.
  unfold bi_GetStakeEntropyBit, BLOCK_STAKE_ENTROPY. apply Z.bits_inj'. intros n Hn.
  rewrite Z.shiftr_spec, Z.land_spec by done. change 2 with (2 ^ 1) at 1. rewrite Z.pow2_bits_eqb by lia.
  destruct (Z.eq_dec n 0) as [->|Hne].
  - rewrite Z.b2z_bit0. cbn. by rewrite andb_true_r.
  - rewrite (proj2 (Z.eqb_neq 1 (n + 1))) by lia. rewrite andb_false_r.
    destruct (Z.testbit (nFlags b) 1); cbn [Z.b2z]; [|by rewrite Z.bits_0]. symmetry. change 1 with (2 ^ 0). apply Z.pow2_bits_false. lia.
Qed.

(** One round writes one bit. *)
Lemma round_bit m e r i : 0 <= r < 64 -> 0 <= i -> Z.testbit (Z.lor m (u64 (Z.shiftl (Z.b2z e) r))) i =
  (Z.testbit m i || (Z.eqb i r && e))%bool.
Proof.
  intros Hr Hi. rewrite Z.lor_spec. f_equal. rewrite u64_small.
  - destruct e; cbn [Z.b2z]; [|by rewrite Z.shiftl_0_l, Z.bits_0, andb_false_r].
    rewrite Z.shiftl_1_l, Z.pow2_bits_eqb by lia. rewrite andb_true_r. apply Z.eqb_sym.
  - rewrite Z.shiftl_mul_pow2 by lia. assert (2 ^ r < 2 ^ 64) by (apply Z.pow_lt_mono_r; lia). destruct e; cbn [Z.b2z]; lia.
Qed.

(** The rounds: each takes a block that was not selected before. *)
Section Rounds.
Context (params : chain_params) (items : list (Z * uint256)) (bs : list CBlockIndex).
Context (HF : Forall2 item_of items bs) (Hsorted : StronglySorted (fun a b => bi_nTime a <= bi_nTime b) bs)
        (Hnd : NoDup (map bi_hash bs)).

Lemma unselected_left (sel : gset uint256) : (size sel < length bs)%nat -> Exists (fun b => bi_hash b ∉ sel) bs.
Proof.
  intros Hs. destruct (decide (Forall (fun b => bi_hash b ∈ sel) bs)) as [Hall|Hn].
  - exfalso. assert ((list_to_set (map bi_hash bs) : gset uint256) ⊆ sel) as Hsub.
    { intros h Hh. apply elem_of_list_to_set in Hh. apply list_elem_of_fmap in Hh as (b & -> & Hb).
      rewrite Forall_forall in Hall. by apply Hall. }
    apply subseteq_size in Hsub. rewrite size_list_to_set, length_map in Hsub by done. lia.
  - by apply not_Forall_Exists in Hn; [|apply _].
Qed.

(** The bit a list of blocks gives at [i] when its first block gives the bit [r]. *)
Definition bit_from (r : Z) (sbs : list CBlockIndex) (i : Z) : bool :=
  if i <? r then false else match sbs !! Z.to_nat (i - r) with Some b => Z.testbit (nFlags b) 1 | None => false end.

Lemma bit_from_cons r b sbs i : bit_from r (b :: sbs) i = (bit_from (r + 1) sbs i || (Z.eqb i r && Z.testbit (nFlags b) 1))%bool.
Proof.
  unfold bit_from. destruct (Z.ltb_spec i r), (Z.ltb_spec i (r + 1)), (Z.eqb_spec i r); try lia; cbn [andb orb]; try done.
  - subst. by rewrite Z.sub_diag.
  - replace (Z.to_nat (i - r)) with (S (Z.to_nat (i - (r + 1)))) by lia. cbn. by rewrite orb_false_r.
Qed.

Lemma lor_u64 a b : 0 <= a < 2 ^ 64 -> 0 <= b < 2 ^ 64 -> 0 <= Z.lor a b < 2 ^ 64.
Proof.
  intros Ha Hb. split; [apply Z.lor_nonneg; lia|]. destruct (Z.eq_dec (Z.lor a b) 0) as [->|Hne]; [lia|].
  assert (0 <= Z.lor a b) by (apply Z.lor_nonneg; lia). apply Z.log2_lt_pow2; [lia|]. rewrite Z.log2_lor by lia.
  assert (forall x, 0 <= x < 2 ^ 64 -> Z.log2 x < 64) as Hx; [|apply Z.max_lub_lt; auto].
  intros x Hx. destruct (Z.eq_dec x 0) as [->|]; [cbn; lia|]. apply Z.log2_lt_pow2; lia.
Qed.

(** The stop time of the [i]-th round from round [r] on. *)
Fixpoint round_stop (i : nat) (r stop : Z) : Z :=
  let stop := s64 (stop + GetStakeModifierSelectionIntervalSection params r) in
  match i with O => stop | S i => round_stop i (r + 1) stop end.

(** The [i]-th block is what its round takes, those before it being selected. *)
Definition rounds_select (m r stop : Z) (sel : gset uint256) (sbs : list CBlockIndex) : Prop :=
  forall i b, sbs !! i = Some b -> selects bs (list_to_set (map bi_hash (take i sbs)) ∪ sel) (round_stop i r stop) m b.

Lemma select_rounds_spec m : forall n r stop sel new, (n + size sel <= length bs)%nat -> 0 <= r -> r + Z.of_nat n <= 64 ->
  0 <= new < 2 ^ 64 ->
  exists m' sbs, select_rounds params mapBlockIndex n r items stop m sel new = Some (m', sbs) /\ length sbs = n /\
    rounds_select m r stop sel sbs /\ NoDup (map bi_hash sbs) /\ Forall (fun b => bi_hash b ∉ sel) sbs /\ 0 <= m' < 2 ^ 64 /\
    (forall i, 0 <= i -> Z.testbit m' i = (Z.testbit new i || bit_from r sbs i)%bool).
Proof.
  induction n as [|n IH]; intros r stop sel new Hsz Hr Hrn Hnew; cbn [select_rounds].
  { exists new, []. conjs; try done; try apply NoDup_nil_2; try lia. intros i Hi. unfold bit_from. destruct (i <? r); by rewrite orb_false_r. }
  set (stop' := s64 _). destruct (SelectBlock_spec items bs sel stop' m HF Hsorted) as (b & -> & Hsel).
  { apply unselected_left. lia. }
  pose proof Hsel as (_ & Hns & _). rewrite entropy_bit. set (new' := Z.lor new _).
  destruct (IH (r + 1) stop' ({[bi_hash b]} ∪ sel) new') as (m' & sbs & -> & Hl & Hrs & Hndb & Hdis & Hm & Hbits).
  { rewrite size_union by set_solver. rewrite size_singleton. lia. }
  { lia. } { lia. } { apply lor_u64; [done|apply u64_range]. }
  exists m', (b :: sbs). conjs; [done|cbn; lia| | | |lia|lia|].
  - intros [|i] c; cbn [lookup list_lookup round_stop take map list_to_set].
    + intros [= <-]. by rewrite (left_id_L ∅ (∪)).
    + intros Hi%Hrs. by replace ({[bi_hash b]} ∪ list_to_set (map bi_hash (take i sbs)) ∪ sel)
        with (list_to_set (map bi_hash (take i sbs)) ∪ ({[bi_hash b]} ∪ sel)) by set_solver.
  - cbn. apply NoDup_cons. split; [|done]. intros (c & Ec & Hc)%list_elem_of_fmap. rewrite Forall_forall in Hdis.
    specialize (Hdis _ Hc). set_solver.
  - constructor; [done|]. eapply Forall_impl; [exact Hdis|]. set_solver.
  - intros i Hi. rewrite (Hbits i Hi), bit_from_cons. unfold new'. rewrite round_bit by lia.
    destruct (Z.testbit new i), (bit_from (r + 1) sbs i), (i =? r), (Z.testbit (nFlags b) 1); done.
Qed.
End Rounds.
End Select.

(** ** The next modifier *)

Section Next.
Context `{HDok : Digests_ok}.
Context (params : chain_params) (mapBlockIndex : gmap uint256 CBlockIndex).

(** The blocks of the selection interval: from the newest back, up to the first that is
    older than the start. *)
Fixpoint window (start : Z) (chain : list CBlockIndex) : list CBlockIndex :=
  match chain with
  | [] => []
  | b :: pprev => if start <=? bi_nTime b then b :: window start pprev else []
  end.

Lemma candidates_window start chain : candidates start chain = map (fun b => (bi_nTime b, bi_hash b)) (window start chain).
Proof. induction chain as [|b chain IH]; cbn [candidates window]; [done|]. destruct (start <=? bi_nTime b); cbn [map]; [by rewrite IH|done]. Qed.

Lemma window_prefix start chain : window start chain `prefix_of` chain.
Proof.
  induction chain as [|b chain IH]; cbn [window]; [done|]. destruct (start <=? bi_nTime b); [by apply prefix_cons|apply prefix_nil].
Qed.

(** The sorted candidates are the blocks of the window, by time. *)
Lemma sorted_candidates start chain : Forall (fun b => mapBlockIndex !! bi_hash b = Some b) chain -> NoDup (map bi_hash chain) ->
  let items := sort_items (reverse (candidates start chain)) in
  exists bs, Forall2 (item_of mapBlockIndex) items bs /\ StronglySorted (fun a b => bi_nTime a <= bi_nTime b) bs /\
    NoDup (map bi_hash bs) /\ bs ≡ₚ window start chain.
Proof.
  intros Hreg Hnd items. destruct (window_prefix start chain) as [rest Hp]. rewrite Hp in Hreg, Hnd.
  apply Forall_app in Hreg as [Hreg _]. rewrite map_app in Hnd. apply NoDup_app in Hnd as [Hnd _].
  assert (items ≡ₚ map (fun b => (bi_nTime b, bi_hash b)) (window start chain)) as Hperm.
  { unfold items. rewrite sort_items_perm, candidates_window. apply reverse_Permutation. }
  apply Permutation_map_inv in Hperm as (bs & Ei & Hbs). symmetry in Hbs. rewrite <- Hbs in Hreg, Hnd.
  assert (Forall2 (item_of mapBlockIndex) items bs) as HF.
  { rewrite Ei. clear -Hreg. induction Hreg as [|b bs Hb _ IH]; [constructor|]. constructor; [done|exact IH]. }
  exists bs. conjs; [done| |done|done]. eapply items_sorted; [exact HF|apply sort_items_sorted].
Qed.

Lemma selects_perm bs bs' sel stop m b : bs ≡ₚ bs' -> selects bs sel stop m b -> selects bs' sel stop m b.
Proof. intros Hp (H1 & H2 & H3). unfold selects. split; [by rewrite <- Hp|]. split; [done|]. intros c Hc. apply H3. by rewrite Hp. Qed.

Lemma last_generated_found chain : Exists (fun b => GeneratedStakeModifier b = true) chain ->
  exists g l1 l2, last_generated chain = Some g /\ chain = l1 ++ g :: l2 /\ GeneratedStakeModifier g = true /\
    Forall (fun b => GeneratedStakeModifier b = false) l1.
Proof.
  induction 1 as [b chain Hg | b chain Hex IH]; cbn [last_generated].
  - exists b, [], chain. rewrite Hg. conjs; [done|done|done|constructor].
  - destruct (GeneratedStakeModifier b) eqn:E; [exists b, [], chain; conjs; [done|done|done|constructor]|].
    destruct chain; [by inversion Hex|]. destruct IH as (g & l1 & l2 & -> & -> & ? & ?). exists g, (b :: l1), l2.
    conjs; [done|done|done|by constructor].
Qed.
End Next.

(** ** Properties *)

(** Selection of a block.  Among the candidates sorted by time that are not
    selected yet, [SelectBlockFromCandidates] returns one; if there are any up to
    the stop time it is one of these, with the least selection hash of them, and
    otherwise one of the earliest. *)
Theorem select_block_least `{HDok : Digests_ok} (mapBlockIndex : gmap uint256 CBlockIndex) (items : list (Z * uint256))
    (bs : list CBlockIndex) (sel : gset uint256) (stop m : Z) :
  Forall2 (item_of mapBlockIndex) items bs -> StronglySorted (fun a b => bi_nTime a <= bi_nTime b) bs ->
  Exists (fun b => bi_hash b ∉ sel) bs ->
  exists b, SelectBlockFromCandidates mapBlockIndex items sel stop m = Some b /\ selects bs sel stop m b.
Proof. apply SelectBlock_spec. Qed.

(** C38: the next stake modifier.  On an indexed chain with a generated modifier
    [ComputeNextStakeModifier] never fails.  Let [g] be the newest block that generated
    one.  It generates a new modifier exactly when the best block's time lies in a later
    interval than [g]'s, and otherwise keeps the modifier of [g].  The new one has 64
    bits: bit [i] is the entropy bit of the block of round [i], for as many rounds as
    there are blocks in the selection interval but at most 64, and 0 beyond.  Each
    round takes, of the interval's blocks not taken before, one of the least selection
    hash under [g]'s modifier up to the round's stop time, or, if there are none up
    to it, one of the earliest. *)
Theorem next_modifier_exists `{HDok : Digests_ok} (params : chain_params) (mapBlockIndex : gmap uint256 CBlockIndex)
    (prev : CBlockIndex) (pprev : list CBlockIndex) :
  let chain := prev :: pprev in
  let interval b := Z.quot (bi_nTime b) (nModifierInterval params) in
  let start := s64 (interval prev * nModifierInterval params - GetStakeModifierSelectionInterval params) in
  Forall (fun b => mapBlockIndex !! bi_hash b = Some b) chain -> NoDup (map bi_hash chain) ->
  Exists (fun b => GeneratedStakeModifier b = true) chain ->
  exists g newer older m fGenerated, chain = newer ++ g :: older /\ GeneratedStakeModifier g = true /\
    Forall (fun b => GeneratedStakeModifier b = false) newer /\
    ComputeNextStakeModifier params mapBlockIndex chain = Some (m, fGenerated) /\
    (fGenerated = true <-> interval g < interval prev) /\
    if fGenerated then
      0 <= m < 2 ^ 64 /\ exists sbs, length sbs = Nat.min 64 (length (window start chain)) /\ NoDup (map bi_hash sbs) /\
        rounds_select params (window start chain) (nStakeModifier g) 0 start ∅ sbs /\
        forall i, 0 <= i -> Z.testbit m i = bit_from 0 sbs i
    else m = nStakeModifier g.
Proof.
  intros chain interval start Hreg Hnd Hgen. destruct (last_generated_found _ Hgen) as (g & l1 & l2 & Eg & El & Hg & Hl1).
  exists g, l1, l2. unfold ComputeNextStakeModifier, GetLastStakeModifier, chain. fold chain. rewrite Eg, Hg.
  fold (interval prev) (interval g). destruct (Z.leb_spec (interval prev) (interval g)) as [Hle|Hlt].
  { eexists _, false. conjs; try done. split; [done|lia]. }
  fold start. destruct (sorted_candidates mapBlockIndex start chain Hreg Hnd) as (bs & HF & Hs & Hndb & Hperm).
  set (items := sort_items _) in *. pose proof (Forall2_length _ _ _ HF) as Hlen.
  destruct (select_rounds_spec mapBlockIndex params items bs HF Hs Hndb (nStakeModifier g) (Nat.min 64 (length items)) 0 start ∅ 0)
    as (m & sbs & -> & Hsl & Hsel & Hndm & _ & Hm & Hbits); [rewrite size_empty; lia|lia|lia|lia|].
  exists m, true. conjs; try done; [lia|lia|]. exists sbs. conjs; [|done| |].
  - rewrite Hsl, Hlen. by rewrite (Permutation_length Hperm).
  - intros i b Hi. eapply selects_perm; [exact Hperm|]. by apply Hsel.
  - intros i Hi. by rewrite (Hbits i Hi), Z.bits_0.
Qed.

(** The stake target.  The weight of a coin whose transaction is not newer than its
    block lies between 0 and [nStakeMaxAge] once the minimum age has passed, and a
    kernel that meets the target still meets it with more value or more weight. *)
Theorem stake_target_monotone `{BN_ok : OpenSSL_BN_ok} (params : chain_params) (hash : uint256)
    (nTxPrevTime nTimeBlockFrom nTimeTx w w' v v' target : Z) :
  0 <= nStakeMinAge params -> 0 <= nTxPrevTime <= nTimeBlockFrom -> nTimeBlockFrom + nStakeMinAge params <= nTimeTx < 2 ^ 32 ->
  0 <= w <= w' -> 0 <= v <= v' -> 0 <= target ->
  0 <= GetWeight params nTxPrevTime nTimeTx <= nStakeMaxAge /\
  (stakeTargetHit hash w v target = true -> stakeTargetHit hash w' v' target = true).
Proof.
  intros Hmin Hprev Htx Hw Hv Ht. split.
  - unfold GetWeight. assert (0 <= nStakeMaxAge) by (by vm_compute). rewrite s64_small by lia. lia.
  - unfold stakeTargetHit. rewrite !Z.ltb_lt. intros Hhit. eapply Z.lt_le_trans; [exact Hhit|].
    apply Z.mul_le_mono_nonneg_r; [done|]. assert (0 < COIN) by (by vm_compute).
    assert (v * w <= v' * w') by nia.
    rewrite !(Z.quot_div_nonneg _ COIN) by nia. rewrite !Z.quot_div_nonneg by (try apply Z.div_pos; nia).
    apply Z.div_le_mono; [lia|]. by apply Z.div_le_mono.
Qed.

(** ** Examples *)

(** A block of a time with flags; its hash is made from the time. *)
Definition st_block (t flags : Z) : CBlockIndex :=
  mkBlockIndex (replicate 8 t) 1 0 (uint_zero 8) t 0 0 flags 0 0 COutPoint_null 0 (replicate 8 (t + 1)) 6 (uint_zero 8) t 0 0.
Definition st_chain : list CBlockIndex := [st_block 5000 3; st_block 3000 2; st_block 0 4].
Definition st_index : gmap uint256 CBlockIndex := list_to_map (map (fun b => (bi_hash b, b)) st_chain).

Lemma select_block_least_witness :
  exists b, @SelectBlockFromCandidates toy_digests st_index [(3000, replicate 8 3000); (5000, replicate 8 5000)] ∅ 6000 7 = Some b.
Proof.
  destruct (@select_block_least toy_digests toy_digests_ok st_index [(3000, replicate 8 3000); (5000, replicate 8 5000)]
    [st_block 3000 2; st_block 5000 3] ∅ 6000 7) as (b & E & _).
  - repeat constructor; vm_compute; reflexivity.
  - repeat constructor; vm_compute; discriminate.
  - constructor. apply not_elem_of_empty.
  - exists b. exact E.
Defined.

Lemma next_modifier_exists_witness : exists m sbs,
  @ComputeNextStakeModifier toy_digests (@main_net reference_BN) st_index st_chain = Some (m, true) /\ length sbs = 3%nat /\
  forall i, 0 <= i -> Z.testbit m i = bit_from 0 sbs i.
Proof.
  destruct (@next_modifier_exists toy_digests toy_digests_ok (@main_net reference_BN) st_index (st_block 5000 3) [st_block 3000 2; st_block 0 4])
    as (g & newer & older & m & f & _ & _ & _ & E & _ & H).
  - repeat constructor; vm_compute; reflexivity.
  - apply (bool_decide_unpack _). vm_compute. exact I.
  - apply Exists_cons_tl, Exists_cons_tl, Exists_cons_hd. reflexivity.
  - destruct f; [|exfalso; revert E; vm_compute; discriminate]. destruct H as (_ & sbs & Hl & _ & _ & Hb).
    exists m, sbs. split; [exact E|]. split; [rewrite Hl; vm_compute; reflexivity|exact Hb].
Defined.

(** The newest block ends an interval: both other blocks and itself give a bit. *)
Example st_modifier : @ComputeNextStakeModifier toy_digests (@main_net reference_BN) st_index st_chain = Some (6, true).
Proof. vm_compute. reflexivity. Qed.

Lemma stake_target_monotone_witness :
  0 <= GetWeight (@main_net reference_BN) 1000 100000 <= nStakeMaxAge /\
  @stakeTargetHit reference_BN (uint_zero 8) 172800 (2 * COIN) 5 = true.
Proof.
  destruct (@stake_target_monotone reference_BN reference_BN_ok (@main_net reference_BN) (uint_zero 8) 1000 2000 100000 86400 172800
    COIN (2 * COIN) 5) as [H1 H2]; [vm_compute; split || idtac; discriminate || reflexivity .. |].
  split; [exact H1 | apply H2; vm_compute; reflexivity].
Defined.

(** A digest under which the kernel hash is the low byte of the time it is tried for. *)
Definition clock_digests : Digests := {|
  SHA256 l := if (length l =? 32)%nat then l else take 1 (drop 24 l) ++ replicate 31 0;
  RIPEMD160 _ := replicate 20 0; SHA1 _ := replicate 20 0; Hash9 _ := replicate 32 0;
|}.

(** The search goes on after a success and overwrites the proof: it reports success,
    with the hash of a later try that missed the target. *)
Example search_overwrites_proof :
  let '(ok, t, h) := @search_loop clock_digests reference_BN (@main_net reference_BN) 2 0 2 0 COIN 33 (le_bytes 8 0) 0 0 0
    (1024 * 256 + 96) false (uint_zero 8) in
  ok = true /\ t = 1024 * 256 + 98 /\
  @stakeTargetHit reference_BN h (GetWeight (@main_net reference_BN) 0 t) COIN 33 = false.
Proof. vm_compute. done. Qed.
