(* ===== verification/BlockTree.v ===== *)
(** * The tree of block records (main.h, main.cpp)

    [mapBlockIndex] with the [pprev] and [pnext] pointers of its records, a pointer
    being the hash of the record it points to.  The loops that walk these pointers:
    tracing back to a height, finding the fork of two branches, [FindBlockByHeight]
    and [CBlockLocator].  Two trees that differ only in fields the walks do not read
    are [same_tree]. *)

From S2P Require Import Prelude Uint256 Serialize BigNum Tx Merkle Script Interp Standard Consensus Ledger.

Record node := mkNode { n_rec : CBlockIndex; n_pprev : option uint256; n_pnext : option uint256 }.

Abbreviation block_index := (gmap uint256 node).

Definition pprev (idx : block_index) (h : uint256) : option uint256 := idx !! h ≫= n_pprev.
Definition pnext (idx : block_index) (h : uint256) : option uint256 := idx !! h ≫= n_pnext.

(** The block and its ancestors, newest first. *)
Fixpoint path_from (fuel : nat) (idx : block_index) (p : option uint256) : list uint256 :=
  match fuel, p with
  | S fuel, Some h =>
      match idx !! h with
      | None => []
      | Some nd => h :: path_from fuel idx (n_pprev nd)
      end
  | _, _ => []
  end.
Definition path (idx : block_index) (h : uint256) : list uint256 := path_from (S (size idx)) idx (Some h).

(** A pointer as the functions of the other components take it. *)
Definition chain_of (idx : block_index) (h : uint256) : list CBlockIndex := omap (fun k => n_rec <$> idx !! k) (path idx h).

Definition IsInMainChain (idx : block_index) (pindexBest : option uint256) (h : uint256) : bool :=
  bool_decide (is_Some (pnext idx h)) || bool_decide (pindexBest = Some h).

(** [while (pindex->nHeight > H)] step to [pprev]; [None] when that is null. *)
Fixpoint trace_back (fuel : nat) (idx : block_index) (H : Z) (h : uint256) : option uint256 :=
  match idx !! h with
  | None => None
  | Some nd =>
      if H <? nHeight (n_rec nd) then
        match fuel, n_pprev nd with
        | S fuel, Some p => trace_back fuel idx H p
        | _, _ => None
        end
      else Some h
  end.

(** [while (pindex->nHeight < H)] step to [pnext]. *)
Fixpoint trace_forward (fuel : nat) (idx : block_index) (H : Z) (h : uint256) : option uint256 :=
  match idx !! h with
  | None => None
  | Some nd =>
      if nHeight (n_rec nd) <? H then
        match fuel, n_pnext nd with
        | S fuel, Some p => trace_forward fuel idx H p
        | _, _ => None
        end
      else Some h
  end.

(** The loop of [Reorganize] that finds the fork. *)
Fixpoint find_fork (fuel : nat) (idx : block_index) (pfork plonger : uint256) : option uint256 :=
  if decide (pfork = plonger) then Some pfork
  else
    match idx !! pfork with
    | None => None
    | Some f =>
        match trace_back (size idx) idx (nHeight (n_rec f)) plonger with
        | None => None
        | Some plonger =>
            if decide (pfork = plonger) then Some pfork
            else
              match fuel, n_pprev f with
              | S fuel, Some pfork => find_fork fuel idx pfork plonger
              | _, _ => None
              end
        end
    end.

(** [for (pindex = h; pindex != stop; pindex = pindex->pprev)]; [None] when that
    runs into a null pointer. *)
Fixpoint branch (fuel : nat) (idx : block_index) (stop h : uint256) : option (list uint256) :=
  if decide (h = stop) then Some []
  else
    match fuel, pprev idx h with
    | S fuel, Some p => match branch fuel idx stop p with Some l => Some (h :: l) | None => None end
    | _, _ => None
    end.

(** The result is also the new [pblockindexFBBHLast]. *)
Definition FindBlockByHeight (idx : block_index) (pindexGenesisBlock pindexBest : uint256) (nBestHeight : Z)
    (pblockindexFBBHLast : option uint256) (H : Z) : option uint256 :=
  let pblockindex := if H <? Z.quot nBestHeight 2 then pindexGenesisBlock else pindexBest in
  match idx !! pblockindex with
  | None => None
  | Some nd =>
      let pblockindex :=
        match pblockindexFBBHLast ≫= (fun l => idx !! l), pblockindexFBBHLast with
        | Some ndl, Some last =>
            if Z.abs (H - nHeight (n_rec ndl)) <? Z.abs (H - nHeight (n_rec nd)) then last else pblockindex
        | _, _ => pblockindex
        end in
      match trace_back (size idx) idx H pblockindex with
      | None => None
      | Some pblockindex => trace_forward (size idx) idx H pblockindex
      end
  end.

(** ** CBlockLocator *)

(** [for (int i = 0; pindex && i < nStep; i++) pindex = pindex->pprev] *)
Fixpoint step_back (idx : block_index) (nStep : nat) (p : option uint256) : option uint256 :=
  match nStep, p with
  | S n, Some h => step_back idx n (pprev idx h)
  | _, _ => p
  end.

(** [nHave] is [vHave.size()] before the turn. *)
Fixpoint locator_loop (fuel : nat) (idx : block_index) (p : option uint256) (nStep nHave : Z) : list uint256 :=
  match fuel, p with
  | S fuel, Some h =>
      h :: locator_loop fuel idx (step_back idx (Z.to_nat nStep) p) (if 10 <? nHave + 1 then s32 (nStep * 2) else nStep) (nHave + 1)
  | _, _ => []
  end.

Definition CBlockLocator_Set (idx : block_index) (hashGenesisBlock : uint256) (p : option uint256) : list uint256 :=
  locator_loop (S (size idx)) idx p 1 0 ++ [hashGenesisBlock].

(** [CBlockLocator(hashBlock)] *)
Definition CBlockLocator_of_hash (idx : block_index) (hashGenesisBlock hashBlock : uint256) : list uint256 :=
  match idx !! hashBlock with
  | None => []
  | Some _ => CBlockLocator_Set idx hashGenesisBlock (Some hashBlock)
  end.

Definition in_main (idx : block_index) (best : option uint256) (h : uint256) : bool :=
  match idx !! h with None => false | Some _ => IsInMainChain idx best h end.

Fixpoint first_in_main (idx : block_index) (best : option uint256) (vHave : list uint256) : option uint256 :=
  match vHave with
  | [] => None
  | h :: vHave => if in_main idx best h then Some h else first_in_main idx best vHave
  end.

Definition GetBlockIndex (idx : block_index) (best pindexGenesisBlock : option uint256) (vHave : list uint256) : option uint256 :=
  match first_in_main idx best vHave with Some h => Some h | None => pindexGenesisBlock end.

Definition Locator_GetBlockHash (idx : block_index) (best : option uint256) (hashGenesisBlock : uint256) (vHave : list uint256) : uint256 :=
  match first_in_main idx best vHave with Some h => h | None => hashGenesisBlock end.

Definition Locator_GetHeight (idx : block_index) (best pindexGenesisBlock : option uint256) (vHave : list uint256) : Z :=
  match GetBlockIndex idx best pindexGenesisBlock vHave ≫= (fun h => idx !! h) with
  | None => 0
  | Some nd => nHeight (n_rec nd)
  end.

Fixpoint distance_loop (idx : block_index) (best : option uint256) (vHave : list uint256) (nDistance nStep : Z) : Z :=
  match vHave with
  | [] => nDistance
  | h :: vHave =>
      if in_main idx best h then nDistance
      else
        let nDistance := s32 (nDistance + nStep) in
        distance_loop idx best vHave nDistance (if 10 <? nDistance then s32 (nStep * 2) else nStep)
  end.
Definition GetDistanceBack (idx : block_index) (best : option uint256) (vHave : list uint256) : Z := distance_loop idx best vHave 0 1.

(** ** Trees *)

(** Every pointer leads to a record one lower; a record without one is at height 0. *)
Definition tree_ok (idx : block_index) : Prop := forall (h : uint256) nd, idx !! h = Some nd ->
  bi_hash (n_rec nd) = h /\ 0 <= nHeight (n_rec nd) /\
  match n_pprev nd with
  | None => nHeight (n_rec nd) = 0
  | Some p => exists pd, idx !! p = Some pd /\ nHeight (n_rec nd) = nHeight (n_rec pd) + 1
  end.

(** The ancestors of a block, as a relation. *)
Inductive path_of (idx : block_index) : uint256 -> list uint256 -> Prop :=
| path_root h nd : idx !! h = Some nd -> n_pprev nd = None -> path_of idx h [h]
| path_step h nd p l : idx !! h = Some nd -> n_pprev nd = Some p -> path_of idx p l -> path_of idx h (h :: l).

(** A record without what connecting a block sets, and its place in the tree. *)
Definition skel (nd : node) : CBlockIndex * option uint256 := (set_supply (n_rec nd) 0 0, n_pprev nd).
Record same_tree (a b : block_index) : Prop := mkSame { same_at : forall h : uint256, skel <$> a !! h = skel <$> b !! h }.

Lemma skel_fields a b : skel a = skel b ->
  bi_hash (n_rec a) = bi_hash (n_rec b) /\ nHeight (n_rec a) = nHeight (n_rec b) /\ nChainTrust (n_rec a) = nChainTrust (n_rec b) /\
  bi_nFile (n_rec a) = bi_nFile (n_rec b) /\ bi_nBlockPos (n_rec a) = bi_nBlockPos (n_rec b) /\ n_pprev a = n_pprev b.
Proof. destruct a as [[] ? ?], b as [[] ? ?]. unfold skel, set_supply. cbn. intros H. injection H. intros. subst. done. Qed.

#[export] Instance same_tree_equiv : Equivalence same_tree.
Proof.
  split; [done | intros a b [H]; constructor; by intros h | intros a b c [H1] [H2]; constructor; intros h; by rewrite (H1 h)].
Qed.

Lemma same_tree_some a b h nd : same_tree a b -> a !! h = Some nd -> exists nd', b !! h = Some nd' /\ skel nd' = skel nd.
Proof.
  intros Hs Ha. destruct Hs as [Hs]. specialize (Hs h). rewrite Ha in Hs. cbn in Hs. destruct (b !! h) as [nd'|]; [|done].
  cbn in Hs. exists nd'. split; [done|]. congruence.
Qed.

Lemma same_tree_size a b : same_tree a b -> size a = size b.
Proof.
  intros Hs. rewrite <- !size_dom. f_equal. apply set_eq. intros h. rewrite !elem_of_dom. destruct Hs as [Hs]. specialize (Hs h).
  split; intros [nd E]; rewrite E in Hs; destruct (a !! h), (b !! h); by eauto.
Qed.

#[export] Instance tree_ok_proper : Proper (same_tree ==> iff) tree_ok.
Proof.
  assert (forall a b, same_tree a b -> tree_ok a -> tree_ok b) as H.
  { intros a b Hs Ha h nd Hh. symmetry in Hs. destruct (same_tree_some _ _ _ _ Hs Hh) as (nd' & Hh' & E).
    destruct (Ha h nd' Hh') as (H1 & H2 & H3). apply skel_fields in E as (<- & <- & _ & _ & _ & <-).
    conjs; [done|done|]. case_match; [|done]. destruct H3 as (pd & Hpd & Hh3). symmetry in Hs.
    destruct (same_tree_some _ _ _ _ Hs Hpd) as (pd' & Hpd' & E'). exists pd'. split; [done|]. apply skel_fields in E' as (_ & -> & _). done. }
  intros a b Hs. split; apply H; [done|by symmetry].
Qed.

#[export] Instance path_of_proper : Proper (same_tree ==> eq ==> eq ==> iff) path_of.
Proof.
  assert (forall a b, same_tree a b -> forall h l, path_of a h l -> path_of b h l) as H.
  { intros a b Hs. induction 1 as [h nd Hh E|h nd p l Hh E _ IH]; destruct (same_tree_some _ _ _ _ Hs Hh) as (nd' & Hh' & E');
      apply skel_fields in E' as (_ & _ & _ & _ & _ & E'); [apply (path_root _ _ nd')|apply (path_step _ _ nd' p)]; (done || congruence). }
  intros a b Hs h ? <- l ? <-. split; apply H; [done|by symmetry].
Qed.

Lemma pprev_same a b h : same_tree a b -> pprev a h = pprev b h.
Proof.
  intros Hs. unfold pprev. destruct Hs as [Hs]. specialize (Hs h). destruct (a !! h), (b !! h); cbn in *; try done. apply (inj Some) in Hs. by apply skel_fields in Hs as (_ & _ & _ & _ & _ & ->).
Qed.

Section Tree.
Context (idx : block_index) (Hok : tree_ok idx).

(** The height of a block; 0 for a hash that is not there. *)
Definition height_of (h : uint256) : Z := match idx !! h with Some nd => nHeight (n_rec nd) | None => 0 end.

Lemma height_some h nd : idx !! h = Some nd -> nHeight (n_rec nd) = height_of h.
Proof. unfold height_of. by intros ->. Qed.

Lemma path_of_fun h l l' : path_of idx h l -> path_of idx h l' -> l = l'.
Proof.
  intros H. revert l'. induction H as [h nd Hh E|h nd p l Hh E _ IH]; intros l'; inversion_clear 1; simplify_eq; [done|].
  f_equal. auto.
Qed.

Lemma path_of_head h l : path_of idx h l -> exists l', l = h :: l'.
Proof. destruct 1; eauto. Qed.

Lemma path_of_length h l : path_of idx h l -> Z.of_nat (length l) = height_of h + 1.
Proof.
  induction 1 as [h nd Hh E|h nd p l Hh E Hp IH]; destruct (Hok _ _ Hh) as (_ & H0 & H1); rewrite E in H1; unfold height_of; rewrite Hh.
  - cbn. lia.
  - destruct H1 as (pd & Hpd & ->). rewrite (height_some p pd Hpd). cbn [length]. lia.
Qed.

(** The [i]-th ancestor is [i] lower, and its ancestors are the rest. *)
Lemma path_of_lookup h l i k : path_of idx h l -> l !! i = Some k -> path_of idx k (drop i l) /\ height_of k = height_of h - Z.of_nat i.
Proof.
  intros H. revert i. induction H as [h nd Hh E|h nd p l Hh E Hp IH]; intros [|i] Hi; cbn in Hi; simplify_eq.
  - split; [by eapply path_root|lia].
  - split; [by eapply path_step|lia].
  - destruct (IH i Hi) as [H1 H2]. split; [done|]. rewrite H2. destruct (Hok _ _ Hh) as (_ & _ & H3). rewrite E in H3.
    destruct H3 as (pd & Hpd & H4). rewrite (height_some h nd Hh), (height_some p pd Hpd) in H4. lia.
Qed.

Lemma path_of_elem h l k : path_of idx h l -> k ∈ l -> exists nd, idx !! k = Some nd.
Proof.
  intros H Hk. apply list_elem_of_lookup in Hk as [i Hi]. destruct (path_of_lookup _ _ _ _ H Hi) as [Hp _]. destruct Hp; eauto.
Qed.

Lemma path_of_NoDup h l : path_of idx h l -> NoDup l.
Proof.
  intros H. apply NoDup_alt. intros i j k Hi Hj.
  apply (path_of_lookup _ _ _ _ H) in Hi as [_ Hi]. apply (path_of_lookup _ _ _ _ H) in Hj as [_ Hj]. lia.
Qed.

Lemma path_of_size h l : path_of idx h l -> (length l <= size idx)%nat.
Proof.
  intros H. rewrite <- size_dom, <- (size_list_to_set (C := gset uint256) l) by by eapply path_of_NoDup.
  apply subseteq_size. intros k Hk%elem_of_list_to_set. apply elem_of_dom. eapply path_of_elem in Hk as [nd Hk]; eauto.
Qed.

(** Every block of the tree has a path. *)
Lemma path_of_exists h nd : idx !! h = Some nd -> exists l, path_of idx h l.
Proof.
  remember (Z.to_nat (nHeight (n_rec nd))) as n eqn:En. revert h nd En. induction n as [n IH] using lt_wf_ind. intros h nd En Hh.
  destruct (Hok _ _ Hh) as (_ & H0 & H1). destruct (n_pprev nd) as [p|] eqn:E; [|exists [h]; by eapply path_root].
  destruct H1 as (pd & Hpd & Hht). destruct (Hok _ _ Hpd) as (_ & Hp0 & _).
  destruct (IH (Z.to_nat (nHeight (n_rec pd))) ltac:(lia) p pd eq_refl Hpd) as [l Hl]. exists (h :: l). by eapply path_step.
Qed.

Lemma path_from_eq h l fuel : path_of idx h l -> (length l <= fuel)%nat -> path_from fuel idx (Some h) = l.
Proof.
  intros H. revert fuel. induction H as [h nd Hh E|h nd p l Hh E _ IH]; intros [|fuel] Hf; cbn [length] in Hf; try lia;
    cbn [path_from]; rewrite Hh, E; [by destruct fuel|]. rewrite IH by lia. done.
Qed.

Lemma path_eq h l : path_of idx h l -> path idx h = l.
Proof. intros H. apply path_from_eq; [done|]. apply path_of_size in H. lia. Qed.

Lemma path_of_path h nd : idx !! h = Some nd -> path_of idx h (path idx h).
Proof. intros H. destruct (path_of_exists h nd H) as [l Hl]. by rewrite (path_eq h l Hl). Qed.

(** ** Walking back *)

Lemma trace_back_spec fuel H h l : path_of idx h l -> 0 <= H -> (length l <= S fuel)%nat ->
  exists k, trace_back fuel idx H h = Some k /\ (k ∈ l) /\ height_of k = Z.min H (height_of h).
Proof.
  intros Hp HH. revert fuel. induction Hp as [h nd Hh E|h nd p l Hh E Hp IH]; intros fuel Hf; destruct fuel as [|fuel];
    cbn [trace_back]; rewrite Hh; destruct (Hok _ _ Hh) as (_ & H0 & H1); rewrite E in H1; rewrite ?E.
  1-2: destruct (Z.ltb_spec H (nHeight (n_rec nd))); [lia|]; exists h; conjs; [done|by constructor|];
    rewrite <- (height_some h nd Hh); lia.
  - cbn [length] in Hf. pose proof (path_of_length _ _ Hp). destruct (path_of_head _ _ Hp) as [l' ->]. cbn in Hf. lia.
  - destruct H1 as (pd & Hpd & Hht). rewrite (height_some p pd Hpd) in Hht.
    destruct (Z.ltb_spec H (nHeight (n_rec nd))) as [Hlt|Hge].
    + destruct (IH fuel) as (k & -> & Hk & Hkh); [cbn in Hf; lia|]. exists k. conjs; [done|by right|].
      rewrite (height_some h nd Hh) in *. lia.
    + exists h. conjs; [done|by left|]. rewrite (height_some h nd Hh) in *. lia.
Qed.

Lemma trace_back_path H h l : path_of idx h l -> 0 <= H ->
  exists k, trace_back (size idx) idx H h = Some k /\ (k ∈ l) /\ height_of k = Z.min H (height_of h).
Proof. intros Hp HH. apply trace_back_spec; [done|done|]. apply path_of_size in Hp. lia. Qed.

(** The only ancestor of a height. *)
Lemma path_height_inj h l j k : path_of idx h l -> j ∈ l -> k ∈ l -> height_of j = height_of k -> j = k.
Proof.
  intros Hp [i Hi]%list_elem_of_lookup [i' Hi']%list_elem_of_lookup E.
  pose proof (path_of_lookup _ _ _ _ Hp Hi) as [_ H1]. pose proof (path_of_lookup _ _ _ _ Hp Hi') as [_ H2].
  assert (i = i') as <- by lia. congruence.
Qed.

(** Ancestors of an ancestor. *)
Lemma path_of_sub h l k : path_of idx h l -> k ∈ l -> exists l1 l2, l = l1 ++ l2 /\ path_of idx k l2.
Proof.
  intros Hp [i Hi]%list_elem_of_lookup. destruct (path_of_lookup _ _ _ _ Hp Hi) as [Hk _].
  exists (take i l), (drop i l). by rewrite take_drop.
Qed.

(** ** The fork *)

Lemma path_trans a l k l' m : path_of idx a l -> k ∈ l -> path_of idx k l' -> m ∈ l' -> m ∈ l.
Proof.
  intros Ha Hk Hk' Hm. destruct (path_of_sub _ _ _ Ha Hk) as (l1 & l2 & -> & Hp). rewrite (path_of_fun _ _ _ Hk' Hp) in Hm.
  apply elem_of_app. by right.
Qed.

(** A lower ancestor is an ancestor of a higher one. *)
Lemma path_between a l j k l' : path_of idx a l -> j ∈ l -> k ∈ l -> height_of j <= height_of k -> path_of idx k l' -> j ∈ l'.
Proof.
  intros Ha [i Hi]%list_elem_of_lookup [i' Hi']%list_elem_of_lookup Hle Hk.
  pose proof (path_of_lookup _ _ _ _ Ha Hi) as [_ H1]. pose proof (path_of_lookup _ _ _ _ Ha Hi') as [H2 H3].
  rewrite (path_of_fun _ _ _ Hk H2). apply list_elem_of_lookup. exists (i - i')%nat. rewrite lookup_drop.
  replace (i' + (i - i'))%nat with i by lia. done.
Qed.

Lemma find_fork_spec fuel : forall a b la lb, path_of idx a la -> path_of idx b lb -> (length la <= S fuel)%nat ->
  (exists r, r ∈ la /\ r ∈ lb) ->
  exists f lf, find_fork fuel idx a b = Some f /\ path_of idx f lf /\ (f ∈ la) /\ (f ∈ lb) /\ forall k, k ∈ la -> k ∈ lb -> k ∈ lf.
Proof.
  induction fuel as [|fuel IH]; intros a b la lb Ha Hb Hf Hr; cbn [find_fork]; case_decide as E.
  1, 3: subst; exists b, la; conjs; [done|done| | |done]; [by destruct (path_of_head _ _ Ha) as [? ->]; left|];
        rewrite (path_of_fun _ _ _ Hb Ha); by destruct (path_of_head _ _ Ha) as [? ->]; left.
  all: assert (exists nd, idx !! a = Some nd) as [nd Hnd] by (destruct Ha; eauto); rewrite Hnd;
       destruct (Hok _ _ Hnd) as (_ & H0 & Hpp); destruct (trace_back_path (nHeight (n_rec nd)) b lb Hb H0) as (b' & -> & Hb' & Hh');
       rewrite (height_some a nd Hnd) in *.
  - assert (la = [a]) as ->. { destruct (path_of_head _ _ Ha) as [[|] ->]; [done|cbn in Hf; lia]. }
    destruct Hr as (r & Hra & Hrb). apply list_elem_of_singleton in Hra as ->.
    pose proof (path_of_length _ _ Ha) as Hl. cbn in Hl.
    assert (b' = a) as ->.
    { apply (path_height_inj b lb); [done|done|done|].
      destruct (path_of_sub _ _ _ Hb Hrb) as (l1 & l2 & -> & Hp). pose proof (path_of_length _ _ Hb).
      rewrite (path_of_fun _ _ _ Hp Ha), length_app in *. cbn in *. lia. }
    rewrite decide_True by done. exists a, [a]. conjs; [done|done|by left|done|done].
  - destruct (decide (a = b')) as [<-|Hne].
    + exists a, la. conjs; [done|done|by destruct (path_of_head _ _ Ha) as [? ->]; left|done|done].
    + destruct (n_pprev nd) as [p|] eqn:Ep.
      * inversion Ha as [|? nd' p' l Hh E' Hp]; simplify_eq. destruct (path_of_sub _ _ _ Hb Hb') as (l1 & lb' & -> & Hpb').
        assert (forall r, r ∈ a :: l -> r ∈ l1 ++ lb' -> r ∈ l /\ r ∈ lb') as Hdown.
        { intros r Hra Hrb. assert (height_of r <= height_of a) as Hrl.
          { apply list_elem_of_lookup in Hra as [i Hi]. apply (path_of_lookup _ _ _ _ Ha) in Hi as [_ ->]. lia. }
          assert (height_of r <= height_of b) as Hrl2.
          { apply list_elem_of_lookup in Hrb as [i Hi]. apply (path_of_lookup _ _ _ _ Hb) in Hi as [_ ->]. lia. }
          assert (r ∈ lb') as Hrb'. { eapply (path_between b _ r b'); [done|done|done| |done]. rewrite Hh'. lia. }
          split; [|done]. apply elem_of_cons in Hra as [->|?]; [|done]. exfalso. apply Hne.
          apply (path_height_inj b' lb'); [done|done|by destruct (path_of_head _ _ Hpb') as [? ->]; left|].
          assert (height_of a <= height_of b') as Hq.
          { apply list_elem_of_lookup in Hrb' as [i Hi]. apply (path_of_lookup _ _ _ _ Hpb') in Hi as [_ ->]. lia. }
          lia. }
        destruct Hr as (r & Hra & Hrb). destruct (Hdown r Hra Hrb) as [Hra' Hrb'].
        destruct (IH p b' l lb' Hp Hpb') as (f & lf & -> & Hpf & Hfl & Hfb & Hall); [cbn in Hf; lia|by exists r|].
        exists f, lf. conjs; [done|done|by right|apply elem_of_app; by right|].
        intros k Hka Hkb. destruct (Hdown k Hka Hkb). by apply Hall.
      * exfalso. inversion Ha; simplify_eq. destruct Hr as (r & Hra & Hrb). apply list_elem_of_singleton in Hra as ->.
        apply Hne. symmetry. apply (path_height_inj b lb); [done|done|done|]. rewrite Hh'.
        apply list_elem_of_lookup in Hrb as [i Hi]. apply (path_of_lookup _ _ _ _ Hb) in Hi as [_ Hi]. lia.
Qed.

Lemma branch_path fuel stop h l1 l2 : path_of idx h (l1 ++ l2) -> path_of idx stop l2 -> (length l1 <= fuel)%nat ->
  branch fuel idx stop h = Some l1.
Proof.
  revert h l1. induction fuel as [|fuel IH]; intros h l1 Hp Hs Hf; cbn [branch].
  - destruct l1; [|cbn in Hf; lia]. cbn in Hp. destruct (path_of_head _ _ Hp) as [? ->]. destruct (path_of_head _ _ Hs) as [? [= -> ->]].
    by rewrite decide_True.
  - destruct l1 as [|x l1].
    { cbn in Hp. destruct (path_of_head _ _ Hp) as [? ->]. destruct (path_of_head _ _ Hs) as [? [= -> ->]]. by rewrite decide_True. }
    pose proof (path_of_NoDup _ _ Hp) as Hnd. destruct (path_of_head _ _ Hp) as [? [= <- _]].
    destruct (path_of_head _ _ Hs) as [l2' ->]. rewrite decide_False.
    2: { intros ->. apply NoDup_cons in Hnd as [Hn _]. apply Hn, elem_of_app. right. by left. }
    inversion Hp as [? nd Hh E Hl|? nd p l Hh E Hp']; [by destruct l1|]. simplify_eq.
    unfold pprev. rewrite Hh. cbn. rewrite E. rewrite (IH p l1); [done|done|done|cbn in Hf; lia].
Qed.

(** The common ancestors are the part of the branch from the fork down. *)
Lemma fork_position a h f la lh lf : path_of idx a la -> path_of idx h lh -> path_of idx f lf -> f ∈ la -> f ∈ lh ->
  (forall k, k ∈ la -> k ∈ lh -> k ∈ lf) ->
  exists d, height_of f = height_of h - Z.of_nat d /\ forall i k, lh !! i = Some k -> k ∈ la <-> (d <= i)%nat.
Proof.
  intros Ha Hh Hf Hfa [d Hd]%list_elem_of_lookup Hall. destruct (path_of_lookup _ _ _ _ Hh Hd) as [Hfd Hfheight].
  assert (lf = drop d lh) as -> by (by eapply path_of_fun). exists d. split; [done|]. intros i k Hk. split.
  - intros Hka. specialize (Hall k Hka (list_elem_of_lookup_2 _ _ _ Hk)). apply list_elem_of_lookup in Hall as [j Hj].
    rewrite lookup_drop in Hj. assert (i = d + j)%nat; [|lia]. by eapply NoDup_lookup; [apply (path_of_NoDup _ _ Hh)| |].
  - intros Hle. eapply (path_trans a _ f); [done|done|exact Hf|]. apply list_elem_of_lookup. exists (i - d)%nat.
    rewrite lookup_drop. replace (d + (i - d))%nat with i by lia. done.
Qed.

(** ** The main chain *)

Lemma path_of_pprev h l i k : path_of idx h l -> l !! i = Some k -> pprev idx k = l !! S i.
Proof.
  intros Hp Hi. destruct (path_of_lookup _ _ _ _ Hp Hi) as [Hk _]. rewrite <- (Nat.add_0_r (S i)), <- lookup_drop.
  assert (drop (S i) l = tail (drop i l)) as -> by (rewrite <- Nat.add_1_r, <- drop_drop; by destruct (drop i l)).
  unfold pprev. destruct Hk as [k nd Hh E|k nd p l' Hh E Hp']; rewrite Hh; cbn; [by rewrite E|].
  destruct (path_of_head _ _ Hp') as [? ->]. by rewrite E.
Qed.

(** [pnext] leads along the blocks of [l], and is null elsewhere. *)
Definition linked (l : list uint256) : Prop := forall (h : uint256) nd k, idx !! h = Some nd ->
  n_pnext nd = Some k <-> k ∈ l /\ pprev idx k = Some h.

Section Main.
Context (best : uint256) (l : list uint256) (Hbest : path_of idx best l) (Hlinked : linked l).

Lemma main_chain_iff h nd : idx !! h = Some nd -> IsInMainChain idx (Some best) h = true <-> h ∈ l.
Proof.
  intros Hh. unfold IsInMainChain, pnext. rewrite Hh. cbn. rewrite orb_true_iff, !bool_decide_eq_true. split.
  - intros [[k Hk]|[= ->]]; [|by destruct (path_of_head _ _ Hbest) as [? ->]; left].
    apply (Hlinked h nd k Hh) in Hk as [Hk Hp]. apply list_elem_of_lookup in Hk as [i Hi].
    rewrite (path_of_pprev _ _ _ _ Hbest Hi) in Hp. by eapply list_elem_of_lookup_2.
  - intros [[|i] Hi]%list_elem_of_lookup.
    + right. destruct (path_of_head _ _ Hbest) as [? ->]. cbn in Hi. congruence.
    + left. destruct (lookup_lt_is_Some_2 l i) as [k Hk]; [apply lookup_lt_Some in Hi; lia|]. exists k.
      apply (Hlinked h nd k Hh). split; [by eapply list_elem_of_lookup_2|]. by rewrite (path_of_pprev _ _ _ _ Hbest Hk).
Qed.

Lemma in_main_iff h : in_main idx (Some best) h = true <-> h ∈ l.
Proof.
  unfold in_main. destruct (idx !! h) as [nd|] eqn:E; [by eapply main_chain_iff|]. split; [done|]. intros Hh.
  destruct (path_of_elem _ _ _ Hbest Hh). congruence.
Qed.

Lemma trace_forward_spec fuel H h : h ∈ l -> height_of h <= H <= height_of best -> H - height_of h <= Z.of_nat fuel ->
  exists k, trace_forward fuel idx H h = Some k /\ (k ∈ l) /\ height_of k = H.
Proof.
  revert h. induction fuel as [|fuel IH]; intros h Hh Hr Hf; destruct (path_of_elem _ _ _ Hbest Hh) as [nd Hnd];
    cbn [trace_forward]; rewrite Hnd, (height_some h nd Hnd); destruct (Z.ltb_spec (height_of h) H); try lia;
    try (exists h; conjs; [done|done|lia]).
  apply list_elem_of_lookup in Hh as [[|i] Hi].
  { destruct (path_of_head _ _ Hbest) as [? E]. rewrite E in Hi. cbn in Hi. simplify_eq. lia. }
  destruct (lookup_lt_is_Some_2 l i) as [k Hk]; [apply lookup_lt_Some in Hi; lia|].
  assert (n_pnext nd = Some k) as ->.
  { apply (Hlinked h nd k Hnd). split; [by eapply list_elem_of_lookup_2|]. by rewrite (path_of_pprev _ _ _ _ Hbest Hk). }
  pose proof (path_of_lookup _ _ _ _ Hbest Hi) as [_ H1]. pose proof (path_of_lookup _ _ _ _ Hbest Hk) as [_ H2].
  apply IH; [by eapply list_elem_of_lookup_2|lia|lia].
Qed.

Lemma FindBlockByHeight_spec genesis last H : genesis ∈ l -> (forall k, last = Some k -> k ∈ l) -> 0 <= H <= height_of best ->
  exists k, FindBlockByHeight idx genesis best (height_of best) last H = Some k /\ (k ∈ l) /\ height_of k = H.
Proof.
  intros Hg Hlast HH. unfold FindBlockByHeight. set (start := if _ <? _ then genesis else best).
  assert (start ∈ l) as Hs. { unfold start. case_match; [done|]. by destruct (path_of_head _ _ Hbest) as [? ->]; left. }
  destruct (path_of_elem _ _ _ Hbest Hs) as [nd ->]. lazymatch goal with |- context [trace_back _ _ _ ?x] => set (from := x) end.
  assert (from ∈ l) as Hf. { unfold from. destruct last as [k|]; cbn; [|done]. destruct (idx !! k); [|done]. case_match; auto. }
  destruct (path_of_sub _ _ _ Hbest Hf) as (l1 & l2 & El & Hp).
  destruct (trace_back_path H from l2 Hp ltac:(lia)) as (k & -> & Hk & Hkh).
  assert (k ∈ l) as Hkl by (rewrite El; apply elem_of_app; by right).
  apply trace_forward_spec; [done|lia|].
  pose proof (path_of_size _ _ Hbest). pose proof (path_of_length _ _ Hbest). pose proof (path_of_length _ _ Hp).
  destruct (path_of_head _ _ Hp) as [? ->]. cbn [length] in *. lia.
Qed.

(** ** Locators *)

Lemma step_back_spec h lh i n : path_of idx h lh -> step_back idx n (lh !! i) = lh !! (i + n)%nat.
Proof.
  intros Hp. revert i. induction n as [|n IH]; intros i; cbn [step_back]; [by rewrite Nat.add_0_r; destruct (lh !! i)|].
  destruct (lh !! i) as [k|] eqn:E.
  - rewrite (path_of_pprev _ _ _ _ Hp E), IH. f_equal. lia.
  - symmetry. apply lookup_ge_None. apply lookup_ge_None in E. lia.
Qed.

Lemma first_in_main_app v w : first_in_main idx (Some best) (v ++ w) =
  match first_in_main idx (Some best) v with Some k => Some k | None => first_in_main idx (Some best) w end.
Proof. induction v as [|x v IH]; cbn [app first_in_main]; [done|]. by destruct (in_main idx (Some best) x). Qed.

(** The position, step and size at each turn: steps of one to the tenth entry, then
    doubling ones. *)
Definition turn_ok (i : nat) (s m : Z) : Prop := (0 <= m <= 10 /\ Z.of_nat i = m /\ s = 1) \/ (10 <= m /\ s = 2 ^ (m - 10) /\ Z.of_nat i = 9 + s).

Lemma turn_next i s m : turn_ok i s m -> Z.of_nat i < 2 ^ 30 ->
  turn_ok (i + Z.to_nat s) (if 10 <? m + 1 then s32 (s * 2) else s) (m + 1) /\ 1 <= s <= Z.max 1 (Z.of_nat i).
Proof.
  intros [(Hm & Hi & ->)|(Hm & -> & Hi)] Hlt.
  - split; [|lia]. destruct (Z.ltb_spec 10 (m + 1)).
    + right. replace m with 10 in * by lia. rewrite s32_small by lia. conjs; [lia|done|]. cbn. lia.
    + left. lia.
  - assert (0 < 2 ^ (m - 10)) by (apply Z.pow_pos_nonneg; lia). rewrite (proj2 (Z.ltb_lt 10 (m + 1))) by lia.
    rewrite s32_small by lia. split; [|lia]. right. replace (m + 1 - 10) with (Z.succ (m - 10)) by lia. rewrite Z.pow_succ_r by lia. lia.
Qed.

Section Locate.
Context (h : uint256) (lh : list uint256) (Hh : path_of idx h lh) (Hsmall : height_of h < 2 ^ 30).
(** The blocks of the branch that are in the main chain begin [d] below its end. *)
Context (d : nat) (Hd : forall i k, lh !! i = Some k -> k ∈ l <-> (d <= i)%nat).

Lemma locator_find fuel : forall i s m, turn_ok i s m -> (i <= 2 * d)%nat -> (length lh - i < fuel)%nat ->
  (exists j k, lh !! j = Some k /\ (d <= j <= 2 * d)%nat /\ first_in_main idx (Some best) (locator_loop fuel idx (lh !! i) s m) = Some k) \/
  (first_in_main idx (Some best) (locator_loop fuel idx (lh !! i) s m) = None /\ (length lh <= 2 * d)%nat).
Proof.
  pose proof (path_of_length _ _ Hh) as Hlen.
  induction fuel as [|fuel IH]; intros i s m Ht Hi Hf; [lia|]. cbn [locator_loop].
  destruct (lh !! i) as [k|] eqn:E; [|right; split; [done|]; apply lookup_ge_None in E; lia].
  pose proof (lookup_lt_Some _ _ _ E). cbn [first_in_main]. destruct (in_main idx (Some best) k) eqn:Em.
  - left. exists i, k. apply in_main_iff in Em. apply (Hd _ _ E) in Em. split; [done|split; [lia|done]].
  - assert (i < d)%nat as Hid.
    { apply Nat.nle_gt. intros Hle. apply (Hd _ _ E), in_main_iff in Hle. congruence. }
    destruct (turn_next _ _ _ Ht ltac:(lia)) as [Ht' Hs]. rewrite <- E, (step_back_spec _ _ _ _ Hh). apply IH; [done|lia|lia].
Qed.

Lemma locator_length fuel : forall i s m, turn_ok i s m -> Z.of_nat i <= 20 + 2 * height_of h ->
  Z.of_nat (length (locator_loop fuel idx (lh !! i) s m)) + m <= Z.max m (11 + Z.log2 (height_of h + 1)).
Proof.
  pose proof (path_of_length _ _ Hh) as Hlen. intros i s m. revert i s m.
  induction fuel as [|fuel IH]; intros i s m Ht Hi; cbn [locator_loop]; [cbn; lia|].
  destruct (lh !! i) as [k|] eqn:E; [|cbn; lia]. pose proof (lookup_lt_Some _ _ _ E) as Hl. cbn [length].
  destruct (turn_next _ _ _ Ht ltac:(lia)) as [Ht' Hs]. rewrite <- E, (step_back_spec _ _ _ _ Hh).
  specialize (IH _ _ _ Ht' ltac:(lia)). assert (m <= 10 + Z.log2 (height_of h + 1)); [|lia].
  assert (0 <= Z.log2 (height_of h + 1)) by apply Z.log2_nonneg.
  destruct Ht as [(? & _ & _)|(? & -> & ?)]; [lia|]. assert (m - 10 <= Z.log2 (height_of h + 1)); [|lia].
  apply Z.log2_le_pow2; lia.
Qed.
End Locate.
End Main.
End Tree.

(** ** Properties *)

(** The fork.  For two blocks with a common ancestor the loop of [Reorganize]
    ends at their last one: it is an ancestor of both, and every common ancestor is
    one of its own. *)
Theorem fork_is_last_common (idx : block_index) (a b r : uint256) :
  tree_ok idx -> is_Some (idx !! a) -> is_Some (idx !! b) -> r ∈ path idx a -> r ∈ path idx b ->
  exists f, find_fork (size idx) idx a b = Some f /\ (f ∈ path idx a) /\ (f ∈ path idx b) /\
    forall k, k ∈ path idx a -> k ∈ path idx b -> k ∈ path idx f.
Proof.
  intros Hok [na Ha] [nb Hb] Hra Hrb. apply (path_of_path idx Hok) in Ha as Hpa, Hb as Hpb.
  destruct (find_fork_spec idx Hok (size idx) a b _ _ Hpa Hpb) as (f & lf & E & Hf & Hfa & Hfb & Hall); [|by exists r|].
  - pose proof (path_of_size idx Hok _ _ Hpa). lia.
  - exists f. rewrite (path_eq idx Hok _ _ Hf). done.
Qed.

(** [FindBlockByHeight] returns, for every height up to the best one, the block
    of the main chain there, whatever block of the main chain it started from last. *)
Theorem find_by_height_exact (idx : block_index) (best genesis : uint256) (last : option uint256) (H : Z) :
  tree_ok idx -> is_Some (idx !! best) -> linked idx (path idx best) -> genesis ∈ path idx best ->
  (forall k, last = Some k -> k ∈ path idx best) -> 0 <= H <= height_of idx best ->
  exists k, FindBlockByHeight idx genesis best (height_of idx best) last H = Some k /\ height_of idx k = H /\
    IsInMainChain idx (Some best) k = true.
Proof.
  intros Hok [nd Hb] Hl Hg Hlast HH. apply (path_of_path idx Hok) in Hb as Hp.
  destruct (FindBlockByHeight_spec idx Hok best _ Hp Hl genesis last H Hg Hlast HH) as (k & E & Hk & Hh).
  exists k. conjs; [done|done|]. destruct (path_of_elem idx Hok _ _ _ Hp Hk) as [nk Hnk].
  by apply (main_chain_iff idx Hok best _ Hp Hl k nk Hnk).
Qed.

(** Locators.  From the locator of any block another node finds, in a main
    chain that shares its beginning, a block of both chains no more than twice as far
    back as their fork, and the locator has at most 12 entries and one for each
    doubling of the height. *)
Theorem locator_finds_trunk (idx : block_index) (best h g : uint256) :
  tree_ok idx -> is_Some (idx !! best) -> is_Some (idx !! h) -> linked idx (path idx best) ->
  g ∈ path idx best -> g ∈ path idx h -> height_of idx h < 2 ^ 30 ->
  exists f k, find_fork (size idx) idx best h = Some f /\
    GetBlockIndex idx (Some best) (Some g) (CBlockLocator_Set idx g (Some h)) = Some k /\
    (k ∈ path idx h) /\ IsInMainChain idx (Some best) k = true /\
    height_of idx h - height_of idx k <= 2 * (height_of idx h - height_of idx f) /\
    Z.of_nat (length (CBlockLocator_Set idx g (Some h))) <= 12 + Z.log2 (height_of idx h + 1).
Proof.
  intros Hok [nb Hb] [nh Hh] Hl Hgb Hgh Hsmall. apply (path_of_path idx Hok) in Hb as Hpb, Hh as Hph.
  destruct (find_fork_spec idx Hok (size idx) best h _ _ Hpb Hph) as (f & lf & Ef & Hf & Hfb & Hfh & Hall).
  { pose proof (path_of_size idx Hok _ _ Hpb). lia. }
  { by exists g. }
  destruct (fork_position idx Hok best h f _ _ lf Hpb Hph Hf Hfb Hfh Hall) as (d & Hfheight & Hmain).
  assert (path idx h !! 0%nat = Some h) as H0 by (destruct (path_of_head idx _ _ Hph) as [? ->]; done).
  assert (turn_ok 0 1 0) as Ht by (left; lia). pose proof (path_of_length idx Hok _ _ Hph) as Hlen.
  pose proof (path_of_size idx Hok _ _ Hph) as Hsz.
  pose proof (locator_length idx Hok h _ Hph Hsmall (S (size idx)) 0 1 0 Ht ltac:(lia)) as Hll. rewrite H0 in Hll.
  assert (Z.of_nat (length (CBlockLocator_Set idx g (Some h))) <= 12 + Z.log2 (height_of idx h + 1)) as Hlength.
  { unfold CBlockLocator_Set. rewrite length_app. cbn [length]. pose proof (Z.log2_nonneg (height_of idx h + 1)). lia. }
  unfold GetBlockIndex, CBlockLocator_Set at 1. rewrite first_in_main_app.
  destruct (locator_find idx Hok best _ Hpb Hl h _ Hph Hsmall d Hmain (S (size idx)) 0 1 0 Ht ltac:(lia) ltac:(lia))
    as [(j & k & Hj & Hjd & E)|[E Hdeep]]; rewrite H0 in E; rewrite E; exists f.
  - exists k. destruct (path_of_lookup idx Hok _ _ _ _ Hph Hj) as [_ Hkh]. destruct (path_of_elem idx Hok _ _ k Hph) as [nk Hnk];
      [by eapply list_elem_of_lookup_2|].
    conjs; [done|done|by eapply list_elem_of_lookup_2| |lia|done].
    apply (main_chain_iff idx Hok best _ Hpb Hl k nk Hnk). apply (Hmain _ _ Hj). lia.
  - cbn [first_in_main]. rewrite (proj2 (in_main_iff idx Hok best _ Hpb Hl g) Hgb). exists g. destruct (path_of_elem idx Hok _ _ g Hph Hgh) as [ng Hng].
    destruct (Hok _ _ Hng) as (_ & Hg0 & _). rewrite (height_some idx g ng Hng) in Hg0.
    conjs; [done|done|done| |lia|done]. by apply (main_chain_iff idx Hok best _ Hpb Hl g ng Hng).
Qed.

(** ** A small tree *)

(** Checkers for concrete trees. *)
Definition node_okb (idx : block_index) (e : uint256 * node) : bool :=
  bool_decide (bi_hash (n_rec (snd e)) = fst e) && (0 <=? nHeight (n_rec (snd e))) &&
  match n_pprev (snd e) with
  | None => nHeight (n_rec (snd e)) =? 0
  | Some p => match idx !! p with None => false | Some pd => nHeight (n_rec (snd e)) =? nHeight (n_rec pd) + 1 end
  end.
Definition tree_okb (idx : block_index) : bool := forallb (node_okb idx) (map_to_list idx).

Lemma tree_okb_ok idx : tree_okb idx = true -> tree_ok idx.
Proof.
  intros H h nd Hh. unfold tree_okb in H. rewrite forallb_forall in H. apply elem_of_map_to_list, list_elem_of_In, H in Hh.
  unfold node_okb in Hh. cbn in Hh. bprop. conjs; [done|done|]. destruct (n_pprev nd) as [p|]; [|by bprop].
  destruct (idx !! p) as [pd|]; [|done]. bprop. by exists pd.
Qed.

Definition linkedb (idx : block_index) (l : list uint256) : bool :=
  forallb (fun e => match n_pnext (snd e) with None => true | Some k => bool_decide (k ∈ l) && bool_decide (pprev idx k = Some (fst e)) end &&
    forallb (fun k => negb (bool_decide (pprev idx k = Some (fst e))) || bool_decide (n_pnext (snd e) = Some k)) l) (map_to_list idx).

Lemma linkedb_ok idx l : linkedb idx l = true -> linked idx l.
Proof.
  intros H h nd k Hh. unfold linkedb in H. rewrite forallb_forall in H. apply elem_of_map_to_list, list_elem_of_In, H in Hh.
  cbn in Hh. bprop. split.
  - intros E. rewrite E in *. bprop. done.
  - intros [Hk Hp]. rename select (forallb _ _ = true) into Hall. rewrite forallb_forall in Hall.
    apply list_elem_of_In, Hall in Hk. bprop. destruct Hk; bprop; done.
Qed.

(** Blocks 0 to 3 are the main chain; 12 and 13 branch off after 1. *)
Definition tr_hash (n : Z) : uint256 := replicate 8 n.
Definition tr_rec (n height trust : Z) : CBlockIndex :=
  mkBlockIndex (tr_hash n) 1 n (digits (2 ^ 32) 8 trust) height 0 0 (if n =? 0 then 4 else 0) 0 0 COutPoint_null 0 (uint_zero 8) 6 (uint_zero 8) 0 0 0.
Definition tr_node (n height trust : Z) (prev next : option Z) : uint256 * node :=
  (tr_hash n, mkNode (tr_rec n height trust) (tr_hash <$> prev) (tr_hash <$> next)).
Definition tr_tree : block_index := list_to_map
  [tr_node 0 0 1 None (Some 1); tr_node 1 1 2 (Some 0) (Some 2); tr_node 2 2 3 (Some 1) (Some 3); tr_node 3 3 4 (Some 2) None;
   tr_node 12 2 4 (Some 1) None; tr_node 13 3 7 (Some 12) None].

Lemma tr_tree_ok : tree_ok tr_tree.
Proof. apply tree_okb_ok. vm_compute. reflexivity. Qed.

Lemma tr_linked : linked tr_tree (path tr_tree (tr_hash 3)).
Proof. apply linkedb_ok. vm_compute. reflexivity. Qed.

(** Decides that a hash is on a path, and that a map has an entry. *)
Ltac on_path := apply (bool_decide_unpack _); vm_compute; exact I.
Ltac has_entry := eexists; vm_compute; reflexivity.

Lemma fork_is_last_common_witness : exists f, find_fork (size tr_tree) tr_tree (tr_hash 3) (tr_hash 13) = Some f.
Proof.
  destruct (fork_is_last_common tr_tree (tr_hash 3) (tr_hash 13) (tr_hash 0)) as (f & E & _);
    [exact tr_tree_ok | has_entry | has_entry | on_path | on_path |]. exists f. exact E.
Defined.

Lemma find_by_height_exact_witness : exists k, FindBlockByHeight tr_tree (tr_hash 0) (tr_hash 3) 3 (Some (tr_hash 2)) 1 = Some k.
Proof.
  destruct (find_by_height_exact tr_tree (tr_hash 3) (tr_hash 0) (Some (tr_hash 2)) 1) as (k & E & _);
    [exact tr_tree_ok | has_entry | exact tr_linked | on_path | intros k [= <-]; on_path | vm_compute; split; discriminate |].
  exists k. exact E.
Defined.

Lemma locator_finds_trunk_witness :
  exists k, GetBlockIndex tr_tree (Some (tr_hash 3)) (Some (tr_hash 0)) (CBlockLocator_Set tr_tree (tr_hash 0) (Some (tr_hash 13))) = Some k.
Proof.
  destruct (locator_finds_trunk tr_tree (tr_hash 3) (tr_hash 13) (tr_hash 0)) as (f & k & _ & E & _);
    [exact tr_tree_ok | has_entry | has_entry | exact tr_linked | on_path | on_path | vm_compute; reflexivity |].
  exists k. exact E.
Defined.
