(* ===== verification/BestChain.v ===== *)
(** * Following the best chain (main.cpp)

    [SetBestChain] and [Reorganize]: how a node moves to a chain with more trust.  The
    state is the tree of records with its pointers, the database and the memory
    pool.  Connecting a block and the pool's operations come through the interfaces
    [LedgerOps] and [PoolOps], which [Ledger] and [Mempool] implement at the end of
    [BestChainFacts].  The database is a transactional store: what a
    transaction wrote is dropped unless it is committed. *)

From S2P Require Import Prelude Uint256 Serialize BigNum Tx Merkle Script Interp Standard Consensus Ledger BlockTree.

(** [V] is the database's content, [E] what connecting leaves outside it (the
    signature cache, calls of the wallets). *)
Class LedgerOps (V E : Type) := {
  (** [ConnectBlock]: [pindexBest->nHeight], the block's record and ancestors, the
      hash of its [pnext], the block; returns the record with its mint and supply. *)
  lg_connect : Z -> list CBlockIndex -> uint256 -> CBlock -> V -> E -> res (CBlockIndex * V * E);
  (** [DisconnectBlock] *)
  lg_disconnect : list CBlockIndex -> CBlock -> V -> E -> option (V * E);
  (** The transaction index, and writing records of the block index. *)
  lg_txindex : V -> txindex_map;
  lg_write_index : list CDiskBlockIndex -> V -> V;
}.

(** [None] when a call throws or follows a dangling pointer. *)
Class PoolOps (P : Type) := {
  (** [AcceptToMemoryPool(txdb, false)], the result ignored *)
  tp_accept : CTransaction -> P -> option P;
  tp_remove : CTransaction -> P -> option P;
  tp_removeConflicts : CTransaction -> P -> option P;
  (** [nTransactionsUpdated++] *)
  tp_updated : P -> P;
}.

Section BestChain.
Context `{HD : Digests} `{BN : OpenSSL_BN} {V E P : Type} {LO : LedgerOps V E} {PO : PoolOps P}.
Context (params : chain_params) (hashGenesisBlock : uint256).
(** The block at a file and position, and whether a commit succeeds. *)
Context (ReadBlockFile : Z -> Z -> option CBlock).

(** The transactions and records of the connected blocks, and [hashBestChain]. *)
Record db := mkDb { db_ledger : V; db_hashBestChain : uint256 }.
Context (TxnCommit : db -> bool).

Record chain_state := mkState {
  mapBlockIndex : block_index; pindexGenesisBlock : option uint256; pindexBest : option uint256;
  hashBestChain : uint256; nBestHeight : Z; nBestChainTrust : uint256; nBestInvalidTrust : uint256;
  pblockindexFBBHLast : option uint256; txdb : db; mempool : P; outside : E;
}.

Definition set_index (i : block_index) (s : chain_state) : chain_state :=
  mkState i (pindexGenesisBlock s) (pindexBest s) (hashBestChain s) (nBestHeight s) (nBestChainTrust s) (nBestInvalidTrust s)
    (pblockindexFBBHLast s) (txdb s) (mempool s) (outside s).
Definition set_outside (e : E) (s : chain_state) : chain_state :=
  mkState (mapBlockIndex s) (pindexGenesisBlock s) (pindexBest s) (hashBestChain s) (nBestHeight s) (nBestChainTrust s)
    (nBestInvalidTrust s) (pblockindexFBBHLast s) (txdb s) (mempool s) e.
Definition set_txdb (d : db) (s : chain_state) : chain_state :=
  mkState (mapBlockIndex s) (pindexGenesisBlock s) (pindexBest s) (hashBestChain s) (nBestHeight s) (nBestChainTrust s)
    (nBestInvalidTrust s) (pblockindexFBBHLast s) d (mempool s) (outside s).
Definition set_mempool (p : P) (s : chain_state) : chain_state :=
  mkState (mapBlockIndex s) (pindexGenesisBlock s) (pindexBest s) (hashBestChain s) (nBestHeight s) (nBestChainTrust s)
    (nBestInvalidTrust s) (pblockindexFBBHLast s) (txdb s) p (outside s).
Definition set_genesis (h : uint256) (s : chain_state) : chain_state :=
  mkState (mapBlockIndex s) (Some h) (pindexBest s) (hashBestChain s) (nBestHeight s) (nBestChainTrust s)
    (nBestInvalidTrust s) (pblockindexFBBHLast s) (txdb s) (mempool s) (outside s).

(** [CBlock::ReadFromDisk(pindex)] with the transactions *)
Definition ReadFromDisk (pindex : CBlockIndex) : option CBlock :=
  match ReadBlockFile (bi_nFile pindex) (bi_nBlockPos pindex) with
  | None => None
  | Some b =>
      if (IsProofOfWork b && negb (CheckProofOfWork params (CBlockHeader_GetHash (header b)) (nBits (header b))))%bool then None
      else if decide (CBlockHeader_GetHash (header b) = bi_hash pindex) then Some b else None
  end.

Definition read_block (idx : block_index) (h : uint256) : option CBlock := idx !! h ≫= (fun nd => ReadFromDisk (n_rec nd)).

Definition trust_of (idx : block_index) (h : uint256) : uint256 :=
  match idx !! h with Some nd => nChainTrust (n_rec nd) | None => uint_zero 8 end.

(** Only the record of the greatest trust is kept, the rest is logging. *)
Definition InvalidChainFound (h : uint256) (s : chain_state) : chain_state :=
  if op_gt (trust_of (mapBlockIndex s) h) (nBestInvalidTrust s) then
    mkState (mapBlockIndex s) (pindexGenesisBlock s) (pindexBest s) (hashBestChain s) (nBestHeight s) (nBestChainTrust s)
      (trust_of (mapBlockIndex s) h) (pblockindexFBBHLast s) (txdb s) (mempool s) (outside s)
  else s.

Definition set_rec (b : CBlockIndex) (idx : block_index) : block_index :=
  alter (fun nd => mkNode b (n_pprev nd) (n_pnext nd)) (bi_hash b) idx.
Definition set_pnext (h : uint256) (v : option uint256) (idx : block_index) : block_index :=
  alter (fun nd => mkNode (n_rec nd) (n_pprev nd) v) h idx.
Definition hash_next (idx : block_index) (h : uint256) : uint256 := match pnext idx h with Some k => k | None => uint_zero 8 end.

Fixpoint for_each (f : CTransaction -> P -> option P) (txs : list CTransaction) (p : P) : option P :=
  match txs with
  | [] => Some p
  | tx :: txs => match f tx p with None => None | Some p => for_each f txs p end
  end.

(** ** Reorganize *)

(** The blocks to disconnect, with the transactions to resurrect. *)
Fixpoint disconnect_all (idx : block_index) (hs : list uint256) (v : V) (e : E) (vResurrect : list CTransaction)
    : option (V * list CTransaction) * E :=
  match hs with
  | [] => (Some (v, vResurrect), e)
  | h :: hs =>
      match read_block idx h with
      | None => (None, e)
      | Some block =>
          match lg_disconnect (chain_of idx h) block v e with
          | None => (None, e)
          | Some (v, e) =>
              disconnect_all idx hs v e
                (vResurrect ++ filter (fun tx => negb (IsCoinBase tx || IsCoinStake tx)%bool = true) (vtx block))
          end
      end
  end.

(** The blocks to connect, with the transactions to delete from the pool. *)
Fixpoint connect_all (nHeightBest : Z) (idx : block_index) (hs : list uint256) (v : V) (e : E) (vDelete : list CTransaction)
    : res (V * list CTransaction) * block_index * E :=
  match hs with
  | [] => (Ok (v, vDelete), idx, e)
  | h :: hs =>
      match read_block idx h with
      | None => (Fail 0, idx, e)
      | Some block =>
          match lg_connect nHeightBest (chain_of idx h) (hash_next idx h) block v e with
          | Fail n => (Fail n, idx, e)
          | Throw => (Throw, idx, e)
          | Ok (bi, v, e) => connect_all nHeightBest (set_rec bi idx) hs v e (vDelete ++ vtx block)
          end
      end
  end.

(** [pindex->pprev->pnext = NULL] where there is a [pprev]. *)
Definition unlink (idx : block_index) (h : uint256) : block_index :=
  match pprev idx h with Some p => set_pnext p None idx | None => idx end.
Definition link (idx : block_index) (h : uint256) : block_index :=
  match pprev idx h with Some p => set_pnext p (Some h) idx | None => idx end.

(** Removal from the pool, also of conflicts. *)
Definition delete_tx (tx : CTransaction) (p : P) : option P :=
  match tp_remove tx p with None => None | Some p => tp_removeConflicts tx p end.

(** [Ok tt] when it returns true, [Fail] when it returns false, [Throw] when a call
    throws or a null pointer is followed. *)
Definition Reorganize (hNew : uint256) (s : chain_state) : res unit * chain_state :=
  let idx := mapBlockIndex s in
  match pindexBest s with
  | None => (Throw, s)
  | Some best =>
      match find_fork (size idx) idx best hNew with
      | None => (Fail 0, s)
      | Some pfork =>
          match branch (size idx) idx pfork best, branch (size idx) idx pfork hNew with
          | Some vDisconnect, Some vNew =>
              let vConnect := reverse vNew in
              match disconnect_all idx vDisconnect (db_ledger (txdb s)) (outside s) [] with
              | (None, e) => (Fail 0, set_outside e s)
              | (Some (v, vResurrect), e) =>
                  let '(r, idx, e) := connect_all (height_of idx best) idx vConnect v e [] in
                  let s := set_outside e (set_index idx s) in
                  match r with
                  | Fail _ => (Fail 0, s)
                  | Throw => (Throw, s)
                  | Ok (v, vDelete) =>
                      let d := mkDb v hNew in
                      if negb (TxnCommit d) then (Fail 0, s)
                      else
                        let idx := fold_left link vConnect (fold_left unlink vDisconnect idx) in
                        let s := set_txdb d (set_index idx s) in
                        match for_each tp_accept vResurrect (mempool s) with
                        | None => (Throw, s)
                        | Some p =>
                            match for_each delete_tx vDelete p with
                            | None => (Throw, s)
                            | Some p => (Ok (), set_mempool p s)
                            end
                        end
                  end
              end
          | _, _ => (Throw, s)
          end
      end
  end.

(** ** SetBestChain *)

Definition SetBestChainInner (block : CBlock) (hNew : uint256) (s : chain_state) : res unit * chain_state :=
  let idx := mapBlockIndex s in
  match pindexBest s with
  | None => (Throw, s)
  | Some best =>
      match lg_connect (height_of idx best) (chain_of idx hNew) (hash_next idx hNew) block (db_ledger (txdb s)) (outside s) with
      | Throw => (Throw, s)
      | Fail _ => (Fail 0, InvalidChainFound hNew s)
      | Ok (bi, v, e) =>
          let s := set_outside e (set_index (set_rec bi idx) s) in
          let d := mkDb v (CBlockHeader_GetHash (header block)) in
          if negb (TxnCommit d) then (Fail 0, s)
          else
            match pprev idx hNew with
            | None => (Throw, set_txdb d s)
            | Some p =>
                let s := set_txdb d (set_index (set_pnext p (Some hNew) (mapBlockIndex s)) s) in
                match for_each tp_remove (vtx block) (mempool s) with
                | None => (Throw, s)
                | Some p => (Ok (), set_mempool p s)
                end
            end
      end
  end.

(** The first block that has more trust than the best one, and the blocks after it,
    latest first. *)
Fixpoint postpone (fuel : nat) (idx : block_index) (nTrust : uint256) (h : uint256) : uint256 * list uint256 :=
  match fuel, pprev idx h with
  | S fuel, Some p =>
      if op_gt (trust_of idx p) nTrust then
        let '(pindexIntermediate, vpindexSecondary) := postpone fuel idx nTrust p in
        (pindexIntermediate, h :: vpindexSecondary)
      else (h, [])
  | _, _ => (h, [])
  end.

(** The postponed blocks: the loop stops at the first that fails. *)
Fixpoint connect_further (hs : list uint256) (s : chain_state) : res unit * chain_state :=
  match hs with
  | [] => (Ok (), s)
  | h :: hs =>
      match read_block (mapBlockIndex s) h with
      | None => (Ok (), s)
      | Some block =>
          match SetBestChainInner block h s with
          | (Ok _, s) => connect_further hs s
          | (Fail _, s) => (Ok (), s)
          | (Throw, s) => (Throw, s)
          end
      end
  end.

(** "New best block" *)
Definition set_best (hash hNew : uint256) (s : chain_state) : chain_state :=
  let idx := mapBlockIndex s in
  mkState idx (pindexGenesisBlock s) (Some hNew) hash (height_of idx hNew) (trust_of idx hNew) (nBestInvalidTrust s)
    None (txdb s) (tp_updated (mempool s)) (outside s).

(** The part before the new best block is recorded. *)
Definition move_chain (block : CBlock) (hNew : uint256) (s : chain_state) : res unit * chain_state :=
  let hash := CBlockHeader_GetHash (header block) in
  if (bool_decide (pindexGenesisBlock s = None) && bool_decide (hash = hashGenesisBlock))%bool then
    let d := mkDb (db_ledger (txdb s)) hash in
    if negb (TxnCommit d) then (Fail 0, s) else (Ok (), set_genesis hNew (set_txdb d s))
  else if decide (hashPrevBlock (header block) = hashBestChain s) then SetBestChainInner block hNew s
  else
    match pindexBest s with
    | None => (Throw, s)
    | Some best =>
        let '(pindexIntermediate, vpindexSecondary) :=
          postpone (size (mapBlockIndex s)) (mapBlockIndex s) (trust_of (mapBlockIndex s) best) hNew in
        match Reorganize pindexIntermediate s with
        | (Throw, s) => (Throw, s)
        | (Fail _, s) => (Fail 0, InvalidChainFound hNew s)
        | (Ok _, s) => connect_further (reverse vpindexSecondary) s
        end
    end.

(** The time of the best block, the locator for the wallets and the notifications
    are left out. *)
Definition SetBestChain (block : CBlock) (hNew : uint256) (s : chain_state) : res unit * chain_state :=
  match move_chain block hNew s with
  | (Ok _, s) => (Ok (), set_best (CBlockHeader_GetHash (header block)) hNew s)
  | r => r
  end.
End BestChain.

Arguments mkDb {V} _ _.
Arguments mkState {V E P} _ _ _ _ _ _ _ _ _ _ _.
