(* ===== verification/BestChainFacts.v ===== *)
(** * Theorems on following the best chain

    The promises of the ledger and of the pool ([LedgerOps_ok], [PoolOps_ok]), the
    invariant of the chain state, and that [Reorganize] and [SetBestChain] keep it.
    At the end the components that implement the interfaces. *)

From S2P Require Import Prelude Uint256 Serialize BigNum Tx Merkle Script Interp InterpRun Standard Consensus Ledger Mempool MempoolFacts BlockTree BestChain.

(** ** What the ledger and the pool promise *)

(** Disconnecting a block undoes connecting it, as far as the view goes, when the
    block was fresh (its transaction ids were new); connecting changes only the mint
    and supply of its record. *)
Class LedgerOps_ok {V E : Type} (LO : LedgerOps V E) (T : Type) := {
  lg_view : V -> T;
  lg_fresh : list CBlockIndex -> CBlock -> T -> Prop;
  lg_connect_rec : forall n bi c hn b v e bi' v' e', lg_connect n (bi :: c) hn b v e = Ok (bi', v', e') ->
    exists mint supply, bi' = set_supply bi mint supply;
  lg_undo : forall n bi c hn b v e bi' v' e', lg_connect n (bi :: c) hn b v e = Ok (bi', v', e') -> lg_fresh (bi :: c) b (lg_view v) ->
    forall c' v2 e2, lg_view v2 = lg_view v' -> exists v3 e3, lg_disconnect c' b v2 e2 = Some (v3, e3) /\ lg_view v3 = lg_view v;
  lg_write_view : forall ds v, lg_view (lg_write_index ds v) = lg_view v;
}.

(** On a consistent pool and transactions that fit it the operations return and
    keep it consistent; after deleting a transaction the pool is free of it and of its
    conflicts, and stays so. *)
Class PoolOps_ok {P : Type} (PO : PoolOps P) := {
  tp_ok : P -> Prop;
  tp_fits : CTransaction -> Prop;
  tp_free : CTransaction -> P -> Prop;
  tp_accept_ok : forall tx p, tp_ok p -> tp_fits tx -> exists p', tp_accept tx p = Some p' /\ tp_ok p';
  tp_remove_ok : forall tx p, tp_ok p -> tp_fits tx -> exists p', tp_remove tx p = Some p' /\ tp_ok p';
  tp_delete_ok : forall tx p, tp_ok p -> tp_fits tx -> exists p', delete_tx tx p = Some p' /\ tp_ok p' /\ tp_free tx p' /\
    forall tx', tp_free tx' p -> tp_free tx' p';
  tp_updated_ok : forall p, tp_ok p -> tp_ok (tp_updated p);
}.

(** ** Pointer updates *)

Lemma set_pnext_skel h v idx : same_tree idx (set_pnext h v idx).
Proof.
  constructor. intros k. unfold set_pnext. destruct (decide (k = h)) as [->|]; [rewrite lookup_alter_eq|by rewrite lookup_alter_ne].
  by destruct (idx !! h).
Qed.

Lemma pnext_set h v idx k : is_Some (idx !! h) -> pnext (set_pnext h v idx) k = if decide (k = h) then v else pnext idx k.
Proof.
  intros [nd Hh]. unfold pnext, set_pnext. case_decide; [subst; rewrite lookup_alter_eq, Hh; done | by rewrite lookup_alter_ne].
Qed.

Lemma set_rec_skel idx h nd mint supply : idx !! h = Some nd -> bi_hash (n_rec nd) = h ->
  same_tree idx (set_rec (set_supply (n_rec nd) mint supply) idx) /\
  forall k, pnext (set_rec (set_supply (n_rec nd) mint supply) idx) k = pnext idx k.
Proof.
  intros Hh E. unfold set_rec, pnext. cbn [set_supply bi_hash]. rewrite E. split; [constructor|]; intros k; (destruct (decide (k = h)) as [->|];
    [rewrite lookup_alter_eq, Hh; done | by rewrite lookup_alter_ne]).
Qed.

Lemma same_tree_is_Some a b h : same_tree a b -> is_Some (a !! h) -> is_Some (b !! h).
Proof. intros Hs [nd H]. destruct (same_tree_some _ _ _ _ Hs H) as (nd' & ? & _). by exists nd'. Qed.

Lemma height_same a b h : same_tree a b -> height_of a h = height_of b h.
Proof.
  intros Hs. unfold height_of. destruct Hs as [Hs]. specialize (Hs h). destruct (a !! h), (b !! h); cbn in *; try done.
  apply (inj Some), skel_fields in Hs. by destruct Hs as (_ & -> & _).
Qed.

Lemma trust_same a b h : same_tree a b -> trust_of a h = trust_of b h.
Proof.
  intros Hs. unfold trust_of. destruct Hs as [Hs]. specialize (Hs h). destruct (a !! h), (b !! h); cbn in *; try done.
  apply (inj Some), skel_fields in Hs. by destruct Hs as (_ & _ & -> & _).
Qed.

Lemma path_same a b h : tree_ok a -> same_tree a b -> is_Some (a !! h) -> path b h = path a h.
Proof.
  intros Ha Hs [nd Hh]. apply (path_of_path a Ha) in Hh. remember (path a h) as l eqn:El. rewrite Hs in Hh, Ha. by apply path_eq.
Qed.

Lemma linked_same a b l : same_tree a b -> (forall h, pnext b h = pnext a h) -> linked a l -> linked b l.
Proof.
  intros Hs Hn Hl h nd k Hh. symmetry in Hs. destruct (same_tree_some _ _ _ _ Hs Hh) as (nd' & Hh' & _).
  rewrite (pprev_same _ _ _ Hs), <- (Hl h nd' k Hh'). specialize (Hn h). unfold pnext in Hn. rewrite Hh, Hh' in Hn. cbn in Hn.
  by rewrite Hn.
Qed.

(** The tree after a list of pointer updates. *)
Lemma unlink_all ds idx : tree_ok idx -> same_tree idx (fold_left unlink ds idx) /\
  forall h, (Exists (fun k => pprev idx k = Some h) ds -> pnext (fold_left unlink ds idx) h = None) /\
    (~ Exists (fun k => pprev idx k = Some h) ds -> pnext (fold_left unlink ds idx) h = pnext idx h).
Proof.
  revert idx. induction ds as [|d ds IH]; intros idx Hok; cbn [fold_left].
  { split; [done|]. intros h. split; [intros H; inversion H|done]. }
  assert (same_tree idx (unlink idx d)) as Hs by (unfold unlink; destruct (pprev idx d); [apply set_pnext_skel|done]).
  destruct (IH (unlink idx d)) as [Hs' Hn]; [by rewrite <- Hs|]. split; [by etrans|]. intros h. destruct (Hn h) as [H1 H2].
  assert (forall k, pprev (unlink idx d) k = pprev idx k) as Hp by (intros k; symmetry; by apply pprev_same).
  setoid_rewrite Hp in H1. setoid_rewrite Hp in H2.
  assert (pnext (unlink idx d) h = if decide (pprev idx d = Some h) then None else pnext idx h) as Hu.
  { unfold unlink, pprev. destruct (idx !! d) as [nd|] eqn:E; cbn; [|by case_decide]. destruct (n_pprev nd) as [p|] eqn:Ep; [|by case_decide].
    destruct (Hok _ _ E) as (_ & _ & Hx). rewrite Ep in Hx. destruct Hx as (pd & Hpd & _). rewrite pnext_set by eauto.
    repeat case_decide; congruence. }
  destruct (decide (Exists (fun k => pprev idx k = Some h) ds)) as [Hex|Hnex].
  - split; [by intros _; apply H1|]. intros Hno. exfalso. apply Hno. by apply Exists_cons_tl.
  - rewrite H2 by done. rewrite Hu, Exists_cons. case_decide; split; (done || naive_solver).
Qed.

Lemma link_all cs idx : tree_ok idx -> same_tree idx (fold_left link cs idx) /\
  forall h, (forall k, k ∈ cs -> pprev idx k = Some h -> (forall k', k' ∈ cs -> pprev idx k' = Some h -> k' = k) ->
      pnext (fold_left link cs idx) h = Some k) /\
    (~ Exists (fun k => pprev idx k = Some h) cs -> pnext (fold_left link cs idx) h = pnext idx h).
Proof.
  revert idx. induction cs as [|d cs IH]; intros idx Hok; cbn [fold_left].
  { split; [done|]. intros h. split; [by intros k []%elem_of_nil|done]. }
  assert (same_tree idx (link idx d)) as Hs by (unfold link; destruct (pprev idx d); [apply set_pnext_skel|done]).
  destruct (IH (link idx d)) as [Hs' Hn]; [by rewrite <- Hs|]. split; [by etrans|]. intros h. destruct (Hn h) as [H1 H2].
  assert (forall k, pprev (link idx d) k = pprev idx k) as Hp by (intros k; symmetry; by apply pprev_same).
  setoid_rewrite Hp in H1. setoid_rewrite Hp in H2.
  assert (pnext (link idx d) h = if decide (pprev idx d = Some h) then Some d else pnext idx h) as Hu.
  { unfold link, pprev. destruct (idx !! d) as [nd|] eqn:E; cbn; [|by case_decide]. destruct (n_pprev nd) as [p|] eqn:Ep; [|by case_decide].
    destruct (Hok _ _ E) as (_ & _ & Hx). rewrite Ep in Hx. destruct Hx as (pd & Hpd & _). rewrite pnext_set by eauto.
    repeat case_decide; congruence. }
  split.
  - intros k Hk Hkp Huniq. destruct (decide (Exists (fun k => pprev idx k = Some h) cs)) as [Hex|Hnex].
    + apply Exists_exists in Hex as (k' & Hk' & Hkp'). assert (k' = k) as -> by (apply Huniq; [by right|done]).
      apply H1; [done|done|]. intros k2 Hk2. apply Huniq. by right.
    + rewrite H2, Hu by done. apply elem_of_cons in Hk as [->|Hk]; [by rewrite decide_True|].
      exfalso. apply Hnex, Exists_exists. eauto.
  - rewrite Exists_cons. intros Hno. rewrite H2 by tauto. rewrite Hu, decide_False by tauto. done.
Qed.

(** Blocks of a path with the same parent are the same. *)
Lemma path_sibling idx h l j k p : tree_ok idx -> path_of idx h l -> j ∈ l -> k ∈ l -> pprev idx j = Some p -> pprev idx k = Some p -> j = k.
Proof.
  intros Hok Hp Hj Hk Ej Ek. apply (path_height_inj idx Hok h l); [done..|].
  assert (forall x, pprev idx x = Some p -> height_of idx x = height_of idx p + 1) as H.
  { intros x Hx. unfold pprev in Hx. destruct (idx !! x) as [nd|] eqn:E; [|done]. cbn in Hx. destruct (Hok _ _ E) as (_ & _ & H).
    rewrite Hx in H. destruct H as (pd & Hpd & H). rewrite (height_some idx x nd E), (height_some idx p pd Hpd) in H. done. }
  rewrite (H j), (H k) by done. done.
Qed.

(** The pointers after moving from one branch to another. *)
Lemma relink idx best new old newl rest : tree_ok idx -> path_of idx best (old ++ rest) -> path_of idx new (newl ++ rest) ->
  linked idx (old ++ rest) -> linked (fold_left link (reverse newl) (fold_left unlink old idx)) (newl ++ rest).
Proof.
  intros Hok Hb Hn Hl. destruct (unlink_all old idx Hok) as [Hs1 Hu].
  destruct (link_all (reverse newl) (fold_left unlink old idx)) as [Hs2 Hk]; [by rewrite <- Hs1|].
  set (idx1 := fold_left unlink old idx) in *. set (idx2 := fold_left link (reverse newl) idx1) in *.
  assert (same_tree idx idx2) as Hs by by etrans.
  intros h nd k Hh. rewrite <- (pprev_same _ _ k Hs). destruct (same_tree_some idx2 idx h nd) as (nd0 & Hnd0 & _); [by symmetry|done|].
  assert (n_pnext nd = pnext idx2 h) as -> by (unfold pnext; by rewrite Hh).
  destruct (Hk h) as [Hk1 Hk2]. destruct (Hu h) as [Hu1 Hu2].
  assert (forall x, pprev idx1 x = pprev idx x) as Hp1 by (intros x; symmetry; by apply pprev_same).
  setoid_rewrite Hp1 in Hk1. setoid_rewrite Hp1 in Hk2.
  destruct (decide (Exists (fun k => pprev idx k = Some h) newl)) as [Hex|Hnex].
  - apply Exists_exists in Hex as (k' & Hk' & Hkp'). assert (k' ∈ newl ++ rest) as Hin by (apply elem_of_app; by left).
    rewrite (Hk1 k'); [|by apply elem_of_reverse|done|].
    2: { intros k2 Hk2' E2. rewrite elem_of_reverse in Hk2'.
         apply (path_sibling idx new (newl ++ rest) k2 k' h); try done. apply elem_of_app. by left. }
    split; [intros [= <-]; done|]. intros [Hkl Hkp]. f_equal. by eapply (path_sibling idx new).
  - rewrite Hk2 by (rewrite Exists_exists; setoid_rewrite elem_of_reverse; by rewrite <- Exists_exists).
    assert (forall k, k ∈ newl -> pprev idx k <> Some h) as Hno by (intros x Hx Ex; apply Hnex, Exists_exists; eauto).
    destruct (decide (Exists (fun k => pprev idx k = Some h) old)) as [Hex|Hnold].
    + rewrite Hu1 by done. split; [done|]. intros [[Hkn|Hkr]%elem_of_app Hkp]; [by destruct (Hno k)|]. exfalso.
      apply Exists_exists in Hex as (k' & Hk' & Hkp'). assert (k' = k) as ->.
      { apply (path_sibling idx best (old ++ rest) k' k h); try done; apply elem_of_app; [by left|by right]. }
      apply (path_of_NoDup idx Hok) in Hb. apply NoDup_app in Hb as (_ & Hb & _). by apply (Hb k).
    + rewrite Hu2 by done. unfold pnext. rewrite Hnd0. cbn. rewrite (Hl h nd0 k Hnd0), !elem_of_app.
      assert (forall k, k ∈ old -> pprev idx k <> Some h) as Hno' by (intros x Hx Ex; apply Hnold, Exists_exists; eauto). naive_solver.
Qed.

(** ** The chain state *)

Section Follow.
Context `{HD : Digests} `{BN : OpenSSL_BN} {V E P T : Type} {LO : LedgerOps V E} {PO : PoolOps P}.
Context {LOk : LedgerOps_ok LO T} {POk : PoolOps_ok PO}.
Context (params : chain_params) (hashGenesisBlock : uint256) (ReadBlockFile : Z -> Z -> option CBlock) (TxnCommit : @db V -> bool).
(** The ledger before the first block after the genesis block. *)
Context (t0 : T).

Abbreviation rd := (read_block params ReadBlockFile).
Abbreviation state := (@chain_state V E P).

(** The abstract ledger of a chain (latest block first): what connecting its blocks
    one after the other gives, each of them fresh. *)
Inductive replay (blocks : uint256 -> option CBlock) : list uint256 -> T -> Prop :=
| replay_genesis g : replay blocks [g] t0
| replay_block h l block n bi c hn v e bi' v' e' : replay blocks l (lg_view v) -> blocks h = Some block ->
    lg_connect n (bi :: c) hn block v e = Ok (bi', v', e') -> lg_fresh (bi :: c) block (lg_view v) ->
    replay blocks (h :: l) (lg_view v').

(** No block of the chain repeats a transaction id. *)
Definition ids_new (blocks : uint256 -> option CBlock) (l : list uint256) : Prop :=
  forall h l1 l2 block n bi c hn v e r, l = l1 ++ h :: l2 -> replay blocks l2 (lg_view v) -> blocks h = Some block ->
    lg_connect n (bi :: c) hn block v e = Ok r -> lg_fresh (bi :: c) block (lg_view v).

(** The transactions of the chain's blocks fit the pool. *)
Definition txs_fit (blocks : uint256 -> option CBlock) (l : list uint256) : Prop :=
  forall h block, h ∈ l -> blocks h = Some block -> Forall tp_fits (vtx block).

(** The tree, the pointers, the database and the pool are those of the chain up to
    [m]. *)
Record chain_at (s : state) (m : uint256) : Prop := {
  ca_tree : tree_ok (mapBlockIndex s);
  ca_there : is_Some (mapBlockIndex s !! m);
  ca_linked : linked (mapBlockIndex s) (path (mapBlockIndex s) m);
  ca_hash : db_hashBestChain (txdb s) = m;
  ca_replay : replay (rd (mapBlockIndex s)) (path (mapBlockIndex s) m) (lg_view (db_ledger (txdb s)));
  ca_pool : tp_ok (mempool s);
}.

(** What no step but the last of [SetBestChain] changes. *)
Definition same_best (s s' : state) : Prop :=
  same_tree (mapBlockIndex s) (mapBlockIndex s') /\ pindexBest s' = pindexBest s /\ hashBestChain s' = hashBestChain s /\
  nBestHeight s' = nBestHeight s /\ nBestChainTrust s' = nBestChainTrust s /\ pindexGenesisBlock s' = pindexGenesisBlock s.

(** Nothing is lost: the same, and the database, the pointers and the pool.  Left
    open are the best invalid trust, the mints and supplies of the records
    ([same_tree] does not compare them) and the world outside. *)
Definition unmoved (s s' : state) : Prop :=
  same_best s s' /\ txdb s' = txdb s /\ mempool s' = mempool s /\ forall h, pnext (mapBlockIndex s') h = pnext (mapBlockIndex s) h.

Lemma rd_same a b h : same_tree a b -> rd a h = rd b h.
Proof.
  intros [Hs]. unfold read_block. specialize (Hs h). destruct (a !! h), (b !! h); cbn in *; try done.
  apply (inj Some), skel_fields in Hs. destruct Hs as (Hh & _ & _ & Hf & Hp & _). unfold ReadFromDisk. by rewrite Hh, Hf, Hp.
Qed.

Lemma replay_ext f g l t : (forall h, f h = g h) -> replay f l t -> replay g l t.
Proof.
  intros Hfg. induction 1 as [|h l block n bi c hn v e bi' v' e' _ IH Hb]; [constructor|].
  eapply replay_block; [exact IH| |done|done]. by rewrite <- Hfg.
Qed.

Lemma ids_new_ext f g l : (forall h, f h = g h) -> ids_new f l -> ids_new g l.
Proof.
  intros Hfg H h l1 l2 block n bi c hn v e r El Hr Hb. eapply H; [exact El| |by rewrite Hfg]. eapply replay_ext; [|exact Hr]. done.
Qed.

Lemma ids_new_sub f l1 l2 : ids_new f (l1 ++ l2) -> ids_new f l2.
Proof. intros H h a b block n bi c hn v e r -> Hr Hb Hc. eapply (H h (l1 ++ a)); [by rewrite <- app_assoc|done..]. Qed.

Lemma read_hash idx h block : tree_ok idx -> rd idx h = Some block -> CBlockHeader_GetHash (header block) = h.
Proof.
  intros Hok. unfold read_block. destruct (idx !! h) as [nd|] eqn:Eh; [|done]. cbn. unfold ReadFromDisk.
  destruct (ReadBlockFile _ _) as [b|]; [|done]. destruct (_ && _)%bool; [done|]. case_decide as Hh; [|done]. intros [= <-].
  rewrite Hh. by apply Hok.
Qed.

Lemma chain_of_cons idx h nd : tree_ok idx -> idx !! h = Some nd -> exists c, chain_of idx h = n_rec nd :: c.
Proof.
  intros Hok Hh. unfold chain_of. pose proof (path_of_path idx Hok h nd Hh) as Hp. destruct (path_of_head idx _ _ Hp) as [l ->].
  cbn. rewrite Hh. cbn. eauto.
Qed.

Lemma unmoved_at s s' m : unmoved s s' -> chain_at s m -> chain_at s' m.
Proof.
  intros ((Hs & _) & Hd & Hm & Hn) [H1 H2 H3 H4 H5 H6]. split.
  - by rewrite <- Hs.
  - by eapply same_tree_is_Some.
  - rewrite (path_same _ _ _ H1 Hs H2). by eapply linked_same.
  - by rewrite Hd.
  - rewrite (path_same _ _ _ H1 Hs H2), Hd. eapply replay_ext; [|exact H5]. intros h. by apply rd_same.
  - by rewrite Hm.
Qed.

(** ** Disconnecting and connecting *)

Lemma for_each_ok (f : CTransaction -> P -> option P) (Q : CTransaction -> P -> Prop) txs p :
  (forall tx p, tp_ok p -> tp_fits tx -> exists p', f tx p = Some p' /\ tp_ok p' /\ Q tx p' /\ forall tx', Q tx' p -> Q tx' p') ->
  tp_ok p -> Forall tp_fits txs ->
  exists p', for_each f txs p = Some p' /\ tp_ok p' /\ Forall (fun tx => Q tx p') txs /\ forall tx, Q tx p -> Q tx p'.
Proof.
  intros Hf. revert p. induction txs as [|tx txs IH]; intros p Hp HF; cbn [for_each]; [by exists p|].
  apply Forall_cons in HF as [Htx HF]. destruct (Hf tx p Hp Htx) as (p1 & -> & Hp1 & HQ & Hk).
  destruct (IH p1 Hp1 HF) as (p' & -> & Hp' & HQs & Hk'). exists p'. conjs; [done|done| |auto]. constructor; auto.
Qed.

(** Disconnecting a branch that was connected never fails. *)
Lemma disconnect_all_spec idx old rest v e acc : replay (rd idx) (old ++ rest) (lg_view v) -> rest <> [] -> txs_fit (rd idx) old ->
  Forall tp_fits acc ->
  exists v' txs e', disconnect_all params ReadBlockFile idx old v e acc = (Some (v', txs), e') /\
    replay (rd idx) rest (lg_view v') /\ Forall tp_fits txs.
Proof.
  revert v e acc. induction old as [|h old IH]; intros v e acc Hr Hne Hfit Hacc; cbn [disconnect_all]; [by exists v, acc, e|].
  cbn [app] in Hr. inversion Hr as [g Hg Ht|h' l' block n bi c hn v1 e1 bi' v2 e2 Hr' Hb Hc Hfr Hl Hv]; subst.
  { destruct old; [|done]. cbn in *. congruence. }
  rewrite Hb. destruct (lg_undo _ _ _ _ _ _ _ _ _ _ Hc Hfr (chain_of idx h) v e ltac:(done)) as (v3 & e3 & -> & Hv3).
  apply IH; [by rewrite Hv3|done| |].
  - intros k b Hk. apply Hfit. by right.
  - apply Forall_app. split; [done|]. apply Forall_forall. intros tx [_ Htx]%list_elem_of_filter.
    assert (Forall tp_fits (vtx block)) as HF by (eapply Hfit; [by left|done]). rewrite Forall_forall in HF. auto.
Qed.

(** Connecting a branch on top of a replayed chain: only mints and supplies of the
    records change, and a success replays the longer chain. *)
Lemma connect_all_spec nH idx hs l v e acc : tree_ok idx -> replay (rd idx) l (lg_view v) -> ids_new (rd idx) (reverse hs ++ l) ->
  Forall (fun h => is_Some (idx !! h)) hs -> txs_fit (rd idx) hs -> Forall tp_fits acc ->
  match connect_all params ReadBlockFile nH idx hs v e acc with
  | (r, idx', e') => same_tree idx idx' /\ (forall h, pnext idx' h = pnext idx h) /\
      match r with
      | Ok (v', txs) => replay (rd idx) (reverse hs ++ l) (lg_view v') /\ Forall tp_fits txs /\
          forall tx, tx ∈ txs <-> tx ∈ acc \/ exists h block, h ∈ hs /\ rd idx h = Some block /\ tx ∈ vtx block
      | _ => True
      end
  end.
Proof.
  revert idx l v e acc. induction hs as [|h hs IH]; intros idx l v e acc Hok Hr Hids Hin Hfit Hacc; cbn [connect_all].
  { conjs; [done|done|done|done|]. set_solver. }
  apply Forall_cons in Hin as [[nd Hnd] Hin]. destruct (rd idx h) as [block|] eqn:Eb; [|done].
  destruct (chain_of_cons idx h nd Hok Hnd) as [c ->].
  destruct (lg_connect _ _ _ _ _ _) as [[[bi v1] e1]|n|] eqn:Ec; [|done|done].
  destruct (lg_connect_rec _ _ _ _ _ _ _ _ _ _ Ec) as (mint & supply & ->).
  destruct (Hok _ _ Hnd) as (Hhash & _). destruct (set_rec_skel idx h nd mint supply Hnd Hhash) as [Hs Hn].
  set (idx1 := set_rec _ idx) in *. rewrite reverse_cons, <- app_assoc in Hids. cbn [app] in Hids.
  assert (forall k, rd idx k = rd idx1 k) as Hrd by (intros k; by apply rd_same).
  specialize (IH idx1 (h :: l) v1 e1 (acc ++ vtx block)).
  destruct (connect_all _ _ _ _ _ _ _ _) as [[r idx2] e2]. destruct IH as (Hs2 & Hn2 & Hres).
  - by rewrite <- Hs.
  - eapply replay_ext; [exact Hrd|]. eapply replay_block; [exact Hr|done|exact Ec|]. by eapply (Hids h (reverse hs) l).
  - by eapply ids_new_ext.
  - eapply Forall_impl; [exact Hin|]. intros k. by apply same_tree_is_Some.
  - intros k b Hk Hb. eapply Hfit; [by right|by rewrite Hrd].
  - apply Forall_app. split; [done|]. eapply Hfit; [by left|done].
  - conjs; [by etrans|intros k; by rewrite Hn2|]. destruct r as [[v' txs]| |]; [|done|done]. destruct Hres as (Hr' & Hf' & Htx).
    conjs; [|done|].
    + rewrite reverse_cons, <- app_assoc. cbn [app]. eapply replay_ext; [|exact Hr']. done.
    + intros tx. rewrite Htx, elem_of_app. setoid_rewrite <- Hrd. setoid_rewrite elem_of_cons. naive_solver.
Qed.

(** ** Reorganize *)

(** Two chains with a common block: the fork and the branches [Reorganize] finds. *)
Lemma branches_spec idx a b g : tree_ok idx -> is_Some (idx !! a) -> is_Some (idx !! b) -> g ∈ path idx a -> g ∈ path idx b ->
  exists f la lb rest, find_fork (size idx) idx a b = Some f /\ branch (size idx) idx f a = Some la /\ branch (size idx) idx f b = Some lb /\
    path_of idx f rest /\ path idx a = la ++ rest /\ path idx b = lb ++ rest /\ (forall k, k ∈ path idx a -> k ∈ lb -> False).
Proof.
  intros Hok [na Ha] [nb Hb] Hga Hgb. apply (path_of_path idx Hok) in Ha, Hb.
  destruct (find_fork_spec idx Hok (size idx) a b _ _ Ha Hb) as (f & rest & Ef & Hf & Hfa & Hfb & Hall).
  { pose proof (path_of_size idx Hok _ _ Ha). lia. }
  { by exists g. }
  destruct (path_of_sub idx Hok _ _ _ Ha Hfa) as (la & ra & Ea & Hra). destruct (path_of_sub idx Hok _ _ _ Hb Hfb) as (lb & rb & Eb & Hrb).
  rewrite (path_of_fun idx _ _ _ Hra Hf) in Ea. rewrite (path_of_fun idx _ _ _ Hrb Hf) in Eb. exists f, la, lb, rest.
  pose proof (path_of_size idx Hok _ _ Ha) as Hsa. pose proof (path_of_size idx Hok _ _ Hb) as Hsb.
  pose proof (path_of_NoDup idx Hok _ _ Hb) as Hnd.
  rewrite Ea in Hsa, Ha. rewrite Eb in Hsb, Hb, Hnd. rewrite length_app in Hsa, Hsb.
  conjs; [done|by apply (branch_path idx Hok (size idx) f a la rest); [..|lia]|by apply (branch_path idx Hok (size idx) f b lb rest); [..|lia]
    |done|done|done|].
  intros k Hka Hkb. apply NoDup_app in Hnd as (_ & Hnd & _). apply (Hnd k Hkb). apply Hall; [done|]. rewrite Eb. apply elem_of_app. by left.
Qed.

Lemma Reorganize_spec s best hNew g : chain_at s best -> pindexBest s = Some best -> is_Some (mapBlockIndex s !! hNew) ->
  g ∈ path (mapBlockIndex s) best -> g ∈ path (mapBlockIndex s) hNew -> ids_new (rd (mapBlockIndex s)) (path (mapBlockIndex s) hNew) ->
  txs_fit (rd (mapBlockIndex s)) (path (mapBlockIndex s) best) -> txs_fit (rd (mapBlockIndex s)) (path (mapBlockIndex s) hNew) ->
  match Reorganize params ReadBlockFile TxnCommit hNew s with
  | (Ok _, s') => same_best s s' /\ chain_at s' hNew /\
      forall h block tx, h ∈ path (mapBlockIndex s) hNew -> h ∉ path (mapBlockIndex s) best -> rd (mapBlockIndex s) h = Some block ->
        tx ∈ vtx block -> tp_free tx (mempool s')
  | (_, s') => unmoved s s'
  end.
Proof.
  intros [Hok Hthere Hl Hhash Hr Hp] Ebest Hnew Hgb Hgn Hids Hfb Hfn. unfold Reorganize. rewrite Ebest.
  set (idx := mapBlockIndex s) in *. destruct (branches_spec idx best hNew g Hok Hthere Hnew Hgb Hgn)
    as (f & old & newl & rest & -> & -> & -> & Hf & Eb & En & Hdis).
  assert (rest <> []) as Hne by (by destruct (path_of_head idx _ _ Hf) as [? ->]).
  rewrite Eb in Hr. assert (txs_fit (rd idx) old) as Hfo. { intros h b Hh. apply Hfb. rewrite Eb. apply elem_of_app. by left. }
  destruct (disconnect_all_spec idx old rest (db_ledger (txdb s)) (outside s) [] Hr Hne Hfo ltac:(done)) as (v & res & e & -> & Hr' & Hres).
  pose proof (connect_all_spec (height_of idx best) idx (reverse newl) rest v e [] Hok Hr') as Hc. rewrite reverse_involutive in Hc.
  rewrite <- En in Hc. specialize (Hc Hids). destruct (connect_all _ _ _ _ _ _ _ _) as [[r idx1] e1]. destruct Hc as (Hs & Hn & Hres').
  { apply Forall_forall. intros h Hh. rewrite elem_of_reverse in Hh.
    destruct Hnew as [nd Hnd]. apply (path_of_path idx Hok) in Hnd. destruct (path_of_elem idx Hok _ _ h Hnd) as [x Hx]; [|by exists x].
    rewrite En. apply elem_of_app. by left. }
  { intros h b Hh. rewrite elem_of_reverse in Hh. apply Hfn. rewrite En. apply elem_of_app. by left. }
  { constructor. }
  assert (unmoved s (set_outside e1 (set_index idx1 s))) as Hun by (unfold unmoved, same_best; conjs; done).
  destruct r as [[v' txs]| |]; [|done|done]. destruct Hres' as (Hrn & Hft & Htx). destruct (negb _); [done|].
  cbn [set_outside set_index set_txdb mempool].
  destruct (for_each_ok tp_accept (fun _ _ => True) res (mempool s)) as (p1 & -> & Hp1 & _); [|done|done|].
  { intros tx p Hp0 Hx. destruct (tp_accept_ok tx p Hp0 Hx) as (p' & ? & ?). by exists p'. }
  destruct (for_each_ok delete_tx tp_free txs p1 tp_delete_ok Hp1 Hft) as (p2 & -> & Hp2 & Hfree & _).
  destruct Hthere as [nb Hnb]. destruct Hnew as [nn Hnn]. pose proof (path_of_path idx Hok _ _ Hnb) as Hpb. pose proof (path_of_path idx Hok _ _ Hnn) as Hpn.
  rewrite Eb in Hpb, Hl. rewrite En in Hpn.
  assert (tree_ok idx1) as Hok1 by (by rewrite <- Hs).
  assert (path_of idx1 best (old ++ rest)) as Hpb1 by (by rewrite <- Hs).
  assert (path_of idx1 hNew (newl ++ rest)) as Hpn1 by (by rewrite <- Hs).
  pose proof (relink idx1 best hNew old newl rest Hok1 Hpb1 Hpn1 (linked_same _ _ _ Hs Hn Hl)) as Hlink.
  destruct (unlink_all old idx1 Hok1) as [Hs1 _]. destruct (link_all (reverse newl) (fold_left unlink old idx1)) as [Hs2 _]; [by rewrite <- Hs1|].
  set (idx2 := fold_left link _ _) in *. assert (same_tree idx idx2) as Hs3 by (etrans; [exact Hs|]; by etrans).
  split; [unfold same_best; conjs; done|]. split.
  - split; cbn [mapBlockIndex txdb mempool set_mempool set_txdb set_index set_outside db_ledger db_hashBestChain].
    + by rewrite <- Hs3.
    + eapply same_tree_is_Some; [exact Hs3|]. eauto.
    + rewrite (path_same idx idx2) by eauto. by rewrite En.
    + done.
    + rewrite (path_same idx idx2) by eauto. eapply replay_ext; [|exact Hrn]. intros h. by apply rd_same.
    + done.
  - intros h block tx Hh Hnh Hb Htxb. cbn. rewrite Forall_forall in Hfree. apply Hfree, Htx. right. exists h, block.
    conjs; [|done|done]. rewrite elem_of_reverse. rewrite En in Hh. apply elem_of_app in Hh as [?|Hh]; [done|]. exfalso. apply Hnh.
    rewrite Eb. apply elem_of_app. by right.
Qed.

(** ** SetBestChain *)

Lemma path_cons idx h m : tree_ok idx -> pprev idx h = Some m -> path idx h = h :: path idx m /\ is_Some (idx !! m).
Proof.
  intros Hok Hp. unfold pprev in Hp. destruct (idx !! h) as [nd|] eqn:Eh; [|done]. cbn in Hp. destruct (Hok _ _ Eh) as (_ & _ & H).
  rewrite Hp in H. destruct H as (pd & Hpd & _). split; [|eauto]. apply (path_eq idx Hok). eapply path_step; [done|done|].
  by apply (path_of_path idx Hok _ pd).
Qed.

Lemma InvalidChainFound_unmoved h s s' : unmoved s s' -> unmoved s (InvalidChainFound h s').
Proof. intros H. unfold InvalidChainFound. case_match; [|done]. exact H. Qed.

Lemma Inner_spec s m best hNew block : chain_at s m -> pindexBest s = Some best -> rd (mapBlockIndex s) hNew = Some block ->
  pprev (mapBlockIndex s) hNew = Some m -> ids_new (rd (mapBlockIndex s)) (path (mapBlockIndex s) hNew) -> Forall tp_fits (vtx block) ->
  match SetBestChainInner TxnCommit block hNew s with
  | (Ok _, s') => same_best s s' /\ chain_at s' hNew
  | (Fail n, s') => n = 0 /\ unmoved s s'
  | (Throw, s') => unmoved s s'
  end.
Proof.
  intros [Hok Hthere Hl Hhash Hr Hp] Ebest Hb Hprev Hids Hfit. unfold SetBestChainInner. rewrite Ebest. set (idx := mapBlockIndex s) in *.
  destruct (path_cons idx hNew m Hok Hprev) as [Epath [nm Hnm]].
  assert (exists nd, idx !! hNew = Some nd) as [nd Hnd] by (unfold pprev in Hprev; destruct (idx !! hNew); eauto; done).
  destruct (chain_of_cons idx hNew nd Hok Hnd) as [c ->].
  destruct (lg_connect _ _ _ _ _ _) as [[[bi v] e]| |] eqn:Ec.
  2: { split; [done|]. apply InvalidChainFound_unmoved. unfold unmoved, same_best. conjs; done. }
  2: { unfold unmoved, same_best. conjs; done. }
  destruct (lg_connect_rec _ _ _ _ _ _ _ _ _ _ Ec) as (mint & supply & ->). destruct (Hok _ _ Hnd) as (Hh & _).
  destruct (set_rec_skel idx hNew nd mint supply Hnd Hh) as [Hs Hn]. set (idx1 := set_rec _ idx) in *.
  destruct (negb _); [split; [done|]; unfold unmoved, same_best; conjs; done|]. rewrite Hprev.
  cbn [set_outside set_index set_txdb mempool mapBlockIndex].
  destruct (for_each_ok tp_remove (fun _ _ => True) (vtx block) (mempool s)) as (p & -> & Hp' & _); [|done|done|].
  { intros tx q Hq Hx. destruct (tp_remove_ok tx q Hq Hx) as (q' & ? & ?). by exists q'. }
  assert (tree_ok idx1) as Hok1 by (by rewrite <- Hs).
  pose proof (path_of_path idx Hok _ _ Hnm) as Hpm. pose proof (path_of_path idx Hok _ _ Hnd) as Hpn. rewrite Epath in Hpn.
  assert (path_of idx1 m ([] ++ path idx m)) as Hpm1 by (by rewrite <- Hs).
  assert (path_of idx1 hNew ([hNew] ++ path idx m)) as Hpn1 by (by rewrite <- Hs).
  pose proof (relink idx1 m hNew [] [hNew] (path idx m) Hok1 Hpm1 Hpn1 (linked_same _ _ _ Hs Hn Hl)) as Hlink.
  change (reverse [hNew]) with [hNew] in Hlink. cbn [fold_left] in Hlink. unfold link in Hlink.
  rewrite <- (pprev_same _ _ hNew Hs), Hprev in Hlink. pose proof (set_pnext_skel m (Some hNew) idx1) as Hs2.
  set (idx2 := set_pnext m (Some hNew) idx1) in *. assert (same_tree idx idx2) as Hs3 by by etrans.
  split; [unfold same_best; conjs; done|].
  split; cbn [mapBlockIndex txdb mempool set_mempool set_txdb set_index set_outside db_ledger db_hashBestChain].
  - by rewrite <- Hs3.
  - eapply same_tree_is_Some; [exact Hs3|]. eauto.
  - rewrite (path_same idx idx2) by eauto. by rewrite Epath.
  - exact (read_hash idx hNew block Hok Hb).
  - rewrite (path_same idx idx2) by eauto. rewrite Epath. eapply replay_ext; [intros h; by apply rd_same|].
    eapply replay_block; [exact Hr|done|exact Ec|]. eapply (Hids hNew [] (path idx m)); [by rewrite Epath|done|done|exact Ec].
  - done.
Qed.

Lemma postpone_spec fuel idx t h : tree_ok idx -> is_Some (idx !! h) -> (length (path idx h) <= S fuel)%nat ->
  match postpone fuel idx t h with
  | (i, sec) => path idx h = sec ++ path idx i /\ is_Some (idx !! i) /\ forall k, k ∈ i :: sec -> k = h \/ op_gt (trust_of idx k) t = true
  end.
Proof.
  assert (forall h k, k ∈ [h] -> k = h \/ op_gt (trust_of idx k) t = true) as H1 by (intros ? k Hk%list_elem_of_singleton; by left).
  revert h. induction fuel as [|fuel IH]; intros h Hok Hh Hf; cbn [postpone]; [conjs; [done|done|apply H1]|].
  destruct (pprev idx h) as [p|] eqn:Ep; [|conjs; [done|done|apply H1]]. destruct (op_gt (trust_of idx p) t) eqn:Eg; [|conjs; [done|done|apply H1]].
  destruct (path_cons idx h p Hok Ep) as [Eh Hp]. rewrite Eh in Hf. cbn [length] in Hf. specialize (IH p Hok Hp ltac:(lia)).
  destruct (postpone fuel idx t p) as [i sec]. destruct IH as (Hpath & Hi & Hor). rewrite Eh, Hpath. conjs; [done|done|].
  intros k Hk. assert (k = h \/ k ∈ i :: sec) as [->|Hk'] by (set_solver). { by left. }
  right. destruct (Hor k Hk') as [->|?]; done.
Qed.

(** The genesis block is below every block of the chain. *)
Lemma root_below idx h i g sec : tree_ok idx -> is_Some (idx !! h) -> is_Some (idx !! i) -> path idx h = sec ++ path idx i ->
  pprev idx g = None -> g ∈ path idx h -> g ∈ path idx i.
Proof.
  intros Hok [nh Hnh] [ni Hni] Epath Hroot [k Hk]%list_elem_of_lookup. pose proof (path_of_path idx Hok _ _ Hnh) as Hph.
  pose proof (path_of_pprev idx Hok _ _ _ _ Hph Hk) as Hn. rewrite Hroot in Hn. symmetry in Hn. apply lookup_ge_None in Hn.
  destruct (path_of_head _ _ _ (path_of_path idx Hok _ _ Hni)) as [l El]. rewrite Epath in Hk, Hn.
  rewrite El in Hk, Hn |- *. rewrite length_app in Hn. cbn [length] in Hn. rewrite lookup_app_r in Hk by lia.
  by eapply list_elem_of_lookup_2.
Qed.

Lemma further_not_fail hs s n s' : connect_further params ReadBlockFile TxnCommit hs s = (Fail n, s') -> False.
Proof.
  revert s. induction hs as [|h hs IH]; intros s; cbn [connect_further]; [done|]. destruct (read_block _ _ _ _); [|done].
  destruct (SetBestChainInner _ _ _ _) as [[[]| |] s1]; [apply IH|done|done].
Qed.

(** A block that could not be connected on top of [m]. *)
Definition refused (idx : block_index) (m h : uint256) : Prop := pprev idx h = Some m /\
  forall block, rd idx h = Some block -> exists s1, chain_at s1 m /\ fst (SetBestChainInner TxnCommit block h s1) = Fail 0.

Lemma further_spec hs top : forall s m best, chain_at s m -> pindexBest s = Some best ->
  path (mapBlockIndex s) top = reverse hs ++ path (mapBlockIndex s) m -> is_Some (mapBlockIndex s !! top) ->
  ids_new (rd (mapBlockIndex s)) (path (mapBlockIndex s) top) -> txs_fit (rd (mapBlockIndex s)) (path (mapBlockIndex s) top) ->
  match connect_further params ReadBlockFile TxnCommit hs s with
  | (r, s') => same_best s s' /\ exists m', chain_at s' m' /\ (m' ∈ m :: hs) /\
      match r with
      | Ok _ => m' = top \/ exists h, (h ∈ hs) /\ refused (mapBlockIndex s) m' h
      | _ => True
      end
  end.
Proof.
  induction hs as [|h hs IH]; intros s m best Hat Ebest Epath Htop Hids Hfit; cbn [connect_further];
    pose proof (ca_tree _ _ Hat) as Hok; set (idx := mapBlockIndex s) in *; destruct Htop as [nt Hnt];
    pose proof (path_of_path idx Hok _ _ Hnt) as Hpt.
  { split; [unfold same_best; conjs; done|]. exists m. conjs; [done|by left|]. left. rewrite reverse_nil in Epath. cbn [app] in Epath. rewrite Epath in Hpt.
    destruct (ca_there _ _ Hat) as [nm Hnm]. fold idx in Hnm. pose proof (path_of_path idx Hok _ _ Hnm) as Hpm.
    destruct (path_of_head idx _ _ Hpt) as [l1 E1]. destruct (path_of_head idx _ _ Hpm) as [l2 E2]. congruence. }
  rewrite reverse_cons, <- app_assoc in Epath. cbn [app] in Epath.
  assert (h ∈ path idx top) as Hin by (rewrite Epath; apply elem_of_app; right; by left).
  assert (path_of idx h (h :: path idx m)) as Hph.
  { destruct (path_of_sub idx Hok _ _ _ Hpt Hin) as (l1 & l2 & El & Hp2). destruct (path_of_head idx _ _ Hp2) as [l3 ->].
    rewrite Epath in El. pose proof (path_of_NoDup idx Hok _ _ Hpt) as Hnd. rewrite Epath in Hnd.
    assert (length (reverse hs) = length l1) as Hlen.
    { eapply NoDup_lookup; [exact Hnd|by rewrite list_lookup_middle|by rewrite El, list_lookup_middle]. }
    apply app_inj_1 in El as [_ [= ->]]; [done|done]. }
  assert (pprev idx h = Some m) as Hprev.
  { destruct (ca_there _ _ Hat) as [nm Hnm]. fold idx in Hnm. pose proof (path_of_path idx Hok _ _ Hnm) as Hpm.
    destruct (path_of_head idx _ _ Hpm) as [l2 E2]. rewrite E2 in Hph. by rewrite (path_of_pprev idx Hok _ _ 0%nat h Hph eq_refl). }
  assert (path idx h = h :: path idx m) as Eh by (by apply (path_eq idx Hok)).
  destruct (rd idx h) as [block|] eqn:Eb.
  2: { split; [unfold same_best; conjs; done|]. exists m. conjs; [done|by left|]. right. exists h. split; [by left|]. split; [done|]. by rewrite Eb. }
  pose proof (Inner_spec s m best h block Hat Ebest Eb Hprev) as Hin'. fold idx in Hin'. rewrite Eh in Hin'.
  specialize (Hin' ltac:(rewrite Epath in Hids; by eapply ids_new_sub) ltac:(by eapply Hfit)).
  destruct (SetBestChainInner TxnCommit block h s) as [r s'] eqn:Ei. destruct r as [[]|n|].
  - destruct Hin' as [Hsame Hat']. destruct Hsame as (Hs & Hb & Hrest). fold idx in Hs.
    assert (forall k, is_Some (idx !! k) -> path (mapBlockIndex s') k = path idx k) as Hpaths by (intros k Hk; by apply path_same).
    assert (forall k, rd idx k = rd (mapBlockIndex s') k) as Hrd by (intros k; by apply rd_same).
    specialize (IH s' h best Hat' ltac:(congruence)). rewrite !Hpaths in IH by (eauto; inversion Hph; eauto).
    specialize (IH ltac:(by rewrite Eh) ltac:(by eapply same_tree_is_Some; eauto) ltac:(by eapply ids_new_ext; [exact Hrd|])).
    specialize (IH ltac:(intros k b Hk; rewrite <- Hrd; by apply Hfit)).
    destruct (connect_further _ _ _ hs s') as [r s2]. destruct IH as [(Hs2 & Hb2 & Hrest2) (m' & Hat2 & Hm' & Hr)].
    split. { destruct Hrest as (? & ? & ? & ?), Hrest2 as (? & ? & ? & ?). unfold same_best. conjs; try congruence. by etrans. }
    exists m'. conjs; [done|by right|]. destruct r; [|done|done]. destruct Hr as [?|(k & Hk & Hpk & Href)]; [by left|].
    right. exists k. split; [by right|]. split; [by rewrite (pprev_same _ _ k Hs)|]. intros b. rewrite Hrd. apply Href.
  - destruct Hin' as [-> [Hsame Hrest]]. split; [done|]. exists m. split; [by eapply unmoved_at|]. split; [by left|]. right. exists h.
    split; [by left|]. split; [done|]. intros b Eb'. rewrite Eb in Eb'. injection Eb' as <-. exists s. by rewrite Ei.
  - destruct Hin' as [Hsame Hrest]. split; [done|]. exists m. split; [by eapply unmoved_at|]. split; [by left|done].
Qed.

Lemma set_best_at hash h s m : chain_at s m -> chain_at (set_best hash h s) m.
Proof. intros [H1 H2 H3 H4 H5 H6]. split; try done. by apply tp_updated_ok. Qed.

Lemma move_chain_spec s best hNew block g : chain_at s best -> pindexBest s = Some best -> hashBestChain s = best ->
  pindexGenesisBlock s = Some g -> rd (mapBlockIndex s) hNew = Some block ->
  pprev (mapBlockIndex s) hNew = Some (hashPrevBlock (header block)) ->
  pprev (mapBlockIndex s) g = None -> g ∈ path (mapBlockIndex s) best -> g ∈ path (mapBlockIndex s) hNew ->
  ids_new (rd (mapBlockIndex s)) (path (mapBlockIndex s) hNew) ->
  txs_fit (rd (mapBlockIndex s)) (path (mapBlockIndex s) best) -> txs_fit (rd (mapBlockIndex s)) (path (mapBlockIndex s) hNew) ->
  match move_chain params hashGenesisBlock ReadBlockFile TxnCommit block hNew s with
  | (Fail _, s') => unmoved s s'
  | (r, s') => same_best s s' /\ exists m, chain_at s' m /\
      match r with
      | Ok _ => (m ∈ path (mapBlockIndex s) hNew) /\
          (m = hNew \/ op_gt (trust_of (mapBlockIndex s) m) (trust_of (mapBlockIndex s) best) = true /\
             exists h, (h ∈ path (mapBlockIndex s) hNew) /\ refused (mapBlockIndex s) m h)
      | _ => True
      end
  end.
Proof.
  intros Hat Ebest Ehash Egen Hb Hprev Hroot Hgb Hgn Hids Hfb Hfn. unfold move_chain. rewrite Egen, Ehash.
  rewrite bool_decide_false by done. cbn [andb]. pose proof (ca_tree _ _ Hat) as Hok.
  assert (is_Some (mapBlockIndex s !! hNew)) as Hthere by (unfold pprev in Hprev; destruct (mapBlockIndex s !! hNew); done || eauto).
  assert (hNew ∈ path (mapBlockIndex s) hNew) as Hself.
  { destruct Hthere as [nn Hnn]. destruct (path_of_head _ _ _ (path_of_path _ Hok _ _ Hnn)) as [? ->]. by left. }
  case_decide as Eprev.
  - rewrite Eprev in Hprev. pose proof (Inner_spec s best best hNew block Hat Ebest Hb Hprev Hids ltac:(by eapply Hfn)) as Hin.
    destruct (SetBestChainInner _ _ _ _) as [[[]| |] s'].
    + destruct Hin as [Hs Hat']. split; [done|]. exists hNew. split; [done|]. split; [done|by left].
    + by destruct Hin.
    + split; [apply Hin|]. exists best. split; [by eapply unmoved_at|done].
  - rewrite Ebest. pose proof (postpone_spec (size (mapBlockIndex s)) (mapBlockIndex s) (trust_of (mapBlockIndex s) best) hNew Hok Hthere) as Hpp.
    destruct (postpone _ _ _ _) as [i sec]. destruct Hpp as (Epath & Hi & Htrust).
    { destruct Hthere as [nn Hnn]. pose proof (path_of_size _ Hok _ _ (path_of_path _ Hok _ _ Hnn)). lia. }
    pose proof (root_below _ hNew i g sec Hok Hthere Hi Epath Hroot Hgn) as Hgi.
    assert (txs_fit (rd (mapBlockIndex s)) (path (mapBlockIndex s) i)) as Hfi.
    { intros k b Hk. apply Hfn. rewrite Epath. apply elem_of_app. by right. }
    pose proof (Reorganize_spec s best i g Hat Ebest Hi Hgb Hgi ltac:(rewrite Epath in Hids; by eapply ids_new_sub) Hfb Hfi) as HR.
    destruct (Reorganize _ _ _ _ _) as [[[]| |] s1].
    + destruct HR as ((Hs & Hb1 & Hrest) & Hat1 & _).
      assert (forall k, is_Some (mapBlockIndex s !! k) -> path (mapBlockIndex s1) k = path (mapBlockIndex s) k) as Hpaths by (intros k Hk; by apply path_same).
      assert (forall k, rd (mapBlockIndex s) k = rd (mapBlockIndex s1) k) as Hrd by (intros k; by apply rd_same).
      pose proof (further_spec (reverse sec) hNew s1 i best Hat1 ltac:(congruence)) as Hf. rewrite !Hpaths, reverse_involutive in Hf by done.
      specialize (Hf Epath ltac:(by eapply same_tree_is_Some) ltac:(by eapply ids_new_ext; [exact Hrd|])).
      specialize (Hf ltac:(intros k b Hk; rewrite <- Hrd; by apply Hfn)).
      destruct (connect_further _ _ _ _ _) as [r s2] eqn:Efur. destruct Hf as [(Hs2 & Hb2 & Hrest2) (m & Hat2 & Hm & Hr)].
      assert (same_best s s2) as Hsame.
      { destruct Hrest as (? & ? & ? & ?), Hrest2 as (? & ? & ? & ?). unfold same_best. conjs; try congruence. by etrans. }
      assert (m ∈ i :: sec) as Hm'. { apply elem_of_cons in Hm as [->|Hm]; [by left|right]. by rewrite elem_of_reverse in Hm. }
      assert (m ∈ path (mapBlockIndex s) hNew) as Hmp.
      { rewrite Epath. apply elem_of_app. apply elem_of_cons in Hm' as [->|?]; [right|by left].
        destruct Hi as [ni Hni]. destruct (path_of_head _ _ _ (path_of_path _ Hok _ _ Hni)) as [? ->]. by left. }
      destruct r as [[]|n|]; [|by exfalso; eapply further_not_fail|].
      * split; [done|]. exists m. split; [done|]. split; [done|]. destruct Hr as [->|(h & Hh & Href)]; [by left|].
        destruct (Htrust m Hm') as [->|Hgt]; [by left|]. right. split; [done|]. exists h. split.
        { rewrite Epath. apply elem_of_app. left. by rewrite elem_of_reverse in Hh. }
        destruct Href as [Hp Href]. split; [by rewrite (pprev_same _ _ h Hs)|]. intros b. rewrite Hrd. apply Href.
      * split; [done|]. exists m. done.
    + by apply InvalidChainFound_unmoved.
    + split; [apply HR|]. exists best. split; [by eapply unmoved_at|done].
Qed.
Lemma SetBestChain_spec s best hNew block g : chain_at s best -> pindexBest s = Some best -> hashBestChain s = best ->
  pindexGenesisBlock s = Some g -> rd (mapBlockIndex s) hNew = Some block ->
  pprev (mapBlockIndex s) hNew = Some (hashPrevBlock (header block)) ->
  pprev (mapBlockIndex s) g = None -> g ∈ path (mapBlockIndex s) best -> g ∈ path (mapBlockIndex s) hNew ->
  ids_new (rd (mapBlockIndex s)) (path (mapBlockIndex s) hNew) ->
  txs_fit (rd (mapBlockIndex s)) (path (mapBlockIndex s) best) -> txs_fit (rd (mapBlockIndex s)) (path (mapBlockIndex s) hNew) ->
  match SetBestChain params hashGenesisBlock ReadBlockFile TxnCommit block hNew s with
  | (Ok _, s') => same_tree (mapBlockIndex s) (mapBlockIndex s') /\
      pindexBest s' = Some hNew /\ hashBestChain s' = hNew /\ nBestHeight s' = height_of (mapBlockIndex s) hNew /\
      nBestChainTrust s' = trust_of (mapBlockIndex s) hNew /\
      exists m, chain_at s' m /\ (m ∈ path (mapBlockIndex s) hNew) /\
        (m = hNew \/ op_gt (trust_of (mapBlockIndex s) m) (trust_of (mapBlockIndex s) best) = true /\
           exists h, (h ∈ path (mapBlockIndex s) hNew) /\ refused (mapBlockIndex s) m h)
  | (Fail _, s') => unmoved s s'
  | (Throw, s') => same_best s s' /\ exists m, chain_at s' m
  end.
Proof.
  intros Hat Eb Eh Eg Hb Hprev Hroot Hgb Hgn Hids Hfb Hfn. unfold SetBestChain.
  pose proof (move_chain_spec s best hNew block g Hat Eb Eh Eg Hb Hprev Hroot Hgb Hgn Hids Hfb Hfn) as H.
  destruct (move_chain _ _ _ _ _ _ _) as [[[]|n|] s'].
  - destruct H as [(Hs & _) (m & Hat' & Hm & Hor)]. cbn [set_best pindexBest hashBestChain nBestHeight nBestChainTrust mapBlockIndex].
    conjs; [done|done|by eapply read_hash; [apply Hat|]|by rewrite (height_same _ _ _ Hs)|by rewrite (trust_same _ _ _ Hs)|].
    exists m. split; [by apply set_best_at|done].
  - done.
  - destruct H as [Hs (m & Hm & _)]. split; [done|]. by exists m.
Qed.
End Follow.

(** ** The ledger and the pool as the components *)

Section Components.
Context `{HD : Digests} `{BN : OpenSSL_BN} `{EC : ECDSA}.
Context (ReadTxFromDisk : CDiskTxPos -> option CTransaction) (ReadHeaderFromDisk : Z -> Z -> option CBlockHeader).
Context (pool : gmap uint256 CTransaction) (nAdjustedTime : Z) {W : Type}.
Context (VerifySig : CTransaction -> CTransaction -> nat -> W -> bool * W) (mt19937_uniform : Z -> Z -> Z).
Context (params : chain_params) (fSkipSigs : bool).

(** The records of the block index in the database. *)
Definition write_index (ds : list CDiskBlockIndex) (m : gmap uint256 CDiskBlockIndex) : gmap uint256 CDiskBlockIndex :=
  fold_left (fun m d => <[bi_hash (d_index d) := d]> m) ds m.

(** The database holds the transaction index and the block index; the verifier's
    state and the calls of the wallets are outside it. *)
Definition ledger_ops : LedgerOps (txindex_map * gmap uint256 CDiskBlockIndex) (W * list wallet_sync) := {|
  lg_connect nBest pindex hashNext b '(t, d) '(w, syncs) :=
    match ConnectBlock ReadTxFromDisk ReadHeaderFromDisk pool nAdjustedTime VerifySig mt19937_uniform params t nBest pindex hashNext
            false fSkipSigs b w with
    | Ok (bi, t, w, eff) => Ok (bi, (t, write_index (WriteBlockIndex eff) d), (w, syncs ++ SyncWithWallets eff))
    | Fail n => Fail n
    | Throw => Throw
    end;
  lg_disconnect pindex b '(t, d) '(w, syncs) :=
    match DisconnectBlock b pindex t with
    | None => None
    | Some (t, eff) => Some ((t, write_index (WriteBlockIndex eff) d), (w, syncs ++ SyncWithWallets eff))
    end;
  lg_txindex := fst;
  lg_write_index ds '(t, d) := (t, write_index ds d);
|}.

#[refine, export] Instance ledger_ops_ok : LedgerOps_ok ledger_ops txindex_map := {|
  lg_view := fst;
  lg_fresh c b t := Forall inputs_valid (vtx b) /\ match c with [] => False | bi :: _ => bi_nFile bi <> UINT_MAX end /\ canonical t /\
    Forall (fun tx => t !! CTransaction_GetHash tx = None) (vtx b);
|}.
Proof.
  3: by intros ds [t d].
  all: intros n bi c hn b [t d] [w syncs] bi' v' e'; cbn [lg_connect ledger_ops fst];
    destruct (ConnectBlock _ _ _ _ _ _ _ _ _ _ _ _ _ _ _) as [[[[bi1 t1] w1] eff]| |] eqn:Ec; [|done|done];
    apply ConnectBlock_undo in Ec as (Hrec & _ & Hundo); intros [= <- <- <-].
  - done.
  - intros (Hv & Hf & Hc & Hnew) c' [t2 d2] [w2 s2]. cbn [fst]. intros ->. cbn [lg_disconnect ledger_ops]. unfold DisconnectBlock.
    rewrite Hundo by done. eexists _, _. by split.
Qed.

Context (GetRandHash : nat -> uint256) (fTestNet fEnforceCanonical : bool) {L : Type} (limiter : CTransaction -> Z -> L -> bool * L).

Abbreviation accept_unchecked := (accept GetRandHash ReadTxFromDisk nAdjustedTime params fTestNet fEnforceCanonical limiter ∅ []).

(** Resurrecting does not check inputs, so the index and the chain are not read. *)
Definition pool_ops : PoolOps (CTxMemPool * CSignatureCache * L) := {|
  tp_accept tx '(p, c, l) := match accept_unchecked tx false p c l with None => None | Some a => Some (a_pool a, a_cache a, a_limiter a) end;
  tp_remove tx '(p, c, l) := match remove false tx p with None => None | Some p => Some (p, c, l) end;
  tp_removeConflicts tx '(p, c, l) := match removeConflicts tx p with None => None | Some p => Some (p, c, l) end;
  tp_updated '(p, c, l) := (mkPool (mapTx p) (mapNextTx p) (u32 (nTransactionsUpdated p + 1)), c, l);
|}.

(** The transactions there are: spending has no cycles and ids no collisions. *)
Context (rank : uint256 -> nat) (universe : uint256 -> option CTransaction).

Definition fits (tx : CTransaction) : Prop :=
  inputs_valid tx /\ tx_ranked rank tx /\ universe (CTransaction_GetHash tx) = Some tx.
Definition pool_fits (p : CTxMemPool) : Prop := pool_ok p /\ ranked rank p /\ map_Forall (fun _ tx => fits tx) (mapTx p).
Definition free_of (tx : CTransaction) (p : CTxMemPool) : Prop :=
  mapTx p !! CTransaction_GetHash tx = None /\ Forall (fun x => mapNextTx p !! prevout x = None) (vin tx).

Lemma pool_fits_sub p p' : pool_fits p -> pool_ok p' -> mapTx p' ⊆ mapTx p -> pool_fits p'.
Proof.
  intros (_ & Hr & HF) Hok Hs. split; [done|]. split; [by eapply ranked_sub|]. intros h tx Hh. eapply HF. by eapply lookup_weaken.
Qed.

Lemma free_of_sub tx p p' : pool_ok p -> pool_ok p' -> mapTx p' ⊆ mapTx p -> free_of tx p -> free_of tx p'.
Proof.
  intros Hok Hok' Hs [H1 H2]. split; [by eapply lookup_weaken_None|]. eapply Forall_impl; [exact H2|]. cbn. intros x Hx.
  destruct (mapNextTx p' !! prevout x) as [[h i]|] eqn:E; [|done].
  apply Hok' in E as (t & y & Ht & Hy & Ey). assert (mapNextTx p !! prevout x = Some (mkInPoint h i)); [|congruence].
  apply Hok. exists t, y. conjs; [by eapply lookup_weaken|done|done].
Qed.

Lemma same_id p tx t : pool_fits p -> fits tx -> mapTx p !! CTransaction_GetHash tx = Some t -> t = tx.
Proof.
  intros (Hok & _ & HF) (_ & _ & Hu) Ht. destruct (HF _ _ Ht) as (_ & _ & Hu'). destruct (ok_hash _ Hok _ _ Ht) as [E _]. congruence.
Qed.

#[refine, export] Instance pool_ops_ok : PoolOps_ok pool_ops := {|
  tp_ok '(p, _, _) := pool_fits p; tp_fits := fits; tp_free tx '(p, _, _) := free_of tx p;
|}.
Proof.
  - intros tx [[p c] l] (Hok & Hr & HF) (Hv & Hrk & Hu). cbn [tp_accept pool_ops].
    destruct (accept_spec GetRandHash ReadTxFromDisk nAdjustedTime params fTestNet fEnforceCanonical limiter ∅ [] tx false p c l Hv)
      as (a & Ea & _ & H). rewrite Ea. eexists. split; [done|]. cbn beta iota.
    destruct (accept_ranked params fTestNet rank _ _ _ _ _ _ _ _ _ _ _ _ _ Hv Hrk Ea) as [Hok' Hr']; [done|]. split; [done|]. split; [done|].
    destruct (a_ok a); [|by rewrite H]. destruct H as (_ & -> & _). cbn [addUnchecked mapTx]. apply map_Forall_insert_2; [done|done].
  - intros tx [[p c] l] Hp Hf. cbn [tp_remove pool_ops]. pose proof Hp as (Hok & Hr & _).
    destruct (remove_ok rank p false tx Hok Hr) as (p' & -> & Hok' & Hs & _); [intros t; by apply same_id|].
    eexists. split; [done|]. by eapply pool_fits_sub.
  - intros tx [[p c] l] Hp Hf. unfold delete_tx. cbn [tp_remove tp_removeConflicts pool_ops]. pose proof Hp as (Hok & Hr & _).
    destruct (remove_ok rank p false tx Hok Hr) as (p1 & -> & Hok1 & Hs1 & Hgone); [intros t; by apply same_id|].
    destruct (conflicts_loop_ok rank tx (vin tx) p1 Hok1) as (p2 & E2 & Hok2 & Hs2 & HF); [by eapply ranked_sub|].
    unfold removeConflicts. rewrite E2. eexists. split; [done|]. cbn beta iota. split; [eapply pool_fits_sub; [exact Hp|done|by etrans]|].
    assert (mapTx p2 !! CTransaction_GetHash tx = None) as Hg2 by (by eapply lookup_weaken_None). split.
    + split; [done|]. eapply Forall_impl; [exact HF|]. cbn. intros x Hx. destruct (mapNextTx p2 !! prevout x) as [ip|] eqn:E; [|done].
      specialize (Hx ip eq_refl). destruct (ok_hash _ Hok2 _ _ Hx) as [Eh _]. congruence.
    + intros tx'. eapply free_of_sub; [done|done|by etrans].
  - intros [[p c] l] (Hok & Hr & HF). cbn [tp_updated pool_ops]. split; [|done]. destruct Hok. split; done.
Qed.
End Components.

(** ** Properties *)

(** C4: moving to another chain is all or nothing, and exact.  The state is
    consistent; no block of the new chain repeats a transaction id that is still in
    use, and the transactions of both chains fit the pool.  When [SetBestChain]
    returns false, the block tree, the best block with its height and trust, the
    [pnext] pointers, the database and the pool are as before; what may have changed
    is the best invalid trust seen, [nMint] and [nMoneySupply] of blocks it tried to
    connect, and what lies outside (the wallets that were told, the signature cache).
    When it returns true they are, for a block [m] of the new chain, those of the
    chain that ends in [m]: the database is what connecting its blocks in order
    gives, and [pnext] leads along it.  [m] is the new best block, unless a
    postponed block was refused; the in-memory best block is the new one all the
    same.  When it throws, the best block is as before and pointers, database and
    pool are still those of one chain. *)
Theorem set_best_chain_exact `{HD : Digests} `{BN : OpenSSL_BN} {V E P T : Type} {LO : LedgerOps V E} {PO : PoolOps P}
    {LOk : LedgerOps_ok LO T} {POk : PoolOps_ok PO} (params : chain_params) (hashGenesisBlock : uint256)
    (ReadBlockFile : Z -> Z -> option CBlock) (TxnCommit : @db V -> bool) (t0 : T)
    (s : @chain_state V E P) (best hNew g : uint256) (block : CBlock) :
  let idx := mapBlockIndex s in
  let blocks := read_block params ReadBlockFile idx in
  chain_at params ReadBlockFile t0 s best -> pindexBest s = Some best -> hashBestChain s = best -> pindexGenesisBlock s = Some g ->
  blocks hNew = Some block -> pprev idx hNew = Some (hashPrevBlock (header block)) ->
  pprev idx g = None -> g ∈ path idx best -> g ∈ path idx hNew ->
  ids_new t0 blocks (path idx hNew) -> txs_fit blocks (path idx best) -> txs_fit blocks (path idx hNew) ->
  match SetBestChain params hashGenesisBlock ReadBlockFile TxnCommit block hNew s with
  | (Ok _, s') => same_tree idx (mapBlockIndex s') /\
      pindexBest s' = Some hNew /\ hashBestChain s' = hNew /\ nBestHeight s' = height_of idx hNew /\
      nBestChainTrust s' = trust_of idx hNew /\
      exists m, chain_at params ReadBlockFile t0 s' m /\ (m ∈ path idx hNew) /\
        (m = hNew \/ op_gt (trust_of idx m) (trust_of idx best) = true /\
           exists h, (h ∈ path idx hNew) /\ refused params ReadBlockFile TxnCommit t0 idx m h)
  | (Fail _, s') => unmoved s s'
  | (Throw, s') => same_best s s' /\ exists m, chain_at params ReadBlockFile t0 s' m
  end.
Proof. apply SetBestChain_spec. Qed.

(** A reorganization cleans the pool: when [Reorganize] on a consistent state
    returns true, the pool is consistent and free of every transaction of the newly
    connected blocks and of whatever spends the same outputs. *)
Theorem reorganize_cleans_pool `{HD : Digests} `{BN : OpenSSL_BN} {V E P T : Type} {LO : LedgerOps V E} {PO : PoolOps P}
    {LOk : LedgerOps_ok LO T} {POk : PoolOps_ok PO} (params : chain_params)
    (ReadBlockFile : Z -> Z -> option CBlock) (TxnCommit : @db V -> bool) (t0 : T)
    (s s' : @chain_state V E P) (best hNew g : uint256) :
  let idx := mapBlockIndex s in
  let blocks := read_block params ReadBlockFile idx in
  chain_at params ReadBlockFile t0 s best -> pindexBest s = Some best -> is_Some (idx !! hNew) -> g ∈ path idx best -> g ∈ path idx hNew ->
  ids_new t0 blocks (path idx hNew) -> txs_fit blocks (path idx best) -> txs_fit blocks (path idx hNew) ->
  Reorganize params ReadBlockFile TxnCommit hNew s = (Ok (), s') ->
  tp_ok (mempool s') /\ forall h block tx, h ∈ path idx hNew -> h ∉ path idx best -> blocks h = Some block -> tx ∈ vtx block ->
    tp_free tx (mempool s').
Proof.
  intros idx blocks Hat Eb Hnew Hgb Hgn Hids Hfb Hfn HR.
  pose proof (Reorganize_spec params ReadBlockFile TxnCommit t0 s best hNew g Hat Eb Hnew Hgb Hgn Hids Hfb Hfn) as H. rewrite HR in H.
  destruct H as (_ & Hat' & Hfree). split; [apply Hat'|exact Hfree].
Qed.

(** ** A chain *)

(** The hash of a block is its nonce, eight times. *)
Definition nonce_digests : Digests := {|
  SHA256 _ := replicate 32 0; RIPEMD160 _ := replicate 20 0; SHA1 _ := replicate 20 0; Hash9 l := concat (replicate 8 (drop 76 l));
|}.

(** A ledger that is the list of the connected blocks and refuses block 14, and a
    pool that is always empty. *)
Definition list_ledger : LedgerOps (list Z) unit := {|
  lg_connect _ c _ b v e := match c with [] => Throw | bi :: _ => if nNonce (header b) =? 14 then Fail 100 else Ok (bi, nNonce (header b) :: v, e) end;
  lg_disconnect _ b v e := match v with [] => None | _ :: v => Some (v, e) end;
  lg_txindex _ := ∅; lg_write_index _ v := v;
|}.
Definition no_pool : PoolOps unit := {|
  tp_accept _ p := Some p; tp_remove _ p := Some p; tp_removeConflicts _ p := Some p; tp_updated p := p;
|}.

#[refine] Instance list_ledger_ok : LedgerOps_ok list_ledger (list Z) := {| lg_view v := v; lg_fresh _ _ _ := True |}.
Proof.
  - intros n bi c hn b v e bi' v' e'. cbn. case_match; [done|]. intros [= <- _ _]. exists (nMint bi), (nMoneySupply bi). by destruct bi.
  - intros n bi c hn b v e bi' v' e'. cbn. case_match; [done|]. intros [= _ <- _] _ c' v2 e2 ->. by eexists _, _.
  - done.
Defined.

#[refine] Instance no_pool_ok : PoolOps_ok no_pool := {| tp_ok _ := True; tp_fits _ := True; tp_free _ _ := True |}.
Proof. all: cbn; eauto 6. Defined.

(** The tree of [BlockTree], with block 14 after 13. *)
Definition bc_tree : block_index := list_to_map [tr_node 14 4 10 (Some 13) None] ∪ tr_tree.
Definition bc_prev (n : Z) : Z := if n =? 12 then 1 else n - 1.
Definition bc_block (n : Z) : CBlock := mkBlock (mkHeader 6 (tr_hash (bc_prev n)) (uint_zero 8) 0 0x1e0fffff n) [] [].
Definition bc_disk (nFile n : Z) : option CBlock := Some (bc_block n).
Definition bc_state : @chain_state (list Z) unit unit :=
  mkState bc_tree (Some (tr_hash 0)) (Some (tr_hash 3)) (tr_hash 3) 3 (digits (2 ^ 32) 8 4) (uint_zero 8) None
    (mkDb [3; 2; 1] (tr_hash 3)) tt tt.
Abbreviation bc_set_best := (@SetBestChain nonce_digests reference_BN _ _ _ list_ledger no_pool (@main_net reference_BN) (tr_hash 0) bc_disk (fun _ => true)).
Abbreviation bc_read := (@read_block nonce_digests reference_BN (@main_net reference_BN) bc_disk bc_tree).

Lemma bc_replay n l v : @replay _ _ _ list_ledger list_ledger_ok [] bc_read l v -> bc_read (tr_hash n) = Some (bc_block n) ->
  n <> 14 -> @replay _ _ _ list_ledger list_ledger_ok [] bc_read (tr_hash n :: l) (n :: v).
Proof.
  intros Hr Hb Hn.
  apply (@replay_block _ _ _ list_ledger list_ledger_ok [] bc_read (tr_hash n) l (bc_block n) 0 (tr_rec 0 0 0) [] (uint_zero 8) v tt
    (tr_rec 0 0 0) (n :: v) tt Hr Hb); [|exact I].
  cbn. destruct (Z.eqb_spec n 14); [done|]. done.
Qed.

Lemma bc_at : @chain_at nonce_digests reference_BN _ _ _ _ list_ledger no_pool list_ledger_ok no_pool_ok (@main_net reference_BN) bc_disk []
  bc_state (tr_hash 3).
Proof.
  split; cbn [bc_state mapBlockIndex txdb db_hashBestChain db_ledger lg_view list_ledger_ok mempool].
  - apply tree_okb_ok. vm_compute. reflexivity.
  - has_entry.
  - apply linkedb_ok. vm_compute. reflexivity.
  - reflexivity.
  - replace (path bc_tree (tr_hash 3)) with [tr_hash 3; tr_hash 2; tr_hash 1; tr_hash 0] by (vm_compute; reflexivity).
    repeat (apply bc_replay; [|vm_compute; reflexivity|lia]). apply replay_genesis.
  - exact I.
Qed.

Lemma bc_ids l : @ids_new _ _ _ list_ledger list_ledger_ok [] bc_read l.
Proof. intros h l1 l2 block n bi c hn v e r _ _ _ _. exact I. Qed.

Lemma bc_fit l : @txs_fit _ no_pool no_pool_ok bc_read l.
Proof. intros h b _ _. apply Forall_forall. intros tx _. exact I. Qed.

Lemma set_best_chain_exact_witness : exists s', bc_set_best (bc_block 13) (tr_hash 13) bc_state = (Ok (), s') /\ pindexBest s' = Some (tr_hash 13).
Proof.
  assert (bc_read (tr_hash 13) = Some (bc_block 13)) as Hb by (vm_compute; reflexivity).
  assert (pprev bc_tree (tr_hash 13) = Some (tr_hash 12)) as Hp by (vm_compute; reflexivity).
  assert (pprev bc_tree (tr_hash 0) = None) as Hr by (vm_compute; reflexivity).
  assert (tr_hash 0 ∈ path bc_tree (tr_hash 3)) as H3 by on_path. assert (tr_hash 0 ∈ path bc_tree (tr_hash 13)) as H13 by on_path.
  pose proof (@set_best_chain_exact nonce_digests reference_BN _ _ _ _ list_ledger no_pool list_ledger_ok no_pool_ok
    (@main_net reference_BN) (tr_hash 0) bc_disk (fun _ => true) [] bc_state (tr_hash 3) (tr_hash 13) (tr_hash 0) (bc_block 13)
    bc_at eq_refl eq_refl eq_refl Hb Hp Hr H3 H13 (bc_ids _) (bc_fit _) (bc_fit _)) as H.
  destruct (bc_set_best (bc_block 13) (tr_hash 13) bc_state) as [[[]|n|] s'] eqn:E.
  - exists s'. split; [reflexivity | exact (proj1 (proj2 H))].
  - exfalso. revert E. vm_compute. discriminate.
  - exfalso. revert E. vm_compute. discriminate.
Defined.

Lemma reorganize_cleans_pool_witness : exists s',
  @Reorganize nonce_digests reference_BN _ _ _ list_ledger no_pool (@main_net reference_BN) bc_disk (fun _ => true) (tr_hash 13) bc_state = (Ok (), s') /\
  @tp_ok _ no_pool no_pool_ok (mempool s').
Proof.
  assert (is_Some (bc_tree !! tr_hash 13)) as Hn by has_entry.
  assert (tr_hash 0 ∈ path bc_tree (tr_hash 3)) as H3 by on_path. assert (tr_hash 0 ∈ path bc_tree (tr_hash 13)) as H13 by on_path.
  destruct (@Reorganize nonce_digests reference_BN _ _ _ list_ledger no_pool (@main_net reference_BN) bc_disk (fun _ => true) (tr_hash 13) bc_state)
    as [[[]|n|] s'] eqn:E; [|exfalso; revert E; vm_compute; discriminate ..]. exists s'. split; [reflexivity|].
  exact (proj1 (@reorganize_cleans_pool nonce_digests reference_BN _ _ _ _ list_ledger no_pool list_ledger_ok no_pool_ok
    (@main_net reference_BN) bc_disk (fun _ => true) [] bc_state s' (tr_hash 3) (tr_hash 13) (tr_hash 0)
    bc_at eq_refl Hn H3 H13 (bc_ids _) (bc_fit _) (bc_fit _) E)).
Defined.

(** Block 14 is refused after the move to 13, and still becomes the best block in
    memory; the database stays at 13. *)
Example best_block_not_connected :
  (fun r => (pindexBest (snd r), db_hashBestChain (txdb (snd r)), db_ledger (txdb (snd r)))) (bc_set_best (bc_block 14) (tr_hash 14) bc_state)
  = (Some (tr_hash 14), tr_hash 13, [13; 12; 1]).
Proof. vm_compute. reflexivity. Qed.
