(* ===== verification/Checkpoints.v ===== *)
(** * Checkpoints (checkpoints.cpp, checkpoints.h)

    Hard-coded checkpoints, and synchronized ones, announced by the holder of the
    master key.  The state is the hashes of the current, the pending and the last
    invalid checkpoint with their messages; accepting a checkpoint may move the best
    chain, so the operations also carry the state of [BestChain]. *)

From S2P Require Import Prelude Uint256 Serialize BigNum Tx Merkle Script Interp InterpRun Standard Consensus Ledger Mempool MempoolFacts BlockTree BestChain BestChainFacts.

(** ** Hardened checkpoints *)

(** The digits of a hexadecimal constant, most significant first, are given as a
    number. *)
Definition uint256_of (z : Z) : uint256 := digits (2 ^ 32) 8 z.

Definition hashGenesisBlock : uint256 := uint256_of 0x00000fea25f87416682baa54946a1d156909d0959588eb573a0ae16a64230c61.
Definition hashGenesisBlockTestNet : uint256 := uint256_of 0x00000fea25f87416682baa54946a1d156909d0959588eb573a0ae16a64230c61.

(** In the order of the heights, as the map has them. *)
Definition mapCheckpoints : list (Z * uint256) :=
  [(0, hashGenesisBlock);
   (25, uint256_of 0x000001cc753748395adc5bada031b8df33ab40ac6cbff52babef0c56ebdc0bc3);
   (701720, uint256_of 0x0000000000011348d2e6c48125d1e97912b84e2afa5e85db37303366a25cda73);
   (701907, uint256_of 0x27895d01be9f6a7a9fe8756da7dbd8bbbf435675b27359bfa1ffd10cd9f17b6a);
   (770605, uint256_of 0x3bd5f669ae847624b32f2bbb7bfda1568cb2f347cea08f61191c92ce840c116b);
   (974427, uint256_of 0xfe79e1b25515d1682e20b68e0190fde50759e95b8070c2ac55c9621a44c33b3c)].
Definition mapCheckpointsTestnet : list (Z * uint256) := [(0, hashGenesisBlockTestNet)].

Definition checkpoints (fTestNet : bool) : list (Z * uint256) := if fTestNet then mapCheckpointsTestnet else mapCheckpoints.

Definition CheckHardened (fTestNet : bool) (nHeight : Z) (hash : uint256) : bool :=
  match list_find (fun i => fst i = nHeight) (checkpoints fTestNet) with
  | None => true
  | Some (_, i) => bool_decide (hash = snd i)
  end.

Definition GetTotalBlocksEstimate (fTestNet : bool) : Z :=
  match reverse (checkpoints fTestNet) with i :: _ => fst i | [] => 0 end.

Definition GetLastCheckpoint (fTestNet : bool) (idx : block_index) : option uint256 :=
  (fun i => snd (snd i)) <$> list_find (fun i => is_Some (idx !! snd i)) (reverse (checkpoints fTestNet)).

(** ** Synchronized checkpoints *)

Definition CHECKPOINT_MAX_SPAN : Z := 60 * 60.

Record CSyncCheckpoint := mkCheckpoint { sc_nVersion : Z; hashCheckpoint : uint256; vchMsg : list Z; vchSig : list Z }.
Definition CSyncCheckpoint_null : CSyncCheckpoint := mkCheckpoint 1 (uint_zero 8) [] [].
Definition CSyncCheckpoint_IsNull (c : CSyncCheckpoint) : bool := bool_decide (hashCheckpoint c = uint_zero 8).

Record sync_state := mkSyncState {
  hashSyncCheckpoint : uint256; hashPendingCheckpoint : uint256; hashInvalidCheckpoint : uint256;
  checkpointMessage : CSyncCheckpoint; checkpointMessagePending : CSyncCheckpoint;
}.

Definition set_sync (h : uint256) (y : sync_state) : sync_state :=
  mkSyncState h (hashPendingCheckpoint y) (hashInvalidCheckpoint y) (checkpointMessage y) (checkpointMessagePending y).
Definition set_invalid (h : uint256) (y : sync_state) : sync_state :=
  mkSyncState (hashSyncCheckpoint y) (hashPendingCheckpoint y) h (checkpointMessage y) (checkpointMessagePending y).
Definition set_pending (h : uint256) (m : CSyncCheckpoint) (y : sync_state) : sync_state :=
  mkSyncState (hashSyncCheckpoint y) h (hashInvalidCheckpoint y) (checkpointMessage y) m.
Definition set_message (m : CSyncCheckpoint) (y : sync_state) : sync_state :=
  mkSyncState (hashSyncCheckpoint y) (hashPendingCheckpoint y) (hashInvalidCheckpoint y) m (checkpointMessagePending y).

Definition GetLastSyncCheckpoint (idx : block_index) (y : sync_state) : option uint256 :=
  match idx !! hashSyncCheckpoint y with None => None | Some _ => Some (hashSyncCheckpoint y) end.

(** Trace back from [from] to the height of [target] and compare. *)
Definition traces_to (idx : block_index) (from target : uint256) : option bool :=
  match trace_back (size idx) idx (height_of idx target) from with
  | None => None
  | Some k => Some (bool_decide (k = target))
  end.

Definition ValidateSyncCheckpoint (idx : block_index) (hashRecv : uint256) (y : sync_state) : bool * sync_state :=
  match idx !! hashSyncCheckpoint y, idx !! hashRecv with
  | Some pindexSync, Some pindexRecv =>
      if nHeight (n_rec pindexRecv) <=? nHeight (n_rec pindexSync) then
        match traces_to idx (hashSyncCheckpoint y) hashRecv with
        | None => (false, y)
        | Some false => (false, set_invalid hashRecv y)
        | Some true => (false, y)
        end
      else
        match traces_to idx hashRecv (hashSyncCheckpoint y) with
        | None => (false, y)
        | Some false => (false, set_invalid hashRecv y)
        | Some true => (true, y)
        end
  | _, _ => (false, y)
  end.

(** [None] when the assertion that the checkpoint is indexed fails. *)
Definition CheckSync (fTestNet : bool) (idx : block_index) (y : sync_state) (hashBlock hashPrev : uint256) : option bool :=
  if fTestNet then Some true
  else
    let nHeight := height_of idx hashPrev + 1 in
    match idx !! hashSyncCheckpoint y with
    | None => None
    | Some pindexSync =>
        let nSync := Consensus.nHeight (n_rec pindexSync) in
        if nSync <? nHeight then
          match trace_back (size idx) idx nSync hashPrev with
          | None => Some false
          | Some k => Some (negb ((height_of idx k <? nSync) || negb (bool_decide (k = hashSyncCheckpoint y))))
          end
        else if ((nHeight =? nSync) && negb (bool_decide (hashBlock = hashSyncCheckpoint y)))%bool then Some false
        else if ((nHeight <? nSync) && negb (bool_decide (is_Some (idx !! hashBlock))))%bool then Some false
        else Some true
    end.

(** [while (pindex->pprev && (too young || too high))] *)
Fixpoint select_back (fuel : nat) (idx : block_index) (best : CBlockIndex) (h : uint256) : uint256 :=
  match fuel, idx !! h with
  | S fuel, Some nd =>
      match n_pprev nd with
      | None => h
      | Some p =>
          if ((bi_nTime best <? bi_nTime (n_rec nd) + CHECKPOINT_MAX_SPAN) || (nHeight best <? nHeight (n_rec nd) + 8))%bool
          then select_back fuel idx best p else h
      end
  | _, _ => h
  end.

Definition AutoSelectSyncCheckpoint (idx : block_index) (pindexBest : uint256) : option uint256 :=
  match idx !! pindexBest with
  | None => None
  | Some nd => Some (select_back (S (size idx)) idx (n_rec nd) pindexBest)
  end.

(** ** Orphan blocks *)

(** [while (mapOrphanBlocks.count(pblock->hashPrevBlock))] step to that block *)
Fixpoint orphan_root (fuel : nat) (orphans : gmap uint256 CBlock) (b : CBlock) : option CBlock :=
  match orphans !! hashPrevBlock (header b) with
  | None => Some b
  | Some p => match fuel with O => None | S fuel => orphan_root fuel orphans p end
  end.

Definition GetOrphanRoot `{HD : Digests} (orphans : gmap uint256 CBlock) (b : CBlock) : option uint256 :=
  (fun r => CBlockHeader_GetHash (header r)) <$> orphan_root (size orphans) orphans b.
Definition WantedByOrphan (orphans : gmap uint256 CBlock) (b : CBlock) : option uint256 :=
  (fun r => hashPrevBlock (header r)) <$> orphan_root (size orphans) orphans b.

Definition WantedByPendingSyncCheckpoint (orphans : gmap uint256 CBlock) (y : sync_state) (hashBlock : uint256) : bool :=
  if decide (hashPendingCheckpoint y = uint_zero 8) then false
  else if decide (hashBlock = hashPendingCheckpoint y) then true
  else
    match orphans !! hashPendingCheckpoint y with
    | None => false
    | Some b => bool_decide (WantedByOrphan orphans b = Some hashBlock)
    end.

(** ** Operations that move the chain *)

Section Sync.
Context `{HD : Digests} `{BN : OpenSSL_BN} `{EC : ECDSA} {V E P : Type} {LO : LedgerOps V E} {PO : PoolOps P}.
Context (params : chain_params) (fTestNet : bool).
Context (ReadBlockFile : Z -> Z -> option CBlock) (TxnCommit : @db V -> bool).
(** Whether the checkpoint can be written to the database. *)
Context (WriteOk : uint256 -> bool).

Abbreviation state := (@chain_state V E P).
Abbreviation genesis := (if fTestNet then hashGenesisBlockTestNet else hashGenesisBlock).

Definition WriteSyncCheckpoint (h : uint256) (y : sync_state) : bool * sync_state :=
  if WriteOk h then (true, set_sync h y) else (false, y).

(** Make a checkpoint's block part of the main chain: [ReadFromDisk] and
    [SetBestChain] where it is not.  The flag says whether [SetBestChain] failed. *)
Definition enter_main_chain (h : uint256) (s : state) : res bool * state :=
  if IsInMainChain (mapBlockIndex s) (pindexBest s) h then (Ok true, s)
  else
    match read_block params ReadBlockFile (mapBlockIndex s) h with
    | None => (Fail 0, s)
    | Some block =>
        match SetBestChain params genesis ReadBlockFile TxnCommit block h s with
        | (Ok _, s) => (Ok true, s)
        | (Fail _, s) => (Ok false, s)
        | (Throw, s) => (Throw, s)
        end
    end.

(** The relaying of the message is left out. *)
Definition AcceptPendingSyncCheckpoint (s : state) (y : sync_state) : res unit * state * sync_state :=
  let h := hashPendingCheckpoint y in
  if (negb (bool_decide (h = uint_zero 8)) && bool_decide (is_Some (mapBlockIndex s !! h)))%bool then
    match ValidateSyncCheckpoint (mapBlockIndex s) h y with
    | (false, y) => (Fail 0, s, set_pending (uint_zero 8) CSyncCheckpoint_null y)
    | (true, y) =>
        match enter_main_chain h s with
        | (Fail _, s) => (Fail 0, s, y)
        | (Throw, s) => (Throw, s, y)
        | (Ok false, s) => (Fail 0, s, set_invalid h y)
        | (Ok true, s) =>
            match WriteSyncCheckpoint h y with
            | (false, y) => (Fail 0, s, y)
            | (true, y) => (Ok (), s, set_pending (uint_zero 8) CSyncCheckpoint_null (set_message (checkpointMessagePending y) y))
            end
        end
    end
  else (Fail 0, s, y).

(** [ParseHex] of [strMasterPubKey], kept general; [master_key_empty] says what follows
    from the value the program has. *)
Context (masterPubKey : list Z).

Definition CUnsignedSyncCheckpoint_codec : codec (Z * uint256) := pair_codec (sint_codec 4) uint256_codec.

(** [None] when reading the message throws. *)
Definition CheckSignature (c : CSyncCheckpoint) : option (bool * CSyncCheckpoint) :=
  if negb (o2i_ECPublicKey masterPubKey) then Some (false, c)
  else if negb (ECDSA_verify (Hash (vchMsg c)) (vchSig c) masterPubKey) then Some (false, c)
  else
    match dec CUnsignedSyncCheckpoint_codec (vchMsg c) with
    | None => None
    | Some ((v, h), _) => Some (true, mkCheckpoint v h (vchMsg c) (vchSig c))
    end.

(** Asking the sender for blocks is left out. *)
Definition ProcessSyncCheckpoint (c : CSyncCheckpoint) (s : state) (y : sync_state) : res unit * state * sync_state :=
  match CheckSignature c with
  | None => (Throw, s, y)
  | Some (false, _) => (Fail 0, s, y)
  | Some (true, c) =>
      let h := hashCheckpoint c in
      match mapBlockIndex s !! h with
      | None => (Fail 0, s, set_pending h c y)
      | Some _ =>
          match ValidateSyncCheckpoint (mapBlockIndex s) h y with
          | (false, y) => (Fail 0, s, y)
          | (true, y) =>
              match enter_main_chain h s with
              | (Fail _, s) => (Fail 0, s, y)
              | (Throw, s) => (Throw, s, y)
              | (Ok false, s) => (Fail 0, s, set_invalid h y)
              | (Ok true, s) =>
                  match WriteSyncCheckpoint h y with
                  | (false, y) => (Fail 0, s, y)
                  | (true, y) => (Ok (), s, set_pending (uint_zero 8) CSyncCheckpoint_null (set_message c y))
                  end
              end
          end
      end
  end.

(** The last hardened checkpoint of the main chain becomes the synchronized one. *)
Definition reset_to_hardened (s : state) (y : sync_state) : bool * sync_state :=
  match list_find (fun i => in_main (mapBlockIndex s) (pindexBest s) (snd i) = true) (reverse mapCheckpoints) with
  | None => (false, y)
  | Some (_, i) => WriteSyncCheckpoint (snd i) y
  end.

Definition ResetSyncCheckpoint (s : state) (y : sync_state) : res bool * state * sync_state :=
  match reverse mapCheckpoints with
  | [] => (Throw, s, y)
  | (_, hash) :: _ =>
      match mapBlockIndex s !! hash with
      | None =>
          let '(r, y) := reset_to_hardened s (set_pending hash CSyncCheckpoint_null y) in (Ok r, s, y)
      | Some _ =>
          match enter_main_chain hash s with
          | (Ok true, s) => let '(r, y) := reset_to_hardened s y in (Ok r, s, y)
          | (Ok false, s) => (Ok false, s, y)
          | (Fail _, s) => (Ok false, s, y)
          | (Throw, s) => (Throw, s, y)
          end
      end
  end.

(** [None] when the assertion fails. *)
Definition IsMatureSyncCheckpoint (s : state) (y : sync_state) (nAdjustedTime : Z) : option bool :=
  match mapBlockIndex s !! hashSyncCheckpoint y with
  | None => None
  | Some nd => Some ((nHeight (n_rec nd) + nCoinbaseMaturity params <=? nBestHeight s) ||
                     (bi_nTime (n_rec nd) + nStakeMinAge params <? nAdjustedTime))%bool
  end.
End Sync.

(** ** Descendants *)

Lemma traces_to_spec idx a b na nb : tree_ok idx -> idx !! a = Some na -> idx !! b = Some nb -> height_of idx b <= height_of idx a ->
  traces_to idx a b = Some (bool_decide (b ∈ path idx a)).
Proof.
  intros Hok Ha Hb Hle. pose proof (path_of_path idx Hok _ _ Ha) as Hp. unfold traces_to.
  destruct (Hok _ _ Hb) as (_ & Hb0 & _). rewrite (height_some idx b nb Hb) in Hb0.
  destruct (trace_back_path idx Hok (height_of idx b) a _ Hp Hb0) as (k & -> & Hk & Hkh). f_equal. apply bool_decide_ext. split; [by intros ->|].
  intros Hin. apply (path_height_inj idx Hok a _ _ _ Hp Hk Hin). lia.
Qed.

Lemma validate_spec idx h y ns nh : tree_ok idx -> idx !! hashSyncCheckpoint y = Some ns -> idx !! h = Some nh ->
  ValidateSyncCheckpoint idx h y =
    if decide (hashSyncCheckpoint y ∈ path idx h /\ h <> hashSyncCheckpoint y) then (true, y)
    else (false, if decide (h ∈ path idx (hashSyncCheckpoint y)) then y else set_invalid h y).
Proof.
  intros Hok Hs Hh. unfold ValidateSyncCheckpoint. rewrite Hs, Hh, (height_some idx _ ns Hs), (height_some idx _ nh Hh).
  set (c := hashSyncCheckpoint y) in *.
  assert (forall a b na, idx !! a = Some na -> b ∈ path idx a -> height_of idx b <= height_of idx a /\ (height_of idx b = height_of idx a -> b = a)) as Hlow.
  { intros a b na Ha Hb. pose proof (path_of_path idx Hok _ _ Ha) as Hp.
    assert (a ∈ path idx a) as Haa by (destruct (path_of_head _ _ _ Hp) as [? ->]; by left).
    split; [|intros E; by apply (path_height_inj idx Hok a _ _ _ Hp)]. apply list_elem_of_lookup in Hb as [i Hi].
    apply (path_of_lookup idx Hok _ _ _ _ Hp) in Hi as [_ ->]. lia. }
  destruct (Z.leb_spec (height_of idx h) (height_of idx c)) as [Hle|Hgt].
  - rewrite (traces_to_spec idx c h ns nh) by done. rewrite decide_False.
    2: { intros [Hin Hne]. destruct (Hlow h c nh Hh Hin) as [H1 H2]. apply Hne. symmetry. apply H2. lia. }
    case_bool_decide; [by rewrite decide_True | by rewrite decide_False].
  - rewrite (traces_to_spec idx h c nh ns) by (done || lia).
    assert (h <> c) by (intros ->; lia). assert (h ∉ path idx c) by (intros Hin; destruct (Hlow c h ns Hs Hin); lia).
    case_bool_decide; [by rewrite decide_True | rewrite decide_False by tauto; by rewrite decide_False].
Qed.

Lemma enter_spec `{HD : Digests} `{BN : OpenSSL_BN} {V E P : Type} {LO : LedgerOps V E} {PO : PoolOps P} params fT rf tc h
    (s s' : @chain_state V E P) : enter_main_chain params fT rf tc h s = (Ok true, s') ->
  IsInMainChain (mapBlockIndex s') (pindexBest s') h = true.
Proof.
  unfold enter_main_chain. destruct (IsInMainChain _ _ _) eqn:Em; [by intros [= <-]|].
  destruct (read_block _ _ _ _) as [b|]; [|done]. unfold SetBestChain. destruct (move_chain _ _ _ _ _ _ _) as [[[]| |] s1]; [|done..].
  intros [= <-]. cbn [set_best mapBlockIndex pindexBest]. unfold IsInMainChain. rewrite (bool_decide_true (Some h = Some h)) by done.
  apply orb_true_r.
Qed.

(** ** Properties *)

(** C12: synchronized checkpoints only advance.  A checkpoint message is accepted
    ([ProcessSyncCheckpoint]) only with a valid signature of the master key and for a
    proper descendant of the current checkpoint, which is then in the main chain and
    is the new checkpoint; otherwise the current one stays.  A conflicting one is
    remembered as invalid. *)
Theorem sync_checkpoint_advances `{HD : Digests} `{BN : OpenSSL_BN} `{EC : ECDSA} {V E P : Type} {LO : LedgerOps V E} {PO : PoolOps P}
    (params : chain_params) (fTestNet : bool) (ReadBlockFile : Z -> Z -> option CBlock) (TxnCommit : @db V -> bool)
    (WriteOk : uint256 -> bool) (masterPubKey : list Z) (c : CSyncCheckpoint)
    (s s' : @chain_state V E P) (y y' : sync_state) (r : res unit) :
  tree_ok (mapBlockIndex s) -> is_Some (mapBlockIndex s !! hashSyncCheckpoint y) ->
  ProcessSyncCheckpoint params fTestNet ReadBlockFile TxnCommit WriteOk masterPubKey c s y = (r, s', y') ->
  match r with
  | Ok _ => exists c', CheckSignature masterPubKey c = Some (true, c') /\ hashSyncCheckpoint y' = hashCheckpoint c' /\
      (hashSyncCheckpoint y ∈ path (mapBlockIndex s) (hashSyncCheckpoint y')) /\ hashSyncCheckpoint y' <> hashSyncCheckpoint y /\
      IsInMainChain (mapBlockIndex s') (pindexBest s') (hashSyncCheckpoint y') = true /\ hashPendingCheckpoint y' = uint_zero 8
  | _ => hashSyncCheckpoint y' = hashSyncCheckpoint y
  end /\
  (forall c', CheckSignature masterPubKey c = Some (true, c') -> is_Some (mapBlockIndex s !! hashCheckpoint c') ->
     hashSyncCheckpoint y ∉ path (mapBlockIndex s) (hashCheckpoint c') -> hashCheckpoint c' ∉ path (mapBlockIndex s) (hashSyncCheckpoint y) ->
     hashInvalidCheckpoint y' = hashCheckpoint c').
Proof.
  intros Hok [ns Hs] H. unfold ProcessSyncCheckpoint in H.
  destruct (CheckSignature masterPubKey c) as [[[] c1]|]; [|by injection H as <- <- <-|by injection H as <- <- <-].
  destruct (mapBlockIndex s !! hashCheckpoint c1) as [nh|] eqn:Eh.
  2: { injection H as <- <- <-. split; [done|]. intros c' [= <-] [? ?]. congruence. }
  rewrite (validate_spec _ _ _ ns nh Hok Hs Eh) in H. case_decide as Hd.
  - destruct Hd as [Hin Hne]. split; [|by intros c' [= <-] _ Hno].
    destruct (enter_main_chain _ _ _ _ _ _) as [[[]| |] s1] eqn:Ee; [|by injection H as <- <- <- ..].
    unfold WriteSyncCheckpoint in H. destruct (WriteOk _); [|by injection H as <- <- <-]. injection H as <- <- <-.
    exists c1. cbn. conjs; try done. by eapply enter_spec.
  - injection H as <- <- <-. split; [by case_decide|]. intros c' [= <-] _ _ Hno. by rewrite decide_False.
Qed.

(** The key as it is in the program: an empty string, which holds no point of the
    curve.  With it every message is refused and changes nothing: the accepting branch
    of [ProcessSyncCheckpoint] is not reached. *)
Definition strMasterPubKey : list Z := [].

Theorem master_key_empty `{HD : Digests} `{BN : OpenSSL_BN} `{EC : ECDSA} {V E P : Type} {LO : LedgerOps V E} {PO : PoolOps P}
    (params : chain_params) (fTestNet : bool) (ReadBlockFile : Z -> Z -> option CBlock) (TxnCommit : @db V -> bool)
    (WriteOk : uint256 -> bool) (c : CSyncCheckpoint) (s : @chain_state V E P) (y : sync_state) :
  o2i_ECPublicKey [] = false ->
  ProcessSyncCheckpoint params fTestNet ReadBlockFile TxnCommit WriteOk strMasterPubKey c s y = (Fail 0, s, y).
Proof. intros Hk. unfold ProcessSyncCheckpoint, CheckSignature, strMasterPubKey. by rewrite Hk. Qed.

(** [CheckSync] accepts a block above the checkpoint exactly when the checkpoint
    is among its ancestors, a block at its height exactly when it is the checkpoint,
    and a lower block exactly when it is known already. *)
Theorem check_sync_exact (idx : block_index) (y : sync_state) (hashBlock hashPrev : uint256) (nd np : node) :
  tree_ok idx -> idx !! hashSyncCheckpoint y = Some nd -> idx !! hashPrev = Some np ->
  let nHeight := height_of idx hashPrev + 1 in
  let nSync := height_of idx (hashSyncCheckpoint y) in
  CheckSync false idx y hashBlock hashPrev = Some true <->
    (nSync < nHeight /\ hashSyncCheckpoint y ∈ path idx hashPrev) \/ (nHeight = nSync /\ hashBlock = hashSyncCheckpoint y) \/
    (nHeight < nSync /\ is_Some (idx !! hashBlock)).
Proof.
  intros Hok Hs Hp nH nS. unfold CheckSync. rewrite Hs, (height_some idx _ nd Hs). fold nH nS.
  destruct (Z.ltb_spec nS nH) as [Hlt|Hge].
  - pose proof (traces_to_spec idx hashPrev (hashSyncCheckpoint y) np nd Hok Hp Hs ltac:(lia)) as Ht. unfold traces_to in Ht. fold nS in Ht.
    destruct (trace_back _ _ _ _) as [k|]; [|done]. injection Ht as Ht.
    assert (k = hashSyncCheckpoint y <-> hashSyncCheckpoint y ∈ path idx hashPrev) as Hk.
    { rewrite <- (bool_decide_eq_true (k = _)), Ht. by rewrite bool_decide_eq_true. }
    split.
    + intros [= H]. apply negb_true_iff, orb_false_iff in H as [_ H]. bprop. left. split; [done|]. by apply Hk.
    + intros [[_ Hin]|[?|?]]; [|lia|lia]. apply Hk in Hin as ->. rewrite bool_decide_true by done. fold nS. rewrite Z.ltb_irrefl. done.
  - destruct (Z.eqb_spec nH nS) as [Heq|Hne]; cbn [andb].
    + rewrite (proj2 (Z.ltb_ge nH nS)) by lia. cbn [andb]. case_bool_decide; cbn [negb].
      * split; [|done]. intros _. right. left. done.
      * split; [done|]. intros [[? _]|[[_ ?]|[? _]]]; lia || done.
    + rewrite (proj2 (Z.ltb_lt nH nS)) by lia. cbn [andb]. case_bool_decide; cbn [negb].
      * split; [|done]. intros _. right. right. split; [lia|done].
      * split; [done|]. intros [[? _]|[[? _]|[_ ?]]]; lia || done.
Qed.

(** ** Examples *)

Definition ck_state (h : Z) : sync_state := mkSyncState (tr_hash h) (uint_zero 8) (uint_zero 8) CSyncCheckpoint_null CSyncCheckpoint_null.
Definition any_sig : ECDSA := {| o2i_ECPublicKey _ := true; ECDSA_verify _ _ _ := true |}.
Definition ck_message (h : Z) : CSyncCheckpoint := mkCheckpoint 1 (uint_zero 8) (enc CUnsignedSyncCheckpoint_codec (1, tr_hash h)) [].
Abbreviation ck_process := (@ProcessSyncCheckpoint nonce_digests reference_BN any_sig _ _ _ list_ledger no_pool (@main_net reference_BN) true
  bc_disk (fun _ => true) (fun _ => true) []).

Lemma sync_checkpoint_advances_witness :
  exists y', hashSyncCheckpoint y' = tr_hash 2 /\ snd (ck_process (ck_message 2) bc_state (ck_state 1)) = y' /\ tr_hash 1 ∈ path bc_tree (tr_hash 2).
Proof.
  assert (tree_ok bc_tree) as Hok by (apply tree_okb_ok; vm_compute; reflexivity).
  assert (is_Some (bc_tree !! tr_hash 1)) as H1 by has_entry.
  destruct (ck_process (ck_message 2) bc_state (ck_state 1)) as [[r s'] y'] eqn:E.
  pose proof (@sync_checkpoint_advances nonce_digests reference_BN any_sig _ _ _ list_ledger no_pool (@main_net reference_BN) true
    bc_disk (fun _ => true) (fun _ => true) [] (ck_message 2) bc_state s' (ck_state 1) y' r Hok H1 E) as [H _].
  assert (r = Ok () /\ hashSyncCheckpoint y' = tr_hash 2) as [-> Hy] by (split; [change r with (fst (fst (r, s', y'))) | change y' with (snd (r, s', y'))]; rewrite <- E; vm_compute; reflexivity).
  destruct H as (c' & _ & _ & Hin & _). rewrite Hy in Hin. exists y'. split; [exact Hy | split; [reflexivity | exact Hin]].
Defined.

Lemma check_sync_exact_witness : CheckSync false bc_tree (ck_state 1) (tr_hash 14) (tr_hash 13) = Some true.
Proof.
  assert (tree_ok bc_tree) as Hok by (apply tree_okb_ok; vm_compute; reflexivity).
  apply (check_sync_exact bc_tree (ck_state 1) (tr_hash 14) (tr_hash 13) (mkNode (tr_rec 1 1 2) (Some (tr_hash 0)) (Some (tr_hash 2)))
    (mkNode (tr_rec 13 3 7) (Some (tr_hash 12)) None) Hok); [vm_compute; reflexivity | vm_compute; reflexivity |].
  left. split; [vm_compute; reflexivity | on_path].
Defined.
