(* ===== verification/Accept.v ===== *)
(** * Accepting blocks (main.cpp)

    [AddToBlockIndex], [AcceptBlock] and [ProcessBlock]: a block is checked, waits as
    an orphan while its parent is missing, is written to the block files, enters the
    tree, and may become the best block; the orphans that waited for it follow. *)

From S2P Require Import Prelude Uint256 Serialize BigNum Tx Merkle Script Interp InterpRun Standard Consensus Ledger Mempool MempoolFacts Kernel BlockTree BestChain BestChainFacts Checkpoints.

(** [CheckProofOfStake] on the tree, the database and what is outside it. *)
Class StakeOps (V E : Type) := {
  st_check : block_index -> CTransaction -> Z -> V -> E -> res uint256 * E;
}.

(** The last attack block and the end of the bootstrap. *)
Definition attacked_heights : list Z := [696401; 696475; 696488; 696510; 696559; 696564; 696574; 696594; 696806].
Definition BOOTSTRAP_HEIGHT : Z := 701720.

Inductive CPMode := STRICT | ADVISORY | PERMISSIVE.

Section Accept.
Context `{HD : Digests} `{BN : OpenSSL_BN} `{EC : ECDSA} {V E P : Type} {LO : LedgerOps V E} {PO : PoolOps P} {SO : StakeOps V E}.
Context (params : chain_params) (fTestNet : bool) (CheckpointsMode : CPMode).
Context (ReadTxFromDisk : CDiskTxPos -> option CTransaction) (pool_txs : P -> gmap uint256 CTransaction) (nAdjustedTime : Z).
(** The block files: reading, and where a new block is written (unless the disk is
    full or writing fails). *)
Context (ReadBlockFile : Z -> Z -> option CBlock) (WriteToDisk : CBlock -> option (Z * Z)).
Context (TxnCommit : @db V -> bool) (WriteOk : uint256 -> bool).

Abbreviation state := (@chain_state V E P).
Abbreviation genesis := (if fTestNet then hashGenesisBlockTestNet else hashGenesisBlock).

(** ** AddToBlockIndex *)

(** The record's place: height, trust and hash of the proof. *)
Definition set_place (b : CBlockIndex) (height : Z) (trust hashProof : uint256) : CBlockIndex :=
  mkBlockIndex (bi_hash b) (bi_nFile b) (bi_nBlockPos b) trust height (nMint b) (nMoneySupply b) (nFlags b) (nStakeModifier b)
    (nStakeModifierChecksum b) (prevoutStake b) (nStakeTime b) hashProof (bi_nVersion b) (bi_hashMerkleRoot b) (bi_nTime b)
    (bi_nBits b) (bi_nNonce b).
Definition set_checksum (b : CBlockIndex) (c : Z) : CBlockIndex :=
  mkBlockIndex (bi_hash b) (bi_nFile b) (bi_nBlockPos b) (nChainTrust b) (nHeight b) (nMint b) (nMoneySupply b) (nFlags b)
    (nStakeModifier b) c (prevoutStake b) (nStakeTime b) (hashProofOfStake b) (bi_nVersion b) (bi_hashMerkleRoot b) (bi_nTime b)
    (bi_nBits b) (bi_nNonce b).

(** The new record, and the hash its [pprev] points to. *)
Definition new_record (nFile nBlockPos : Z) (hashProof : uint256) (block : CBlock) (idx : block_index)
    : option (CBlockIndex * option uint256) :=
  let hash := CBlockHeader_GetHash (header block) in
  let hashPrev := hashPrevBlock (header block) in
  let rec := CBlockIndex_make nFile nBlockPos hash block in
  let prev := idx !! hashPrev in
  let height := match prev with Some p => nHeight (n_rec p) + 1 | None => 0 end in
  let trust := op_add (match prev with Some p => nChainTrust (n_rec p) | None => uint_zero 8 end) (GetBlockTrust rec) in
  match SetStakeEntropyBit (set_place rec height trust (hashProofOfStake rec)) (GetStakeEntropyBit block) with
  | None => None
  | Some rec =>
      let rec := set_place rec height trust hashProof in
      let pprev := match prev with Some _ => chain_of idx hashPrev | None => [] end in
      match ComputeNextStakeModifier params (n_rec <$> idx) pprev with
      | None => None
      | Some (nStakeModifier, fGenerated) =>
          let rec := SetStakeModifier rec nStakeModifier fGenerated in
          let rec := set_checksum rec (GetStakeModifierChecksum (n_rec <$> prev) rec) in
          if CheckStakeModifierCheckpoints (nHeight rec) (nStakeModifierChecksum rec)
          then Some (rec, match prev with Some _ => Some hashPrev | None => None end) else None
      end
  end.

(** Also returns the coins of [setStakeSeen] to add. *)
Definition AddToBlockIndex (nFile nBlockPos : Z) (hashProof : uint256) (block : CBlock) (s : state)
    : res unit * state * gset (COutPoint * Z) :=
  let idx := mapBlockIndex s in
  let hash := CBlockHeader_GetHash (header block) in
  match idx !! hash with
  | Some _ => (Fail 0, s, ∅)
  | None =>
      match new_record nFile nBlockPos hashProof block idx with
      | None => (Fail 0, s, ∅)
      | Some (rec, pprev) =>
          let idx := <[hash := mkNode rec pprev None]> idx in
          let s := set_index idx s in
          let seen := if bi_IsProofOfStake rec then {[(prevoutStake rec, nStakeTime rec)]} else ∅ in
          let written := lg_write_index (CDiskBlockIndex_make (chain_of idx hash) (uint_zero 8)) (db_ledger (txdb s)) in
          let d := mkDb written (db_hashBestChain (txdb s)) in
          if negb (TxnCommit d) then (Fail 0, s, seen)
          else
            let s := set_txdb d s in
            if op_gt (nChainTrust rec) (nBestChainTrust s) then
              match SetBestChain params genesis ReadBlockFile TxnCommit block hash s with
              | (Ok _, s) => (Ok (), s, seen)
              | (Fail _, s) => (Fail 0, s, seen)
              | (Throw, s) => (Throw, s, seen)
              end
            else (Ok (), s, seen)
      end
  end.

(** ** AcceptBlock *)

(** [GetMapTxInputs]: only an input out of range is refused. *)
Definition GetMapTxInputs (txdb : txindex_map) (pool : gmap uint256 CTransaction) (tx : CTransaction) : option MapPrevTx :=
  let f := FetchInputs ReadTxFromDisk pool nAdjustedTime txdb ∅ true false tx ∅ in
  if (negb (f_ok f) && f_invalid f)%bool then None else Some (f_inputs f).

(** The sums of the inputs and outputs; [Throw] is the exception that is caught. *)
Fixpoint value_sums (txdb : txindex_map) (pool : gmap uint256 CTransaction) (txs : list CTransaction) (nIn nOut : Z) : res (Z * Z) :=
  match txs with
  | [] => Ok (nIn, nOut)
  | tx :: txs =>
      match GetMapTxInputs txdb pool tx with
      | None => Fail 10
      | Some mapInputs =>
          match GetValueMapIn tx mapInputs, GetValueOut tx with
          | Some vin, Some vout =>
              if s64 (nIn + vin) <? 0 then Fail 100
              else if s64 (nOut + vout) <? 0 then Fail 100
              else value_sums txdb pool txs (s64 (nIn + vin)) (s64 (nOut + vout))
          | _, _ => Throw
          end
      end
  end.

(** The extra check against forged values. *)
Definition check_values (txdb : txindex_map) (pool : gmap uint256 CTransaction) (nHeight : Z) (block : CBlock) : res unit :=
  if ((10000 <? nHeight) && negb (bool_decide (nHeight ∈ attacked_heights)))%bool then
    match value_sums txdb pool (vtx block) 0 0 with
    | Ok (nIn, nOut) => guard_ (negb (s64 (nIn + GetProofOfWorkReward nHeight 0) <? nOut)) 100
    | Fail n => Fail n
    | Throw => guard_ (negb (BOOTSTRAP_HEIGHT <? nHeight)) 100
    end
  else Ok ().

(** The coinbase's script starts with the height. *)
Definition height_in_coinbase (nHeight : Z) (block : CBlock) : res unit :=
  match vtx block with
  | coinbase :: _ =>
      match vin coinbase with
      | txin :: _ => guard_ (bool_decide (take (length (push_int64 nHeight)) (scriptSig txin) = push_int64 nHeight)) 100
      | [] => Throw
      end
  | [] => Throw
  end.

(** The checks up to the proof of stake, in order. *)
Definition check_context (nBest : Z) (s : state) (block : CBlock) : res Z :=
  let idx := mapBlockIndex s in
  let h := header block in
  guard_ (negb (bool_decide (is_Some (idx !! CBlockHeader_GetHash h)))) 0 ;;
  match idx !! hashPrevBlock h with
  | None => Fail 10
  | Some prev =>
      let pprev := chain_of idx (hashPrevBlock h) in
      let nHeight := nHeight (n_rec prev) + 1 in
      guard_ (negb (IsProofOfWork block && (LAST_POW_BLOCK <? nHeight)))%bool 100 ;;
      guard_ (negb (IsProofOfStake block && (nHeight <? MODIFIER_INTERVAL_SWITCH)))%bool 100 ;;
      guard_ (nBits h =? GetNextTargetRequired params pprev (IsProofOfStake block)) 100 ;;
      guard_ (negb ((nTime h <=? GetMedianTimePast pprev) || (nTime h + GetClockDrift (nTime h) <? bi_nTime (n_rec prev))))%bool 0 ;;
      guard_ (forallb (fun tx => IsFinal nBest nAdjustedTime tx nHeight (nTime h)) (vtx block)) 10 ;;
      check_values (lg_txindex (db_ledger (txdb s))) (pool_txs (mempool s)) nHeight block ;;
      guard_ (CheckHardened fTestNet nHeight (CBlockHeader_GetHash h)) 100 ;;
      Ok nHeight
  end.

(** The hash of the proof of stake, zero for proof of work. *)
Definition proof_hash (s : state) (block : CBlock) : res uint256 * state :=
  if IsProofOfStake block then
    match vtx block !! 1%nat with
    | None => (Throw, s)
    | Some coinstake =>
        let '(r, e) := st_check (mapBlockIndex s) coinstake (nBits (header block)) (db_ledger (txdb s)) (outside s) in
        (match r with Ok h => Ok h | Fail _ => Fail 0 | Throw => Throw end, set_outside e s)
    end
  else (Ok (uint_zero 8), s).

(** The relaying and the warning are left out.  The score is the block's. *)
Definition AcceptBlock (block : CBlock) (s : state) (y : sync_state) : res unit * state * sync_state * gset (COutPoint * Z) :=
  match check_context (nBestHeight s) s block with
  | Fail n => (Fail n, s, y, ∅)
  | Throw => (Throw, s, y, ∅)
  | Ok nHeight =>
      match proof_hash s block with
      | (Fail n, s) => (Fail n, s, y, ∅)
      | (Throw, s) => (Throw, s, y, ∅)
      | (Ok hashProof, s) =>
          match CheckSync fTestNet (mapBlockIndex s) y (CBlockHeader_GetHash (header block)) (hashPrevBlock (header block)) with
          | None => (Throw, s, y, ∅)
          | Some cpSatisfies =>
              if (match CheckpointsMode with STRICT => true | _ => false end && negb cpSatisfies)%bool then (Fail 0, s, y, ∅)
              else
                match height_in_coinbase nHeight block with
                | Fail n => (Fail n, s, y, ∅)
                | Throw => (Throw, s, y, ∅)
                | Ok _ =>
                    match WriteToDisk block with
                    | None => (Fail 0, s, y, ∅)
                    | Some (nFile, nBlockPos) =>
                        match AddToBlockIndex nFile nBlockPos hashProof block s with
                        | (Fail _, s, seen) => (Fail 0, s, y, seen)
                        | (Throw, s, seen) => (Throw, s, y, seen)
                        | (Ok _, s, seen) =>
                            let '(r, s, y) := AcceptPendingSyncCheckpoint params fTestNet ReadBlockFile TxnCommit WriteOk s y in
                            (match r with Throw => Throw | _ => Ok () end, s, y, seen)
                        end
                    end
                end
          end
      end
  end.
End Accept.

(** ** ProcessBlock *)

(** What processing needs of acceptance: try a block, and whether the tree has one. *)
Class BlockSink (S : Type) := {
  bs_accept : CBlock -> S -> res unit * S;
  bs_has : S -> uint256 -> bool;
}.

(** The blocks that wait for their parent, by hash and by parent, and the coins of
    the proofs of stake among them. *)
Record orphan_blocks := mkOrphans {
  mapOrphanBlocks : gmap uint256 CBlock; mapOrphanBlocksByPrev : gmap uint256 (list CBlock);
  setStakeSeenOrphan : gset (COutPoint * Z);
}.

Section Process.
Context `{HD : Digests} {S : Type} {BS : BlockSink S}.

Abbreviation GetHash b := (CBlockHeader_GetHash (header b)).

Definition by_prev (o : orphan_blocks) (h : uint256) : list CBlock := match mapOrphanBlocksByPrev o !! h with Some l => l | None => [] end.

Definition add_orphan (b : CBlock) (o : orphan_blocks) : orphan_blocks :=
  mkOrphans (<[GetHash b := b]> (mapOrphanBlocks o))
    (<[hashPrevBlock (header b) := by_prev o (hashPrevBlock (header b)) ++ [b]]> (mapOrphanBlocksByPrev o))
    (if IsProofOfStake b then {[GetProofOfStake b]} ∪ setStakeSeenOrphan o else setStakeSeenOrphan o).

(** The orphans of one parent: each is tried and dropped. *)
Fixpoint try_orphan_blocks (bs : list CBlock) (s : S) (o : orphan_blocks) (queue : list uint256)
    : res unit * S * orphan_blocks * list uint256 :=
  match bs with
  | [] => (Ok (), s, o, queue)
  | b :: bs =>
      match bs_accept b s with
      | (Throw, s) => (Throw, s, o, queue)
      | (r, s) =>
          let o := mkOrphans (delete (GetHash b) (mapOrphanBlocks o)) (mapOrphanBlocksByPrev o)
                     (setStakeSeenOrphan o ∖ {[GetProofOfStake b]}) in
          try_orphan_blocks bs s o (match r with Ok _ => queue ++ [GetHash b] | _ => queue end)
      end
  end.

(** The work queue; [None] when the fuel is spent. *)
Fixpoint orphan_loop (fuel : nat) (queue : list uint256) (s : S) (o : orphan_blocks) : option (res unit * S * orphan_blocks) :=
  match queue with
  | [] => Some (Ok (), s, o)
  | hashPrev :: queue =>
      match fuel with
      | O => None
      | Datatypes.S fuel =>
          match try_orphan_blocks (by_prev o hashPrev) s o queue with
          | (Ok _, s, o, queue) =>
              orphan_loop fuel queue s
                (mkOrphans (mapOrphanBlocks o) (delete hashPrev (mapOrphanBlocksByPrev o)) (setStakeSeenOrphan o))
          | (r, s, o, _) => Some (r, s, o)
          end
      end
  end.

(** The part of [ProcessBlock] after the block's own checks. *)
Definition place_block (fWanted : bool) (b : CBlock) (s : S) (o : orphan_blocks) : option (res unit * S * orphan_blocks) :=
  let hash := GetHash b in
  if negb (bs_has s (hashPrevBlock (header b))) then
    if (IsProofOfStake b && bool_decide (GetProofOfStake b ∈ setStakeSeenOrphan o)
        && negb (bool_decide (is_Some (mapOrphanBlocksByPrev o !! hash))) && negb fWanted)%bool
    then Some (Fail 0, s, o)
    else Some (Ok (), s, add_orphan b o)
  else
    match bs_accept b s with
    | (Fail n, s) => Some (Fail n, s, o)
    | (Throw, s) => Some (Throw, s, o)
    | (Ok _, s) => orphan_loop (Datatypes.S (size (mapOrphanBlocks o))) [hash] s o
    end.
End Process.

(** The checks of [ProcessBlock] before that.  [seen] is [setStakeSeen]; asking
    other nodes and the wallet's payments after a block are left out. *)
Definition check_new_block `{HD : Digests} `{BN : OpenSSL_BN} `{EC : ECDSA} (params : chain_params) (nAdjustedTime : Z)
    (idx : block_index) (hashBestChain : uint256) (y : sync_state) (seen : gset (COutPoint * Z)) (o : orphan_blocks) (b : CBlock) : res unit :=
  let h := header b in
  let hash := CBlockHeader_GetHash h in
  let fWanted := WantedByPendingSyncCheckpoint (mapOrphanBlocks o) y hash in
  guard_ (negb (bool_decide (is_Some (idx !! hash)))) 0 ;;
  guard_ (negb (bool_decide (is_Some (mapOrphanBlocks o !! hash)))) 0 ;;
  guard_ (negb (IsProofOfStake b && bool_decide (GetProofOfStake b ∈ seen)
                && negb (bool_decide (is_Some (mapOrphanBlocksByPrev o !! hash))) && negb fWanted))%bool 0 ;;
  CheckBlock params nAdjustedTime true true true b ;;
  match GetLastSyncCheckpoint idx y with
  | None => Ok ()
  | Some c =>
      if (bool_decide (hashPrevBlock h = hashBestChain) || fWanted)%bool then Ok ()
      else
        match chain_of idx c with
        | [] => Ok ()
        | pcheckpoint :: _ =>
            match GetLastBlockIndex (chain_of idx c) (IsProofOfStake b) with
            | [] => Throw
            | last :: _ =>
                let deltaTime := nTime h - bi_nTime pcheckpoint in
                let required := if IsProofOfStake b then ComputeMinStake params (bi_nBits last) deltaTime (nTime h)
                                else ComputeMinWork params (bi_nBits last) deltaTime in
                guard_ (SetCompact (nBits h) <=? SetCompact required) 100
            end
        end
  end.

Section Node.
Context `{HD : Digests} `{BN : OpenSSL_BN} `{EC : ECDSA} {V E P : Type} {LO : LedgerOps V E} {PO : PoolOps P} {SO : StakeOps V E}.
Context (params : chain_params) (fTestNet : bool) (CheckpointsMode : CPMode).
Context (ReadTxFromDisk : CDiskTxPos -> option CTransaction) (pool_txs : P -> gmap uint256 CTransaction) (nAdjustedTime : Z).
Context (ReadBlockFile : Z -> Z -> option CBlock) (WriteToDisk : CBlock -> option (Z * Z)).
Context (TxnCommit : @db V -> bool) (WriteOk : uint256 -> bool).

(** The chain, the checkpoints and [setStakeSeen]. *)
Record node_state := mkNodeState { ns_chain : @chain_state V E P; ns_sync : sync_state; setStakeSeen : gset (COutPoint * Z) }.

Definition node_sink : BlockSink node_state := {|
  bs_accept b n :=
    let '(r, s, y, seen) := AcceptBlock params fTestNet CheckpointsMode ReadTxFromDisk pool_txs nAdjustedTime ReadBlockFile WriteToDisk
                              TxnCommit WriteOk b (ns_chain n) (ns_sync n) in
    (r, mkNodeState s y (seen ∪ setStakeSeen n));
  bs_has n h := bool_decide (is_Some (mapBlockIndex (ns_chain n) !! h));
|}.

(** The verdict on the block (with the sender's score) and the new state; [None] is
    excluded by [process_block_places]. *)
Definition ProcessBlock (b : CBlock) (n : node_state) (o : orphan_blocks) : option (res unit * node_state * orphan_blocks) :=
  match check_new_block params nAdjustedTime (mapBlockIndex (ns_chain n)) (hashBestChain (ns_chain n)) (ns_sync n) (setStakeSeen n) o b with
  | Fail k => Some (Fail k, n, o)
  | Throw => Some (Throw, n, o)
  | Ok _ =>
      place_block (BS := node_sink) (WantedByPendingSyncCheckpoint (mapOrphanBlocks o) (ns_sync n) (CBlockHeader_GetHash (header b))) b n o
  end.
End Node.
