(* ===== verification/AcceptFacts.v ===== *)
(** * Theorems on accepting blocks

    What [AddToBlockIndex] adds and keeps, what the extra value check of
    [AcceptBlock] refuses, and that the processing of orphan blocks ends and is
    exact. *)

From S2P Require Import Prelude Uint256 Serialize BigNum Tx Merkle Script Interp InterpRun Standard Consensus Ledger Mempool MempoolFacts Kernel BlockTree BestChain BestChainFacts Checkpoints Accept.

(** ** Orphan blocks *)

Section Orphans.
Context `{HD : Digests}.

Abbreviation GetHash b := (CBlockHeader_GetHash (header b)).
Abbreviation Prev b := (hashPrevBlock (header b)).

(** The two maps hold the same blocks, each once. *)
Record orphans_ok (o : orphan_blocks) : Prop := {
  oo_hash : forall h b, mapOrphanBlocks o !! h = Some b -> GetHash b = h;
  oo_prev : forall p b, b ∈ by_prev o p <-> mapOrphanBlocks o !! GetHash b = Some b /\ Prev b = p;
  oo_once : forall p, NoDup (by_prev o p);
}.

Lemma no_orphans_ok seen : orphans_ok (mkOrphans ∅ ∅ seen).
Proof.
  split; cbn; [intros h b; by rewrite lookup_empty|intros p b; unfold by_prev; cbn|intros p; unfold by_prev; cbn].
  - rewrite !lookup_empty. split; [by intros []%elem_of_nil|by intros [? _]].
  - rewrite lookup_empty. constructor.
Qed.

Lemma add_orphan_ok b o : orphans_ok o -> mapOrphanBlocks o !! GetHash b = None -> orphans_ok (add_orphan b o).
Proof.
  intros [H1 H2 H3] Hnew.
  assert (forall p, by_prev (add_orphan b o) p = if decide (p = Prev b) then by_prev o p ++ [b] else by_prev o p) as Hby.
  { intros p. unfold by_prev at 1. cbn. case_decide; [subst; by rewrite lookup_insert_eq | by rewrite lookup_insert_ne]. }
  split; cbn [add_orphan mapOrphanBlocks].
  - intros h c. rewrite lookup_insert_Some. intros [[<- <-]|[_ Hc]]; [done|by apply H1].
  - intros p c. rewrite Hby, lookup_insert_Some.
    assert (c ∈ (if decide (p = Prev b) then by_prev o p ++ [b] else by_prev o p) <-> c ∈ by_prev o p \/ (c = b /\ p = Prev b)) as ->.
    { case_decide; [rewrite elem_of_app, list_elem_of_singleton; naive_solver|naive_solver]. }
    rewrite H2. split.
    + intros [[Hc <-]|[-> ->]]; [|by split; [left|]]. split; [|done]. right. split; [|done]. intros E. rewrite E, Hc in Hnew. done.
    + intros [[[E ->]|[_ Hc]] <-]; [by right|by left].
  - intros p. rewrite Hby. case_decide; [|apply H3]. apply NoDup_app. split; [apply H3|]. split; [|apply NoDup_singleton].
    intros c Hc ->%list_elem_of_singleton. apply H2 in Hc as [Hc _]. congruence.
Qed.

Context {S : Type} {BS : BlockSink S}.

(** Acceptance puts a block into the tree and takes none out. *)
Class BlockSink_ok : Prop := {
  bs_enters : forall b s s', bs_accept b s = (Ok (), s') -> bs_has s' (GetHash b) = true;
  bs_keeps : forall b s r s' h, bs_accept b s = (r, s') -> bs_has s h = true -> bs_has s' h = true;
}.
Context {BSok : BlockSink_ok}.

(** Acceptance of one block after the other: the hashes of those accepted and the
    state after; [None] when one throws. *)
Fixpoint accept_run (bs : list CBlock) (s : S) : option (list uint256 * S) :=
  match bs with
  | [] => Some ([], s)
  | b :: bs =>
      match bs_accept b s with
      | (Throw, _) => None
      | (r, s) => '(l, s) ← accept_run bs s; Some (match r with Ok _ => GetHash b :: l | _ => l end, s)
      end
  end.

(** The acceptance of a block threw, after others that did not. *)
Definition accept_threw (s s' : S) : Prop :=
  exists bs l s1 b, accept_run bs s = Some (l, s1) /\ bs_accept b s1 = (Throw, s').

Lemma accept_run_app bs1 bs2 s l1 s1 : accept_run bs1 s = Some (l1, s1) ->
  accept_run (bs1 ++ bs2) s = ('(l2, s2) ← accept_run bs2 s1; Some (l1 ++ l2, s2)).
Proof.
  revert s l1 s1. induction bs1 as [|b bs1 IH]; intros s l1 s1; cbn [accept_run app].
  - intros [= <- <-]. by destruct (accept_run bs2 s) as [[]|].
  - destruct (bs_accept b s) as [[[]|n|] s0]; [| |done]; destruct (accept_run bs1 s0) as [[l0 s2]|] eqn:E; cbn; try done;
      intros [= <- <-]; rewrite (IH _ _ _ E); by destruct (accept_run bs2 s2) as [[]|].
Qed.

Lemma accept_threw_app bs l s s1 s' : accept_run bs s = Some (l, s1) -> accept_threw s1 s' -> accept_threw s s'.
Proof.
  intros H (bs2 & l2 & s2 & b & H2 & Hb). exists (bs ++ bs2), (l ++ l2), s2, b. split; [|done].
  rewrite (accept_run_app _ _ _ _ _ H), H2. done.
Qed.

Lemma accept_run_one b s r s1 : bs_accept b s = (r, s1) -> r <> Throw ->
  accept_run [b] s = Some (match r with Ok _ => [GetHash b] | _ => [] end, s1).
Proof. intros H Hr. cbn. rewrite H. by destruct r. Qed.

(** The orphans of one parent, taken out of the map of hashes one by one. *)
Lemma try_orphan_blocks_spec bs : forall s o queue, NoDup (map (fun b => GetHash b) bs) ->
  Forall (fun b => mapOrphanBlocks o !! GetHash b = Some b) bs ->
  match try_orphan_blocks bs s o queue with
  | (r, s', o', queue') => mapOrphanBlocksByPrev o' = mapOrphanBlocksByPrev o /\ (forall h, bs_has s h = true -> bs_has s' h = true) /\
      match r with
      | Ok _ => exists acc, accept_run bs s = Some (acc, s') /\ queue' = queue ++ acc /\ acc `sublist_of` map (fun b => GetHash b) bs /\ Forall (fun h => bs_has s' h = true) acc /\
          (length acc + size (mapOrphanBlocks o') <= size (mapOrphanBlocks o))%nat /\
          forall h, mapOrphanBlocks o' !! h = if decide (h ∈ map (fun b => GetHash b) bs) then None else mapOrphanBlocks o !! h
      | Fail _ => False
      | Throw => accept_threw s s'
      end
  end.
Proof.
  induction bs as [|b bs IH]; intros s o queue Hnd HF; cbn [try_orphan_blocks map].
  { conjs; [done|done|]. exists []. conjs; [done|by rewrite app_nil_r|done|done|done|done]. }
  apply Forall_cons in HF as [Hb HF]. apply NoDup_cons in Hnd as [Hni Hnd].
  destruct (bs_accept b s) as [r1 s1] eqn:Ea.
  assert (forall h, bs_has s h = true -> bs_has s1 h = true) as Hk1 by (intros h; by eapply bs_keeps).
  set (o1 := mkOrphans (delete (GetHash b) (mapOrphanBlocks o)) (mapOrphanBlocksByPrev o) (setStakeSeenOrphan o ∖ {[GetProofOfStake b]})).
  assert (Forall (fun c => mapOrphanBlocks o1 !! GetHash c = Some c) bs) as HF1.
  { rewrite Forall_forall in HF |- *. intros c Hc. cbn. rewrite lookup_delete_ne; [by apply HF|]. intros E. apply Hni. rewrite E.
    apply list_elem_of_fmap. by exists c. }
  assert (size (mapOrphanBlocks o) = Datatypes.S (size (mapOrphanBlocks o1))) as Hsz.
  { cbn. rewrite map_size_delete_Some by eauto. assert (size (mapOrphanBlocks o) <> 0%nat); [|lia]. intros E%map_size_empty_inv. by rewrite E in Hb. }
  assert (forall h, mapOrphanBlocks o1 !! h = if decide (h = GetHash b) then None else mapOrphanBlocks o !! h) as Hl1.
  { intros h. cbn. case_decide; [subst; by rewrite lookup_delete_eq | by rewrite lookup_delete_ne]. }
  destruct r1 as [[]|n|]; [| |by conjs; [| |exists [], [], s, b]].
  - specialize (IH s1 o1 (queue ++ [GetHash b]) Hnd HF1). destruct (try_orphan_blocks bs s1 o1 _) as [[[r s'] o'] queue'].
    destruct IH as (Hp & Hk & Hr). conjs; [done|auto|].
    destruct r as [[]| |]; [|done|by eapply accept_threw_app; [exact (accept_run_one _ _ _ _ Ea ltac:(done))|]].
    destruct Hr as (acc & Hrun & -> & Hsub & Hacc & Hlen & Hl). exists (GetHash b :: acc). conjs.
    + cbn. by rewrite Ea, Hrun.
    + by rewrite <- app_assoc.
    + by apply sublist_skip.
    + constructor; [|done]. apply Hk. by eapply bs_enters.
    + cbn. lia.
    + intros h. rewrite Hl, Hl1. repeat case_decide; set_solver.
  - specialize (IH s1 o1 queue Hnd HF1). destruct (try_orphan_blocks bs s1 o1 _) as [[[r s'] o'] queue'].
    destruct IH as (Hp & Hk & Hr). conjs; [done|auto|].
    destruct r as [[]| |]; [|done|by eapply accept_threw_app; [exact (accept_run_one _ _ _ _ Ea ltac:(done))|]].
    destruct Hr as (acc & Hrun & -> & Hsub & Hacc & Hlen & Hl). exists acc.
    conjs; [cbn; by rewrite Ea, Hrun|done|by apply sublist_cons|done|lia|].
    intros h. rewrite Hl, Hl1. repeat case_decide; set_solver.
Qed.

(** Taking out the orphans of a parent. *)
Lemma drop_children o h m seen : orphans_ok o ->
  (forall k, m !! k = if decide (k ∈ map (fun b => GetHash b) (by_prev o h)) then None else mapOrphanBlocks o !! k) ->
  orphans_ok (mkOrphans m (delete h (mapOrphanBlocksByPrev o)) seen) /\
  forall k b, m !! k = Some b <-> mapOrphanBlocks o !! k = Some b /\ Prev b <> h.
Proof.
  intros [H1 H2 H3] Hm.
  assert (forall k b, m !! k = Some b <-> mapOrphanBlocks o !! k = Some b /\ Prev b <> h) as Hl.
  { intros k b. rewrite Hm. case_decide as Hk.
    - split; [done|]. intros [Hb Hp]. apply list_elem_of_fmap in Hk as (c & -> & Hc). apply H2 in Hc as [Hc <-]. congruence.
    - split; [|tauto]. intros Hb. split; [done|]. intros E. apply Hk. apply list_elem_of_fmap. exists b.
      rewrite (H1 _ _ Hb). split; [done|]. apply H2. by rewrite (H1 _ _ Hb). }
  split; [|done].
  assert (forall p, by_prev (mkOrphans m (delete h (mapOrphanBlocksByPrev o)) seen) p = if decide (p = h) then [] else by_prev o p) as Hby.
  { intros p. unfold by_prev. cbn. case_decide; [subst; by rewrite lookup_delete_eq | by rewrite lookup_delete_ne]. }
  split; cbn [mapOrphanBlocks].
  - intros k b Hb. apply Hl in Hb as [Hb _]. by apply H1.
  - intros p b. rewrite Hby, Hl. case_decide as E; [subst|].
    + split; [by intros []%elem_of_nil|]. intros [[_ Hne] E]. congruence.
    + rewrite H2. split; [intros [? <-]; done|]. intros [[? _] <-]. done.
  - intros p. rewrite Hby. case_decide; [constructor|apply H3].
Qed.

Lemma orphan_loop_spec fuel : forall queue s o, orphans_ok o -> NoDup queue -> Forall (fun h => mapOrphanBlocks o !! h = None) queue ->
  Forall (fun h => bs_has s h = true) queue -> (length queue + size (mapOrphanBlocks o) <= fuel)%nat ->
  exists r s' o', orphan_loop fuel queue s o = Some (r, s', o') /\ (forall h, bs_has s h = true -> bs_has s' h = true) /\
    match r with
    | Ok _ => exists tried more, accept_run tried s = Some (more, s') /\ NoDup tried /\
        (forall c, c ∈ tried <-> mapOrphanBlocks o !! GetHash c = Some c /\ Prev c ∈ queue ++ more) /\
        NoDup (queue ++ more) /\ Forall (fun h => is_Some (mapOrphanBlocks o !! h)) more /\
        Forall (fun h => bs_has s' h = true) (queue ++ more) /\ orphans_ok o' /\
        forall k b, mapOrphanBlocks o' !! k = Some b <-> mapOrphanBlocks o !! k = Some b /\ Prev b ∉ queue ++ more
    | Fail _ => False
    | Throw => accept_threw s s'
    end.
Proof.
  induction fuel as [|fuel IH]; intros [|h queue] s o Hok Hnd Hno Hhas Hf; cbn [orphan_loop]; cbn [length] in Hf; try lia.
  1, 2: eexists _, _, _; conjs; [done|done|]; exists [], []; cbn; conjs; try done; try apply NoDup_nil_2; naive_solver set_solver.
  apply NoDup_cons in Hnd as [Hni Hnd]. apply Forall_cons in Hno as [Hh Hno]. apply Forall_cons in Hhas as [Hhh Hhas].
  assert (NoDup (map (fun b => GetHash b) (by_prev o h))) as Hnb.
  { apply NoDup_fmap_2_strong; [|apply (oo_once _ Hok)]. intros a b Ha Hb E. apply (oo_prev _ Hok) in Ha as [Ha _], Hb as [Hb _]. congruence. }
  assert (Forall (fun b => mapOrphanBlocks o !! GetHash b = Some b) (by_prev o h)) as Hin.
  { apply Forall_forall. intros b Hb. by apply (oo_prev _ Hok) in Hb as [? _]. }
  pose proof (try_orphan_blocks_spec (by_prev o h) s o queue Hnb Hin) as Ht.
  destruct (try_orphan_blocks (by_prev o h) s o queue) as [[[r s1] o1] queue1]. destruct Ht as (Ep & Hk & Hr).
  destruct r as [[]| |]; [|done|by eexists _, _, _]. destruct Hr as (acc & Hrun & -> & Hsub & Hacc & Hlen & Hl).
  rewrite Ep. destruct (drop_children o h (mapOrphanBlocks o1) (setStakeSeenOrphan o1) Hok Hl) as [Hok2 Hl2].
  set (o2 := mkOrphans _ _ _) in *.
  assert (forall k, k ∈ acc -> is_Some (mapOrphanBlocks o !! k) /\ mapOrphanBlocks o2 !! k = None) as Haccs.
  { intros k Hka. assert (k ∈ map (fun b => GetHash b) (by_prev o h)) as Hkb by (by eapply elem_of_sublist).
    split; [|cbn; rewrite Hl; by rewrite decide_True]. apply list_elem_of_fmap in Hkb as (b & -> & Hb).
    rewrite Forall_forall in Hin. apply Hin in Hb. eauto. }
  assert (forall k, k ∈ queue -> k ∈ acc -> False) as Hdis.
  { intros k Hq Ha. rewrite Forall_forall in Hno. apply Hno in Hq. destruct (Haccs k Ha) as [[? ?] _]. congruence. }
  destruct (IH (queue ++ acc) s1 o2) as (r & s' & o' & E & Hk' & Hr).
  - done.
  - apply NoDup_app. split; [done|]. split; [intros k Hq Ha; by apply (Hdis k)|]. eapply sublist_NoDup; done.
  - apply Forall_app. split; [|apply Forall_forall; intros k Hka; by apply Haccs]. rewrite Forall_forall in Hno |- *. intros k Hq.
    destruct (mapOrphanBlocks o2 !! k) as [b|] eqn:Eb; [|done]. apply Hl2 in Eb as [Eb _]. apply Hno in Hq. congruence.
  - apply Forall_app. split; [|done]. eapply Forall_impl; [exact Hhas|]. cbn. auto.
  - rewrite length_app. cbn [o2 mapOrphanBlocks]. lia.
  - rewrite E. eexists _, _, _. conjs; [done|auto|]. destruct r as [[]| |]; [|done|by eapply accept_threw_app].
    destruct Hr as (tried & more & Hrun' & Hndt & Htried & Hnd' & Hmore & Hall & Hok' & Hl').
    exists (by_prev o h ++ tried), (acc ++ more). rewrite <- app_assoc in Hnd', Hall, Hl', Htried.
    assert (forall k, k ∈ acc ++ more -> is_Some (mapOrphanBlocks o !! k)) as Horph.
    { intros k [Hka|Hkm]%elem_of_app; [by apply Haccs|]. rewrite Forall_forall in Hmore. destruct (Hmore k Hkm) as [b Hb].
      apply Hl2 in Hb as [Hb _]. eauto. }
    assert (h ∉ queue ++ acc ++ more) as Hhn.
    { intros [?|Hx]%elem_of_app; [done|]. destruct (Horph h Hx). congruence. }
    conjs.
    + by rewrite (accept_run_app _ _ _ _ _ Hrun), Hrun'.
    + apply NoDup_app. split; [apply (oo_once _ Hok)|]. split; [|done]. intros c Hc Ht. apply Htried in Ht as [Ht _].
      apply (oo_prev _ Hok) in Hc as [_ Hc]. apply Hl2 in Ht as [_ Ht]. done.
    + intros c. rewrite elem_of_app, (oo_prev _ Hok), Htried. cbn [o2 mapOrphanBlocks]. rewrite Hl2. cbn [app]. rewrite elem_of_cons.
      destruct (decide (Prev c = h)) as [->|]; tauto.
    + cbn [app]. by apply NoDup_cons.
    + by apply Forall_forall.
    + cbn [app]. constructor; [|done]. auto.
    + done.
    + intros k b. rewrite Hl'. change (mapOrphanBlocks o2) with (mapOrphanBlocks o1). rewrite Hl2. cbn [app]. rewrite not_elem_of_cons. tauto.
Qed.

(** Placing a checked block ends.  The orphans whose parent is the block, or an orphan
    that was accepted with it, leave. *)
Lemma place_block_spec (fWanted : bool) (b : CBlock) (s : S) (o : orphan_blocks) :
  let hash := CBlockHeader_GetHash (header b) in
  let prev := hashPrevBlock (header b) in
  orphans_ok o -> mapOrphanBlocks o !! hash = None ->
  exists r s' o', place_block fWanted b s o = Some (r, s', o') /\ (forall h, bs_has s h = true -> bs_has s' h = true) /\
    match r with
    | Throw => accept_threw s s'
    | Fail _ => o' = o /\ (s' = s \/ bs_accept b s = (r, s'))
    | Ok _ => orphans_ok o' /\
        if bs_has s prev
        then exists tried more, accept_run (b :: tried) s = Some (hash :: more, s') /\ NoDup tried /\
               (forall c, c ∈ tried <-> mapOrphanBlocks o !! GetHash c = Some c /\ Prev c ∈ hash :: more) /\
               NoDup (hash :: more) /\ Forall (fun h => bs_has s' h = true) (hash :: more) /\
               forall k c, mapOrphanBlocks o' !! k = Some c <-> mapOrphanBlocks o !! k = Some c /\ hashPrevBlock (header c) ∉ hash :: more
        else s' = s /\ mapOrphanBlocks o' = <[hash := b]> (mapOrphanBlocks o)
    end.
Proof.
  intros hash prev Hok Hnew. unfold place_block. fold hash prev. destruct (bs_has s prev) eqn:Hp; cbn [negb].
  - destruct (bs_accept b s) as [[[]|n|] s1] eqn:Ea;
      [|eexists _, _, _; (conjs; [done|intros h; by eapply bs_keeps|split; [done|by right]])
       |eexists _, _, _; (conjs; [done|intros h; by eapply bs_keeps|by exists [], [], s, b])].
    destruct (orphan_loop_spec (Datatypes.S (size (mapOrphanBlocks o))) [hash] s1 o Hok) as (r & s' & o' & E & Hk & Hr).
    + apply NoDup_singleton.
    + by constructor.
    + constructor; [|done]. by eapply bs_enters.
    + done.
    + exists r, s', o'. conjs; [done|intros h Hh; apply Hk; by eapply bs_keeps|].
      destruct r as [[]| |]; [|done|by eapply accept_threw_app; [exact (accept_run_one _ _ _ _ Ea ltac:(done))|]].
      destruct Hr as (tried & more & Hrun & H1 & H2 & H3 & H4 & H5 & H6 & H7). split; [done|]. exists tried, more. cbn [app] in *.
      conjs; try done. cbn. by rewrite Ea, Hrun.
  - destruct (_ && _)%bool; eexists _, _, _; (conjs; [done|done|]); [split; [done|by left]|]. split; [by apply add_orphan_ok|done].
Qed.
End Orphans.

(** ** The value check *)

Section Values.
Context `{HD : Digests} (rdtx : CDiskTxPos -> option CTransaction) (pool : gmap uint256 CTransaction) (t : Z) (txdb : txindex_map).

Lemma fetch_known vi : forall acc inputs, fetch_loop rdtx pool t txdb ∅ true false vi acc = (true, inputs) ->
  Forall (fun x => is_Some (acc !! out_hash (prevout x)) \/ is_Some (txdb !! out_hash (prevout x))) vi.
Proof.
  induction vi as [|x vi IH]; intros acc inputs; cbn [fetch_loop]; [constructor|]. case_bool_decide as Hin.
  - intros H%IH. constructor; [by left|done].
  - cbn [orb]. rewrite lookup_empty. destruct (txdb !! out_hash (prevout x)) as [i|] eqn:Ei; [|done].
    destruct (if decide _ then _ else _) as [prev|]; [|done]. intros H%IH. constructor; [by right; rewrite Ei|].
    eapply Forall_impl; [exact H|]. cbn. intros y [Hy|?]; [|by right]. destruct (decide (out_hash (prevout y) = out_hash (prevout x))) as [E|Hne].
    + right. rewrite E, Ei. eauto.
    + left. by rewrite lookup_insert_ne in Hy.
Qed.

(** A search that failed leaves an input without an output. *)
Lemma fetch_failed vi : forall acc inputs, fetch_loop rdtx pool t txdb ∅ true false vi acc = (false, inputs) ->
  Exists (fun x => GetOutputFor x inputs = None) vi.
Proof.
  assert (forall x (i : CTxIndex) (acc : MapPrevTx), GetOutputFor x (<[out_hash (prevout x) := (i, CTransaction_null t)]> acc) = None) as Hnull.
  { intros x i acc. unfold GetOutputFor. rewrite lookup_insert_eq. cbn. by case_match. }
  induction vi as [|x vi IH]; intros acc inputs; cbn [fetch_loop]; [done|]. case_bool_decide as Hin; [intros H%IH; by right|].
  cbn [orb]. rewrite lookup_empty. destruct (txdb !! out_hash (prevout x)) as [i|]; [|intros [= <-]; left; apply Hnull].
  destruct (if decide _ then _ else _) as [prev|]; [intros H%IH; by right|]. intros [= <-]. left. apply Hnull.
Qed.

Lemma value_in_none inputs vi n : Exists (fun x => GetOutputFor x inputs = None) vi -> value_in_loop inputs vi n = None.
Proof.
  intros H. revert n. induction H as [x vi Hx|x vi _ IH]; intros n; cbn [value_in_loop]; [by rewrite Hx|].
  destruct (GetOutputFor x inputs); [apply IH|done].
Qed.

(** The sums exist only when every input is in the index. *)
Lemma value_sums_known txs nIn nOut r : value_sums rdtx t txdb pool txs nIn nOut = Ok r ->
  Forall (fun tx => IsCoinBase tx = true \/ Forall (fun x => is_Some (txdb !! out_hash (prevout x))) (vin tx)) txs.
Proof.
  revert nIn nOut. induction txs as [|tx txs IH]; intros nIn nOut; cbn [value_sums]; [constructor|].
  unfold GetMapTxInputs, GetValueMapIn, FetchInputs. destruct (IsCoinBase tx) eqn:Ec.
  { cbn. destruct (GetValueOut tx); [|done]. destruct (_ <? _); [done|]; destruct (_ <? _); [done|]. intros Hr%IH. constructor; [by left|done]. }
  destruct (fetch_loop _ _ _ _ _ _ _ _ _) as [ok inputs] eqn:Ef. destruct ok; cbn [negb].
  - apply fetch_known in Ef. destruct (negb _ && _)%bool; [done|].
    destruct (value_in_loop _ _ _); [|done]. destruct (GetValueOut tx); [|done]. destruct (_ <? _); [done|]; destruct (_ <? _); [done|]. intros Hr%IH.
    constructor; [right|done]. eapply Forall_impl; [exact Ef|]. cbn. intros x [[? H0]|?]; [by rewrite lookup_empty in H0|done].
  - apply fetch_failed in Ef. cbn. by rewrite value_in_none.
Qed.

Lemma check_values_known nHeight block : BOOTSTRAP_HEIGHT < nHeight -> check_values rdtx t txdb pool nHeight block = Ok () ->
  Forall (fun tx => IsCoinBase tx = true \/ Forall (fun x => is_Some (txdb !! out_hash (prevout x))) (vin tx)) (vtx block).
Proof.
  unfold check_values, BOOTSTRAP_HEIGHT. intros Hh. replace (10000 <? nHeight) with true by lia.
  rewrite bool_decide_eq_false_2 by (unfold attacked_heights; rewrite !not_elem_of_cons; conjs; [lia..|apply not_elem_of_nil]). cbn [negb andb].
  destruct (value_sums _ _ _ _ _ _ _) as [[nIn nOut]|n|] eqn:Es; [intros _; by eapply value_sums_known|done|].
  by replace (701720 <? nHeight) with true by lia.
Qed.
End Values.

(** ** Adding a block *)

Lemma skel_nBits a b : skel a = skel b -> bi_nBits (n_rec a) = bi_nBits (n_rec b).
Proof. intros H. change (bi_nBits (fst (skel a)) = bi_nBits (fst (skel b))). by rewrite H. Qed.

Section Insert.
Context (idx : block_index) (Hok : tree_ok idx) (h : uint256) (nd : node) (Hnew : idx !! h = None).

Lemma insert_tree_ok p pd : bi_hash (n_rec nd) = h -> n_pprev nd = Some p -> idx !! p = Some pd ->
  nHeight (n_rec nd) = nHeight (n_rec pd) + 1 -> tree_ok (<[h := nd]> idx).
Proof.
  intros Hh Hp Hpd Hht k x. rewrite lookup_insert_Some. intros [[<- <-]|[Hne Hx]].
  - destruct (Hok _ _ Hpd) as (_ & H0 & _). conjs; [done|lia|]. rewrite Hp. exists pd. rewrite lookup_insert_ne by congruence. done.
  - destruct (Hok _ _ Hx) as (H1 & H2 & H3). conjs; [done|done|]. destruct (n_pprev x) as [q|]; [|done].
    destruct H3 as (qd & Hq & H3). exists qd. rewrite lookup_insert_ne by congruence. done.
Qed.

Lemma insert_path_of k l : path_of idx k l -> path_of (<[h := nd]> idx) k l.
Proof.
  induction 1 as [k x Hk E|k x p l Hk E _ IH]; [eapply path_root|eapply path_step]; try done; by rewrite lookup_insert_ne by congruence.
Qed.

Lemma insert_pprev k : is_Some (idx !! k) -> pprev (<[h := nd]> idx) k = pprev idx k.
Proof. intros [x Hx]. unfold pprev. by rewrite lookup_insert_ne by congruence. Qed.

Lemma insert_linked best l : n_pnext nd = None -> path_of idx best l -> linked idx l -> linked (<[h := nd]> idx) l.
Proof.
  intros Hn Hp Hl k x j. rewrite lookup_insert_Some.
  assert (forall j, j ∈ l -> pprev (<[h := nd]> idx) j = pprev idx j) as Hpp.
  { intros i Hi. apply insert_pprev. destruct (path_of_elem idx Hok _ _ _ Hp Hi); eauto. }
  intros [[<- <-]|[Hne Hx]].
  - rewrite Hn. split; [done|]. intros [Hj Hjp]. rewrite Hpp in Hjp by done. unfold pprev in Hjp.
    destruct (idx !! j) as [jd|] eqn:Ej; [|done]. cbn in Hjp. destruct (Hok _ _ Ej) as (_ & _ & H). rewrite Hjp in H.
    destruct H as (pd & Hpd & _). congruence.
  - rewrite (Hl k x j Hx). split; intros [Hj Hjp]; (split; [done|]); [by rewrite Hpp|by rewrite <- Hpp].
Qed.
End Insert.

Section Adding.
Context `{HD : Digests} `{BN : OpenSSL_BN}.
Context (params : chain_params).

Lemma new_record_spec nFile nBlockPos hashProof block idx rec pp pd :
  new_record params nFile nBlockPos hashProof block idx = Some (rec, pp) -> idx !! hashPrevBlock (header block) = Some pd ->
  bi_hash rec = CBlockHeader_GetHash (header block) /\ bi_nFile rec = nFile /\ bi_nBlockPos rec = nBlockPos /\
  nHeight rec = nHeight (n_rec pd) + 1 /\ nChainTrust rec = op_add (nChainTrust (n_rec pd)) (GetBlockTrust rec) /\
  pp = Some (hashPrevBlock (header block)).
Proof.
  unfold new_record. intros H Hp. rewrite Hp in H. unfold SetStakeEntropyBit in H. destruct (1 <? _); [done|].
  destruct (ComputeNextStakeModifier _ _ _) as [[m fG]|]; [|done]. destruct (CheckStakeModifierCheckpoints _ _); [|done].
  injection H as <- <-. unfold CBlockIndex_make. destruct (GetProofOfStake block) as [stake time]. conjs; reflexivity.
Qed.

Context {V E P T : Type} {LO : LedgerOps V E} {PO : PoolOps P} {LOk : LedgerOps_ok LO T} {POk : PoolOps_ok PO}.
Context (fTestNet : bool) (ReadBlockFile : Z -> Z -> option CBlock) (TxnCommit : @db V -> bool) (t0 : T).

Abbreviation state := (@chain_state V E P).
Abbreviation rd := (read_block params ReadBlockFile).

(** The node follows [best]; every block of the tree descends from [g]. *)
Record follows (s : state) (best g : uint256) : Prop := {
  fo_at : chain_at params ReadBlockFile t0 s best;
  fo_best : pindexBest s = Some best;
  fo_hash : hashBestChain s = best;
  fo_trust : nBestChainTrust s = trust_of (mapBlockIndex s) best;
  fo_genesis : pindexGenesisBlock s = Some g;
  fo_root : pprev (mapBlockIndex s) g = None;
  fo_below : forall h, is_Some (mapBlockIndex s !! h) -> g ∈ path (mapBlockIndex s) h;
}.

Lemma replay_ext_in f g l t : (forall h, h ∈ l -> f h = g h) -> replay (LOk := LOk) t0 f l t -> replay (LOk := LOk) t0 g l t.
Proof.
  intros Hfg H. revert Hfg. induction H as [|h l block n bi c hn v e bi' v' e' _ IH Hb Hc Hfr]; intros Hfg; [constructor|].
  eapply replay_block; [apply IH| |exact Hc|exact Hfr].
  - intros k Hk. apply Hfg. by right.
  - rewrite <- Hfg; [done|by left].
Qed.

(** The state with a new leaf, and a record written to the database. *)
Lemma grow s best g hash nd pd d : follows s best g -> mapBlockIndex s !! hash = None -> bi_hash (n_rec nd) = hash ->
  forall p, n_pprev nd = Some p -> mapBlockIndex s !! p = Some pd -> nHeight (n_rec nd) = nHeight (n_rec pd) + 1 -> n_pnext nd = None ->
  lg_view (db_ledger d) = lg_view (db_ledger (txdb s)) -> db_hashBestChain d = db_hashBestChain (txdb s) ->
  follows (set_txdb d (set_index (<[hash := nd]> (mapBlockIndex s)) s)) best g /\
  path (<[hash := nd]> (mapBlockIndex s)) hash = hash :: path (mapBlockIndex s) p.
Proof.
  intros [[H1 H2 H3 H4 H5 H6] Hb Hh Ht Hg Hr Hbel] Hnew Ehash p Hp Hpd Hht Hn Hv Hd. set (idx := mapBlockIndex s) in *. set (idx' := <[hash := nd]> idx).
  assert (tree_ok idx') as Hok' by (by eapply insert_tree_ok).
  assert (forall k, is_Some (idx !! k) -> path idx' k = path idx k) as Hpath.
  { intros k [x Hx]. apply (path_eq idx' Hok'). apply insert_path_of; [done|]. by apply (path_of_path idx H1 k x). }
  assert (path idx' hash = hash :: path idx p) as Epath.
  { apply (path_eq idx' Hok'). eapply path_step; [apply lookup_insert_eq|done|]. apply insert_path_of; [done|]. by apply (path_of_path idx H1 p pd). }
  split; [|done]. destruct H2 as [nb Hnb].
  assert (is_Some (idx !! best)) as Hthere by eauto. pose proof (path_of_path idx H1 best nb Hnb) as Hpb.
  split; [split| | | | | |]; cbn [set_txdb set_index mapBlockIndex txdb mempool pindexBest hashBestChain nBestChainTrust pindexGenesisBlock]; fold idx'.
  - done.
  - exists nb. unfold idx'. by rewrite lookup_insert_ne by congruence.
  - rewrite Hpath by done. by eapply insert_linked.
  - by rewrite Hd.
  - rewrite Hpath, Hv by done. eapply replay_ext_in; [|exact H5]. intros k Hk. destruct (path_of_elem idx H1 _ _ _ Hpb Hk) as [x Hx].
    unfold read_block, idx'. by rewrite lookup_insert_ne by congruence.
  - done.
  - done.
  - done.
  - rewrite Ht. unfold trust_of, idx'. by rewrite lookup_insert_ne by congruence.
  - done.
  - assert (is_Some (idx !! g)) as Hgs. { destruct (path_of_elem idx H1 _ _ g Hpb (Hbel best Hthere)) as [x Hx]. eauto. }
    unfold idx'. by rewrite insert_pprev.
  - intros k [x Hx]. unfold idx' in Hx. rewrite lookup_insert_Some in Hx. destruct Hx as [[<- <-]|[_ Hx]].
    + rewrite Epath. right. apply Hbel. eauto.
    + rewrite Hpath by eauto. apply Hbel. eauto.
Qed.

Lemma AddToBlockIndex_spec nFile nBlockPos hashProof block s best g pd r s' seen :
  let hash := CBlockHeader_GetHash (header block) in
  follows s best g -> mapBlockIndex s !! hash = None -> mapBlockIndex s !! hashPrevBlock (header block) = Some pd ->
  ReadBlockFile nFile nBlockPos = Some block ->
  (IsProofOfWork block = true -> CheckProofOfWork params hash (nBits (header block)) = true) ->
  (forall rec pp, new_record params nFile nBlockPos hashProof block (mapBlockIndex s) = Some (rec, pp) ->
     let idx := <[hash := mkNode rec pp None]> (mapBlockIndex s) in
     ids_new t0 (rd idx) (path idx hash) /\ txs_fit (rd idx) (path idx best) /\ txs_fit (rd idx) (path idx hash)) ->
  AddToBlockIndex params fTestNet ReadBlockFile TxnCommit nFile nBlockPos hashProof block s = (r, s', seen) ->
  (exists m, chain_at params ReadBlockFile t0 s' m) /\
  ((pindexBest s' = pindexBest s /\ nBestChainTrust s' = nBestChainTrust s) \/
   (pindexBest s' = Some hash /\ op_gt (nBestChainTrust s') (nBestChainTrust s) = true)) /\
  match r with
  | Ok _ => exists nd, mapBlockIndex s' !! hash = Some nd /\ n_pprev nd = Some (hashPrevBlock (header block)) /\
      nHeight (n_rec nd) = nHeight (n_rec pd) + 1 /\ nChainTrust (n_rec nd) = op_add (nChainTrust (n_rec pd)) (GetBlockTrust (n_rec nd))
  | _ => True
  end.
Proof.
  intros hash Hf Hnew Hpd Hread Hpow Hhyp H. unfold AddToBlockIndex in H. fold hash in H. rewrite Hnew in H.
  destruct (new_record _ _ _ _ _ _) as [[rec pp]|] eqn:Er.
  2: { injection H as <- <- <-. conjs; [exists best; apply Hf|by left|done]. }
  destruct (new_record_spec _ _ _ _ _ _ _ _ Er Hpd) as (Eh & Ef & Epos & Ehgt & Etr & ->). specialize (Hhyp rec _ eq_refl). cbv zeta in Hhyp.
  set (nd := mkNode rec (Some (hashPrevBlock (header block))) None) in *. set (idx1 := <[hash := nd]> (mapBlockIndex s)) in *.
  set (d := mkDb (lg_write_index _ _) _) in H. destruct Hhyp as (Hids & Hfb & Hfn).
  assert (forall d', lg_view (db_ledger d') = lg_view (db_ledger (txdb s)) -> db_hashBestChain d' = db_hashBestChain (txdb s) ->
    follows (set_txdb d' (set_index idx1 s)) best g) as Hgrow.
  { intros d' Hv Hd. by eapply (grow s best g hash nd pd d'). }
  assert (path idx1 hash = hash :: path (mapBlockIndex s) (hashPrevBlock (header block))) as Epath
    by (eapply (grow s best g hash nd pd (txdb s)); done).
  pose proof (Hgrow d (lg_write_view _ _) eq_refl) as [G1 G2 G3 G4 G5 G6 G7].
  assert (mapBlockIndex (set_txdb d (set_index idx1 s)) !! hash = Some nd) as Hnd by apply lookup_insert_eq.
  destruct (negb (TxnCommit d)).
  { injection H as <- <- <-. conjs; [|by left|done]. exists best. pose proof (Hgrow (txdb s) eq_refl eq_refl) as [[] _ _ _ _ _ _]. by split. }
  destruct (op_gt (nChainTrust rec) _) eqn:Egt.
  2: { injection H as <- <- <-. conjs; [by exists best|by left|]. exists nd. conjs; [exact Hnd|done|exact Ehgt|exact Etr]. }
  assert (rd idx1 hash = Some block) as Hrd.
  { unfold read_block. cbn in Hnd. unfold idx1. rewrite lookup_insert_eq. cbn [mbind option_bind n_rec nd]. unfold ReadFromDisk. rewrite Ef, Epos, Hread. fold hash.
    destruct (IsProofOfWork block) eqn:Ew; [rewrite Hpow by done|]; cbn; by rewrite decide_True. }
  assert (pprev idx1 hash = Some (hashPrevBlock (header block))) as Hprev by (unfold pprev, idx1; by rewrite lookup_insert_eq).
  pose proof (SetBestChain_spec params (if fTestNet then hashGenesisBlockTestNet else hashGenesisBlock) ReadBlockFile TxnCommit t0
    (set_txdb d (set_index idx1 s)) best hash block g G1 G2 G3 G5 Hrd Hprev G6 (G7 best (ca_there _ _ _ _ _ G1)) (G7 hash (ex_intro _ nd Hnd)) Hids Hfb Hfn) as HS.
  destruct (SetBestChain _ _ _ _ _ _ _) as [[[]|n|] s1]; injection H as <- <- <-.
  - destruct HS as (Hs & Hb & _ & _ & Ht & m & Hm & _). conjs; [by exists m| |].
    + right. split; [done|]. rewrite Ht. unfold trust_of. rewrite Hnd. exact Egt.
    + destruct (same_tree_some _ _ _ _ Hs Hnd) as (nd' & Hnd' & E'). exists nd'. split; [done|].
      pose proof (skel_nBits _ _ E') as Ebits. apply skel_fields in E' as (_ & Ehg & Ect & _ & _ & Epp).
      rewrite Epp, Ehg, Ect. unfold GetBlockTrust in Etr |- *. rewrite Ebits. done.
  - pose proof HS as [(_ & Hb & _ & _ & Ht & _) _]. conjs; [exists best; by eapply unmoved_at|by left|done].
  - destruct HS as [(_ & Hb & _ & _ & Ht & _) [m Hm]]. conjs; [by exists m|by left|done].
Qed.
End Adding.

(** ** The tree only grows *)

Section Grows.
Context `{HD : Digests} `{BN : OpenSSL_BN} `{EC : ECDSA} {V E P : Type} {LO : LedgerOps V E} {PO : PoolOps P} {SO : StakeOps V E}.
Context (params : chain_params) (fTestNet : bool) (mode : CPMode).
Context (rdtx : CDiskTxPos -> option CTransaction) (pool_txs : P -> gmap uint256 CTransaction) (nAdjustedTime : Z).
Context (rf : Z -> Z -> option CBlock) (wf : CBlock -> option (Z * Z)) (tc : @db V -> bool) (wo : uint256 -> bool).
Abbreviation state := (@chain_state V E P).

Definition sub_index (a b : block_index) : Prop := forall h : uint256, is_Some (a !! h) -> is_Some (b !! h).

#[local] Instance sub_index_preorder : PreOrder sub_index.
Proof. split; [by intros a h | intros a b c H1 H2 h; auto]. Qed.

Lemma alter_sub (f : node -> node) k idx : sub_index idx (alter f k idx).
Proof.
  intros h [x Hx]. destruct (decide (h = k)) as [->|]; [rewrite lookup_alter_eq, Hx|rewrite lookup_alter_ne, Hx by congruence]; cbn; eauto.
Qed.

Lemma fold_sub (f : block_index -> uint256 -> block_index) hs : (forall i h, sub_index i (f i h)) -> forall idx, sub_index idx (fold_left f hs idx).
Proof. intros Hf. induction hs as [|h hs IH]; intros idx; cbn [fold_left]; [done|]. etrans; [apply Hf|apply IH]. Qed.

Lemma link_sub i h : sub_index i (link i h).
Proof. unfold link. case_match; [apply alter_sub|done]. Qed.
Lemma unlink_sub i h : sub_index i (unlink i h).
Proof. unfold unlink. case_match; [apply alter_sub|done]. Qed.

Lemma connect_all_sub n hs : forall idx v e acc r idx' e', connect_all params rf n idx hs v e acc = (r, idx', e') -> sub_index idx idx'.
Proof.
  induction hs as [|h hs IH]; intros idx v e acc r idx' e'; cbn [connect_all]; [by intros [= _ <- _]|].
  destruct (read_block _ _ _ _); [|by intros [= _ <- _]]. destruct (lg_connect _ _ _ _ _ _) as [[[bi v1] e1]| |]; [|by intros [= _ <- _]..].
  intros H%IH. etrans; [apply alter_sub|exact H].
Qed.

Lemma Reorganize_sub h (s s' : state) r : Reorganize params rf tc h s = (r, s') -> sub_index (mapBlockIndex s) (mapBlockIndex s').
Proof.
  unfold Reorganize. destruct (pindexBest s); [|by intros [= _ <-]]. destruct (find_fork _ _ _ _); [|by intros [= _ <-]].
  destruct (branch _ _ _ _); [|by intros [= _ <-]]. destruct (branch _ _ _ _); [|by intros [= _ <-]].
  destruct (disconnect_all _ _ _ _ _ _ _) as [[[v res]|] e]; [|by intros [= _ <-]].
  destruct (connect_all _ _ _ _ _ _ _ _) as [[r1 idx1] e1] eqn:Ec. apply connect_all_sub in Ec.
  destruct r1 as [[v1 txs]| |]; [|by intros [= _ <-]..]. destruct (negb _); [by intros [= _ <-]|].
  set (idx2 := fold_left link _ _). assert (sub_index (mapBlockIndex s) idx2) as H2.
  { etrans; [exact Ec|]. unfold idx2. etrans; [apply (fold_sub unlink); apply unlink_sub|apply fold_sub; apply link_sub]. }
  destruct (for_each _ _ _); [|by intros [= _ <-]]. destruct (for_each _ _ _); by intros [= _ <-].
Qed.

Lemma Inner_sub b h (s s' : state) r : SetBestChainInner tc b h s = (r, s') -> sub_index (mapBlockIndex s) (mapBlockIndex s').
Proof.
  unfold SetBestChainInner. destruct (pindexBest s); [|by intros [= _ <-]]. destruct (lg_connect _ _ _ _ _ _) as [[[bi v1] e1]| |].
  - assert (sub_index (mapBlockIndex s) (set_rec bi (mapBlockIndex s))) as H1 by apply alter_sub.
    destruct (negb _); [by intros [= _ <-]|]. destruct (pprev _ _); [|by intros [= _ <-]].
    destruct (for_each _ _ _); intros [= _ <-]; (etrans; [exact H1|apply alter_sub]).
  - unfold InvalidChainFound. intros [= _ <-]. by case_match.
  - by intros [= _ <-].
Qed.

Lemma further_sub hs : forall (s s' : state) r, connect_further params rf tc hs s = (r, s') -> sub_index (mapBlockIndex s) (mapBlockIndex s').
Proof.
  induction hs as [|h hs IH]; intros s s' r; cbn [connect_further]; [by intros [= _ <-]|]. destruct (read_block _ _ _ _); [|by intros [= _ <-]].
  destruct (SetBestChainInner _ _ _ _) as [[[]| |] s1] eqn:Ei; apply Inner_sub in Ei; [intros H%IH; by etrans|by intros [= _ <-]..].
Qed.

Lemma SetBestChain_sub g b h (s s' : state) r : SetBestChain params g rf tc b h s = (r, s') -> sub_index (mapBlockIndex s) (mapBlockIndex s').
Proof.
  unfold SetBestChain. destruct (move_chain _ _ _ _ _ _ _) as [r1 s1] eqn:Em. assert (sub_index (mapBlockIndex s) (mapBlockIndex s1)).
  { unfold move_chain in Em. destruct (_ && _)%bool; [destruct (negb _); by injection Em as _ <-|]. case_decide; [by eapply Inner_sub|].
    destruct (pindexBest s); [|by injection Em as _ <-]. destruct (postpone _ _ _ _) as [i sec].
    destruct (Reorganize _ _ _ _ _) as [[[]| |] s2] eqn:Er; apply Reorganize_sub in Er.
    - apply further_sub in Em. by etrans.
    - injection Em as _ <-. unfold InvalidChainFound. by case_match.
    - by injection Em as _ <-. }
  destruct r1 as [[]| |]; by intros [= _ <-].
Qed.

Lemma pending_sub (s s' : state) y r y' : AcceptPendingSyncCheckpoint params fTestNet rf tc wo s y = (r, s', y') ->
  sub_index (mapBlockIndex s) (mapBlockIndex s').
Proof.
  unfold AcceptPendingSyncCheckpoint. destruct (_ && _)%bool; [|by intros [= _ <- _]]. destruct (ValidateSyncCheckpoint _ _ _) as [[] y1]; [|by intros [= _ <- _]].
  destruct (enter_main_chain _ _ _ _ _ _) as [r1 s1] eqn:Ee. assert (sub_index (mapBlockIndex s) (mapBlockIndex s1)) as H1.
  { unfold enter_main_chain in Ee. destruct (IsInMainChain _ _ _); [by injection Ee as _ <-|]. destruct (read_block _ _ _ _); [|by injection Ee as _ <-].
    destruct (SetBestChain _ _ _ _ _ _ _) as [[[]| |] s2] eqn:Es; apply SetBestChain_sub in Es; by injection Ee as _ <-. }
  destruct r1 as [[]| |]; [|by intros [= _ <- _]..]. destruct (WriteSyncCheckpoint _ _ _) as [[] y2]; by intros [= _ <- _].
Qed.

Lemma AddToBlockIndex_sub f p hp b (s s' : state) r seen : AddToBlockIndex params fTestNet rf tc f p hp b s = (r, s', seen) ->
  sub_index (mapBlockIndex s) (mapBlockIndex s') /\ (r = Ok () -> is_Some (mapBlockIndex s' !! CBlockHeader_GetHash (header b))).
Proof.
  unfold AddToBlockIndex. destruct (mapBlockIndex s !! _) eqn:Eh; [by intros [= <- <- _]|].
  destruct (new_record _ _ _ _ _ _) as [[rec pp]|]; [|by intros [= <- <- _]].
  set (idx1 := <[_ := _]> (mapBlockIndex s)).
  assert (is_Some (idx1 !! CBlockHeader_GetHash (header b))) as Hin by (unfold idx1; rewrite lookup_insert_eq; eauto).
  assert (sub_index (mapBlockIndex s) idx1) as H1. { intros h [x Hx]. unfold idx1. rewrite lookup_insert_ne by congruence. eauto. }
  destruct (negb _); [by intros [= <- <- _]|]. destruct (op_gt _ _); [|by intros [= <- <- _]].
  destruct (SetBestChain _ _ _ _ _ _ _) as [[[]| |] s2] eqn:Es; apply SetBestChain_sub in Es; intros [= <- <- _]; cbn in Es;
    (split; [by etrans|]); try done. auto.
Qed.

Lemma AcceptBlock_sub b (s s' : state) y r y' seen :
  AcceptBlock params fTestNet mode rdtx pool_txs nAdjustedTime rf wf tc wo b s y = (r, s', y', seen) ->
  sub_index (mapBlockIndex s) (mapBlockIndex s') /\ (r = Ok () -> is_Some (mapBlockIndex s' !! CBlockHeader_GetHash (header b))).
Proof.
  unfold AcceptBlock. destruct (check_context _ _ _ _ _ _ _ _); [|by intros [= <- <- _ _]..].
  destruct (proof_hash s b) as [r1 s1] eqn:Ep. assert (mapBlockIndex s1 = mapBlockIndex s) as E1.
  { unfold proof_hash in Ep. destruct (IsProofOfStake b); [|by injection Ep as _ <-]. destruct (vtx b !! 1%nat); [|by injection Ep as _ <-].
    destruct (st_check _ _ _ _ _). by injection Ep as _ <-. }
  rewrite <- E1. destruct r1; [|by intros [= <- <- _ _]..]. destruct (CheckSync _ _ _ _ _); [|by intros [= <- <- _ _]].
  destruct (_ && _)%bool; [by intros [= <- <- _ _]|]. destruct (height_in_coinbase _ _); [|by intros [= <- <- _ _]..].
  destruct (wf b) as [[f p]|]; [|by intros [= <- <- _ _]].
  destruct (AddToBlockIndex _ _ _ _ _ _ _ _ _) as [[r2 s2] sn] eqn:Ea. apply AddToBlockIndex_sub in Ea as [H2 Hin].
  destruct r2 as [[]| |]; [|by intros [= <- <- _ _]..]. destruct (AcceptPendingSyncCheckpoint _ _ _ _ _ _ _) as [[r3 s3] y3] eqn:Ec.
  apply pending_sub in Ec. intros [= _ <- _ _]. split; [by etrans|]. auto.
Qed.

#[export] Instance node_sink_ok : BlockSink_ok (BS := node_sink params fTestNet mode rdtx pool_txs nAdjustedTime rf wf tc wo).
Proof.
  split; intros b s; [intros s'|intros r s' h]; cbn [bs_accept bs_has node_sink];
    destruct (AcceptBlock _ _ _ _ _ _ _ _ _ _ _ _ _) as [[[r1 s1] y1] seen] eqn:Ea; apply AcceptBlock_sub in Ea as [H1 Hin].
  - intros [= -> <-]. cbn. apply bool_decide_eq_true. auto.
  - intros [= <- <-]. cbn. rewrite !bool_decide_eq_true. apply H1.
Qed.
End Grows.

(** ** The theorems *)

Lemma check_new_block_new `{HD : Digests} `{BN : OpenSSL_BN} `{EC : ECDSA} params t idx best y seen o b u :
  check_new_block params t idx best y seen o b = Ok u ->
  idx !! CBlockHeader_GetHash (header b) = None /\ mapOrphanBlocks o !! CBlockHeader_GetHash (header b) = None.
Proof.
  unfold check_new_block. intros H. res_inv H. clear H. res_facts.
  repeat match goal with E : negb (bool_decide (is_Some _)) = true |- _ => apply negb_true_iff, bool_decide_eq_false, eq_None_not_Some in E end. done.
Qed.

(** C5: Adding a block to the tree, in a node that follows a best block: whatever
    happens (the stake modifier fails, the database refuses, the block does not
    connect), the tree, the forward links, the database and the memory pool are again
    those of one chain; the best block stays, or becomes the new block with more
    trust than before; and when it succeeds the block is a child of its parent,
    one higher, with the parent's trust and its own. *)
Theorem add_block_exact `{HD : Digests} `{BN : OpenSSL_BN} {V E P T : Type} {LO : LedgerOps V E} {PO : PoolOps P}
    {LOk : LedgerOps_ok LO T} {POk : PoolOps_ok PO} (params : chain_params) (fTestNet : bool) (ReadBlockFile : Z -> Z -> option CBlock)
    (TxnCommit : @db V -> bool) (t0 : T) nFile nBlockPos hashProof block (s : @chain_state V E P) best g pd r s' seen :
  let hash := CBlockHeader_GetHash (header block) in
  let rd := read_block params ReadBlockFile in
  follows params ReadBlockFile t0 s best g ->
  mapBlockIndex s !! hash = None -> mapBlockIndex s !! hashPrevBlock (header block) = Some pd ->
  ReadBlockFile nFile nBlockPos = Some block ->
  (IsProofOfWork block = true -> CheckProofOfWork params hash (nBits (header block)) = true) ->
  (forall rec pp, new_record params nFile nBlockPos hashProof block (mapBlockIndex s) = Some (rec, pp) ->
     let idx := <[hash := mkNode rec pp None]> (mapBlockIndex s) in
     ids_new t0 (rd idx) (path idx hash) /\ txs_fit (rd idx) (path idx best) /\ txs_fit (rd idx) (path idx hash)) ->
  AddToBlockIndex params fTestNet ReadBlockFile TxnCommit nFile nBlockPos hashProof block s = (r, s', seen) ->
  (exists m, chain_at params ReadBlockFile t0 s' m) /\
  ((pindexBest s' = pindexBest s /\ nBestChainTrust s' = nBestChainTrust s) \/
   (pindexBest s' = Some hash /\ op_gt (nBestChainTrust s') (nBestChainTrust s) = true)) /\
  match r with
  | Ok _ => exists nd, mapBlockIndex s' !! hash = Some nd /\ n_pprev nd = Some (hashPrevBlock (header block)) /\
      nHeight (n_rec nd) = nHeight (n_rec pd) + 1 /\ nChainTrust (n_rec nd) = op_add (nChainTrust (n_rec pd)) (GetBlockTrust (n_rec nd))
  | _ => True
  end.
Proof. apply AddToBlockIndex_spec. Qed.

(** C11: An accepted block above height 701720 spends only outputs of transactions
    in the transaction index as it was before the block: a block with a transaction
    that spends an output of another transaction of the same block, or of a block of
    another branch, is refused. *)
Theorem in_block_spends_refused `{HD : Digests} `{BN : OpenSSL_BN} {V E P : Type} {LO : LedgerOps V E} {PO : PoolOps P}
    {SO : StakeOps V E} (params : chain_params) (fTestNet : bool) (mode : CPMode) (rdtx : CDiskTxPos -> option CTransaction)
    (pool_txs : P -> gmap uint256 CTransaction) (nAdjustedTime : Z) rf wf tc wo
    block (s s' : @chain_state V E P) (y y' : sync_state) seen prev :
  AcceptBlock params fTestNet mode rdtx pool_txs nAdjustedTime rf wf tc wo block s y = (Ok (), s', y', seen) ->
  mapBlockIndex s !! hashPrevBlock (header block) = Some prev -> BOOTSTRAP_HEIGHT <= nHeight (n_rec prev) ->
  Forall (fun tx => IsCoinBase tx = true \/
    Forall (fun x => is_Some (lg_txindex (db_ledger (txdb s)) !! out_hash (prevout x))) (vin tx)) (vtx block).
Proof.
  intros H Hp Hh. unfold AcceptBlock in H. destruct (check_context _ _ _ _ _ _ _ _) as [n| |] eqn:Ec; [|done..]. clear H.
  unfold check_context in Ec. rewrite Hp in Ec. res_inv Ec. res_facts. eapply check_values_known; [|eassumption]. lia.
Qed.

(** C6: [ProcessBlock] always ends: every turn of its queue of orphans is paid for
    by an orphan that leaves.  No block leaves the tree.  A refused block leaves the
    orphans as they are.  When a block is not refused it was new; without a parent in
    the tree it waits, and the rest of the node is as before; with one, the new state
    is what accepting the block and then, one after the other, certain orphans gives:
    exactly those, once each, whose parent is the block or one of these orphans that
    was accepted.  They leave the orphans and no other does; the accepted ones are in
    the tree.  The two maps of orphans stay consistent.  An exception comes from
    the block's own checks, before anything changed, or from the acceptance of one of
    these blocks. *)
Theorem process_block_places `{HD : Digests} `{BN : OpenSSL_BN} `{EC : ECDSA} {V E P : Type} {LO : LedgerOps V E} {PO : PoolOps P}
    {SO : StakeOps V E} (params : chain_params) (fTestNet : bool) (mode : CPMode) (rdtx : CDiskTxPos -> option CTransaction)
    (pool_txs : P -> gmap uint256 CTransaction) (nAdjustedTime : Z) rf wf tc wo (b : CBlock) (n : @node_state V E P) (o : orphan_blocks) :
  let hash := CBlockHeader_GetHash (header b) in
  let prev := hashPrevBlock (header b) in
  let tree n := mapBlockIndex (ns_chain n) in
  let sink := node_sink params fTestNet mode rdtx pool_txs nAdjustedTime rf wf tc wo in
  orphans_ok o ->
  exists r n' o', ProcessBlock params fTestNet mode rdtx pool_txs nAdjustedTime rf wf tc wo b n o = Some (r, n', o') /\
    (forall h : uint256, is_Some (tree n !! h) -> is_Some (tree n' !! h)) /\
    match r with
    | Throw => (n' = n /\ o' = o) \/ accept_threw (BS := sink) n n'
    | Fail _ => o' = o /\ (n' = n \/ bs_accept (BlockSink := sink) b n = (r, n'))
    | Ok _ => orphans_ok o' /\ tree n !! hash = None /\ mapOrphanBlocks o !! hash = None /\
        ((tree n !! prev = None /\ n' = n /\ mapOrphanBlocks o' = <[hash := b]> (mapOrphanBlocks o)) \/
         (is_Some (tree n !! prev) /\
          exists tried more, accept_run (BS := sink) (b :: tried) n = Some (hash :: more, n') /\ NoDup tried /\
            (forall c, c ∈ tried <-> mapOrphanBlocks o !! CBlockHeader_GetHash (header c) = Some c /\ hashPrevBlock (header c) ∈ hash :: more) /\
            NoDup (hash :: more) /\ Forall (fun h => is_Some (tree n' !! h)) (hash :: more) /\
            forall k c, mapOrphanBlocks o' !! k = Some c <-> mapOrphanBlocks o !! k = Some c /\ hashPrevBlock (header c) ∉ hash :: more))
    end.
Proof.
  intros hash prev tree sink Hok. unfold ProcessBlock. destruct (check_new_block _ _ _ _ _ _ _ _) as [u|k|] eqn:Ec.
  2: { eexists _, _, _. split; [reflexivity|]. split; [done|]. split; [done|]. by left. }
  2: { eexists _, _, _. split; [reflexivity|]. split; [done|]. by left. }
  destruct (check_new_block_new _ _ _ _ _ _ _ _ _ Ec) as [Hnew Hno].
  destruct (place_block_spec (BS := sink) (WantedByPendingSyncCheckpoint (mapOrphanBlocks o) (ns_sync n) hash) b n o Hok Hno)
    as (r & n' & o' & E1 & Hk & Hr).
  exists r, n', o'. change (bs_has (BlockSink := sink)) with (fun m h => bool_decide (is_Some (tree m !! h))) in Hk, Hr. cbn beta in Hk, Hr.
  conjs; [exact E1| |].
  { intros h Hh. specialize (Hk h). rewrite !bool_decide_eq_true in Hk. auto. }
  destruct r as [[]| |]; [|done|by right]. destruct Hr as [Hok' Hr]. conjs; [done|done|done|]. case_bool_decide as Hp.
  - right. split; [done|]. destruct Hr as (tried & more & H1 & H2 & H3 & H4 & H5 & H6). exists tried, more. conjs; try done.
    eapply Forall_impl; [exact H5|]. cbn. intros h. by rewrite bool_decide_eq_true.
  - left. conjs; [by apply eq_None_not_Some|apply Hr..].
Qed.

(** ** Witnesses *)

Definition below_root (idx : block_index) (g : uint256) : bool :=
  forallb (fun e => bool_decide (g ∈ path idx (fst e))) (map_to_list idx).

Lemma below_root_ok (idx : block_index) (g h : uint256) : below_root idx g = true -> is_Some (idx !! h) -> g ∈ path idx h.
Proof.
  unfold below_root. rewrite forallb_forall. intros H [nd Hh%elem_of_map_to_list%list_elem_of_In%H]. by apply bool_decide_eq_true in Hh.
Qed.

Lemma bc_follows : @follows nonce_digests reference_BN (@main_net reference_BN) _ _ _ _ list_ledger no_pool list_ledger_ok no_pool_ok bc_disk []
  bc_state (tr_hash 3) (tr_hash 0).
Proof. split; [exact bc_at|try (vm_compute; reflexivity)..]. intros h. apply below_root_ok. vm_compute. reflexivity. Qed.

Lemma any_fit rec pp : let idx := <[tr_hash 4 := mkNode rec pp None]> bc_tree in
  let rd := @read_block nonce_digests reference_BN (@main_net reference_BN) bc_disk in
  @ids_new _ _ _ list_ledger list_ledger_ok [] (rd idx) (path idx (tr_hash 4)) /\
  @txs_fit _ no_pool no_pool_ok (rd idx) (path idx (tr_hash 3)) /\ @txs_fit _ no_pool no_pool_ok (rd idx) (path idx (tr_hash 4)).
Proof.
  intros idx rd. conjs; [intros h l1 l2 block n bi c hn v e r _ _ _ _; exact I|intros h b _ _; apply Forall_forall; intros tx _; exact I..].
Qed.

(** Block 4 after block 3 has the most trust. *)
Lemma add_block_exact_witness : exists s' seen,
  @AddToBlockIndex nonce_digests reference_BN _ _ _ list_ledger no_pool (@main_net reference_BN) false bc_disk (fun _ => true)
    1 4 (uint_zero 8) (bc_block 4) bc_state = (Ok (), s', seen) /\ pindexBest s' = Some (tr_hash 4).
Proof.
  destruct (@AddToBlockIndex nonce_digests reference_BN _ _ _ list_ledger no_pool (@main_net reference_BN) false bc_disk (fun _ => true)
    1 4 (uint_zero 8) (bc_block 4) bc_state) as [[[[]|n|] s'] seen] eqn:E; [|exfalso; revert E; vm_compute; discriminate ..].
  exists s', seen. split; [reflexivity|].
  assert (exists pd, bc_tree !! tr_hash 3 = Some pd) as [pd Hpd] by has_entry.
  assert (bc_tree !! @CBlockHeader_GetHash nonce_digests (header (bc_block 4)) = None) as Hnew by (vm_compute; reflexivity).
  assert (@CheckProofOfWork reference_BN (@main_net reference_BN) (@CBlockHeader_GetHash nonce_digests (header (bc_block 4))) 0x1e0fffff = true)
    as Hpow by (vm_compute; reflexivity).
  destruct (@add_block_exact nonce_digests reference_BN _ _ _ _ list_ledger no_pool list_ledger_ok no_pool_ok (@main_net reference_BN) false
    bc_disk (fun _ => true) [] 1 4 (uint_zero 8) (bc_block 4) bc_state (tr_hash 3) (tr_hash 0) pd (Ok ()) s' seen
    bc_follows Hnew Hpd eq_refl (fun _ => Hpow) (fun rec pp _ => any_fit rec pp) E) as (_ & [[Hb _]|[Hb _]] & _).
  - exfalso. assert (pindexBest s' <> Some (tr_hash 3)) as Hne; [|exact (Hne Hb)]. clear Hb.
    replace s' with (snd (fst (@Ok unit (), s', seen))) by reflexivity. rewrite <- E. vm_compute. discriminate.
  - rewrite Hb. vm_compute. reflexivity.
Defined.

(** A block at height 701721 that spends an indexed output. *)
Definition sp_index : txindex_map := {[uint_zero 8 := mkTxIndex (mkDiskTxPos 1 2 3) [CDiskTxPos_null]]}.
Definition sp_prev : CTransaction := mkTx 1 0 [] [mkTxOut 10 []] 0.
Definition sp_ledger : LedgerOps unit unit := {|
  lg_connect _ c _ _ v e := match c with [] => Throw | bi :: _ => Ok (bi, v, e) end; lg_disconnect _ _ v e := Some (v, e);
  lg_txindex _ := sp_index; lg_write_index _ v := v;
|}.
Definition sp_stake : StakeOps unit unit := {| st_check _ _ _ _ e := (Fail 0, e) |}.
Definition sp_rec : CBlockIndex :=
  mkBlockIndex (tr_hash 0) 1 0 (digits (2 ^ 32) 8 1) 701720 0 0 4 0 0 COutPoint_null 0 (uint_zero 8) 6 (uint_zero 8) 0 0x1e0fffff 0.
Definition sp_tree : block_index := {[tr_hash 0 := mkNode sp_rec None None]}.
Definition sp_state : @chain_state unit unit unit :=
  mkState sp_tree (Some (tr_hash 0)) (Some (tr_hash 0)) (tr_hash 0) 701720 (replicate 8 (2 ^ 32 - 1)) (uint_zero 8) None
    (mkDb tt (tr_hash 0)) tt tt.
Definition sp_block : CBlock :=
  mkBlock (mkHeader 6 (tr_hash 0) (uint_zero 8) 1 0x1e0fffff 5)
    [mkTx 1 1 [mkTxIn COutPoint_null (@push_int64 reference_BN 701721) 0] [mkTxOut 1 []] 0;
     mkTx 1 1 [mkTxIn (mkOutPoint (uint_zero 8) 0) [] 0] [mkTxOut 10 []] 0] [].
Abbreviation sp_accept := (@AcceptBlock nonce_digests reference_BN _ _ _ sp_ledger no_pool sp_stake (@main_net reference_BN) false ADVISORY
  (fun _ => Some sp_prev) (fun _ => ∅) 0 bc_disk (fun _ => Some (1, 5)) (fun _ => true) (fun _ => true)).

Lemma in_block_spends_refused_witness : exists s' y' seen, sp_accept sp_block sp_state (ck_state 0) = (Ok (), s', y', seen) /\
  Forall (fun tx => IsCoinBase tx = true \/ Forall (fun x => is_Some (sp_index !! out_hash (prevout x))) (vin tx)) (vtx sp_block).
Proof.
  destruct (sp_accept sp_block sp_state (ck_state 0)) as [[[[[]|n|] s'] y'] seen] eqn:E; [|exfalso; revert E; vm_compute; discriminate ..].
  assert (exists pd, sp_tree !! tr_hash 0 = Some pd /\ BOOTSTRAP_HEIGHT <= nHeight (n_rec pd)) as (pd & Hpd & Hh).
  { eexists. split; [vm_compute; reflexivity|]. vm_compute. discriminate. }
  exists s', y', seen. split; [reflexivity|]. exact (in_block_spends_refused _ _ _ _ _ _ _ _ _ _ _ _ _ _ _ _ _ E Hpd Hh).
Defined.

(** Block 6 arrives before its parent, block 5, and follows it into the tree. *)
Definition pb_block (n height : Z) (prev : uint256) : CBlock :=
  mkBlock (mkHeader 6 prev (uint_zero 8) (height - 701720) 0x1e0fffff n)
    [mkTx 1 (height - 701720) [mkTxIn COutPoint_null (@push_int64 reference_BN height) 0] [mkTxOut 1 []] 0] [].
Definition pb_node : node_state := mkNodeState sp_state (ck_state 0) ∅.
Abbreviation pb_process := (@ProcessBlock nonce_digests reference_BN any_sig _ _ _ sp_ledger no_pool sp_stake (@main_net reference_BN) false ADVISORY
  (fun _ => Some sp_prev) (fun _ => ∅) 10 bc_disk (fun b => Some (1, nNonce (header b))) (fun _ => true) (fun _ => true)).
Definition pb_orphans : orphan_blocks := @add_orphan nonce_digests (pb_block 6 701722 (tr_hash 5)) (mkOrphans ∅ ∅ ∅).

Lemma pb_orphans_ok : @orphans_ok nonce_digests pb_orphans.
Proof. apply add_orphan_ok; [apply no_orphans_ok|apply lookup_empty]. Qed.

Example orphan_waits : (fun r => match r with Some (r, n, o) => (r, mapOrphanBlocks o) | None => (Throw, ∅) end)
  (pb_process (pb_block 6 701722 (tr_hash 5)) pb_node (mkOrphans ∅ ∅ ∅)) = (Ok (), mapOrphanBlocks pb_orphans).
Proof. vm_compute. reflexivity. Qed.

Lemma process_block_places_witness : exists n' o', pb_process (pb_block 5 701721 (tr_hash 0)) pb_node pb_orphans = Some (Ok (), n', o') /\
  orphans_ok (HD := nonce_digests) o' /\ is_Some (mapBlockIndex (ns_chain n') !! tr_hash 5).
Proof.
  destruct (@process_block_places nonce_digests reference_BN any_sig _ _ _ sp_ledger no_pool sp_stake (@main_net reference_BN) false ADVISORY
    (fun _ => Some sp_prev) (fun _ => ∅) 10 bc_disk (fun b => Some (1, nNonce (header b))) (fun _ => true) (fun _ => true)
    (pb_block 5 701721 (tr_hash 0)) pb_node pb_orphans pb_orphans_ok) as (r & n' & o' & E & _ & Hr).
  destruct r as [[]|k|]; [|exfalso; revert E; vm_compute; discriminate ..]. exists n', o'.
  destruct Hr as (Hok & _ & _ & [(Hn & _)|(_ & tried & more & _ & _ & _ & _ & HF & _)]); [exfalso; revert Hn; vm_compute; discriminate|].
  split; [exact E|]. split; [exact Hok|]. exact (Forall_inv HF).
Defined.
