(* ===== verification/Base58.v ===== *)
(** * Base58 and what it encodes (base58.h)

    Byte vectors as strings of 58 characters, with leading zeros as leading ones and
    with a checksum; addresses and secret keys in that form.  A C string is the
    list of its characters before the terminating zero. *)

From S2P Require Import Prelude Uint256 Serialize BigNum Tx Merkle Script.
From Stdlib Require Import Strings.Byte.

(** ** Character strings *)

Inductive literal := Literal (l : list byte).
Definition literal_bytes (t : literal) : list byte := let 'Literal l := t in l.
Declare Scope literal_scope.
Delimit Scope literal_scope with lit.
String Notation literal Literal literal_bytes : literal_scope.

Definition chars (t : literal) : list Z := map (fun b => Z.of_N (Byte.to_N b)) (literal_bytes t).
Arguments chars t%_lit.

Definition pszBase58 : list Z := Eval vm_compute in chars "123456789ABCDEFGHJKLMNPQRSTUVWXYZabcdefghijkmnopqrstuvwxyz".

(** [isspace] in the C locale *)
Definition isspace (c : Z) : bool := ((c =? 32) || ((9 <=? c) && (c <=? 13)))%bool.

Fixpoint count_while (f : Z -> bool) (l : list Z) : nat :=
  match l with [] => O | c :: l' => if f c then S (count_while f l') else O end.

(** [strchr(s, c) - s] *)
Fixpoint strchr (s : list Z) (c : Z) : option nat :=
  match s with
  | [] => None
  | x :: s => if x =? c then Some O else S <$> strchr s c
  end.

Section Base58.
Context `{HD : Digests} `{BN : OpenSSL_BN}.

(** ** Encoding *)

(** [while (bn > bn0)]: the digits, least first; the quotient shrinks, so the number
    of bits is enough. *)
Fixpoint encode_loop (fuel : nat) (bn : Z) : list Z :=
  match fuel with
  | O => []
  | S fuel => if 0 <? bn then nth (Z.to_nat (u32 (getulong (bn mod 58)))) pszBase58 0 :: encode_loop fuel (bn / 58) else []
  end.

Definition EncodeBase58 (v : list Z) : list Z :=
  let bn := setvch (reverse v ++ [0]) in
  reverse (encode_loop (S (Z.to_nat (Z.log2 bn))) bn ++ replicate (count_while (fun b => b =? 0) v) (nth 0 pszBase58 0)).

(** ** Decoding *)

Fixpoint decode_loop (p : list Z) (bn : Z) : option Z :=
  match p with
  | [] => Some bn
  | c :: p' =>
      match strchr pszBase58 c with
      | None => match drop_while isspace p with [] => Some bn | _ => None end
      | Some i => decode_loop p' (bn * 58 + Z.of_nat i)
      end
  end.

(** Drop the sign byte of a positive number. *)
Definition trim_sign (v : list Z) : list Z :=
  match reverse v with
  | a :: b :: l => if ((a =? 0) && (128 <=? b))%bool then reverse (b :: l) else v
  | _ => v
  end.

Definition DecodeBase58 (psz : list Z) : option (list Z) :=
  let psz := drop_while isspace psz in
  match decode_loop psz 0 with
  | None => None
  | Some bn =>
      let nLeadingZeros := count_while (fun c => c =? nth 0 pszBase58 0) psz in
      Some (replicate nLeadingZeros 0 ++ reverse (trim_sign (getvch bn)))
  end.

(** ** With a checksum *)

Definition EncodeBase58Check (v : list Z) : list Z := EncodeBase58 (v ++ take 4 (uint_bytes (Hash v))).

(** [None] when it returns false, with the vector cleared. *)
Definition DecodeBase58Check (psz : list Z) : option (list Z) :=
  match DecodeBase58 psz with
  | None => None
  | Some v =>
      let n := (length v - 4)%nat in
      if (length v <? 4)%nat then None
      else if decide (take 4 (uint_bytes (Hash (take n v))) = drop n v) then Some (take n v) else None
  end.

(** ** Versioned data *)

Record CBase58Data := mkBase58 { b58_nVersion : Z; vchData : list Z }.

Definition SetData (nVersionIn : Z) (data : list Z) : CBase58Data := mkBase58 (u8 nVersionIn) data.

Definition SetString (psz : list Z) : bool * CBase58Data :=
  match DecodeBase58Check psz with
  | None | Some [] => (false, mkBase58 0 [])
  | Some (v :: data) => (true, mkBase58 v data)
  end.

Definition Base58_ToString (d : CBase58Data) : list Z := EncodeBase58Check (b58_nVersion d :: vchData d).

(** Comparison of vectors is lexicographic. *)
Fixpoint vch_lt (a b : list Z) : bool :=
  match a, b with
  | [], [] => false
  | [], _ => true
  | _, [] => false
  | x :: a, y :: b => if x <? y then true else if y <? x then false else vch_lt a b
  end.

Definition CompareTo (a b : CBase58Data) : Z :=
  if b58_nVersion a <? b58_nVersion b then -1
  else if b58_nVersion b <? b58_nVersion a then 1
  else if vch_lt (vchData a) (vchData b) then -1
  else if vch_lt (vchData b) (vchData a) then 1
  else 0.

(** ** Addresses *)

Definition PUBKEY_ADDRESS : Z := 50.
Definition SCRIPT_ADDRESS : Z := 110.
Definition PUBKEY_ADDRESS_TEST : Z := 111.
Definition SCRIPT_ADDRESS_TEST : Z := 196.

Context (fTestNet : bool).

(** [Set] on an address; no destination leaves it as it was. *)
Definition Address_Set (dest : CTxDestination) (a : CBase58Data) : bool * CBase58Data :=
  match dest with
  | CKeyID id => (true, SetData (if fTestNet then PUBKEY_ADDRESS_TEST else PUBKEY_ADDRESS) (uint_bytes id))
  | CScriptID id => (true, SetData (if fTestNet then SCRIPT_ADDRESS_TEST else SCRIPT_ADDRESS) (uint_bytes id))
  | CNoDestination => (false, a)
  end.

(** [CBitcoinAddress(dest)] *)
Definition CBitcoinAddress_make (dest : CTxDestination) : CBase58Data := snd (Address_Set dest (mkBase58 0 [])).

Definition Address_IsValid (a : CBase58Data) : bool :=
  match (if (b58_nVersion a =? PUBKEY_ADDRESS) || (b58_nVersion a =? SCRIPT_ADDRESS) then Some false
         else if (b58_nVersion a =? PUBKEY_ADDRESS_TEST) || (b58_nVersion a =? SCRIPT_ADDRESS_TEST) then Some true
         else None)%bool with
  | None => false
  | Some fExpectTestNet => (Bool.eqb fExpectTestNet fTestNet && (length (vchData a) =? 20)%nat)%bool
  end.

Definition is_pubkey_version (v : Z) : bool := ((v =? PUBKEY_ADDRESS) || (v =? PUBKEY_ADDRESS_TEST))%bool.
Definition is_script_version (v : Z) : bool := ((v =? SCRIPT_ADDRESS) || (v =? SCRIPT_ADDRESS_TEST))%bool.

Definition Address_Get (a : CBase58Data) : CTxDestination :=
  if negb (Address_IsValid a) then CNoDestination
  else if is_pubkey_version (b58_nVersion a) then CKeyID (words_of_bytes (take 20 (vchData a)))
  else if is_script_version (b58_nVersion a) then CScriptID (words_of_bytes (take 20 (vchData a)))
  else CNoDestination.

Definition GetKeyID (a : CBase58Data) : option uint160 :=
  if negb (Address_IsValid a) then None
  else if is_pubkey_version (b58_nVersion a) then Some (words_of_bytes (take 20 (vchData a))) else None.

Definition IsScript (a : CBase58Data) : bool := if negb (Address_IsValid a) then false else is_script_version (b58_nVersion a).

(** ** Secret keys *)

(** [None] when the assertion fails. *)
Definition SetSecret (vchSecret : list Z) (fCompressed : bool) : option CBase58Data :=
  if (length vchSecret =? 32)%nat then
    let d := SetData (128 + (if fTestNet then PUBKEY_ADDRESS_TEST else PUBKEY_ADDRESS)) vchSecret in
    Some (mkBase58 (b58_nVersion d) (if fCompressed then vchData d ++ [1] else vchData d))
  else None.

(** [None] when [vchData] is too short for the copy. *)
Definition GetSecret (d : CBase58Data) : option (list Z * bool) :=
  if (length (vchData d) <? 32)%nat then None else Some (take 32 (vchData d), (length (vchData d) =? 33)%nat).

Definition Secret_IsValid (d : CBase58Data) : bool :=
  match (if b58_nVersion d =? 128 + PUBKEY_ADDRESS then Some false
         else if b58_nVersion d =? 128 + PUBKEY_ADDRESS_TEST then Some true else None) with
  | None => false
  | Some fExpectTestNet =>
      (Bool.eqb fExpectTestNet fTestNet
       && ((length (vchData d) =? 32)%nat || ((length (vchData d) =? 33)%nat && (nth 32 (vchData d) 0 =? 1))))%bool
  end.

Definition Secret_SetString (psz : list Z) : bool * CBase58Data :=
  let '(r, d) := SetString psz in ((r && Secret_IsValid d)%bool, d).
End Base58.

(** ** Numbers without leading zeros *)

(** The value of big-endian digits, and that they have no leading zero. *)
Definition be (B : Z) (w : list Z) : Z := undigits B (reverse w).
Definition normal (w : list Z) : Prop := match w with d :: _ => d <> 0 | [] => True end.

(** A list is its leading [x]s and the rest. *)
Lemma split_leading (x : Z) (l : list Z) : exists w, l = replicate (count_while (fun c => c =? x) l) x ++ w /\
  match w with c :: _ => c <> x | [] => True end.
Proof.
  induction l as [|c l (w & E & H)]; cbn [count_while]; [by exists []|]. destruct (Z.eqb_spec c x) as [->|Hne]; [|by exists (c :: l)].
  exists w. cbn [replicate app]. by rewrite <- E.
Qed.

Section Normal.
Context (B : Z) (HB : 1 < B).

Lemma be_cons d w : be B (d :: w) = be B w + B ^ Z.of_nat (length w) * d.
Proof. unfold be. rewrite reverse_cons, undigits_app, length_reverse by lia. cbn. lia. Qed.

Lemma be_bound w : digits_ok B w -> 0 <= be B w < B ^ Z.of_nat (length w).
Proof. intros H. unfold be. rewrite <- length_reverse. apply undigits_bound; [lia|]. by apply digits_ok_rev. Qed.

Lemma be_zeros z w : be B (replicate z 0 ++ w) = be B w.
Proof. induction z as [|z IH]; [done|]. cbn [replicate app]. rewrite be_cons, IH. lia. Qed.

(** A number has at least the size its first digit says. *)
Lemma be_lower d w : digits_ok B (d :: w) -> d <> 0 -> B ^ Z.of_nat (length w) <= be B (d :: w).
Proof.
  intros [Hd Hw]%Forall_cons Hne. rewrite be_cons. pose proof (be_bound w Hw).
  assert (0 < B ^ Z.of_nat (length w)) by (apply Z.pow_pos_nonneg; lia). nia.
Qed.

Lemma normal_length w1 w2 : digits_ok B w1 -> digits_ok B w2 -> normal w1 -> normal w2 -> be B w1 = be B w2 -> (length w1 <= length w2)%nat.
Proof.
  intros H1 H2 N1 _ E. destruct w1 as [|d w1]; [cbn; lia|]. pose proof (be_lower d w1 H1 N1). pose proof (be_bound w2 H2).
  assert (Z.of_nat (length w1) < Z.of_nat (length w2)); [|cbn; lia]. apply (Z.pow_lt_mono_r_iff B); lia.
Qed.

Lemma normal_inj w1 w2 : digits_ok B w1 -> digits_ok B w2 -> normal w1 -> normal w2 -> be B w1 = be B w2 -> w1 = w2.
Proof.
  intros H1 H2 N1 N2 E. apply (inj reverse). apply (undigits_inj B ltac:(lia)); [by apply digits_ok_rev..| |done].
  rewrite !length_reverse. apply Nat.le_antisymm; apply normal_length; done.
Qed.

Lemma normal_exists n : 0 <= n -> exists w, digits_ok B w /\ normal w /\ be B w = n.
Proof.
  intros Hn. set (k := S (Z.to_nat (Z.log2 n))). set (l := reverse (digits B k n)).
  destruct (split_leading 0 l) as (w & E & Hw). exists w.
  assert (be B l = n) as Hl.
  { unfold be, l. rewrite reverse_involutive, undigits_digits by lia. apply Z.mod_small. split; [done|].
    assert (n < 2 ^ Z.of_nat k) as Hk.
    { unfold k. rewrite Nat2Z.inj_succ, Z2Nat.id by apply Z.log2_nonneg. destruct (decide (n = 0)) as [->|]; [done|]. apply Z.log2_spec. lia. }
    assert (2 ^ Z.of_nat k <= B ^ Z.of_nat k); [|lia]. apply Z.pow_le_mono_l. lia. }
  assert (digits_ok B l) as Hok by (apply digits_ok_rev, digits_are_ok; lia).
  conjs; [|done|].
  - rewrite E in Hok. by apply digits_ok_app in Hok as [_ ?].
  - by rewrite <- Hl, E, be_zeros.
Qed.
End Normal.

Lemma count_leading (x : Z) z w : match w with c :: _ => c <> x | [] => True end -> count_while (fun c => c =? x) (replicate z x ++ w) = z.
Proof.
  intros H. induction z as [|z IH]; cbn [replicate app count_while]; [|by rewrite Z.eqb_refl, IH].
  destruct w as [|c w]; [done|]. cbn. by destruct (Z.eqb_spec c x).
Qed.

(** ** The alphabet *)

Definition chr (d : Z) : Z := nth (Z.to_nat d) pszBase58 0.

Lemma strchr_some s c i : strchr s c = Some i -> nth i s 0 = c /\ (i < length s)%nat.
Proof.
  revert i. induction s as [|x s IH]; intros i; cbn [strchr]; [done|]. destruct (Z.eqb_spec x c) as [->|]; [intros [= <-]; cbn; lia|].
  destruct (strchr s c); [|done]. intros [= <-]. cbn. destruct (IH _ eq_refl). split; [done|lia].
Qed.

Lemma strchr_chr d : 0 <= d < 58 -> strchr pszBase58 (chr d) = Some (Z.to_nat d) /\ isspace (chr d) = false.
Proof.
  intros Hd. assert (forallb (fun i => bool_decide (strchr pszBase58 (nth i pszBase58 0) = Some i) && negb (isspace (nth i pszBase58 0)))%bool (seq 0 58) = true)
    as H by (vm_compute; reflexivity).
  rewrite forallb_forall in H. specialize (H (Z.to_nat d) ltac:(apply in_seq; lia)). bprop. done.
Qed.

Lemma chr_inj d e : 0 <= d < 58 -> 0 <= e < 58 -> chr d = chr e -> d = e.
Proof.
  intros Hd He E. destruct (strchr_chr d Hd) as [Ed _], (strchr_chr e He) as [Ee _]. rewrite E, Ee in Ed. injection Ed. lia.
Qed.

(** ** Encoding and decoding *)

Section Codec.
Context `{BN : OpenSSL_BN} {BN_ok : OpenSSL_BN_ok}.

Lemma encode_loop_spec fuel : forall bn, 0 <= bn < 2 ^ Z.of_nat fuel -> exists w, digits_ok 58 w /\ normal w /\ be 58 w = bn /\
  encode_loop fuel bn = reverse (map chr w).
Proof.
  induction fuel as [|fuel IH]; intros bn Hbn; cbn [encode_loop].
  { exists []. conjs; [constructor|done|cbn in *; lia|done]. }
  destruct (Z.ltb_spec 0 bn); [|exists []; conjs; [constructor|done|cbn; lia|done]].
  pose proof (Z.mod_pos_bound bn 58 ltac:(lia)). pose proof (Z_div_mod_eq_full bn 58).
  destruct (IH (bn / 58)) as (w & Hw & Hn & Hv & E).
  { split; [apply Z.div_pos; lia|]. apply Z.div_lt_upper_bound; [lia|]. rewrite Nat2Z.inj_succ, Z.pow_succ_r in Hbn by lia. lia. }
  exists (w ++ [bn mod 58]). conjs.
  - apply digits_ok_app. split; [done|]. by apply digits_ok_one.
  - destruct w as [|d w]; [|done]. cbn in Hv |- *. lia.
  - unfold be in *. rewrite reverse_app. cbn [reverse rev_append app undigits]. rewrite Hv. lia.
  - rewrite E, map_app, reverse_app. cbn [map reverse rev_append app]. f_equal. unfold getulong. rewrite BN_get_word_spec, Z.abs_eq by lia.
    rewrite (proj2 (Z.ltb_lt (bn mod 58) (2 ^ 64))), u32_small by lia. done.
Qed.

Lemma setvch_positive v : bytes_ok v -> Z.of_nat (length v) < 2 ^ 30 -> setvch (reverse v ++ [0]) = be 256 v.
Proof.
  intros Hv Hl. rewrite setvch_val.
  - rewrite reverse_app, reverse_involutive. cbn [reverse rev_append app]. rewrite mpi_val_cons by (done || lia). cbn. unfold be. lia.
  - apply digits_ok_app. split; [by apply digits_ok_rev|by apply digits_ok_one].
  - rewrite length_app, length_reverse. cbn. lia.
Qed.

Lemma EncodeBase58_spec v : bytes_ok v -> Z.of_nat (length v) < 2 ^ 30 -> exists w, digits_ok 58 w /\ normal w /\ be 58 w = be 256 v /\
  EncodeBase58 v = replicate (count_while (fun b => b =? 0) v) (chr 0) ++ map chr w.
Proof.
  intros Hv Hl. unfold EncodeBase58. rewrite setvch_positive by done. pose proof (be_bound 256 ltac:(lia) v Hv) as Hb.
  destruct (encode_loop_spec (S (Z.to_nat (Z.log2 (be 256 v)))) (be 256 v)) as (w & Hw & Hn & Hval & E).
  { split; [lia|]. rewrite Nat2Z.inj_succ, Z2Nat.id by apply Z.log2_nonneg. destruct (decide (be 256 v = 0)) as [->|]; [done|].
    apply Z.log2_spec. lia. }
  exists w. conjs; [done..|]. rewrite E, reverse_app, reverse_involutive, reverse_replicate. done.
Qed.

Lemma decode_loop_digits w : forall bn, digits_ok 58 w -> decode_loop (map chr w) bn = Some (bn * 58 ^ Z.of_nat (length w) + be 58 w).
Proof.
  induction w as [|d w IH]; intros bn H; cbn [map decode_loop length]; [cbn; f_equal; lia|]. apply Forall_cons in H as [Hd Hw].
  destruct (strchr_chr d Hd) as [-> _]. rewrite Z2Nat.id, IH, be_cons, Nat2Z.inj_succ, Z.pow_succ_r by (done || lia). f_equal. lia.
Qed.

(** The bytes of a positive number after the sign byte is dropped. *)
Lemma trim_getvch w : bytes_ok w -> normal w -> Z.of_nat (length w) < 2 ^ 27 -> trim_sign (getvch (be 256 w)) = reverse w.
Proof.
  intros Hw Hn Hl. destruct w as [|c w]; [unfold be; cbn; rewrite getvch_body by done; done|]. cbn [normal] in Hn. pose proof (be_bound 256 ltac:(lia) _ Hw) as Hb.
  pose proof (be_lower 256 ltac:(lia) c w Hw Hn) as Hlo. apply Forall_cons in Hw as Hcw. destruct Hcw as [Hc Hw'].
  assert (0 < 256 ^ Z.of_nat (length w)) as Hpos by (apply Z.pow_pos_nonneg; lia).
  assert (Z.log2 (Z.abs (be 256 (c :: w))) < 2 ^ 30) as Hlog.
  { rewrite Z.abs_eq by lia. assert (Z.log2 (be 256 (c :: w)) < 8 * Z.of_nat (length (c :: w))); [|lia].
    apply Z.log2_lt_pow2; [lia|]. rewrite Z.pow_mul_r by lia. apply Hb. }
  assert (mpi_val (c :: w) = be 256 (c :: w) /\ c < 128 \/ mpi_val (0 :: c :: w) = be 256 (c :: w) /\ 128 <= c) as HV.
  { rewrite (mpi_val_cons 0) by (done || lia). rewrite (mpi_val_cons c) by done. rewrite be_cons by lia. unfold be. cbv zeta. rewrite be_val_cons.
    destruct (Z.ltb_spec c 128); [left|right]; cbn [Z.ltb Z.compare]; lia. }
  rewrite getvch_body by done. pose proof (half_pow (length w)) as Hh. rewrite be_cons in Hb, Hlo, HV by lia. pose proof (be_bound 256 ltac:(lia) w Hw') as Hbw.
  destruct HV as [[HV H128]|[HV H128]].
  - rewrite be_cons, <- HV, mpi_body_unique; [|done|lia|].
    + unfold trim_sign. rewrite reverse_involutive. destruct w as [|b w]; [done|]. destruct (Z.eqb_spec c 0); [lia|done].
    + apply (mpi_len_unique _ (length w)); [lia|]. rewrite HV, Z.abs_eq, Hh by lia. split; [|nia]. destruct w as [|b w]; [cbn; lia|].
      cbn [length] in *. rewrite half_pow. rewrite Nat2Z.inj_succ, Z.pow_succ_r in * by lia. nia.
  - rewrite be_cons, <- HV, mpi_body_unique; [|by constructor; [lia|]|lia|].
    + unfold trim_sign. rewrite reverse_involutive. cbn [andb Z.eqb]. by rewrite (proj2 (Z.leb_le 128 c)).
    + apply (mpi_len_unique _ (S (length w))); [lia|]. rewrite HV, Z.abs_eq by lia. rewrite !half_pow, Nat2Z.inj_succ, Z.pow_succ_r by lia. nia.
Qed.

Lemma drop_space w : digits_ok 58 w -> drop_while isspace (map chr w) = map chr w.
Proof. intros H. destruct w as [|d w]; [done|]. apply Forall_cons in H as [Hd _]. cbn [map drop_while]. by destruct (strchr_chr d Hd) as [_ ->]. Qed.

(** A number has no more bytes than it has digits. *)
Lemma fewer_bytes v w : bytes_ok v -> normal v -> digits_ok 58 w -> be 256 v = be 58 w -> (length v <= length w)%nat.
Proof.
  intros Hv Hn Hw E. destruct v as [|c v]; [cbn; lia|]. pose proof (be_lower 256 ltac:(lia) c v Hv Hn) as H1. pose proof (be_bound 58 ltac:(lia) w Hw) as H2.
  assert (58 ^ Z.of_nat (length w) <= 256 ^ Z.of_nat (length w)) by (apply Z.pow_le_mono_l; lia).
  assert (Z.of_nat (length v) < Z.of_nat (length w)); [|cbn; lia]. apply (Z.pow_lt_mono_r_iff 256); lia.
Qed.

Lemma DecodeBase58_spec z w : digits_ok 58 w -> normal w -> Z.of_nat (length w) < 2 ^ 27 -> exists v, bytes_ok v /\ normal v /\ be 256 v = be 58 w /\
  (length v <= length w)%nat /\ DecodeBase58 (replicate z (chr 0) ++ map chr w) = Some (replicate z 0 ++ v).
Proof.
  intros Hw Hn Hl. destruct (normal_exists 256 ltac:(lia) (be 58 w)) as (v & Hv & Hvn & Hval); [apply be_bound; [lia|done]|].
  pose proof (fewer_bytes v w Hv Hvn Hw Hval). exists v. conjs; [done..|].
  assert (replicate z (chr 0) ++ map chr w = map chr (replicate z 0 ++ w)) as E by (rewrite map_app; f_equal; symmetry; apply (fmap_replicate chr)).
  assert (digits_ok 58 (replicate z 0 ++ w)) as Hd by (apply digits_ok_app; split; [apply Forall_replicate; lia|done]).
  unfold DecodeBase58. rewrite E, drop_space, decode_loop_digits by done. f_equal. f_equal.
  - rewrite <- E. f_equal. apply (count_leading (chr 0)). destruct w as [|d w]; [done|]. apply Forall_cons in Hw as [Hd' _]. cbn [normal] in Hn. cbn [map].
    intros Ec. apply Hn. apply (chr_inj d 0); [done|lia|done].
  - rewrite be_zeros, <- Hval, Z.mul_0_l, Z.add_0_l, trim_getvch, reverse_involutive by (done || lia). done.
Qed.

(** Two digits hold more than a byte. *)
Lemma digits58_length v w : bytes_ok v -> digits_ok 58 w -> normal w -> be 58 w = be 256 v -> (length w <= 2 * length v)%nat.
Proof.
  intros Hv Hw Hn E. destruct w as [|d w]; [cbn; lia|]. pose proof (be_lower 58 ltac:(lia) d w Hw Hn) as H1. pose proof (be_bound 256 ltac:(lia) v Hv) as H2.
  assert (256 ^ Z.of_nat (length v) <= 58 ^ (2 * Z.of_nat (length v))) by (rewrite Z.pow_mul_r by lia; apply Z.pow_le_mono_l; lia).
  assert (Z.of_nat (length w) < 2 * Z.of_nat (length v)); [|cbn; lia]. apply (Z.pow_lt_mono_r_iff 58); lia.
Qed.

Lemma base58_decode_encode v : bytes_ok v -> Z.of_nat (length v) < 2 ^ 26 -> DecodeBase58 (EncodeBase58 v) = Some v.
Proof.
  intros Hv Hl. destruct (EncodeBase58_spec v Hv ltac:(lia)) as (w & Hw & Hn & Hval & ->). destruct (split_leading 0 v) as (u & E & Hu).
  assert (bytes_ok u /\ be 256 u = be 256 v) as [Huo Hub].
  { split; [rewrite E in Hv; by apply digits_ok_app in Hv as [_ ?]|]. rewrite E at 1. by rewrite be_zeros by lia. }
  destruct (DecodeBase58_spec (count_while (fun b => b =? 0) v) w Hw Hn) as (u' & Hu'o & Hu'n & Hu'b & _ & ->).
  { pose proof (digits58_length v w Hv Hw Hn Hval). lia. }
  f_equal. rewrite E at 2. f_equal. apply (normal_inj 256 ltac:(lia)); [done..|]. congruence.
Qed.

(** A string over the alphabet is its leading ones and the digits of a number. *)
Lemma alphabet_string s : Forall (fun c => is_Some (strchr pszBase58 c)) s -> exists z w, s = replicate z (chr 0) ++ map chr w /\ digits_ok 58 w /\ normal w.
Proof.
  intros H. assert (exists l, s = map chr l /\ digits_ok 58 l) as (l & -> & Hl).
  { induction H as [|c s [i Hi] _ (l & -> & Hl)]; [exists []; by split; [|constructor]|]. apply strchr_some in Hi as [<- Hi].
    exists (Z.of_nat i :: l). split; [cbn [map]; unfold chr at 2; by rewrite Nat2Z.id|]. constructor; [|done]. change (length pszBase58) with 58%nat in Hi. lia. }
  destruct (split_leading 0 l) as (w & E & Hw). exists (count_while (fun c => c =? 0) l), w. conjs; [|rewrite E in Hl; by apply digits_ok_app in Hl as [_ ?]|done].
  rewrite E at 1. rewrite map_app. f_equal. apply (fmap_replicate chr).
Qed.

Lemma base58_encode_decode s : Forall (fun c => is_Some (strchr pszBase58 c)) s -> Z.of_nat (length s) < 2 ^ 26 ->
  exists v, DecodeBase58 s = Some v /\ bytes_ok v /\ EncodeBase58 v = s.
Proof.
  intros H Hl. destruct (alphabet_string s H) as (z & w & -> & Hw & Hn). rewrite length_app, length_replicate, length_map in Hl.
  destruct (DecodeBase58_spec z w Hw Hn ltac:(lia)) as (v & Hv & Hvn & Hval & Hlen & ->). exists (replicate z 0 ++ v).
  assert (bytes_ok (replicate z 0 ++ v)) as Hb by (apply digits_ok_app; split; [apply Forall_replicate; lia|done]).
  conjs; [done..|]. destruct (EncodeBase58_spec (replicate z 0 ++ v) Hb) as (w' & Hw' & Hn' & Hval' & ->).
  { rewrite length_app, length_replicate. lia. }
  rewrite (count_leading 0) by done. f_equal. f_equal. apply (normal_inj 58 ltac:(lia)); [done..|]. rewrite Hval', be_zeros by lia. done.
Qed.
End Codec.

(** ** Checksums, addresses and secrets *)

Section Strings.
Context `{HD : Digests} {HDok : Digests_ok} `{BN : OpenSSL_BN} {BN_ok : OpenSSL_BN_ok}.

Lemma length_check v : length (take 4 (uint_bytes (Hash v))) = 4%nat.
Proof. rewrite length_take, length_uint_bytes. destruct (Hash_ok v) as [-> _]. done. Qed.

Lemma base58check_roundtrip v : bytes_ok v -> Z.of_nat (length v) < 2 ^ 25 -> DecodeBase58Check (EncodeBase58Check v) = Some v.
Proof.
  intros Hv Hl. unfold DecodeBase58Check, EncodeBase58Check. rewrite base58_decode_encode.
  - rewrite length_app, length_check. replace (length v + 4 - 4)%nat with (length v) by lia.
    destruct (Nat.ltb_spec (length v + 4) 4); [lia|]. rewrite take_app_exact, drop_app_exact by done. by rewrite decide_True.
  - apply digits_ok_app. split; [done|]. apply Forall_take, uint_bytes_ok.
  - rewrite length_app, length_check. lia.
Qed.

Lemma SetString_ToString d : is_byte (b58_nVersion d) -> bytes_ok (vchData d) -> Z.of_nat (length (vchData d)) < 2 ^ 24 ->
  SetString (Base58_ToString d) = (true, d).
Proof.
  intros Hv Hd Hl. unfold SetString, Base58_ToString. rewrite base58check_roundtrip; [by destruct d|by constructor|cbn; lia].
Qed.

Lemma uint160_bytes id : uint_ok 5 id -> length (uint_bytes id) = 20%nat /\ words_of_bytes (take 20 (uint_bytes id)) = id.
Proof.
  intros [Hl Hd]. assert (length (uint_bytes id) = 20%nat) as E by (rewrite length_uint_bytes, Hl; done).
  split; [done|]. rewrite take_ge by lia. by apply words_of_uint_bytes.
Qed.

Lemma bytes20_words l : length l = 20%nat -> bytes_ok l -> uint_bytes (words_of_bytes (take 20 l)) = l.
Proof.
  intros Hl Hb. rewrite take_ge by lia. destruct (uval_words_of_bytes 5 l Hl Hb) as [Hok _].
  apply (words_of_bytes_inj 5); [by rewrite length_uint_bytes; destruct Hok as [-> _]|done|apply uint_bytes_ok|done|].
  apply words_of_uint_bytes, Hok.
Qed.

Lemma secret_roundtrip fTestNet fCompressed key : bytes_ok key -> length key = 32%nat ->
  exists d, SetSecret fTestNet key fCompressed = Some d /\ Secret_SetString fTestNet (Base58_ToString d) = (true, d) /\
    GetSecret d = Some (key, fCompressed).
Proof.
  intros Hk Hl. unfold SetSecret. rewrite Hl. cbn [Nat.eqb]. set (data := if fCompressed then key ++ [1] else key).
  assert (bytes_ok data) as Hd by (unfold data; destruct fCompressed; [|done]; apply digits_ok_app; split; [done|by apply digits_ok_one]).
  assert (length data = (if fCompressed then 33 else 32)%nat) as Hld by (unfold data; destruct fCompressed; [rewrite length_app|]; cbn; lia).
  assert (fCompressed = true -> nth 32 data 0 = 1) as Hn by (intros ->; unfold data; by rewrite app_nth2, Hl by lia).
  eexists. split; [reflexivity|]. cbn [SetData vchData]. fold data. split.
  - unfold Secret_SetString. rewrite SetString_ToString; cbn [b58_nVersion vchData]; [|destruct fTestNet; vm_compute; split; congruence|done|rewrite Hld; destruct fCompressed; lia].
    f_equal. unfold Secret_IsValid. cbn [b58_nVersion vchData]. rewrite Hld. destruct fTestNet, fCompressed; cbn -[nth]; rewrite ?Hn by done; done.
  - unfold GetSecret. cbn [vchData]. rewrite Hld. unfold data. destruct fCompressed; cbn [Nat.ltb Nat.leb Nat.eqb]; [by rewrite take_app_exact|by rewrite take_ge by lia].
Qed.
End Strings.

(** ** Theorems *)

(** C28: Base58 is a bijection between byte vectors and strings over its alphabet:
    decoding gives back what was encoded, leading zeros and the empty vector
    included, and every string over the alphabet is the encoding of its decoding. *)
Theorem base58_bijection `{BN : OpenSSL_BN} {BN_ok : OpenSSL_BN_ok} (v s : list Z) :
  bytes_ok v -> Forall (fun c => is_Some (strchr pszBase58 c)) s -> Z.of_nat (length v) < 2 ^ 26 -> Z.of_nat (length s) < 2 ^ 26 ->
  DecodeBase58 (EncodeBase58 v) = Some v /\ exists u, DecodeBase58 s = Some u /\ bytes_ok u /\ EncodeBase58 u = s.
Proof. intros. split; [by apply base58_decode_encode|by apply base58_encode_decode]. Qed.

(** The address of a key or script hash, written as a string and read back, is
    valid on its network and not on the other, and names the same hash; every valid
    address is the address of what it names; and a secret key written and read
    back is the same key with the same mark of compression. *)
Theorem address_roundtrip `{HD : Digests} {HDok : Digests_ok} `{BN : OpenSSL_BN} {BN_ok : OpenSSL_BN_ok} (fTestNet fCompressed : bool)
    (id : uint160) (a : CBase58Data) (key : list Z) :
  uint_ok 5 id -> bytes_ok (vchData a) -> bytes_ok key -> length key = 32%nat ->
  (forall dest, dest = CKeyID id \/ dest = CScriptID id ->
     SetString (Base58_ToString (CBitcoinAddress_make fTestNet dest)) = (true, CBitcoinAddress_make fTestNet dest) /\
     Address_IsValid fTestNet (CBitcoinAddress_make fTestNet dest) = true /\
     Address_IsValid (negb fTestNet) (CBitcoinAddress_make fTestNet dest) = false /\
     Address_Get fTestNet (CBitcoinAddress_make fTestNet dest) = dest) /\
  (Address_IsValid fTestNet a = true -> CBitcoinAddress_make fTestNet (Address_Get fTestNet a) = a) /\
  exists d, SetSecret fTestNet key fCompressed = Some d /\ Secret_SetString fTestNet (Base58_ToString d) = (true, d) /\
    GetSecret d = Some (key, fCompressed).
Proof.
  intros Hid Ha Hk Hlen. destruct (uint160_bytes id Hid) as [Hl Hw]. pose proof (uint_bytes_ok id) as Hub. conjs.
  - intros dest Hd.
    assert (Address_IsValid fTestNet (CBitcoinAddress_make fTestNet dest) = true /\ Address_IsValid (negb fTestNet) (CBitcoinAddress_make fTestNet dest) = false /\
      Address_Get fTestNet (CBitcoinAddress_make fTestNet dest) = dest) as HV.
    { destruct Hd as [-> | ->], fTestNet; unfold Address_Get, Address_IsValid; cbn [CBitcoinAddress_make Address_Set snd SetData b58_nVersion vchData];
        rewrite Hl; cbn -[take words_of_bytes uint_bytes]; rewrite Hw; done. }
    split; [|exact HV]. apply SetString_ToString; destruct Hd as [-> | ->], fTestNet; cbn -[uint_bytes]; rewrite ?Hl; done || lia.
  - unfold Address_Get. intros HV. rewrite HV. unfold Address_IsValid in HV. cbn [negb]. destruct a as [v data]. cbn [b58_nVersion vchData] in *.
    unfold is_pubkey_version, is_script_version, PUBKEY_ADDRESS, SCRIPT_ADDRESS, PUBKEY_ADDRESS_TEST, SCRIPT_ADDRESS_TEST in *.
    destruct (Z.eqb_spec v 50) as [->|]; [|destruct (Z.eqb_spec v 110) as [->|]; [|destruct (Z.eqb_spec v 111) as [->|]; [|destruct (Z.eqb_spec v 196) as [->|]; [|done]]]];
      cbn [orb Z.eqb Pos.eqb] in *; bprop; destruct fTestNet; try done; unfold CBitcoinAddress_make; cbn [Address_Set snd];
      rewrite bytes20_words by done; reflexivity.
  - by apply secret_roundtrip.
Qed.

(** ** Examples *)

(** The vectors of the unit tests (test/data/base58_encode_decode.json). *)
Example encode_string :
  @EncodeBase58 reference_BN (chars "simply a long string") = chars "2cFupjhnEsSn59qHXstmK2ffpLv2".
Proof. vm_compute. reflexivity. Qed.
Example encode_zeros : @EncodeBase58 reference_BN (replicate 10 0) = chars "1111111111".
Proof. vm_compute. reflexivity. Qed.
Example decode_bytes : @DecodeBase58 reference_BN (chars "3SEo3LWLoPntC") = Some [0xbf; 0x4f; 0x89; 0x00; 0x1e; 0x67; 0x02; 0x74; 0xdd].
Proof. vm_compute. reflexivity. Qed.

Lemma base58_bijection_witness : exists u, @DecodeBase58 reference_BN (chars "1NS17iag9jJgTHD1VXjvLCEnZuQ3rJDE9L") = Some u /\ bytes_ok u /\
  @EncodeBase58 reference_BN u = chars "1NS17iag9jJgTHD1VXjvLCEnZuQ3rJDE9L".
Proof.
  apply (@base58_bijection reference_BN reference_BN_ok [0; 1]).
  - repeat constructor; lia.
  - apply (bool_decide_unpack _). vm_compute. exact I.
  - cbn. lia.
  - cbn. lia.
Defined.

Lemma address_roundtrip_witness :
  @SetString toy_digests reference_BN (@Base58_ToString toy_digests reference_BN (CBitcoinAddress_make false (CKeyID [1; 2; 3; 4; 5]))) =
    (true, CBitcoinAddress_make false (CKeyID [1; 2; 3; 4; 5])).
Proof.
  apply (@address_roundtrip toy_digests toy_digests_ok reference_BN reference_BN_ok false true [1; 2; 3; 4; 5] (mkBase58 0 []) (replicate 32 7)).
  - split; [reflexivity|repeat constructor; lia].
  - constructor.
  - apply Forall_replicate. lia.
  - reflexivity.
  - left. reflexivity.
Defined.
