(* ===== verification/Containers.v ===== *)
(** * Bounded containers (mruset.h, limitedmap.h)

    [mruset], a set that keeps its most recent elements, and [limitedmap], a map
    that keeps a bounded number of entries by evicting the one with the least
    value.  The second index of [limitedmap] is a multimap from values to iterators;
    here a list of values and keys in the order of the multimap. *)

From S2P Require Import Prelude.
From Stdlib Require Import Sorted.

(** ** mruset *)

Section Mruset.
Context {T : Type} `{Countable T}.

Record mruset := mkMru { mru_set : gset T; mru_queue : list T; mru_nMaxSize : nat }.

Definition mruset_make (nMaxSizeIn : nat) : mruset := mkMru ∅ [] nMaxSizeIn.
Definition mru_size (m : mruset) : nat := size (mru_set m).
Definition mru_count (m : mruset) (k : T) : bool := bool_decide (k ∈ mru_set m).

(** [set.erase(queue.front()); queue.pop_front();] *)
Definition mru_pop (m : mruset) : mruset :=
  match mru_queue m with
  | [] => m
  | x :: q => mkMru (mru_set m ∖ {[x]}) q (mru_nMaxSize m)
  end.

(** Whether the element is new, and the set. *)
Definition mru_insert (x : T) (m : mruset) : bool * mruset :=
  if bool_decide (x ∈ mru_set m) then (false, m)
  else
    let m := mkMru ({[x]} ∪ mru_set m) (mru_queue m) (mru_nMaxSize m) in
    let m := if (negb (mru_nMaxSize m =? 0) && (length (mru_queue m) =? mru_nMaxSize m))%nat%bool then mru_pop m else m in
    (true, mkMru (mru_set m) (mru_queue m ++ [x]) (mru_nMaxSize m)).

(** [while (queue.size() > s)] *)
Fixpoint mru_shrink (fuel s : nat) (m : mruset) : mruset :=
  match fuel with
  | O => m
  | S fuel => if (s <? length (mru_queue m))%nat then mru_shrink fuel s (mru_pop m) else m
  end.

Definition mru_max_size (s : nat) (m : mruset) : mruset :=
  let m := if (s =? 0)%nat then m else mru_shrink (length (mru_queue m)) s m in
  mkMru (mru_set m) (mru_queue m) s.
End Mruset.
Arguments mruset T {_ _}.

(** ** limitedmap *)

Section Limitedmap.
Context {K : Type} `{Countable K}.

Record limitedmap := mkLimited { lm_map : gmap K Z; lm_rmap : list (Z * K); lm_nMaxSize : nat }.

Definition limitedmap_make (nMaxSizeIn : nat) : limitedmap := mkLimited ∅ [] nMaxSizeIn.
Definition lm_size (m : limitedmap) : nat := size (lm_map m).

(** [rmap.insert]: after the entries with the same value. *)
Fixpoint rmap_insert (v : Z) (k : K) (l : list (Z * K)) : list (Z * K) :=
  match l with
  | [] => [(v, k)]
  | (w, j) :: l' => if v <? w then (v, k) :: l else (w, j) :: rmap_insert v k l'
  end.

(** [map.erase(rmap.begin()->second); rmap.erase(rmap.begin());], [None] when [rmap]
    is empty and its end is dereferenced. *)
Definition lm_evict (m : limitedmap) : option limitedmap :=
  match lm_rmap m with
  | [] => None
  | (_, k) :: l => Some (mkLimited (delete k (lm_map m)) l (lm_nMaxSize m))
  end.

Definition lm_insert (k : K) (v : Z) (m : limitedmap) : option limitedmap :=
  match lm_map m !! k with
  | Some _ => Some m
  | None =>
      let m := mkLimited (<[k := v]> (lm_map m)) (lm_rmap m) (lm_nMaxSize m) in
      match (if (negb (lm_nMaxSize m =? 0) && (size (lm_map m) =? lm_nMaxSize m))%nat%bool then lm_evict m else Some m) with
      | None => None
      | Some m => Some (mkLimited (lm_map m) (rmap_insert v k (lm_rmap m)) (lm_nMaxSize m))
      end
  end.

(** The entry for the key among those with the value; [None] when there is none
    and the assertion fails. *)
Fixpoint rmap_erase (v : Z) (k : K) (l : list (Z * K)) : option (list (Z * K)) :=
  match l with
  | [] => None
  | (w, j) :: l' =>
      if ((w =? v) && bool_decide (j = k))%bool then Some l' else cons (w, j) <$> rmap_erase v k l'
  end.

Definition lm_erase (k : K) (m : limitedmap) : option limitedmap :=
  match lm_map m !! k with
  | None => Some m
  | Some v => (fun l => mkLimited (delete k (lm_map m)) l (lm_nMaxSize m)) <$> rmap_erase v k (lm_rmap m)
  end.

(** [update] through an iterator of the key *)
Definition lm_update (k : K) (v : Z) (m : limitedmap) : option limitedmap :=
  match lm_map m !! k with
  | None => Some m
  | Some w =>
      (fun l => mkLimited (<[k := v]> (lm_map m)) (rmap_insert v k l) (lm_nMaxSize m)) <$> rmap_erase w k (lm_rmap m)
  end.

Fixpoint lm_shrink (fuel s : nat) (m : limitedmap) : option limitedmap :=
  match fuel with
  | O => Some m
  | S fuel =>
      if (s <? size (lm_map m))%nat then match lm_evict m with None => None | Some m => lm_shrink fuel s m end
      else Some m
  end.

Definition lm_max_size (s : nat) (m : limitedmap) : option limitedmap :=
  match (if (s =? 0)%nat then Some m else lm_shrink (size (lm_map m)) s m) with
  | None => None
  | Some m => Some (mkLimited (lm_map m) (lm_rmap m) s)
  end.
End Limitedmap.
Arguments limitedmap K {_ _}.

(** ** mruset is a window *)

Section Window.
Context {T : Type} `{Countable T}.

(** What the set promises: the elements in the order they came, the oldest dropped
    when there are more than the limit. *)
Definition window (N : nat) (q : list T) : list T := if (N =? 0)%nat then q else drop (length q - N) q.

Inductive mru_op := MruInsert (x : T) | MruMaxSize (s : nat).

Definition window_step (w : nat * list T) (o : mru_op) : nat * list T :=
  match o with
  | MruInsert x => if bool_decide (x ∈ snd w) then w else (fst w, window (fst w) (snd w ++ [x]))
  | MruMaxSize s => (s, window s (snd w))
  end.
Definition mru_step (m : mruset T) (o : mru_op) : mruset T :=
  match o with MruInsert x => snd (mru_insert x m) | MruMaxSize s => mru_max_size s m end.

Record mru_ok (m : mruset T) (w : nat * list T) : Prop := {
  mo_max : mru_nMaxSize m = fst w;
  mo_queue : mru_queue m = snd w;
  mo_set : mru_set m = list_to_set (snd w);
  mo_once : NoDup (snd w);
  mo_bound : fst w <> 0%nat -> (length (snd w) <= fst w)%nat;
}.

Lemma mru_pop_set (m : mruset T) x q : mru_queue m = x :: q -> mru_set m = list_to_set (x :: q) -> NoDup (x :: q) ->
  mru_set (mru_pop m) = list_to_set q.
Proof. intros E Hs [Hni _]%NoDup_cons. unfold mru_pop. rewrite E. cbn. rewrite Hs. set_solver. Qed.

Lemma mru_shrink_spec s fuel : forall (m : mruset T), (length (mru_queue m) <= fuel)%nat -> mru_set m = list_to_set (mru_queue m) -> NoDup (mru_queue m) ->
  mru_queue (mru_shrink fuel s m) = drop (length (mru_queue m) - s) (mru_queue m) /\
  mru_set (mru_shrink fuel s m) = list_to_set (drop (length (mru_queue m) - s) (mru_queue m)).
Proof.
  induction fuel as [|fuel IH]; intros m Hf Hs Hn; cbn [mru_shrink].
  { replace (length (mru_queue m) - s)%nat with O by lia. done. }
  destruct (Nat.ltb_spec s (length (mru_queue m))) as [Hlt|Hge]; [|by replace (length (mru_queue m) - s)%nat with O by lia].
  destruct (mru_queue m) as [|x q] eqn:E; [cbn in Hlt; lia|]. cbn [length] in *.
  assert (mru_queue (mru_pop m) = q) as Eq by (unfold mru_pop; by rewrite E).
  destruct (IH (mru_pop m)) as [H1 H2].
  - rewrite Eq. lia.
  - rewrite Eq. eapply mru_pop_set; done.
  - rewrite Eq. by apply NoDup_cons in Hn as [_ ?].
  - rewrite H1, H2, Eq. replace (S (length q) - s)%nat with (S (length q - s)) by lia. done.
Qed.

Lemma window_ok N q : NoDup q -> NoDup (window N q) /\ (N <> 0%nat -> (length (window N q) <= N)%nat).
Proof.
  intros Hn. unfold window. destruct (Nat.eqb_spec N 0); [done|]. split; [eapply sublist_NoDup; [done|apply sublist_drop]|].
  intros _. rewrite length_drop. lia.
Qed.

Lemma mru_insert_ok (m : mruset T) w x : mru_ok m w -> mru_ok (mru_step m (MruInsert x)) (window_step w (MruInsert x)).
Proof.
  intros [H1 H2 H3 H4 H5]. destruct w as [N q]. cbn in *. unfold mru_insert. rewrite H3.
  destruct (decide (x ∈ q)) as [Hin|Hni]; [rewrite !bool_decide_true by set_solver; by split|]. rewrite !bool_decide_false by set_solver. cbn [snd mru_nMaxSize mru_queue].
  assert (NoDup (q ++ [x])) as Hn by (apply NoDup_app; split; [done|]; split; [set_solver|apply NoDup_singleton]).
  destruct (window_ok N (q ++ [x]) Hn) as [Hw1 Hw2]. rewrite H1, H2.
  destruct (Nat.eqb_spec N 0) as [->|HN]; cbn [negb andb].
  - split; cbn; [done..| |done|done]. rewrite list_to_set_app_L. set_solver.
  - specialize (H5 HN). destruct (Nat.eqb_spec (length q) N) as [El|Hl].
    + destruct q as [|y q]; [cbn in El; lia|]. apply NoDup_cons in H4 as [Hy H4].
      assert (window N ((y :: q) ++ [x]) = q ++ [x]) as Ew.
      { unfold window. rewrite (proj2 (Nat.eqb_neq N 0)) by done. rewrite length_app. cbn [length] in *. replace (S (length q) + 1 - N)%nat with 1%nat by lia. done. }
      rewrite Ew in *. unfold mru_pop. cbn [mru_queue]. split; cbn; try done. rewrite list_to_set_app_L. cbn. set_solver.
    + assert (window N (q ++ [x]) = q ++ [x]) as Ew.
      { unfold window. rewrite (proj2 (Nat.eqb_neq N 0)) by done. rewrite length_app. cbn. by replace (length q + 1 - N)%nat with O by lia. }
      rewrite Ew in *. split; cbn; try done. rewrite list_to_set_app_L. set_solver.
Qed.

Lemma mru_max_size_ok (m : mruset T) w s : mru_ok m w -> mru_ok (mru_step m (MruMaxSize s)) (window_step w (MruMaxSize s)).
Proof.
  intros [H1 H2 H3 H4 H5]. destruct w as [N q]. cbn in *. unfold mru_max_size. destruct (window_ok s q H4) as [Hw1 Hw2]. unfold window in *.
  destruct (Nat.eqb_spec s 0); [split; cbn; done|].
  destruct (mru_shrink_spec s (length (mru_queue m)) m) as [E1 E2]; [done|by rewrite H2|by rewrite H2|]. rewrite H2 in *. split; cbn; done.
Qed.
End Window.

(** An [mruset] is a window: after any sequence of insertions and changes of the
    limit it holds exactly the elements of the abstract window, each once, at most as
    many as the limit, and forgets the oldest first. *)
Theorem mruset_is_window `{Countable T} (ops : list (@mru_op T)) (N : nat) :
  let m := fold_left mru_step ops (mruset_make N) in
  let w := fold_left window_step ops (N, []) in
  mru_set m = list_to_set (snd w) /\ mru_queue m = snd w /\ NoDup (snd w) /\ mru_size m = length (snd w) /\
  (mru_nMaxSize m <> 0%nat -> (mru_size m <= mru_nMaxSize m)%nat).
Proof.
  assert (forall m w, mru_ok m w -> mru_ok (fold_left mru_step ops m) (fold_left window_step ops w)) as Hrun.
  { induction ops as [|o ops IH]; [done|]. intros m w Hm. apply IH. destruct o; [by apply mru_insert_ok|by apply mru_max_size_ok]. }
  destruct (Hrun (mruset_make N) (N, [])) as [H1 H2 H3 H4 H5].
  { split; cbn; [done..|constructor|lia]. }
  intros m w. fold m in H1, H2, H3. fold w in H1, H2, H3, H4, H5.
  assert (mru_size m = length (snd w)) as Hs by (unfold mru_size; rewrite H3; by apply size_list_to_set).
  conjs; [done..|]. rewrite Hs, H1. done.
Qed.

(** ** limitedmap *)

Section Limited.
Context {K : Type} `{Countable K}.

(** The two indexes agree, and the second is in the order of the values. *)
Record lm_ok (m : limitedmap K) : Prop := {
  lo_index : forall k v, lm_map m !! k = Some v <-> (v, k) ∈ lm_rmap m;
  lo_once : NoDup (map snd (lm_rmap m));
  lo_sorted : StronglySorted (fun a b : Z * K => fst a <= fst b) (lm_rmap m);
}.

Lemma lm_map_eq m : lm_ok m -> lm_map m = list_to_map (map (fun e => (snd e, fst e)) (lm_rmap m)).
Proof.
  intros [H1 H2 _]. apply map_eq. intros k. apply option_eq. intros v. rewrite H1, <- elem_of_list_to_map.
  - rewrite list_elem_of_fmap. split; [intros Hin; by exists (v, k)|]. by intros ([w j] & [= -> ->] & Hin).
  - rewrite map_map. exact H2.
Qed.

Lemma lm_size_eq m : lm_ok m -> size (lm_map m) = length (lm_rmap m).
Proof.
  intros Hm. rewrite (lm_map_eq m Hm). rewrite map_size_list_to_map; [by rewrite length_map|]. rewrite map_map. apply Hm.
Qed.

Lemma elem_rmap_insert v (k : K) l e : e ∈ rmap_insert v k l <-> e = (v, k) \/ e ∈ l.
Proof.
  induction l as [|[w j] l IH]; cbn [rmap_insert]; [by rewrite list_elem_of_singleton, elem_of_nil; naive_solver|].
  destruct (v <? w); rewrite !elem_of_cons, ?IH; naive_solver.
Qed.

Lemma snd_rmap_insert v (k : K) l : map snd (rmap_insert v k l) ≡ₚ k :: map snd l.
Proof.
  induction l as [|[w j] l IH]; cbn [rmap_insert]; [done|]. destruct (v <? w); [done|]. cbn [map snd]. rewrite IH. apply Permutation_swap.
Qed.

Lemma rmap_insert_sorted v (k : K) l : StronglySorted (fun a b : Z * K => fst a <= fst b) l ->
  StronglySorted (fun a b : Z * K => fst a <= fst b) (rmap_insert v k l).
Proof.
  induction 1 as [|[w j] l Hs IH HF]; cbn [rmap_insert]; [by repeat constructor|]. destruct (Z.ltb_spec v w); constructor; try done.
  - by constructor.
  - constructor; [cbn; lia|]. eapply Forall_impl; [exact HF|]. cbn. lia.
  - rewrite Forall_forall in HF |- *. intros e [->|He]%elem_rmap_insert; [done|by apply HF].
Qed.

(** Adding a new key to both indexes. *)
Lemma lm_add_ok m k v : lm_ok m -> lm_map m !! k = None -> lm_ok (mkLimited (<[k := v]> (lm_map m)) (rmap_insert v k (lm_rmap m)) (lm_nMaxSize m)).
Proof.
  intros [H1 H2 H3] Hk. split; cbn.
  - intros j w. rewrite lookup_insert_Some, elem_rmap_insert, <- H1. split.
    + intros [[<- <-]|[_ Hj]]; [by left|by right].
    + intros [[= -> ->]|Hj]; [by left|]. right. split; [congruence|done].
  - rewrite snd_rmap_insert. apply NoDup_cons. split; [|done]. intros ([w j] & -> & Hin)%list_elem_of_fmap. apply H1 in Hin. cbn in Hk. congruence.
  - by apply rmap_insert_sorted.
Qed.

(** Dropping the first entry of the second index. *)
Lemma lm_evict_ok m v k l : lm_ok m -> lm_rmap m = (v, k) :: l -> lm_map m !! k = Some v /\ (forall j w, lm_map m !! j = Some w -> v <= w) /\
  lm_ok (mkLimited (delete k (lm_map m)) l (lm_nMaxSize m)).
Proof.
  intros [H1 H2 H3] E. rewrite E in H2, H3. cbn in H2. apply NoDup_cons in H2 as [Hk H2]. apply StronglySorted_inv in H3 as [H3 HF].
  assert (lm_map m !! k = Some v) as Hkv by (apply H1; rewrite E; by left). conjs; [done| |].
  - intros j w Hj. apply H1 in Hj. rewrite E in Hj. apply elem_of_cons in Hj as [[= -> ->]|Hj]; [done|]. rewrite Forall_forall in HF. by apply HF in Hj.
  - split; cbn; [|done..]. intros j w. rewrite lookup_delete_Some, H1, E, elem_of_cons. split; [intros [? [[= -> ->]|?]]; done|].
    intros Hj. split; [|by right]. intros <-. apply Hk. apply list_elem_of_fmap. by exists (w, k).
Qed.

Lemma rmap_erase_some v (k : K) l : (v, k) ∈ l -> NoDup (map snd l) -> StronglySorted (fun a b : Z * K => fst a <= fst b) l ->
  exists l', rmap_erase v k l = Some l' /\ StronglySorted (fun a b : Z * K => fst a <= fst b) l' /\
    map snd l ≡ₚ k :: map snd l' /\ forall e, e ∈ l' <-> e ∈ l /\ snd e <> k.
Proof.
  induction l as [|[w j] l IH]; [by intros ?%elem_of_nil|]. intros Hin Hjn [Hs HF]%StronglySorted_inv. cbn [rmap_erase map snd] in *.
  apply NoDup_cons in Hjn as [Hj Hn].
  assert (forall e, e ∈ l -> snd e <> j) as Hne by (intros e He <-; apply Hj; by apply (list_elem_of_fmap_2 snd)).
  destruct (decide ((w, j) = (v, k))) as [[= -> ->]|Hd].
  - rewrite Z.eqb_refl, bool_decide_true by done. exists l. conjs; [done|done|done|]. intros e. rewrite elem_of_cons. split; [auto|]. intros [[->|?] ?]; done.
  - replace ((w =? v) && bool_decide (j = k))%bool with false.
    2: { symmetry. apply andb_false_iff. destruct (Z.eqb_spec w v) as [->|]; [right|by left]. apply bool_decide_eq_false. congruence. }
    apply elem_of_cons in Hin as [Hin|Hin]; [congruence|]. destruct (IH Hin Hn Hs) as (l' & -> & Hs' & Hp & Hl'). exists ((w, j) :: l'). conjs.
    + done.
    + constructor; [done|]. rewrite Forall_forall in HF |- *. intros e [He _]%Hl'. by apply HF.
    + cbn. rewrite Hp. apply Permutation_swap.
    + intros e. rewrite !elem_of_cons, Hl'. split; [intros [->|[? ?]]; [|naive_solver]|naive_solver]. split; [by left|]. cbn. intros ->. by apply (Hne _ Hin).
Qed.

(** Taking a key out of both indexes. *)
Lemma lm_remove_ok m k v : lm_ok m -> lm_map m !! k = Some v ->
  exists l, rmap_erase v k (lm_rmap m) = Some l /\ lm_ok (mkLimited (delete k (lm_map m)) l (lm_nMaxSize m)).
Proof.
  intros [H1 H2 H3] Hk. apply H1 in Hk as Hin. destruct (rmap_erase_some v k _ Hin H2 H3) as (l & E & Hs & Hp & Hl). exists l. split; [done|]. split; cbn; [| |done].
  - intros j w. rewrite lookup_delete_Some, H1, Hl. cbn. naive_solver.
  - rewrite Hp in H2. by apply NoDup_cons in H2 as [_ ?].
Qed.

Lemma lm_shrink_ok s fuel : forall m, lm_ok m -> (size (lm_map m) <= fuel)%nat ->
  exists m', lm_shrink fuel s m = Some m' /\ lm_ok m' /\ lm_nMaxSize m' = lm_nMaxSize m /\ (size (lm_map m') <= Nat.max s 0)%nat /\ lm_map m' ⊆ lm_map m /\
    forall j w k v, lm_map m !! j = Some w -> lm_map m' !! j = None -> lm_map m' !! k = Some v -> w <= v.
Proof.
  induction fuel as [|fuel IH]; intros m Hm Hf; cbn [lm_shrink]; [exists m; conjs; try done; [lia|intros; congruence]|].
  destruct (Nat.ltb_spec s (size (lm_map m))) as [Hlt|Hge]; [|exists m; conjs; try done; [lia|intros; congruence]].
  unfold lm_evict. destruct (lm_rmap m) as [|[v k] l] eqn:E; [rewrite (lm_size_eq m Hm), E in Hlt; cbn in Hlt; lia|].
  destruct (lm_evict_ok m v k l Hm E) as (Hkv & Hleast & Hok). destruct (IH _ Hok) as (m' & E' & Hok' & HN & Hsz & Hsub & Hhigh).
  { cbn. rewrite map_size_delete_Some by eauto. lia. }
  exists m'. cbn in HN, Hsub, Hhigh. conjs; [done|done|done|done|etrans; [exact Hsub|apply delete_subseteq]|].
  intros j w k' v' Hj Hj' Hk'. destruct (decide (j = k)) as [->|Hne].
  - assert (w = v) as -> by congruence. assert (lm_map m !! k' = Some v') as Hx; [|by apply Hleast in Hx].
    eapply lookup_weaken in Hk'; [|exact Hsub]. by apply lookup_delete_Some in Hk' as [_ ?].
  - eapply Hhigh; [|exact Hj'|exact Hk']. by rewrite lookup_delete_ne.
Qed.
End Limited.

(** A [limitedmap] whose two indexes agree keeps them so, and no operation
    dereferences the end of its second index or fails its assertion, except the
    insertion into a map with limit 1.  Inserting a new key adds it, and evicts an old entry of
    least value exactly when the map then has as many entries as the limit; erasing
    and updating change just the key; lowering the limit drops entries
    of least value until it is met. *)
Theorem limitedmap_exact `{Countable K} (m : limitedmap K) (k : K) (v : Z) (s : nat) :
  lm_ok m -> lm_map m !! k = None -> lm_nMaxSize m <> 1%nat ->
  (exists m', lm_insert k v m = Some m' /\ lm_ok m' /\
     if decide (S (size (lm_map m)) = lm_nMaxSize m)
     then exists k0 v0, lm_map m !! k0 = Some v0 /\ (forall j w, lm_map m !! j = Some w -> v0 <= w) /\ lm_map m' = <[k := v]> (delete k0 (lm_map m))
     else lm_map m' = <[k := v]> (lm_map m)) /\
  (forall j, exists m', lm_erase j m = Some m' /\ lm_ok m' /\ lm_map m' = delete j (lm_map m)) /\
  (forall j w, lm_map m !! j = Some w -> exists m', lm_update j v m = Some m' /\ lm_ok m' /\ lm_map m' = <[j := v]> (lm_map m)) /\
  exists m', lm_max_size s m = Some m' /\ lm_ok m' /\ lm_map m' ⊆ lm_map m /\ (s <> 0%nat -> (size (lm_map m') <= s)%nat) /\
    forall j w i x, lm_map m !! j = Some w -> lm_map m' !! j = None -> lm_map m' !! i = Some x -> w <= x.
Proof.
  intros Hm Hk HN. conjs.
  - unfold lm_insert. rewrite Hk. cbn [lm_nMaxSize lm_map lm_rmap]. rewrite map_size_insert_None by done.
    destruct (decide (S (size (lm_map m)) = lm_nMaxSize m)) as [E|Hne].
    + rewrite (proj2 (Nat.eqb_neq _ 0)), (proj2 (Nat.eqb_eq _ _) E) by lia. cbn [negb andb]. unfold lm_evict. cbn [lm_rmap].
      destruct (lm_rmap m) as [|[v0 k0] l] eqn:El; [pose proof (lm_size_eq m Hm) as Hs; rewrite El in Hs; cbn in Hs; lia|].
      destruct (lm_evict_ok m v0 k0 l Hm El) as (Hk0 & Hleast & Hok). assert (k0 <> k) as Hkk by congruence.
      eexists. split; [reflexivity|]. cbn [lm_map lm_rmap lm_nMaxSize]. rewrite delete_insert_ne by done. split; [|by exists k0, v0].
      apply (lm_add_ok _ k v Hok). cbn. by rewrite lookup_delete_ne.
    + replace (negb (lm_nMaxSize m =? 0)%nat && (S (size (lm_map m)) =? lm_nMaxSize m)%nat)%bool with false.
      2: { symmetry. apply andb_false_iff. right. by apply Nat.eqb_neq. }
      eexists. split; [reflexivity|]. split; [exact (lm_add_ok m k v Hm Hk)|done].
  - intros j. unfold lm_erase. destruct (lm_map m !! j) as [w|] eqn:Ej; [|exists m; conjs; [done..|by rewrite delete_id]].
    destruct (lm_remove_ok m j w Hm Ej) as (l & -> & Hok). eexists. split; [reflexivity|]. done.
  - intros j w Ej. unfold lm_update. rewrite Ej. destruct (lm_remove_ok m j w Hm Ej) as (l & -> & Hok). eexists. split; [reflexivity|]. split; [|done].
    pose proof (lm_add_ok _ j v Hok (lookup_delete_eq _ _)) as Hx. cbn in Hx. by rewrite insert_delete_eq in Hx.
  - unfold lm_max_size. destruct (Nat.eqb_spec s 0).
    + exists (mkLimited (lm_map m) (lm_rmap m) s). conjs; [done|destruct Hm; by split|done|done|]. cbn. intros; congruence.
    + destruct (lm_shrink_ok s (size (lm_map m)) m Hm ltac:(lia)) as (m' & -> & Hok & _ & Hsz & Hsub & Hhigh). eexists. split; [reflexivity|].
      conjs; [destruct Hok; by split|done|cbn; lia|exact Hhigh].
Qed.

(** ** Examples *)

Definition lm_two : limitedmap Z := mkLimited (list_to_map [(1, 10); (2, 20)]) [(10, 1); (20, 2)] 3.

Lemma limitedmap_exact_witness : exists m', lm_insert 3 5 lm_two = Some m' /\ lm_ok m'.
Proof.
  assert (lm_ok lm_two) as Hok.
  { split; cbn [lm_two lm_map lm_rmap].
    - intros k v. rewrite <- elem_of_list_to_map; [|apply (bool_decide_unpack _); vm_compute; exact I].
      rewrite !elem_of_cons, !elem_of_nil. naive_solver.
    - apply (bool_decide_unpack _). vm_compute. exact I.
    - repeat constructor; cbn; lia. }
  destruct (proj1 (limitedmap_exact lm_two 3 5 1 Hok eq_refl ltac:(discriminate))) as (m' & E & Hm & _). exists m'. split; [exact E|exact Hm].
Defined.

(** The eviction compares with the limit only: a map filled to the limit by lowering
    it has more entries than the limit after one insertion, and never evicts again. *)
Example limitedmap_overflows :
  (fun m : limitedmap Z => (size (lm_map m), lm_nMaxSize m)) <$> ((lm_max_size 2 lm_two ≫= lm_insert 3 5) ≫= lm_insert 4 6) = Some (4%nat, 2%nat).
Proof. reflexivity. Qed.

(** With limit 1 the first insertion dereferences the end of the empty index. *)
Example limitedmap_limit_one : lm_insert 3 5 (limitedmap_make (K := Z) 1) = None.
Proof. reflexivity. Qed.
