(* ===== verification/NetAddr.v ===== *)
(** * Network addresses and random numbers (netbase.cpp, netbase.h, protocol.h, util.cpp)

    [CNetAddr] as its sixteen bytes in network order, the ranges it distinguishes,
    the group of an address, services and advertised addresses; [GetRand] over the
    random bytes of OpenSSL. *)

From S2P Require Import Prelude Uint256 Serialize Tx.

(** ** Addresses *)

Abbreviation CNetAddr := (list Z).

Inductive Network := NET_UNROUTABLE | NET_IPV4 | NET_IPV6 | NET_TOR | NET_I2P.
#[export] Instance Network_eq_dec : EqDecision Network.
Proof. solve_decision. Defined.

Definition Network_code (n : Network) : Z :=
  match n with NET_UNROUTABLE => 0 | NET_IPV4 => 1 | NET_IPV6 => 2 | NET_TOR => 3 | NET_I2P => 4 end.

Definition pchIPv4 : list Z := [0; 0; 0; 0; 0; 0; 0; 0; 0; 0; 0xff; 0xff].
Definition pchOnionCat : list Z := [0xFD; 0x87; 0xD8; 0x7E; 0xEB; 0x43].
Definition pchGarliCat : list Z := [0xFD; 0x60; 0xDB; 0x4D; 0xDD; 0xB5].

(** [memcmp(ip, p, sizeof(p)) == 0] *)
Definition starts (ip p : list Z) : bool := bool_decide (take (length p) ip = p).

Definition CNetAddr_Init : CNetAddr := replicate 16 0.
(** [CNetAddr(const struct in_addr&)], from the four bytes in network order *)
Definition CNetAddr_ipv4 (ipv4Addr : list Z) : CNetAddr := pchIPv4 ++ ipv4Addr.

Section Addr.
Context (ip : CNetAddr).

Definition GetByte (n : nat) : Z := nth (15 - n) ip 0.

Definition IsIPv4 : bool := starts ip pchIPv4.
Definition IsTor : bool := starts ip pchOnionCat.
Definition IsI2P : bool := starts ip pchGarliCat.
Definition IsIPv6 : bool := (negb IsIPv4 && negb IsTor && negb IsI2P)%bool.

Definition IsRFC1918 : bool :=
  (IsIPv4 && ((GetByte 3 =? 10) || ((GetByte 3 =? 192) && (GetByte 2 =? 168))
              || ((GetByte 3 =? 172) && ((16 <=? GetByte 2) && (GetByte 2 <=? 31)))))%bool.
Definition IsRFC3927 : bool := (IsIPv4 && ((GetByte 3 =? 169) && (GetByte 2 =? 254)))%bool.
Definition IsRFC3849 : bool := ((GetByte 15 =? 0x20) && (GetByte 14 =? 0x01) && (GetByte 13 =? 0x0D) && (GetByte 12 =? 0xB8))%bool.
Definition IsRFC3964 : bool := ((GetByte 15 =? 0x20) && (GetByte 14 =? 0x02))%bool.
Definition IsRFC6052 : bool := starts ip [0; 0x64; 0xFF; 0x9B; 0; 0; 0; 0; 0; 0; 0; 0].
Definition IsRFC4380 : bool := ((GetByte 15 =? 0x20) && (GetByte 14 =? 0x01) && (GetByte 13 =? 0) && (GetByte 12 =? 0))%bool.
Definition IsRFC4862 : bool := starts ip [0xFE; 0x80; 0; 0; 0; 0; 0; 0].
Definition IsRFC4193 : bool := (Z.land (GetByte 15) 0xFE =? 0xFC).
Definition IsRFC6145 : bool := starts ip [0; 0; 0; 0; 0; 0; 0; 0; 0xFF; 0xFF; 0; 0].
Definition IsRFC4843 : bool :=
  ((GetByte 15 =? 0x20) && (GetByte 14 =? 0x01) && (GetByte 13 =? 0x00) && (Z.land (GetByte 12) 0xF0 =? 0x10))%bool.

Definition IsLocal : bool :=
  if (IsIPv4 && ((GetByte 3 =? 127) || (GetByte 3 =? 0)))%bool then true
  else starts ip [0; 0; 0; 0; 0; 0; 0; 0; 0; 0; 0; 0; 0; 0; 0; 1].

Definition IsMulticast : bool := ((IsIPv4 && (Z.land (GetByte 3) 0xF0 =? 0xE0)) || (GetByte 15 =? 0xFF))%bool.

Definition CNetAddr_IsValid : bool :=
  if starts ip (drop 3 pchIPv4) then false
  else if starts ip (replicate 16 0) then false
  else if IsRFC3849 then false
  else if IsIPv4 then
    if starts (drop 12 ip) [0xff; 0xff; 0xff; 0xff] then false
    else if starts (drop 12 ip) [0; 0; 0; 0] then false else true
  else true.

Definition IsRoutable : bool :=
  (CNetAddr_IsValid && negb (IsRFC1918 || IsRFC3927 || IsRFC4862 || (IsRFC4193 && negb IsTor && negb IsI2P) || IsRFC4843 || IsLocal))%bool.

Definition GetNetwork : Network :=
  if negb IsRoutable then NET_UNROUTABLE
  else if IsIPv4 then NET_IPV4
  else if IsTor then NET_TOR
  else if IsI2P then NET_I2P
  else NET_IPV6.

(** Class, first byte and number of bits of the group; [None] for the group of a
    Teredo address, which is built apart. *)
Definition group_shape : option (Z * nat * nat) :=
  let '(nClass, nBits) := if IsLocal then (255, 0%nat) else (Network_code NET_IPV6, 16%nat) in
  if negb IsRoutable then Some (Network_code NET_UNROUTABLE, 0%nat, 0%nat)
  else if (IsIPv4 || IsRFC6145 || IsRFC6052)%bool then Some (Network_code NET_IPV4, 12%nat, nBits)
  else if IsRFC3964 then Some (Network_code NET_IPV4, 2%nat, nBits)
  else if IsRFC4380 then None
  else if IsTor then Some (Network_code NET_TOR, 6%nat, 4%nat)
  else if IsI2P then Some (Network_code NET_I2P, 6%nat, 4%nat)
  else if ((GetByte 15 =? 0x20) && (GetByte 14 =? 0x11) && (GetByte 13 =? 0x04) && (GetByte 12 =? 0x70))%bool then Some (nClass, 0%nat, 36%nat)
  else Some (nClass, 0%nat, 32%nat).

(** [while (nBits >= 8)] and the last bits *)
Fixpoint group_bytes (whole nStartByte nBits : nat) : list Z :=
  match whole with
  | O => if (0 <? nBits)%nat then [Z.lor (GetByte (15 - nStartByte)) (2 ^ Z.of_nat nBits - 1)] else []
  | S whole => GetByte (15 - nStartByte) :: group_bytes whole (S nStartByte) (nBits - 8)
  end.

Definition GetGroup : list Z :=
  match group_shape with
  | None => [Network_code NET_IPV4; Z.lxor (GetByte 3) 0xFF; Z.lxor (GetByte 2) 0xFF]
  | Some (nClass, nStartByte, nBits) => nClass :: group_bytes (nBits / 8) nStartByte nBits
  end.
End Addr.

(** ** Reachability *)

Inductive ExtNetwork := Ext (n : Network) | NET_UNKNOWN | NET_TEREDO.
Definition GetExtNetwork (addr : option CNetAddr) : ExtNetwork :=
  match addr with
  | None => NET_UNKNOWN
  | Some ip => if IsRFC4380 ip then NET_TEREDO else Ext (GetNetwork ip)
  end.

Inductive Reachability :=
  REACH_UNREACHABLE | REACH_DEFAULT | REACH_TEREDO | REACH_IPV6_WEAK | REACH_IPV4 | REACH_IPV6_STRONG | REACH_PRIVATE.

Definition GetReachabilityFrom (ip : CNetAddr) (paddrPartner : option CNetAddr) : Reachability :=
  if negb (IsRoutable ip) then REACH_UNREACHABLE
  else
    let ourNet := GetExtNetwork (Some ip) in
    let fTunnel := (IsRFC3964 ip || IsRFC6052 ip || IsRFC6145 ip)%bool in
    match GetExtNetwork paddrPartner with
    | Ext NET_IPV4 => match ourNet with Ext NET_IPV4 => REACH_IPV4 | _ => REACH_DEFAULT end
    | Ext NET_IPV6 =>
        match ourNet with
        | NET_TEREDO => REACH_TEREDO
        | Ext NET_IPV4 => REACH_IPV4
        | Ext NET_IPV6 => if fTunnel then REACH_IPV6_WEAK else REACH_IPV6_STRONG
        | _ => REACH_DEFAULT
        end
    | Ext NET_TOR => match ourNet with Ext NET_IPV4 => REACH_IPV4 | Ext NET_TOR => REACH_PRIVATE | _ => REACH_DEFAULT end
    | Ext NET_I2P => match ourNet with Ext NET_I2P => REACH_PRIVATE | _ => REACH_DEFAULT end
    | NET_TEREDO =>
        match ourNet with
        | NET_TEREDO => REACH_TEREDO
        | Ext NET_IPV6 => REACH_IPV6_WEAK
        | Ext NET_IPV4 => REACH_IPV4
        | _ => REACH_DEFAULT
        end
    | NET_UNKNOWN | Ext NET_UNROUTABLE =>
        match ourNet with
        | NET_TEREDO => REACH_TEREDO
        | Ext NET_IPV6 => REACH_IPV6_WEAK
        | Ext NET_IPV4 => REACH_IPV4
        | Ext NET_I2P => REACH_PRIVATE
        | Ext NET_TOR => REACH_PRIVATE
        | _ => REACH_DEFAULT
        end
    end.

(** ** Services and advertised addresses *)

Record CService := mkService { s_ip : CNetAddr; s_port : Z }.
#[export] Instance CService_eq_dec : EqDecision CService.
Proof. solve_decision. Defined.

Definition Service_GetKey (a : CService) : list Z := s_ip a ++ [s_port a / 0x100; Z.land (s_port a) 0x0FF].

(** [nLastTry] is in memory only. *)
Record CAddress := mkAddress { a_service : CService; a_nServices : Z; a_nTime : Z; a_nLastTry : Z }.

(** ** Random numbers *)

(** [GetRandInt] for the components that draw numbers. *)
Class Random (R : Type) := { GetRandInt : Z -> R -> Z * R }.
Class Random_ok {R : Type} (RD : Random R) : Prop := { rand_range : forall n r, 0 < n -> 0 <= fst (GetRandInt n r) < n }.

(** The 64-bit words that [RAND_bytes] yields, and how many were read. *)
Record tape := mkTape { t_words : nat -> Z; t_pos : nat }.

(** [do RAND_bytes while (nRand >= nRange)], at most [fuel] times. *)
Fixpoint rand_loop (fuel : nat) (nRange : Z) (t : tape) : Z * tape :=
  match fuel with
  | O => (0, t)
  | S fuel =>
      let nRand := t_words t (t_pos t) in
      let t := mkTape (t_words t) (S (t_pos t)) in
      if nRange <=? nRand then rand_loop fuel nRange t else (nRand, t)
  end.

Definition GetRand (fuel : nat) (nMax : Z) (t : tape) : Z * tape :=
  if nMax =? 0 then (0, t)
  else
    let nRange := u64 ((2 ^ 64 - 1) / nMax * nMax) in
    let '(nRand, t) := rand_loop fuel nRange t in (nRand mod nMax, t).

(** More than half of all words are below [nRange]: on a tape with such a word
    among any [fuel] in a row the loop ends. *)
Definition fair (fuel : nat) (t : tape) : Prop :=
  forall p, exists k, (k < fuel)%nat /\ 0 <= t_words t (p + k) < 2 ^ 63.

Lemma rand_loop_ends nRange fuel : forall t, 2 ^ 63 <= nRange -> (forall i, 0 <= t_words t i) ->
  (exists k, (k < fuel)%nat /\ t_words t (t_pos t + k) < 2 ^ 63) ->
  exists k, rand_loop fuel nRange t = (t_words t (t_pos t + k), mkTape (t_words t) (S (t_pos t + k))) /\ 0 <= t_words t (t_pos t + k) < nRange.
Proof.
  induction fuel as [|fuel IH]; intros t Hr Hp (k & Hk & Hw); [lia|]. cbn [rand_loop]. destruct (Z.leb_spec nRange (t_words t (t_pos t))) as [Hle|Hgt].
  - destruct k as [|k]; [rewrite Nat.add_0_r in Hw; lia|]. destruct (IH (mkTape (t_words t) (S (t_pos t))) Hr Hp) as (j & -> & Hj).
    { exists k. cbn. replace (S (t_pos t + k)) with (t_pos t + S k)%nat by lia. split; [lia|done]. }
    cbn in Hj |- *. exists (S j). replace (t_pos t + S j)%nat with (S (t_pos t + j)) by lia. done.
  - exists O. rewrite Nat.add_0_r. split; [done|]. split; [apply Hp|done].
Qed.

(** On a fair tape [GetRand] reads until a word is accepted and returns it modulo
    the bound. *)
Lemma GetRand_accepts fuel nMax t : 0 < nMax < 2 ^ 63 -> fair fuel t -> (forall i, 0 <= t_words t i) ->
  exists k, fst (GetRand fuel nMax t) = t_words t (t_pos t + k) mod nMax /\ t_words t (t_pos t + k) < (2 ^ 64 - 1) / nMax * nMax.
Proof.
  intros Hn Hf Hp. unfold GetRand. rewrite (proj2 (Z.eqb_neq nMax 0)) by lia.
  pose proof (Z.mul_div_le (2 ^ 64 - 1) nMax ltac:(lia)). pose proof (Z.mod_pos_bound (2 ^ 64 - 1) nMax ltac:(lia)).
  pose proof (Z_div_mod_eq_full (2 ^ 64 - 1) nMax). rewrite u64_small by lia.
  destruct (rand_loop_ends ((2 ^ 64 - 1) / nMax * nMax) fuel t) as (k & E & Hk).
  - lia.
  - done.
  - destruct (Hf (t_pos t)) as (k & Hk & Hw). exists k. split; [done|lia].
  - exists k. rewrite E. cbn [fst]. split; [done|lia].
Qed.

#[export] Instance tape_random : Random tape := {| GetRandInt nMax t := GetRand 64 nMax t |}.

#[export] Instance tape_random_ok : Random_ok tape_random.
Proof.
  split. intros n r Hn. cbn [GetRandInt tape_random]. unfold GetRand. rewrite (proj2 (Z.eqb_neq n 0)) by lia.
  destruct (rand_loop _ _ _) as [x t]. cbn [fst]. by apply Z.mod_pos_bound.
Qed.
