(* ===== verification/AddrMan.v ===== *)
(** * The address manager (addrman.cpp, addrman.h)

    [CAddrMan] keeps the addresses of other nodes: those never tried in up to four of
    256 "new" buckets each, those that answered in one of 64 "tried" buckets.  Ids
    are the keys of [mapInfo]; the indexes beside it are kept as the code keeps
    them.  An operation is [None] when an assertion fails or a vector is read past its
    end.  Random numbers come through the interface [Random]. *)

From S2P Require Import Prelude Uint256 Serialize Tx NetAddr.
From stdpp Require Import sorting.
#[local] Open Scope Z_scope.

Definition ADDRMAN_TRIED_BUCKET_COUNT : Z := 64.
Definition ADDRMAN_TRIED_BUCKET_SIZE : nat := 64.
Definition ADDRMAN_NEW_BUCKET_COUNT : Z := 256.
Definition ADDRMAN_NEW_BUCKET_SIZE : nat := 64.
Definition ADDRMAN_TRIED_BUCKETS_PER_GROUP : Z := 4.
Definition ADDRMAN_NEW_BUCKETS_PER_SOURCE_GROUP : Z := 32.
Definition ADDRMAN_NEW_BUCKETS_PER_ADDRESS : Z := 4.
Definition ADDRMAN_TRIED_ENTRIES_INSPECT_ON_EVICT : nat := 4.
Definition ADDRMAN_HORIZON_DAYS : Z := 30.
Definition ADDRMAN_RETRIES : Z := 3.
Definition ADDRMAN_MAX_FAILURES : Z := 10.
Definition ADDRMAN_MIN_FAIL_DAYS : Z := 7.
Definition ADDRMAN_GETADDR_MAX_PCT : Z := 23.
Definition ADDRMAN_GETADDR_MAX : Z := 2500.

(** ** Entries *)

Record CAddrInfo := mkInfo {
  i_service : CService; i_nServices : Z; i_nTime : Z; i_nLastTry : Z;
  i_source : CNetAddr; i_nLastSuccess : Z; i_nAttempts : Z; i_nRefCount : Z; i_fInTried : bool; i_nRandomPos : Z;
}.

Abbreviation i_ip i := (s_ip (i_service i)).

Definition CAddrInfo_make (addr : CAddress) (source : CNetAddr) : CAddrInfo :=
  mkInfo (a_service addr) (a_nServices addr) (a_nTime addr) 0 source 0 0 0 false (-1).

(** The entry as the [CAddress] it is. *)
Definition info_address (i : CAddrInfo) : CAddress := mkAddress (i_service i) (i_nServices i) (i_nTime i) (i_nLastTry i).

Definition set_nTime (t : Z) (i : CAddrInfo) : CAddrInfo :=
  mkInfo (i_service i) (i_nServices i) (u32 t) (i_nLastTry i) (i_source i) (i_nLastSuccess i) (i_nAttempts i) (i_nRefCount i) (i_fInTried i) (i_nRandomPos i).
Definition set_nServices (v : Z) (i : CAddrInfo) : CAddrInfo :=
  mkInfo (i_service i) v (i_nTime i) (i_nLastTry i) (i_source i) (i_nLastSuccess i) (i_nAttempts i) (i_nRefCount i) (i_fInTried i) (i_nRandomPos i).
Definition set_nRefCount (v : Z) (i : CAddrInfo) : CAddrInfo :=
  mkInfo (i_service i) (i_nServices i) (i_nTime i) (i_nLastTry i) (i_source i) (i_nLastSuccess i) (i_nAttempts i) v (i_fInTried i) (i_nRandomPos i).
Definition set_nRandomPos (v : Z) (i : CAddrInfo) : CAddrInfo :=
  mkInfo (i_service i) (i_nServices i) (i_nTime i) (i_nLastTry i) (i_source i) (i_nLastSuccess i) (i_nAttempts i) (i_nRefCount i) (i_fInTried i) v.
Definition set_fInTried (v : bool) (i : CAddrInfo) : CAddrInfo :=
  mkInfo (i_service i) (i_nServices i) (i_nTime i) (i_nLastTry i) (i_source i) (i_nLastSuccess i) (i_nAttempts i) (i_nRefCount i) v (i_nRandomPos i).
(** The updates of [Attempt_] and [Good_]. *)
Definition set_tried_at (t : Z) (i : CAddrInfo) : CAddrInfo :=
  mkInfo (i_service i) (i_nServices i) (i_nTime i) t (i_source i) (i_nLastSuccess i) (s32 (i_nAttempts i + 1)) (i_nRefCount i) (i_fInTried i) (i_nRandomPos i).
Definition set_good (t : Z) (i : CAddrInfo) : CAddrInfo :=
  mkInfo (i_service i) (i_nServices i) (u32 t) t (i_source i) t 0 (i_nRefCount i) (i_fInTried i) (i_nRandomPos i).

Section Buckets.
Context `{HD : Digests}.

Definition GetTriedBucket (nKey : list Z) (a : CService) : Z :=
  let hash1 := Get64 (Hash (enc bytevec_codec nKey ++ enc bytevec_codec (Service_GetKey a))) 0 in
  let hash2 := Get64 (Hash (enc bytevec_codec nKey ++ enc bytevec_codec (GetGroup (s_ip a))
                            ++ le_bytes 8 (hash1 mod ADDRMAN_TRIED_BUCKETS_PER_GROUP))) 0 in
  hash2 mod ADDRMAN_TRIED_BUCKET_COUNT.

Definition GetNewBucket (nKey : list Z) (a : CService) (src : CNetAddr) : Z :=
  let hash1 := Get64 (Hash (enc bytevec_codec nKey ++ enc bytevec_codec (GetGroup (s_ip a)) ++ enc bytevec_codec (GetGroup src))) 0 in
  let hash2 := Get64 (Hash (enc bytevec_codec nKey ++ enc bytevec_codec (GetGroup src)
                            ++ le_bytes 8 (hash1 mod ADDRMAN_NEW_BUCKETS_PER_SOURCE_GROUP))) 0 in
  hash2 mod ADDRMAN_NEW_BUCKET_COUNT.
End Buckets.

Definition IsTerrible (nNow : Z) (i : CAddrInfo) : bool :=
  if (negb (i_nLastTry i =? 0) && (nNow - 60 <=? i_nLastTry i))%bool then false
  else if nNow + 10 * 60 <? i_nTime i then true
  else if ((i_nTime i =? 0) || (ADDRMAN_HORIZON_DAYS * 86400 <? nNow - i_nTime i))%bool then true
  else if ((i_nLastSuccess i =? 0) && (ADDRMAN_RETRIES <=? i_nAttempts i))%bool then true
  else if ((ADDRMAN_MIN_FAIL_DAYS * 86400 <? nNow - i_nLastSuccess i) && (ADDRMAN_MAX_FAILURES <=? i_nAttempts i))%bool then true
  else false.

(** ** The manager *)

Record CAddrMan := mkMan {
  nKey : list Z; nIdCount : Z; mapInfo : gmap Z CAddrInfo; mapAddr : gmap CNetAddr Z; vRandom : list Z;
  nTried : Z; vvTried : list (list Z); nNew : Z; vvNew : list (gset Z);
}.

Definition CAddrMan_make (key : list Z) : CAddrMan :=
  mkMan key 0 ∅ ∅ [] 0 (replicate (Z.to_nat ADDRMAN_TRIED_BUCKET_COUNT) []) 0 (replicate (Z.to_nat ADDRMAN_NEW_BUCKET_COUNT) ∅).

Definition set_info (m : gmap Z CAddrInfo) (a : CAddrMan) : CAddrMan :=
  mkMan (nKey a) (nIdCount a) m (mapAddr a) (vRandom a) (nTried a) (vvTried a) (nNew a) (vvNew a).
Definition set_random (v : list Z) (a : CAddrMan) : CAddrMan :=
  mkMan (nKey a) (nIdCount a) (mapInfo a) (mapAddr a) v (nTried a) (vvTried a) (nNew a) (vvNew a).
Definition set_addr (m : gmap CNetAddr Z) (a : CAddrMan) : CAddrMan :=
  mkMan (nKey a) (nIdCount a) (mapInfo a) m (vRandom a) (nTried a) (vvTried a) (nNew a) (vvNew a).
Definition set_new (n : Z) (v : list (gset Z)) (a : CAddrMan) : CAddrMan :=
  mkMan (nKey a) (nIdCount a) (mapInfo a) (mapAddr a) (vRandom a) (nTried a) (vvTried a) n v.
Definition set_tried (n : Z) (v : list (list Z)) (a : CAddrMan) : CAddrMan :=
  mkMan (nKey a) (nIdCount a) (mapInfo a) (mapAddr a) (vRandom a) n v (nNew a) (vvNew a).
Definition on_info (n : Z) (f : CAddrInfo -> CAddrInfo) (a : CAddrMan) : CAddrMan := set_info (alter f n (mapInfo a)) a.

(** A set of ids in the order of its iterator. *)
Definition set_in_order (s : gset Z) : list Z := merge_sort Z.le (elements s).

Definition Find (addr : CNetAddr) (a : CAddrMan) : option (Z * CAddrInfo) :=
  match mapAddr a !! addr with
  | None => None
  | Some nId => match mapInfo a !! nId with None => None | Some i => Some (nId, i) end
  end.

Definition Create (addr : CAddress) (addrSource : CNetAddr) (a : CAddrMan) : Z * CAddrMan :=
  let nId := nIdCount a in
  (nId, mkMan (nKey a) (s32 (nIdCount a + 1))
          (<[nId := set_nRandomPos (Z.of_nat (length (vRandom a))) (CAddrInfo_make addr addrSource)]> (mapInfo a))
          (<[s_ip (a_service addr) := nId]> (mapAddr a)) (vRandom a ++ [nId]) (nTried a) (vvTried a) (nNew a) (vvNew a)).

(** Positions are unsigned: a negative one is out of range. *)
Definition SwapRandom (nRndPos1 nRndPos2 : Z) (a : CAddrMan) : option CAddrMan :=
  if nRndPos1 =? nRndPos2 then Some a
  else if ((nRndPos1 <? 0) || (nRndPos2 <? 0))%bool then None
  else
    match vRandom a !! Z.to_nat nRndPos1, vRandom a !! Z.to_nat nRndPos2 with
    | Some nId1, Some nId2 =>
        match mapInfo a !! nId1, mapInfo a !! nId2 with
        | Some _, Some _ =>
            let a := on_info nId2 (set_nRandomPos nRndPos1) (on_info nId1 (set_nRandomPos nRndPos2) a) in
            Some (set_random (<[Z.to_nat nRndPos2 := nId1]> (<[Z.to_nat nRndPos1 := nId2]> (vRandom a))) a)
        | _, _ => None
        end
    | _, _ => None
    end.

(** One reference less; the entry goes when it was the last. *)
Definition drop_ref (nId : Z) (info : CAddrInfo) (a : CAddrMan) : option CAddrMan :=
  let a := on_info nId (fun i => set_nRefCount (i_nRefCount i - 1) i) a in
  if i_nRefCount info - 1 =? 0 then
    match SwapRandom (i_nRandomPos info) (Z.of_nat (length (vRandom a)) - 1) a with
    | None => None
    | Some a =>
        let a := set_random (take (length (vRandom a) - 1) (vRandom a)) a in
        Some (set_new (nNew a - 1) (vvNew a) (set_info (delete nId (mapInfo a)) (set_addr (delete (i_ip info) (mapAddr a)) a)))
    end
  else Some a.

Section Manager.
Context `{HD : Digests} {R : Type} {RD : Random R}.
(** [GetAdjustedTime()] *)
Context (nAdjustedTime : Z).

(** ** Eviction *)

(** The first few entries are shuffled with the rest; the position of the one with
    the oldest success is returned ([-1] for an empty bucket). *)
Fixpoint select_tried (fuel i : nat) (vTried : list Z) (info : gmap Z CAddrInfo) (nOldest nOldestPos : Z) (r : R)
    : option (Z * list Z * R) :=
  match fuel with
  | O => Some (nOldestPos, vTried, r)
  | S fuel =>
      if (i <? length vTried)%nat then
        let '(n, r) := GetRandInt (Z.of_nat (length vTried) - Z.of_nat i) r in
        let nPos := n + Z.of_nat i in
        match vTried !! Z.to_nat nPos, vTried !! i with
        | Some nTemp, Some vi =>
            let vTried := <[i := nTemp]> (<[Z.to_nat nPos := vi]> vTried) in
            if nOldest =? -1 then select_tried fuel (S i) vTried info nTemp nPos r
            else
              match info !! nTemp, info !! nOldest with
              | Some t, Some o =>
                  if i_nLastSuccess t <? i_nLastSuccess o then select_tried fuel (S i) vTried info nTemp nPos r
                  else select_tried fuel (S i) vTried info nOldest nOldestPos r
              | _, _ => None
              end
        | _, _ => None
        end
      else Some (nOldestPos, vTried, r)
  end.

Definition SelectTried (nKBucket : nat) (a : CAddrMan) (r : R) : option (Z * CAddrMan * R) :=
  match vvTried a !! nKBucket with
  | None => None
  | Some vTried =>
      match select_tried ADDRMAN_TRIED_ENTRIES_INSPECT_ON_EVICT 0 vTried (mapInfo a) (-1) (-1) r with
      | None => None
      | Some (nPos, vTried, r) => Some (nPos, set_tried (nTried a) (<[nKBucket := vTried]> (vvTried a)) a, r)
      end
  end.

(** The oldest of the entries at the chosen positions. *)
Fixpoint oldest_of (ids : list Z) (nI : Z) (chosen : list Z) (info : gmap Z CAddrInfo) (nOldest : Z) : option Z :=
  match ids with
  | [] => Some nOldest
  | n :: ids =>
      if bool_decide (nI ∈ chosen) then
        if nOldest =? -1 then oldest_of ids (nI + 1) chosen info n
        else
          match info !! n, info !! nOldest with
          | Some t, Some o => oldest_of ids (nI + 1) chosen info (if i_nTime t <? i_nTime o then n else nOldest)
          | _, _ => None
          end
      else oldest_of ids (nI + 1) chosen info nOldest
  end.

(** The first deletable entry; [None] when an entry has no record. *)
Fixpoint first_terrible (ids : list Z) (info : gmap Z CAddrInfo) : option (option (Z * CAddrInfo)) :=
  match ids with
  | [] => Some None
  | n :: ids =>
      match info !! n with
      | None => None
      | Some i => if IsTerrible nAdjustedTime i then Some (Some (n, i)) else first_terrible ids info
      end
  end.

(** Four random numbers. *)
Fixpoint draws (k : nat) (n : Z) (r : R) : list Z * R :=
  match k with
  | O => ([], r)
  | S k => let '(x, r) := GetRandInt n r in let '(xs, r) := draws k n r in (x :: xs, r)
  end.

Definition erase_new (nUBucket : nat) (nId : Z) (a : CAddrMan) : CAddrMan :=
  set_new (nNew a) (alter (fun s => s ∖ {[nId]}) nUBucket (vvNew a)) a.

Definition ShrinkNew (nUBucket : nat) (a : CAddrMan) (r : R) : option (Z * CAddrMan * R) :=
  match vvNew a !! nUBucket with
  | None => None
  | Some vNew =>
      match first_terrible (set_in_order vNew) (mapInfo a) with
      | None => None
      | Some (Some (n, info)) => (fun a => (0, erase_new nUBucket n a, r)) <$> drop_ref n info a
      | Some None =>
          let '(ns, r) := draws 4 (Z.of_nat (size vNew)) r in
          match oldest_of (set_in_order vNew) 0 ns (mapInfo a) (-1) with
          | None => None
          | Some nOldest =>
              match mapInfo a !! nOldest with
              | None => None
              | Some info => (fun a => (1, erase_new nUBucket nOldest a, r)) <$> drop_ref nOldest info a
              end
          end
      end
  end.

(** ** MakeTried *)

(** Take the entry out of every new bucket; how many had it. *)
Definition remove_all_new (nId : Z) (v : list (gset Z)) : list (gset Z) * Z :=
  (map (fun s => s ∖ {[nId]}) v, Z.of_nat (length (filter (fun s => nId ∈ s) v))).

Definition MakeTried (nId : Z) (nOrigin : nat) (a : CAddrMan) (r : R) : option (CAddrMan * R) :=
  match vvNew a !! nOrigin, mapInfo a !! nId with
  | Some vOrigin, Some info =>
      if negb (bool_decide (nId ∈ vOrigin)) then None
      else
        let '(vvNew', nRemoved) := remove_all_new nId (vvNew a) in
        let info := set_nRefCount (i_nRefCount info - nRemoved) info in
        let a := set_new (nNew a - 1) vvNew' (on_info nId (fun _ => info) a) in
        if negb (i_nRefCount info =? 0) then None
        else
          let nKBucket := Z.to_nat (GetTriedBucket (nKey a) (i_service info)) in
          match vvTried a !! nKBucket with
          | None => None
          | Some vTried =>
              if (length vTried <? ADDRMAN_TRIED_BUCKET_SIZE)%nat then
                Some (on_info nId (set_fInTried true) (set_tried (nTried a + 1) (<[nKBucket := vTried ++ [nId]]> (vvTried a)) a), r)
              else
                match SelectTried nKBucket a r with
                | None => None
                | Some (nPos, a, r) =>
                    match vvTried a !! nKBucket ≫= (fun v => v !! Z.to_nat nPos) with
                    | None => None
                    | Some nOld =>
                        match mapInfo a !! nOld with
                        | None => None
                        | Some infoOld =>
                            let nUBucket := Z.to_nat (GetNewBucket (nKey a) (i_service infoOld) (i_source infoOld)) in
                            match vvNew a !! nUBucket with
                            | None => None
                            | Some vNew =>
                                let a := on_info nOld (fun i => set_nRefCount 1 (set_fInTried false i)) a in
                                let target := if (size vNew <? ADDRMAN_NEW_BUCKET_SIZE)%nat then nUBucket else nOrigin in
                                let a := set_new (nNew a + 1) (alter (fun s => {[nOld]} ∪ s) target (vvNew a)) a in
                                let a := set_tried (nTried a) (alter (<[Z.to_nat nPos := nId]>) nKBucket (vvTried a)) a in
                                Some (on_info nId (set_fInTried true) a, r)
                            end
                        end
                    end
                end
          end
  | _, _ => None
  end.

(** ** Operations *)

(** [for n: nB = (n+nRnd) % vvNew.size()], the first bucket with the entry *)
Fixpoint find_bucket (ns : list nat) (nRnd : Z) (nId : Z) (v : list (gset Z)) : option nat :=
  match ns with
  | [] => None
  | n :: ns =>
      let nB := Z.to_nat ((Z.of_nat n + nRnd) mod Z.of_nat (length v)) in
      match v !! nB with
      | Some s => if bool_decide (nId ∈ s) then Some nB else find_bucket ns nRnd nId v
      | None => find_bucket ns nRnd nId v
      end
  end.

Definition Good_ (addr : CService) (nTime : Z) (a : CAddrMan) (r : R) : option (CAddrMan * R) :=
  match Find (s_ip addr) a with
  | None => Some (a, r)
  | Some (nId, info) =>
      if decide (i_service info = addr) then
        let a := on_info nId (set_good nTime) a in
        if i_fInTried info then Some (a, r)
        else
          let '(nRnd, r) := GetRandInt (Z.of_nat (length (vvNew a))) r in
          match find_bucket (seq 0 (length (vvNew a))) nRnd nId (vvNew a) with
          | None => Some (a, r)
          | Some nUBucket => MakeTried nId nUBucket a r
          end
      else Some (a, r)
  end.

(** The update of a known entry: the entry, and whether to go on. *)
Definition update_known (addr : CAddress) (nTimePenalty : Z) (info : CAddrInfo) (r : R) : CAddrInfo * bool * R :=
  let fCurrentlyOnline := nAdjustedTime - a_nTime addr <? 24 * 60 * 60 in
  let nUpdateInterval := if fCurrentlyOnline then 60 * 60 else 24 * 60 * 60 in
  let info :=
    if (negb (a_nTime addr =? 0) && ((i_nTime info =? 0) || (i_nTime info <? a_nTime addr - nUpdateInterval - nTimePenalty)))%bool
    then set_nTime (Z.max 0 (a_nTime addr - nTimePenalty)) info else info in
  let info := set_nServices (Z.lor (i_nServices info) (a_nServices addr)) info in
  if ((a_nTime addr =? 0) || (negb (i_nTime info =? 0) && (a_nTime addr <=? i_nTime info)))%bool then (info, false, r)
  else if i_fInTried info then (info, false, r)
  else if i_nRefCount info =? ADDRMAN_NEW_BUCKETS_PER_ADDRESS then (info, false, r)
  else
    let nFactor := Nat.iter (Z.to_nat (i_nRefCount info)) (fun f => s32 (f * 2)) 1 in
    if 1 <? nFactor then
      let '(x, r) := GetRandInt nFactor r in (info, x =? 0, r)
    else (info, true, r).

(** Put the entry into its new bucket. *)
Definition put_new (nId : Z) (source : CNetAddr) (a : CAddrMan) (r : R) : option (CAddrMan * R) :=
  match mapInfo a !! nId with
  | None => None
  | Some info =>
      let nUBucket := Z.to_nat (GetNewBucket (nKey a) (i_service info) source) in
      match vvNew a !! nUBucket with
      | None => None
      | Some vNew =>
          if bool_decide (nId ∈ vNew) then Some (a, r)
          else
            let a := on_info nId (fun i => set_nRefCount (i_nRefCount i + 1) i) a in
            let shrunk := if (size vNew =? ADDRMAN_NEW_BUCKET_SIZE)%nat then ShrinkNew nUBucket a r else Some (0, a, r) in
            match shrunk with
            | None => None
            | Some (_, a, r) => Some (set_new (nNew a) (alter (fun s => {[nId]} ∪ s) nUBucket (vvNew a)) a, r)
            end
      end
  end.

Definition Add_ (addr : CAddress) (source : CNetAddr) (nTimePenalty : Z) (a : CAddrMan) (r : R) : option (bool * CAddrMan * R) :=
  if negb (IsRoutable (s_ip (a_service addr))) then Some (false, a, r)
  else
    match Find (s_ip (a_service addr)) a with
    | Some (nId, info) =>
        let '(info, fGoOn, r) := update_known addr nTimePenalty info r in
        let a := on_info nId (fun _ => info) a in
        if negb fGoOn then Some (false, a, r)
        else (fun p => (false, fst p, snd p)) <$> put_new nId source a r
    | None =>
        let '(nId, a) := Create addr source a in
        let a := on_info nId (fun i => set_nTime (Z.max 0 (i_nTime i - nTimePenalty)) i) a in
        let a := set_new (nNew a + 1) (vvNew a) a in
        (fun p => (true, fst p, snd p)) <$> put_new nId source a r
    end.

Definition Attempt_ (addr : CService) (nTime : Z) (a : CAddrMan) : CAddrMan :=
  match Find (s_ip addr) a with
  | None => a
  | Some (nId, info) => if decide (i_service info = addr) then on_info nId (set_tried_at nTime) a else a
  end.

Definition Connected_ (addr : CService) (nTime : Z) (a : CAddrMan) : CAddrMan :=
  match Find (s_ip addr) a with
  | None => a
  | Some (nId, info) =>
      if decide (i_service info = addr) then
        if 20 * 60 <? nTime - i_nTime info then on_info nId (set_nTime nTime) a else a
      else a
  end.

(** The shuffle of the first [nNodes] of [vRandom]. *)
Fixpoint get_addr (fuel n : nat) (a : CAddrMan) (r : R) (vAddr : list CAddress) : option (list CAddress * CAddrMan * R) :=
  match fuel with
  | O => Some (vAddr, a, r)
  | S fuel =>
      let '(x, r) := GetRandInt (Z.of_nat (length (vRandom a)) - Z.of_nat n) r in
      match SwapRandom (Z.of_nat n) (x + Z.of_nat n) a with
      | None => None
      | Some a =>
          match vRandom a !! n ≫= (fun id => mapInfo a !! id) with
          | None => None
          | Some info => get_addr fuel (S n) a r (vAddr ++ [info_address info])
          end
      end
  end.

Definition GetAddr_ (a : CAddrMan) (r : R) : option (list CAddress * CAddrMan * R) :=
  let nNodes := ADDRMAN_GETADDR_MAX_PCT * Z.of_nat (length (vRandom a)) / 100 in
  let nNodes := if ADDRMAN_GETADDR_MAX <? nNodes then ADDRMAN_GETADDR_MAX else nNodes in
  get_addr (Z.to_nat nNodes) 0 a r [].
End Manager.

(** ** The consistency check *)

(** One entry of [mapInfo] against [mapAddr] (whose [operator[]] gives 0 for a
    missing key) and [vRandom]; 0 or the error. *)
Definition check_entry (a : CAddrMan) (n : Z) (i : CAddrInfo) : Z :=
  if (i_fInTried i && (i_nLastSuccess i =? 0))%bool then -1
  else if (i_fInTried i && negb (i_nRefCount i =? 0))%bool then -2
  else if (negb (i_fInTried i) && ((i_nRefCount i <? 0) || (ADDRMAN_NEW_BUCKETS_PER_ADDRESS <? i_nRefCount i)))%bool then -3
  else if (negb (i_fInTried i) && (i_nRefCount i =? 0))%bool then -4
  else if negb (default 0 (mapAddr a !! i_ip i) =? n) then -5
  else if ((i_nRandomPos i <? 0) || negb (bool_decide (vRandom a !! Z.to_nat (i_nRandomPos i) = Some n)))%bool then -14
  else if i_nLastTry i <? 0 then -6
  else if i_nLastSuccess i <? 0 then -8
  else 0.

(** The loop over [mapInfo]. *)
Fixpoint check_entries (a : CAddrMan) (l : list (Z * CAddrInfo)) : Z :=
  match l with
  | [] => 0
  | (n, i) :: l => let e := check_entry a n i in if e =? 0 then check_entries a l else e
  end.

(** The loops over the buckets: the tried ids left, and the new ids with the
    references left. *)
Fixpoint check_tried (ids : list Z) (setTried : gset Z) : Z * gset Z :=
  match ids with
  | [] => (0, setTried)
  | n :: ids => if bool_decide (n ∈ setTried) then check_tried ids (setTried ∖ {[n]}) else (-11, setTried)
  end.
Fixpoint check_new (ids : list Z) (mapNew : gmap Z Z) : Z * gmap Z Z :=
  match ids with
  | [] => (0, mapNew)
  | n :: ids =>
      match mapNew !! n with
      | None => (-12, mapNew)
      | Some c => check_new ids (if c - 1 =? 0 then delete n mapNew else <[n := c - 1]> mapNew)
      end
  end.

Definition Check_ (a : CAddrMan) : Z :=
  let infos := map_to_list (mapInfo a) in
  let setTried : gset Z := dom (filter (fun e => i_fInTried (snd e) = true) (mapInfo a)) in
  let mapNew := i_nRefCount <$> filter (fun e => i_fInTried (snd e) = false) (mapInfo a) in
  if negb (Z.of_nat (length (vRandom a)) =? nTried a + nNew a) then -7
  else
    let e := check_entries a infos in
    if negb (e =? 0) then e
    else if negb (Z.of_nat (size setTried) =? nTried a) then -9
    else if negb (Z.of_nat (size mapNew) =? nNew a) then -10
    else
      let '(e, setTried) := check_tried (concat (vvTried a)) setTried in
      if negb (e =? 0) then e
      else
        let '(e, mapNew) := check_new (concat (map set_in_order (vvNew a))) mapNew in
        if negb (e =? 0) then e
        else if negb (size setTried =? 0)%nat then -13
        else if negb (size mapNew =? 0)%nat then -15
        else 0.
