(* ===== verification/AddrManFacts.v ===== *)
(** * Theorems on the address manager

    The indexes of [CAddrMan] stay consistent, no assertion fails, the code's own
    check always succeeds; an address that answered is in the tried table; the buckets
    an address range can reach are few. *)

From S2P Require Import Prelude Uint256 Serialize Tx NetAddr AddrMan.
From stdpp Require Import sorting.
#[local] Open Scope Z_scope.

(** ** Counting the buckets of an entry *)

Definition new_count (n : Z) (v : list (gset Z)) : nat := length (filter (fun s => n ∈ s) v).

Lemma new_count_cons n s v : new_count n (s :: v) = (if decide (n ∈ s) then S (new_count n v) else new_count n v).
Proof. unfold new_count. rewrite filter_cons. by case_decide. Qed.

(** Changing one bucket changes the count of the ids it gains or loses. *)
Lemma new_count_alter n f b v s : v !! b = Some s ->
  Z.of_nat (new_count n (alter f b v)) = Z.of_nat (new_count n v) + (if decide (n ∈ f s) then 1 else 0) - (if decide (n ∈ s) then 1 else 0).
Proof.
  revert b. induction v as [|t v IH]; intros b; [done|]. destruct b as [|b]; cbn [lookup list_lookup].
  - intros [= ->]. change (alter f 0%nat (s :: v)) with (f s :: v). rewrite !new_count_cons. repeat case_decide; lia.
  - intros Hb. change (alter f (S b) (t :: v)) with (t :: alter f b v). rewrite !new_count_cons. specialize (IH b Hb). repeat case_decide; lia.
Qed.

Lemma new_count_all n m v : new_count m (map (fun s => s ∖ {[n]}) v) = if decide (m = n) then O else new_count m v.
Proof.
  induction v as [|s v IH]; cbn [map]; [by case_decide|]. rewrite !new_count_cons, IH. repeat case_decide; subst; set_solver.
Qed.

Lemma new_count_0 n v : new_count n v = O <-> forall s, s ∈ v -> n ∉ s.
Proof.
  unfold new_count. rewrite length_zero_iff_nil. split.
  - intros E s Hs Hn. assert (s ∈ filter (fun s => n ∈ s) v) as H by (by apply list_elem_of_filter). rewrite E in H. by apply elem_of_nil in H.
  - intros H. destruct (filter (fun s => n ∈ s) v) as [|s l] eqn:E; [done|].
    assert (s ∈ filter (fun s => n ∈ s) v) as [Hn Hs]%list_elem_of_filter by (rewrite E; by left). by destruct (H s).
Qed.

(** ** The invariant *)

(** [d] is the entry whose next bucket is counted already, if there is one. *)
Record am_inv (d : option Z) (a : CAddrMan) : Prop := {
  v_ids : forall n i, mapInfo a !! n = Some i -> 0 <= n < nIdCount a;
  v_addr : forall x n, mapAddr a !! x = Some n <-> exists i, mapInfo a !! n = Some i /\ i_ip i = x;
  v_pos : forall n i, mapInfo a !! n = Some i -> 0 <= i_nRandomPos i /\ vRandom a !! Z.to_nat (i_nRandomPos i) = Some n;
  v_rand : forall p n, vRandom a !! p = Some n -> exists i, mapInfo a !! n = Some i /\ i_nRandomPos i = Z.of_nat p;
  v_size : length (vRandom a) = size (mapInfo a);
  v_refs : forall n i, mapInfo a !! n = Some i -> i_nRefCount i = Z.of_nat (new_count n (vvNew a)) + (if decide (d = Some n) then 1 else 0);
  v_state : forall n i, mapInfo a !! n = Some i -> (if i_fInTried i then i_nRefCount i = 0 /\ i_nLastSuccess i <> 0 else 1 <= i_nRefCount i <= 4) /\
    0 <= i_nLastTry i /\ 0 <= i_nLastSuccess i;
  v_new : forall s n, s ∈ vvNew a -> n ∈ s -> is_Some (mapInfo a !! n);
  v_tried : forall n, n ∈ concat (vvTried a) <-> exists i, mapInfo a !! n = Some i /\ i_fInTried i = true;
  v_once : NoDup (concat (vvTried a));
  v_counts : nTried a = Z.of_nat (length (concat (vvTried a))) /\ nNew a + nTried a = Z.of_nat (length (vRandom a));
  v_shape : length (vvNew a) = 256%nat /\ length (vvTried a) = 64%nat;
  v_sizes : Forall (fun s : gset Z => (size s <= 64)%nat) (vvNew a) /\ Forall (fun l : list Z => (length l <= 64)%nat) (vvTried a);
}.
Abbreviation am_ok := (am_inv None).

Lemma make_ok key : am_ok (CAddrMan_make key).
Proof.
  assert (forall n (k : nat), n ∉ concat (replicate k ([] : list Z))) as Hnil.
  { intros n k. induction k as [|k IH]; cbn; [apply not_elem_of_nil|done]. }
  assert (forall k : nat, concat (replicate k ([] : list Z)) = []) as Enil by (induction k; done).
  split; cbn [CAddrMan_make mapInfo mapAddr vRandom vvNew vvTried nIdCount nTried nNew].
  - intros n i. by rewrite lookup_empty.
  - intros x n. rewrite lookup_empty. split; [done|]. intros (i & H & _). by rewrite lookup_empty in H.
  - intros n i. by rewrite lookup_empty.
  - done.
  - by rewrite map_size_empty.
  - intros n i. by rewrite lookup_empty.
  - intros n i. by rewrite lookup_empty.
  - intros s n Hs. apply elem_of_replicate in Hs as [-> _]. set_solver.
  - intros n. split; [by intros ?%Hnil|]. intros (i & H & _). by rewrite lookup_empty in H.
  - rewrite Enil. constructor.
  - by rewrite Enil.
  - by rewrite !length_replicate.
  - split; apply Forall_replicate; [rewrite size_empty|cbn]; lia.
Qed.

Ltac am_fields := cbn [on_info set_info set_random set_addr set_new set_tried erase_new nKey nIdCount mapInfo mapAddr vRandom nTried vvTried nNew vvNew].

Lemma alter_size {A} (f : A -> A) n (m : gmap Z A) : size (alter f n m) = size m.
Proof. by rewrite <- !(size_dom (D := gset Z)), dom_alter_L. Qed.

(** [j] can stand for [i]: the buckets and [mapAddr] see no difference, and the times
    stay in order. *)
Record stands_for (i j : CAddrInfo) : Prop := {
  sf_ip : i_ip j = i_ip i; sf_ref : i_nRefCount j = i_nRefCount i; sf_tried : i_fInTried j = i_fInTried i;
  sf_times : 0 <= i_nLastTry i -> 0 <= i_nLastSuccess i -> 0 <= i_nLastTry j /\ 0 <= i_nLastSuccess j;
  sf_success : i_nLastSuccess i <> 0 -> i_nLastSuccess j <> 0;
}.

#[local] Instance stands_for_refl : Reflexive stands_for.
Proof. by split. Qed.

(** New records and a new order of [vRandom] under the same keys. *)
Lemma remap_inv d a m v : am_inv d a -> (forall k, option_Forall2 stands_for (mapInfo a !! k) (m !! k)) ->
  (forall n i, m !! n = Some i -> 0 <= i_nRandomPos i /\ v !! Z.to_nat (i_nRandomPos i) = Some n) ->
  (forall p n, v !! p = Some n -> exists i, m !! n = Some i /\ i_nRandomPos i = Z.of_nat p) -> length v = length (vRandom a) ->
  am_inv d (set_random v (set_info m a)).
Proof.
  intros [H1 H2 H3 H4 H5 H6 H7 H8 H9 H10 H11 H12 H13] Hm Hpos Hrand Hlen.
  assert (forall k j, m !! k = Some j -> exists i, mapInfo a !! k = Some i /\ stands_for i j) as Hget.
  { intros k j Hj. specialize (Hm k). rewrite Hj in Hm. inversion Hm; subst. eauto. }
  assert (forall k i, mapInfo a !! k = Some i -> exists j, m !! k = Some j /\ stands_for i j) as Hput.
  { intros k i Hi. specialize (Hm k). rewrite Hi in Hm. inversion Hm; subst. eauto. }
  split; am_fields; try done.
  - intros k j (i & Hi & _)%Hget. eauto.
  - intros x k. rewrite H2. split.
    + intros (i & Hi & <-). destruct (Hput k i Hi) as (j & Hj & []). eauto.
    + intros (j & (i & Hi & [])%Hget & <-). eauto.
  - rewrite Hlen, H5. rewrite <- !(size_dom (D := gset Z)). f_equal. apply set_eq. intros k. rewrite !elem_of_dom. split.
    + intros [i Hi]. destruct (Hput k i Hi) as (j & Hj & _). eauto.
    + intros [j Hj]. destruct (Hget k j Hj) as (i & Hi & _). eauto.
  - intros k j (i & Hi & [])%Hget. rewrite sf_ref0. eauto.
  - intros k j (i & Hi & [])%Hget. rewrite sf_ref0, sf_tried0. destruct (H7 k i Hi) as (Hst & Hlt & Hls). destruct (i_fInTried i); naive_solver.
  - intros s k Hs Hk. destruct (H8 s k Hs Hk) as [i Hi]. destruct (Hput k i Hi) as (j & Hj & _). eauto.
  - intros k. rewrite H9. split.
    + intros (i & Hi & <-). destruct (Hput k i Hi) as (j & Hj & []). eauto.
    + intros (j & (i & Hi & [])%Hget & <-). eauto.
  - by rewrite Hlen.
Qed.

(** An update of one record. *)
Lemma touch_inv d a n f : am_inv d a -> (forall i, mapInfo a !! n = Some i -> stands_for i (f i) /\ i_nRandomPos (f i) = i_nRandomPos i) ->
  am_inv d (on_info n f a).
Proof.
  intros Ha Hf. replace (on_info n f a) with (set_random (vRandom a) (set_info (alter f n (mapInfo a)) a)) by (by destruct a).
  pose proof (v_pos _ _ Ha) as H3. pose proof (v_rand _ _ Ha) as H4. apply remap_inv; [done|..|done].
  - intros k. destruct (decide (k = n)) as [->|Hne].
    + rewrite lookup_alter_eq. destruct (mapInfo a !! n) as [i|]; constructor. by destruct (Hf i eq_refl).
    + rewrite lookup_alter_ne by congruence. destruct (mapInfo a !! k); by constructor.
  - intros k j. rewrite lookup_alter_Some. intros [(-> & i & Hi & ->)|[_ Hj]]; [|eauto]. destruct (Hf i Hi) as [_ ->]. eauto.
  - intros p k (i & Hi & Ep)%H4. destruct (decide (k = n)) as [->|Hne]; [|exists i; by rewrite lookup_alter_ne by congruence].
    exists (f i). rewrite lookup_alter_eq, Hi. split; [done|]. destruct (Hf i Hi) as [_ ->]. done.
Qed.

(** ** SwapRandom *)

(** Only the order of [vRandom] differs. *)
Record moved (a b : CAddrMan) : Prop := {
  mv_key : nKey b = nKey a; mv_count : nIdCount b = nIdCount a; mv_addr : mapAddr b = mapAddr a;
  mv_tried : nTried b = nTried a /\ vvTried b = vvTried a; mv_new : nNew b = nNew a /\ vvNew b = vvNew a;
  mv_len : length (vRandom b) = length (vRandom a);
  mv_info : forall k, set_nRandomPos 0 <$> mapInfo b !! k = set_nRandomPos 0 <$> mapInfo a !! k;
}.

Lemma swap_spec d a p1 p2 : am_inv d a -> 0 <= p1 < Z.of_nat (length (vRandom a)) -> 0 <= p2 < Z.of_nat (length (vRandom a)) ->
  exists b, SwapRandom p1 p2 a = Some b /\ am_inv d b /\ moved a b /\ vRandom b !! Z.to_nat p2 = vRandom a !! Z.to_nat p1 /\
    (forall q, q <> Z.to_nat p1 -> q <> Z.to_nat p2 -> vRandom b !! q = vRandom a !! q) /\ vRandom b !! Z.to_nat p1 = vRandom a !! Z.to_nat p2.
Proof.
  intros Ha Hp1 Hp2. unfold SwapRandom. destruct (Z.eqb_spec p1 p2) as [->|Hne]; [exists a; conjs; try done; by split|].
  rewrite (proj2 (Z.ltb_ge p1 0)), (proj2 (Z.ltb_ge p2 0)) by lia. cbn [orb].
  destruct (lookup_lt_is_Some_2 (vRandom a) (Z.to_nat p1) ltac:(lia)) as [n1 E1].
  destruct (lookup_lt_is_Some_2 (vRandom a) (Z.to_nat p2) ltac:(lia)) as [n2 E2]. rewrite E1, E2.
  destruct (v_rand _ _ Ha _ _ E1) as (i1 & Hi1 & P1), (v_rand _ _ Ha _ _ E2) as (i2 & Hi2 & P2). rewrite Hi1, Hi2.
  assert (n1 <> n2) as Hn by (intros ->; rewrite Hi1 in Hi2; injection Hi2 as ->; lia).
  eexists. split; [reflexivity|]. am_fields.
  set (m := alter (set_nRandomPos p1) n2 (alter (set_nRandomPos p2) n1 (mapInfo a))).
  set (v := <[Z.to_nat p2 := n1]> (<[Z.to_nat p1 := n2]> (vRandom a))).
  assert (m !! n1 = Some (set_nRandomPos p2 i1)) as M1 by (unfold m; rewrite lookup_alter_ne, lookup_alter_eq, Hi1 by congruence; done).
  assert (m !! n2 = Some (set_nRandomPos p1 i2)) as M2 by (unfold m; rewrite lookup_alter_eq, lookup_alter_ne, Hi2 by congruence; done).
  assert (forall k, k <> n1 -> k <> n2 -> m !! k = mapInfo a !! k) as M3 by (intros k ? ?; unfold m; by rewrite !lookup_alter_ne by congruence).
  assert (v !! Z.to_nat p2 = Some n1) as V2 by (unfold v; rewrite list_lookup_insert_eq; [done|rewrite length_insert; lia]).
  assert (v !! Z.to_nat p1 = Some n2) as V1 by (unfold v; rewrite list_lookup_insert_ne by lia; rewrite list_lookup_insert_eq by lia; done).
  assert (forall q, q <> Z.to_nat p1 -> q <> Z.to_nat p2 -> v !! q = vRandom a !! q) as V3 by (intros q ? ?; unfold v; by rewrite !list_lookup_insert_ne by lia).
  assert (length v = length (vRandom a)) as Vl by (unfold v; by rewrite !length_insert).
  conjs; [| |done|done|done].
  - apply (remap_inv d a m v Ha); [..|done].
    + intros k. destruct (decide (k = n1)) as [->|]; [rewrite M1, Hi1; by repeat constructor|].
      destruct (decide (k = n2)) as [->|]; [rewrite M2, Hi2; by repeat constructor|]. rewrite M3 by done. destruct (mapInfo a !! k); by constructor.
    + intros k i Hk. destruct (decide (k = n1)) as [->|]; [rewrite M1 in Hk; injection Hk as <-; cbn; split; [lia|done]|].
      destruct (decide (k = n2)) as [->|]; [rewrite M2 in Hk; injection Hk as <-; cbn; split; [lia|done]|]. rewrite M3 in Hk by done.
      destruct (v_pos _ _ Ha k i Hk) as [Hq Hv]. split; [done|]. rewrite V3; [done|intros E; rewrite E in Hv; congruence..].
    + intros q k Hq. destruct (decide (q = Z.to_nat p1)) as [->|]; [rewrite V1 in Hq; injection Hq as <-; exists (set_nRandomPos p1 i2); split; [done|cbn; lia]|].
      destruct (decide (q = Z.to_nat p2)) as [->|]; [rewrite V2 in Hq; injection Hq as <-; exists (set_nRandomPos p2 i1); split; [done|cbn; lia]|].
      rewrite V3 in Hq by done. destruct (v_rand _ _ Ha q k Hq) as (i & Hi & Ei). exists i. split; [|done].
      rewrite M3; [done|intros ->; rewrite Hi1 in Hi; injection Hi as ->; lia|intros ->; rewrite Hi2 in Hi; injection Hi as ->; lia].
  - split; am_fields; try done. fold m. intros k. destruct (decide (k = n1)) as [->|]; [by rewrite M1, Hi1|].
    destruct (decide (k = n2)) as [->|]; [by rewrite M2, Hi2|]. by rewrite M3.
Qed.

(** ** Changing the new buckets *)

Lemma alter_elem {A} (f : A -> A) b (v : list A) t : t ∈ alter f b v -> t ∈ v \/ exists s, v !! b = Some s /\ t = f s.
Proof.
  intros [k Hk]%list_elem_of_lookup. destruct (decide (k = b)) as [->|Hne].
  - rewrite list_lookup_alter_eq in Hk. destruct (v !! b) as [s|]; [|done]. injection Hk as <-. right. eauto.
  - rewrite list_lookup_alter_ne in Hk by congruence. left. by eapply list_elem_of_lookup_2.
Qed.

Lemma Forall_alter' {A} (P : A -> Prop) f b (v : list A) s : Forall P v -> v !! b = Some s -> P (f s) -> Forall P (alter f b v).
Proof. rewrite !Forall_forall. intros H Hb Hf t [Ht|(s' & Hs' & ->)]%alter_elem; [by apply H|]. congruence. Qed.

(** One bucket gains or loses one entry, whose count changes with it. *)
Lemma bucket_inv d d' a n f g b s i : am_inv d a -> vvNew a !! b = Some s -> mapInfo a !! n = Some i ->
  (forall k, k <> n -> k ∈ g s <-> k ∈ s) -> (size (g s) <= 64)%nat ->
  i_ip (f i) = i_ip i -> i_nRandomPos (f i) = i_nRandomPos i -> i_fInTried i = false -> i_fInTried (f i) = false ->
  i_nLastTry (f i) = i_nLastTry i -> i_nLastSuccess (f i) = i_nLastSuccess i -> 1 <= i_nRefCount (f i) <= 4 ->
  i_nRefCount (f i) = Z.of_nat (new_count n (alter g b (vvNew a))) + (if decide (d' = Some n) then 1 else 0) ->
  (forall k, k <> n -> d' = Some k <-> d = Some k) ->
  am_inv d' (set_new (nNew a) (alter g b (vvNew a)) (on_info n f a)).
Proof.
  intros [H1 H2 H3 H4 H5 H6 H7 H8 H9 H10 H11 H12 [H13 H14]] Hb Hn Hg Hsz E1 E2 E3 E3' E4 E5 Hr Hcnt Hd.
  assert (forall k j, alter f n (mapInfo a) !! k = Some j <-> (k = n /\ j = f i) \/ (k <> n /\ mapInfo a !! k = Some j)) as Hget.
  { intros k j. rewrite lookup_alter_Some. split; [intros [(-> & x & Hx & ->)|[? ?]]; [left|right; done]|]. { split; congruence. }
    intros [[-> ->]|[? ?]]; [left|right; done]. split; [done|]. exists i. done. }
  split; am_fields.
  - intros k j [[-> _]|[_ Hj]]%Hget; eauto.
  - intros x k. rewrite H2. split.
    + intros (j & Hj & Ex). destruct (decide (k = n)) as [->|Hne]; [exists (f i)|exists j]; rewrite Hget; split; auto; congruence.
    + intros (j & [[-> ->]|[_ Hj]]%Hget & Ex); [exists i|exists j]; split; congruence.
  - intros k j [[-> ->]|[_ Hj]]%Hget; [rewrite E2|]; eauto.
  - intros p k (j & Hj & Ep)%H4. destruct (decide (k = n)) as [->|Hne]; [exists (f i)|exists j]; rewrite Hget; split; auto; congruence.
  - by rewrite alter_size.
  - intros k j [[-> ->]|[Hne Hj]]%Hget; [done|]. rewrite (H6 k j Hj). pose proof (new_count_alter k g b _ s Hb) as Hc. specialize (Hg k Hne). specialize (Hd k Hne).
    destruct (decide (k ∈ g s)), (decide (k ∈ s)); try tauto; repeat case_decide; try tauto; lia.
  - intros k j [[-> ->]|[_ Hj]]%Hget; [|eauto]. rewrite E3', E4, E5. split; [done|]. apply (H7 n i Hn).
  - intros t k Ht Hk. assert (is_Some (mapInfo a !! k)) as [j Hj].
    { apply alter_elem in Ht as [Ht|(s' & Hs' & ->)]; [by apply (H8 t)|]. assert (s' = s) as -> by congruence. destruct (decide (k = n)) as [->|Hne]; [eauto|].
      apply (H8 s); [by eapply list_elem_of_lookup_2|by apply Hg]. }
    destruct (decide (k = n)) as [->|Hne]; [exists (f i)|exists j]; rewrite Hget; auto.
  - intros k. rewrite H9. split.
    + intros (j & Hj & Ex). destruct (decide (k = n)) as [->|Hne]; [congruence|]. exists j. rewrite Hget. auto.
    + intros (j & [[-> ->]|[_ Hj]]%Hget & Ex); [congruence|]. eauto.
  - done.
  - done.
  - by rewrite length_alter.
  - split; [|done]. by eapply Forall_alter'.
Qed.

(** The last entry of [vRandom] goes, with its only bucket. *)
Lemma remove_inv d a n i b s : am_inv d a -> mapInfo a !! n = Some i -> i_fInTried i = false -> i_nRefCount i = 1 -> d <> Some n ->
  vvNew a !! b = Some s -> n ∈ s -> vRandom a !! (length (vRandom a) - 1)%nat = Some n ->
  am_inv d (mkMan (nKey a) (nIdCount a) (delete n (mapInfo a)) (delete (i_ip i) (mapAddr a)) (take (length (vRandom a) - 1) (vRandom a))
              (nTried a) (vvTried a) (nNew a - 1) (alter (fun s => s ∖ {[n]}) b (vvNew a))).
Proof.
  intros [H1 H2 H3 H4 H5 H6 H7 H8 H9 H10 [H11 H11'] H12 [H13 H14]] Hn Ht Hr Hd Hb Hin Hlast.
  pose proof (new_count_alter n (fun s => s ∖ {[n]}) b _ s Hb) as Hc. rewrite decide_False, decide_True in Hc by (done || (clear; set_solver)).
  assert (new_count n (alter (fun s => s ∖ {[n]}) b (vvNew a)) = O) as Hc0.
  { rewrite (H6 n i Hn), decide_False in Hr by done. lia. }
  assert (length (vRandom a) <> O) as Hlen by (intros E; rewrite E in Hlast; apply lookup_lt_Some in Hlast; lia).
  destruct (H4 _ _ Hlast) as (i' & Hi' & Hpos). assert (i' = i) as -> by congruence.
  assert (forall k j, delete n (mapInfo a) !! k = Some j <-> k <> n /\ mapInfo a !! k = Some j) as Hget.
  { intros k j. rewrite lookup_delete_Some. naive_solver. }
  split; cbn [nIdCount mapInfo mapAddr vRandom nTried vvTried nNew vvNew].
  - intros k j [_ Hj]%Hget. eauto.
  - intros x k. rewrite lookup_delete_Some, H2. split.
    + intros [Hx (j & Hj & Ej)]. exists j. rewrite Hget. split; [|done]. split; [|done]. intros ->. congruence.
    + intros (j & [Hne Hj]%Hget & Ej). split; [|eauto]. intros Ex. apply Hne.
      assert (mapAddr a !! x = Some k) as Hk by (apply H2; eauto). assert (mapAddr a !! x = Some n) as Hk' by (apply H2; eauto). congruence.
  - intros k j [Hne Hj]%Hget. destruct (H3 k j Hj) as [Hp Hv]. split; [done|]. rewrite lookup_take_lt; [done|].
    apply lookup_lt_Some in Hv as Hl. assert (Z.to_nat (i_nRandomPos j) <> (length (vRandom a) - 1)%nat); [|lia]. intros E. rewrite E in Hv. congruence.
  - intros p k Hp. apply lookup_take_Some in Hp as [Hp Hlt]. destruct (H4 p k Hp) as (j & Hj & Ej). exists j. rewrite Hget. split; [|done]. split; [|done].
    intros ->. assert (j = i) as -> by congruence. lia.
  - rewrite length_take, map_size_delete_Some by eauto. lia.
  - intros k j [Hne Hj]%Hget. rewrite (H6 k j Hj). pose proof (new_count_alter k (fun s => s ∖ {[n]}) b _ s Hb) as Hck.
    cbv beta in Hck. assert (k ∈ s ∖ {[n]} <-> k ∈ s) as Hks by (clear - Hne; set_solver).
    destruct (decide (k ∈ s ∖ {[n]})), (decide (k ∈ s)); try tauto; lia.
  - intros k j [_ Hj]%Hget. eauto.
  - intros t k Htt Hk. destruct (decide (k = n)) as [->|Hne]; [by destruct (proj1 (new_count_0 _ _) Hc0 t Htt)|].
    assert (is_Some (mapInfo a !! k)) as [j Hj]; [|exists j; by rewrite Hget].
    apply alter_elem in Htt as [Htt|(s' & Hs' & ->)]; [by apply (H8 t)|]. apply (H8 s'); [by eapply list_elem_of_lookup_2|clear - Hk; set_solver].
  - intros k. rewrite H9. split.
    + intros (j & Hj & Ex). exists j. rewrite Hget. split; [|done]. split; [|done]. intros ->. congruence.
    + intros (j & [_ Hj]%Hget & Ex). eauto.
  - done.
  - rewrite length_take. lia.
  - by rewrite length_alter.
  - split; [|done]. eapply Forall_alter'; [done|done|]. cbn. rewrite Forall_forall in H13. etrans; [apply subseteq_size; apply subseteq_difference_l; done|].
    apply H13. by eapply list_elem_of_lookup_2.
Qed.

Lemma alter_swap {A} (f g : A -> A) j k (m : gmap Z A) : (forall x, f (g x) = g (f x)) -> alter f j (alter g k m) = alter g k (alter f j m).
Proof.
  intros H. apply map_eq. intros l. destruct (decide (l = j)), (decide (l = k)); subst;
    repeat (rewrite lookup_alter_eq || rewrite lookup_alter_ne by congruence); try done. destruct (m !! k); cbn; by rewrite ?H.
Qed.

Lemma swap_commute n f p q a : (forall i v, f (set_nRandomPos v i) = set_nRandomPos v (f i)) ->
  SwapRandom p q (on_info n f a) = on_info n f <$> SwapRandom p q a.
Proof.
  intros Hf. unfold SwapRandom. am_fields. destruct (p =? q); [done|]. destruct (_ || _)%bool; [done|].
  destruct (vRandom a !! Z.to_nat p) as [n1|]; [|done]. destruct (vRandom a !! Z.to_nat q) as [n2|]; [|done].
  assert (forall k, is_Some (alter f n (mapInfo a) !! k) <-> is_Some (mapInfo a !! k)) as Hs.
  { intros k. destruct (decide (k = n)) as [->|]; [rewrite lookup_alter_eq; apply fmap_is_Some|by rewrite lookup_alter_ne by congruence]. }
  pose proof (Hs n1) as S1. pose proof (Hs n2) as S2.
  destruct (alter f n (mapInfo a) !! n1) as [x1|], (mapInfo a !! n1) as [y1|]; try (exfalso; destruct S1 as [S1 S1']; first [destruct S1; eauto; done | destruct S1'; eauto; done]); [|done].
  destruct (alter f n (mapInfo a) !! n2) as [x2|], (mapInfo a !! n2) as [y2|]; try (exfalso; destruct S2 as [S2 S2']; first [destruct S2; eauto; done | destruct S2'; eauto; done]); [|done].
  cbn [fmap option_fmap option_map]. f_equal. unfold on_info, set_info, set_random. cbn [nKey nIdCount mapInfo mapAddr vRandom nTried vvTried nNew vvNew]. f_equal.
  rewrite !(alter_swap f) by done. done.
Qed.

(** An entry in a new bucket was never tried. *)
Lemma in_new d a b s n i : am_inv d a -> vvNew a !! b = Some s -> n ∈ s -> mapInfo a !! n = Some i -> i_fInTried i = false /\ (d = Some n -> 2 <= i_nRefCount i).
Proof.
  intros Ha Hb Hin Hn. pose proof (v_refs _ _ Ha n i Hn) as Hr. destruct (v_state _ _ Ha n i Hn) as [Hst _].
  assert (new_count n (vvNew a) <> O) as Hc. { intros E. destruct (proj1 (new_count_0 _ _) E s); [by eapply list_elem_of_lookup_2|done]. }
  split; [destruct (i_fInTried i); [|done]; repeat case_decide; lia|]. intros ->. rewrite decide_True in Hr by done. lia.
Qed.

(** ** ShrinkNew *)

(** Dropping one reference and the bucket's entry. *)
Lemma drop_spec d a b s n i : am_inv d a -> vvNew a !! b = Some s -> n ∈ s -> mapInfo a !! n = Some i -> d <> Some n ->
  exists a', drop_ref n i a = Some a' /\ am_inv d (erase_new b n a') /\ vvNew a' = vvNew a /\ nKey a' = nKey a /\ nIdCount a' = nIdCount a /\
    forall k, k <> n -> set_nRandomPos 0 <$> mapInfo a' !! k = set_nRandomPos 0 <$> mapInfo a !! k.
Proof.
  intros Ha Hb Hin Hn Hd. destruct (in_new d a b s n i Ha Hb Hin Hn) as [Ht _]. pose proof (v_refs _ _ Ha n i Hn) as Hr. rewrite decide_False in Hr by done.
  destruct (v_state _ _ Ha n i Hn) as [Hst _]. rewrite Ht in Hst. pose proof (new_count_alter n (fun s => s ∖ {[n]}) b _ s Hb) as Hc.
  rewrite decide_False, decide_True in Hc by (done || (clear; set_solver)).
  assert (size s <= 64)%nat as Hsz. { destruct (v_sizes _ _ Ha) as [Hs _]. rewrite Forall_forall in Hs. apply Hs. by eapply list_elem_of_lookup_2. }
  unfold drop_ref. destruct (Z.eqb_spec (i_nRefCount i - 1) 0) as [E|Hne].
  - rewrite swap_commute by done. am_fields. destruct (v_pos _ _ Ha n i Hn) as [Hp Hv]. apply lookup_lt_Some in Hv as Hlt.
    destruct (swap_spec d a (i_nRandomPos i) (Z.of_nat (length (vRandom a)) - 1) Ha ltac:(lia) ltac:(lia)) as (a1 & -> & Ha1 & [M1 M2 M3 M4 M5 M6 M7] & Hlast & _ & _).
    cbn [fmap option_fmap option_map]. eexists. split; [reflexivity|]. rewrite Hv in Hlast.
    assert (exists i1, mapInfo a1 !! n = Some i1 /\ set_nRandomPos 0 i1 = set_nRandomPos 0 i) as (i1 & Hi1 & Ei).
    { specialize (M7 n). rewrite Hn in M7. destruct (mapInfo a1 !! n) as [i1|]; [|done]. exists i1. split; [done|]. cbn [fmap option_fmap option_map] in M7. congruence. }
    assert (i_service i1 = i_service i /\ i_fInTried i1 = i_fInTried i /\ i_nRefCount i1 = i_nRefCount i) as (E1 & E2 & E3) by (injection Ei; auto).
    unfold erase_new. am_fields. conjs.
    + replace (delete n (alter _ n (mapInfo a1))) with (delete n (mapInfo a1)).
      * rewrite <- E1. replace (Z.to_nat (Z.of_nat (length (vRandom a)) - 1)) with (length (vRandom a1) - 1)%nat in Hlast by lia.
        apply (remove_inv d a1 n i1 b s Ha1 Hi1); [congruence|lia|done|by rewrite (proj2 M5)|done|done].
      * apply map_eq. intros k. destruct (decide (k = n)) as [->|]; [by rewrite !lookup_delete_eq|by rewrite !lookup_delete_ne, lookup_alter_ne by congruence].
    + apply M5.
    + done.
    + done.
    + intros k Hk. rewrite lookup_delete_ne, lookup_alter_ne by congruence. apply M7.
  - eexists. split; [reflexivity|]. conjs; [|done..|intros k Hk; am_fields; by rewrite lookup_alter_ne by congruence].
    apply (bucket_inv d d a n _ (fun s => s ∖ {[n]}) b s i Ha Hb Hn); try done; cbn [set_nRefCount i_nRefCount].
    + intros k Hk. clear - Hk. set_solver.
    + etrans; [apply subseteq_size; apply subseteq_difference_l; done|done].
    + lia.
    + rewrite decide_False by done. lia.
Qed.

Lemma elem_set_in_order n s : n ∈ set_in_order s <-> n ∈ s.
Proof. unfold set_in_order. rewrite (merge_sort_Permutation Z.le), elem_of_elements. done. Qed.

Lemma length_set_in_order s : length (set_in_order s) = size s.
Proof. unfold set_in_order. by rewrite (merge_sort_Permutation Z.le). Qed.

Lemma first_terrible_spec now ids info : Forall (fun n => is_Some (info !! n)) ids ->
  match first_terrible now ids info with
  | None => False
  | Some None => True
  | Some (Some (n, i)) => (n ∈ ids) /\ info !! n = Some i
  end.
Proof.
  induction 1 as [|n ids [i Hi] _ IH]; cbn [first_terrible]; [done|]. rewrite Hi. destruct (IsTerrible now i); [split; [by left|done]|].
  destruct (first_terrible now ids info) as [[[m j]|]|]; [|done|done]. destruct IH. split; [by right|done].
Qed.

(** The search meets a chosen position, so it finds an entry. *)
Lemma oldest_of_spec info chosen ids : forall nI o, Forall (fun n => 0 <= n /\ is_Some (info !! n)) ids -> (o = -1 \/ is_Some (info !! o)) ->
  exists n, oldest_of ids nI chosen info o = Some n /\ (n ∈ ids \/ n = o) /\
    ((exists c, c ∈ chosen /\ nI <= c < nI + Z.of_nat (length ids)) -> n ∈ ids \/ (n = o /\ o <> -1)).
Proof.
  induction ids as [|m ids IH]; intros nI o HF Ho; cbn [oldest_of length].
  { exists o. split; [done|]. split; [by right|]. intros (c & _ & Hc). lia. }
  apply Forall_cons in HF as [[Hm [j Hj]] HF]. case_bool_decide as Hch.
  - assert (forall q, (q = m \/ q = o /\ o <> -1) -> is_Some (info !! q) -> q <> -1 -> exists n, oldest_of ids (nI + 1) chosen info q = Some n /\ (n ∈ m :: ids \/ n = o) /\
      ((exists c, c ∈ chosen /\ nI <= c < nI + Z.of_nat (S (length ids))) -> n ∈ m :: ids \/ (n = o /\ o <> -1))) as Hgo.
    { intros q Hq Hi Hq1. destruct (IH (nI + 1) q HF (or_intror Hi)) as (n & -> & Hn & _). exists n. split; [done|]. rewrite elem_of_cons. naive_solver. }
    destruct (Z.eqb_spec o (-1)) as [->|Ho1]; [apply Hgo; [by left|eauto|lia]|]. destruct Ho as [|[jo Hjo]]; [done|]. rewrite Hj, Hjo.
    destruct (_ <? _); apply Hgo; eauto; lia.
  - destruct (IH (nI + 1) o HF Ho) as (n & -> & Hn & Hc). exists n. split; [done|]. rewrite elem_of_cons. split; [naive_solver|].
    intros (c & Hcc & Hr). assert (c <> nI) by congruence. destruct Hc as [?|?]; [exists c; split; [done|lia]|auto|auto].
Qed.

Section Operations.
Context `{HD : Digests} {R : Type} {RD : Random R} {RDok : Random_ok RD} (now : Z).

Lemma draws_spec k n r : 0 < n -> length (fst (draws k n r)) = k /\ Forall (fun x => 0 <= x < n) (fst (draws k n r)).
Proof.
  intros Hn. revert r. induction k as [|k IH]; intros r; cbn [draws]; [by split; [|constructor]|].
  pose proof (rand_range n r Hn) as Hx. destruct (GetRandInt n r) as [x r1]. specialize (IH r1). destruct (draws k n r1) as [xs r2]. cbn in *.
  destruct IH. split; [lia|by constructor].
Qed.

Lemma ShrinkNew_spec d a b s r : am_inv d a -> vvNew a !! b = Some s -> (0 < size s)%nat -> (forall n, d = Some n -> n ∉ s) ->
  exists c a' r' n, ShrinkNew now b a r = Some (c, a', r') /\ am_inv d a' /\ nKey a' = nKey a /\ nIdCount a' = nIdCount a /\ (n ∈ s) /\
    vvNew a' = alter (fun s => s ∖ {[n]}) b (vvNew a) /\ forall k, k <> n -> set_nRandomPos 0 <$> mapInfo a' !! k = set_nRandomPos 0 <$> mapInfo a !! k.
Proof.
  intros Ha Hb Hsz Hd. unfold ShrinkNew. rewrite Hb.
  assert (Forall (fun n => 0 <= n /\ is_Some (mapInfo a !! n)) (set_in_order s)) as Hall.
  { apply Forall_forall. intros n Hn%elem_set_in_order. destruct (v_new _ _ Ha s n) as [i Hi]; [by eapply list_elem_of_lookup_2|done|].
    split; [by apply (v_ids _ _ Ha n i)|eauto]. }
  assert (forall (c : Z) (n : Z) i, (n ∈ s) -> mapInfo a !! n = Some i -> exists (c' : Z) a' (r' : R) n', (fun x => (c, erase_new b n x, r)) <$> drop_ref n i a = Some (c', a', r') /\
    am_inv d a' /\ nKey a' = nKey a /\ nIdCount a' = nIdCount a /\ (n' ∈ s) /\ vvNew a' = alter (fun s => s ∖ {[n']}) b (vvNew a) /\
    forall k, k <> n' -> set_nRandomPos 0 <$> mapInfo a' !! k = set_nRandomPos 0 <$> mapInfo a !! k) as Hdrop.
  { intros c n i Hn Hi. destruct (drop_spec d a b s n i Ha Hb Hn Hi) as (a1 & -> & Ha1 & Ev & Ek & Ec & Hm); [intros Ed; by apply (Hd n)|].
    eexists c, _, r, n. split; [reflexivity|]. conjs; [done|done|done|done|am_fields; by rewrite Ev|exact Hm]. }
  pose proof (first_terrible_spec now (set_in_order s) (mapInfo a)) as Hft. destruct (first_terrible now (set_in_order s) (mapInfo a)) as [[[n i]|]|].
  - destruct Hft as [Hn Hi]; [eapply Forall_impl; [exact Hall|]; naive_solver|]. apply (Hdrop 0 n i); [by apply elem_set_in_order|done].
  - assert (0 < Z.of_nat (size s)) as Hpos by lia. pose proof (draws_spec 4 (Z.of_nat (size s)) r Hpos) as [Hl4 Hr4]. destruct (draws 4 (Z.of_nat (size s)) r) as [ns r1] eqn:Er. cbn [fst] in *.
    destruct ns as [|c ns]; [done|]. apply Forall_cons in Hr4 as [Hc _].
    destruct (oldest_of_spec (mapInfo a) (c :: ns) (set_in_order s) 0 (-1) Hall) as (n & -> & _ & Hn); [by left|].
    destruct Hn as [Hn|[_ ?]]; [exists c; rewrite length_set_in_order; split; [by left|lia]| |done]. apply elem_set_in_order in Hn.
    destruct (v_new _ _ Ha s n) as [i Hi]; [by eapply list_elem_of_lookup_2|done|]. rewrite Hi.
    destruct (Hdrop 1 n i Hn Hi) as (c' & a' & r' & n' & E & H'). destruct (drop_ref n i a) as [a1|]; [|done]. injection E as <- <- <-.
    eexists 1, _, r1, n'. split; [reflexivity|]. done.
  - exfalso. apply Hft. eapply Forall_impl; [exact Hall|]. naive_solver.
Qed.

(** ** Add_ *)

Lemma on_info_id n a : on_info n (fun i => i) a = a.
Proof. destruct a. unfold on_info, set_info. cbn. f_equal. apply map_eq. intros k. destruct (decide (k = n)) as [->|]; [rewrite lookup_alter_eq; by destruct (_ !! n)|by rewrite lookup_alter_ne by congruence]. Qed.

Lemma GetNewBucket_range key x src : (Z.to_nat (GetNewBucket key x src) < 256)%nat.
Proof. unfold GetNewBucket, ADDRMAN_NEW_BUCKET_COUNT. pose proof (Z.mod_pos_bound (Get64 (Hash (enc bytevec_codec key ++ enc bytevec_codec (GetGroup src) ++ le_bytes 8 (Get64 (Hash (enc bytevec_codec key ++ enc bytevec_codec (GetGroup (s_ip x)) ++ enc bytevec_codec (GetGroup src))) 0 mod ADDRMAN_NEW_BUCKETS_PER_SOURCE_GROUP))) 0) 256 ltac:(lia)). cbv zeta. lia. Qed.

Lemma GetTriedBucket_range key x : (Z.to_nat (GetTriedBucket key x) < 64)%nat.
Proof. unfold GetTriedBucket, ADDRMAN_TRIED_BUCKET_COUNT. cbv zeta. match goal with |- (Z.to_nat (?x mod 64) < _)%nat => pose proof (Z.mod_pos_bound x 64 ltac:(lia)) end. lia. Qed.

Abbreviation inc_ref := (fun i : CAddrInfo => set_nRefCount (i_nRefCount i + 1) i).

Lemma same_but_pos (i j : CAddrInfo) : set_nRandomPos 0 i = set_nRandomPos 0 j -> j = set_nRandomPos (i_nRandomPos j) i.
Proof. destruct i, j. unfold set_nRandomPos. cbn. congruence. Qed.

(** The entry goes into its bucket; what was promised is paid. *)
Lemma pay_inv a n i b s : am_inv (Some n) a -> mapInfo a !! n = Some i -> i_fInTried i = false -> vvNew a !! b = Some s -> n ∉ s -> (size s < 64)%nat ->
  am_ok (set_new (nNew a) (alter (fun s => {[n]} ∪ s) b (vvNew a)) a).
Proof.
  intros Ha Hi Ht Hb Hn Hs. rewrite <- (on_info_id n a) at 3. pose proof (v_refs _ _ Ha n i Hi) as Hr. rewrite decide_True in Hr by done.
  pose proof (new_count_alter n (fun s => {[n]} ∪ s) b _ s Hb) as Hc. rewrite decide_True, decide_False in Hc by (done || (clear; set_solver)).
  destruct (v_state _ _ Ha n i Hi) as [Hst _]. rewrite Ht in Hst.
  apply (bucket_inv (Some n) None a n _ _ b s i Ha Hb Hi); try done.
  - intros k Hk. clear - Hk. set_solver.
  - rewrite size_union_alt, size_singleton. assert (size (s ∖ {[n]}) <= size s)%nat by (apply subseteq_size; clear; set_solver). lia.
  - rewrite decide_False by done. lia.
  - intros k Hk. split; [done|congruence].
Qed.

Lemma put_spec a n i src r : mapInfo a !! n = Some i -> i_fInTried i = false -> am_inv (Some n) (on_info n inc_ref a) ->
  (am_ok a \/ new_count n (vvNew a) = O) ->
  exists a' r' j, put_new now n src a r = Some (a', r') /\ am_ok a' /\ nIdCount a' = nIdCount a /\ nKey a' = nKey a /\
    mapInfo a' !! n = Some j /\ i_service j = i_service i /\ i_fInTried j = false.
Proof.
  intros Hi Ht Ha Hor. unfold put_new. rewrite Hi. set (b := Z.to_nat _). destruct (v_shape _ _ Ha) as [Hl _]. am_fields.
  destruct (lookup_lt_is_Some_2 (vvNew a) b) as [s Hs]; [am_fields; pose proof (GetNewBucket_range (nKey a) (i_service i) src); cbn in Hl; lia|]. rewrite Hs.
  case_bool_decide as Hin.
  - destruct Hor as [Hok|H0]; [by eauto 10|]. exfalso. apply (proj1 (new_count_0 _ _) H0 s); [by eapply list_elem_of_lookup_2|done].
  - set (a1 := on_info n inc_ref a) in *. assert (mapInfo a1 !! n = Some (inc_ref i)) as Hi1 by (unfold a1; am_fields; by rewrite lookup_alter_eq, Hi).
    assert (size s <= 64)%nat as Hsz. { destruct (v_sizes _ _ Ha) as [H _]. rewrite Forall_forall in H. apply H. by eapply list_elem_of_lookup_2. }
    unfold ADDRMAN_NEW_BUCKET_SIZE. destruct (Nat.eqb_spec (size s) 64) as [E|E].
    + destruct (ShrinkNew_spec (Some n) a1 b s r Ha Hs ltac:(lia)) as (c & a2 & r2 & m & -> & Ha2 & Ek & Ec & Hm & Ev & Hinfo); [congruence|].
      assert (n <> m) as Hnm by congruence. specialize (Hinfo n Hnm). rewrite Hi1 in Hinfo. destruct (mapInfo a2 !! n) as [j|] eqn:Ej; [|done].
      cbn [fmap option_fmap option_map] in Hinfo. assert (j = set_nRandomPos (i_nRandomPos j) (set_nRefCount (i_nRefCount i + 1) i)) as Hj by (apply same_but_pos; congruence).
      assert (vvNew a2 !! b = Some (s ∖ {[m]})) as Hb2 by (rewrite Ev, list_lookup_alter_eq; unfold a1; am_fields; by rewrite Hs).
      eexists _, r2, j. conjs; [reflexivity| |done..| |]; [|by rewrite Hj|by rewrite Hj].
      apply (pay_inv a2 n j b (s ∖ {[m]})); [done|done|by rewrite Hj|done|clear - Hin; set_solver|].
      rewrite size_difference, size_singleton by (clear - Hm; set_solver). lia.
    + eexists _, r, (inc_ref i). conjs; [reflexivity| |done..]. apply (pay_inv a1 n (inc_ref i) b s); [done|done|done|done|done|lia].
Qed.

Lemma inc_inv a n i : am_ok a -> mapInfo a !! n = Some i -> i_fInTried i = false -> i_nRefCount i <> 4 -> am_inv (Some n) (on_info n inc_ref a).
Proof.
  intros Ha Hi Ht Hr4. destruct (v_shape _ _ Ha) as [Hl _]. destruct (lookup_lt_is_Some_2 (vvNew a) 0%nat ltac:(lia)) as [s Hs].
  pose proof (v_refs _ _ Ha n i Hi) as Hr. rewrite decide_False in Hr by done. destruct (v_state _ _ Ha n i Hi) as [Hst _]. rewrite Ht in Hst.
  assert (alter (fun s => s) 0%nat (vvNew a) = vvNew a) as Eid by (destruct (vvNew a); done).
  pose proof (bucket_inv None (Some n) a n inc_ref (fun s => s) 0%nat s i Ha Hs Hi) as H. rewrite Eid in H. apply H; try done; cbn.
  - destruct (v_sizes _ _ Ha) as [Hz _]. rewrite Forall_forall in Hz. apply Hz. by eapply list_elem_of_lookup_2.
  - lia.
  - rewrite decide_True by done. lia.
  - intros k Hk. split; [congruence|done].
Qed.

(** A new entry, counted and with its first bucket promised. *)
Lemma create_inv a n i : am_ok a -> n = nIdCount a -> 0 <= nIdCount a -> mapAddr a !! i_ip i = None -> i_nRefCount i = 1 -> i_fInTried i = false ->
  i_nLastTry i = 0 -> i_nLastSuccess i = 0 -> i_nRandomPos i = Z.of_nat (length (vRandom a)) ->
  am_inv (Some n) (mkMan (nKey a) (nIdCount a + 1) (<[n := i]> (mapInfo a)) (<[i_ip i := n]> (mapAddr a)) (vRandom a ++ [n])
                     (nTried a) (vvTried a) (nNew a + 1) (vvNew a)).
Proof.
  intros [H1 H2 H3 H4 H5 H6 H7 H8 H9 H10 [H11 H11'] H12 H13] En H0 Hnew Er Et El Es Ep.
  assert (mapInfo a !! n = None) as Hfresh. { destruct (mapInfo a !! n) as [j|] eqn:E; [|done]. apply H1 in E. lia. }
  assert (new_count n (vvNew a) = O) as Hc. { apply new_count_0. intros s Hs Hin. destruct (H8 s n Hs Hin). congruence. }
  assert (forall k j, <[n := i]> (mapInfo a) !! k = Some j <-> (k = n /\ j = i) \/ (k <> n /\ mapInfo a !! k = Some j)) as Hget.
  { intros k j. rewrite lookup_insert_Some. naive_solver. }
  split; cbn [nIdCount mapInfo mapAddr vRandom nTried vvTried nNew vvNew].
  - intros k j [[-> _]|[_ Hj]]%Hget; [lia|]. apply H1 in Hj. lia.
  - intros x k. rewrite lookup_insert_Some, H2. split.
    + intros [[<- <-]|[Hx (j & Hj & <-)]]; [exists i|exists j]; rewrite Hget; [auto|]. split; [|done]. right. split; [|done]. intros ->. congruence.
    + intros (j & [[-> ->]|[Hk Hj]]%Hget & <-); [by left|]. right. split; [|eauto]. intros E. assert (mapAddr a !! i_ip i = Some k) as H by (apply H2; eauto). congruence.
  - intros k j [[-> ->]|[_ Hj]]%Hget.
    + rewrite Ep. split; [lia|]. by rewrite Nat2Z.id, lookup_app_r, Nat.sub_diag by lia.
    + destruct (H3 k j Hj) as [Hp Hv]. split; [done|]. rewrite lookup_app_l; [done|]. by eapply lookup_lt_Some.
  - intros p k Hp. apply lookup_app_Some in Hp as [Hp|[Hp1 Hp]].
    + destruct (H4 p k Hp) as (j & Hj & Ej). exists j. rewrite Hget. split; [|done]. right. split; [|done]. intros ->. congruence.
    + apply list_lookup_singleton_Some in Hp as [Hp <-]. exists i. rewrite Hget. split; [auto|]. rewrite Ep. lia.
  - rewrite length_app, map_size_insert_None by done. cbn. lia.
  - intros k j [[-> ->]|[Hk Hj]]%Hget; [rewrite decide_True, Hc, Er by done; lia|]. rewrite (H6 k j Hj), !decide_False by congruence. done.
  - intros k j [[-> ->]|[_ Hj]]%Hget; [|eauto]. rewrite Et, Er, El, Es. lia.
  - intros s k Hs Hk. destruct (H8 s k Hs Hk) as [j Hj]. exists j. rewrite Hget. right. split; [|done]. intros ->. congruence.
  - intros k. rewrite H9. split.
    + intros (j & Hj & Ex). exists j. rewrite Hget. split; [|done]. right. split; [|done]. intros ->. congruence.
    + intros (j & [[-> ->]|[_ Hj]]%Hget & Ex); [congruence|eauto].
  - done.
  - split; [done|]. rewrite length_app. cbn. lia.
  - done.
  - done.
Qed.

Lemma update_known_stands addr pen i r i' f r' : update_known now addr pen i r = (i', f, r') ->
  stands_for i i' /\ i_nRandomPos i' = i_nRandomPos i /\ i_service i' = i_service i /\
  (f = true -> i_fInTried i = false /\ i_nRefCount i <> 4).
Proof.
  unfold update_known. set (c := (negb (a_nTime addr =? 0) && _)%bool). set (j := if c then set_nTime _ i else i). intros E.
  assert (stands_for i j /\ i_nRandomPos j = i_nRandomPos i /\ i_service j = i_service i) as (Hj & Pj & Sj) by (unfold j; destruct c; done).
  revert E. clearbody j. clear c. destruct (_ || _)%bool; [|destruct (i_fInTried (set_nServices _ j)) eqn:Et; [|destruct (Z.eqb_spec (i_nRefCount (set_nServices (Z.lor (i_nServices j) (a_nServices addr)) j)) ADDRMAN_NEW_BUCKETS_PER_ADDRESS) as [Er|Er]]].
  4: destruct (1 <? _); [destruct (GetRandInt _ r) as [x r1]|].
  all: intros E.
  all: injection E as <- <- <-; destruct Hj as [J1 J2 J3 J4 J5]; conjs; [by split|done|done|]; try done; intros _; cbn in *; rewrite <- J3, <- J2; done.
Qed.

Lemma Find_iff d a x n i : am_inv d a -> Find x a = Some (n, i) <-> mapInfo a !! n = Some i /\ i_ip i = x.
Proof.
  intros Ha. unfold Find. split.
  - destruct (mapAddr a !! x) as [k|] eqn:E; [|done]. apply (v_addr _ _ Ha) in E as (j & Hj & <-). rewrite Hj. by intros [= -> ->].
  - intros [Hi Hx]. assert (mapAddr a !! x = Some n) as -> by (apply (v_addr _ _ Ha); eauto). by rewrite Hi.
Qed.

Lemma Find_none d a x : am_inv d a -> Find x a = None <-> mapAddr a !! x = None.
Proof.
  intros Ha. unfold Find. destruct (mapAddr a !! x) as [n|] eqn:E; [|done]. apply (v_addr _ _ Ha) in E as (i & Hi & _). by rewrite Hi.
Qed.

Lemma Add_spec addr src pen a r : am_ok a -> 0 <= nIdCount a < 2^31 - 1 ->
  exists f a' r', Add_ now addr src pen a r = Some (f, a', r') /\ am_ok a' /\ nIdCount a <= nIdCount a' <= nIdCount a + 1 /\ nKey a' = nKey a /\
    f = (IsRoutable (s_ip (a_service addr)) && bool_decide (Find (s_ip (a_service addr)) a = None))%bool /\
    (IsRoutable (s_ip (a_service addr)) = true -> is_Some (Find (s_ip (a_service addr)) a')).
Proof.
  intros Ha Hid. unfold Add_. destruct (IsRoutable (s_ip (a_service addr))) eqn:Hr; cbn [negb andb]; [|by eauto 10 with lia].
  destruct (Find (s_ip (a_service addr)) a) as [[n i]|] eqn:HF.
  - rewrite bool_decide_eq_false_2 by done. apply (Find_iff None a _ _ _ Ha) in HF as [Hi Hip].
    destruct (update_known now addr pen i r) as [[i' f] r1] eqn:Eu. destruct (update_known_stands _ _ _ _ _ _ _ Eu) as (Hst & Hp & Hs & Hf).
    set (a1 := on_info n (fun _ => i') a). assert (am_ok a1) as Ha1. { apply touch_inv; [done|]. intros j Hj. assert (j = i) as -> by congruence. done. }
    assert (mapInfo a1 !! n = Some i') as Hi1 by (unfold a1; am_fields; by rewrite lookup_alter_eq, Hi).
    destruct f; cbn [negb].
    + destruct (Hf eq_refl) as [Ht H4]. destruct (put_spec a1 n i' src r1) as (a2 & r2 & j & -> & Ha2 & Ec & Ek & Hj & Sj & _).
      * done.
      * by rewrite (sf_tried _ _ Hst).
      * apply (inc_inv a1 n i'); [done|done|by rewrite (sf_tried _ _ Hst)|by rewrite (sf_ref _ _ Hst)].
      * by left.
      * eexists _, a2, r2. split; [reflexivity|]. conjs; [done|rewrite Ec; unfold a1; am_fields; lia..|done|done|].
        intros _. exists (n, j). apply (Find_iff None); [done|]. split; [done|]. by rewrite Sj, Hs.
    + eexists _, a1, r1. split; [reflexivity|]. conjs; [done|unfold a1; am_fields; lia..|done|done|].
      intros _. exists (n, i'). apply (Find_iff None); [done|]. split; [done|]. by rewrite Hs.
  - rewrite bool_decide_eq_true_2 by done. apply (Find_none None a _ Ha) in HF. cbn [Create]. set (n := nIdCount a).
    set (i := set_nRandomPos (Z.of_nat (length (vRandom a))) (CAddrInfo_make addr src)). am_fields. set (t := fun i => set_nTime _ i).
    unfold on_info, set_info, set_new. cbn [nKey nIdCount mapInfo mapAddr vRandom nTried vvTried nNew vvNew]. rewrite alter_insert_eq.
    assert (s32 (n + 1) = n + 1) as -> by (apply s32_small; unfold n; lia).
    match goal with |- context [put_new _ _ _ ?x _] => set (a1 := x) end.
    destruct (put_spec a1 n (t i) src r) as (a2 & r2 & j & -> & Ha2 & Ec & Ek & Hj & Sj & _).
    + unfold a1. am_fields. by rewrite lookup_insert_eq.
    + done.
    + unfold a1. unfold on_info, set_info. am_fields. rewrite alter_insert_eq. apply create_inv; done || (unfold n; lia).
    + right. unfold a1. am_fields. apply new_count_0. intros s Hs Hin. destruct (v_new _ _ Ha s n Hs Hin) as [j Hj]. apply (v_ids _ _ Ha) in Hj. unfold n in Hj. lia.
    + eexists _, a2, r2. split; [reflexivity|]. conjs; [done|rewrite Ec; unfold a1, n; am_fields; lia..|done|done|].
      intros _. exists (n, j). apply (Find_iff None); [done|]. split; [done|]. by rewrite Sj.
Qed.

(** ** MakeTried *)

Lemma concat_insert_perm (v : list (list Z)) b l : v !! b = Some l -> forall l', concat (<[b := l']> v) ≡ₚ l' ++ concat (delete b v).
Proof.
  revert b. induction v as [|x v IH]; intros b; [done|]. destruct b as [|b]; cbn [lookup list_lookup]; [by intros [= ->] l'|]. intros Hb l'.
  change (concat (<[S b := l']> (x :: v))) with (x ++ concat (<[b := l']> v)). change (concat (delete (S b) (x :: v))) with (x ++ concat (delete b v)).
  rewrite (IH b Hb l'), !app_assoc. by rewrite (Permutation_app_comm x l').
Qed.

Lemma concat_delete_perm (v : list (list Z)) b l : v !! b = Some l -> concat v ≡ₚ l ++ concat (delete b v).
Proof. intros Hb. rewrite <- (list_insert_id v b l Hb) at 1. by apply (concat_insert_perm v b l). Qed.

Lemma replace_perm (l : list Z) p x y : l !! p = Some x -> x :: <[p := y]> l ≡ₚ y :: l.
Proof.
  revert p. induction l as [|z l IH]; intros p; [done|]. destruct p as [|p]; cbn [lookup list_lookup]; [intros [= ->]; apply perm_swap|]. intros Hp.
  change (<[S p := y]> (z :: l)) with (z :: <[p := y]> l). rewrite perm_swap, (IH p Hp). apply perm_swap.
Qed.

(** The shuffle keeps the bucket's entries and returns one of its positions. *)
Lemma select_tried_spec info fuel : forall i l o p (r : R), Forall (fun n => 0 <= n /\ is_Some (info !! n)) l -> (o = -1 \/ is_Some (info !! o)) ->
  exists p' l' r', select_tried fuel i l info o p r = Some (p', l', r') /\ l' ≡ₚ l /\
    (0 <= p < Z.of_nat (length l) \/ (o = -1 /\ (i < length l)%nat /\ (0 < fuel)%nat) -> 0 <= p' < Z.of_nat (length l)).
Proof.
  induction fuel as [|fuel IH]; intros i l o p r HF Ho; cbn [select_tried].
  { exists p, l, r. conjs; [done|done|]. intros [?|?]; lia. }
  destruct (Nat.ltb_spec i (length l)) as [Hi|Hi]; [|exists p, l, r; conjs; [done|done|]; intros [?|?]; lia].
  pose proof (rand_range (Z.of_nat (length l) - Z.of_nat i) r ltac:(lia)) as Hx. destruct (GetRandInt (Z.of_nat (length l) - Z.of_nat i) r) as [x r1]. cbn [fst] in Hx.
  destruct (lookup_lt_is_Some_2 l (Z.to_nat (x + Z.of_nat i)) ltac:(lia)) as [t Et]. destruct (lookup_lt_is_Some_2 l i Hi) as [y Ey]. rewrite Et, Ey.
  set (l1 := <[i := t]> (<[Z.to_nat (x + Z.of_nat i) := y]> l)). assert (l1 ≡ₚ l) as Hp by (by apply Permutation_insert_swap).
  assert (length l1 = length l) as El by (by rewrite Hp). assert (Forall (fun n => 0 <= n /\ is_Some (info !! n)) l1) as HF1 by (by rewrite Hp).
  destruct (proj1 (Forall_forall _ _) HF t) as [Ht [it Hit]]; [by eapply list_elem_of_lookup_2|].
  assert (forall q pq, is_Some (info !! q) -> (0 <= p < Z.of_nat (length l) -> 0 <= pq < Z.of_nat (length l)) -> (o = -1 -> 0 <= pq < Z.of_nat (length l)) ->
    exists p' l' r', select_tried fuel (S i) l1 info q pq r1 = Some (p', l', r') /\ l' ≡ₚ l /\
      (0 <= p < Z.of_nat (length l) \/ (o = -1 /\ (i < length l)%nat /\ (0 < S fuel)%nat) -> 0 <= p' < Z.of_nat (length l))) as Hgo.
  { intros q pq Hq H1 H2. destruct (IH (S i) l1 q pq r1 HF1 (or_intror Hq)) as (p' & l' & r' & -> & Hl & Hr). exists p', l', r'. conjs; [done|by rewrite Hl, Hp|].
    rewrite El in Hr. intros Hor. apply Hr. left. naive_solver. }
  destruct (Z.eqb_spec o (-1)) as [->|Hne]; [apply Hgo; [eauto|lia..]|]. destruct Ho as [|[io Hio]]; [done|]. rewrite Hit, Hio.
  destruct (_ <? _); apply Hgo; eauto; lia.
Qed.

Lemma SelectTried_spec a b l r : vvTried a !! b = Some l -> Forall (fun n => 0 <= n /\ is_Some (mapInfo a !! n)) l -> l <> [] ->
  exists p l' r', SelectTried b a r = Some (p, set_tried (nTried a) (<[b := l']> (vvTried a)) a, r') /\ l' ≡ₚ l /\ 0 <= p < Z.of_nat (length l).
Proof.
  intros Hb HF Hl. unfold SelectTried. rewrite Hb.
  destruct (select_tried_spec (mapInfo a) ADDRMAN_TRIED_ENTRIES_INSPECT_ON_EVICT 0 l (-1) (-1) r HF) as (p & l' & r' & -> & Hp & Hr); [by left|].
  exists p, l', r'. split; [done|]. split; [done|]. apply Hr. right. destruct l; [done|]. cbn. unfold ADDRMAN_TRIED_ENTRIES_INSPECT_ON_EVICT. lia.
Qed.

(** The records of a promoted and of a demoted entry. *)
Abbreviation promote := (fun i : CAddrInfo => set_fInTried true (set_nRefCount 0 i)).
Abbreviation demote := (fun i : CAddrInfo => set_nRefCount 1 (set_fInTried false i)).

(** New buckets and new records under the same keys. *)
Lemma retable_inv a m nt vt nn vn : am_ok a ->
  (forall k, option_Forall2 (fun i j => i_ip j = i_ip i /\ i_nRandomPos j = i_nRandomPos i) (mapInfo a !! k) (m !! k)) ->
  (forall n i, m !! n = Some i -> i_nRefCount i = Z.of_nat (new_count n vn)) ->
  (forall n i, m !! n = Some i -> (if i_fInTried i then i_nRefCount i = 0 /\ i_nLastSuccess i <> 0 else 1 <= i_nRefCount i <= 4) /\
    0 <= i_nLastTry i /\ 0 <= i_nLastSuccess i) ->
  (forall s n, s ∈ vn -> n ∈ s -> is_Some (m !! n)) -> (forall n, n ∈ concat vt <-> exists i, m !! n = Some i /\ i_fInTried i = true) ->
  NoDup (concat vt) -> nt = Z.of_nat (length (concat vt)) -> nn + nt = nNew a + nTried a -> length vn = 256%nat -> length vt = 64%nat ->
  Forall (fun s : gset Z => (size s <= 64)%nat) vn -> Forall (fun l : list Z => (length l <= 64)%nat) vt ->
  am_ok (mkMan (nKey a) (nIdCount a) m (mapAddr a) (vRandom a) nt vt nn vn).
Proof.
  intros [H1 H2 H3 H4 H5 H6 H7 H8 H9 H10 H11 H12 H13] Hm Hrefs Hst Hnew Htr Hnd Ent Enn Ln Lt Sn St.
  assert (forall k j, m !! k = Some j -> exists i, mapInfo a !! k = Some i /\ i_ip j = i_ip i /\ i_nRandomPos j = i_nRandomPos i) as Hget.
  { intros k j Hj. specialize (Hm k). rewrite Hj in Hm. inversion Hm; subst. eauto. }
  assert (forall k i, mapInfo a !! k = Some i -> exists j, m !! k = Some j /\ i_ip j = i_ip i /\ i_nRandomPos j = i_nRandomPos i) as Hput.
  { intros k i Hi. specialize (Hm k). rewrite Hi in Hm. inversion Hm; subst. eauto. }
  split; cbn [nIdCount mapInfo mapAddr vRandom nTried vvTried nNew vvNew]; try done.
  - intros k j (i & Hi & _)%Hget. eauto.
  - intros x k. rewrite H2. split.
    + intros (i & Hi & <-). destruct (Hput k i Hi) as (j & Hj & ? & ?). eauto.
    + intros (j & (i & Hi & Eip & _)%Hget & <-). eauto.
  - intros k j (i & Hi & _ & ->)%Hget. eauto.
  - intros p k (i & Hi & Ep)%H4. destruct (Hput k i Hi) as (j & Hj & _ & Ej). exists j. split; [done|congruence].
  - rewrite H5. rewrite <- !(size_dom (D := gset Z)). f_equal. apply set_eq. intros k. rewrite !elem_of_dom. split.
    + intros [i Hi]. destruct (Hput k i Hi) as (j & Hj & _). eauto.
    + intros [j Hj]. destruct (Hget k j Hj) as (i & Hi & _). eauto.
  - intros k j Hj. rewrite decide_False, Z.add_0_r by done. eauto.
  - split; [done|]. lia.
Qed.

(** What leaves the tried table for the new one: the entry and its bucket. *)
Definition demoted (o : option (Z * nat)) (m : gmap Z CAddrInfo) (v : list (gset Z)) : gmap Z CAddrInfo * list (gset Z) :=
  match o with
  | None => (m, v)
  | Some (k, t) => (alter demote k m, alter (fun s => {[k]} ∪ s) t v)
  end.

Lemma demoted_lookup o m v k : fst (demoted o m v) !! k = if decide (fst <$> o = Some k) then demote <$> (m !! k) else m !! k.
Proof.
  destruct o as [[x t]|]; cbn; [|by rewrite decide_False]. case_decide as E; [injection E as ->; apply lookup_alter_eq|].
  apply lookup_alter_ne. congruence.
Qed.

Lemma demoted_buckets o m v : (forall k t, o = Some (k, t) -> exists s, v !! t = Some s /\ (k ∉ s) /\ (size s < 64)%nat) ->
  (forall k, Z.of_nat (new_count k (snd (demoted o m v))) = Z.of_nat (new_count k v) + (if decide (fst <$> o = Some k) then 1 else 0)) /\
  (forall s k, s ∈ snd (demoted o m v) -> k ∈ s -> (exists s', (s' ∈ v) /\ k ∈ s') \/ fst <$> o = Some k) /\
  length (snd (demoted o m v)) = length v /\
  (Forall (fun s : gset Z => (size s <= 64)%nat) v -> Forall (fun s : gset Z => (size s <= 64)%nat) (snd (demoted o m v))).
Proof.
  intros Ho. destruct o as [[x t]|]; cbn [demoted snd fmap option_fmap option_map fst]; [|split; [intros k; destruct (decide (None = Some k)); [done|lia]|eauto 10]].
  destruct (Ho x t eq_refl) as (s & Hs & Hx & Hz). split; [|split; [|split]].
  - intros k. rewrite (new_count_alter k _ t v s Hs). destruct (decide (Some x = Some k)) as [[= ->]|Hne].
    + rewrite decide_True, decide_False by (done || (clear; set_solver)). lia.
    + assert (k ∈ {[x]} ∪ s <-> k ∈ s) as Hk by (clear - Hne; set_solver). destruct (decide (k ∈ {[x]} ∪ s)), (decide (k ∈ s)); try tauto; lia.
  - intros u k [Hu|(s' & Hs' & ->)]%alter_elem Hk; [eauto|]. apply elem_of_union in Hk as [->%elem_of_singleton|Hk]; [by right|]. left. exists s'. split; [by eapply list_elem_of_lookup_2|done].
  - apply length_alter.
  - intros HF. eapply Forall_alter'; [done|done|]. rewrite size_union_alt, size_singleton. assert (size (s ∖ {[x]}) <= size s)%nat by (apply subseteq_size; clear; set_solver). lia.
Qed.

Lemma elem_option_list (k : Z) o : k ∈ option_list o <-> o = Some k.
Proof. destruct o; cbn; [rewrite list_elem_of_singleton; split; congruence|by rewrite elem_of_nil]. Qed.

Lemma promote_inv a n i o vt : am_ok a -> mapInfo a !! n = Some i -> i_fInTried i = false -> i_nLastSuccess i <> 0 ->
  let v := map (fun s => s ∖ {[n]}) (vvNew a) in
  (forall k t, o = Some (k, t) -> (k ∈ concat (vvTried a)) /\ exists s, v !! t = Some s /\ (size s < 64)%nat) ->
  option_list (fst <$> o) ++ concat vt ≡ₚ n :: concat (vvTried a) -> length vt = 64%nat -> Forall (fun l : list Z => (length l <= 64)%nat) vt ->
  let mv := demoted o (alter promote n (mapInfo a)) v in let out := Z.of_nat (length (option_list (fst <$> o))) in
  am_ok (mkMan (nKey a) (nIdCount a) (fst mv) (mapAddr a) (vRandom a) (nTried a + 1 - out) vt (nNew a - 1 + out) (snd mv)).
Proof.
  intros Ha Hi Ht Hs v Ho Hp Lt St mv out. destruct (v_shape _ _ Ha) as [Ln _]. destruct (v_counts _ _ Ha) as [Et En]. destruct (v_sizes _ _ Ha) as [Sn _].
  assert (n ∉ concat (vvTried a)) as Hnt. { intros (j & Hj & Ej)%(v_tried _ _ Ha). congruence. }
  assert (forall k, new_count k v = if decide (k = n) then O else new_count k (vvNew a)) as Hcv by (intros k; apply new_count_all).
  assert (forall k, fst <$> o = Some k -> k <> n /\ exists io, mapInfo a !! k = Some io /\ i_fInTried io = true /\ new_count k v = O) as Hout.
  { intros k Hk. destruct o as [[k' t]|]; [|done]. injection Hk as ->. destruct (Ho k t eq_refl) as [Hk _]. apply (v_tried _ _ Ha) in Hk as Hk'. destruct Hk' as (io & Hio & Eio).
    pose proof (v_refs _ _ Ha k io Hio) as Hrk. destruct (v_state _ _ Ha k io Hio) as [Hst _]. rewrite Eio in Hst. rewrite decide_False in Hrk by done.
    split; [congruence|]. exists io. conjs; [done|done|]. rewrite Hcv, decide_False by congruence. lia. }
  destruct (demoted_buckets o (alter promote n (mapInfo a)) v) as (B1 & B2 & B3 & B4).
  { intros k t E. destruct (Ho k t E) as (_ & s & Hts & Hz). exists s. conjs; [done| |done]. destruct (Hout k) as (_ & _ & _ & _ & H0); [by rewrite E|].
    apply (proj1 (new_count_0 _ _) H0). by eapply list_elem_of_lookup_2. }
  assert (forall k, fst mv !! k = if decide (fst <$> o = Some k) then demote <$> mapInfo a !! k else if decide (k = n) then Some (promote i) else mapInfo a !! k) as Hm.
  { intros k. unfold mv. rewrite demoted_lookup. destruct (decide (k = n)) as [->|Hk]; [|by rewrite lookup_alter_ne by congruence].
    destruct (decide (fst <$> o = Some n)) as [E|E]; [destruct (Hout n E); congruence|]. by rewrite lookup_alter_eq, Hi. }
  apply retable_inv; try done.
  - intros k. rewrite Hm. case_decide; [destruct (mapInfo a !! k); constructor; done|]. case_decide; subst; [rewrite Hi; by constructor|]. destruct (mapInfo a !! k); by constructor.
  - intros k j. rewrite Hm, B1. destruct (decide (fst <$> o = Some k)) as [E|E].
    + destruct (Hout k E) as (_ & io & -> & _ & ->). by intros [= <-].
    + rewrite Hcv. case_decide; [by intros [= <-]|]. intros Hj. rewrite (v_refs _ _ Ha k j Hj), decide_False by done. lia.
  - intros k j. rewrite Hm. destruct (decide (fst <$> o = Some k)) as [E|E].
    + destruct (Hout k E) as (_ & io & Hio & _ & _). rewrite Hio. intros [= <-]. cbn. destruct (v_state _ _ Ha k io Hio) as [_ ?]. lia.
    + case_decide; [|apply (v_state _ _ Ha)]. intros [= <-]. cbn. destruct (v_state _ _ Ha n i Hi) as [_ ?]. done.
  - intros s k H1 H2. assert (is_Some (mapInfo a !! k)) as [j Hj].
    { destruct (B2 s k H1 H2) as [(s' & (s0 & -> & Hs0)%list_elem_of_fmap & Hk)|E]; [|destruct (Hout k E) as (_ & io & Hio & _); eauto].
      apply (v_new _ _ Ha s0); [done|]. clear - Hk. set_solver. }
    rewrite Hm, Hj. case_decide; [by eexists|]. case_decide; by eexists.
  - intros k. assert (k ∈ option_list (fst <$> o) ++ concat vt <-> k ∈ n :: concat (vvTried a)) as Hk by (by rewrite Hp).
    rewrite elem_of_app, elem_of_cons, (v_tried _ _ Ha), elem_option_list in Hk.
    assert (NoDup (option_list (fst <$> o) ++ concat vt)) as (_ & Hdis & _)%NoDup_app by (rewrite Hp; constructor; [done|apply (v_once _ _ Ha)]).
    rewrite Hm. destruct (decide (fst <$> o = Some k)) as [E|E].
    + destruct (Hout k E) as (_ & io & -> & _). split; [intros Hin; by destruct (Hdis k); [apply elem_option_list|]|by intros (j & [= <-] & [=])].
    + destruct (decide (k = n)) as [->|Hne]; [split; [by eauto|]; intros _; tauto|]. tauto.
  - assert (NoDup (option_list (fst <$> o) ++ concat vt)) as (_ & _ & Hd)%NoDup_app by (rewrite Hp; constructor; [done|apply (v_once _ _ Ha)]). done.
  - apply Permutation_length in Hp. rewrite length_app in Hp. cbn [length] in Hp. unfold out. lia.
  - lia.
  - unfold mv. rewrite B3. unfold v. by rewrite length_map.
  - apply B4. apply Forall_map. eapply Forall_impl; [exact Sn|]. cbn. intros s Hz. etrans; [apply subseteq_size; apply subseteq_difference_l; done|done].
Qed.

Lemma alter_info_const {A} (f : A -> A) n (m : gmap Z A) x : m !! n = Some x -> alter (fun _ => f x) n m = alter f n m.
Proof. intros H. apply map_eq. intros k. destruct (decide (k = n)) as [->|]; [by rewrite !lookup_alter_eq, H|by rewrite !lookup_alter_ne by congruence]. Qed.

(** The promoted entry is in its bucket of the tried table. *)
Lemma MakeTried_spec a n i b s r : am_ok a -> mapInfo a !! n = Some i -> i_fInTried i = false -> i_nLastSuccess i <> 0 -> vvNew a !! b = Some s -> n ∈ s ->
  exists a' r' l, MakeTried n b a r = Some (a', r') /\ am_ok a' /\ nIdCount a' = nIdCount a /\ nKey a' = nKey a /\ mapInfo a' !! n = Some (promote i) /\
    vvTried a' !! Z.to_nat (GetTriedBucket (nKey a) (i_service i)) = Some l /\ (n ∈ l).
Proof.
  intros Ha Hi Ht Hs Hb Hin. unfold MakeTried. rewrite Hb, Hi, bool_decide_eq_true_2 by done. cbn [negb remove_all_new].
  change (Z.of_nat (length (filter (fun s => n ∈ s) (vvNew a)))) with (Z.of_nat (new_count n (vvNew a))).
  pose proof (v_refs _ _ Ha n i Hi) as Hr. rewrite decide_False, Z.add_0_r in Hr by done. rewrite Hr, Z.sub_diag. am_fields. cbn [set_nRefCount i_nRefCount i_service negb Z.eqb].
  set (kb := Z.to_nat (GetTriedBucket (nKey a) (i_service i))). pose proof (GetTriedBucket_range (nKey a) (i_service i)) as Hkb. fold kb in Hkb.
  destruct (v_shape _ _ Ha) as [Ln Lt]. destruct (v_sizes _ _ Ha) as [Sn St]. destruct (lookup_lt_is_Some_2 (vvTried a) kb ltac:(lia)) as [l Hl]. rewrite Hl.
  unfold on_info. am_fields. rewrite (alter_info_const (set_nRefCount 0) n (mapInfo a) i Hi).
  assert (alter (set_fInTried true) n (alter (set_nRefCount 0) n (mapInfo a)) = alter promote n (mapInfo a)) as Ecomp by (by rewrite alter_alter_eq).
  pose proof (concat_delete_perm _ _ _ Hl) as Hcd.
  unfold ADDRMAN_TRIED_BUCKET_SIZE. destruct (Nat.ltb_spec (length l) 64) as [Hlen|Hlen].
  - eexists _, r, (l ++ [n]). split; [reflexivity|]. unfold set_info. am_fields. rewrite Ecomp. conjs; [|done|done|by rewrite lookup_alter_eq, Hi|rewrite list_lookup_insert_eq by lia; done|apply elem_of_app; right; by left].
    pose proof (promote_inv a n i None (<[kb := l ++ [n]]> (vvTried a)) Ha Hi Ht Hs) as H. cbn in H. rewrite Z.sub_0_r, Z.add_0_r in H. apply H.
    + done.
    + rewrite (concat_insert_perm _ _ _ Hl), Hcd. rewrite <- app_assoc. cbn. by rewrite <- Permutation_middle.
    + by rewrite length_insert.
    + apply Forall_insert; [done|]. rewrite length_app. cbn. lia.
  - set (a0 := set_new _ _ _). assert (forall m, m ∈ l -> exists j, mapInfo a !! m = Some j /\ i_fInTried j = true) as Hmem.
    { intros m Hm. apply (v_tried _ _ Ha). rewrite Hcd. apply elem_of_app. by left. }
    assert (forall m, m ∈ l -> m <> n) as Hne by (intros m (j & Hj & Ej)%Hmem; congruence).
    assert (forall m, m <> n -> mapInfo a0 !! m = mapInfo a !! m) as Hm0 by (intros m Hm; unfold a0; am_fields; by rewrite lookup_alter_ne by congruence).
    destruct (SelectTried_spec a0 kb l r Hl) as (p & l' & r' & -> & Hp & Hpos).
    { apply Forall_forall. intros m Hm. destruct (Hmem m Hm) as (j & Hj & _). rewrite Hm0 by auto. split; [by apply (v_ids _ _ Ha m j)|eauto]. }
    { intros ->. cbn in Hlen. lia. }
    am_fields. rewrite list_lookup_insert_eq by (unfold a0; am_fields; lia). cbn [mbind option_bind].
    destruct (lookup_lt_is_Some_2 l' (Z.to_nat p)) as [o Ho]; [rewrite Hp; lia|]. rewrite Ho.
    assert (o ∈ l) as Hol by (rewrite <- Hp; by eapply list_elem_of_lookup_2). destruct (Hmem o Hol) as (io & Hio & Eio). rewrite Hm0, Hio by auto.
    set (ub := Z.to_nat (GetNewBucket _ _ _)). destruct (lookup_lt_is_Some_2 (vvNew a0) ub) as [sn Hsn]; [unfold a0; am_fields; rewrite length_map, Ln; apply GetNewBucket_range|].
    rewrite Hsn. set (t := if (size sn <? ADDRMAN_NEW_BUCKET_SIZE)%nat then ub else b). eexists _, r', (<[Z.to_nat p := n]> l'). split; [reflexivity|].
    unfold a0. unfold set_info. am_fields. rewrite (alter_alter (set_fInTried true)), Ecomp, decide_False by (intros E; by apply (Hne o)).
    assert (n ∈ <[Z.to_nat p := n]> l') as Hnl by (eapply list_elem_of_lookup_2, list_lookup_insert_eq; apply lookup_lt_Some in Ho; lia).
    assert (alter <[Z.to_nat p:=n]> kb (<[kb:=l']> (vvTried a)) = <[kb := <[Z.to_nat p := n]> l']> (vvTried a)) as ->.
    { apply list_eq. intros q. destruct (decide (q = kb)) as [->|]; [by rewrite list_lookup_alter_eq, !list_lookup_insert_eq by lia|by rewrite list_lookup_alter_ne, !list_lookup_insert_ne by congruence]. }
    conjs; [|done|done|rewrite lookup_alter_ne, lookup_alter_eq, Hi by auto; done|apply list_lookup_insert_eq; lia|done].
    pose proof (promote_inv a n i (Some (o, t)) (<[kb := <[Z.to_nat p := n]> l']> (vvTried a)) Ha Hi Ht Hs) as H. cbn in H.
    change (Z.of_nat 1) with 1 in H. rewrite (Z.add_simpl_r (nTried a) 1) in H. apply H; clear H.
    + intros k q [= <- <-]. split; [rewrite Hcd; apply elem_of_app; by left|]. unfold t. destruct (Nat.ltb_spec (size sn) ADDRMAN_NEW_BUCKET_SIZE) as [Hz|Hz]; [eauto|].
      exists (s ∖ {[n]}). split; [by rewrite list_lookup_fmap, Hb|]. rewrite size_difference, size_singleton by (clear - Hin; set_solver).
      rewrite Forall_forall in Sn. specialize (Sn s ltac:(by eapply list_elem_of_lookup_2)). assert (size ({[n]} : gset Z) <= size s)%nat as H1 by (apply subseteq_size; clear - Hin; set_solver).
      rewrite size_singleton in H1. cbv beta in Sn. lia.
    + rewrite (concat_insert_perm _ _ _ Hl), Hcd, app_comm_cons, (replace_perm l' _ _ n Ho), <- Hp. done.
    + by rewrite length_insert.
    + apply Forall_insert; [done|]. rewrite length_insert, Hp. rewrite Forall_forall in St. apply St. by eapply list_elem_of_lookup_2.
Qed.

(** ** Good_ *)

Lemma find_bucket_spec nRnd n v : 0 <= nRnd < Z.of_nat (length v) -> new_count n v <> O ->
  exists b s, find_bucket (seq 0 (length v)) nRnd n v = Some b /\ v !! b = Some s /\ (n ∈ s).
Proof.
  intros Hr Hc.
  assert (exists b s, v !! b = Some s /\ n ∈ s) as (b & s & Hb & Hs).
  { destruct (decide (Exists (fun s => n ∈ s) v)) as [(s & [b Hb]%list_elem_of_lookup & Hs)%Exists_exists|Hno]; [eauto|]. exfalso. apply Hc. apply new_count_0.
    intros s Hs Hn. apply Hno. apply Exists_exists. eauto. }
  apply lookup_lt_Some in Hb as Hlt.
  assert (exists k, k ∈ seq 0 (length v) /\ Z.to_nat ((Z.of_nat k + nRnd) mod Z.of_nat (length v)) = b) as (k & Hk & Ek).
  { exists (Z.to_nat ((Z.of_nat b - nRnd) mod Z.of_nat (length v))). pose proof (Z.mod_pos_bound (Z.of_nat b - nRnd) (Z.of_nat (length v)) ltac:(lia)). split; [apply elem_of_seq; lia|].
    rewrite Z2Nat.id by lia. rewrite Zplus_mod_idemp_l, Z.sub_add, Z.mod_small; lia. }
  revert k Hk Ek. induction (seq 0 (length v)) as [|m ms IH]; intros k Hk Ek; [by apply elem_of_nil in Hk|]. cbn [find_bucket].
  pose proof (Z.mod_pos_bound (Z.of_nat m + nRnd) (Z.of_nat (length v)) ltac:(lia)) as Hm.
  destruct (lookup_lt_is_Some_2 v (Z.to_nat ((Z.of_nat m + nRnd) mod Z.of_nat (length v))) ltac:(lia)) as [u Hu]. rewrite Hu. case_bool_decide as Hnu; [eauto|].
  apply (IH k); [|done]. apply elem_of_cons in Hk as [->|Hk]; [|done]. rewrite Ek, Hb in Hu. injection Hu as ->. done.
Qed.

(** A known service that answered is in the tried table, in its own bucket. *)
Lemma Good_spec x t a r : am_ok a -> 0 < t ->
  exists a' r', Good_ x t a r = Some (a', r') /\ am_ok a' /\ nIdCount a' = nIdCount a /\ nKey a' = nKey a /\
    forall n i, Find (s_ip x) a = Some (n, i) -> i_service i = x -> exists j, mapInfo a' !! n = Some j /\ i_service j = x /\ i_fInTried j = true /\
      i_nLastSuccess j = t /\ i_nAttempts j = 0 /\
      (i_fInTried i = false -> exists l, vvTried a' !! Z.to_nat (GetTriedBucket (nKey a) x) = Some l /\ n ∈ l).
Proof.
  intros Ha Ht. unfold Good_. destruct (Find (s_ip x) a) as [[n i]|] eqn:HF; [|by eexists a, r; conjs].
  destruct (decide (i_service i = x)) as [Ex|Hx]; [|eexists a, r; conjs; try done; intros n' i' [= <- <-]; done].
  apply (Find_iff None a _ _ _ Ha) in HF as [Hi Hip]. set (a1 := on_info n (set_good t) a).
  assert (am_ok a1) as Ha1. { apply touch_inv; [done|]. intros j Hj. split; [split; cbn; lia || done|done]. }
  assert (mapInfo a1 !! n = Some (set_good t i)) as Hi1 by (unfold a1; am_fields; by rewrite lookup_alter_eq, Hi).
  destruct (i_fInTried i) eqn:Et.
  - exists a1, r. conjs; try done. intros n' i' [= <- <-] _. exists (set_good t i). conjs; [done|done|done|done|done|]. by rewrite Et.
  - destruct (v_shape _ _ Ha) as [Ln _]. pose proof (rand_range (Z.of_nat (length (vvNew a1))) r) as Hr. destruct (GetRandInt _ r) as [nRnd r1]. cbn [fst] in Hr.
    pose proof (v_refs _ _ Ha1 n _ Hi1) as Hc. rewrite decide_False in Hc by done. destruct (v_state _ _ Ha n i Hi) as [Hst _]. rewrite Et in Hst. cbn [set_good i_nRefCount] in Hc.
    assert (length (vvNew a1) = 256%nat) as Ln1 by done.
    destruct (find_bucket_spec nRnd n (vvNew a1)) as (b & s & -> & Hb & Hs); [apply Hr; rewrite Ln1; lia|lia|].
    destruct (MakeTried_spec a1 n (set_good t i) b s r1 Ha1 Hi1 Et) as (a2 & r2 & l & -> & Ha2 & Ec & Ek & Hj & Hl & Hn); [cbn; lia|done|done|].
    exists a2, r2. conjs; [done|done|done|done|]. intros n' i' [= <- <-] _. eexists. split; [exact Hj|]. conjs; try done. intros _. exists l. split; [|done]. cbn in Hl. by rewrite <- Ex.
Qed.

(** ** GetAddr_ *)

Lemma moved_refl a : moved a a.
Proof. by split. Qed.

Lemma moved_trans a b c : moved a b -> moved b c -> moved a c.
Proof. intros [A1 A2 A3 [A4 A4'] [A5 A5'] A6 A7] [B1 B2 B3 [B4 B4'] [B5 B5'] B6 B7]. by split; [congruence|congruence|congruence|split; congruence|split; congruence|congruence|intros k; rewrite B7, A7]. Qed.

Lemma moved_info a b k j : moved a b -> mapInfo b !! k = Some j -> exists i, mapInfo a !! k = Some i /\ info_address i = info_address j.
Proof.
  intros M Hj. pose proof (mv_info _ _ M k) as H. rewrite Hj in H. destruct (mapInfo a !! k) as [i|]; [|done]. exists i. split; [done|].
  cbn in H. injection H as H. destruct i, j. unfold info_address. cbn in *. congruence.
Qed.

Lemma get_addr_spec fuel : forall n a r vA, am_ok a -> (n + fuel <= length (vRandom a))%nat ->
  exists w a' r', get_addr fuel n a r vA = Some (vA ++ w, a', r') /\ am_ok a' /\ moved a a' /\ (forall q, (q < n)%nat -> vRandom a' !! q = vRandom a !! q) /\
    length w = fuel /\ forall k x, w !! k = Some x -> exists id i, vRandom a' !! (n + k)%nat = Some id /\ mapInfo a' !! id = Some i /\ info_address i = x.
Proof.
  induction fuel as [|fuel IH]; intros n a r vA Ha Hn; cbn [get_addr].
  { exists [], a, r. rewrite app_nil_r. conjs; done || apply moved_refl. }
  pose proof (rand_range (Z.of_nat (length (vRandom a)) - Z.of_nat n) r ltac:(lia)) as Hx. destruct (GetRandInt _ r) as [x r1]. cbn [fst] in Hx.
  destruct (swap_spec None a (Z.of_nat n) (x + Z.of_nat n) Ha ltac:(lia) ltac:(lia)) as (b & -> & Hb & M & _ & Hq & _).
  destruct (lookup_lt_is_Some_2 (vRandom b) n) as [id Hid]; [rewrite (mv_len _ _ M); lia|]. destruct (v_rand _ _ Hb _ _ Hid) as (i & Hi & _).
  rewrite Hid. cbn [mbind option_bind]. rewrite Hi.
  destruct (IH (S n) b r1 (vA ++ [info_address i]) Hb) as (w & a' & r' & -> & Ha' & M' & Hq' & Hw & Hall); [rewrite (mv_len _ _ M); lia|].
  exists (info_address i :: w), a', r'. rewrite <- app_assoc. conjs; [done|done|by eapply moved_trans| |cbn; lia|].
  - intros q Hlt. rewrite Hq', Hq by lia. done.
  - intros [|k] y; cbn [lookup list_lookup].
    + intros [= <-]. rewrite Nat.add_0_r. exists id. pose proof (mv_info _ _ M' id) as H. rewrite Hi in H. destruct (mapInfo a' !! id) as [j|] eqn:Ej; [|done].
      exists j. rewrite Hq' by lia. conjs; [done|done|]. destruct (moved_info _ _ _ _ M' Ej) as (i' & Hi' & <-). congruence.
    + intros Hk. destruct (Hall k y Hk) as (id' & j & H1 & H2 & H3). exists id', j. by rewrite Nat.add_succ_r.
Qed.

Lemma GetAddr_spec a r : am_ok a ->
  exists v a' r', GetAddr_ a r = Some (v, a', r') /\ am_ok a' /\ nIdCount a' = nIdCount a /\ nKey a' = nKey a /\
    Z.of_nat (length v) = Z.min 2500 (23 * Z.of_nat (length (vRandom a)) / 100) /\ NoDup (map (fun x => s_ip (a_service x)) v) /\
    forall x, x ∈ v -> exists n i, mapInfo a !! n = Some i /\ info_address i = x.
Proof.
  intros Ha. unfold GetAddr_. unfold ADDRMAN_GETADDR_MAX_PCT, ADDRMAN_GETADDR_MAX. set (q := 23 * Z.of_nat (length (vRandom a)) / 100).
  assert (0 <= q <= Z.of_nat (length (vRandom a))) as Hq by (unfold q; split; [apply Z.div_pos; lia|apply Z.div_le_upper_bound; lia]).
  set (k := if 2500 <? q then 2500 else q). assert (k = Z.min 2500 q) as Ek by (unfold k; destruct (Z.ltb_spec 2500 q); lia).
  destruct (get_addr_spec (Z.to_nat k) 0 a r [] Ha ltac:(lia)) as (w & a' & r' & -> & Ha' & M & _ & Hw & Hall).
  exists w, a', r'. conjs; [done|done|apply M|apply M|lia| |].
  - apply NoDup_alt. intros k1 k2 y. rewrite !list_lookup_fmap. destruct (w !! k1) as [x1|] eqn:E1, (w !! k2) as [x2|] eqn:E2; try done.
    destruct (Hall k1 x1 E1) as (n1 & i1 & R1 & I1 & <-), (Hall k2 x2 E2) as (n2 & i2 & R2 & I2 & <-). cbn. intros [= <-] [= E].
    assert (mapAddr a' !! i_ip i1 = Some n1) as A1 by (apply (v_addr _ _ Ha'); eauto). assert (mapAddr a' !! i_ip i1 = Some n2) as A2 by (apply (v_addr _ _ Ha'); eauto).
    assert (n1 = n2) as <- by congruence. destruct (v_rand _ _ Ha' _ _ R1) as (j1 & J1 & P1), (v_rand _ _ Ha' _ _ R2) as (j2 & J2 & P2). assert (j1 = j2) as <- by congruence. lia.
  - intros x [k' Hk']%list_elem_of_lookup. destruct (Hall k' x Hk') as (n & i & _ & Hi & <-). destruct (moved_info _ _ _ _ M Hi) as (i0 & H0 & E0). eauto.
Qed.
End Operations.

(** ** Check_ *)

Lemma check_entries_0 a l : Forall (fun e => check_entry a (fst e) (snd e) = 0) l -> check_entries a l = 0.
Proof. induction 1 as [|[n i] l H _ IH]; cbn [check_entries]; [done|]. cbn in H. by rewrite H. Qed.

Lemma check_tried_0 l : forall s : gset Z, NoDup l -> s = list_to_set l -> check_tried l s = (0, ∅).
Proof.
  induction l as [|n l IH]; intros s Hnd ->; cbn [check_tried]; [done|]. apply NoDup_cons in Hnd as [Hn Hnd]. rewrite bool_decide_eq_true_2 by set_solver.
  apply IH; [done|]. set_solver.
Qed.

Definition occurs (n : Z) (l : list Z) : nat := length (filter (fun k => k = n) l).

Lemma occurs_cons n k l : occurs n (k :: l) = ((if decide (k = n) then 1 else 0) + occurs n l)%nat.
Proof. unfold occurs. rewrite filter_cons. by case_decide. Qed.

Lemma check_new_0 l : forall m : gmap Z Z, (forall n, m !! n = if decide (occurs n l = O) then None else Some (Z.of_nat (occurs n l))) -> check_new l m = (0, ∅).
Proof.
  induction l as [|k l IH]; intros m Hm; cbn [check_new]; [f_equal; apply map_eq; intros n; by rewrite Hm, lookup_empty|].
  assert (occurs k (k :: l) = S (occurs k l)) as Ek by (rewrite occurs_cons, decide_True by done; done). rewrite Hm, Ek, decide_False by lia. replace (Z.of_nat (S (occurs k l)) - 1) with (Z.of_nat (occurs k l)) by lia.
  apply IH. intros n. destruct (decide (n = k)) as [->|Hne].
  - destruct (Z.eqb_spec (Z.of_nat (occurs k l)) 0); [rewrite lookup_delete_eq, decide_True by lia; done|]. by rewrite lookup_insert_eq, decide_False by lia.
  - rewrite <- (Nat.add_0_l (occurs n l)). replace (0 + occurs n l)%nat with (occurs n (k :: l)) by (rewrite occurs_cons, decide_False by congruence; done). rewrite <- Hm.
    destruct (_ =? _); [by rewrite lookup_delete_ne by congruence|by rewrite lookup_insert_ne by congruence].
Qed.

Lemma occurs_app n l l' : occurs n (l ++ l') = (occurs n l + occurs n l')%nat.
Proof. unfold occurs. by rewrite filter_app, length_app. Qed.

Lemma occurs_set_in_order n s : occurs n (set_in_order s) = if decide (n ∈ s) then 1%nat else O.
Proof.
  assert (forall l, NoDup l -> occurs n l = if decide (n ∈ l) then 1%nat else O) as H.
  { induction l as [|k l IH]; intros Hnd; [by rewrite decide_False by (by intros ?%elem_of_nil)|]. apply NoDup_cons in Hnd as [Hk Hnd]. rewrite occurs_cons, (IH Hnd).
    destruct (decide (k = n)) as [->|Hne]; [by rewrite decide_False, decide_True by (done || by left)|].
    assert (n ∈ k :: l <-> n ∈ l) as E by (rewrite elem_of_cons; naive_solver). destruct (decide (n ∈ k :: l)), (decide (n ∈ l)); tauto || done. }
  rewrite H by (unfold set_in_order; rewrite (merge_sort_Permutation Z.le); apply NoDup_elements).
  pose proof (elem_set_in_order n s) as E. destruct (decide (n ∈ set_in_order s)), (decide (n ∈ s)); tauto || done.
Qed.

Lemma occurs_concat n v : occurs n (concat (map set_in_order v)) = new_count n v.
Proof. induction v as [|s v IH]; cbn [map concat]; [done|]. rewrite occurs_app, IH, occurs_set_in_order, new_count_cons. by case_decide. Qed.

Lemma tried_set d a : am_inv d a -> dom (filter (fun e => i_fInTried (snd e) = true) (mapInfo a)) = (list_to_set (concat (vvTried a)) : gset Z).
Proof.
  intros Ha. apply set_eq. intros n. rewrite elem_of_list_to_set, (v_tried _ _ Ha), elem_of_dom. split.
  - intros [i [Hi Et]%map_lookup_filter_Some]. eauto.
  - intros (i & Hi & Et). exists i. by apply map_lookup_filter_Some.
Qed.

Lemma tried_size d a : am_inv d a -> Z.of_nat (size (dom (filter (fun e => i_fInTried (snd e) = true) (mapInfo a)) : gset Z)) = nTried a.
Proof. intros Ha. rewrite (tried_set d a Ha), size_list_to_set by apply (v_once _ _ Ha). by destruct (v_counts _ _ Ha). Qed.

Lemma new_size d a : am_inv d a -> Z.of_nat (size (filter (fun e => i_fInTried (snd e) = false) (mapInfo a))) = nNew a.
Proof.
  intros Ha. pose proof (tried_size d a Ha) as Ht. rewrite size_dom in Ht. destruct (v_counts _ _ Ha) as [_ Hc]. rewrite (v_size _ _ Ha) in Hc.
  assert (filter (fun e => i_fInTried (snd e) = false) (mapInfo a) = filter (fun e => ¬ i_fInTried (snd e) = true) (mapInfo a)) as E.
  { apply map_filter_ext. intros n i _. cbn. by destruct (i_fInTried i). }
  rewrite E. pose proof (map_filter_union_complement (fun e => i_fInTried (snd e) = true) (mapInfo a)) as Hu. apply (f_equal size) in Hu.
  rewrite map_size_disj_union in Hu by apply map_disjoint_filter_complement. lia.
Qed.

Lemma check_entry_0 a n i : am_ok a -> mapInfo a !! n = Some i -> check_entry a n i = 0.
Proof.
  intros Ha Hi. destruct (v_state _ _ Ha n i Hi) as (Hst & Hlt & Hls). destruct (v_pos _ _ Ha n i Hi) as [Hp Hv].
  assert (mapAddr a !! i_ip i = Some n) as Hx by (apply (v_addr _ _ Ha); eauto). unfold check_entry. rewrite Hx, Hv, bool_decide_eq_true_2 by done. cbn [default from_option id]. rewrite Z.eqb_refl.
  rewrite (proj2 (Z.ltb_ge _ 0) Hp), (proj2 (Z.ltb_ge _ 0) Hlt), (proj2 (Z.ltb_ge _ 0) Hls). unfold ADDRMAN_NEW_BUCKETS_PER_ADDRESS.
  destruct (i_fInTried i); cbn [andb negb orb].
  - destruct Hst as [-> Hs]. by rewrite (proj2 (Z.eqb_neq _ 0) Hs).
  - rewrite (proj2 (Z.ltb_ge (i_nRefCount i) 0)), (proj2 (Z.ltb_ge 4 _)), (proj2 (Z.eqb_neq _ 0)) by lia. done.
Qed.

Lemma Check_ok a : am_ok a -> Check_ a = 0.
Proof.
  intros Ha. unfold Check_. destruct (v_counts _ _ Ha) as [_ Hc]. rewrite (proj2 (Z.eqb_eq _ _)) by lia. cbn [negb].
  rewrite check_entries_0; [cbn [negb Z.eqb]|apply Forall_forall; intros [n i] Hi%elem_of_map_to_list; by apply check_entry_0].
  rewrite (tried_size None a Ha), Z.eqb_refl, map_size_fmap, (new_size None a Ha), Z.eqb_refl. cbn [negb].
  rewrite (check_tried_0 _ _ (v_once _ _ Ha) (tried_set None a Ha)). cbn [negb Z.eqb]. rewrite check_new_0; [cbn [negb Z.eqb]; by rewrite size_empty, map_size_empty|].
  intros n. rewrite occurs_concat, lookup_fmap, map_lookup_filter. destruct (mapInfo a !! n) as [i|] eqn:Hi; cbn [mbind option_bind].
  - pose proof (v_refs _ _ Ha n i Hi) as Hr. destruct (v_state _ _ Ha n i Hi) as [Hst _]. rewrite decide_False in Hr by done.
    case_guard as Hg; cbn in Hg |- *; [rewrite Hg in Hst|destruct (i_fInTried i); [|done]].
    + rewrite decide_False by lia. cbn. f_equal. lia.
    + by rewrite decide_True by lia.
  - rewrite decide_True; [done|]. apply new_count_0. intros s Hs Hn. destruct (v_new _ _ Ha s n Hs Hn). congruence.
Qed.

(** ** The reachable states *)

Section Reachable.
Context `{HD : Digests} {R : Type} {RD : Random R} {RDok : Random_ok RD}.

(** The operations that change the manager, with the adjusted time of [Add_]. *)
Inductive am_op :=
  | op_add (now : Z) (addr : CAddress) (source : CNetAddr) (nTimePenalty : Z)
  | op_good (addr : CService) (nTime : Z)
  | op_attempt (addr : CService) (nTime : Z)
  | op_connected (addr : CService) (nTime : Z)
  | op_getaddr.

Definition am_run (o : am_op) (a : CAddrMan) (r : R) : option (CAddrMan * R) :=
  match o with
  | op_add now addr source pen => (fun p => (snd (fst p), snd p)) <$> Add_ now addr source pen a r
  | op_good addr t => Good_ addr t a r
  | op_attempt addr t => Some (Attempt_ addr t a, r)
  | op_connected addr t => Some (Connected_ addr t a, r)
  | op_getaddr => (fun p => (snd (fst p), snd p)) <$> GetAddr_ a r
  end.

(** The clock is positive, and an id is left for a new entry. *)
Definition am_legal (o : am_op) (a : CAddrMan) : Prop :=
  match o with
  | op_add _ _ _ _ => nIdCount a < 2^31 - 1
  | op_good _ t => 0 < t
  | op_attempt _ t => 0 <= t
  | _ => True
  end.

Inductive am_reachable (key : list Z) : CAddrMan -> Prop :=
  | am_start : am_reachable key (CAddrMan_make key)
  | am_then o a r a' r' : am_reachable key a -> am_legal o a -> am_run o a r = Some (a', r') -> am_reachable key a'.

Lemma Attempt_ok x t a : am_ok a -> 0 <= t -> am_ok (Attempt_ x t a).
Proof. intros Ha Ht. unfold Attempt_. destruct (Find (s_ip x) a) as [[n i]|]; [|done]. case_decide; [|done]. apply touch_inv; [done|]. intros j _. by split; [split; cbn|]. Qed.

Lemma Connected_ok x t a : am_ok a -> am_ok (Connected_ x t a).
Proof. intros Ha. unfold Connected_. destruct (Find (s_ip x) a) as [[n i]|]; [|done]. case_decide; [|done]. destruct (_ <? _); [|done]. apply touch_inv; [done|]. intros j _. by split; [split; cbn|]. Qed.

Lemma Attempt_fixed x t a : nIdCount (Attempt_ x t a) = nIdCount a /\ nKey (Attempt_ x t a) = nKey a.
Proof. unfold Attempt_. destruct (Find (s_ip x) a) as [[n i]|]; [|done]. by case_decide. Qed.

Lemma Connected_fixed x t a : nIdCount (Connected_ x t a) = nIdCount a /\ nKey (Connected_ x t a) = nKey a.
Proof. unfold Connected_. destruct (Find (s_ip x) a) as [[n i]|]; [|done]. case_decide; [|done]. by destruct (_ <? _). Qed.

(** Every legal operation succeeds and keeps the invariant. *)
Lemma am_run_ok o a r : am_ok a -> 0 <= nIdCount a -> am_legal o a ->
  exists a' r', am_run o a r = Some (a', r') /\ am_ok a' /\ nIdCount a <= nIdCount a' /\ nKey a' = nKey a.
Proof.
  intros Ha Hc. destruct o as [now addr src pen|x t|x t|x t|]; cbn [am_run am_legal]; intros Hl.
  - destruct (Add_spec now addr src pen a r Ha ltac:(lia)) as (f & a' & r' & -> & Ha' & Hn & Hk & _). exists a', r'. conjs; [done|done|lia|done].
  - destruct (Good_spec x t a r Ha Hl) as (a' & r' & -> & Ha' & Hn & Hk & _). exists a', r'. conjs; [done|done|lia|done].
  - destruct (Attempt_fixed x t a) as [H1 H2]. exists (Attempt_ x t a), r. conjs; [done|by apply Attempt_ok|lia|done].
  - destruct (Connected_fixed x t a) as [H1 H2]. exists (Connected_ x t a), r. conjs; [done|by apply Connected_ok|lia|done].
  - destruct (GetAddr_spec a r Ha) as (v & a' & r' & -> & Ha' & Hn & Hk & _). exists a', r'. conjs; [done|done|lia|done].
Qed.

Lemma am_reachable_ok key a : am_reachable key a -> am_ok a /\ 0 <= nIdCount a /\ nKey a = key.
Proof.
  induction 1 as [|o a r a' r' _ (Ha & Hc & Hk) Hl Hrun]; [conjs; [apply make_ok|done|done]|].
  destruct (am_run_ok o a r Ha Hc Hl) as (b & r2 & E & Hb & Hn & Ek). rewrite E in Hrun. injection Hrun as -> ->. conjs; [done|lia|congruence].
Qed.
End Reachable.

(** ** Where tried entries are *)

(** Fewer entries, with the services they had. *)
Definition services_kept (m m' : gmap Z CAddrInfo) : Prop := forall k j, m' !! k = Some j -> exists i, m !! k = Some i /\ i_service j = i_service i.

#[local] Instance services_kept_pre : PreOrder services_kept.
Proof. split; [intros m k j; eauto|]. intros m1 m2 m3 H1 H2 k j (i & Hi & E)%H2. apply H1 in Hi as (i' & Hi' & E'). exists i'. split; [done|congruence]. Qed.

Lemma kept_alter m n f : (forall i, i_service (f i) = i_service i) -> services_kept m (alter f n m).
Proof. intros Hf k j. rewrite lookup_alter_Some. intros [(-> & i & Hi & ->)|[_ Hj]]; eauto. Qed.

Lemma kept_delete m n : services_kept m (delete n m).
Proof. intros k j [_ Hj]%lookup_delete_Some. eauto. Qed.

(** The tried table is untouched. *)
Definition tried_kept (a a' : CAddrMan) : Prop := nKey a' = nKey a /\ vvTried a' = vvTried a /\ services_kept (mapInfo a) (mapInfo a').

#[local] Instance tried_kept_pre : PreOrder tried_kept.
Proof. split; [done|]. intros a b c (A1 & A2 & A3) (B1 & B2 & B3). unfold tried_kept. conjs; [congruence|congruence|by etrans]. Qed.

Lemma tk_touch a n f : (forall i, i_service (f i) = i_service i) -> tried_kept a (on_info n f a).
Proof. intros Hf. unfold tried_kept. am_fields. conjs; [done|done|by apply kept_alter]. Qed.

Lemma tk_swap p q a b : SwapRandom p q a = Some b -> tried_kept a b.
Proof.
  unfold SwapRandom. destruct (p =? q); [by intros [= <-]|]. destruct (_ || _)%bool; [done|].
  destruct (vRandom a !! Z.to_nat p) as [n1|], (vRandom a !! Z.to_nat q) as [n2|]; try done. destruct (mapInfo a !! n1), (mapInfo a !! n2); try done. intros [= <-].
  unfold tried_kept. am_fields. conjs; [done|done|]. etrans; by apply kept_alter.
Qed.

Lemma tk_drop n i a b : drop_ref n i a = Some b -> tried_kept a b.
Proof.
  unfold drop_ref. set (a1 := on_info n _ a). assert (tried_kept a a1) as H1 by (by apply tk_touch). destruct (_ =? 0); [|by intros [= <-]].
  destruct (SwapRandom _ _ a1) as [a2|] eqn:E; [|done]. apply tk_swap in E. intros [= <-]. etrans; [exact H1|]. etrans; [exact E|]. unfold tried_kept. am_fields.
  conjs; [done|done|apply kept_delete].
Qed.

Section Placement.
Context `{HD : Digests} {R : Type} {RD : Random R} {RDok : Random_ok RD}.

Lemma tk_shrink now b a r c a' r' : ShrinkNew now b a r = Some (c, a', r') -> tried_kept a a'.
Proof.
  assert (forall n i (c0 : Z) (r0 : R), (fun x => (c0, erase_new b n x, r0)) <$> drop_ref n i a = Some (c, a', r') -> tried_kept a a') as H.
  { intros n i c0 r0. destruct (drop_ref n i a) as [x|] eqn:E; [|done]. apply tk_drop in E. by intros [= _ <- _]. }
  unfold ShrinkNew. destruct (vvNew a !! b); [|done]. destruct (first_terrible _ _ _) as [[[n i]|]|]; [apply H| |done].
  destruct (draws _ _ r) as [ns r1]. destruct (oldest_of _ _ _ _ _) as [o|]; [|done]. destruct (mapInfo a !! o); [apply H|done].
Qed.

Lemma tk_put now n src a r a' r' : put_new now n src a r = Some (a', r') -> tried_kept a a'.
Proof.
  unfold put_new. destruct (mapInfo a !! n) as [i|]; [|done]. destruct (vvNew a !! _) as [s|]; [|done]. destruct (bool_decide _); [by intros [= <- _]|].
  set (a1 := on_info n _ a). assert (tried_kept a a1) as H1 by (by apply tk_touch). destruct (_ =? _)%nat.
  - destruct (ShrinkNew _ _ _ _) as [[[c a2] r2]|] eqn:E; [|done]. apply tk_shrink in E. intros [= <- _]. by etrans.
  - by intros [= <- _].
Qed.

(** Entries of the tried table are in the bucket of their service. *)
Definition placed (a : CAddrMan) : Prop :=
  forall b l n i, vvTried a !! b = Some l -> n ∈ l -> mapInfo a !! n = Some i -> Z.to_nat (GetTriedBucket (nKey a) (i_service i)) = b.

Lemma placed_kept a a' : placed a -> tried_kept a a' -> placed a'.
Proof. intros Hp (Ek & Ev & Hs) b l n j Hl Hn Hj. rewrite Ev in Hl. destruct (Hs n j Hj) as (i & Hi & ->). rewrite Ek. by apply (Hp b l n i). Qed.

Lemma placed_add now addr src pen a r f a' r' : am_ok a -> placed a -> Add_ now addr src pen a r = Some (f, a', r') -> placed a'.
Proof.
  intros Ha Hp. unfold Add_. destruct (negb _); [by intros [= _ <- _]|]. destruct (Find _ a) as [[n i]|] eqn:HF.
  - apply (Find_iff None a _ _ _ Ha) in HF as [Hi _]. destruct (update_known now addr pen i r) as [[i' g] r1] eqn:Eu.
    destruct (update_known_stands _ _ _ _ _ _ _ _ Eu) as (_ & _ & Hs & _). set (a1 := on_info n _ a).
    assert (placed a1) as Hp1. { intros b l k j Hl Hk. unfold a1. am_fields. rewrite lookup_alter_Some. intros [(-> & i0 & Hi0 & ->)|[_ Hj]]; [|by apply (Hp b l k j)].
      rewrite Hs. by apply (Hp b l k i). }
    destruct (negb g); [by intros [= _ <- _]|]. destruct (put_new _ _ _ _ _) as [[a2 r2]|] eqn:E; [|done]. apply tk_put in E. intros [= _ <- _]. by eapply placed_kept.
  - cbn [Create]. destruct (put_new _ _ _ _ _) as [[a2 r2]|] eqn:E; [|done]. apply tk_put in E. intros [= _ <- _]. eapply placed_kept; [|exact E].
    intros b l n i Hl Hn. am_fields. unfold on_info, set_info. am_fields. rewrite alter_insert_eq, lookup_insert_Some. intros [[<- _]|[_ Hi]]; [|by apply (Hp b l n i)].
    assert (nIdCount a ∈ concat (vvTried a)) as Hc. { rewrite (concat_delete_perm _ _ _ Hl). apply elem_of_app. by left. }
    apply (v_tried _ _ Ha) in Hc as (j & Hj & _). apply (v_ids _ _ Ha) in Hj. lia.
Qed.

Lemma select_tried_elem info n fuel : forall i l o p (r : R) p' l' r', select_tried fuel i l info o p r = Some (p', l', r') -> n ∈ l' -> n ∈ l.
Proof.
  induction fuel as [|fuel IH]; intros i l o p r p' l' r'; cbn [select_tried]; [by intros [= _ <- _]|].
  destruct (_ <? _)%nat; [|by intros [= _ <- _]]. destruct (GetRandInt _ r) as [x r1]. destruct (l !! Z.to_nat _) as [t|] eqn:Et; [|done].
  destruct (l !! i) as [y|] eqn:Ey; [|done]. set (l1 := <[i := t]> _).
  assert (n ∈ l1 -> n ∈ l) as H1. { unfold l1. by rewrite (Permutation_insert_swap l _ _ _ _ Ey Et) || by rewrite (Permutation_insert_swap l _ _ _ _ Et Ey). }
  destruct (o =? -1); [intros E Hn; apply H1; by eapply IH|]. destruct (info !! t), (info !! o); try done. destruct (_ <? _); intros E Hn; apply H1; by eapply IH.
Qed.

Lemma placed_make_tried n b a r a' r' : placed a -> MakeTried n b a r = Some (a', r') -> placed a'.
Proof.
  intros Hp. unfold MakeTried. destruct (vvNew a !! b) as [s|]; [|done]. destruct (mapInfo a !! n) as [i|] eqn:Hi; [|done]. destruct (negb _); [done|].
  cbn [remove_all_new]. set (i1 := set_nRefCount _ i). set (a1 := set_new _ _ _). destruct (negb _); [done|]. set (kb := Z.to_nat (GetTriedBucket (nKey a1) (i_service i1))).
  assert (tried_kept a a1) as H1. { unfold tried_kept, a1. am_fields. conjs; [done|done|]. intros k j. rewrite lookup_alter_Some. intros [(-> & i0 & Hi0 & ->)|[_ Hj]]; [|eauto]. by exists i. }
  assert (forall m vt nt k nn vn, services_kept (mapInfo a) m -> (forall q l x, vt !! q = Some l -> x ∈ l -> (exists l0, vvTried a !! q = Some l0 /\ x ∈ l0) \/ (q = kb /\ x = n)) ->
    placed (mkMan (nKey a) k m (mapAddr a) (vRandom a) nt vt nn vn)) as Hgo.
  { intros m vt nt k nn vn Hm Hv q l x j. cbn. intros Hl Hx Hj. destruct (Hm x j Hj) as (i0 & Hi0 & ->). destruct (Hv q l x Hl Hx) as [(l0 & Hl0 & Hx0)|[-> ->]]; [by apply (Hp q l0 x i0)|].
    unfold kb. replace i0 with i by congruence. done. }
  destruct (vvTried a1 !! kb) as [l|] eqn:Hl; [|done]. destruct (_ <? _)%nat.
  - intros [= <- _]. apply Hgo.
    + destruct H1 as (_ & _ & H1). etrans; [exact H1|by apply kept_alter].
    + intros q l' x. am_fields. destruct (decide (q = kb)) as [->|Hq]; [|rewrite list_lookup_insert_ne by congruence; eauto].
      rewrite list_lookup_insert_eq by (by eapply lookup_lt_Some). intros [= <-] [Hx|Hx]%elem_of_app; [left; eauto|]. apply list_elem_of_singleton in Hx. auto.
  - unfold SelectTried. rewrite Hl. destruct (select_tried _ _ _ _ _ _ r) as [[[p l'] r1]|] eqn:Es; [|done]. am_fields. rewrite list_lookup_insert_eq by (by eapply lookup_lt_Some). cbn [mbind option_bind].
    destruct (l' !! Z.to_nat p) as [o|] eqn:Eo; [|done]. destruct (mapInfo a1 !! o) as [io|]; [|done]. destruct (vvNew a1 !! _) as [sn|]; [|done]. intros [= <- _]. apply Hgo.
    + destruct H1 as (_ & _ & H1). etrans; [exact H1|]. etrans; by apply kept_alter.
    + intros q l2 x. am_fields. destruct (decide (q = kb)) as [->|Hq]; [|rewrite list_lookup_alter_ne, list_lookup_insert_ne by congruence; eauto].
      rewrite list_lookup_alter_eq, list_lookup_insert_eq by (by eapply lookup_lt_Some). intros [= <-] [k Hk]%list_elem_of_lookup.
      apply list_lookup_insert_Some in Hk as [(_ & -> & _)|[_ Hk]]; [auto|]. left. exists l. split; [done|]. eapply select_tried_elem; [exact Es|by eapply list_elem_of_lookup_2].
Qed.
Lemma placed_good x t a r a' r' : placed a -> Good_ x t a r = Some (a', r') -> placed a'.
Proof.
  intros Hp. unfold Good_. destruct (Find _ a) as [[n i]|]; [|by intros [= <- _]]. case_decide; [|by intros [= <- _]].
  set (a1 := on_info n _ a). assert (placed a1) as H1 by (eapply placed_kept; [exact Hp|by apply tk_touch]). destruct (i_fInTried i); [by intros [= <- _]|].
  destruct (GetRandInt _ r) as [k r1]. destruct (find_bucket _ _ _ _) as [b|]; [by apply placed_make_tried|by intros [= <- _]].
Qed.

Lemma tk_getaddr fuel : forall n a (r : R) vA v a' r', get_addr fuel n a r vA = Some (v, a', r') -> tried_kept a a'.
Proof.
  induction fuel as [|fuel IH]; intros n a r vA v a' r'; cbn [get_addr]; [by intros [= _ <- _]|]. destruct (GetRandInt _ r) as [x r1].
  destruct (SwapRandom _ _ a) as [b|] eqn:E; [|done]. destruct (_ ≫= _) as [i|]; [|done]. intros H. apply tk_swap in E. apply IH in H. by etrans.
Qed.

Lemma am_reachable_placed key a : am_reachable key a -> placed a.
Proof.
  induction 1 as [|o a r a' r' Hr Hp Hl Hrun].
  { intros b l n i. cbn. rewrite lookup_empty. done. }
  destruct (am_reachable_ok _ _ Hr) as (Ha & _). destruct o as [now addr src pen|x t|x t|x t|]; cbn [am_run] in Hrun.
  - destruct (Add_ now addr src pen a r) as [[[f b] r1]|] eqn:E; [|done]. injection Hrun as -> ->. by eapply placed_add.
  - by eapply placed_good.
  - injection Hrun as <- <-. unfold Attempt_. destruct (Find _ a) as [[n i]|]; [|done]. case_decide; [|done]. eapply placed_kept; [exact Hp|by apply tk_touch].
  - injection Hrun as <- <-. unfold Connected_. destruct (Find _ a) as [[n i]|]; [|done]. case_decide; [|done]. destruct (_ <? _); [|done]. eapply placed_kept; [exact Hp|by apply tk_touch].
  - destruct (GetAddr_ a r) as [[[v b] r1]|] eqn:E; [|done]. injection Hrun as -> ->. apply tk_getaddr in E. by eapply placed_kept.
Qed.

(** The buckets a group of addresses reaches. *)
Definition tried_buckets (key : list Z) (g : list Z) : list Z :=
  map (fun k => Get64 (Hash (enc bytevec_codec key ++ enc bytevec_codec g ++ le_bytes 8 (Z.of_nat k))) 0 mod ADDRMAN_TRIED_BUCKET_COUNT) (seq 0 4).

Definition new_buckets (key : list Z) (g : list Z) : list Z :=
  map (fun k => Get64 (Hash (enc bytevec_codec key ++ enc bytevec_codec g ++ le_bytes 8 (Z.of_nat k))) 0 mod ADDRMAN_NEW_BUCKET_COUNT) (seq 0 32).

Lemma tried_buckets_all key x : GetTriedBucket key x ∈ tried_buckets key (GetGroup (s_ip x)).
Proof.
  unfold GetTriedBucket, tried_buckets, ADDRMAN_TRIED_BUCKETS_PER_GROUP. cbv zeta. match goal with |- context [?h mod 4] => set (q := h mod 4); pose proof (Z.mod_pos_bound h 4 ltac:(lia)) as Hq end.
  apply list_elem_of_fmap. exists (Z.to_nat q). rewrite Z2Nat.id by (unfold q; lia). split; [done|]. apply elem_of_seq. unfold q. lia.
Qed.

Lemma new_buckets_all key x src : GetNewBucket key x src ∈ new_buckets key (GetGroup src).
Proof.
  unfold GetNewBucket, new_buckets, ADDRMAN_NEW_BUCKETS_PER_SOURCE_GROUP. cbv zeta. match goal with |- context [?h mod 32] => set (q := h mod 32); pose proof (Z.mod_pos_bound h 32 ltac:(lia)) as Hq end.
  apply list_elem_of_fmap. exists (Z.to_nat q). rewrite Z2Nat.id by (unfold q; lia). split; [done|]. apply elem_of_seq. unfold q. lia.
Qed.

(** Ids spread over few buckets of bounded size are few. *)
Lemma few_in_buckets (ids : list Z) (v : list (list Z)) (bs : list nat) (c : nat) : NoDup ids -> Forall (fun l => (length l <= c)%nat) v ->
  (forall n, n ∈ ids -> exists b l, (b ∈ bs) /\ v !! b = Some l /\ (n ∈ l)) -> (length ids <= length bs * c)%nat.
Proof.
  intros Hnd Hv Hin. set (all := concat (map (fun b => default [] (v !! b)) bs)).
  assert (length ids <= length all)%nat as H1.
  { apply submseteq_length, NoDup_submseteq; [done|]. intros n (b & l & Hb & Hl & Hn)%Hin. unfold all. apply list_elem_of_In, in_concat. exists l.
    split; [|by apply list_elem_of_In]. apply list_elem_of_In, list_elem_of_fmap. exists b. by rewrite Hl. }
  etrans; [exact H1|]. unfold all. clear - Hv. induction bs as [|b bs IH]; cbn [map concat length]; [done|]. rewrite length_app.
  assert (length (default [] (v !! b)) <= c)%nat; [|lia]. destruct (v !! b) as [l|] eqn:E; cbn; [|lia]. rewrite Forall_forall in Hv. apply Hv. by eapply list_elem_of_lookup_2.
Qed.
End Placement.

(** ** Properties *)

Section Properties.
Context `{HD : Digests} {R : Type} {RD : Random R} {RDok : Random_ok RD}.

(** C17: the indexes of the address manager stay consistent.  After any sequence of
    Add, Good, Attempt, Connected and GetAddr (with positive times, and while ids are
    left) the code's own consistency check finds nothing: every entry has its place in
    mapAddr and vRandom, counts its new buckets, and is in at most four new buckets or
    in one tried bucket; the counters are right.  No bucket exceeds 64 entries, and no
    assertion fails and no vector is read out of range in the next operation. *)
Theorem addrman_consistent (key : list Z) (a : CAddrMan) : am_reachable key a ->
  Check_ a = 0 /\ nKey a = key /\ length (vvNew a) = 256%nat /\ length (vvTried a) = 64%nat /\
  Forall (fun s : gset Z => (size s <= ADDRMAN_NEW_BUCKET_SIZE)%nat) (vvNew a) /\ Forall (fun l : list Z => (length l <= ADDRMAN_TRIED_BUCKET_SIZE)%nat) (vvTried a) /\
  forall o r, am_legal o a -> is_Some (am_run o a r).
Proof.
  intros (Ha & Hc & Hk)%am_reachable_ok. destruct (v_shape _ _ Ha), (v_sizes _ _ Ha). conjs; try done; [by apply Check_ok|].
  intros o r Hl. destruct (am_run_ok o a r Ha Hc Hl) as (a' & r' & -> & _). eauto.
Qed.

(** An address that is added is known from then on, and a known service that
    answered is in the tried table.  Add_ on a routable address always succeeds,
    reports whether the address is new and leaves it findable, however full its
    bucket; Good_ on a service the manager knows puts it into the tried bucket its
    key and group select (displacing an entry if the bucket is full), with its
    failures forgotten and the time of the success recorded. *)
Theorem add_then_good (key : list Z) (a : CAddrMan) (now : Z) (addr : CAddress) (source : CNetAddr) (nTimePenalty : Z) (r : R) :
  am_reachable key a -> nIdCount a < 2^31 - 1 -> IsRoutable (s_ip (a_service addr)) = true ->
  exists f a' r', Add_ now addr source nTimePenalty a r = Some (f, a', r') /\ am_reachable key a' /\
    f = bool_decide (Find (s_ip (a_service addr)) a = None) /\
    exists n i, Find (s_ip (a_service addr)) a' = Some (n, i) /\
    forall nTime, 0 < nTime -> exists b r'', Good_ (i_service i) nTime a' r' = Some (b, r'') /\ am_reachable key b /\
      exists j, Find (s_ip (a_service addr)) b = Some (n, j) /\ i_service j = i_service i /\ i_fInTried j = true /\ i_nLastSuccess j = nTime /\ i_nAttempts j = 0 /\
      (i_fInTried i = false -> exists l, vvTried b !! Z.to_nat (GetTriedBucket key (i_service i)) = Some l /\ n ∈ l).
Proof.
  intros Hreach Hid Hr. destruct (am_reachable_ok _ _ Hreach) as (Ha & Hc & Hk).
  destruct (Add_spec now addr source nTimePenalty a r Ha ltac:(lia)) as (f & a' & r' & E & Ha' & Hn & Hk' & Hf & HF).
  assert (am_reachable key a') as Hreach'. { apply (am_then key (op_add now addr source nTimePenalty) a r a' r' Hreach Hid). cbn. by rewrite E. }
  exists f, a', r'. rewrite Hr in Hf. conjs; [done|done|done|]. destruct (HF Hr) as [[n i] Hi]. exists n, i. split; [done|]. intros t Ht.
  apply (Find_iff None a' _ _ _ Ha') in Hi as Hi'. destruct Hi' as [Hi1 Hip].
  destruct (Good_spec (i_service i) t a' r' Ha' Ht) as (b & r'' & Eg & Hb & _ & Hkb & Hj).
  exists b, r''. split; [done|]. split; [by apply (am_then key (op_good (i_service i) t) a' r' b r'')|].
  destruct (Hj n i) as (j & Hj1 & Hjs & Hjt & Hjl & Hja & Hjb); [by apply (Find_iff None)|done|]. exists j. conjs; try done.
  - apply (Find_iff None b _ _ _ Hb). by rewrite Hjs.
  - by rewrite <- Hk, <- Hk'.
Qed.

(** The answer to getaddr is bounded and has no duplicates.  In a reachable
    state GetAddr_ returns exactly min(2500, 23%) of the entries, each the address of
    an entry, no two with the same network address. *)
Theorem getaddr_bounded (key : list Z) (a : CAddrMan) (r : R) : am_reachable key a ->
  exists v a' r', GetAddr_ a r = Some (v, a', r') /\ Z.of_nat (length v) = Z.min ADDRMAN_GETADDR_MAX (23 * Z.of_nat (size (mapInfo a)) / 100) /\
    NoDup (map (fun x => s_ip (a_service x)) v) /\ Forall (fun x => exists n i, mapInfo a !! n = Some i /\ info_address i = x) v.
Proof.
  intros (Ha & _)%am_reachable_ok. destruct (GetAddr_spec a r Ha) as (v & a' & r' & E & _ & _ & _ & Hl & Hnd & Hall).
  exists v, a', r'. rewrite <- (v_size _ _ Ha). conjs; [done|done|done|]. by apply Forall_forall.
Qed.

(** One part of the network cannot fill the table.  All addresses of a network
    group (a /16 of IPv4) share four tried buckets, and what one source group reports
    shares 32 new buckets; in every reachable state every tried entry is in the
    bucket of its service, so at most 256 of the 4096 tried entries are of one
    group. *)
Theorem group_confined (key : list Z) (a : CAddrMan) (g : list Z) (ids : list Z) : am_reachable key a -> NoDup ids ->
  (forall n, n ∈ ids -> exists i, mapInfo a !! n = Some i /\ i_fInTried i = true /\ GetGroup (i_ip i) = g) ->
  (length ids <= 4 * ADDRMAN_TRIED_BUCKET_SIZE)%nat /\
  (length (tried_buckets key g) = 4%nat /\ forall x, GetGroup (s_ip x) = g -> GetTriedBucket key x ∈ tried_buckets key g) /\
  (length (new_buckets key g) = 32%nat /\ forall x src, GetGroup src = g -> GetNewBucket key x src ∈ new_buckets key g).
Proof.
  intros Hr Hnd Hids. destruct (am_reachable_ok _ _ Hr) as (Ha & _ & Hk). pose proof (am_reachable_placed _ _ Hr) as Hp.
  conjs; [|done|intros x <-; apply tried_buckets_all|done|intros x src <-; apply new_buckets_all].
  apply (few_in_buckets ids (vvTried a) (map Z.to_nat (tried_buckets key g)) ADDRMAN_TRIED_BUCKET_SIZE Hnd); [by destruct (v_sizes _ _ Ha)|].
  intros n (i & Hi & Ht & Hg)%Hids. assert (n ∈ concat (vvTried a)) as Hn by (apply (v_tried _ _ Ha); eauto).
  apply list_elem_of_In, in_concat in Hn as (l & [b Hb]%list_elem_of_In%list_elem_of_lookup & Hn%list_elem_of_In). exists b, l. conjs; [|done|done].
  apply list_elem_of_fmap. exists (GetTriedBucket key (i_service i)). split; [by rewrite <- (Hp b l n i Hb Hn Hi), Hk|]. rewrite <- Hg. apply tried_buckets_all.
Qed.
End Properties.

(** ** A manager *)

Definition demo_service (k : Z) : CService := mkService (CNetAddr_ipv4 [8; k; 8; 8]) 8333.
Definition demo_source : CNetAddr := CNetAddr_ipv4 [9; 9; 9; 9].
Definition demo_ops : list am_op :=
  [op_add 1500000000 (mkAddress (demo_service 1) 1 1499999000 0) demo_source 0; op_add 1500000000 (mkAddress (demo_service 2) 1 1499999000 0) demo_source 7200;
   op_good (demo_service 2) 1500000000; op_attempt (demo_service 1) 1500000007].
Definition demo_tape : tape := mkTape (fun k => Z.of_nat k * 5 + 3) 0.
#[local] Instance am_legal_dec o a : Decision (am_legal o a).
Proof. destruct o; cbn; apply _. Defined.
Definition am_runs `{HD : Digests} (ops : list am_op) (st : option (CAddrMan * tape)) : option (CAddrMan * tape) :=
  fold_left (fun st o => st ≫= fun st => if decide (am_legal o (fst st)) then am_run o (fst st) (snd st) else None) ops st.
Definition demo : CAddrMan := fst (default (CAddrMan_make [7], demo_tape) (am_runs (HD := toy_digests) demo_ops (Some (CAddrMan_make [7], demo_tape)))).

Lemma am_runs_reachable `{HD : Digests} key ops : forall st a r, (forall p, st = Some p -> am_reachable key (fst p)) ->
  am_runs ops st = Some (a, r) -> am_reachable key a.
Proof.
  induction ops as [|o ops IH]; intros st a r Hst; [intros E; exact (Hst (a, r) E)|]. apply IH. intros p. destruct st as [[a0 r0]|]; [|done]. cbn [mbind option_bind fst snd].
  case_decide as Hl; [|done]. destruct p as [a1 r1]. intros E. by apply (am_then key o a0 r0 a1 r1 (Hst _ eq_refl)).
Qed.

Lemma demo_reachable : am_reachable (HD := toy_digests) (RD := tape_random) [7] demo.
Proof.
  assert (exists r, am_runs (HD := toy_digests) demo_ops (Some (CAddrMan_make [7], demo_tape)) = Some (demo, r)) as [r E].
  { unfold demo. destruct (am_runs demo_ops (Some (CAddrMan_make [7], demo_tape))) as [[a r]|] eqn:E; [by exists r|].
    assert (bool_decide (is_Some (am_runs (HD := toy_digests) demo_ops (Some (CAddrMan_make [7], demo_tape)))) = true) as H by (vm_compute; reflexivity).
    rewrite E in H. done. }
  eapply am_runs_reachable; [|exact E]. intros p [= <-]. apply am_start.
Qed.

Lemma addrman_consistent_witness : Check_ demo = 0 /\ nTried demo = 1 /\ nNew demo = 1 /\ Check_ (set_random [1; 0] demo) = -14.
Proof.
  split; [|by vm_compute]. destruct (addrman_consistent (HD := toy_digests) (RD := tape_random) [7] demo demo_reachable) as (H & _). exact H.
Defined.

Lemma add_then_good_witness : exists f a' r', Add_ (HD := toy_digests) (RD := tape_random) 1500000000 (mkAddress (demo_service 3) 1 1499999000 0) demo_source 0 demo demo_tape = Some (f, a', r') /\
  am_reachable (HD := toy_digests) (RD := tape_random) [7] a' /\ f = true.
Proof.
  destruct (add_then_good (HD := toy_digests) (RD := tape_random) [7] demo 1500000000 (mkAddress (demo_service 3) 1 1499999000 0) demo_source 0 demo_tape demo_reachable) as (f & a' & r' & E & Hr & Hf & _).
  - vm_compute. reflexivity.
  - vm_compute. reflexivity.
  - exists f, a', r'. split; [exact E|]. split; [exact Hr|]. rewrite Hf. vm_compute. reflexivity.
Defined.

Lemma getaddr_bounded_witness : exists v a' r', GetAddr_ (RD := tape_random) demo demo_tape = Some (v, a', r') /\ Z.of_nat (length v) = 0.
Proof.
  destruct (getaddr_bounded (HD := toy_digests) (RD := tape_random) [7] demo demo_tape demo_reachable) as (v & a' & r' & E & Hl & _).
  exists v, a', r'. split; [exact E|]. rewrite Hl. vm_compute. reflexivity.
Defined.

Lemma group_confined_witness : (length [1] <= 256)%nat /\ GetTriedBucket (HD := toy_digests) [7] (demo_service 2) ∈ tried_buckets (HD := toy_digests) [7] [1; 8; 2].
Proof.
  destruct (group_confined (HD := toy_digests) (RD := tape_random) [7] demo [1; 8; 2] [1] demo_reachable) as (H1 & (_ & H2) & _).
  - apply NoDup_singleton.
  - intros n Hn. apply list_elem_of_singleton in Hn as ->. destruct (mapInfo demo !! 1) as [i|] eqn:E; [|exfalso; revert E; vm_compute; discriminate].
    exists i. split; [reflexivity|]. revert E. vm_compute. intros [= <-]. split; reflexivity.
  - split; [exact H1|]. apply H2. vm_compute. reflexivity.
Defined.

(** SelectTried returns where the oldest entry was before the swap: of two entries
    it displaces the one that succeeded last. *)
Example select_tried_displaces_newer :
  let info k := set_fInTried true (set_good (k * 10) (CAddrInfo_make (mkAddress (demo_service k) 1 0 0) demo_source)) in
  let infos := list_to_map [(1, info 2); (2, info 1)] : gmap Z CAddrInfo in
  match select_tried 4 0 [1; 2] infos (-1) (-1) (mkTape (fun _ => 1) 0) with
  | Some (nPos, v, _) => v !! Z.to_nat nPos = Some 1 /\ i_nLastSuccess (info 1) < i_nLastSuccess (info 2)
  | None => False
  end.
Proof. vm_compute. split; reflexivity. Qed.
