(* ===== verification/Bloom.v ===== *)
(** * Bloom filters and filtered blocks (bloom.cpp, bloom.h, hash.cpp, main.cpp)

    [CBloomFilter] over MurmurHash3, its use for relayed transactions and for
    [CMerkleBlock], and the messages by which a peer sets its filter.  An operation
    is [None] when the index of a bit is taken modulo the size of an empty array. *)

From S2P Require Import Prelude Uint256 Serialize BigNum Tx Merkle Script Interp Standard.
#[local] Open Scope Z_scope.

(** ** MurmurHash3 *)

Definition ROTL32 (x r : Z) : Z := u32 (Z.lor (Z.shiftl x r) (Z.shiftr x (32 - r))).

Definition mur_c1 : Z := 0xcc9e2d51.
Definition mur_c2 : Z := 0x1b873593.

Definition mur_mix (k1 : Z) : Z := u32 (ROTL32 (u32 (k1 * mur_c1)) 15 * mur_c2).

(** The body: whole blocks of four bytes, read in host order (little endian). *)
Fixpoint mur_body (nblocks : nat) (data : list Z) (h1 : Z) : Z :=
  match nblocks with
  | O => h1
  | S n => mur_body n (drop 4 data) (u32 (ROTL32 (Z.lxor h1 (mur_mix (le_val (take 4 data)))) 13 * 5 + 0xe6546b64))
  end.

Definition mur_tail (tail : list Z) (h1 : Z) : Z :=
  match tail with
  | [] => h1
  | [a] => Z.lxor h1 (mur_mix a)
  | [a; b] => Z.lxor h1 (mur_mix (Z.lxor (Z.shiftl b 8) a))
  | a :: b :: c :: _ => Z.lxor h1 (mur_mix (Z.lxor (Z.lxor (Z.shiftl c 16) (Z.shiftl b 8)) a))
  end.

Definition MurmurHash3 (nHashSeed : Z) (vDataToHash : list Z) : Z :=
  let nblocks := (length vDataToHash / 4)%nat in
  let h1 := mur_tail (drop (nblocks * 4) vDataToHash) (mur_body nblocks vDataToHash nHashSeed) in
  let h1 := Z.lxor h1 (u32 (Z.of_nat (length vDataToHash))) in
  let h1 := u32 (Z.lxor h1 (Z.shiftr h1 16) * 0x85ebca6b) in
  let h1 := u32 (Z.lxor h1 (Z.shiftr h1 13) * 0xc2b2ae35) in
  Z.lxor h1 (Z.shiftr h1 16).

(** ** The filter *)

Definition MAX_BLOOM_FILTER_SIZE : Z := 36000.
Definition MAX_HASH_FUNCS : Z := 50.
Definition BLOOM_UPDATE_ALL : Z := 1.
Definition BLOOM_UPDATE_P2PUBKEY_ONLY : Z := 2.
Definition BLOOM_UPDATE_MASK : Z := 3.

Record CBloomFilter := mkFilter { vData : list Z; isFull : bool; isEmpty : bool; nHashFuncs : Z; nTweak : Z; nFlags : Z }.

(** [CBloomFilter()] initializes [isFull] only; the other scalars are what was in
    memory. *)
Definition CBloomFilter_default (e : bool) (h t f : Z) : CBloomFilter := mkFilter [] true e h t f.

Definition set_vData (v : list Z) (f : CBloomFilter) : CBloomFilter := mkFilter v (isFull f) (isEmpty f) (nHashFuncs f) (nTweak f) (nFlags f).
Definition set_isEmpty (e : bool) (f : CBloomFilter) : CBloomFilter := mkFilter (vData f) (isFull f) e (nHashFuncs f) (nTweak f) (nFlags f).

(** The serialized part. *)
Definition CBloomFilter_codec : codec (list Z * (Z * (Z * Z))) :=
  pair_codec bytevec_codec (pair_codec (uint_codec 4) (pair_codec (uint_codec 4) (uint_codec 1))).

Definition bit_mask (k : Z) : Z := Z.shiftl 1 k.

Definition BF_Hash (f : CBloomFilter) (nHashNum : Z) (vDataToHash : list Z) : option Z :=
  let nBits := Z.of_nat (length (vData f)) * 8 in
  if nBits =? 0 then None else Some (MurmurHash3 (u32 (nHashNum * 0xFBA4C795 + nTweak f)) vDataToHash mod nBits).

(** [vData[nIndex >> 3] |= bit_mask[7 & nIndex]] and its test *)
Definition set_bit (nIndex : Z) (v : list Z) : list Z :=
  alter (fun b => Z.lor b (bit_mask (Z.land 7 nIndex))) (Z.to_nat (Z.shiftr nIndex 3)) v.
Definition get_bit (nIndex : Z) (v : list Z) : bool :=
  negb (Z.land (nth (Z.to_nat (Z.shiftr nIndex 3)) v 0) (bit_mask (Z.land 7 nIndex)) =? 0).

Fixpoint insert_loop (fuel : nat) (i : Z) (vKey : list Z) (f : CBloomFilter) : option CBloomFilter :=
  match fuel with
  | O => Some f
  | S fuel =>
      match BF_Hash f i vKey with
      | None => None
      | Some nIndex => insert_loop fuel (i + 1) vKey (set_vData (set_bit nIndex (vData f)) f)
      end
  end.

Definition BF_insert (vKey : list Z) (f : CBloomFilter) : option CBloomFilter :=
  if isFull f then Some f else set_isEmpty false <$> insert_loop (Z.to_nat (nHashFuncs f)) 0 vKey f.
Definition BF_insert_outpoint (o : COutPoint) (f : CBloomFilter) : option CBloomFilter := BF_insert (enc COutPoint_codec o) f.
Definition BF_insert_hash (hash : uint256) (f : CBloomFilter) : option CBloomFilter := BF_insert (uint_bytes hash) f.

Fixpoint contains_loop (fuel : nat) (i : Z) (vKey : list Z) (f : CBloomFilter) : option bool :=
  match fuel with
  | O => Some true
  | S fuel =>
      match BF_Hash f i vKey with
      | None => None
      | Some nIndex => if get_bit nIndex (vData f) then contains_loop fuel (i + 1) vKey f else Some false
      end
  end.

Definition BF_contains (vKey : list Z) (f : CBloomFilter) : option bool :=
  if isFull f then Some true else if isEmpty f then Some false else contains_loop (Z.to_nat (nHashFuncs f)) 0 vKey f.
Definition BF_contains_outpoint (o : COutPoint) (f : CBloomFilter) : option bool := BF_contains (enc COutPoint_codec o) f.
Definition BF_contains_hash (hash : uint256) (f : CBloomFilter) : option bool := BF_contains (uint_bytes hash) f.

Definition IsWithinSizeConstraints (f : CBloomFilter) : bool :=
  ((Z.of_nat (length (vData f)) <=? MAX_BLOOM_FILTER_SIZE) && (nHashFuncs f <=? MAX_HASH_FUNCS))%bool.

Definition UpdateEmptyFull (f : CBloomFilter) : CBloomFilter :=
  mkFilter (vData f) (forallb (fun b => b =? 0xff) (vData f)) (forallb (fun b => b =? 0) (vData f)) (nHashFuncs f) (nTweak f) (nFlags f).

(** ** Matching transactions *)

(** Does the filter contain a data element of the script before the script ends or
    stops being readable? *)
Fixpoint any_element (fuel : nat) (pc : CScript) (f : CBloomFilter) : option bool :=
  match fuel with
  | O => Some false
  | S fuel =>
      match pc with
      | [] => Some false
      | _ =>
          match GetOp pc with
          | None => Some false
          | Some (_, data, pc) =>
              if (length data =? 0)%nat then any_element fuel pc f
              else match BF_contains data f with None => None | Some true => Some true | Some false => any_element fuel pc f end
          end
      end
  end.

Definition script_matches (s : CScript) (f : CBloomFilter) : option bool := any_element (length s) s f.

(** The update for a matched output. *)
Definition update_output (hash : uint256) (i : Z) (s : CScript) (f : CBloomFilter) : option CBloomFilter :=
  if Z.land (nFlags f) BLOOM_UPDATE_MASK =? BLOOM_UPDATE_ALL then BF_insert_outpoint (mkOutPoint hash i) f
  else if Z.land (nFlags f) BLOOM_UPDATE_MASK =? BLOOM_UPDATE_P2PUBKEY_ONLY then
    match Solver s with
    | (true, TX_PUBKEY, _) | (true, TX_MULTISIG, _) => BF_insert_outpoint (mkOutPoint hash i) f
    | _ => Some f
    end
  else Some f.

Fixpoint match_outputs (hash : uint256) (i : Z) (outs : list CTxOut) (fFound : bool) (f : CBloomFilter) : option (bool * CBloomFilter) :=
  match outs with
  | [] => Some (fFound, f)
  | txout :: outs =>
      match script_matches (scriptPubKey txout) f with
      | None => None
      | Some false => match_outputs hash (i + 1) outs fFound f
      | Some true =>
          match update_output hash i (scriptPubKey txout) f with
          | None => None
          | Some f => match_outputs hash (i + 1) outs true f
          end
      end
  end.

Fixpoint match_inputs (ins : list CTxIn) (f : CBloomFilter) : option bool :=
  match ins with
  | [] => Some false
  | txin :: ins =>
      match BF_contains_outpoint (prevout txin) f with
      | None => None
      | Some true => Some true
      | Some false =>
          match script_matches (scriptSig txin) f with None => None | Some true => Some true | Some false => match_inputs ins f end
      end
  end.

Definition IsRelevantAndUpdate (tx : CTransaction) (hash : uint256) (f : CBloomFilter) : option (bool * CBloomFilter) :=
  if isFull f then Some (true, f)
  else if isEmpty f then Some (false, f)
  else
    match BF_contains_hash hash f with
    | None => None
    | Some fFound =>
        match match_outputs hash 0 (vout tx) fFound f with
        | None => None
        | Some (true, f) => Some (true, f)
        | Some (false, f) => (fun b => (b, f)) <$> match_inputs (vin tx) f
        end
    end.

(** ** Filtered blocks *)

Record CMerkleBlock := mkMerkleBlock { mb_header : CBlockHeader; mb_txn : CPartialMerkleTree; vMatchedTxn : list (Z * uint256) }.

Section Blocks.
Context `{HD : Digests}.

Fixpoint match_block (i : Z) (txs : list CTransaction) (f : CBloomFilter) : option (list bool * list (Z * uint256) * list uint256 * CBloomFilter) :=
  match txs with
  | [] => Some ([], [], [], f)
  | tx :: txs =>
      let hash := CTransaction_GetHash tx in
      match IsRelevantAndUpdate tx hash f with
      | None => None
      | Some (b, f) =>
          match match_block (i + 1) txs f with
          | None => None
          | Some (vMatch, matched, vHashes, f) => Some (b :: vMatch, if b then (i, hash) :: matched else matched, hash :: vHashes, f)
          end
      end
  end.

Definition CMerkleBlock_make (block : CBlock) (f : CBloomFilter) : option (CMerkleBlock * CBloomFilter) :=
  match match_block 0 (vtx block) f with
  | None => None
  | Some (vMatch, matched, vHashes, f) => Some (mkMerkleBlock (header block) (PMT_make vHashes vMatch) matched, f)
  end.
End Blocks.

(** ** The filter of a peer *)

(** What the filter messages change of a [CNode]; [p_punished] sums the calls of
    [Misbehaving]. *)
Record peer := mkPeer { p_filter : option CBloomFilter; p_fRelayTxes : bool; p_punished : Z }.

(** [pfilter = new CBloomFilter()] *)
Definition peer_make (fresh : CBloomFilter) (fRelayTxes : bool) : peer := mkPeer (Some fresh) fRelayTxes 0.

Inductive filter_message :=
  | filterload (vRecv : list Z) (local : CBloomFilter)
  | filteradd (vRecv : list Z)
  | filterclear (fresh : CBloomFilter).

(** The outer [None] is a crash, the inner a stream that ends too early; [local] and
    [fresh] are default-constructed filters. *)
Definition filter_step (m : filter_message) (p : peer) : option (option peer) :=
  match m with
  | filterload vRecv local =>
      match dec CBloomFilter_codec vRecv with
      | None => Some None
      | Some ((v, (h, (t, fl))), _) =>
          let f := mkFilter v (isFull local) (isEmpty local) h t fl in
          Some (Some (if IsWithinSizeConstraints f then mkPeer (Some (UpdateEmptyFull f)) true (p_punished p)
                      else mkPeer (p_filter p) true (p_punished p + 100)))
      end
  | filteradd vRecv =>
      match dec bytevec_codec vRecv with
      | None => Some None
      | Some (v, _) =>
          if 520 <? Z.of_nat (length v) then Some (Some (mkPeer (p_filter p) (p_fRelayTxes p) (p_punished p + 100)))
          else
            match p_filter p with
            | None => Some (Some (mkPeer None (p_fRelayTxes p) (p_punished p + 100)))
            | Some f => (fun f => Some (mkPeer (Some f) (p_fRelayTxes p) (p_punished p))) <$> BF_insert v f
            end
      end
  | filterclear fresh => Some (Some (mkPeer (Some fresh) true (p_punished p)))
  end.

(** [RelayTransaction] to one peer: is the inventory pushed? *)
Definition relay_to (tx : CTransaction) (hash : uint256) (p : peer) : option (bool * peer) :=
  if negb (p_fRelayTxes p) then Some (false, p)
  else
    match p_filter p with
    | None => Some (true, p)
    | Some f => (fun r => (fst r, mkPeer (Some (snd r)) (p_fRelayTxes p) (p_punished p))) <$> IsRelevantAndUpdate tx hash f
    end.

(** Values of MurmurHash3 (x86, 32 bits) from its reference implementation. *)
Example murmur_0 : MurmurHash3 0 [] = 0x00000000. Proof. reflexivity. Qed.
Example murmur_1 : MurmurHash3 0xFBA4C795 [] = 0x6a396f08. Proof. reflexivity. Qed.
Example murmur_2 : MurmurHash3 0xFBA4C795 [0] = 0xea3f0b17. Proof. vm_compute. reflexivity. Qed.
