(* ===== verification/BloomFacts.v ===== *)
(** * Theorems on Bloom filters

    What was inserted is found, whatever is inserted later; no filter a peer can
    install makes the node divide by zero; a peer that loaded a filter is told every
    transaction of a block that concerns it. *)

From S2P Require Import Prelude Uint256 Serialize BigNum Tx Merkle Script Interp Standard Bloom.
#[local] Open Scope Z_scope.

(** ** Bits *)

Lemma land_bit x k : 0 <= k -> Z.land x (bit_mask k) = if Z.testbit x k then bit_mask k else 0.
Proof.
  intros Hk. unfold bit_mask. rewrite Z.shiftl_1_l. apply Z.bits_inj'. intros n Hn. rewrite Z.land_spec, Z.pow2_bits_eqb by done.
  destruct (Z.eqb_spec k n) as [->|Hne].
  - destruct (Z.testbit x n) eqn:E; [by rewrite Z.pow2_bits_true|by rewrite Z.bits_0].
  - rewrite andb_false_r. destruct (Z.testbit x k); [|by rewrite Z.bits_0]. symmetry. apply Z.pow2_bits_false. done.
Qed.

Lemma land7 i : 0 <= Z.land 7 i.
Proof. apply Z.land_nonneg. lia. Qed.

Lemma get_bit_testbit i v : get_bit i v = Z.testbit (nth (Z.to_nat (Z.shiftr i 3)) v 0) (Z.land 7 i).
Proof.
  unfold get_bit. rewrite land_bit by apply land7. destruct (Z.testbit _ _); [|done].
  unfold bit_mask. rewrite Z.shiftl_1_l. pose proof (Z.pow_pos_nonneg 2 (Z.land 7 i) ltac:(lia) (land7 i)). by rewrite (proj2 (Z.eqb_neq _ 0)) by lia.
Qed.

Lemma nth_set_bit i v k : nth k (set_bit i v) 0 =
  if decide (k = Z.to_nat (Z.shiftr i 3) /\ (k < length v)%nat) then Z.lor (nth k v 0) (bit_mask (Z.land 7 i)) else nth k v 0.
Proof.
  unfold set_bit. rewrite !nth_lookup. destruct (decide (k = Z.to_nat (Z.shiftr i 3))) as [->|Hne].
  - rewrite list_lookup_alter_eq. destruct (v !! Z.to_nat (Z.shiftr i 3)) as [b|] eqn:E; cbn.
    + rewrite decide_True; [done|]. split; [done|]. by eapply lookup_lt_Some.
    + rewrite decide_False; [done|]. intros [_ H]. apply lookup_ge_None in E. lia.
  - rewrite list_lookup_alter_ne by congruence. rewrite decide_False by naive_solver. done.
Qed.

Lemma get_set_bit i v : 0 <= i < Z.of_nat (length v) * 8 -> get_bit i (set_bit i v) = true.
Proof.
  intros Hi. rewrite get_bit_testbit, nth_set_bit. assert (Z.shiftr i 3 = i / 8) as E by (by rewrite Z.shiftr_div_pow2 by lia).
  rewrite decide_True; [|split; [done|]; rewrite E; pose proof (Z.div_lt_upper_bound i 8 (Z.of_nat (length v)) ltac:(lia) ltac:(lia)); pose proof (Z.div_pos i 8); lia].
  rewrite Z.lor_spec. unfold bit_mask. rewrite Z.shiftl_1_l, Z.pow2_bits_true by apply land7. apply orb_true_r.
Qed.

Lemma get_bit_kept i j v : get_bit j v = true -> get_bit j (set_bit i v) = true.
Proof. rewrite !get_bit_testbit, nth_set_bit. intros H. case_decide; [|done]. by rewrite Z.lor_spec, H. Qed.

(** ** Filters grow *)

(** The bits can be addressed. *)
Definition bf_ok (f : CBloomFilter) : Prop := isFull f = false -> vData f <> [].

(** Same parameters, and every bit of [f] is one of [g]. *)
Record bf_le (f g : CBloomFilter) : Prop := {
  le_len : length (vData g) = length (vData f);
  le_par : nHashFuncs g = nHashFuncs f /\ nTweak g = nTweak f /\ nFlags g = nFlags f;
  le_bits : forall j, get_bit j (vData f) = true -> get_bit j (vData g) = true;
  le_full : isFull g = isFull f;
  le_empty : isEmpty g = true -> isEmpty f = true;
}.

#[export] Instance bf_le_pre : PreOrder bf_le.
Proof.
  split; [by split|]. intros f g h [A1 (A2 & A3 & A4) A5 A6 A7] [B1 (B2 & B3 & B4) B5 B6 B7].
  split; [congruence|split; [|split]; congruence|auto|congruence|auto].
Qed.

Lemma bf_ok_le f g : bf_ok f -> bf_le f g -> bf_ok g.
Proof. intros Hf [Hl _ _ Hfull _] H. rewrite Hfull in H. specialize (Hf H). intros E. rewrite E in Hl. destruct (vData f); done. Qed.

Lemma BF_Hash_le f g i k : bf_le f g -> BF_Hash g i k = BF_Hash f i k.
Proof. intros [Hl (_ & Ht & _) _ _ _]. unfold BF_Hash. by rewrite Hl, Ht. Qed.

Lemma BF_Hash_some f i k : vData f <> [] -> exists n, BF_Hash f i k = Some n /\ 0 <= n < Z.of_nat (length (vData f)) * 8.
Proof.
  intros Hf. unfold BF_Hash. assert (0 < Z.of_nat (length (vData f)) * 8) as Hpos by (destruct (vData f); [done|cbn; lia]).
  rewrite (proj2 (Z.eqb_neq _ 0)) by lia. eexists. split; [reflexivity|]. by apply Z.mod_pos_bound.
Qed.

Lemma contains_loop_total fuel k f : vData f <> [] -> forall i, is_Some (contains_loop fuel i k f).
Proof.
  intros Hf. induction fuel as [|fuel IH]; intros i; cbn [contains_loop]; [eauto|]. destruct (BF_Hash_some f i k Hf) as (n & -> & _). destruct (get_bit _ _); eauto.
Qed.

Lemma contains_loop_le fuel k f g : bf_le f g -> forall i, contains_loop fuel i k f = Some true -> contains_loop fuel i k g = Some true.
Proof.
  intros H. induction fuel as [|fuel IH]; intros i; cbn [contains_loop]; [done|]. rewrite (BF_Hash_le f g i k H). destruct (BF_Hash f i k) as [n|]; [|done].
  destruct (get_bit n (vData f)) eqn:E; [|done]. rewrite (le_bits _ _ H n E). apply IH.
Qed.

Lemma contains_total k f : bf_ok f -> is_Some (BF_contains k f).
Proof. intros Hf. unfold BF_contains. destruct (isFull f) eqn:E; [eauto|]. destruct (isEmpty f); [eauto|]. apply contains_loop_total. by apply Hf. Qed.

Lemma contains_le k f g : bf_le f g -> BF_contains k f = Some true -> BF_contains k g = Some true.
Proof.
  intros H. unfold BF_contains. rewrite (le_full _ _ H). destruct (isFull f); [done|]. pose proof (le_empty _ _ H) as He.
  destruct (isEmpty f); [done|]. destruct (isEmpty g); [by discriminate He|]. destruct (le_par _ _ H) as (-> & _). by apply contains_loop_le.
Qed.

Lemma set_bit_le n f : bf_le f (set_vData (set_bit n (vData f)) f).
Proof. split; cbn; [apply length_alter|done|intros j; apply get_bit_kept|done|done]. Qed.

Lemma insert_loop_spec fuel k : forall i f, vData f <> [] -> exists g, insert_loop fuel i k f = Some g /\ bf_le f g /\ contains_loop fuel i k g = Some true.
Proof.
  induction fuel as [|fuel IH]; intros i f Hf; cbn [insert_loop contains_loop]; [by exists f|].
  destruct (BF_Hash_some f i k Hf) as (n & E & Hn). rewrite E. pose proof (set_bit_le n f) as Hle. set (f1 := set_vData _ f) in *.
  destruct (IH (i + 1) f1) as (g & -> & Hg & Hc).
  { intros E1. pose proof (le_len _ _ Hle) as Hl. rewrite E1 in Hl. destruct (vData f); done. }
  exists g. assert (bf_le f g) as Hfg by (by etrans). split; [done|]. split; [done|]. rewrite (BF_Hash_le f g i k Hfg), E.
  rewrite (le_bits _ _ Hg n); [done|]. by apply get_set_bit.
Qed.

(** What is inserted is found, and nothing is lost. *)
Lemma insert_spec k f : bf_ok f -> exists g, BF_insert k f = Some g /\ bf_ok g /\ bf_le f g /\ BF_contains k g = Some true.
Proof.
  intros Hf. unfold BF_insert. destruct (isFull f) eqn:Efull; [exists f; unfold BF_contains; by rewrite Efull|].
  destruct (insert_loop_spec (Z.to_nat (nHashFuncs f)) k 0 f (Hf Efull)) as (g & -> & Hg & Hc). exists (set_isEmpty false g). split; [done|].
  assert (bf_le f (set_isEmpty false g)) as Hle by (destruct Hg as [A1 A2 A3 A4 A5]; by split). split; [by eapply bf_ok_le|]. split; [done|].
  unfold BF_contains. cbn [isFull isEmpty nHashFuncs set_isEmpty]. rewrite (le_full _ _ Hg), Efull. destruct (le_par _ _ Hg) as (-> & _).
  apply (contains_loop_le _ k g); [|done]. by split.
Qed.

(** ** Loading *)

Lemma zero_no_bits v j : forallb (fun b => b =? 0) v = true -> get_bit j v = false.
Proof.
  intros H. rewrite get_bit_testbit. assert (nth (Z.to_nat (Z.shiftr j 3)) v 0 = 0) as ->; [|apply Z.bits_0].
  rewrite forallb_forall in H. destruct (nth_in_or_default (Z.to_nat (Z.shiftr j 3)) v 0) as [Hin|E]; [|exact E]. specialize (H _ Hin). cbv beta in H. lia.
Qed.

Lemma load_ok f : bf_ok (UpdateEmptyFull f).
Proof. unfold bf_ok, UpdateEmptyFull. cbn. destruct (vData f); done. Qed.

(** With at least one hash function the flags of a loaded filter change no answer
    from yes to no. *)
Lemma load_contains k f : 0 < nHashFuncs f -> isFull f = false -> BF_contains k f = Some true -> BF_contains k (UpdateEmptyFull f) = Some true.
Proof.
  intros Hh Hfull. unfold BF_contains. rewrite Hfull. cbn [UpdateEmptyFull isFull isEmpty]. destruct (isEmpty f); [done|]. intros Hc.
  destruct (forallb (fun b => b =? 255) (vData f)); [done|]. destruct (forallb (fun b => b =? 0) (vData f)) eqn:E.
  - exfalso. replace (Z.to_nat (nHashFuncs f)) with (S (Z.to_nat (nHashFuncs f) - 1)) in Hc by lia. cbn [contains_loop] in Hc.
    destruct (BF_Hash f 0 k) as [n|]; [|done]. by rewrite (zero_no_bits _ n E) in Hc.
  - change (nHashFuncs (UpdateEmptyFull f)) with (nHashFuncs f). revert Hc. generalize 0. induction (Z.to_nat (nHashFuncs f)) as [|fuel IH]; intros i; cbn [contains_loop]; [done|].
    change (BF_Hash (UpdateEmptyFull f) i k) with (BF_Hash f i k). destruct (BF_Hash f i k) as [n|]; [|done]. cbn [vData UpdateEmptyFull].
    destruct (get_bit n (vData f)); [apply IH|done].
Qed.

(** ** Scripts *)

(** The data elements of a script, up to where it stops being readable. *)
Inductive element_of : valtype -> CScript -> Prop :=
  | element_here opcode data pc pc' : GetOp pc = Some (opcode, data, pc') -> element_of data pc
  | element_later opcode data d pc pc' : GetOp pc = Some (opcode, d, pc') -> element_of data pc' -> element_of data pc.

Lemma GetOp_shorter pc opcode data rest : GetOp pc = Some (opcode, data, rest) -> (length rest < length pc)%nat.
Proof.
  destruct pc as [|c pc]; [done|]. cbn [GetOp]. destruct (c <=? OP_PUSHDATA4); [|intros [= _ _ <-]; cbn; lia].
  unfold push_size. destruct (c <? OP_PUSHDATA1); [|destruct (c =? OP_PUSHDATA1); [destruct pc as [|b pc]; [done|]|destruct (c =? OP_PUSHDATA2); destruct (_ <? _)%nat; try done]].
  all: destruct (_ <? _); [done|]; intros [= _ _ <-]; rewrite ?length_drop; cbn; lia.
Qed.

(** Some non-empty data element is in the filter. *)
Definition matches_script (s : CScript) (f : CBloomFilter) : Prop := exists d, element_of d s /\ d <> [] /\ BF_contains d f = Some true.

Lemma script_matches_spec s f : bf_ok f -> exists b, script_matches s f = Some b /\ (b = true <-> matches_script s f).
Proof.
  intros Hf. unfold script_matches. assert (length s <= length s)%nat as Hlen by done. revert Hlen. generalize (length s) at 2 3. intros fuel.
  revert s. induction fuel as [|fuel IH]; intros s Hlen; cbn [any_element].
  - exists false. split; [done|]. split; [done|]. destruct s; [|cbn in Hlen; lia]. intros (d & Hd & _). by inversion Hd.
  - destruct s as [|c s]; [exists false; split; [done|]; split; [done|]; intros (d & Hd & _); by inversion Hd|].
    destruct (GetOp (c :: s)) as [[[opcode data] pc]|] eqn:EG; [|exists false; split; [done|]; split; [done|]; intros (d & Hd & _); inversion Hd; congruence].
    apply GetOp_shorter in EG as Hs. destruct (IH pc ltac:(lia)) as (b & Eb & Hb).
    assert (forall e, (e = true <-> data <> [] /\ BF_contains data f = Some true) -> exists b', (if e then Some true else any_element fuel pc f) = Some b' /\ (b' = true <-> matches_script (c :: s) f)) as Hgo.
    { intros e He. destruct e.
      - exists true. split; [done|]. split; [|done]. intros _. exists data. split; [by eapply element_here|]. by apply He.
      - exists b. split; [done|]. rewrite Hb. split.
        + intros (d & Hd & Hn & Hc). exists d. split; [by eapply element_later|done].
        + intros (d & Hd & Hn & Hc). exists d. split; [|done]. inversion Hd as [o d' p p' E'|o d' d2 p p' E' Hd']; subst; [|congruence].
          assert (d = data) as -> by congruence. exfalso. destruct He as [_ He]. by discriminate He. }
    destruct data as [|x data]; cbn [length Nat.eqb].
    + apply (Hgo false). split; [done|]. by intros [? _].
    + destruct (contains_total (x :: data) f Hf) as [e Ee]. rewrite Ee. destruct e; [apply (Hgo true)|apply (Hgo false)]; split; done || (intros [_ H]; congruence).
Qed.

Lemma matches_script_le s f g : bf_le f g -> matches_script s f -> matches_script s g.
Proof. intros H (d & Hd & Hn & Hc). exists d. split; [done|]. split; [done|]. by eapply contains_le. Qed.

(** ** Transactions *)

(** Is a matched output with this script inserted? *)
Definition tracks (f : CBloomFilter) (s : CScript) : bool :=
  ((Z.land (nFlags f) BLOOM_UPDATE_MASK =? BLOOM_UPDATE_ALL)
   || ((Z.land (nFlags f) BLOOM_UPDATE_MASK =? BLOOM_UPDATE_P2PUBKEY_ONLY)
       && match Solver s with (true, TX_PUBKEY, _) | (true, TX_MULTISIG, _) => true | _ => false end))%bool.

Lemma tracks_le f g s : bf_le f g -> tracks g s = tracks f s.
Proof. intros H. unfold tracks. by destruct (le_par _ _ H) as (_ & _ & ->). Qed.

Lemma update_output_spec hash i s f : bf_ok f ->
  exists g, update_output hash i s f = Some g /\ bf_ok g /\ bf_le f g /\ (tracks f s = true -> BF_contains_outpoint (mkOutPoint hash i) g = Some true).
Proof.
  intros Hf. destruct (insert_spec (enc COutPoint_codec (mkOutPoint hash i)) f Hf) as (g & Eg & Hg & Hle & Hc).
  assert (exists g, Some f = Some g /\ bf_ok g /\ bf_le f g /\ (false = true -> BF_contains_outpoint (mkOutPoint hash i) g = Some true)) as Hno by (by exists f).
  unfold update_output, tracks, BF_insert_outpoint. destruct (_ =? BLOOM_UPDATE_ALL); cbn [orb]; [by eauto 10|]. destruct (_ =? BLOOM_UPDATE_P2PUBKEY_ONLY); cbn [andb]; [|exact Hno].
  destruct (Solver s) as [[[] []] ?]; first [exact Hno|by eauto 10].
Qed.

Lemma match_outputs_spec hash outs : forall i fFound f, bf_ok f ->
  exists b g, match_outputs hash i outs fFound f = Some (b, g) /\ bf_ok g /\ bf_le f g /\
    (fFound = true \/ (exists o, (o ∈ outs) /\ matches_script (scriptPubKey o) f) -> b = true) /\
    (b = true -> fFound = true \/ exists o, (o ∈ outs) /\ matches_script (scriptPubKey o) g) /\
    forall k o, outs !! k = Some o -> matches_script (scriptPubKey o) f -> tracks f (scriptPubKey o) = true ->
      BF_contains_outpoint (mkOutPoint hash (i + Z.of_nat k)) g = Some true.
Proof.
  induction outs as [|o outs IH]; intros i fFound f Hf; cbn [match_outputs].
  { exists fFound, f. split; [done|]. split; [done|]. split; [done|]. split; [|by split; [auto|]]. intros [?|(o & Ho & _)]; [done|by apply elem_of_nil in Ho]. }
  destruct (script_matches_spec (scriptPubKey o) f Hf) as (m & -> & Hm). destruct m.
  - destruct (update_output_spec hash i (scriptPubKey o) f Hf) as (f1 & -> & Hf1 & Hle1 & Ht).
    destruct (IH (i + 1) true f1 Hf1) as (b & g & -> & Hg & Hle & Hb & _ & Hk). exists b, g. assert (bf_le f g) as Hfg by (by etrans). assert (b = true) as -> by auto.
    split; [done|]. split; [done|]. split; [done|]. split; [done|]. split; [intros _; right; exists o; split; [by left|]; apply (matches_script_le _ f g Hfg); by apply Hm|].
    intros [|k] o'; cbn [lookup list_lookup].
    + intros [= <-] _ Htr. rewrite Z.add_0_r. apply (contains_le _ f1 g Hle). by apply Ht.
    + intros Ho' Hmo Htr. replace (i + Z.of_nat (S k)) with (i + 1 + Z.of_nat k) by lia. apply (Hk k o' Ho'); [by apply (matches_script_le _ f)|by rewrite (tracks_le f)].
  - destruct (IH (i + 1) fFound f Hf) as (b & g & -> & Hg & Hle & Hb & Hb' & Hk). exists b, g. split; [done|]. split; [done|]. split; [done|]. split; [|split].
    + intros [?|(o' & [->|Ho']%elem_of_cons & Hmo)]; [by auto|apply Hm in Hmo; done|]. apply Hb. right. eauto.
    + intros [?|(o' & Ho' & Hmo)]%Hb'; [by left|]. right. exists o'. split; [by right|done].
    + intros [|k] o'; cbn [lookup list_lookup]; [intros [= <-] Hmo; apply Hm in Hmo; done|]. intros Ho' Hmo Htr.
      replace (i + Z.of_nat (S k)) with (i + 1 + Z.of_nat k) by lia. by apply (Hk k o').
Qed.

Definition input_matches (i : CTxIn) (f : CBloomFilter) : Prop := BF_contains_outpoint (prevout i) f = Some true \/ matches_script (scriptSig i) f.

Lemma match_inputs_spec ins f : bf_ok f -> exists b, match_inputs ins f = Some b /\ (b = true <-> exists i, (i ∈ ins) /\ input_matches i f).
Proof.
  intros Hf. induction ins as [|i ins (b & Eb & Hb)]; cbn [match_inputs].
  { exists false. split; [done|]. split; [done|]. intros (i & Hi & _). by apply elem_of_nil in Hi. }
  unfold BF_contains_outpoint at 1. destruct (contains_total (enc COutPoint_codec (prevout i)) f Hf) as [c Ec]. rewrite Ec. destruct c.
  { exists true. split; [done|]. split; [|done]. intros _. exists i. split; [by left|]. by left. }
  destruct (script_matches_spec (scriptSig i) f Hf) as (m & -> & Hm). destruct m.
  { exists true. split; [done|]. split; [|done]. intros _. exists i. split; [by left|]. right. by apply Hm. }
  exists b. split; [done|]. rewrite Hb. split; [intros (j & Hj & H); exists j; split; [by right|done]|]. intros (j & [->|Hj]%elem_of_cons & H); [|eauto].
  exfalso. destruct H as [H|H]; [unfold BF_contains_outpoint in H; congruence|apply Hm in H; done].
Qed.

(** The transaction concerns the owner of the filter. *)
Definition touches (f : CBloomFilter) (tx : CTransaction) (hash : uint256) : Prop :=
  BF_contains_hash hash f = Some true \/ (exists o, (o ∈ vout tx) /\ matches_script (scriptPubKey o) f) \/ exists i, (i ∈ vin tx) /\ input_matches i f.

Lemma touches_le f g tx hash : bf_le f g -> touches f tx hash -> touches g tx hash.
Proof.
  intros H [Hh|[(o & Ho & Hm)|(i & Hi & [Hc|Hm])]].
  - left. by apply (contains_le _ f).
  - right; left. exists o. split; [done|]. by apply (matches_script_le _ f).
  - right; right. exists i. split; [done|]. left. by apply (contains_le _ f).
  - right; right. exists i. split; [done|]. right. by apply (matches_script_le _ f).
Qed.

Lemma empty_touches f tx hash : isFull f = false -> isEmpty f = true -> ~ touches f tx hash.
Proof.
  intros H1 H2. assert (forall k, BF_contains k f = Some false) as Hno by (intros k; unfold BF_contains; by rewrite H1, H2).
  intros [H|[(o & _ & d & _ & _ & H)|(i & _ & [H|(d & _ & _ & H)])]]; unfold BF_contains_hash, BF_contains_outpoint in H; by rewrite Hno in H.
Qed.

Lemma relevant_spec tx hash f : bf_ok f ->
  exists b g, IsRelevantAndUpdate tx hash f = Some (b, g) /\ bf_ok g /\ bf_le f g /\ (touches f tx hash -> b = true) /\ (b = true -> isFull f = true \/ touches g tx hash) /\
    forall k o, vout tx !! k = Some o -> matches_script (scriptPubKey o) f -> tracks f (scriptPubKey o) = true ->
      BF_contains_outpoint (mkOutPoint hash (Z.of_nat k)) g = Some true.
Proof.
  intros Hf. unfold IsRelevantAndUpdate. destruct (isFull f) eqn:E1.
  { exists true, f. split; [done|]. split; [done|]. split; [done|]. split; [done|]. split; [by left|]. intros. unfold BF_contains_outpoint, BF_contains. by rewrite E1. }
  destruct (isEmpty f) eqn:E2.
  { exists false, f. split; [done|]. split; [done|]. split; [done|]. split; [intros H; exfalso; by apply (empty_touches f tx hash)|]. split; [done|]. intros k o Ho Hm. exfalso.
    apply (empty_touches f tx hash E1 E2). right; left. exists o. split; [by eapply list_elem_of_lookup_2|done]. }
  unfold BF_contains_hash. destruct (contains_total (uint_bytes hash) f Hf) as [c Ec]. rewrite Ec.
  destruct (match_outputs_spec hash (vout tx) 0 c f Hf) as (b & g & -> & Hg & Hle & Hb & Hb' & Hk).
  assert (forall k o, vout tx !! k = Some o -> matches_script (scriptPubKey o) f -> tracks f (scriptPubKey o) = true -> BF_contains_outpoint (mkOutPoint hash (Z.of_nat k)) g = Some true) as Hk' by exact Hk.
  destruct b.
  - exists true, g. split; [done|]. split; [done|]. split; [done|]. split; [done|]. split; [|exact Hk']. intros _. right. destruct (Hb' eq_refl) as [->|H]; [left; by apply (contains_le _ f)|right; by left].
  - destruct (match_inputs_spec (vin tx) g Hg) as (m & -> & Hm). exists m, g. split; [done|]. split; [done|]. split; [done|]. split; [|split; [|exact Hk']].
    + intros [H|[H|H]].
      * unfold BF_contains_hash in H. assert (c = true) by congruence. discriminate Hb. by left.
      * discriminate Hb. by right.
      * apply Hm. destruct H as (i & Hi & [H|H]); exists i; (split; [done|]); [left; by apply (contains_le _ f)|right; by apply (matches_script_le _ f)].
    + intros H%Hm. right. by right; right.
Qed.

(** ** Blocks *)

Section Blocks.
Context `{HD : Digests}.

Abbreviation txid := CTransaction_GetHash.

Lemma match_block_spec txs : forall i f, bf_ok f ->
  exists ms mt hs g, match_block i txs f = Some (ms, mt, hs, g) /\ bf_ok g /\ bf_le f g /\ hs = map txid txs /\ length ms = length txs /\
    map snd mt = selected (zip hs ms) /\
    (forall k tx, txs !! k = Some tx -> touches f tx (txid tx) -> ms !! k = Some true) /\
    (forall k tx n o k' tx', txs !! k = Some tx -> vout tx !! n = Some o -> matches_script (scriptPubKey o) f -> tracks f (scriptPubKey o) = true ->
      (k < k')%nat -> txs !! k' = Some tx' -> (exists j, (j ∈ vin tx') /\ prevout j = mkOutPoint (txid tx) (Z.of_nat n)) -> ms !! k' = Some true).
Proof.
  induction txs as [|tx txs IH]; intros i f Hf; cbn [match_block].
  { exists [], [], [], f. split; [done|]. split; [done|]. split; [done|]. split; [done|]. split; [done|]. split; [done|]. by split. }
  destruct (relevant_spec tx (txid tx) f Hf) as (b & f1 & -> & Hf1 & Hle1 & Hb & _ & Hk1).
  destruct (IH (i + 1) f1 Hf1) as (ms & mt & hs & g & -> & Hg & Hle & Hhs & Hms & Hmt & Hall & Hchain).
  eexists _, _, _, g. split; [reflexivity|]. split; [done|]. split; [by etrans|]. split; [by rewrite Hhs|]. split; [cbn; lia|]. split; [|split].
  - unfold selected in *. cbn [zip zip_with]. rewrite filter_cons. cbn [snd]. destruct b; [rewrite decide_True by done; cbn [map snd fst]; by rewrite Hmt|].
    destruct (decide (false = true)); [done|exact Hmt].
  - intros [|k] tx'; cbn [lookup list_lookup]; [intros [= <-] H; by rewrite (Hb H)|]. intros Ht H. apply (Hall k tx' Ht). by apply (touches_le f).
  - intros k tx1 n o k' tx2 Hk Ho Hm Htr Hlt Hk' Hj. destruct k' as [|k']; [lia|]. cbn [lookup list_lookup] in Hk'. destruct k as [|k]; cbn [lookup list_lookup] in *.
    + injection Hk as <-. apply (Hall k' tx2 Hk'). right; right. destruct Hj as (j & Hj & Ej). exists j. split; [done|]. left. rewrite Ej. by apply Hk1 with o.
    + apply (Hchain k tx1 n o k' tx2 Hk Ho); [by apply (matches_script_le _ f)|by rewrite (tracks_le f)|lia|done|done].
Qed.

(** ** Peers *)

Inductive peer_event := ev_message (m : filter_message) | ev_relay (tx : CTransaction) (hash : uint256) | ev_getblock (block : CBlock).

(** One event; the outer [None] is a crash, the inner a message refused while it is
    read. *)
Definition peer_run (e : peer_event) (p : peer) : option (option peer) :=
  match e with
  | ev_message m => filter_step m p
  | ev_relay tx hash => (fun r => Some (snd r)) <$> relay_to tx hash p
  | ev_getblock block =>
      match p_filter p with
      | None => Some (Some p)
      | Some f => (fun r => Some (mkPeer (Some (snd r)) (p_fRelayTxes p) (p_punished p))) <$> CMerkleBlock_make block f
      end
  end.

(** [local] and [fresh] are default-constructed. *)
Definition fresh_ok (e : peer_event) : Prop :=
  match e with ev_message (filterclear fresh) => isFull fresh = true | _ => True end.

(** Does the event leave the peer's filter in place? *)
Definition keeps_filter (e : peer_event) : bool :=
  match e with ev_message (filterload _ _) | ev_message (filterclear _) => false | _ => true end.

(** What a peer can make the node work through. *)
Definition peer_ok (p : peer) : Prop :=
  match p_filter p with
  | None => True
  | Some f => isFull f = true \/ (vData f <> [] /\ IsWithinSizeConstraints f = true)
  end.

Lemma peer_filter_ok p f : peer_ok p -> p_filter p = Some f -> bf_ok f.
Proof. unfold peer_ok, bf_ok. intros H E. rewrite E in H. destruct H as [->|[H _]]; done. Qed.

Lemma within_le f g : bf_le f g -> IsWithinSizeConstraints g = IsWithinSizeConstraints f.
Proof. intros [Hl (Hh & _) _ _ _]. unfold IsWithinSizeConstraints. by rewrite Hl, Hh. Qed.

Lemma peer_ok_le p f g r n : peer_ok p -> p_filter p = Some f -> bf_le f g -> peer_ok (mkPeer (Some g) r n).
Proof.
  unfold peer_ok. intros H E Hle. rewrite E in H. cbn. rewrite (le_full _ _ Hle), (within_le _ _ Hle). destruct H as [H|[Hv H]]; [by left|right]. split; [|done].
  intros Eg. pose proof (le_len _ _ Hle) as Hl. rewrite Eg in Hl. destruct (vData f); done.
Qed.

Lemma make_block_spec block f : bf_ok f -> exists mb g, CMerkleBlock_make block f = Some (mb, g) /\ bf_le f g /\
  exists ms, mb_txn mb = PMT_make (map txid (vtx block)) ms /\ length ms = length (vtx block) /\ map snd (vMatchedTxn mb) = selected (zip (map txid (vtx block)) ms) /\
    mb_header mb = header block /\
    (forall k tx, vtx block !! k = Some tx -> touches f tx (txid tx) -> ms !! k = Some true) /\
    (forall k tx n o k' tx', vtx block !! k = Some tx -> vout tx !! n = Some o -> matches_script (scriptPubKey o) f -> tracks f (scriptPubKey o) = true ->
      (k < k')%nat -> vtx block !! k' = Some tx' -> (exists j, (j ∈ vin tx') /\ prevout j = mkOutPoint (txid tx) (Z.of_nat n)) -> ms !! k' = Some true).
Proof.
  intros Hf. unfold CMerkleBlock_make. destruct (match_block_spec (vtx block) 0 f Hf) as (ms & mt & hs & g & -> & _ & Hle & -> & Hl & Hmt & H1 & H2).
  eexists _, g. split; [reflexivity|]. split; [done|]. exists ms. cbn. done.
Qed.

(** No event crashes, and only a new filter or a cleared one replaces what is there. *)
Lemma peer_run_ok e p : peer_ok p -> fresh_ok e ->
  exists q, peer_run e p = Some q /\ forall p', q = Some p' -> peer_ok p' /\
    (keeps_filter e = true -> forall f, p_filter p = Some f -> exists g, p_filter p' = Some g /\ bf_le f g /\
       forall v rest vRecv, e = ev_message (filteradd vRecv) -> dec bytevec_codec vRecv = Some (v, rest) -> Z.of_nat (length v) <= 520 -> BF_contains v g = Some true).
Proof.
  intros Hp He. destruct e as [[vRecv local|vRecv|fresh]|tx hash|block]; cbn [peer_run filter_step keeps_filter].
  - destruct (dec CBloomFilter_codec vRecv) as [[[v [h [t fl]]] rest]|]; [|by exists None]. eexists. split; [reflexivity|]. intros p' [= <-]. split; [|done].
    set (f := mkFilter v _ _ h t fl). destruct (IsWithinSizeConstraints f) eqn:E; [|done]. unfold peer_ok. cbn [p_filter UpdateEmptyFull isFull]. change (vData f) with v.
    destruct (forallb (fun b => b =? 0xff) v) eqn:Ef; [by left|right]. split; [by destruct v|exact E].
  - destruct (dec bytevec_codec vRecv) as [[v rest]|] eqn:Ed; [|by exists None]. destruct (Z.ltb_spec 520 (Z.of_nat (length v))) as [Hlen|Hlen].
    + eexists. split; [reflexivity|]. intros p' [= <-]. split; [done|]. intros _ f Hf. exists f. split; [done|]. split; [done|]. intros v' rest' r [= <-]. rewrite Ed. intros [= <- _]. lia.
    + destruct (p_filter p) as [f|] eqn:Ef; [|eexists; split; [reflexivity|]; intros p' [= <-]; split; done].
      destruct (insert_spec v f (peer_filter_ok p f Hp Ef)) as (g & -> & Hg & Hle & Hc). eexists. split; [reflexivity|]. intros p' [= <-].
      split; [by apply (peer_ok_le p f)|]. intros _ f' [= <-]. exists g. split; [done|]. split; [done|]. intros v' rest' r [= <-]. rewrite Ed. by intros [= <- _].
  - eexists. split; [reflexivity|]. intros p' [= <-]. split; [|done]. by left.
  - unfold relay_to. destruct (negb _); [eexists; split; [reflexivity|]; intros p' [= <-]; split; [done|]; intros _ f Hf; exists f; by split|].
    destruct (p_filter p) as [f|] eqn:Ef; [|eexists; split; [reflexivity|]; intros p' [= <-]; split; done].
    destruct (relevant_spec tx hash f (peer_filter_ok p f Hp Ef)) as (b & g & -> & Hg & Hle & _). eexists. split; [reflexivity|]. intros p' [= <-].
    split; [by apply (peer_ok_le p f)|]. intros _ f' [= <-]. exists g. by split.
  - destruct (p_filter p) as [f|] eqn:Ef; [|eexists; split; [reflexivity|]; intros p' [= <-]; split; done].
    destruct (make_block_spec block f (peer_filter_ok p f Hp Ef)) as (mb & g & -> & Hle & _). eexists. split; [reflexivity|]. intros p' [= <-].
    split; [by apply (peer_ok_le p f)|]. intros _ f' [= <-]. exists g. by split.
Qed.

(** Events one after the other. *)
Inductive peer_steps (ok : peer_event -> Prop) : peer -> peer -> Prop :=
  | steps_none p : peer_steps ok p p
  | steps_more e p p' q : peer_steps ok p p' -> ok e -> peer_run e p' = Some (Some q) -> peer_steps ok p q.

Lemma steps_ok ok p q : (forall e, ok e -> fresh_ok e) -> peer_steps ok p q -> peer_ok p -> peer_ok q.
Proof.
  intros Hok H Hp. induction H as [|e p p' q _ IH He E]; [done|]. destruct (peer_run_ok e p' (IH Hp) (Hok e He)) as (r & Er & Hr). rewrite E in Er. injection Er as <-.
  by destruct (Hr q eq_refl).
Qed.

Lemma steps_keep p q f : peer_steps (fun e => keeps_filter e = true) p q -> peer_ok p -> p_filter p = Some f -> exists g, p_filter q = Some g /\ bf_le f g.
Proof.
  intros H Hp Hf. assert (forall e, keeps_filter e = true -> fresh_ok e) as Hfr by (intros [[]| |]; done).
  induction H as [p|e p p' q Hs IH He E]; [by exists f|]. destruct (IH Hp Hf) as (g & Hg & Hle). pose proof (steps_ok _ _ _ Hfr Hs Hp) as Hp'.
  destruct (peer_run_ok e p' Hp' (Hfr e He)) as (r & Er & Hr). rewrite E in Er. injection Er as <-. destruct (Hr q eq_refl) as [_ Hk]. destruct (Hk He g Hg) as (g' & Hg' & Hle' & _).
  exists g'. split; [done|]. by etrans.
Qed.

(** ** The owner of the filter *)

Fixpoint insert_all (keys : list valtype) (f : CBloomFilter) : option CBloomFilter :=
  match keys with [] => Some f | k :: keys => BF_insert k f ≫= insert_all keys end.

Definition wire (f : CBloomFilter) : list Z := enc CBloomFilter_codec (vData f, (nHashFuncs f, (nTweak f, nFlags f))).

Lemma set_bit_bytes n v : bytes_ok v -> bytes_ok (set_bit n v).
Proof.
  intros H. unfold set_bit. apply Forall_forall. intros b [k Hk]%list_elem_of_lookup. destruct (decide (k = Z.to_nat (Z.shiftr n 3))) as [->|Hne].
  - rewrite list_lookup_alter_eq in Hk. destruct (v !! _) as [c|] eqn:E; [|done]. injection Hk as <-. assert (0 <= c < 256) as Hc by (exact (Forall_lookup_1 _ v _ c H E)).
    unfold bit_mask. rewrite Z.shiftl_1_l. assert (0 <= Z.land 7 n < 8) as H7 by (rewrite Z.land_comm; change 7 with (Z.ones 3); rewrite Z.land_ones by lia; by apply Z.mod_pos_bound).
    split; [apply Z.lor_nonneg; split; [lia|apply Z.pow_nonneg; lia]|]. destruct (Z.eq_dec (Z.lor c (2 ^ Z.land 7 n)) 0) as [->|Hnz]; [lia|].
    apply (Z.log2_lt_pow2 _ 8); [pose proof (proj2 (Z.lor_nonneg c (2 ^ Z.land 7 n))); pose proof (Z.pow_nonneg 2 (Z.land 7 n)); lia|].
    rewrite Z.log2_lor by (lia || (apply Z.pow_nonneg; lia)). rewrite Z.log2_pow2 by lia. assert (Z.log2 c < 8); [|lia].
    destruct (Z.eq_dec c 0) as [->|]; [done|]. apply Z.log2_lt_pow2; lia.
  - rewrite list_lookup_alter_ne in Hk by congruence. exact (Forall_lookup_1 _ v _ b H Hk).
Qed.

Lemma insert_loop_bytes fuel k : forall i f g, insert_loop fuel i k f = Some g -> bytes_ok (vData f) -> bytes_ok (vData g) /\ isFull g = isFull f.
Proof.
  induction fuel as [|fuel IH]; intros i f g; cbn [insert_loop]; [by intros [= <-]|]. destruct (BF_Hash f i k) as [n|]; [|done]. intros E Hb.
  apply IH in E; [exact E|]. cbn. by apply set_bit_bytes.
Qed.

Lemma insert_all_spec keys : forall f, bf_ok f -> bytes_ok (vData f) ->
  exists g, insert_all keys f = Some g /\ bf_ok g /\ bf_le f g /\ bytes_ok (vData g) /\ forall k, k ∈ keys -> BF_contains k g = Some true.
Proof.
  induction keys as [|k keys IH]; intros f Hf Hb; cbn [insert_all]. { exists f. split; [done|]. split; [done|]. split; [done|]. split; [done|]. by intros k ?%elem_of_nil. }
  destruct (insert_spec k f Hf) as (f1 & E1 & Hf1 & Hle1 & Hc). rewrite E1. cbn [mbind option_bind].
  assert (bytes_ok (vData f1)) as Hb1.
  { revert E1. unfold BF_insert. destruct (isFull f); [by intros [= <-]|]. destruct (insert_loop _ _ _ _) as [g|] eqn:E; [|done]. intros [= <-]. by apply insert_loop_bytes in E as [? _]. }
  destruct (IH f1 Hf1 Hb1) as (g & -> & Hg & Hle & Hbg & Hall). exists g. split; [done|]. split; [done|]. split; [by etrans|]. split; [done|].
  intros k' [->|Hk']%elem_of_cons; [by apply (contains_le _ f1)|by apply Hall].
Qed.

(** The transaction has one of the keys. *)
Definition concerns (keys : list valtype) (tx : CTransaction) : Prop :=
  (uint_bytes (txid tx) ∈ keys) \/ (exists o d, (o ∈ vout tx) /\ element_of d (scriptPubKey o) /\ d <> [] /\ d ∈ keys) \/
  exists i, (i ∈ vin tx) /\ ((enc COutPoint_codec (prevout i) ∈ keys) \/ exists d, element_of d (scriptSig i) /\ d <> [] /\ d ∈ keys).

Lemma concerns_touches keys tx f : (forall k, k ∈ keys -> BF_contains k f = Some true) -> concerns keys tx -> touches f tx (txid tx).
Proof.
  intros Hk [H|[(o & d & Ho & He & Hn & Hd)|(i & Hi & [H|(d & He & Hn & Hd)])]].
  - left. by apply Hk.
  - right; left. exists o. split; [done|]. exists d. auto.
  - right; right. exists i. split; [done|]. left. by apply Hk.
  - right; right. exists i. split; [done|]. right. exists d. auto.
Qed.

Lemma load_spec f local p rest : bytes_ok (vData f) -> IsWithinSizeConstraints f = true -> 0 < nHashFuncs f -> 0 <= nTweak f < 2 ^ 32 -> 0 <= nFlags f < 256 ->
  filter_step (filterload (wire f ++ rest) local) p = Some (Some (mkPeer (Some (UpdateEmptyFull (mkFilter (vData f) (isFull local) (isEmpty local) (nHashFuncs f) (nTweak f) (nFlags f)))) true (p_punished p))).
Proof.
  intros Hb Hw Hh Ht Hfl. pose proof Hw as Hw'. unfold IsWithinSizeConstraints, MAX_BLOOM_FILTER_SIZE, MAX_HASH_FUNCS in Hw'. apply andb_true_iff in Hw' as [H1%Z.leb_le H2%Z.leb_le].
  cbn [filter_step]. unfold wire.
  assert (dec CBloomFilter_codec (enc CBloomFilter_codec (vData f, (nHashFuncs f, (nTweak f, nFlags f))) ++ rest) = Some ((vData f, (nHashFuncs f, (nTweak f, nFlags f))), rest)) as ->.
  { eapply dec_enc; [apply pair_codec_ok; [apply bytevec_codec_ok|apply pair_codec_ok; [apply (uint_codec_ok 4)|apply pair_codec_ok; [apply (uint_codec_ok 4)|apply (uint_codec_ok 1)]]]|].
    1,2,3: lia. unfold pair_valid, bytevec_valid, uint_valid, MAX_SIZE. cbn [fst snd]. split; [split; [lia|done]|]. cbn. lia. }
  unfold IsWithinSizeConstraints in *. cbn [vData nHashFuncs]. by rewrite Hw.
Qed.

Lemma selected_lookup (hs : list uint256) ms k h : hs !! k = Some h -> ms !! k = Some true -> h ∈ selected (zip hs ms).
Proof.
  intros Hh Hm. unfold selected. apply list_elem_of_fmap. exists (h, true). split; [done|]. apply list_elem_of_filter. split; [done|].
  apply list_elem_of_lookup. exists k. apply lookup_zip_with_Some. eauto.
Qed.

(** ** Properties *)

(** C23: no peer can crash the node with a Bloom filter.  From a new connection on,
    whatever filterload, filteradd and filterclear messages arrive (malformed ones
    included), whatever transactions are relayed and whatever filtered blocks are asked
    for, no operation takes an index modulo zero; a filter that is consulted bit by bit
    has at most 36000 bytes and 50 hash functions. *)
Theorem filter_never_crashes (fresh : CBloomFilter) (fRelayTxes : bool) (p : peer) :
  isFull fresh = true -> peer_steps fresh_ok (peer_make fresh fRelayTxes) p ->
  (forall e, fresh_ok e -> peer_run e p <> None) /\
  forall f, p_filter p = Some f -> isFull f = true \/ (vData f <> [] /\ Z.of_nat (length (vData f)) <= MAX_BLOOM_FILTER_SIZE /\ nHashFuncs f <= MAX_HASH_FUNCS).
Proof.
  intros Hfull Hs. assert (peer_ok p) as Hp by (apply (steps_ok fresh_ok _ _ (fun _ h => h) Hs); by left). split.
  - intros e He. destruct (peer_run_ok e p Hp He) as (q & -> & _). done.
  - intros f Ef. unfold peer_ok in Hp. rewrite Ef in Hp. destruct Hp as [H|[Hv H]]; [by left|right]. split; [done|]. unfold IsWithinSizeConstraints in H. apply andb_true_iff in H as [H1 H2]. lia.
Qed.

(** C22: filtered blocks are complete.  A client puts its keys into a filter of up to
    36000 bytes with 1 to 50 hash functions and sends it; the node loads it.  Whatever
    items are added, transactions relayed and blocks served after that, the merkle
    block for any block of up to 16666 transactions yields the Merkle root of the
    block and ids among which is every transaction that concerns a key (its id, a data
    element of an output or input script, an outpoint spent), and, as the flags
    direct, every later transaction that spends a matched output; the transactions
    pushed beside it are exactly those. *)
Theorem filtered_block_complete (n : nat) (h t fl : Z) (keys : list valtype) (local : CBloomFilter) (rest : list Z) (p0 : peer) :
  (0 < n)%nat -> Z.of_nat n <= MAX_BLOOM_FILTER_SIZE -> 1 <= h <= MAX_HASH_FUNCS -> 0 <= t < 2 ^ 32 -> 0 <= fl < 256 ->
  exists f p, insert_all keys (mkFilter (replicate n 0) false false h t fl) = Some f /\ filter_step (filterload (wire f ++ rest) local) p0 = Some (Some p) /\
    forall q block, peer_steps (fun e => keeps_filter e = true) p q -> 1 <= Z.of_nat (length (vtx block)) <= MAX_BLOCK_SIZE / 60 ->
    exists g mb g' ids, p_filter q = Some g /\ CMerkleBlock_make block g = Some (mb, g') /\ mb_header mb = header block /\
      ExtractMatches (mb_txn mb) = (merkle_root (map txid (vtx block)), ids) /\ map snd (vMatchedTxn mb) = ids /\
      (forall tx, tx ∈ vtx block -> concerns keys tx -> txid tx ∈ ids) /\
      forall k tx m o k' tx' d, vtx block !! k = Some tx -> vout tx !! m = Some o -> element_of d (scriptPubKey o) -> d <> [] -> (d ∈ keys) ->
        tracks f (scriptPubKey o) = true -> (k < k')%nat -> vtx block !! k' = Some tx' ->
        (exists j, (j ∈ vin tx') /\ prevout j = mkOutPoint (txid tx) (Z.of_nat m)) -> txid tx' ∈ ids.
Proof.
  intros Hn Hn' Hh Ht Hfl. set (f0 := mkFilter (replicate n 0) false false h t fl).
  destruct (insert_all_spec keys f0) as (f & Ef & Hf & Hle & Hb & Hall). { intros _. destruct n; [lia|done]. } { apply Forall_replicate. done. }
  destruct (le_par _ _ Hle) as (Eh & Et & Efl). cbn in Eh, Et, Efl. pose proof (le_len _ _ Hle) as El. cbn in El. rewrite length_replicate in El.
  assert (IsWithinSizeConstraints f = true) as Hw by (unfold IsWithinSizeConstraints; rewrite El, Eh; apply andb_true_iff; split; apply Z.leb_le; lia).
  set (lf := UpdateEmptyFull (mkFilter (vData f) (isFull local) (isEmpty local) (nHashFuncs f) (nTweak f) (nFlags f))).
  exists f, (mkPeer (Some lf) true (p_punished p0)). split; [done|]. split; [apply load_spec; [done|done|lia|lia|lia]|].
  assert (forall k, k ∈ keys -> BF_contains k lf = Some true) as Hlf.
  { intros k Hk. change lf with (UpdateEmptyFull f). apply load_contains; [lia|by rewrite (le_full _ _ Hle)|by apply Hall]. }
  intros q block Hs Hlen. assert (peer_ok (mkPeer (Some lf) true (p_punished p0))) as Hp.
  { unfold peer_ok. cbn [p_filter]. destruct (isFull lf) eqn:E; [by left|right]. split; [by apply load_ok|exact Hw]. }
  destruct (steps_keep _ _ lf Hs Hp eq_refl) as (g & Hg & Hlg). assert (forall e, keeps_filter e = true -> fresh_ok e) as Hfr by (intros [[]| |]; done).
  pose proof (peer_filter_ok q g (steps_ok _ _ _ Hfr Hs Hp) Hg) as Hgok. destruct (make_block_spec block g Hgok) as (mb & g' & Emb & _ & ms & Etx & Lms & Emt & Ehd & H1 & H2).
  assert (forall k, k ∈ keys -> BF_contains k g = Some true) as Hgk by (intros k Hk; apply (contains_le _ lf); auto).
  exists g, mb, g', (selected (zip (map txid (vtx block)) ms)). split; [done|]. split; [done|]. split; [done|]. split; [|split; [done|split]].
  - rewrite Etx. assert (1 <= Z.of_nat (length (map txid (vtx block))) <= 2 ^ 31) as Hl31 by (rewrite length_map; change (MAX_BLOCK_SIZE / 60) with 16666 in Hlen; lia).
    pose proof (extract_built (map txid (vtx block)) ms Hl31) as HE. rewrite length_map in HE. specialize (HE Lms [] ltac:(lia)). cbv zeta in HE. rewrite app_nil_r in HE. cbn [length] in HE.
    rewrite Nat.add_0_r in HE. specialize (HE eq_refl). by destruct (PMT_make (map txid (vtx block)) ms).
  - intros tx [k Hk]%list_elem_of_lookup Hc. apply (selected_lookup _ ms k); [by rewrite list_lookup_fmap, Hk|]. apply (H1 k tx Hk). by eapply concerns_touches.
  - intros k tx m o k' tx' d Hk Ho He Hne Hd Htr Hlt Hk' Hj. apply (selected_lookup _ ms k'); [by rewrite list_lookup_fmap, Hk'|].
    apply (H2 k tx m o k' tx' Hk Ho); [exists d; auto| |done|done|done]. rewrite (tracks_le lf g _ Hlg). exact Htr.
Qed.
End Blocks.

(** ** A filter *)

Definition demo_fresh : CBloomFilter := CBloomFilter_default false 0 0 0.
Definition demo_peer : peer := mkPeer (Some (mkFilter [3; 0] false false 2 0 1)) true 0.

Lemma filter_never_crashes_witness : peer_run (HD := toy_digests) (ev_message (filteradd (enc bytevec_codec [1; 2; 3]))) demo_peer <> None.
Proof.
  apply (filter_never_crashes (HD := toy_digests) demo_fresh false demo_peer).
  - reflexivity.
  - apply (steps_more _ (ev_message (filterload (wire (mkFilter [3; 0] false false 2 0 1)) demo_fresh)) _ (peer_make demo_fresh false)); [apply steps_none|exact I|vm_compute; reflexivity].
  - exact I.
Defined.

Definition demo_tx : CTransaction := mkTx 1 0 [] [mkTxOut 5 [3; 1; 2; 3]] 0.
Definition demo_block : CBlock := mkBlock (mkHeader 1 [] [] 0 0 0) [demo_tx] [].

Lemma filtered_block_complete_witness :
  exists f p g mb g' ids, insert_all [[1; 2; 3]] (mkFilter (replicate 2 0) false false 3 0 1) = Some f /\
    filter_step (filterload (wire f ++ []) demo_fresh) (peer_make demo_fresh false) = Some (Some p) /\ p_filter p = Some g /\
    CMerkleBlock_make (HD := toy_digests) demo_block g = Some (mb, g') /\ snd (@ExtractMatches toy_digests (mb_txn mb)) = ids /\
    @CTransaction_GetHash toy_digests demo_tx ∈ ids.
Proof.
  destruct (filtered_block_complete (HD := toy_digests) 2 3 0 1 [[1; 2; 3]] demo_fresh [] (peer_make demo_fresh false)) as (f & p & E1 & E2 & H);
    [lia|vm_compute; discriminate|vm_compute; split; discriminate|lia|lia|].
  destruct (H p demo_block) as (g & mb & g' & ids & Hg & Emb & _ & Ex & _ & Hc & _); [apply steps_none|vm_compute; split; discriminate|].
  exists f, p, g, mb, g', ids. split; [exact E1|]. split; [exact E2|]. split; [exact Hg|]. split; [exact Emb|]. split; [rewrite Ex; reflexivity|].
  apply Hc; [apply list_elem_of_singleton; reflexivity|]. right. left. exists (mkTxOut 5 [3; 1; 2; 3]), [1; 2; 3].
  split; [apply list_elem_of_singleton; reflexivity|]. split; [apply (element_here 3 [1; 2; 3] _ []); reflexivity|]. split; [discriminate|]. apply list_elem_of_singleton. reflexivity.
Defined.

(** A filter without hash functions contains everything until it is loaded and
    nothing afterwards, since no bit is ever set. *)
Example no_hash_functions :
  let f := mkFilter [0] false false 0 0 0 in
  BF_insert [1] f = Some f /\ BF_contains [1] f = Some true /\ BF_contains [1] (UpdateEmptyFull f) = Some false.
Proof. done. Qed.
