(* ===== verification/CoinSelect.v ===== *)
(** * Coin selection (wallet.cpp, wallet.h, coincontrol.h)

    The coins a wallet can spend and the choice of those that pay an amount.  What
    the methods of [CWalletTx] find out from the block chain is part of the entry;
    [rand() % 2] and the shuffle of Boost are parameters. *)

From S2P Require Import Prelude Uint256 Serialize Tx.
From stdpp Require Import sorting.
#[local] Open Scope Z_scope.

(** ** Spendable coins *)

(** A wallet transaction with [IsFinal], [IsConfirmed], [GetBlocksToMaturity],
    [GetDepthInMainChain], [vfSpent] and [IsFromMe]. *)
Record CWalletTx := mkWalletTx {
  w_tx : CTransaction; w_IsFinal : bool; w_IsConfirmed : bool; w_BlocksToMaturity : Z; w_Depth : Z; w_vfSpent : list bool; w_IsFromMe : bool;
}.

(** [COutput]; [o_hash] is the key of the transaction in [mapWallet], which stands for
    the pointer to it. *)
Record COutput := mkOutput { o_hash : uint256; o_tx : CWalletTx; o_i : nat; o_nDepth : Z }.

(** [tx->vout[i].nValue]; [i] is an index of [vout]. *)
Definition o_value (o : COutput) : Z := match vout (w_tx (o_tx o)) !! o_i o with Some t => nValue t | None => 0 end.
Definition o_coin (o : COutput) : Z * COutPoint := (o_value o, mkOutPoint (o_hash o) (Z.of_nat (o_i o))).

(** [CCoinControl::setSelected] *)
Definition HasSelected (setSelected : gset COutPoint) : bool := negb (size setSelected =? 0)%nat.
Definition IsSelected (setSelected : gset COutPoint) (hash : uint256) (n : nat) : bool := bool_decide (mkOutPoint hash (Z.of_nat n) ∈ setSelected).

Section Available.
Context (IsMine : CTxOut -> bool) (nMinimumInputValue : Z).

(** [IsSpent(i)]: past the end of [vfSpent] an output is unspent. *)
Definition w_IsSpent (w : CWalletTx) (i : nat) : bool := nth i (w_vfSpent w) false.

(** The outputs of one transaction that the test accepts. *)
Definition outputs_where (test : nat -> CTxOut -> bool) (hash : uint256) (w : CWalletTx) (nDepth : Z) : list COutput :=
  concat (imap (fun i t => if test i t then [mkOutput hash w i nDepth] else []) (vout (w_tx w))).

Definition AvailableCoins (fOnlyConfirmed : bool) (coinControl : option (gset COutPoint)) (mapWallet : list (uint256 * CWalletTx)) : list COutput :=
  concat (map (fun '(hash, w) =>
    if negb (w_IsFinal w) then []
    else if (fOnlyConfirmed && negb (w_IsConfirmed w))%bool then []
    else if (IsCoinBase (w_tx w) && (0 <? w_BlocksToMaturity w))%bool then []
    else if (IsCoinStake (w_tx w) && (0 <? w_BlocksToMaturity w))%bool then []
    else if w_Depth w <? 0 then []
    else outputs_where (fun i t =>
           negb (w_IsSpent w i) && IsMine t && (nMinimumInputValue <=? nValue t) &&
           match coinControl with None => true | Some sel => negb (HasSelected sel) || IsSelected sel hash i end)%bool hash w (w_Depth w)) mapWallet).

Definition AvailableCoinsMinConf (nConf : Z) (mapWallet : list (uint256 * CWalletTx)) : list COutput :=
  concat (map (fun '(hash, w) =>
    if negb (w_IsFinal w) then []
    else if w_Depth w <? nConf then []
    else outputs_where (fun i t => negb (w_IsSpent w i) && IsMine t && (nMinimumInputValue <=? nValue t))%bool hash w (w_Depth w)) mapWallet).
End Available.

(** ** Subset sums by chance *)

(** [CompareValueOnly], reversed *)
Definition larger_first (a b : Z * COutPoint) : Prop := fst b <= fst a.
#[export] Instance larger_first_dec a b : Decision (larger_first a b).
Proof. unfold larger_first. apply _. Defined.

Section Select.
Context {R : Type} (rand_bit : R -> bool * R) (random_shuffle : list COutput -> R -> list COutput * R).

Record subset_state := mkSubset { s_nTotal : Z; s_vfIncluded : list bool; s_fReachedTarget : bool; s_nBest : Z; s_vfBest : list bool }.

(** One coin of one pass. *)
Definition subset_step (fTake : bool) (i : nat) (v nTargetValue : Z) (s : subset_state) : subset_state :=
  if fTake then
    let nTotal := s64 (s_nTotal s + v) in
    let vfIncluded := <[i := true]> (s_vfIncluded s) in
    if nTargetValue <=? nTotal then
      let best := if nTotal <? s_nBest s then (nTotal, vfIncluded) else (s_nBest s, s_vfBest s) in
      mkSubset (s64 (nTotal - v)) (<[i := false]> vfIncluded) true (fst best) (snd best)
    else mkSubset nTotal vfIncluded (s_fReachedTarget s) (s_nBest s) (s_vfBest s)
  else s.

(** [for i: if (nPass == 0 ? rand() % 2 : !vfIncluded[i]) ...] *)
Fixpoint subset_pass (fFirst : bool) (i : nat) (values : list Z) (nTargetValue : Z) (s : subset_state) (r : R) : subset_state * R :=
  match values with
  | [] => (s, r)
  | v :: values =>
      let '(fTake, r) := if fFirst then rand_bit r else (negb (nth i (s_vfIncluded s) false), r) in
      subset_pass fFirst (S i) values nTargetValue (subset_step fTake i v nTargetValue s) r
  end.

(** [for nRep: nRep < iterations && nBest != nTargetValue] *)
Fixpoint subset_reps (iterations : nat) (values : list Z) (nTargetValue nBest : Z) (vfBest : list bool) (r : R) : Z * list bool * R :=
  match iterations with
  | O => (nBest, vfBest, r)
  | S iterations =>
      if nBest =? nTargetValue then (nBest, vfBest, r)
      else
        let '(s, r) := subset_pass true 0 values nTargetValue (mkSubset 0 (replicate (length values) false) false nBest vfBest) r in
        let '(s, r) := if s_fReachedTarget s then (s, r) else subset_pass false 0 values nTargetValue s r in
        subset_reps iterations values nTargetValue (s_nBest s) (s_vfBest s) r
  end.

Definition ApproximateBestSubset (vValue : list (Z * COutPoint)) (nTotalLower nTargetValue : Z) (iterations : nat) (r : R) : Z * list bool * R :=
  subset_reps iterations (map fst vValue) nTargetValue nTotalLower (replicate (length vValue) true) r.

(** ** SelectCoinsMinConf *)

(** The [continue]s of the loop over the coins. *)
Definition coin_allowed (nSpendTime nConfMine nConfTheirs : Z) (o : COutput) : bool :=
  (negb (o_nDepth o <? (if w_IsFromMe (o_tx o) then nConfMine else nConfTheirs)) && negb (nSpendTime <? tx_nTime (w_tx (o_tx o))))%bool.

(** The loop: a coin of exactly the value, or the smaller coins, their sum and the
    smallest of the larger ones. *)
Fixpoint split_coins (allowed : COutput -> bool) (nTargetValue : Z) (coins : list COutput) (vValue : list (Z * COutPoint)) (nTotalLower : Z)
    (coinLowestLarger : option (Z * COutPoint)) : (Z * COutPoint) + (list (Z * COutPoint) * Z * option (Z * COutPoint)) :=
  match coins with
  | [] => inr (vValue, nTotalLower, coinLowestLarger)
  | o :: coins =>
      if negb (allowed o) then split_coins allowed nTargetValue coins vValue nTotalLower coinLowestLarger
      else
        let n := o_value o in
        if n =? nTargetValue then inl (o_coin o)
        else if n <? nTargetValue + CENT then split_coins allowed nTargetValue coins (vValue ++ [o_coin o]) (s64 (nTotalLower + n)) coinLowestLarger
        else if n <? match coinLowestLarger with None => 2 ^ 63 - 1 | Some c => fst c end
        then split_coins allowed nTargetValue coins vValue nTotalLower (Some (o_coin o))
        else split_coins allowed nTargetValue coins vValue nTotalLower coinLowestLarger
  end.

(** Insert coins into [setCoinsRet] and add their values to [nValueRet]. *)
Definition take_coins (coins : list (Z * COutPoint)) (ret : gset COutPoint * Z) : gset COutPoint * Z :=
  fold_left (fun ret c => ({[snd c]} ∪ fst ret, s64 (snd ret + fst c))) coins ret.

(** [sort(rbegin, rend, CompareValueOnly())]: descending; equal values keep their
    order here, which the code leaves open. *)
Definition sort_coins (v : list (Z * COutPoint)) : list (Z * COutPoint) := merge_sort larger_first v.

Definition masked (v : list (Z * COutPoint)) (vf : list bool) : list (Z * COutPoint) := map fst (filter (fun p => snd p = true) (zip v vf)).

Definition SelectCoinsMinConf (nTargetValue nSpendTime nConfMine nConfTheirs : Z) (vCoins : list COutput) (r : R) : bool * gset COutPoint * Z * R :=
  let '(vCoins, r) := random_shuffle vCoins r in
  let give coins r := (true, fst (take_coins coins (∅, 0)), snd (take_coins coins (∅, 0)), r) in
  match split_coins (coin_allowed nSpendTime nConfMine nConfTheirs) nTargetValue vCoins [] 0 None with
  | inl c => give [c] r
  | inr (vValue, nTotalLower, coinLowestLarger) =>
      if nTotalLower =? nTargetValue then give vValue r
      else if nTotalLower <? nTargetValue then
        match coinLowestLarger with None => (false, ∅, 0, r) | Some c => give [c] r end
      else
        let vValue := sort_coins vValue in
        let '(nBest, vfBest, r) := ApproximateBestSubset vValue nTotalLower nTargetValue 1000 r in
        let '(nBest, vfBest, r) :=
          if (negb (nBest =? nTargetValue) && (nTargetValue + CENT <=? nTotalLower))%bool
          then ApproximateBestSubset vValue nTotalLower (nTargetValue + CENT) 1000 r else (nBest, vfBest, r) in
        match coinLowestLarger with
        | Some c =>
            if ((negb (nBest =? nTargetValue) && (nBest <? nTargetValue + CENT)) || (fst c <=? nBest))%bool then give [c] r
            else give (masked vValue vfBest) r
        | None => give (masked vValue vfBest) r
        end
  end.

(** ** SelectCoins *)

(** [byCoinAge] is [SelectCoinsMinConfByCoinAge], chosen by [-minimizecoinage]. *)
Definition SelectCoins (fMinimizeCoinAge : bool) (byCoinAge : Z -> Z -> Z -> Z -> list COutput -> R -> bool * gset COutPoint * Z * R)
    (IsMine : CTxOut -> bool) (nMinimumInputValue : Z) (mapWallet : list (uint256 * CWalletTx))
    (nTargetValue nSpendTime : Z) (ret : gset COutPoint * Z) (coinControl : option (gset COutPoint)) (r : R) : bool * gset COutPoint * Z * R :=
  let vCoins := AvailableCoins IsMine nMinimumInputValue true coinControl mapWallet in
  if match coinControl with Some sel => HasSelected sel | None => false end then
    let ret := take_coins (map o_coin vCoins) ret in (nTargetValue <=? snd ret, fst ret, snd ret, r)
  else
    let f := if fMinimizeCoinAge then byCoinAge else SelectCoinsMinConf in
    match f nTargetValue nSpendTime 1 10 vCoins r with
    | (true, s, v, r) => (true, s, v, r)
    | (false, _, _, r) =>
        match f nTargetValue nSpendTime 1 1 vCoins r with
        | (true, s, v, r) => (true, s, v, r)
        | (false, _, _, r) => f nTargetValue nSpendTime 0 1 vCoins r
        end
    end.

(** ** SelectCoinsSimple *)

Fixpoint select_simple (coins : list COutput) (nTargetValue nSpendTime : Z) (ret : gset COutPoint * Z) : gset COutPoint * Z :=
  match coins with
  | [] => ret
  | o :: coins =>
      if nTargetValue <=? snd ret then ret
      else if nSpendTime <? tx_nTime (w_tx (o_tx o)) then select_simple coins nTargetValue nSpendTime ret
      else if nTargetValue <=? o_value o then take_coins [o_coin o] ret
      else if o_value o <? nTargetValue + CENT then select_simple coins nTargetValue nSpendTime (take_coins [o_coin o] ret)
      else select_simple coins nTargetValue nSpendTime ret
  end.

Definition SelectCoinsSimple (IsMine : CTxOut -> bool) (nMinimumInputValue : Z) (mapWallet : list (uint256 * CWalletTx))
    (nTargetValue nSpendTime nMinConf : Z) : bool * gset COutPoint * Z :=
  let ret := select_simple (AvailableCoinsMinConf IsMine nMinimumInputValue nMinConf mapWallet) nTargetValue nSpendTime (∅, 0) in
  (true, fst ret, snd ret).
End Select.

(** ** Sums *)

Definition total (l : list Z) : Z := foldr Z.add 0 l.

Lemma total_app l l' : total (l ++ l') = total l + total l'.
Proof. induction l as [|x l IH]; cbn; [done|]. unfold total in *. lia. Qed.

Lemma total_nonneg l : Forall (fun v => 0 <= v) l -> 0 <= total l.
Proof. induction 1; cbn; [lia|]. unfold total in *. lia. Qed.

#[export] Instance total_perm : Proper ((≡ₚ) ==> (=)) total.
Proof. induction 1; cbn; unfold total in *; lia. Qed.

(** The sum of the chosen values. *)
Definition chosen (vf : list bool) (values : list Z) : Z := total (zip_with (fun (b : bool) v => if b then v else 0) vf values).

Lemma chosen_insert vf values i v : vf !! i = Some false -> values !! i = Some v -> chosen (<[i := true]> vf) values = chosen vf values + v.
Proof.
  revert vf values. induction i as [|i IH]; intros [|b vf] [|w values]; try done; cbn [lookup list_lookup].
  - intros [= ->] [= ->]. unfold chosen. cbn. unfold total. lia.
  - intros Hb Hv. change (<[S i := true]> (b :: vf)) with (b :: <[i := true]> vf). unfold chosen in *. cbn. specialize (IH vf values Hb Hv). unfold total in *. lia.
Qed.

Lemma chosen_bounds vf values : Forall (fun v => 0 <= v) values -> 0 <= chosen vf values <= total values.
Proof.
  intros H. revert vf. induction H as [|v values Hv Hvs IH]; intros [|b vf]; unfold chosen in *; cbn; [done|done|split; [done|]|].
  - pose proof (total_nonneg values Hvs). unfold total in *. lia.
  - specialize (IH vf). unfold total in *. destruct b; lia.
Qed.

Lemma chosen_none n values : chosen (replicate n false) values = 0.
Proof. revert values. induction n as [|n IH]; intros [|v values]; try done. unfold chosen in *. cbn. specialize (IH values). unfold total in *. lia. Qed.

Lemma chosen_all values : chosen (replicate (length values) true) values = total values.
Proof. induction values as [|v values IH]; [done|]. unfold chosen in *. cbn. unfold total in *. lia. Qed.

Lemma masked_total v vf : total (map fst (masked v vf)) = chosen vf (map fst v).
Proof.
  revert vf. induction v as [|c v IH]; intros [|b vf]; try done. unfold masked, chosen in *. cbn [zip zip_with map]. rewrite filter_cons. cbn [snd]. specialize (IH vf).
  destruct b; [rewrite decide_True by done; cbn; unfold total in *; lia|]. destruct (decide (false = true)); [done|]. cbn. unfold total in *. lia.
Qed.

Lemma masked_submseteq v vf : masked v vf ⊆+ v.
Proof.
  revert vf. induction v as [|c v IH]; intros [|b vf]; try (apply submseteq_nil_l || done). unfold masked in *. cbn [zip zip_with]. rewrite filter_cons. cbn [snd].
  destruct b; [rewrite decide_True by done; by apply submseteq_skip|]. destruct (decide (false = true)); [done|]. by apply submseteq_cons.
Qed.

(** ** The search *)

Section Search.
Context {R : Type} (rand_bit : R -> bool * R) (values : list Z) (nTargetValue : Z).
Context (Hpos : Forall (fun v => 0 <= v) values) (Hmax : total values < 2 ^ 63) (Htarget : 0 < nTargetValue).

Record subset_ok (s : subset_state) : Prop := {
  so_len : length (s_vfIncluded s) = length values; so_sum : s_nTotal s = chosen (s_vfIncluded s) values; so_low : s_nTotal s < nTargetValue;
  so_best : s_nBest s = chosen (s_vfBest s) values; so_high : nTargetValue <= s_nBest s;
}.

Lemma subset_step_ok b i v s : subset_ok s -> values !! i = Some v -> (b = true -> s_vfIncluded s !! i = Some false) ->
  subset_ok (subset_step b i v nTargetValue s) /\ forall j, j <> i -> s_vfIncluded (subset_step b i v nTargetValue s) !! j = s_vfIncluded s !! j.
Proof.
  intros Hs Hv Hb. unfold subset_step. destruct b; [|done]. specialize (Hb eq_refl). destruct Hs as [H1 H2 H3 H4 H5].
  pose proof (chosen_insert _ _ i v Hb Hv) as Hc. pose proof (chosen_bounds (<[i := true]> (s_vfIncluded s)) values Hpos) as Hbd.
  rewrite s64_small by lia. destruct (Z.leb_spec nTargetValue (s_nTotal s + v)) as [Hle|Hgt].
  - rewrite list_insert_insert_eq, (list_insert_id (s_vfIncluded s) i false Hb). pose proof (chosen_bounds (s_vfIncluded s) values Hpos). split; [|done].
    split; cbn [s_nTotal s_vfIncluded s_nBest s_vfBest]; [done|rewrite s64_small by lia; lia|rewrite s64_small by lia; lia|..]; destruct (_ <? _); cbn [fst snd]; lia.
  - split; [|intros j Hj; cbn; by rewrite list_lookup_insert_ne by congruence]. split; cbn [s_nTotal s_vfIncluded s_nBest s_vfBest]; [by rewrite length_insert|lia|lia|lia|lia].
Qed.

Lemma subset_pass_ok fFirst rest : forall i s r, drop i values = rest -> subset_ok s -> (fFirst = true -> forall j, (i <= j < length values)%nat -> s_vfIncluded s !! j = Some false) ->
  subset_ok (fst (subset_pass rand_bit fFirst i rest nTargetValue s r)).
Proof.
  induction rest as [|v rest IH]; intros i s r Hd Hs Hf; cbn [subset_pass]; [done|].
  assert (values !! i = Some v) as Hv by (rewrite <- (Nat.add_0_r i), <- lookup_drop, Hd; done). apply lookup_lt_Some in Hv as Hlt.
  assert (drop (S i) values = rest) as Hd' by (rewrite <- (skipn_skipn 1 i), Hd; done).
  destruct (if fFirst then rand_bit r else (negb (nth i (s_vfIncluded s) false), r)) as [b r1] eqn:E.
  assert (b = true -> s_vfIncluded s !! i = Some false) as Hb.
  { intros ->. destruct fFirst; [apply Hf; [done|lia]|]. injection E as E _. apply negb_true_iff in E. destruct (lookup_lt_is_Some_2 (s_vfIncluded s) i) as [c Hc]; [rewrite (so_len _ Hs); lia|].
    rewrite nth_lookup, Hc in E. cbn in E. congruence. }
  destruct (subset_step_ok b i v s Hs Hv Hb) as [Hs' Hsame]. apply IH; [done|done|]. intros Hff j Hj. rewrite Hsame by lia. apply Hf; [done|lia].
Qed.

(** The result is the sum of what it chose, and reaches the target. *)
Lemma subset_reps_ok iterations : forall nBest vfBest r, nBest = chosen vfBest values -> nTargetValue <= nBest ->
  exists nBest' vfBest' r', subset_reps rand_bit iterations values nTargetValue nBest vfBest r = (nBest', vfBest', r') /\ nBest' = chosen vfBest' values /\ nTargetValue <= nBest'.
Proof.
  induction iterations as [|k IH]; intros nBest vfBest r H1 H2; cbn [subset_reps]; [by eauto 10|]. destruct (_ =? _); [by eauto 10|].
  assert (subset_ok (mkSubset 0 (replicate (length values) false) false nBest vfBest)) as H0.
  { split; cbn [s_nTotal s_vfIncluded s_nBest s_vfBest]; [by rewrite length_replicate|by rewrite chosen_none|done|done|done]. }
  pose proof (subset_pass_ok true values 0 _ r eq_refl H0) as Hp. destruct (subset_pass rand_bit true 0 values nTargetValue _ r) as [s r1]. cbn [fst] in Hp.
  assert (subset_ok s) as Hs. { apply Hp. intros _ j Hj. cbn. apply lookup_replicate. split; [done|lia]. }
  destruct (s_fReachedTarget s); [apply IH; apply Hs|]. pose proof (subset_pass_ok false values 0 s r1 eq_refl Hs) as Hp2.
  destruct (subset_pass rand_bit false 0 values nTargetValue s r1) as [s2 r2]. cbn [fst] in Hp2. specialize (Hp2 ltac:(done)). apply IH; apply Hp2.
Qed.
End Search.

(** ** The choice *)

Definition amounts (cs : list (Z * COutPoint)) : Z := total (map fst cs).
#[export] Instance amounts_perm : Proper ((≡ₚ) ==> (=)) amounts.
Proof. intros a b H. unfold amounts. by rewrite H. Qed.

Lemma amounts_app a b : amounts (a ++ b) = amounts a + amounts b.
Proof. unfold amounts. by rewrite map_app, total_app. Qed.

Lemma amounts_cons c a : amounts (c :: a) = fst c + amounts a.
Proof. done. Qed.

Lemma amounts_nonneg a : Forall (fun c => 0 <= fst c) a -> 0 <= amounts a.
Proof. intros H. apply total_nonneg. by apply Forall_map. Qed.

(** The coins that the confirmation and time rules admit. *)
Definition eligible (allowed : COutput -> bool) (coins : list COutput) : list (Z * COutPoint) := map o_coin (filter (fun o => allowed o = true) coins).

Lemma eligible_cons allowed o coins : eligible allowed (o :: coins) = (if allowed o then [o_coin o] else []) ++ eligible allowed coins.
Proof. unfold eligible. rewrite filter_cons. destruct (allowed o); [by rewrite decide_True by done|]. by destruct (decide (false = true)). Qed.

Lemma eligible_perm allowed coins coins' : coins ≡ₚ coins' -> eligible allowed coins ≡ₚ eligible allowed coins'.
Proof. intros H. unfold eligible. by rewrite H. Qed.

Lemma amounts_submseteq (cs es : list (Z * COutPoint)) : cs ⊆+ es -> Forall (fun c => 0 <= fst c) es -> Forall (fun c => 0 <= fst c) cs /\ 0 <= amounts cs <= amounts es.
Proof.
  intros (k & ->)%submseteq_Permutation H. rewrite amounts_app. apply Forall_app in H as [H1 H2].
  pose proof (amounts_nonneg cs H1). pose proof (amounts_nonneg k H2). split; [done|lia].
Qed.

Lemma take_coins_spec cs : forall ret, Forall (fun c => 0 <= fst c) cs -> 0 <= snd ret -> snd ret + amounts cs < 2 ^ 63 ->
  take_coins cs ret = (list_to_set (map snd cs) ∪ fst ret, snd ret + amounts cs).
Proof.
  unfold take_coins. induction cs as [|c cs IH]; intros [s v] H Hv Hlt; cbn [fold_left fst snd] in *; [f_equal; [set_solver|cbn; lia]|].
  apply Forall_cons in H as [Hc H]. pose proof (amounts_nonneg cs H) as Hn. rewrite amounts_cons in Hlt |- *. rewrite s64_small by lia.
  rewrite IH; cbn [fst snd]; [|done|lia|lia]. f_equal; [set_solver|lia].
Qed.

(** Coins of [es], none twice, that pay the target; change of less than a cent only
    when all coins together leave no more. *)
Definition pays (es : list (Z * COutPoint)) (nTargetValue : Z) (s : gset COutPoint) (v : Z) : Prop :=
  exists cs, cs ⊆+ es /\ s = list_to_set (map snd cs) /\ v = amounts cs /\ nTargetValue <= v /\
    (v = nTargetValue \/ nTargetValue + CENT <= v \/ amounts es < nTargetValue + CENT).

Lemma give_pays es t cs : Forall (fun c => 0 <= fst c) es -> amounts es < 2 ^ 63 -> cs ⊆+ es -> t <= amounts cs ->
  (amounts cs = t \/ t + CENT <= amounts cs \/ amounts es < t + CENT) -> pays es t (fst (take_coins cs (∅, 0))) (snd (take_coins cs (∅, 0))).
Proof.
  intros Hes Hmax Hcs Ht Hor. destruct (amounts_submseteq cs es Hcs Hes) as [Hc Hle]. rewrite take_coins_spec; cbn [fst snd]; [|done|lia|lia].
  exists cs. split; [done|]. split; [set_solver|]. split; [lia|]. rewrite Z.add_0_l. split; [done|exact Hor].
Qed.

(** Smaller coins with their sum, larger coins with the smallest of them. *)
Lemma split_spec allowed t coins : forall v low larger, Forall (fun c => 0 <= fst c) (eligible allowed coins) -> low = amounts v -> 0 <= low ->
  low + amounts (eligible allowed coins) < 2 ^ 63 - 1 -> (forall c, larger = Some c -> t + CENT <= fst c) ->
  match split_coins allowed t coins v low larger with
  | inl c => (c ∈ eligible allowed coins) /\ fst c = t
  | inr (v', low', larger') => exists lo hi, v' = v ++ lo /\ low' = low + amounts lo /\ lo ++ hi ≡ₚ eligible allowed coins /\
      match larger' with
      | None => larger = None /\ hi = []
      | Some c => t + CENT <= fst c /\ (larger = Some c \/ c ∈ hi)
      end
  end.
Proof.
  induction coins as [|o coins IH]; intros v low larger HF Hlow H0 Hmax Hlarger; cbn [split_coins].
  { exists [], []. rewrite app_nil_r. split; [done|]. split; [cbn; lia|]. split; [done|]. destruct larger as [c|]; [|done]. split; [by apply Hlarger|by left]. }
  rewrite eligible_cons in HF, Hmax |- *. destruct (allowed o); cbn [negb app] in *; [|by apply IH].
  apply Forall_cons in HF as [Ho HF]. rewrite amounts_cons in Hmax. change (fst (o_coin o)) with (o_value o) in *.
  pose proof (amounts_nonneg _ HF) as Hn. destruct (Z.eqb_spec (o_value o) t) as [Ht|Ht]; [split; [by left|done]|].
  destruct (Z.ltb_spec (o_value o) (t + CENT)) as [Hlt|Hge].
  - rewrite s64_small by lia. specialize (IH (v ++ [o_coin o]) (low + o_value o) larger HF). destruct (split_coins allowed t coins (v ++ [o_coin o]) (low + o_value o) larger) as [c|[[v' low'] larger']].
    + destruct IH as [Hc Hf]; [rewrite amounts_app, amounts_cons; cbn; change (fst (o_coin o)) with (o_value o); lia|lia|lia|done|]. split; [by right|done].
    + destruct IH as (lo & hi & -> & -> & Hp & Hl); [rewrite amounts_app, amounts_cons; cbn; change (fst (o_coin o)) with (o_value o); lia|lia|lia|done|].
      exists (o_coin o :: lo), hi. rewrite <- app_assoc. split; [done|]. split; [rewrite amounts_cons; change (fst (o_coin o)) with (o_value o); lia|]. split; [cbn; by rewrite Hp|done].
  - set (old := match larger with None => 2 ^ 63 - 1 | Some c => fst c end). destruct (Z.ltb_spec (o_value o) old) as [Hlo|Hhi].
    + specialize (IH v low (Some (o_coin o)) HF Hlow H0 ltac:(lia)). destruct (split_coins allowed t coins v low (Some (o_coin o))) as [c|[[v' low'] larger']].
      * destruct IH as [Hc Hf]; [by intros c' [= <-]|]. split; [by right|done].
      * destruct IH as (lo & hi & -> & -> & Hp & Hl); [by intros c' [= <-]|]. exists lo, (o_coin o :: hi). split; [done|]. split; [done|]. split; [by rewrite <- Permutation_middle, Hp|].
        destruct larger' as [c|]; [|by destruct Hl]. destruct Hl as [Hc [[= <-]|Hc']]; split; [done|right; by left|done|right; by right].
    + assert (larger <> None) as Hsome by (intros ->; unfold old in Hhi; lia).
      specialize (IH v low larger HF Hlow H0 ltac:(lia) Hlarger). destruct (split_coins allowed t coins v low larger) as [c|[[v' low'] larger']].
      * destruct IH as [Hc Hf]. split; [by right|done].
      * destruct IH as (lo & hi & -> & -> & Hp & Hl). exists lo, (o_coin o :: hi). split; [done|]. split; [done|]. split; [by rewrite <- Permutation_middle, Hp|].
        destruct larger' as [c|]; [|by destruct Hl]. destruct Hl as [Hc [Hl|Hl]]; (split; [done|]); [by left|right; by right].
Qed.

Section Correct.
Context {R : Type} (rand_bit : R -> bool * R) (random_shuffle : list COutput -> R -> list COutput * R).
(** Boost's shuffle permutes. *)
Context (shuffle_perm : forall l r, fst (random_shuffle l r) ≡ₚ l).

Abbreviation MinConf := (SelectCoinsMinConf rand_bit random_shuffle).

Lemma sort_coins_perm v : sort_coins v ≡ₚ v.
Proof. apply merge_sort_Permutation. Qed.

(** The random search on sorted coins. *)
Lemma approximate_spec v low t k r : Forall (fun c => 0 <= fst c) v -> low = amounts v -> low < 2 ^ 63 -> 0 < t <= low ->
  exists nBest vf r', ApproximateBestSubset rand_bit (sort_coins v) low t k r = (nBest, vf, r') /\ nBest = amounts (masked (sort_coins v) vf) /\ t <= nBest.
Proof.
  intros HF Hlow Hmax Ht. unfold ApproximateBestSubset. pose proof (sort_coins_perm v) as Hp.
  destruct (subset_reps_ok rand_bit (map fst (sort_coins v)) t) with (iterations := k) (nBest := low) (vfBest := replicate (length (sort_coins v)) true) (r := r) as (nb & vf & r' & E & Hb & Hn).
  - apply Forall_map. rewrite Hp. exact HF.
  - change (total (map fst (sort_coins v))) with (amounts (sort_coins v)). rewrite Hp. lia.
  - lia.
  - rewrite <- (length_map fst), chosen_all. change (total (map fst (sort_coins v))) with (amounts (sort_coins v)). by rewrite Hp.
  - lia.
  - exists nb, vf, r'. split; [done|]. split; [|done]. unfold amounts. by rewrite masked_total.
Qed.

Lemma MinConf_spec t time cm ct coins r : let es := eligible (coin_allowed time cm ct) coins in
  0 < t -> Forall (fun c => 0 <= fst c) es -> amounts es < 2 ^ 63 - 1 ->
  exists b s v r', MinConf t time cm ct coins r = (b, s, v, r') /\
    if b then pays es t s v else amounts es < t /\ s = ∅ /\ v = 0.
Proof.
  intros es Ht HF Hmax. unfold SelectCoinsMinConf. pose proof (shuffle_perm coins r) as Hsh. destruct (random_shuffle coins r) as [coins' r1]. cbn [fst] in Hsh.
  set (al := coin_allowed time cm ct) in *. pose proof (eligible_perm al _ _ Hsh) as Hel. fold es in Hel.
  assert (Forall (fun c => 0 <= fst c) (eligible al coins')) as HF' by (by rewrite Hel). assert (amounts (eligible al coins') = amounts es) as Ea by (by rewrite Hel).
  pose proof (split_spec al t coins' [] 0 None HF' eq_refl ltac:(lia) ltac:(lia) ltac:(done)) as Hsp.
  assert (forall cs (r2 : R), cs ⊆+ es -> t <= amounts cs -> (amounts cs = t \/ t + CENT <= amounts cs \/ amounts es < t + CENT) ->
    exists b s v r', (true, fst (take_coins cs (∅, 0)), snd (take_coins cs (∅, 0)), r2) = (b, s, v, r') /\ if b then pays es t s v else amounts es < t /\ s = ∅ /\ v = 0) as Hgive.
  { intros cs r2 H1 H2 H3. eexists _, _, _, _. split; [reflexivity|]. apply give_pays; done || lia. }
  destruct (split_coins al t coins' [] 0 None) as [c|[[lo low] larger]].
  { destruct Hsp as [Hc Hft]. apply Hgive; [apply singleton_submseteq_l; by rewrite <- Hel|rewrite amounts_cons; cbn; lia|left; rewrite amounts_cons; cbn; lia]. }
  destruct Hsp as (lo' & hi & -> & -> & Hp & Hlarger). cbn [app] in *. rewrite Z.add_0_l. rewrite Hel in Hp.
  assert (lo' ⊆+ es) as Hlo by (rewrite <- Hp; apply submseteq_inserts_r; done). assert (hi ⊆+ es) as Hhi by (rewrite <- Hp; apply submseteq_inserts_l; done).
  destruct (amounts_submseteq lo' es Hlo HF) as [HFlo Hle]. assert (amounts es = amounts lo' + amounts hi) as Es by (by rewrite <- Hp, amounts_app).
  assert (forall c, larger = Some c -> t + CENT <= fst c /\ [c] ⊆+ es) as Hlg.
  { intros c ->. destruct Hlarger as [Hc [?|Hin]]; [done|]. split; [done|]. etrans; [|exact Hhi]. by apply singleton_submseteq_l. }
  assert (forall c (r2 : R), larger = Some c -> exists b s v r', (true, fst (take_coins [c] (∅, 0)), snd (take_coins [c] (∅, 0)), r2) = (b, s, v, r') /\
    if b then pays es t s v else amounts es < t /\ s = ∅ /\ v = 0) as Hgl.
  { intros c r2 E. destruct (Hlg c E) as [H1 H2]. apply Hgive; [done|rewrite amounts_cons; unfold CENT in *; cbn; lia|right; left; rewrite amounts_cons; cbn; lia]. }
  destruct (Z.eqb_spec (amounts lo') t) as [E|Hne]; [apply Hgive; [done|lia|by left]|]. destruct (Z.ltb_spec (amounts lo') t) as [Hlt|Hge].
  { destruct larger as [c|]; [by apply Hgl|]. destruct Hlarger as [_ ->]. cbn in Es. eexists _, _, _, _. split; [reflexivity|]. split; [lia|done]. }
  destruct (approximate_spec lo' (amounts lo') t 1000 r1 HFlo eq_refl ltac:(lia) ltac:(lia)) as (nb & vf & r2 & -> & Hnb & Hnt).
  assert (forall vf', masked (sort_coins lo') vf' ⊆+ es) as Hmask by (intros vf'; etrans; [apply masked_submseteq|]; by rewrite sort_coins_perm).
  assert (exists nb' vf' r3, (if (negb (nb =? t) && (t + CENT <=? amounts lo'))%bool then ApproximateBestSubset rand_bit (sort_coins lo') (amounts lo') (t + CENT) 1000 r2 else (nb, vf, r2)) = (nb', vf', r3) /\
    nb' = amounts (masked (sort_coins lo') vf') /\ t <= nb' /\ (nb' = t \/ t + CENT <= nb' \/ amounts lo' < t + CENT)) as (nb' & vf' & r3 & -> & Hnb' & Hnt' & Hor).
  { destruct (Z.eqb_spec nb t) as [->|Hnbt]; cbn [negb andb]; [by eauto 10|]. destruct (Z.leb_spec (t + CENT) (amounts lo')) as [Hc|Hc]; [|by eauto 10].
    destruct (approximate_spec lo' (amounts lo') (t + CENT) 1000 r2 HFlo eq_refl ltac:(lia) ltac:(unfold CENT in *; lia)) as (nb' & vf' & r3 & -> & H1 & H2).
    exists nb', vf', r3. split; [done|]. split; [done|]. split; [unfold CENT in *; lia|by right; left]. }
  destruct larger as [c|].
  - destruct (_ || _)%bool eqn:Eb; [by apply Hgl|]. apply orb_false_iff in Eb as [Eb _]. apply andb_false_iff in Eb. apply Hgive; [apply Hmask|lia|]. rewrite <- Hnb'. lia.
  - destruct Hlarger as [_ ->]. cbn in Es. apply Hgive; [apply Hmask|lia|]. rewrite <- Hnb'. lia.
Qed.

(** ** Available coins *)

(** A coin of the wallet that can be spent. *)
Definition spendable (IsMine : CTxOut -> bool) (mapWallet : list (uint256 * CWalletTx)) (o : COutput) : Prop :=
  (o_hash o, o_tx o) ∈ mapWallet /\ (exists t, vout (w_tx (o_tx o)) !! o_i o = Some t /\ IsMine t = true) /\ w_IsSpent (o_tx o) (o_i o) = false /\
  w_IsFinal (o_tx o) = true /\ w_IsConfirmed (o_tx o) = true /\ 0 <= o_nDepth o /\
  ((IsCoinBase (w_tx (o_tx o)) || IsCoinStake (w_tx (o_tx o)))%bool = true -> w_BlocksToMaturity (o_tx o) <= 0).

Lemma outputs_where_elem test hash w d o : o ∈ outputs_where test hash w d <->
  o_hash o = hash /\ o_tx o = w /\ o_nDepth o = d /\ exists t, vout (w_tx w) !! o_i o = Some t /\ test (o_i o) t = true.
Proof.
  unfold outputs_where. rewrite list_elem_of_In, in_concat. split.
  - intros (l & (i & t & E & Hi)%list_elem_of_In%elem_of_lookup_imap & Hin). destruct (test i t) eqn:Et; subst l; [|done]. destruct Hin as [<-|[]]. cbn. eauto 10.
  - intros (<- & <- & <- & t & Ht & Et). exists [o]. split; [|by left]. apply list_elem_of_In, elem_of_lookup_imap. exists (o_i o), t. rewrite Et. split; [by destruct o|done].
Qed.

Lemma available_spendable IsMine nMin cc wallet o : o ∈ AvailableCoins IsMine nMin true cc wallet -> spendable IsMine wallet o.
Proof.
  unfold AvailableCoins. rewrite list_elem_of_In, in_concat. intros (l & ([hash w] & <- & Hw)%in_map_iff & Hin%list_elem_of_In). apply list_elem_of_In in Hw.
  destruct (w_IsFinal w) eqn:E1; cbn [negb] in Hin; [|by apply elem_of_nil in Hin]. destruct (w_IsConfirmed w) eqn:E2; cbn [negb andb] in Hin; [|by apply elem_of_nil in Hin].
  destruct (IsCoinBase (w_tx w) && (0 <? w_BlocksToMaturity w))%bool eqn:E3; [by apply elem_of_nil in Hin|].
  destruct (IsCoinStake (w_tx w) && (0 <? w_BlocksToMaturity w))%bool eqn:E4; [by apply elem_of_nil in Hin|].
  destruct (Z.ltb_spec (w_Depth w) 0) as [|E5]; [by apply elem_of_nil in Hin|]. apply outputs_where_elem in Hin as (<- & <- & Hd & t & Ht & Etest).
  rewrite !andb_true_iff, negb_true_iff in Etest. destruct Etest as [[[Hs Hm] _] _].
  unfold spendable. split; [done|]. split; [by eauto|]. split; [done|]. split; [done|]. split; [done|]. split; [lia|]. intros H.
  destruct (Z.ltb_spec 0 (w_BlocksToMaturity (o_tx o))) as [Hlt|]; [|done]. rewrite andb_true_r in E3, E4. rewrite E3, E4 in H. done.
Qed.

Lemma outputs_where_nodup test hash w d : NoDup (map (fun o => snd (o_coin o)) (outputs_where test hash w d)).
Proof.
  unfold outputs_where. assert (forall l (k : nat), NoDup (map (fun o => snd (o_coin o)) (concat (imap (fun i t => if test (k + i)%nat t then [mkOutput hash w (k + i)%nat d] else []) l)))) as H; [|by apply (H _ O)].
  induction l as [|t l IH]; intros k; cbn [imap concat map]; [constructor|]. rewrite map_app. specialize (IH (S k)).
  assert (imap ((fun i t => if test (k + i)%nat t then [mkOutput hash w (k + i)%nat d] else []) ∘ S) l = imap (fun i t => if test (S k + i)%nat t then [mkOutput hash w (S k + i)%nat d] else []) l) as ->
    by (apply imap_ext; intros i x _; cbn; by rewrite Nat.add_succ_r).
  apply NoDup_app. split; [destruct (test _ t); [apply NoDup_singleton|constructor]|]. split; [|done]. intros p Hp (o & -> & Ho)%list_elem_of_fmap.
  destruct (test (k + 0)%nat t); [|by apply elem_of_nil in Hp]. apply list_elem_of_singleton in Hp. cbn in Hp. injection Hp as _ Ei.
  rewrite list_elem_of_In, in_concat in Ho. destruct Ho as (q & (i & x & E & _)%list_elem_of_In%elem_of_lookup_imap & Hin). destruct (test (S k + i)%nat x); subst q; [|done]. destruct Hin as [<-|[]]. cbn in Ei. lia.
Qed.

Lemma available_nodup IsMine nMin cc wallet : NoDup (map fst wallet) -> NoDup (map (fun o => snd (o_coin o)) (AvailableCoins IsMine nMin true cc wallet)).
Proof.
  unfold AvailableCoins. induction wallet as [|[hash w] wallet IH]; cbn [map concat]; intros Hnd; [constructor|]. apply NoDup_cons in Hnd as [Hh Hnd]. rewrite map_app.
  set (f := fun '(hash, w) => _) in *. assert (forall h x o, o ∈ f (h, x) -> o_hash o = h) as Hf.
  { intros h x o. unfold f. repeat (match goal with |- context [if ?b then [] else _] => destruct b; [by intros ?%elem_of_nil|] end). by intros [-> _]%outputs_where_elem. }
  apply NoDup_app. split; [|split; [|by apply IH]].
  - unfold f. repeat (match goal with |- context [if ?b then [] else _] => destruct b; [constructor|] end). apply outputs_where_nodup.
  - intros p (o & -> & Ho)%list_elem_of_fmap (o' & E & Ho')%list_elem_of_fmap. apply Hf in Ho. apply list_elem_of_In, in_concat in Ho' as (q & ([h x] & <- & Hx)%in_map_iff & Hin%list_elem_of_In).
    apply Hf in Hin. cbn in E. injection E as E _. apply Hh. apply list_elem_of_fmap. exists (h, x). split; [cbn; congruence|by apply list_elem_of_In].
Qed.

Lemma eligible_mono al al' coins : (forall o, al o = true -> al' o = true) -> eligible al coins ⊆+ eligible al' coins.
Proof.
  intros H. induction coins as [|o coins IH]; [done|]. rewrite !eligible_cons. destruct (al o) eqn:E; [rewrite (H o E); by apply submseteq_skip|].
  destruct (al' o); [by apply submseteq_cons|done].
Qed.

Lemma allowed_mono time cm ct cm' ct' o : cm' <= cm -> ct' <= ct -> coin_allowed time cm ct o = true -> coin_allowed time cm' ct' o = true.
Proof. intros H1 H2. unfold coin_allowed. rewrite !andb_true_iff, !negb_true_iff. intros [Hd Ht]. split; [|done]. destruct (w_IsFromMe (o_tx o)); lia. Qed.

Lemma eligible_all coins : eligible (fun _ => true) coins = map o_coin coins.
Proof. induction coins as [|o coins IH]; [done|]. rewrite eligible_cons, IH. done. Qed.

Lemma submseteq_map_inv (cs : list (Z * COutPoint)) coins : cs ⊆+ map o_coin coins -> exists os, cs = map o_coin os /\ os ⊆+ coins.
Proof.
  intros (k & Hp)%submseteq_Permutation. symmetry in Hp. apply Permutation_map_inv in Hp as (l & E & Hl). symmetry in E. apply map_eq_app in E as (os & k' & -> & <- & _).
  exists os. split; [done|]. rewrite Hl. by apply submseteq_inserts_r.
Qed.

Lemma submseteq_nodup_map (os coins : list COutput) : os ⊆+ coins -> NoDup (map (fun o => snd (o_coin o)) coins) -> NoDup (map (fun o => snd (o_coin o)) os).
Proof. intros (k & ->)%submseteq_Permutation. rewrite map_app, NoDup_app. by intros [? _]. Qed.

(** [SelectCoins], for its clients. *)
Lemma SelectCoins_spec (IsMine : CTxOut -> bool) (nMin : Z) (mapWallet : list (uint256 * CWalletTx)) (t time : Z) (ret : gset COutPoint * Z)
    (byAge : Z -> Z -> Z -> Z -> list COutput -> R -> bool * gset COutPoint * Z * R) (r : R) :
  let coins := AvailableCoins IsMine nMin true None mapWallet in
  let es cm ct := eligible (coin_allowed time cm ct) coins in
  0 < t -> NoDup (map fst mapWallet) -> Forall (fun o => 0 <= o_value o) coins -> amounts (map o_coin coins) < 2 ^ 63 - 1 ->
  exists b s v r', SelectCoins rand_bit random_shuffle false byAge IsMine nMin mapWallet t time ret None r = (b, s, v, r') /\
    (b = true <-> t <= amounts (es 0 1)) /\
    (b = true -> (pays (es 1 10) t s v \/ (amounts (es 1 10) < t /\ (pays (es 1 1) t s v \/ (amounts (es 1 1) < t /\ pays (es 0 1) t s v)))) /\
      exists os, NoDup (map (fun o => snd (o_coin o)) os) /\ s = list_to_set (map (fun o => snd (o_coin o)) os) /\ v = total (map o_value os) /\ t <= v /\
        Forall (spendable IsMine mapWallet) os).
Proof.
  intros coins es Ht Hnd HF Hmax.
  assert (forall cm ct, es cm ct ⊆+ map o_coin coins) as Hall.
  { intros cm ct. etrans; [apply (eligible_mono _ (fun _ => true)); done|]. by rewrite eligible_all. }
  assert (Forall (fun c => 0 <= fst c) (map o_coin coins)) as HF' by (by apply Forall_map).
  assert (forall cm ct, Forall (fun c => 0 <= fst c) (es cm ct) /\ amounts (es cm ct) < 2 ^ 63 - 1) as Hes.
  { intros cm ct. destruct (amounts_submseteq _ _ (Hall cm ct) HF') as [H1 H2]. split; [done|lia]. }
  assert (forall cm ct, 0 <= cm -> 1 <= ct -> amounts (es cm ct) <= amounts (es 0 1)) as Hmono.
  { intros cm ct H1 H2. apply (amounts_submseteq (es cm ct) (es 0 1)); [|apply Hes]. apply eligible_mono. intros o. by apply allowed_mono. }
  assert (forall cm ct s v, pays (es cm ct) t s v -> t <= amounts (es cm ct) /\ exists os, NoDup (map (fun o => snd (o_coin o)) os) /\ s = list_to_set (map (fun o => snd (o_coin o)) os) /\
    v = total (map o_value os) /\ t <= v /\ Forall (spendable IsMine mapWallet) os) as Hpays.
  { intros cm ct s v (cs & Hcs & -> & -> & Hle & _). split; [destruct (amounts_submseteq _ _ Hcs (proj1 (Hes cm ct))); lia|].
    destruct (submseteq_map_inv cs coins) as (os & -> & Hos); [by etrans|]. exists os. rewrite map_map. split; [|split; [done|split; [unfold amounts; by rewrite map_map|split; [done|]]]].
    - apply (submseteq_nodup_map os coins Hos). by apply available_nodup.
    - apply Forall_forall. intros o Ho. eapply available_spendable. by apply (elem_of_submseteq os). }
  unfold SelectCoins. fold coins.
  destruct (MinConf_spec t time 1 10 coins r Ht (proj1 (Hes 1 10)) (proj2 (Hes 1 10))) as (b1 & s1 & v1 & r1 & -> & H1). fold (es 1 10) in H1. pose proof (Hmono 1 10 ltac:(lia) ltac:(lia)). destruct b1.
  { exists true, s1, v1, r1. destruct (Hpays 1 10 s1 v1 H1) as [Hle Hos]. split; [done|]. split; [split; [lia|done]|]. intros _. split; [by left|exact Hos]. }
  destruct (MinConf_spec t time 1 1 coins r1 Ht (proj1 (Hes 1 1)) (proj2 (Hes 1 1))) as (b2 & s2 & v2 & r2 & -> & H2). fold (es 1 1) in H2. pose proof (Hmono 1 1 ltac:(lia) ltac:(lia)). destruct b2.
  { exists true, s2, v2, r2. destruct (Hpays 1 1 s2 v2 H2) as [Hle Hos]. split; [done|]. split; [split; [lia|done]|]. intros _. split; [right; split; [apply H1|by left]|exact Hos]. }
  destruct (MinConf_spec t time 0 1 coins r2 Ht (proj1 (Hes 0 1)) (proj2 (Hes 0 1))) as (b3 & s3 & v3 & r3 & -> & H3). fold (es 0 1) in H3.
  exists b3, s3, v3, r3. split; [done|]. destruct b3; [|split; [split; [done|lia]|done]].
  destruct (Hpays 0 1 s3 v3 H3) as [Hle Hos]. split; [done|]. intros _. split; [|exact Hos]. right. split; [apply H1|]. right. split; [apply H2|exact H3].
Qed.

(** C24: coin selection pays.  For an amount t > 0 and whatever the shuffle and the random
    bits, SelectCoins without chosen coins (no coin control) and without
    -minimizecoinage, on a wallet whose coins are not negative and sum to less than
    2^63 - 1, succeeds exactly when the wallet's spendable coins with enough
    confirmations amount to t.  It then returns distinct spendable coins (unspent, own,
    confirmed, mature) and their exact sum, at least t; coins with ten confirmations are
    used before coins with one, and those before own unconfirmed change.  The change is
    zero or at least a cent, or else all the coins of that class together exceed t by
    less than a cent; in that case it may be positive also where some of the coins pay
    exactly t. *)
Theorem select_coins_correct (IsMine : CTxOut -> bool) (nMin : Z) (mapWallet : list (uint256 * CWalletTx)) (t time : Z) (ret : gset COutPoint * Z)
    (byAge : Z -> Z -> Z -> Z -> list COutput -> R -> bool * gset COutPoint * Z * R) (r : R) :
  let coins := AvailableCoins IsMine nMin true None mapWallet in
  let es cm ct := eligible (coin_allowed time cm ct) coins in
  0 < t -> NoDup (map fst mapWallet) -> Forall (fun o => 0 <= o_value o) coins -> amounts (map o_coin coins) < 2 ^ 63 - 1 ->
  exists b s v r', SelectCoins rand_bit random_shuffle false byAge IsMine nMin mapWallet t time ret None r = (b, s, v, r') /\
    (b = true <-> t <= amounts (es 0 1)) /\
    (b = true -> (pays (es 1 10) t s v \/ (amounts (es 1 10) < t /\ (pays (es 1 1) t s v \/ (amounts (es 1 1) < t /\ pays (es 0 1) t s v)))) /\
      exists os, NoDup (map (fun o => snd (o_coin o)) os) /\ s = list_to_set (map (fun o => snd (o_coin o)) os) /\ v = total (map o_value os) /\ t <= v /\
        Forall (spendable IsMine mapWallet) os).
Proof. apply SelectCoins_spec. Qed.
End Correct.

(** ** A wallet *)

Definition demo_wtx (k v : Z) : uint256 * CWalletTx :=
  (replicate 8 k, mkWalletTx (mkTx 1 0 [] [mkTxOut v [k]] 0) true true 0 20 [] false).
Definition demo_wallet : list (uint256 * CWalletTx) := [demo_wtx 1 (3 * COIN); demo_wtx 2 (2 * COIN); demo_wtx 3 (50 * COIN)].

(** Four coins from coins of three, two and fifty: the two small ones are taken. *)
Lemma select_coins_correct_witness :
  let '(b, s, v, _) := SelectCoins (fun r : unit => (true, r)) (fun l r => (l, r)) false (fun _ _ _ _ _ r => (false, ∅, 0, r)) (fun _ => true) 0 demo_wallet (4 * COIN) 10 (∅, 0) None tt in
  b = true /\ v = 5 * COIN /\ 4 * COIN <= v.
Proof.
  destruct (select_coins_correct (fun r : unit => (true, r)) (fun l r => (l, r)) (fun l r => reflexivity l) (fun _ => true) 0 demo_wallet (4 * COIN) 10 (∅, 0) (fun _ _ _ _ _ r => (false, ∅, 0, r)) tt)
    as (b & s & v & r & E & Hb & H).
  - vm_compute. reflexivity.
  - apply (bool_decide_unpack _). vm_compute. exact I.
  - apply (bool_decide_unpack _). vm_compute. exact I.
  - vm_compute. reflexivity.
  - rewrite E. assert (b = true) as -> by (apply Hb; vm_compute; discriminate). destruct (H eq_refl) as (_ & os & _ & _ & _ & Hle & _).
    split; [reflexivity|]. split; [|exact Hle].
    assert (snd (fst (SelectCoins (fun r : unit => (true, r)) (fun l r => (l, r)) false (fun _ _ _ _ _ r => (false, ∅, 0, r)) (fun _ => true) 0 demo_wallet (4 * COIN) 10 (∅, 0) None tt)) = 5 * COIN) as E' by (vm_compute; reflexivity).
    rewrite E in E'. exact E'.
Defined.

(** SelectCoinsSimple reports success whatever it found. *)
Example select_simple_always : SelectCoinsSimple (fun _ => true) 0 [] (4 * COIN) 10 1 = (true, ∅, 0).
Proof. reflexivity. Qed.

(** A single coin above the target is taken whole. *)
Example select_simple_exceeds :
  let '(_, s, v) := SelectCoinsSimple (fun _ => true) 0 [demo_wtx 1 (100 * COIN)] (60 * COIN) 10 1 in size s = 1%nat /\ v = 100 * COIN.
Proof. vm_compute. split; reflexivity. Qed.

(** Coins of 2, 1, 0.005 and 0.004 for 3.004, with random bits that leave out every fourth coin: the best
    subset found has the third coin and leaves a tenth of a cent, although with the fourth in its
    place it would pay exactly; all four leave half a cent. *)
Definition demo_bits (r : Z) : bool * Z := (negb (r mod 4 =? 3), r + 1).
Example small_change_possible :
  let w := [demo_wtx 1 (2 * COIN); demo_wtx 2 COIN; demo_wtx 3 (COIN / 200); demo_wtx 4 (COIN / 250)] in
  let t := 3 * COIN + COIN / 250 in
  let '(b, s, v, _) := SelectCoins demo_bits (fun l r => (l, r)) false (fun _ _ _ _ _ r => (false, ∅, 0, r)) (fun _ => true) 0 w t 10 (∅, 0) None 0 in
  b = true /\ v - t = COIN / 1000.
Proof. vm_compute. split; reflexivity. Qed.
