(* ===== verification/Miner.v ===== *)
(** * Assembling a block (miner.cpp)

    [CreateNewBlock] collects the transactions of the memory pool into a block, the
    best first, [IncrementExtraNonce] completes its coinbase, and [CheckWork] and
    [CheckStake] hand a solved block over to [ProcessBlock].  The priorities are
    binary64 numbers.  [fAllowChainSpending] is the constant false, so a transaction
    with an input that is not in the database never enters the queue and no
    transaction waits for another. *)

From Stdlib Require Import SpecFloat.
From S2P Require Import Prelude Uint256 Serialize BigNum Tx Merkle Script Interp Standard Consensus Ledger Mempool Kernel BlockTree BestChain Checkpoints Accept.

(** ** Doubles *)

Abbreviation double := spec_float.
Definition double_of_int (n : Z) : double := binary_normalize 53 1024 n 0 false.
Definition dadd : double -> double -> double := SFadd 53 1024.
Definition dmul : double -> double -> double := SFmul 53 1024.
Definition ddiv : double -> double -> double := SFdiv 53 1024.
Abbreviation dlt := SFltb.
Abbreviation deq := SFeqb.

(** ** The priority queue *)

(** The tuple, and the transaction it points to. *)
Record TxPriority := mkPriority { dPriority : double; dFeePerKb : double; ptx : CTransaction }.

(** [TxPriorityCompare(byFee)]: is [a] before [b], that is, of less priority? *)
Definition TxPriorityCompare (byFee : bool) (a b : TxPriority) : bool :=
  if byFee then
    if deq (dFeePerKb a) (dFeePerKb b) then dlt (dPriority a) (dPriority b) else dlt (dFeePerKb a) (dFeePerKb b)
  else
    if deq (dPriority a) (dPriority b) then dlt (dFeePerKb a) (dFeePerKb b) else dlt (dPriority a) (dPriority b).

(** [std::make_heap] and [std::pop_heap] (with the [pop_back] after it) on the
    vector; the order among equal elements is the library's. *)
Class Heap := {
  make_heap : bool -> list TxPriority -> list TxPriority;
  pop_heap : bool -> list TxPriority -> option (TxPriority * list TxPriority);
}.

(** A double that compares with itself. *)
Definition not_nan (d : double) : bool := match d with S754_nan => false | _ => true end.
Definition comparable (p : TxPriority) : bool := (not_nan (dPriority p) && not_nan (dFeePerKb p))%bool.

(** What the library promises: both permute, and the element taken out has none
    greater, provided the elements are ordered by the comparison. *)
Class HeapLaws (H : Heap) : Prop := {
  make_heap_perm : forall byFee l, make_heap byFee l ≡ₚ l;
  pop_heap_perm : forall byFee l x r, pop_heap byFee l = Some (x, r) -> l ≡ₚ x :: r;
  pop_heap_empty : forall byFee l, pop_heap byFee l = None -> l = [];
  pop_heap_max : forall byFee l x r, Forall (fun p => comparable p = true) l -> pop_heap byFee l = Some (x, r) ->
    Forall (fun y => TxPriorityCompare byFee x y = false) r;
}.

(** ** CreateNewBlock *)

(** The command line: sizes as [GetArg] gives them, [-mintxfee] if it is set and
    parses. *)
Record miner_args := mkArgs { blockmaxsize : Z; blockprioritysize : Z; blockminsize : Z; mintxfee : option Z }.
Definition default_args : miner_args := mkArgs (MAX_BLOCK_SIZE_GEN / 2) 27000 0 None.

Definition nBlockMaxSize (a : miner_args) : Z := Z.max 1000 (Z.min (MAX_BLOCK_SIZE - 1000) (u32 (blockmaxsize a))).
Definition nBlockPrioritySize (a : miner_args) : Z := Z.min (nBlockMaxSize a) (u32 (blockprioritysize a)).
Definition nBlockMinSize (a : miner_args) : Z := Z.min (nBlockMaxSize a) (u32 (blockminsize a)).
Definition nMinTxFee (a : miner_args) : Z := default MIN_TX_FEE (mintxfee a).

Definition devCoin : Z := 0 * COIN.

(** The state of the collecting loop but for the queue. *)
Record collecting := mkCollecting {
  k_vtx : list CTransaction; mapTestPool : txindex_map; nBlockSize : Z; nBlockTx : Z; nBlockSigOps : Z; k_nFees : Z;
  fSortedByFee : bool;
}.

Section Miner.
Context `{HD : Digests} `{BN : OpenSSL_BN} {HP : Heap}.
Context (ReadTxFromDisk : CDiskTxPos -> option CTransaction) (ReadHeaderFromDisk : Z -> Z -> option CBlockHeader).
Context (VerifySig : CTransaction -> CTransaction -> nat -> bool).
Context (params : chain_params) (nAdjustedTime : Z) (COINBASE_FLAGS : CScript) (args : miner_args).
(** The tree with the best block, the transaction index and the pool. *)
Context (idx : block_index) (pindexBest : uint256) (nBestHeight : Z) (txdb : txindex_map) (mempool : gmap uint256 CTransaction).

(** [CTxIndex::GetDepthInMainChain] *)
Definition txindex_GetDepthInMainChain (txindex : CTxIndex) : Z :=
  match ReadHeaderFromDisk (nFile (pos txindex)) (nBlockPos (pos txindex)) with
  | None => 0
  | Some h =>
      let hash := CBlockHeader_GetHash h in
      match idx !! hash with
      | None => 0
      | Some nd => if negb (IsInMainChain idx (Some pindexBest) hash) then 0 else 1 + nBestHeight - nHeight (n_rec nd)
      end
  end.

(** The loop over the inputs: the priority, the total and whether one is missing. *)
Fixpoint priority_inputs (vi : list CTxIn) (dPriority : double) (nTotalIn : Z) (fMissingInputs : bool) : double * Z * bool :=
  match vi with
  | [] => (dPriority, nTotalIn, fMissingInputs)
  | txin :: vi =>
      match ReadPrevFromDisk ReadTxFromDisk txdb (prevout txin) with
      | None => priority_inputs vi dPriority nTotalIn true
      | Some (txindex, txPrev) =>
          let nValueIn := match vout txPrev !! Z.to_nat (out_n (prevout txin)) with Some o => nValue o | None => 0 end in
          priority_inputs vi
            (dadd dPriority (dmul (double_of_int nValueIn) (double_of_int (txindex_GetDepthInMainChain txindex))))
            (s64 (nTotalIn + nValueIn)) fMissingInputs
      end
  end.

(** The entry of a pool transaction, if it gets one. *)
Definition tx_priority (tx : CTransaction) : res (option TxPriority) :=
  if (IsCoinBase tx || IsCoinStake tx || negb (IsFinal nBestHeight nAdjustedTime tx 0 0))%bool then Ok None
  else
    let '(dPriority, nTotalIn, fMissingInputs) := priority_inputs (vin tx) (double_of_int 0) 0 false in
    if fMissingInputs then Ok None
    else
      let nTxSize := csize CTransaction_codec tx in
      let* nValueOut := of_option (GetValueOut tx) in
      Ok (Some (mkPriority (ddiv dPriority (double_of_int nTxSize))
        (ddiv (double_of_int (s64 (nTotalIn - nValueOut))) (ddiv (double_of_int nTxSize) (double_of_int 1000))) tx)).

Fixpoint collect_priorities (txs : list CTransaction) : res (list TxPriority) :=
  match txs with
  | [] => Ok []
  | tx :: txs =>
      let* p := tx_priority tx in
      let* vecPriority := collect_priorities txs in
      Ok (match p with Some p => p :: vecPriority | None => vecPriority end)
  end.

Definition set_sorted (c : collecting) : collecting :=
  mkCollecting (k_vtx c) (mapTestPool c) (nBlockSize c) (nBlockTx c) (nBlockSigOps c) (k_nFees c) true.

(** One turn of the loop, after the queue gave [p]. *)
Definition consider (fProofOfStake : bool) (nCoinbaseTime : Z) (pindexPrev : list CBlockIndex) (c : collecting) (p : TxPriority)
    : res collecting :=
  let tx := ptx p in
  let nTxSize := csize CTransaction_codec tx in
  let nNewSize := u64 (nBlockSize c + nTxSize) in
  if nBlockMaxSize args <=? nNewSize then Ok c
  else
    let nTxSigOps := GetLegacySigOpCount tx in
    if MAX_BLOCK_SIGOPS <=? u32 (nBlockSigOps c + nTxSigOps) then Ok c
    else if ((nAdjustedTime <? tx_nTime tx) || (fProofOfStake && (nCoinbaseTime <? tx_nTime tx)))%bool then Ok c
    else
      let nMinFee := GetMinFee tx (u32 (nBlockSize c)) GMF_BLOCK 0 in
      if (fSortedByFee c && dlt (dFeePerKb p) (double_of_int (nMinTxFee args)) && (nBlockMinSize args <=? nNewSize))%bool then Ok c
      else
        let c :=
          if (negb (fSortedByFee c) && ((nBlockPrioritySize args <=? nNewSize)
              || dlt (dPriority p) (double_of_int (COIN * 144 / 250))))%bool then set_sorted c else c in
        let f := FetchInputs ReadTxFromDisk mempool nAdjustedTime txdb (mapTestPool c) false true tx ∅ in
        if negb (f_ok f) then Ok c
        else
          let* nValueIn := of_option (GetValueMapIn tx (f_inputs f)) in
          let* nValueOut := of_option (GetValueOut tx) in
          let nTxFees := s64 (nValueIn - nValueOut) in
          if nTxFees <? nMinFee then Ok c
          else
            let* nP2SH := of_option (GetP2SHSigOpCount tx (f_inputs f)) in
            let nTxSigOps := u32 (nTxSigOps + nP2SH) in
            if MAX_BLOCK_SIGOPS <=? u32 (nBlockSigOps c + nTxSigOps) then Ok c
            else
              match ConnectInputs (fun txPrev tx i w => (VerifySig txPrev tx i, w)) (nCoinbaseMaturity params) (f_inputs f)
                      (mapTestPool c) pos_mempool pindexPrev false true false tx tt with
              | Throw => Throw
              | Fail _ => Ok c
              | Ok (pool, _) =>
                  Ok (mkCollecting (k_vtx c ++ [tx])
                    (<[CTransaction_GetHash tx := CTxIndex_make pos_mempool (length (vout tx))]> pool)
                    nNewSize (u64 (nBlockTx c + 1)) (s32 (nBlockSigOps c + nTxSigOps)) (s64 (k_nFees c + nTxFees)) (fSortedByFee c))
              end.

(** The loop; the queue is rebuilt when the order changes.  [None]: out of fuel. *)
Fixpoint collect (fuel : nat) (fProofOfStake : bool) (nCoinbaseTime : Z) (pindexPrev : list CBlockIndex)
    (vecPriority : list TxPriority) (c : collecting) : option (res collecting) :=
  match pop_heap (fSortedByFee c) vecPriority with
  | None => Some (Ok c)
  | Some (p, vecPriority) =>
      match fuel with
      | O => None
      | S fuel =>
          match consider fProofOfStake nCoinbaseTime pindexPrev c p with
          | Ok c' =>
              let vecPriority := if (negb (fSortedByFee c) && fSortedByFee c')%bool then make_heap true vecPriority else vecPriority in
              collect fuel fProofOfStake nCoinbaseTime pindexPrev vecPriority c'
          | r => Some r
          end
      end
  end.

(** The coinbase before the collecting; a fresh [CTxOut] is null. *)
Definition coinbase_tx (fProofOfStake : bool) (reserved : uint160) (nHeight : Z) : CTransaction :=
  mkTx 1 (u32 nAdjustedTime)
    [mkTxIn COutPoint_null (if fProofOfStake then push_int64 (nHeight + 1) ++ COINBASE_FLAGS else []) UINT_MAX]
    (if fProofOfStake then [mkTxOut 0 []; mkTxOut 0 []] else [mkTxOut (-1) (SetDestination (CKeyID reserved)); CTxOut_null]) 0.

(** The reward, at the end. *)
Definition set_reward (fProofOfStake : bool) (nHeight nFees : Z) (tx : CTransaction) : CTransaction :=
  if fProofOfStake then tx
  else
    mkTx (tx_nVersion tx) (tx_nTime tx) (vin tx)
      (match vout tx with
       | o0 :: o1 :: os =>
           mkTxOut (s64 (GetProofOfWorkReward nHeight nFees - devCoin)) (scriptPubKey o0) :: mkTxOut devCoin (scriptPubKey o1) :: os
       | os => os
       end) (nLockTime tx).

(** The block, the fees, and [nLastBlockTx] and [nLastBlockSize]. *)
Record template := mkTemplate { t_block : CBlock; pFees : Z; nLastBlockTx : Z; nLastBlockSize : Z }.

Definition empty_collecting : collecting := mkCollecting [] ∅ 1000 0 100 0 (nBlockPrioritySize args <=? 0).

(** [reserved] is the id of the key that the wallet reserves; a failed assertion is
    [Throw].  [None] is excluded by [collect_ends]. *)
Definition CreateNewBlock (fProofOfStake : bool) (reserved : uint160) : option (res template) :=
  match chain_of idx pindexBest with
  | [] => Some Throw
  | (tip :: _) as pindexPrev =>
      let txNew := coinbase_tx fProofOfStake reserved (nHeight tip) in
      if (fProofOfStake && (100 <? Z.of_nat (length (push_int64 (nHeight tip + 1) ++ COINBASE_FLAGS))))%bool then Some Throw
      else
        match collect_priorities (map snd (map_to_list mempool)) with
        | Fail n => Some (Fail n)
        | Throw => Some Throw
        | Ok vecPriority =>
            let vecPriority := make_heap (nBlockPrioritySize args <=? 0) vecPriority in
            match collect (length vecPriority) fProofOfStake (tx_nTime txNew) pindexPrev vecPriority empty_collecting with
            | None => None
            | Some (Fail n) => Some (Fail n)
            | Some Throw => Some Throw
            | Some (Ok c) =>
                let coinbase := set_reward fProofOfStake (nHeight tip) (k_nFees c) txNew in
                Some (Ok (mkTemplate
                  (mkBlock (mkHeader 6 (bi_hash tip) (uint_zero 8) (tx_nTime coinbase)
                     (GetNextTargetRequired params pindexPrev fProofOfStake) 0) (coinbase :: k_vtx c) [])
                  (k_nFees c) (nBlockTx c) (nBlockSize c)))
            end
        end
  end.

(** ** IncrementExtraNonce *)

Definition set_scriptSig0 (s : CScript) (tx : CTransaction) : CTransaction :=
  mkTx (tx_nVersion tx) (tx_nTime tx)
    (match vin tx with txin :: vi => mkTxIn (prevout txin) s (nSequence txin) :: vi | [] => [] end) (vout tx) (nLockTime tx).

Definition set_merkle_root (h : CBlockHeader) (root : uint256) : CBlockHeader :=
  mkHeader (nVersion h) (hashPrevBlock h) root (nTime h) (nBits h) (nNonce h).

Definition extra_nonce_script (nHeight nExtraNonce : Z) : CScript :=
  push_uint64 nHeight ++ push_data (getvch nExtraNonce) ++ COINBASE_FLAGS.

(** The static [hashPrevBlock] and the caller's [nExtraNonce] are threaded;
    [Throw] without a coinbase input (undefined) and when the assertion fails. *)
Definition IncrementExtraNonce (b : CBlock) (pindexPrev : CBlockIndex) (hashStatic : uint256) (nExtraNonce : Z)
    : res (CBlock * uint256 * Z) :=
  let nExtraNonce := if op_ne hashStatic (hashPrevBlock (header b)) then 0 else nExtraNonce in
  let nExtraNonce := u32 (nExtraNonce + 1) in
  let scriptSig := extra_nonce_script (u32 (nHeight pindexPrev + 1)) nExtraNonce in
  match vtx b with
  | coinbase :: txs =>
      match vin coinbase with
      | [] => Throw
      | _ =>
          if 100 <? Z.of_nat (length scriptSig) then Throw
          else
            let b := mkBlock (header b) (set_scriptSig0 scriptSig coinbase :: txs) (vchBlockSig b) in
            Ok (mkBlock (set_merkle_root (header b) (BuildMerkleTree b)) (vtx b) (vchBlockSig b), hashPrevBlock (header b), nExtraNonce)
      end
  | [] => Throw
  end.
End Miner.

(** The nonce the miner found. *)
Definition set_nonce (nNonce : Z) (b : CBlock) : CBlock :=
  let h := header b in
  mkBlock (mkHeader (nVersion h) (hashPrevBlock h) (hashMerkleRoot h) (nTime h) (nBits h) nNonce) (vtx b) (vchBlockSig b).

(** ** A solved block *)

(** The wallet's part: was the reserved key kept, and the requests counted. *)
Record miner_wallet := mkMinerWallet { fKeyKept : bool; mapRequestCount : gmap uint256 Z }.

Section Solved.
Context `{HD : Digests} `{BN : OpenSSL_BN} `{EC : ECDSA} {V E P : Type} {LO : LedgerOps V E} {PO : PoolOps P} {SO : StakeOps V E}.
Context (params : chain_params) (fTestNet : bool) (CheckpointsMode : CPMode).
Context (ReadTxFromDisk : CDiskTxPos -> option CTransaction) (pool_txs : P -> gmap uint256 CTransaction) (nAdjustedTime : Z).
Context (ReadBlockFile : Z -> Z -> option CBlock) (WriteToDisk : CBlock -> option (Z * Z)).
Context (TxnCommit : @db V -> bool) (WriteOk : uint256 -> bool).

Abbreviation processed := (bool * @node_state V E P * orphan_blocks * miner_wallet)%type.

(** The part under the lock: a block on the best chain is processed as one that
    came from another node; [None] when that throws. *)
Definition submit (fKeep : bool) (b : CBlock) (n : @node_state V E P) (o : orphan_blocks) (wal : miner_wallet) : option processed :=
  if op_ne (hashPrevBlock (header b)) (hashBestChain (ns_chain n)) then Some (false, n, o, wal)
  else
    let wal := mkMinerWallet (fKeep || fKeyKept wal) (<[CBlockHeader_GetHash (header b) := 0]> (mapRequestCount wal)) in
    match ProcessBlock params fTestNet CheckpointsMode ReadTxFromDisk pool_txs nAdjustedTime ReadBlockFile WriteToDisk TxnCommit WriteOk b n o with
    | Some (Ok _, n, o) => Some (true, n, o, wal)
    | Some (Fail _, n, o) => Some (false, n, o, wal)
    | Some (Throw, _, _) | None => None
    end.

Definition CheckWork (b : CBlock) (n : @node_state V E P) (o : orphan_blocks) (wal : miner_wallet) : option processed :=
  let hashTarget := getuint256 (SetCompact (nBits (header b))) in
  if negb (IsProofOfWork b) then Some (false, n, o, wal)
  else if op_gt (CBlockHeader_GetHash (header b)) hashTarget then Some (false, n, o, wal)
  else submit true b n o wal.

Definition set_chain (s : @chain_state V E P) (n : @node_state V E P) : @node_state V E P := mkNodeState s (ns_sync n) (setStakeSeen n).

(** [proof_hash] is [CheckProofOfStake] on the coinstake, with the cache it fills. *)
Definition CheckStake (b : CBlock) (n : @node_state V E P) (o : orphan_blocks) (wal : miner_wallet) : option processed :=
  if negb (IsProofOfStake b) then Some (false, n, o, wal)
  else
    match proof_hash (ns_chain n) b with
    | (Throw, _) => None
    | (Fail _, s) => Some (false, set_chain s n, o, wal)
    | (Ok _, s) => submit false b (set_chain s n) o wal
    end.
End Solved.

(** ** The buffers of getwork *)

Definition put (i : nat) (v : Z) (l : list Z) : list Z := <[i := v]> l.

(** [memset(p + i, 0, n)] *)
Definition clear_bytes (i n : nat) (l : list Z) : list Z := take i l ++ replicate n 0 ++ drop (i + n) l.

(** Pads the message of [len] bytes at the start of the buffer, and the number of
    blocks; [None] when it would write past the buffer. *)
Definition FormatHashBlocks (pdata : list Z) (len : Z) : option (list Z * Z) :=
  let blocks := 1 + (len + 8) / 64 in
  if Z.of_nat (length pdata) <? 64 * blocks then None
  else
    let pend := Z.to_nat (64 * blocks) in
    let pdata := clear_bytes (Z.to_nat len) (Z.to_nat (64 * blocks - len)) pdata in
    let pdata := put (Z.to_nat len) 0x80 pdata in
    let bits := u32 (len * 8) in
    let pdata := put (pend - 1) (Z.land (Z.shiftr bits 0) 0xff) pdata in
    let pdata := put (pend - 2) (Z.land (Z.shiftr bits 8) 0xff) pdata in
    let pdata := put (pend - 3) (Z.land (Z.shiftr bits 16) 0xff) pdata in
    let pdata := put (pend - 4) (Z.land (Z.shiftr bits 24) 0xff) pdata in
    Some (pdata, blocks).

(** util.h *)
Definition ByteReverse (value : Z) : Z :=
  let value := Z.lor (Z.shiftr (Z.land value 0xFF00FF00) 8) (u32 (Z.shiftl (Z.land value 0x00FF00FF) 8)) in
  Z.lor (u32 (Z.shiftl value 16)) (Z.shiftr value 16).

(** [ByteReverse] on each word of the memory. *)
Fixpoint reverse_words (l : list Z) : list Z :=
  match l with
  | a :: b :: c :: d :: l => le_bytes 4 (ByteReverse (le_val [a; b; c; d])) ++ reverse_words l
  | l => l
  end.

Definition pSHA256InitState : list Z :=
  [0x6a09e667; 0xbb67ae85; 0x3c6ef372; 0xa54ff53a; 0x510e527f; 0x9b05688c; 0x1f83d9ab; 0x5be0cd19].

Section Buffers.
(** The compression of one block of 64 bytes that [SHA256_Update] runs on the state. *)
Context (SHA256_block : list Z -> list Z -> list Z).

Definition SHA256Transform (pinput pinit : list Z) : list Z := SHA256_block pinit (reverse_words (take 64 pinput)).

(** [pmidstate], [pdata] and [phash1].  The structure: the header (80 bytes),
    [pchPadding0], [hash1] and [pchPadding1]. *)
Definition FormatHashBuffers (h : CBlockHeader) : option (list Z * list Z * list Z) :=
  let hash1 := replicate (32 + 64) 0 in
  match FormatHashBlocks (enc CBlockHeader_codec h ++ replicate 64 0 ++ hash1) 80, FormatHashBlocks hash1 32 with
  | Some (block, _), Some (hash1, _) =>
      let tmp := reverse_words (take 144 block ++ hash1) in
      Some (SHA256Transform tmp pSHA256InitState, take 128 tmp, take 64 (drop 144 tmp))
  | _, _ => None
  end.
End Buffers.
