(* ===== verification/MinerFacts.v ===== *)
(** * Theorems on block assembly

    The block a miner assembles and solves passes [ConnectBlock]: the run of
    [ConnectInputs] on the miner's test pool is simulated by the one on the index.
    Both see the same records up to where an output was spent. *)

From Stdlib Require Import SpecFloat Sorted.
From S2P Require Import Prelude Uint256 Serialize BigNum Tx Merkle Script Interp Standard Consensus Ledger Mempool Kernel BlockTree BestChain BestChainFacts Checkpoints Accept AcceptFacts Miner.

(** ** The order of doubles *)

(** Class, exponent and mantissa, signed: doubles are ordered by them. *)
Definition d_class (d : double) : Z :=
  match d with
  | S754_infinity s => if s then -2 else 2
  | S754_finite s _ _ => if s then -1 else 1
  | _ => 0
  end.
Definition d_exp (d : double) : Z := match d with S754_finite s _ e => if s then - e else e | _ => 0 end.
Definition d_man (d : double) : Z := match d with S754_finite s m _ => if s then Zneg m else Zpos m | _ => 0 end.

Definition d_below (a b : double) : Prop :=
  d_class a < d_class b \/ d_class a = d_class b /\ (d_exp a < d_exp b \/ d_exp a = d_exp b /\ d_man a < d_man b).
Definition d_same (a b : double) : Prop := d_class a = d_class b /\ d_exp a = d_exp b /\ d_man a = d_man b.

Lemma SFcompare_spec a b : not_nan a = true -> not_nan b = true ->
  match SFcompare a b with
  | Some Lt => d_below a b | Some Eq => d_same a b | Some Gt => d_below b a | None => False
  end.
Proof.
  intros Ha Hb. unfold d_below, d_same.
  destruct a as [sa|sa| |sa ma ea], b as [sb|sb| |sb mb eb]; try done; destruct sa, sb;
    cbn [SFcompare d_class d_exp d_man]; try lia;
    change (Pos.compare_cont Eq ma mb) with (Pos.compare ma mb);
    destruct (Z.compare_spec ea eb); try lia; destruct (Pos.compare_spec ma mb); cbn [CompOpp]; subst; lia.
Qed.

Lemma dlt_spec a b : not_nan a = true -> not_nan b = true -> (dlt a b = true <-> d_below a b).
Proof.
  intros Ha Hb. pose proof (SFcompare_spec a b Ha Hb) as H. unfold SFltb, d_below, d_same in *.
  destruct (SFcompare a b) as [[]|]; split; intros; try done; lia.
Qed.

Lemma deq_spec a b : not_nan a = true -> not_nan b = true -> (deq a b = true <-> d_same a b).
Proof.
  intros Ha Hb. pose proof (SFcompare_spec a b Ha Hb) as H. unfold SFeqb, d_below, d_same in *.
  destruct (SFcompare a b) as [[]|]; split; intros; try done; lia.
Qed.

(** The keys in the order of their weight. *)
Definition key1 (byFee : bool) (p : TxPriority) : double := if byFee then dFeePerKb p else dPriority p.
Definition key2 (byFee : bool) (p : TxPriority) : double := if byFee then dPriority p else dFeePerKb p.

Lemma TxPriorityCompare_spec byFee a b : comparable a = true -> comparable b = true ->
  TxPriorityCompare byFee a b = true <->
  d_below (key1 byFee a) (key1 byFee b) \/ d_same (key1 byFee a) (key1 byFee b) /\ d_below (key2 byFee a) (key2 byFee b).
Proof.
  unfold comparable. rewrite !andb_true_iff. intros [Ha1 Ha2] [Hb1 Hb2].
  unfold TxPriorityCompare, key1, key2. destruct byFee.
  - pose proof (deq_spec (dFeePerKb a) (dFeePerKb b) Ha2 Hb2) as He. destruct (deq _ _); rewrite dlt_spec by done;
      unfold d_below, d_same in *; split; intros; [right|..]; intuition lia.
  - pose proof (deq_spec (dPriority a) (dPriority b) Ha1 Hb1) as He. destruct (deq _ _); rewrite dlt_spec by done;
      unfold d_below, d_same in *; split; intros; [right|..]; intuition lia.
Qed.

Lemma not_before_trans byFee a b c : comparable a = true -> comparable b = true -> comparable c = true ->
  TxPriorityCompare byFee a b = false -> TxPriorityCompare byFee b c = false -> TxPriorityCompare byFee a c = false.
Proof.
  intros Ha Hb Hc. rewrite <- !not_true_iff_false, !TxPriorityCompare_spec by done. unfold d_below, d_same. intuition lia.
Qed.

Lemma before_asym byFee a b : comparable a = true -> comparable b = true ->
  TxPriorityCompare byFee a b = true -> TxPriorityCompare byFee b a = false.
Proof.
  intros Ha Hb. rewrite <- not_true_iff_false, !TxPriorityCompare_spec by done. unfold d_below, d_same. intuition lia.
Qed.

(** ** A heap that keeps the promises *)

Fixpoint take_max (byFee : bool) (x : TxPriority) (l : list TxPriority) : TxPriority * list TxPriority :=
  match l with
  | [] => (x, [])
  | y :: l =>
      if TxPriorityCompare byFee x y then let '(m, r) := take_max byFee y l in (m, x :: r)
      else let '(m, r) := take_max byFee x l in (m, y :: r)
  end.

Definition scan_heap : Heap := {|
  make_heap _ l := l;
  pop_heap byFee l := match l with [] => None | x :: l => Some (take_max byFee x l) end;
|}.

Lemma take_max_perm byFee l : forall x m r, take_max byFee x l = (m, r) -> x :: l ≡ₚ m :: r.
Proof.
  induction l as [|y l IH]; intros x m r; cbn [take_max]; [by intros [= <- <-]|].
  destruct (TxPriorityCompare byFee x y).
  - destruct (take_max byFee y l) as [m' r'] eqn:E. intros [= <- <-]. apply IH in E. rewrite E. apply perm_swap.
  - destruct (take_max byFee x l) as [m' r'] eqn:E. intros [= <- <-]. apply IH in E.
    rewrite (perm_swap y x), E. apply perm_swap.
Qed.

Lemma take_max_max byFee l : forall x m r, Forall (fun p => comparable p = true) (x :: l) -> take_max byFee x l = (m, r) ->
  Forall (fun y => TxPriorityCompare byFee m y = false) (x :: r).
Proof.
  induction l as [|y l IH]; intros x m r HF; cbn [take_max].
  - intros [= <- <-]. apply Forall_singleton. apply Forall_cons in HF as [Hx _]. apply not_true_iff_false. intros H.
    pose proof (before_asym _ _ _ Hx Hx H). congruence.
  - apply Forall_cons in HF as [Hx [Hy HF]%Forall_cons]. destruct (TxPriorityCompare byFee x y) eqn:Ec.
    + destruct (take_max byFee y l) as [m' r'] eqn:E. intros [= <- <-]. pose proof (take_max_perm _ _ _ _ _ E) as Hp.
      assert (comparable m' = true) as Hm by (eapply (Forall_forall (fun p => comparable p = true) (y :: l)); [by constructor|rewrite Hp; by left]).
      apply IH in E; [|by constructor]. apply Forall_cons in E as [E1 E2].
      assert (TxPriorityCompare byFee m' x = false) by (apply (not_before_trans _ _ y); try done; by apply before_asym).
      by repeat constructor.
    + destruct (take_max byFee x l) as [m' r'] eqn:E. intros [= <- <-]. pose proof (take_max_perm _ _ _ _ _ E) as Hp.
      assert (comparable m' = true) as Hm by (eapply (Forall_forall (fun p => comparable p = true) (x :: l)); [by constructor|rewrite Hp; by left]).
      apply IH in E; [|by constructor]. apply Forall_cons in E as [E1 E2].
      assert (TxPriorityCompare byFee m' y = false) by (by apply (not_before_trans _ _ x)).
      by repeat constructor.
Qed.

#[export] Instance scan_heap_laws : HeapLaws scan_heap.
Proof.
  split; cbn.
  - done.
  - intros byFee [|x l] m r; [done|]. intros [= E]. by apply take_max_perm in E.
  - by intros byFee [].
  - intros byFee [|x l] m r HF; [done|]. intros [= E]. apply take_max_max in E; [|done]. by apply Forall_cons in E as [_ E].
Qed.

(** ** The simulation *)

(** Run the monad on steps that are known. *)
Ltac res_replay :=
  cbn [rbind]; repeat match goal with E : ?r = Ok _ |- context [rbind ?r _] => rewrite E; cbn [rbind] end.

Section Simulation.
Context (ReadTxFromDisk : CDiskTxPos -> option CTransaction) (mempool : gmap uint256 CTransaction).
Context (nAdjustedTime nAdjustedTime' : Z) (txdb : txindex_map) (bi : CBlockIndex) (pprev : list CBlockIndex).
Context {W : Type} (VerifySig : CTransaction -> CTransaction -> nat -> bool)
  (VerifySig' : CTransaction -> CTransaction -> nat -> W -> bool * W).
(** The verifier answers as the miner's did, whatever its cache. *)
Hypothesis verify_same : forall txPrev tx i w, fst (VerifySig' txPrev tx i w) = VerifySig txPrev tx i.

(** The block is stored where no indexed transaction is, and on top of the chain. *)
Definition at_block (b : CBlockIndex) (p : CDiskTxPos) : bool := ((bi_nBlockPos b =? nBlockPos p) && (bi_nFile b =? nFile p))%bool.
Definition fresh_block : Prop := map_Forall (fun _ i => at_block bi (pos i) = false) txdb.
Hypothesis Hfresh : fresh_block.
Hypothesis Hnext : match pprev with tip :: _ => nHeight bi = nHeight tip + 1 | [] => False end.

(** Two records of a transaction agree on its place and on what is spent. *)
Definition same_index (i j : CTxIndex) : Prop :=
  pos i = pos j /\ map CDiskTxPos_IsNull (vSpent i) = map CDiskTxPos_IsNull (vSpent j).

Definition agree (m q : txindex_map) : Prop :=
  forall h i0, txdb !! h = Some i0 -> exists i j, (m ∪ txdb) !! h = Some i /\ (q ∪ txdb) !! h = Some j /\ pos i = pos i0 /\ same_index i j.

Definition same_entry (h : uint256) (a b : CTxIndex * CTransaction) : Prop :=
  same_index (fst a) (fst b) /\ snd a = snd b /\ exists i0, txdb !! h = Some i0 /\ pos (fst a) = pos i0.

Definition same_inputs (I J : MapPrevTx) : Prop := forall h, option_Forall2 (same_entry h) (I !! h) (J !! h).

Lemma same_inputs_empty : same_inputs ∅ ∅.
Proof. intros h. rewrite lookup_empty. constructor. Qed.

Lemma same_inputs_insert I J h a b : same_entry h a b -> same_inputs I J -> same_inputs (<[h := a]> I) (<[h := b]> J).
Proof.
  intros Hab HI k. destruct (decide (h = k)) as [<-|]; [rewrite !lookup_insert_eq; by constructor|].
  rewrite !lookup_insert_ne by done. apply HI.
Qed.

(** The form the proofs use: a record on one side has its twin on the other. *)
Lemma same_inputs_lookup I J h : same_inputs I J ->
  (I !! h = None /\ J !! h = None) \/
  exists i j t, I !! h = Some (i, t) /\ J !! h = Some (j, t) /\ same_index i j /\ exists i0, txdb !! h = Some i0 /\ pos i = pos i0.
Proof.
  intros HI. specialize (HI h). inversion HI as [[i t] [j t'] (Hs & Ht & H0) Hi Hj|Hi Hj]; [right|by left].
  cbn in *. subst t'. by exists i, j, t.
Qed.

Lemma same_index_length i j : same_index i j -> length (vSpent i) = length (vSpent j).
Proof. intros [_ H]. by rewrite <- (length_map CDiskTxPos_IsNull), H, length_map. Qed.

Lemma index_in_range_same I J o : same_inputs I J -> index_in_range I o = index_in_range J o.
Proof.
  intros HI. unfold index_in_range.
  destruct (same_inputs_lookup I J (out_hash o) HI) as [[-> ->]|(i & j & t & -> & -> & Hs & _)]; [done|].
  by rewrite (same_index_length _ _ Hs).
Qed.

Lemma GetOutputFor_same I J x : same_inputs I J -> GetOutputFor x I = GetOutputFor x J.
Proof.
  intros HI. unfold GetOutputFor. by destruct (same_inputs_lookup I J (out_hash (prevout x)) HI) as [[-> ->]|(i & j & t & -> & -> & _)].
Qed.

Lemma GetValueMapIn_same I J tx : same_inputs I J -> GetValueMapIn tx I = GetValueMapIn tx J.
Proof.
  intros HI. unfold GetValueMapIn. destruct (IsCoinBase tx); [done|]. generalize 0 as acc.
  induction (vin tx) as [|x vi IH]; intros acc; cbn [value_in_loop]; [done|].
  rewrite (GetOutputFor_same I J) by done. destruct (GetOutputFor x J); [apply IH|done].
Qed.

Lemma GetP2SHSigOpCount_same I J tx : same_inputs I J -> GetP2SHSigOpCount tx I = GetP2SHSigOpCount tx J.
Proof.
  intros HI. unfold GetP2SHSigOpCount. destruct (IsCoinBase tx); [done|]. generalize 0 as acc.
  induction (vin tx) as [|x vi IH]; intros acc; cbn [p2sh_sigops_loop]; [done|].
  rewrite (GetOutputFor_same I J) by done. destruct (GetOutputFor x J); [apply IH|done].
Qed.

Lemma pool_first (m : txindex_map) h : match m !! h with Some i => Some i | None => txdb !! h end = (m ∪ txdb) !! h.
Proof. rewrite lookup_union. by destruct (m !! h), (txdb !! h). Qed.

Lemma fetch_loop_same m q vi : agree m q -> Forall (fun x => is_Some (txdb !! out_hash (prevout x))) vi ->
  forall I J I', same_inputs I J -> fetch_loop ReadTxFromDisk mempool nAdjustedTime txdb m false true vi I = (true, I') ->
  exists J', fetch_loop ReadTxFromDisk mempool nAdjustedTime' txdb q true false vi J = (true, J') /\ same_inputs I' J'.
Proof.
  intros Hag. induction 1 as [|x vi [i0 Hx] HF IH]; intros I J I' HI; cbn [fetch_loop]; [intros [= <-]; by exists J|].
  set (h := out_hash (prevout x)) in *. cbn [orb]. rewrite !pool_first.
  destruct (Hag h i0 Hx) as (i & j & -> & -> & Hp & Hs).
  assert (bool_decide (is_Some (J !! h)) = bool_decide (is_Some (I !! h))) as ->.
  { apply bool_decide_ext. destruct (same_inputs_lookup I J h HI) as [[-> ->]|(? & ? & ? & -> & -> & _)]; by rewrite ?is_Some_alt. }
  case_bool_decide; [by apply IH|]. destruct Hs as [Es Hs]. rewrite <- Es.
  destruct (if decide (pos i = pos_mempool) then _ else _) as [t|] eqn:Et; [|done].
  apply IH. apply same_inputs_insert; [|done]. split; [by split|]. split; [done|]. by exists i0.
Qed.

Lemma FetchInputs_same m q tx I : agree m q -> IsCoinBase tx = false ->
  Forall (fun x => is_Some (txdb !! out_hash (prevout x))) (vin tx) ->
  FetchInputs ReadTxFromDisk mempool nAdjustedTime txdb m false true tx ∅ = mkFetched true false I ->
  exists J, FetchInputs ReadTxFromDisk mempool nAdjustedTime' txdb q true false tx ∅ = mkFetched true false J /\ same_inputs I J.
Proof.
  intros Hag Hcb HF. unfold FetchInputs. rewrite Hcb.
  destruct (fetch_loop _ _ _ _ _ _ _ _ _) as [ok I'] eqn:E. destruct ok; [|done]. cbn [negb].
  apply (fetch_loop_same m q _ Hag HF ∅ ∅) in E as (J & -> & HI); [|apply same_inputs_empty]. cbn [negb].
  assert (forallb (fun x => index_in_range J (prevout x)) (vin tx) = forallb (fun x => index_in_range I' (prevout x)) (vin tx)) as ->.
  { induction (vin tx) as [|x vi IH]; [done|]. cbn. apply Forall_cons in HF as [_ HF]. by rewrite IH, (index_in_range_same I' J). }
  destruct (forallb _ _); [|done]. intros [= <-]. by exists J.
Qed.

(** A block later the maturity walk ends a block later too. *)
Lemma immature_later mat t l p : immature mat (t + 1) l p = true -> immature mat t l p = true.
Proof.
  induction l as [|b l IH]; cbn [immature]; [done|]. destruct (Z.ltb_spec (t + 1 - nHeight b) mat); [|done].
  rewrite (proj2 (Z.ltb_lt _ _)) by lia. destruct (_ && _)%bool; auto.
Qed.

Lemma is_immature_later mat p : at_block bi p = false ->
  is_immature mat pprev p = false -> is_immature mat (bi :: pprev) p = false.
Proof.
  intros Hb. rewrite <- !not_true_iff_false. intros Hn H. apply Hn. revert H. unfold is_immature.
  destruct pprev as [|tip l] eqn:El; [done|]. cbn [immature]. destruct (nHeight bi - nHeight bi <? mat); [|done].
  rewrite Hnext.
  unfold at_block in Hb. rewrite Hb. apply (immature_later mat (nHeight tip) (tip :: l)).
Qed.

Lemma connect_checks_same mat I J t vi v : same_inputs I J ->
  forall acc, connect_checks mat pprev I t vi acc = Ok v -> connect_checks mat (bi :: pprev) J t vi acc = Ok v.
Proof.
  intros HI. induction vi as [|x vi IH]; intros acc; cbn [connect_checks]; [done|].
  rewrite (index_in_range_same I J) by done.
  destruct (same_inputs_lookup I J (out_hash (prevout x)) HI) as [[-> ->]|(i & j & tp & -> & -> & [Hp _] & i0 & H0 & Hp0)]; [done|].
  cbn [of_option rbind]. destruct (index_in_range J (prevout x)); cbn [guard_ rbind]; [|done]. rewrite <- Hp.
  assert (is_immature mat pprev (pos i) = false -> is_immature mat (bi :: pprev) (pos i) = false) as Hm.
  { apply is_immature_later. rewrite Hp0. apply (Hfresh _ _ H0). }
  destruct (IsCoinBase tp || IsCoinStake tp)%bool; cbn [andb].
  - destruct (is_immature mat pprev (pos i)); [done|]. rewrite Hm by done. cbn [negb guard_ rbind].
    intros H. res_inv H. res_replay. by apply IH.
  - cbn [negb guard_ rbind]. intros H. res_inv H. res_replay. by apply IH.
Qed.

Lemma mark_spent_same p p' n i j : CDiskTxPos_IsNull p = false -> CDiskTxPos_IsNull p' = false -> same_index i j ->
  same_index (mark_spent p n i) (mark_spent p' n j).
Proof.
  intros Hp Hp' [H1 H2]. split; [done|]. unfold mark_spent. cbn. rewrite !list_fmap_insert, Hp, Hp'. by f_equal.
Qed.

Lemma agree_insert m q h i j : (forall i0, txdb !! h = Some i0 -> pos i = pos i0 /\ same_index i j) ->
  agree m q -> agree (<[h := i]> m) (<[h := j]> q).
Proof.
  intros Hij Hag k i0 Hk. rewrite <- !insert_union_l. destruct (decide (h = k)) as [<-|].
  - rewrite !lookup_insert_eq. exists i, j. split; [done|]. split; [done|]. by apply Hij.
  - rewrite !lookup_insert_ne by done. by apply Hag.
Qed.

Lemma connect_spends_same fSkip tx p' vi : CDiskTxPos_IsNull p' = false ->
  forall n I J m q m' w u, same_inputs I J -> agree m q ->
  connect_spends (fun a b i w => (VerifySig a b i, w)) false true false tx pos_mempool vi n I m tt = Ok (m', u) ->
  exists q' w', connect_spends VerifySig' true false fSkip tx p' vi n J q w = Ok (q', w') /\ agree m' q'.
Proof.
  intros Hp'. induction vi as [|x vi IH]; intros n I J m q m' w u HI Hag; cbn [connect_spends].
  { intros [= <- _]. by exists q, w. }
  destruct (same_inputs_lookup I J (out_hash (prevout x)) HI) as [[-> ->]|(i & j & tp & -> & -> & Hs & i0 & H0 & Hp0)]; [done|].
  cbn [of_option rbind orb].
  assert (CDiskTxPos_IsNull <$> vSpent j !! Z.to_nat (out_n (prevout x)) = CDiskTxPos_IsNull <$> vSpent i !! Z.to_nat (out_n (prevout x))) as Hl.
  { destruct Hs as [_ Hs]. apply (f_equal (lookup (Z.to_nat (out_n (prevout x))))) in Hs.
    change (map CDiskTxPos_IsNull) with (fmap (M := list) CDiskTxPos_IsNull) in Hs. by rewrite !list_lookup_fmap in Hs. }
  destruct (vSpent i !! _) as [si|]; [|done]. destruct (vSpent j !! _) as [sj|]; [|done]. injection Hl as Hl.
  cbn [of_option rbind]. rewrite Hl. destruct (CDiskTxPos_IsNull si); cbn [guard_ rbind]; [|done].
  destruct (VerifySig tp tx n) eqn:Ev; cbn [guard_ rbind]; [|done].
  assert (exists w1, (if fSkip then (true, w) else VerifySig' tp tx n w) = (true, w1)) as [w1 ->].
  { destruct fSkip; [by exists w|]. specialize (verify_same tp tx n w). destruct (VerifySig' tp tx n w) as [b w1]. cbn in *. exists w1. congruence. }
  cbn [guard_ rbind]. apply IH.
  - apply same_inputs_insert; [|done]. split; [by apply mark_spent_same|]. split; [done|]. by exists i0.
  - apply agree_insert; [|done]. intros i1 H1. split; [|by apply mark_spent_same]. cbn. congruence.
Qed.

Lemma ConnectInputs_same mat fSkip tx p' I J m q m' w u : IsCoinBase tx = false -> IsCoinStake tx = false ->
  CDiskTxPos_IsNull p' = false -> same_inputs I J -> agree m q ->
  ConnectInputs (fun a b i w => (VerifySig a b i, w)) mat I m pos_mempool pprev false true false tx tt = Ok (m', u) ->
  exists q' w', ConnectInputs VerifySig' mat J q p' (bi :: pprev) true false fSkip tx w = Ok (q', w') /\ agree m' q'.
Proof.
  intros Hcb Hst Hp' HI Hag H. unfold ConnectInputs in *. rewrite Hcb, Hst in *. res_inv H. subst.
  rename select (connect_checks _ _ _ _ _ _ = _) into Ech. rename select (connect_spends _ _ _ _ _ _ _ _ _ _ _ = _) into Esp.
  apply (connect_checks_same _ I J _ _ _ HI) in Ech. rewrite Ech. cbn [rbind].
  destruct (connect_spends_same fSkip tx p' _ Hp' _ I J m q _ w _ HI Hag Esp) as (q' & w' & -> & Hag'). cbn [rbind].
  res_replay. rename select (guard_ (GetMinFee _ _ _ _ <=? _) 0 = _) into Eg. apply guard_Ok in Eg. rewrite Eg.
  exists q', w'. split; [done|]. by injection H as <- _.
Qed.
End Simulation.

(** ** Signature operations are bounded by the scripts *)

Definition script_size (tx : CTransaction) : Z :=
  sumZ (map (fun x => Z.of_nat (length (scriptSig x))) (vin tx)) + sumZ (map (fun o => Z.of_nat (length (scriptPubKey o))) (vout tx)).

Definition scripts_ok (tx : CTransaction) : Prop :=
  Forall (fun x => bytes_ok (scriptSig x)) (vin tx) /\ Forall (fun o => bytes_ok (scriptPubKey o)) (vout tx) /\
  script_size tx <= MAX_BLOCK_SIZE.

Lemma sum_lengths_nonneg {A} (f : A -> list Z) l : 0 <= sumZ (map (fun x => Z.of_nat (length (f x))) l).
Proof. apply sumZ_nonneg, Forall_map, Forall_true. intros x. cbn. lia. Qed.

(** A loop that adds a count of each script. *)
Lemma sigops_fold {A} (f : A -> list Z) (l : list A) : Forall (fun x => bytes_ok (f x)) l ->
  forall n, 0 <= n -> n + 20 * sumZ (map (fun x => Z.of_nat (length (f x))) l) < 2 ^ 31 ->
  n <= fold_left (fun n x => u32 (n + GetSigOpCount false (f x))) l n <= n + 20 * sumZ (map (fun x => Z.of_nat (length (f x))) l).
Proof.
  induction 1 as [|x l Hx Hl IH]; intros n Hn Hb; cbn [fold_left map sumZ fold_right] in *; [lia|].
  pose proof (sum_lengths_nonneg f l) as H0. unfold sumZ in *.
  destruct (GetSigOpCount_bounds (f x) Hx) as [H1 H2]; [lia|].
  rewrite u32_small by lia. specialize (IH (n + GetSigOpCount false (f x))). lia.
Qed.

Lemma legacy_bound tx : scripts_ok tx -> 0 <= GetLegacySigOpCount tx <= 20 * MAX_BLOCK_SIZE.
Proof.
  intros (Hi & Ho & Hs). unfold script_size in Hs. change MAX_BLOCK_SIZE with 1000000 in *.
  pose proof (sum_lengths_nonneg scriptSig (vin tx)). pose proof (sum_lengths_nonneg scriptPubKey (vout tx)).
  unfold GetLegacySigOpCount. cbv zeta. pose proof (sigops_fold scriptSig (vin tx) Hi 0) as H1.
  pose proof (sigops_fold scriptPubKey (vout tx) Ho (fold_left (fun n x => u32 (n + GetSigOpCount false (scriptSig x))) (vin tx) 0)) as H2.
  lia.
Qed.

Lemma push_data_size opcode rest n rest' : push_size opcode rest = Some (n, rest') -> (length rest' <= length rest)%nat.
Proof.
  unfold push_size. intros H. repeat (dmatch_in H; try done); injection H as _ <-; rewrite ?length_drop; cbn; lia.
Qed.

Lemma GetOp_data pc opcode data rest : bytes_ok pc -> GetOp pc = Some (opcode, data, rest) ->
  (length data <= length pc)%nat.
Proof.
  intros Hb. destruct pc as [|op pc]; [done|]. cbn [GetOp]. intros H. repeat (dmatch_in H; try done); injection H as _ <- _; cbn; try lia.
  rewrite length_take.
  match goal with E : push_size _ _ = Some _ |- _ => apply push_data_size in E end. lia.
Qed.

Lemma last_push_bound fuel : forall pc data d, bytes_ok pc -> bytes_ok data -> last_push_loop fuel pc data = Some d ->
  bytes_ok d /\ (length d <= Nat.max (length pc) (length data))%nat.
Proof.
  induction fuel as [|fuel IH]; intros pc data d Hb Hd; cbn [last_push_loop]; [intros [= <-]; split; [done|lia]|].
  destruct pc as [|x pc]; [intros [= <-]; split; [done|lia]|].
  destruct (GetOp (x :: pc)) as [[[o dt] rest]|] eqn:E; [|done].
  destruct (OP_16 <? o); [done|]. pose proof (GetOp_data _ _ _ _ Hb E). destruct (GetOp_length _ _ _ _ Hb E) as (Hl & Hr & Hdt).
  intros H'. apply IH in H' as [? ?]; [|done|done]. split; [done|]. lia.
Qed.

Lemma p2sh_count_bound spk s : IsPayToScriptHash spk = true -> bytes_ok s -> Z.of_nat (length s) < 2 ^ 27 ->
  0 <= GetSigOpCount_p2sh spk s <= 20 * Z.of_nat (length s).
Proof.
  intros Hp Hb Hl. unfold GetSigOpCount_p2sh. rewrite Hp. cbn [negb].
  destruct (last_push_loop _ _ _) as [d|] eqn:E; [|lia]. apply last_push_bound in E as [Hd Hn]; [|done|constructor].
  cbn [length] in Hn. destruct (GetSigOpCount_bounds d Hd) as [? ?]; lia.
Qed.

Lemma p2sh_bound I tx n : scripts_ok tx -> GetP2SHSigOpCount tx I = Some n -> 0 <= n <= 20 * MAX_BLOCK_SIZE.
Proof.
  intros (Hi & _ & Hs). unfold script_size in Hs. change MAX_BLOCK_SIZE with 1000000 in *.
  pose proof (sum_lengths_nonneg scriptPubKey (vout tx)) as H0.
  unfold GetP2SHSigOpCount. destruct (IsCoinBase tx); [intros [= <-]; lia|].
  assert (forall vi acc, Forall (fun x => bytes_ok (scriptSig x)) vi -> 0 <= acc ->
    acc + 20 * sumZ (map (fun x => Z.of_nat (length (scriptSig x))) vi) <= 20 * 1000000 -> p2sh_sigops_loop I vi acc = Some n ->
    0 <= n <= 20 * 1000000) as Hl; [|apply Hl; [done|lia|lia]].
  clear Hi Hs. induction vi as [|x vi IH]; intros acc HF Ha Hb; cbn [p2sh_sigops_loop map sumZ fold_right] in *; [intros [= <-]; lia|].
  apply Forall_cons in HF as [Hx HF]. pose proof (sum_lengths_nonneg scriptSig vi) as Hv. unfold sumZ in *.
  destruct (GetOutputFor x I) as [o|]; [|done]. apply IH; [done|..].
  all: destruct (IsPayToScriptHash (scriptPubKey o)) eqn:Ep; [|lia];
    destruct (p2sh_count_bound _ _ Ep Hx) as [? ?]; [lia|]; rewrite u32_small by lia; lia.
Qed.

(** A transaction off the wire, within the size limit. *)
Definition wire_tx (tx : CTransaction) : Prop :=
  CTransaction_valid tx /\ Z.of_nat (length (enc CTransaction_codec tx)) <= MAX_BLOCK_SIZE.

Lemma flat_map_length_ge {A} (e : A -> list Z) (f : A -> list Z) l : (forall x, (length (f x) <= length (e x))%nat) ->
  sumZ (map (fun x => Z.of_nat (length (f x))) l) <= Z.of_nat (length (flat_map e l)).
Proof.
  intros He. induction l as [|x l IH]; cbn [map flat_map sumZ fold_right]; [lia|]. rewrite length_app. specialize (He x).
  unfold sumZ in IH. lia.
Qed.

Lemma wire_scripts tx : wire_tx tx -> scripts_ok tx.
Proof.
  intros [(_ & _ & [_ Hi] & [_ Ho] & _) Hl]. split; [|split].
  - eapply Forall_impl; [exact Hi|]. by intros x (_ & [_ ?] & _).
  - eapply Forall_impl; [exact Ho|]. by intros o (_ & _ & ?).
  - unfold script_size. pose proof (flat_map_length_ge (enc CTxIn_codec) scriptSig (vin tx)) as H1.
    pose proof (flat_map_length_ge (enc CTxOut_codec) scriptPubKey (vout tx)) as H2.
    cbn [enc CTransaction_codec iso_codec pair_codec vector_codec fst snd] in Hl. rewrite !length_app in Hl.
    specialize (H1 ltac:(intros x; cbn [enc CTxIn_codec iso_codec pair_codec bytevec_codec fst snd]; rewrite !length_app; lia)).
    specialize (H2 ltac:(intros x; cbn [enc CTxOut_codec iso_codec pair_codec bytevec_codec fst snd]; rewrite !length_app; lia)). lia.
Qed.

Lemma wire_size tx : wire_tx tx -> 8 <= csize CTransaction_codec tx <= MAX_BLOCK_SIZE.
Proof.
  intros [Hv Hl]. rewrite (csize_enc CTransaction_codec_ok) by done. change MAX_BLOCK_SIZE with 1000000 in *.
  cbn [enc CTransaction_codec iso_codec pair_codec sint_codec uint_codec fst snd] in *. rewrite !length_app, !length_le_bytes in *.
  rewrite u32_small by lia. lia.
Qed.

Lemma wire_inputs tx : wire_tx tx -> inputs_valid tx.
Proof. intros [(_ & _ & [_ Hi] & _) _]. eapply Forall_impl; [exact Hi|]. by intros x ([_ [? _]] & _). Qed.

(** ** The collecting loop *)

Section Collecting.
Context `{HD : Digests} `{BN : OpenSSL_BN} {HP : Heap} {HL : HeapLaws HP}.
Context (ReadTxFromDisk : CDiskTxPos -> option CTransaction) (ReadHeaderFromDisk : Z -> Z -> option CBlockHeader).
Context (VerifySig : CTransaction -> CTransaction -> nat -> bool).
Context (params : chain_params) (nAdjustedTime : Z) (COINBASE_FLAGS : CScript) (args : miner_args).
Context (idx : block_index) (pindexBest : uint256) (nBestHeight : Z) (txdb : txindex_map) (mempool : gmap uint256 CTransaction).
Context (fProofOfStake : bool) (nCoinbaseTime : Z) (pindexPrev : list CBlockIndex).

Local Abbreviation consider' := (consider ReadTxFromDisk VerifySig params nAdjustedTime args txdb mempool fProofOfStake nCoinbaseTime pindexPrev).
Local Abbreviation collect' fuel :=
  (collect ReadTxFromDisk VerifySig params nAdjustedTime args txdb mempool fuel fProofOfStake nCoinbaseTime pindexPrev).

(** What a turn that adds the transaction has checked and does. *)
Record added (c : collecting) (tx : CTransaction) (c' : collecting) : Prop := {
  ad_size : u64 (nBlockSize c + csize CTransaction_codec tx) < nBlockMaxSize args;
  ad_time : tx_nTime tx <= nAdjustedTime;
  ad_run : exists I nIn nOut nP pool u,
    FetchInputs ReadTxFromDisk mempool nAdjustedTime txdb (mapTestPool c) false true tx ∅ = mkFetched true false I /\
    GetValueMapIn tx I = Some nIn /\ GetValueOut tx = Some nOut /\
    GetMinFee tx (u32 (nBlockSize c)) GMF_BLOCK 0 <= s64 (nIn - nOut) /\ GetP2SHSigOpCount tx I = Some nP /\
    u32 (nBlockSigOps c + u32 (GetLegacySigOpCount tx + nP)) < MAX_BLOCK_SIGOPS /\
    ConnectInputs (fun txPrev tx i w => (VerifySig txPrev tx i, w)) (nCoinbaseMaturity params) I (mapTestPool c) pos_mempool
      pindexPrev false true false tx tt = Ok (pool, u) /\
    mapTestPool c' = <[CTransaction_GetHash tx := CTxIndex_make pos_mempool (length (vout tx))]> pool /\
    nBlockSigOps c' = s32 (nBlockSigOps c + u32 (GetLegacySigOpCount tx + nP)) /\ k_nFees c' = s64 (k_nFees c + s64 (nIn - nOut));
  ad_vtx : k_vtx c' = k_vtx c ++ [tx];
  ad_newsize : nBlockSize c' = u64 (nBlockSize c + csize CTransaction_codec tx);
  ad_count : nBlockTx c' = u64 (nBlockTx c + 1);
  ad_sorted : fSortedByFee c = true -> fSortedByFee c' = true;
}.

(** The state but for the order. *)
Definition unchanged (c c' : collecting) : Prop := c' = c \/ c' = set_sorted c.

Lemma FetchInputs_ok fBlock fMiner q tx I0 :
  let f := FetchInputs ReadTxFromDisk mempool nAdjustedTime txdb q fBlock fMiner tx I0 in
  f_ok f = true -> f = mkFetched true false (f_inputs f).
Proof. cbv zeta. unfold FetchInputs. repeat (dmatch; try done). Qed.

Lemma consider_cases c p c' : consider' c p = Ok c' -> unchanged c c' \/ added c (ptx p) c'.
Proof.
  unfold consider. destruct (Z.leb_spec (nBlockMaxSize args) (u64 (nBlockSize c + csize CTransaction_codec (ptx p)))) as [|Hsize]; [intros [= <-]; by left; left|].
  destruct (MAX_BLOCK_SIGOPS <=? _); [intros [= <-]; by left; left|].
  destruct (_ || _)%bool eqn:Et; [intros [= <-]; by left; left|]. bprop.
  destruct (_ && _ && _)%bool; [intros [= <-]; by left; left|].
  set (c1 := if (negb (fSortedByFee c) && _)%bool then set_sorted c else c).
  assert (unchanged c c1) as Hc1 by (subst c1; destruct (_ && _)%bool; [by right|by left]).
  assert (mapTestPool c1 = mapTestPool c /\ nBlockSigOps c1 = nBlockSigOps c /\ k_vtx c1 = k_vtx c /\ nBlockTx c1 = nBlockTx c /\
    k_nFees c1 = k_nFees c) as (-> & -> & -> & -> & ->) by (destruct Hc1 as [-> | ->]; done).
  destruct (f_ok _) eqn:Ef; cbn [negb]; [|intros [= <-]; by left].
  apply FetchInputs_ok in Ef. set (f := FetchInputs _ _ _ _ _ _ _ _ _) in *. intros Hr. res_inv Hr. res_facts.
  rename select (GetValueMapIn _ _ = _) into Ein. rename select (GetValueOut _ = _) into Eout.
  match type of Hr with (if ?a <? ?b then _ else _) = _ => destruct (Z.ltb_spec a b) as [|Hfee]; [injection Hr as <-; by left|] end.
  res_inv Hr. res_facts. rename select (GetP2SHSigOpCount _ _ = _) into Ep.
  match type of Hr with (if ?a <=? ?b then _ else _) = _ => destruct (Z.leb_spec a b) as [|Hops]; [injection Hr as <-; by left|] end.
  destruct (ConnectInputs _ _ _ _ _ _ _ _ _ _ _) as [[pool u]| |] eqn:Ec; [|injection Hr as <-; by left|done].
  injection Hr as <-. right. split; try done; [by repeat eexists|]. cbn. by destruct Hc1 as [-> | ->].
Qed.

(** Induction over the loop, for what holds of the queue in any order. *)
Lemma collect_ind (P : list TxPriority -> collecting -> Prop) :
  (forall l l' c, l ≡ₚ l' -> P l c -> P l' c) ->
  (forall p l c c', P (p :: l) c -> consider' c p = Ok c' -> P l c') ->
  forall fuel l c c', P l c -> collect' fuel l c = Some (Ok c') -> P [] c'.
Proof.
  intros Hperm Hstep. induction fuel as [|fuel IH]; intros l c c' H0; cbn [collect];
    (destruct (pop_heap (fSortedByFee c) l) as [[p r]|] eqn:Ep; [|intros [= <-]; apply pop_heap_empty in Ep; by subst]); [done|].
  apply pop_heap_perm in Ep. destruct (consider' c p) as [c1| |] eqn:Ec; [|done..].
  assert (P r c1) as H1 by (apply (Hstep p r c); [by apply (Hperm l)|done]).
  apply IH. destruct (_ && _)%bool; [|done]. apply (Hperm r); [by rewrite make_heap_perm|done].
Qed.

(** The loop ends: each turn takes an element out. *)
Lemma collect_ends fuel : forall l c, (length l <= fuel)%nat -> is_Some (collect' fuel l c).
Proof.
  induction fuel as [|fuel IH]; intros l c Hl; cbn [collect];
    (destruct (pop_heap (fSortedByFee c) l) as [[p r]|] eqn:Ep; [|by eexists]);
    apply pop_heap_perm, Permutation_length in Ep; cbn in Ep; [lia|].
  destruct (consider' c p) as [c1| |]; [|by eexists..]. apply IH. destruct (_ && _)%bool; [|lia].
  rewrite (Permutation_length (make_heap_perm _ _)). lia.
Qed.

(** *** What enters the queue *)

Local Abbreviation tx_priority' := (tx_priority ReadTxFromDisk ReadHeaderFromDisk nAdjustedTime idx pindexBest nBestHeight txdb).
Local Abbreviation collect_priorities' := (collect_priorities ReadTxFromDisk ReadHeaderFromDisk nAdjustedTime idx pindexBest nBestHeight txdb).

Definition eligible (tx : CTransaction) : Prop :=
  IsCoinBase tx = false /\ IsCoinStake tx = false /\ IsFinal nBestHeight nAdjustedTime tx 0 0 = true /\
  Forall (fun x => is_Some (txdb !! out_hash (prevout x))) (vin tx).

Lemma priority_inputs_found vi : forall d n f d' n',
  priority_inputs ReadTxFromDisk ReadHeaderFromDisk idx pindexBest nBestHeight txdb vi d n f = (d', n', false) ->
  f = false /\ Forall (fun x => is_Some (txdb !! out_hash (prevout x))) vi.
Proof.
  induction vi as [|x vi IH]; intros d n f d' n'; cbn [priority_inputs]; [by intros [= _ _ ->]|].
  unfold ReadPrevFromDisk. destruct (txdb !! out_hash (prevout x)) as [i|] eqn:Ei; [|by intros [? _]%IH].
  destruct (ReadTxFromDisk (pos i)) as [t|]; [|by intros [? _]%IH].
  destruct (_ <=? _); [by intros [? _]%IH|]. intros [? ?]%IH. split; [done|]. constructor; [by eexists|done].
Qed.

Lemma tx_priority_eligible tx p : tx_priority' tx = Ok (Some p) -> ptx p = tx /\ eligible tx.
Proof.
  unfold tx_priority. destruct (_ || _)%bool eqn:Eb; [done|]. bprop.
  destruct (priority_inputs _ _ _ _ _ _ _ _ _ _) as [[d n] f] eqn:Ep. destruct f; [done|].
  apply priority_inputs_found in Ep as [_ HF]. intros Hr. res_inv Hr. by injection Hr as <-.
Qed.

Lemma collect_priorities_spec txs : forall l, collect_priorities' txs = Ok l -> sublist (map ptx l) txs /\ Forall eligible (map ptx l).
Proof.
  induction txs as [|tx txs IH]; intros l; cbn [collect_priorities]; [intros [= <-]; by split; constructor|].
  intros Hr. res_inv Hr. destruct (IH _ eq_refl) as [Hs HF].
  injection Hr as <-. rename select (tx_priority' tx = _) into Et. rename select (option TxPriority) into o. destruct o as [p|].
  - apply tx_priority_eligible in Et as [<- He]. split; [by constructor|]. by constructor.
  - split; [by constructor|done].
Qed.
End Collecting.

(** ** The limits of a template *)

(** What the pool holds: transactions that [CheckTransaction] accepts, under their
    ids, none of which is in the chain. *)
Definition pool_ok `{HD : Digests} (txdb : txindex_map) (mempool : gmap uint256 CTransaction) : Prop :=
  map_Forall (fun h tx => CTransaction_GetHash tx = h /\ txdb !! h = None /\ wire_tx tx /\ CheckTransaction tx = Consensus.Accept) mempool.

Lemma nBlockMaxSize_range args : 1000 <= nBlockMaxSize args <= MAX_BLOCK_SIZE - 1000.
Proof. unfold nBlockMaxSize. change MAX_BLOCK_SIZE with 1000000. pose proof (u32_range (blockmaxsize args)). lia. Qed.

Section Limits.
Context `{HD : Digests} `{BN : OpenSSL_BN} {HP : Heap} {HL : HeapLaws HP}.
Context (ReadTxFromDisk : CDiskTxPos -> option CTransaction) (ReadHeaderFromDisk : Z -> Z -> option CBlockHeader).
Context (VerifySig : CTransaction -> CTransaction -> nat -> bool).
Context (params : chain_params) (nAdjustedTime : Z) (args : miner_args).
Context (idx : block_index) (pindexBest : uint256) (nBestHeight : Z) (txdb : txindex_map) (mempool : gmap uint256 CTransaction).
Context (fProofOfStake : bool) (nCoinbaseTime : Z) (pindexPrev : list CBlockIndex).
Hypothesis Hpool : pool_ok txdb mempool.

Local Abbreviation consider' := (consider ReadTxFromDisk VerifySig params nAdjustedTime args txdb mempool fProofOfStake nCoinbaseTime pindexPrev).
Local Abbreviation collect' fuel :=
  (collect ReadTxFromDisk VerifySig params nAdjustedTime args txdb mempool fuel fProofOfStake nCoinbaseTime pindexPrev).
Local Abbreviation added' := (added ReadTxFromDisk VerifySig params nAdjustedTime args txdb mempool pindexPrev).
Local Abbreviation collect_priorities' := (collect_priorities ReadTxFromDisk ReadHeaderFromDisk nAdjustedTime idx pindexBest nBestHeight txdb).

Definition sum_sizes (txs : list CTransaction) : Z := sumZ (map (csize CTransaction_codec) txs).
Definition sum_sigops (txs : list CTransaction) : Z := sumZ (map GetLegacySigOpCount txs).

Record within (c : collecting) : Prop := {
  w_size : nBlockSize c = 1000 + sum_sizes (k_vtx c);
  w_max : k_vtx c = [] \/ nBlockSize c < nBlockMaxSize args;
  w_pos : Forall (fun tx => 8 <= csize CTransaction_codec tx) (k_vtx c);
  w_ops : 100 + sum_sigops (k_vtx c) <= nBlockSigOps c < MAX_BLOCK_SIGOPS;
  w_time : Forall (fun tx => tx_nTime tx <= nAdjustedTime) (k_vtx c);
}.

(** A transaction of the pool that may enter a block. *)
Definition minable (tx : CTransaction) : Prop :=
  mempool !! CTransaction_GetHash tx = Some tx /\ eligible nAdjustedTime nBestHeight txdb tx.

Lemma minable_wire tx : minable tx -> wire_tx tx /\ txdb !! CTransaction_GetHash tx = None /\ CheckTransaction tx = Consensus.Accept.
Proof. intros [Hm _]. apply Hpool in Hm as (_ & ? & ? & ?). done. Qed.

Lemma within_small c : within c -> 0 <= sum_sizes (k_vtx c) <= MAX_BLOCK_SIZE - 1000.
Proof.
  intros Hw. pose proof (nBlockMaxSize_range args) as Hm. split.
  - apply sumZ_nonneg, Forall_map. eapply Forall_impl; [apply (w_pos _ Hw)|]. cbn. lia.
  - destruct (w_max _ Hw) as [->|Hlt]; [by vm_compute|]. rewrite (w_size _ Hw) in Hlt. lia.
Qed.

(** The counts of an added transaction do not wrap around. *)
Lemma added_counts c tx c' : within c -> wire_tx tx -> 0 <= sum_sigops (k_vtx c) -> added' c tx c' ->
  exists nP, 0 <= GetLegacySigOpCount tx /\ 0 <= nP /\ nBlockSigOps c' = nBlockSigOps c + GetLegacySigOpCount tx + nP /\
  nBlockSigOps c' < MAX_BLOCK_SIGOPS /\ nBlockSize c' = nBlockSize c + csize CTransaction_codec tx.
Proof.
  intros Hw Ht H0 Ha. pose proof (wire_scripts _ Ht) as Hs. pose proof (legacy_bound _ Hs) as HL1. pose proof (w_ops _ Hw) as Ho.
  pose proof (within_small _ Hw) as Hss. pose proof (w_size _ Hw) as Hsz. pose proof (wire_size _ Ht) as Hts.
  destruct (ad_run _ _ _ _ _ _ _ _ _ _ _ Ha) as (I & nIn & nOut & nP & pool & u & _ & _ & _ & _ & HP2 & Hlim & _ & _ & Hops & _).
  pose proof (p2sh_bound _ _ _ Hs HP2) as HL2. exists nP. rewrite (ad_newsize _ _ _ _ _ _ _ _ _ _ _ Ha).
  change MAX_BLOCK_SIZE with 1000000 in *. change MAX_BLOCK_SIGOPS with 20000 in *.
  rewrite (u32_small (_ + nP)) in * by lia. rewrite u32_small in Hlim by lia. rewrite s32_small in Hops by lia.
  rewrite u64_small by lia. lia.
Qed.

Lemma sum_sigops_nonneg txs : Forall wire_tx txs -> 0 <= sum_sigops txs.
Proof.
  intros HF. apply sumZ_nonneg, Forall_map. eapply Forall_impl; [exact HF|]. intros tx Ht. apply (legacy_bound _ (wire_scripts _ Ht)).
Qed.

Lemma within_added c tx c' : Forall wire_tx (k_vtx c) -> wire_tx tx -> within c -> added' c tx c' -> within c'.
Proof.
  intros HF Ht Hw Ha. destruct (added_counts _ _ _ Hw Ht (sum_sigops_nonneg _ HF) Ha) as (nP & H1 & H2 & H3 & H4 & H5).
  pose proof (ad_vtx _ _ _ _ _ _ _ _ _ _ _ Ha) as Hv. pose proof (ad_size _ _ _ _ _ _ _ _ _ _ _ Ha) as Hs.
  pose proof (ad_time _ _ _ _ _ _ _ _ _ _ _ Ha) as Htm. pose proof (ad_newsize _ _ _ _ _ _ _ _ _ _ _ Ha) as Hns.
  destruct Hw as [W1 W2 W3 W4 W5]. unfold sum_sizes, sum_sigops in *.
  split; unfold sum_sizes, sum_sigops; rewrite Hv; rewrite ?map_app, ?sumZ_app, ?Forall_app; cbn [map sumZ fold_right] in *.
  - unfold sumZ in *. lia.
  - right. lia.
  - split; [done|]. constructor; [|done]. pose proof (wire_size _ Ht). lia.
  - unfold sumZ in *. lia.
  - split; [done|]. by constructor.
Qed.

(** The state of the loop with its queue. *)
Record loop_ok (l : list TxPriority) (c : collecting) : Prop := {
  l_within : within c;
  l_nodup : NoDup (map CTransaction_GetHash (k_vtx c ++ map ptx l));
  l_block : Forall minable (k_vtx c);
  l_queue : Forall minable (map ptx l);
}.

Lemma loop_ok_perm l l' c : l ≡ₚ l' -> loop_ok l c -> loop_ok l' c.
Proof. intros Hp [H1 H2 H3 H4]. split; [done| |done|]; by rewrite <- Hp. Qed.

Lemma minable_wires txs : Forall minable txs -> Forall wire_tx txs.
Proof. intros HF. eapply Forall_impl; [exact HF|]. intros tx Ht. by apply minable_wire in Ht as [? _]. Qed.

Lemma loop_ok_step p l c c' : loop_ok (p :: l) c -> consider' c p = Ok c' -> loop_ok l c'.
Proof.
  intros [H1 H2 H3 H4] Hc. cbn [map] in *. pose proof H4 as [H5 H6]%Forall_cons. apply consider_cases in Hc as [Hu|Ha].
  - assert (within c' /\ k_vtx c' = k_vtx c) as [Hw Hv] by (destruct Hu as [-> | ->]; split; [done|done|by destruct H1|done]).
    split; rewrite ?Hv; try done. rewrite map_app in *. cbn [map] in H2. rewrite <- Permutation_middle in H2. by apply NoDup_cons in H2 as [_ H2].
  - pose proof (ad_vtx _ _ _ _ _ _ _ _ _ _ _ Ha) as Hv. split.
    + apply (within_added c (ptx p)); try done; [by apply minable_wires|by apply minable_wire].
    + rewrite Hv, <- app_assoc. done.
    + rewrite Hv. apply Forall_app. split; [done|]. by constructor.
    + done.
Qed.

Lemma pool_list_nodup : NoDup (map CTransaction_GetHash (map snd (map_to_list mempool))).
Proof.
  assert (map CTransaction_GetHash (map snd (map_to_list mempool)) = map fst (map_to_list mempool)) as ->.
  { rewrite map_map. apply map_ext_in. intros [h tx] Hin%list_elem_of_In. apply elem_of_map_to_list, Hpool in Hin as [Hh _]. exact Hh. }
  apply NoDup_fst_map_to_list.
Qed.

Lemma loop_ok_start byFee l : collect_priorities' (map snd (map_to_list mempool)) = Ok l ->
  loop_ok (make_heap byFee l) (empty_collecting args).
Proof.
  intros Hl. apply collect_priorities_spec in Hl as [Hs He]. apply (loop_ok_perm l); [by rewrite make_heap_perm|]. split.
  - split; cbn; [done|by left|constructor|by vm_compute|constructor].
  - cbn [k_vtx empty_collecting app]. eapply sublist_NoDup; [apply pool_list_nodup|]. apply (fmap_sublist CTransaction_GetHash _ _ Hs).
  - constructor.
  - apply Forall_forall. intros tx Htx. eapply Forall_forall in He; [|exact Htx]. split; [|done].
    eapply elem_of_sublist in Htx; [|exact Hs]. apply list_elem_of_fmap in Htx as ([h tx'] & -> & Hin).
    apply elem_of_map_to_list in Hin. cbn. pose proof (Hpool _ _ Hin) as [-> _]. done.
Qed.
End Limits.

(** ** The template connects *)

Lemma s64_add_r a b : s64 (a + s64 b) = s64 (a + b).
Proof.
  unfold s64. f_equal. replace (a + ((b + 2 ^ 63) mod 2 ^ 64 - 2 ^ 63) + 2 ^ 63) with (a + (b + 2 ^ 63) mod 2 ^ 64) by lia.
  rewrite Zplus_mod_idemp_r. f_equal. lia.
Qed.

Section Connects.
Context `{HD : Digests} `{BN : OpenSSL_BN} {HP : Heap} {HL : HeapLaws HP}.
Context (ReadTxFromDisk : CDiskTxPos -> option CTransaction) (ReadHeaderFromDisk : Z -> Z -> option CBlockHeader).
Context (params : chain_params) (nAdjustedTime nAdjustedTime' : Z) (args : miner_args).
Context (idx : block_index) (pindexBest : uint256) (nBestHeight : Z) (txdb : txindex_map) (mempool : gmap uint256 CTransaction).
Context (fProofOfStake : bool) (nCoinbaseTime : Z) (bi : CBlockIndex) (chain : list CBlockIndex).
Context {W : Type} (VerifySig : CTransaction -> CTransaction -> nat -> bool)
  (VerifySig' : CTransaction -> CTransaction -> nat -> W -> bool * W) (fJust fSkip : bool).
Hypothesis Hpool : pool_ok txdb mempool.
Hypothesis verify_same : forall txPrev tx i w, fst (VerifySig' txPrev tx i w) = VerifySig txPrev tx i.
Hypothesis Hfresh : fresh_block txdb bi.
Hypothesis Hfile : bi_nFile bi <> UINT_MAX.
Hypothesis Hnext : match chain with tip :: _ => nHeight bi = nHeight tip + 1 | [] => False end.

Local Abbreviation consider' := (consider ReadTxFromDisk VerifySig params nAdjustedTime args txdb mempool fProofOfStake nCoinbaseTime chain).
Local Abbreviation connect_tx' :=
  (connect_tx ReadTxFromDisk mempool nAdjustedTime' VerifySig' params txdb (bi :: chain) bi fJust fSkip).
Local Abbreviation connect_txs' :=
  (connect_txs ReadTxFromDisk mempool nAdjustedTime' VerifySig' params txdb (bi :: chain) bi fJust fSkip).
Local Abbreviation loop_ok' := (loop_ok nAdjustedTime args nBestHeight txdb mempool).

(** The block's state follows the miner's. *)
Record tracks (c : collecting) (s : @connecting W) : Prop := {
  fo_index : agree txdb (mapTestPool c) (mapQueuedChanges s);
  fo_ops : 0 <= c_nSigOps s <= nBlockSigOps c;
  fo_fees : c_nFees s = k_nFees c;
}.

Lemma connect_added p l c c' s : loop_ok' (p :: l) c -> tracks c s ->
  added ReadTxFromDisk VerifySig params nAdjustedTime args txdb mempool chain c (ptx p) c' ->
  exists s', connect_tx' s (ptx p) = Ok s' /\ tracks c' s'.
Proof.
  intros Hl [F1 F2 F3] Ha. pose proof (l_queue _ _ _ _ _ _ _ Hl) as [Hm _]%Forall_cons.
  destruct (minable_wire _ _ _ _ Hpool _ Hm) as (Hw & Hnew & _). pose proof Hm as [_ (Hcb & Hcs & _ & Hin)].
  pose proof (minable_wires _ _ _ _ Hpool _ (l_block _ _ _ _ _ _ _ Hl)) as Hws.
  pose proof (added_counts _ _ _ _ _ _ _ _ _ _ _ (l_within _ _ _ _ _ _ _ Hl) Hw (sum_sigops_nonneg _ Hws) Ha) as (nP & K1 & K2 & K3 & K4 & _).
  destruct (ad_run _ _ _ _ _ _ _ _ _ _ _ Ha) as (I & nIn & nOut & nP' & pool & u & Hf & Hi & Ho & _ & HP2 & _ & Hc & Hpl & Hops & Hfe).
  set (tx := ptx p) in *. destruct (FetchInputs_same ReadTxFromDisk mempool nAdjustedTime nAdjustedTime' txdb _ _ _ _ F1 Hcb Hin Hf) as (J & HJ & HIJ).
  assert (nP' = nP) as ->.
  { pose proof (wire_scripts _ Hw) as Hs. pose proof (legacy_bound _ Hs). pose proof (p2sh_bound _ _ _ Hs HP2).
    pose proof (w_ops _ _ _ (l_within _ _ _ _ _ _ _ Hl)). pose proof (sum_sigops_nonneg _ Hws).
    change MAX_BLOCK_SIZE with 1000000 in *. change MAX_BLOCK_SIGOPS with 20000 in *. rewrite u32_small, s32_small in Hops by lia. lia. }
  set (p' := mkDiskTxPos (bi_nFile bi) (bi_nBlockPos bi) (c_nTxPos s)).
  destruct (ConnectInputs_same txdb bi chain VerifySig VerifySig' verify_same Hfresh Hnext (nCoinbaseMaturity params) fSkip tx p'
    I J _ _ _ (c_w s) _ Hcb Hcs ltac:(by apply Z.eqb_neq) HIJ F1 Hc) as (q' & w' & Hc' & Hag).
  unfold connect_tx, overwrites. rewrite Hnew, Hcb, HJ, Hcs. cbn [negb guard_ rbind f_ok f_inputs].
  change MAX_BLOCK_SIGOPS with 20000 in *. rewrite !(u32_small (c_nSigOps s + _)) by lia.
  rewrite (proj2 (Z.leb_le _ 20000)) by lia. rewrite <- (GetP2SHSigOpCount_same txdb I J) by done. rewrite HP2. cbn [guard_ of_option rbind].
  rewrite u32_small by lia. rewrite (proj2 (Z.leb_le _ 20000)) by lia.
  rewrite <- (GetValueMapIn_same txdb I J) by done. rewrite Hi, Ho. cbn [guard_ of_option rbind]. fold p'. rewrite Hc'. cbn [return_false rbind].
  eexists. split; [done|]. split; cbn [mapQueuedChanges c_nSigOps c_nFees].
  - rewrite Hpl. apply agree_insert; [|done]. congruence.
  - lia.
  - rewrite Hfe, s64_add_r, F3. done.
Qed.

Lemma connect_txs_snoc txs tx : forall s, connect_txs' s (txs ++ [tx]) = (let* s := connect_txs' s txs in connect_tx' s tx).
Proof.
  induction txs as [|t txs IH]; intros s; cbn [app connect_txs rbind]; [by destruct (connect_tx' s tx)|].
  destruct (connect_tx' s t); cbn [rbind]; [apply IH|done..].
Qed.

(** The block's transactions connect, from a state that follows the empty one. *)
Lemma collected_connect fuel l c' s0 : loop_ok' l (empty_collecting args) -> tracks (empty_collecting args) s0 ->
  collect ReadTxFromDisk VerifySig params nAdjustedTime args txdb mempool fuel fProofOfStake nCoinbaseTime chain l (empty_collecting args) = Some (Ok c') ->
  loop_ok' [] c' /\ exists s', connect_txs' s0 (k_vtx c') = Ok s' /\ tracks c' s'.
Proof.
  intros Hl Hf. apply (collect_ind _ _ _ _ _ _ _ _ _ _ (fun l c => loop_ok' l c /\ exists s', connect_txs' s0 (k_vtx c) = Ok s' /\ tracks c s')).
  - intros l1 l2 c Hp [H1 H2]. split; [by apply (loop_ok_perm _ _ _ _ _ l1)|done].
  - intros p l1 c c1 [H1 (s' & Hs & Hfo)] Hc. split; [by eapply loop_ok_step|].
    apply consider_cases in Hc as [Hu|Ha].
    + exists s'. destruct Hu as [-> | ->]; [done|]. split; [done|]. by destruct Hfo.
    + destruct (connect_added _ _ _ _ _ H1 Hfo Ha) as (s2 & H2 & Hf2). exists s2. split; [|done].
      rewrite (ad_vtx _ _ _ _ _ _ _ _ _ _ _ Ha), connect_txs_snoc, Hs. exact H2.
  - split; [done|]. by exists s0.
Qed.
End Connects.

(** ** The solved block passes [CheckBlock] *)

(** Remove the truncations that do nothing, innermost first. *)
Ltac u32_inner :=
  repeat match goal with |- context [u32 ?x] => lazymatch x with context [u32 _] => fail | _ => rewrite (u32_small x) by lia end end.

Lemma fold_u32 {A} (f : A -> Z) (l : list A) : Forall (fun x => 0 <= f x) l ->
  forall n, 0 <= n -> n + sumZ (map f l) < 2 ^ 32 -> fold_left (fun n x => u32 (n + f x)) l n = n + sumZ (map f l).
Proof.
  induction 1 as [|x l Hx Hl IH]; intros n Hn Hs; cbn [fold_left map sumZ fold_right] in *; [lia|].
  assert (0 <= sumZ (map f l)) as H0 by (by apply sumZ_nonneg, Forall_map). unfold sumZ in *.
  rewrite u32_small by lia. rewrite IH by lia. lia.
Qed.

Lemma op_ne_refl a : op_ne a a = false.
Proof.
  unfold op_ne, op_eq. apply negb_false_iff. induction a as [|x a IH]; [done|]. cbn. by rewrite Z.eqb_refl.
Qed.

Section Solved.
Context `{HD : Digests} `{BN : OpenSSL_BN} `{EC : ECDSA}.

(** The coinbase that [IncrementExtraNonce] leaves. *)
Definition final_coinbase (nTime : Z) (script : CScript) (reward : Z) (reserved : uint160) : CTransaction :=
  mkTx 1 nTime [mkTxIn COutPoint_null script UINT_MAX] [mkTxOut reward (SetDestination (CKeyID reserved)); mkTxOut 0 []] 0.

Lemma final_coinbase_ok t script reward reserved : MoneyRange reward = true -> (2 <= length script <= 100)%nat -> uint_ok 5 reserved ->
  let cb := final_coinbase t script reward reserved in
  IsCoinBase cb = true /\ CheckTransaction cb = Consensus.Accept /\ GetValueOut cb = Some reward /\ 0 <= csize CTransaction_codec cb <= 400.
Proof.
  intros Hr Hs [Hl _] cb. assert (IsCoinBase cb = true) as Hcb by reflexivity.
  assert (length (SetDestination (CKeyID reserved)) = 25%nat) as Hd.
  { cbn [SetDestination app length push_uint]. rewrite length_app, length_uint_bytes, Hl. done. }
  apply MoneyRange_spec in Hr as Hr'.
  assert (0 <= csize CTransaction_codec cb <= 400) as Hsize.
  { unfold cb, final_coinbase. cbn [csize CTransaction_codec CTxIn_codec CTxOut_codec COutPoint_codec iso_codec pair_codec vector_codec bytevec_codec
      uint_codec sint_codec uint256_codec fold_left fst snd vin vout tx_nVersion tx_nTime nLockTime prevout scriptSig nSequence nValue scriptPubKey length].
    rewrite Hd. replace (GetSizeOfCompactSize (Z.of_nat (length script))) with 1 by (unfold GetSizeOfCompactSize; destruct (Z.ltb_spec (Z.of_nat (length script)) 253); lia).
    repeat match goal with |- context [GetSizeOfCompactSize (Z.of_nat ?k)] => change (GetSizeOfCompactSize (Z.of_nat k)) with 1 end.
    change (csize uint256_codec (out_hash COutPoint_null)) with 32. u32_inner. lia. }
  split; [done|]. split; [|split; [|done]].
  - apply CheckTransaction_spec. unfold well_formed. rewrite Hcb. change MAX_BLOCK_SIZE with 1000000.
    repeat split; try done; try lia; cbn [vout vin cb final_coinbase map nValue sumZ fold_right].
    + repeat constructor; cbn; lia.
    + lia.
    + apply NoDup_singleton.
    + by constructor.
  - unfold GetValueOut. cbn [vout cb final_coinbase value_out_loop nValue]. rewrite Z.add_0_l, Z.add_0_r.
    rewrite !s64_small by (unfold MAX_MONEY, COIN in Hr'; rewrite ?s64_small; lia). rewrite Hr. done.
Qed.

(** The header, the two counts and the transactions. *)
Lemma block_size_bound b : vchBlockSig b = [] -> Forall (fun tx => 0 <= csize CTransaction_codec tx) (vtx b) ->
  100 + sum_sizes (vtx b) <= MAX_BLOCK_SIZE -> csize (CBlock_codec false) b <= MAX_BLOCK_SIZE.
Proof.
  intros Hsig HF Hs. change MAX_BLOCK_SIZE with 1000000 in *.
  assert (0 <= sum_sizes (vtx b)) as H0 by (by apply sumZ_nonneg, Forall_map).
  cbn [csize CBlock_codec CBlockHeader_codec iso_codec pair_codec vector_codec bytevec_codec uint_codec sint_codec fst snd].
  pose proof (GetSizeOfCompactSize_bound (Z.of_nat (length (vtx b)))) as Hn.
  rewrite Hsig, (fold_u32 (csize CTransaction_codec)) by (done || unfold sum_sizes in *; lia). fold (sum_sizes (vtx b)).
  change (GetSizeOfCompactSize (Z.of_nat (length []))) with 1.
  change (csize uint256_codec (hashPrevBlock (header b))) with 32. change (csize uint256_codec (hashMerkleRoot (header b))) with 32.
  cbn [length]. u32_inner. lia.
Qed.

(** A block of a good coinbase and of transactions that passed their checks. *)
Lemma CheckBlock_ok params nAdj fPOW fMerkle b cb txs : vtx b = cb :: txs -> vchBlockSig b = [] -> IsProofOfStake b = false ->
  IsCoinBase cb = true -> Forall (fun tx => IsCoinBase tx = false) txs ->
  Forall (fun tx => CheckTransaction tx = Consensus.Accept /\ tx_nTime tx <= nTime (header b) /\ 0 <= GetLegacySigOpCount tx /\
    8 <= csize CTransaction_codec tx) txs ->
  CheckTransaction cb = Consensus.Accept -> tx_nTime cb = nTime (header b) -> 0 <= csize CTransaction_codec cb <= 400 ->
  1000 + sum_sizes txs <= MAX_BLOCK_SIZE - 1000 -> 0 <= GetLegacySigOpCount cb -> GetLegacySigOpCount cb + sum_sigops txs <= MAX_BLOCK_SIGOPS ->
  nTime (header b) <= nAdj -> NoDup (map CTransaction_GetHash (vtx b)) -> hashMerkleRoot (header b) = BuildMerkleTree b ->
  CheckProofOfWork params (CBlockHeader_GetHash (header b)) (nBits (header b)) = true ->
  CheckBlock params nAdj fPOW fMerkle false b = Ok ().
Proof.
  intros Hv Hsig Hpos Hcb Hncb HF Hck Htime Hcs Hsz Hop0 Hops Hadj Hnd Hroot Hpow.
  assert (sum_sizes txs >= 8 * Z.of_nat (length txs)) as Hlen.
  { clear -HF. unfold sum_sizes. induction HF as [|x l (_ & _ & _ & Hx) Hl IH]; cbn [map sumZ fold_right length]; [lia|]. unfold sumZ in IH. lia. }
  change MAX_BLOCK_SIZE with 1000000 in *. change MAX_BLOCK_SIGOPS with 20000 in *.
  unfold CheckBlock. rewrite Hv. change MAX_BLOCK_SIZE with 1000000 in *. change MAX_BLOCK_SIGOPS with 20000 in *.
  assert (csize (CBlock_codec false) b <= 1000000) as Hbs.
  { apply block_size_bound; [done|..]; rewrite Hv.
    - constructor; [lia|]. eapply Forall_impl; [exact HF|]. cbn. lia.
    - change MAX_BLOCK_SIZE with 1000000. unfold sum_sizes, sumZ in *. cbn [map fold_right]. lia. }
  assert (block_sigops (cb :: txs) <= 20000) as Hbo.
  { unfold block_sigops. rewrite (fold_u32 GetLegacySigOpCount); cbn [map sumZ fold_right]; unfold sum_sigops, sumZ in *; [lia| |lia|lia].
    constructor; [done|]. eapply Forall_impl; [exact HF|]. cbn. by intros tx (_ & _ & ? & _). }
  assert (check_txs (nTime (header b)) (cb :: txs) = Ok ()) as Htx.
  { cbn [check_txs]. rewrite Hck, (proj2 (Z.leb_le _ _)) by lia. cbn [of_verdict guard_ rbind]. clear -HF.
    induction HF as [|tx l (Hc & Ht & _) Hl IH]; [done|]. cbn [check_txs]. rewrite Hc, (proj2 (Z.leb_le _ _)) by lia. exact IH. }
  assert (forallb (fun tx => negb (IsCoinBase tx)) txs = true) as Hfb.
  { apply forallb_forall. intros tx Hin%list_elem_of_In. eapply Forall_forall in Hncb; [|exact Hin]. by rewrite Hncb. }
  cbn [length]. rewrite (proj2 (Z.leb_le (Z.of_nat (S _)) _)), (proj2 (Z.leb_le _ _) Hbs) by lia. cbn [andb guard_ rbind].
  unfold IsProofOfWork. rewrite Hpos, Hpow, andb_false_r. cbn [negb guard_ rbind].
  assert (forall t, 0 <= GetClockDrift t) as Hdrift by (intros t; unfold GetClockDrift; destruct (t <? _); lia).
  pose proof (Hdrift (nTime (header b))) as Hd. rewrite Htime.
  rewrite !(proj2 (Z.leb_le (nTime (header b)) _)) by lia. rewrite Hcb, Hfb. cbn [guard_ rbind].
  unfold check_stake_block. rewrite Hpos. cbn [rbind]. rewrite Htx. cbn [rbind].
  rewrite <- Hv, bool_decide_eq_true_2 by done. cbn [guard_ rbind]. rewrite Hv, (proj2 (Z.leb_le _ _) Hbo). cbn [guard_ rbind].
  rewrite Hroot, op_ne_refl, andb_false_r. done.
Qed.
End Solved.

(** ** The parts of a template *)

Section Parts.
Context `{HD : Digests} `{BN : OpenSSL_BN} {HP : Heap}.
Context (ReadTxFromDisk : CDiskTxPos -> option CTransaction) (ReadHeaderFromDisk : Z -> Z -> option CBlockHeader).
Context (VerifySig : CTransaction -> CTransaction -> nat -> bool).
Context (params : chain_params) (nAdjustedTime : Z) (COINBASE_FLAGS : CScript) (args : miner_args).
Context (idx : block_index) (pindexBest : uint256) (nBestHeight : Z) (txdb : txindex_map) (mempool : gmap uint256 CTransaction).

Lemma CreateNewBlock_inv fProofOfStake reserved t :
  CreateNewBlock ReadTxFromDisk ReadHeaderFromDisk VerifySig params nAdjustedTime COINBASE_FLAGS args idx pindexBest nBestHeight txdb mempool
    fProofOfStake reserved = Some (Ok t) ->
  exists tip pprev l c, chain_of idx pindexBest = tip :: pprev /\
    collect_priorities ReadTxFromDisk ReadHeaderFromDisk nAdjustedTime idx pindexBest nBestHeight txdb (map snd (map_to_list mempool)) = Ok l /\
    (let l := make_heap (nBlockPrioritySize args <=? 0) l in
     collect ReadTxFromDisk VerifySig params nAdjustedTime args txdb mempool (length l) fProofOfStake (u32 nAdjustedTime) (tip :: pprev) l
       (empty_collecting args) = Some (Ok c)) /\
    t_block t = mkBlock (mkHeader 6 (bi_hash tip) (uint_zero 8) (u32 nAdjustedTime) (GetNextTargetRequired params (tip :: pprev) fProofOfStake) 0)
      (set_reward fProofOfStake (nHeight tip) (k_nFees c) (coinbase_tx nAdjustedTime COINBASE_FLAGS fProofOfStake reserved (nHeight tip)) :: k_vtx c) [] /\
    pFees t = k_nFees c /\ nLastBlockSize t = nBlockSize c.
Proof.
  unfold CreateNewBlock. destruct (chain_of idx pindexBest) as [|tip pprev]; [done|].
  destruct (_ && _)%bool; [done|]. destruct (collect_priorities _ _ _ _ _ _ _ _) as [l| |] eqn:El; [|done..].
  destruct (collect _ _ _ _ _ _ _ _ _ _ _ _ _) as [[c| |]|] eqn:Ec; [|done..].
  intros [= <-]. exists tip, pprev, l, c. cbn [t_block pFees nLastBlockSize]. split; [done|]. split; [done|]. split; [exact Ec|].
  split; [|done]. by destruct fProofOfStake.
Qed.

Lemma IncrementExtraNonce_inv b pindexPrev hashStatic n b' h' n' :
  IncrementExtraNonce COINBASE_FLAGS b pindexPrev hashStatic n = Ok (b', h', n') ->
  let script := extra_nonce_script COINBASE_FLAGS (u32 (nHeight pindexPrev + 1)) n' in
  exists coinbase txs, vtx b = coinbase :: txs /\ (length script <= 100)%nat /\
    vtx b' = set_scriptSig0 script coinbase :: txs /\ vchBlockSig b' = vchBlockSig b /\
    header b' = set_merkle_root (header b) (BuildMerkleTree b').
Proof.
  unfold IncrementExtraNonce. destruct (vtx b) as [|coinbase txs]; [done|]. destruct (vin coinbase) as [|x vi]; [done|].
  destruct (Z.ltb_spec 100 (Z.of_nat (length (extra_nonce_script COINBASE_FLAGS (u32 (nHeight pindexPrev + 1))
    (u32 ((if op_ne hashStatic (hashPrevBlock (header b)) then 0 else n) + 1)))))) as [|Hl]; [done|].
  intros [= <- <- <-]. exists coinbase, txs. cbn [vtx header vchBlockSig]. repeat split. lia.
Qed.

Lemma extra_nonce_script_min h n : (2 <= length (extra_nonce_script COINBASE_FLAGS h n))%nat.
Proof.
  unfold extra_nonce_script. rewrite !length_app.
  assert (forall v, 1 <= length (push_data v))%nat as Hp by (intros v; unfold push_data; rewrite length_app; repeat dmatch; cbn [length]; lia).
  assert (1 <= length (push_uint64 h))%nat by (unfold push_uint64; destruct (_ && _)%bool; [cbn; lia|apply Hp]).
  specialize (Hp (getvch n)). lia.
Qed.
End Parts.

(** The height is written as [AcceptBlock] expects it. *)
Lemma push_uint64_int64 `{BN : OpenSSL_BN} {BN_ok : OpenSSL_BN_ok} n : 0 <= n < 2 ^ 63 -> push_uint64 n = push_int64 n.
Proof.
  intros Hn. unfold push_uint64, push_int64. rewrite (proj2 (Z.eqb_neq n (-1))) by lia. cbn [orb].
  rewrite setuint64_spec, setint64_spec by lia. done.
Qed.

Lemma extra_nonce_height `{BN : OpenSSL_BN} {BN_ok : OpenSSL_BN_ok} flags h n b cb txs : 0 <= h < 2 ^ 31 -> vtx b = cb :: txs ->
  scriptSig <$> head (vin cb) = Some (extra_nonce_script flags (u32 h) n) -> height_in_coinbase h b = Ok ().
Proof.
  intros Hh Hv Hs. unfold height_in_coinbase. rewrite Hv. destruct (vin cb) as [|x vi]; [done|]. injection Hs as Hs.
  rewrite Hs, u32_small by lia. unfold extra_nonce_script. rewrite push_uint64_int64 by lia.
  rewrite take_app_length. by rewrite bool_decide_eq_true_2.
Qed.

(** The coinbase connects first, and leaves the index as it was for the others. *)
Lemma connect_coinbase `{HD : Digests} ReadTxFromDisk mempool nAdj {W} (VS : CTransaction -> CTransaction -> nat -> W -> bool * W)
    params txdb pindex bi fJust fSkip args cb nTxPos w : IsCoinBase cb = true -> txdb !! CTransaction_GetHash cb = None ->
  0 <= GetLegacySigOpCount cb <= 100 -> is_Some (GetValueOut cb) ->
  exists s, connect_tx ReadTxFromDisk mempool nAdj VS params txdb pindex bi fJust fSkip (mkConnecting ∅ 0 0 0 0 0 nTxPos w) cb = Ok s /\
    tracks txdb (empty_collecting args) s.
Proof.
  intros Hcb Hnew Hops [v Hv]. unfold connect_tx, overwrites. rewrite Hnew, Hcb, Hv. cbn [negb guard_ rbind of_option c_nSigOps].
  change MAX_BLOCK_SIGOPS with 20000. rewrite u32_small, (proj2 (Z.leb_le _ 20000)) by lia. cbn [guard_ rbind]. eexists. split; [done|].
  split; cbn; [|lia|done]. intros h i Hi. exists i, i. rewrite !lookup_union_r; [done|..]; [|by rewrite lookup_empty].
  rewrite lookup_insert_ne by congruence. by rewrite lookup_empty.
Qed.

Lemma fold_u32_nonneg {A} (f : A -> Z) l : forall n, 0 <= n -> 0 <= fold_left (fun n x => u32 (n + f x)) l n.
Proof. induction l as [|x l IH]; intros n Hn; cbn [fold_left]; [done|]. apply IH, u32_range. Qed.

Lemma legacy_nonneg tx : 0 <= GetLegacySigOpCount tx.
Proof. unfold GetLegacySigOpCount. do 2 apply (fold_u32_nonneg (fun _ => _)). lia. Qed.

Section Template.
Context `{HD : Digests} `{BN : OpenSSL_BN} `{EC : ECDSA}.
Context (nAdjustedTime : Z) (args : miner_args) (nBestHeight : Z) (txdb : txindex_map) (mempool : gmap uint256 CTransaction).
Context (b : CBlock) (cb : CTransaction) (c : collecting).
Hypothesis Hloop : loop_ok nAdjustedTime args nBestHeight txdb mempool [] c.
Hypothesis Hvtx : vtx b = cb :: k_vtx c.

Lemma template_pow : IsProofOfStake b = false.
Proof.
  unfold IsProofOfStake. rewrite Hvtx. pose proof (l_block _ _ _ _ _ _ _ Hloop) as HF. destruct (k_vtx c) as [|tx txs]; [done|].
  by apply Forall_cons in HF as [(_ & _ & ? & _) _].
Qed.

(** The conditions of [CheckBlock] that the loop ensures, and those on the rest. *)
Lemma template_checks params nAdj fPOW fMerkle : pool_ok txdb mempool -> vchBlockSig b = [] -> IsCoinBase cb = true ->
  CheckTransaction cb = Consensus.Accept -> tx_nTime cb = nAdjustedTime -> nTime (header b) = nAdjustedTime -> nAdjustedTime <= nAdj ->
  0 <= csize CTransaction_codec cb <= 400 -> GetLegacySigOpCount cb <= 100 -> mempool !! CTransaction_GetHash cb = None ->
  hashMerkleRoot (header b) = BuildMerkleTree b ->
  CheckProofOfWork params (CBlockHeader_GetHash (header b)) (nBits (header b)) = true ->
  CheckBlock params nAdj fPOW fMerkle false b = Ok ().
Proof.
  intros Hpool Hsig Hcb Hck Ht Hbt Hadj Hsize Hops Hnewp Hroot Hpow. destruct Hloop as [Hw Hnd Hblk _].
  rewrite app_nil_r in Hnd. pose proof (minable_wires _ _ _ _ Hpool _ Hblk) as Hws.
  pose proof (within_small _ _ _ Hw) as Hsz. pose proof (w_ops _ _ _ Hw) as Hop. pose proof (w_max _ _ _ Hw) as Hmax. pose proof (w_size _ _ _ Hw) as Hs.
  pose proof (nBlockMaxSize_range args). change MAX_BLOCK_SIZE with 1000000 in *.
  apply (CheckBlock_ok _ _ _ _ _ cb (k_vtx c)); try done; try lia.
  - apply template_pow.
  - eapply Forall_impl; [exact Hblk|]. by intros tx (_ & ? & _).
  - apply Forall_forall. intros tx Hin. pose proof (proj1 (Forall_forall _ _) Hblk _ Hin) as Hmin.
    destruct (minable_wire _ _ _ _ Hpool _ Hmin) as (Hwire & _ & ?). pose proof (proj1 (Forall_forall _ _) (w_time _ _ _ Hw) _ Hin) as Htt.
    pose proof (wire_size _ Hwire). cbn in Htt. split; [done|]. split; [lia|]. split; [apply legacy_nonneg|lia].
  - change MAX_BLOCK_SIZE with 1000000. destruct Hmax as [E|]; [rewrite E; by vm_compute|lia].
  - apply legacy_nonneg.
  - rewrite Hvtx. cbn [map]. apply NoDup_cons. split; [|done]. intros Hin. apply list_elem_of_fmap in Hin as (tx & E & Hin).
    pose proof (proj1 (Forall_forall _ _) Hblk _ Hin) as [Hm _]. rewrite <- E in Hm. congruence.
Qed.
End Template.

(** C13: a mined block connects.  The block that [CreateNewBlock] assembles, with its
    coinbase completed by [IncrementExtraNonce] and a nonce that meets the target,
    passes [ConnectBlock] on top of the best block: its checks, every transaction
    with the verifier's cache in any state, and the reward, which the coinbase
    claims in full; and the coinbase starts with the height. *)
Theorem mined_block_connects `{HD : Digests} `{BN : OpenSSL_BN} {BN_ok : OpenSSL_BN_ok} `{EC : ECDSA} {HP : Heap} {HL : HeapLaws HP}
    (ReadTxFromDisk : CDiskTxPos -> option CTransaction) (ReadHeaderFromDisk : Z -> Z -> option CBlockHeader)
    {W : Type} (VerifySig : CTransaction -> CTransaction -> nat -> bool) (VerifySig' : CTransaction -> CTransaction -> nat -> W -> bool * W)
    (mt : Z -> Z -> Z) (params : chain_params) (nAdjustedTime nAdjustedTime' : Z) (COINBASE_FLAGS : CScript) (args : miner_args)
    (idx : block_index) (pindexBest : uint256) (nBestHeight : Z) (txdb : txindex_map) (mempool : gmap uint256 CTransaction)
    (reserved : uint160) (t : template) (tip : CBlockIndex) (pprev : list CBlockIndex)
    (hashStatic hashStatic' : uint256) (nExtraNonce nExtraNonce' nNonce : Z) (b : CBlock)
    (bi : CBlockIndex) (hashNext : uint256) (fJust fSkip : bool) (w : W) :
  let cb := default (CTransaction_null 0) (head (vtx b)) in
  pool_ok txdb mempool -> chain_of idx pindexBest = tip :: pprev -> uint_ok 5 reserved ->
  0 <= nAdjustedTime < 2 ^ 32 -> nAdjustedTime <= nAdjustedTime' ->
  (forall txPrev tx i w, fst (VerifySig' txPrev tx i w) = VerifySig txPrev tx i) ->
  CreateNewBlock ReadTxFromDisk ReadHeaderFromDisk VerifySig params nAdjustedTime COINBASE_FLAGS args idx pindexBest nBestHeight txdb mempool
    false reserved = Some (Ok t) ->
  IncrementExtraNonce COINBASE_FLAGS (t_block t) tip hashStatic nExtraNonce = Ok (b, hashStatic', nExtraNonce') ->
  CheckProofOfWork params (CBlockHeader_GetHash (header (set_nonce nNonce b))) (nBits (header b)) = true ->
  MoneyRange (GetProofOfWorkReward (nHeight tip) (pFees t)) = true ->
  txdb !! CTransaction_GetHash cb = None -> mempool !! CTransaction_GetHash cb = None -> GetLegacySigOpCount cb <= 100 ->
  fresh_block txdb bi -> bi_nFile bi <> UINT_MAX -> nHeight bi = nHeight tip + 1 -> 0 <= nHeight bi < 2 ^ 31 ->
  height_in_coinbase (nHeight bi) (set_nonce nNonce b) = Ok () /\
  GetValueOut cb = Some (GetProofOfWorkReward (nHeight tip) (pFees t)) /\
  exists bi' txdb' w' e,
    ConnectBlock ReadTxFromDisk ReadHeaderFromDisk mempool nAdjustedTime' VerifySig' mt params txdb (nHeight tip)
      (bi :: tip :: pprev) hashNext fJust fSkip (set_nonce nNonce b) w = Ok (bi', txdb', w', e).
Proof.
  intros cb Hpool Hchain Hres Hadj Hadj' Hver Hcreate Hextra Hpow Hmoney Hnew Hnewp Hcbops Hfresh Hfile Hheight Hrange.
  apply CreateNewBlock_inv in Hcreate as (tip' & pprev' & l & c & Hch & Hl & Hcol & Hb & HpF & _). rewrite Hchain in Hch. injection Hch as <- <-.
  apply IncrementExtraNonce_inv in Hextra as (cb0 & txs & Hv0 & Hlen & Hv & Hsig & Hh). rewrite Hb in Hv0, Hsig, Hh. cbn [vtx vchBlockSig header] in *.
  injection Hv0 as <- <-. set (script := extra_nonce_script _ _ _) in *. set (reward := GetProofOfWorkReward (nHeight tip) (pFees t)) in *.
  apply MoneyRange_spec in Hmoney as Hm. assert (s64 (reward - devCoin) = reward) as Erew.
  { change devCoin with 0. rewrite s64_small; unfold MAX_MONEY, COIN in Hm; lia. }
  assert (cb = final_coinbase (u32 nAdjustedTime) script reward reserved) as Ecb.
  { unfold cb. rewrite Hv. cbn. unfold set_scriptSig0, final_coinbase. cbn. rewrite <- HpF. fold reward. by rewrite Erew. }
  destruct (final_coinbase_ok (u32 nAdjustedTime) script reward reserved Hmoney (conj (extra_nonce_script_min _ _ _) Hlen) Hres) as (Hcb & Hck & Hval & Hsize).
  rewrite <- Ecb in *. assert (vtx b = cb :: k_vtx c) as Hvb by (unfold cb; rewrite Hv; done). split; [|split; [done|]].
  { apply (extra_nonce_height COINBASE_FLAGS _ nExtraNonce' _ cb (k_vtx c)); [lia|exact Hvb|]. by rewrite Ecb, Hheight. }
  destruct (connect_coinbase ReadTxFromDisk mempool nAdjustedTime' VerifySig' params txdb (bi :: tip :: pprev) bi fJust fSkip args cb
    (if fJust then 1 else u32 (bi_nBlockPos bi + csize (CBlock_codec false) CBlock_empty - 2 * GetSizeOfCompactSize 0
                  + GetSizeOfCompactSize (Z.of_nat (length (vtx b))))) w Hcb Hnew) as (s0 & Hs0 & Hf0).
  { split; [apply legacy_nonneg|done]. }
  { by eexists. }
  apply (loop_ok_start ReadTxFromDisk ReadHeaderFromDisk nAdjustedTime args idx pindexBest nBestHeight txdb mempool Hpool (nBlockPrioritySize args <=? 0)) in Hl.
  cbv zeta in Hcol. destruct (collected_connect ReadTxFromDisk params nAdjustedTime nAdjustedTime' args nBestHeight txdb mempool false (u32 nAdjustedTime) bi (tip :: pprev)
    VerifySig VerifySig' fJust fSkip Hpool Hver Hfresh Hfile Hheight _ _ _ _ Hl Hf0 Hcol) as (Hloop & s' & Hs' & Hfo).
  assert (IsProofOfStake (set_nonce nNonce b) = false) as Hpos by (by apply (template_pow _ _ _ _ _ _ cb _ Hloop)).
  assert (CheckBlock params nAdjustedTime' (negb fJust) (negb fJust) false (set_nonce nNonce b) = Ok ()) as Hblock.
  { eapply (template_checks _ _ _ _ _ _ cb _ Hloop); try done;
      [rewrite Ecb|cbn [set_nonce header nTime hashMerkleRoot]; rewrite Hh; cbn [set_merkle_root nTime hashMerkleRoot]..]; try done; by apply u32_small. }
  unfold ConnectBlock. rewrite Hblock. cbn [rbind vtx set_nonce]. rewrite Hvb in *. cbn [connect_txs]. rewrite Hs0. cbn [rbind].
  rewrite Hs'. cbn [rbind]. unfold check_rewards, IsProofOfWork. rewrite Hpos. cbn [vtx set_nonce negb]. rewrite Hvb, Hval.
  rewrite (fo_fees _ _ _ Hfo), <- HpF. cbn [of_option rbind]. fold reward. rewrite (proj2 (Z.leb_le _ _)) by lia. cbn [guard_ rbind].
  destruct fJust; by repeat eexists.
Qed.

(** The limits of a template.  [CreateNewBlock] returns whatever the pool holds;
    the block it returns, for proof of work or of stake, starts with a coinbase, its
    other transactions are distinct, final transactions of the pool whose inputs are
    in the database, their exact sizes with the 1000 bytes reserved stay below the
    configured maximum, and their signature operations with the 100 reserved below
    the limit. *)
Theorem template_limits `{HD : Digests} `{BN : OpenSSL_BN} {HP : Heap} {HL : HeapLaws HP}
    (ReadTxFromDisk : CDiskTxPos -> option CTransaction) (ReadHeaderFromDisk : Z -> Z -> option CBlockHeader)
    (VerifySig : CTransaction -> CTransaction -> nat -> bool) (params : chain_params) (nAdjustedTime : Z) (COINBASE_FLAGS : CScript)
    (args : miner_args) (idx : block_index) (pindexBest : uint256) (nBestHeight : Z) (txdb : txindex_map)
    (mempool : gmap uint256 CTransaction) (fProofOfStake : bool) (reserved : uint160) :
  pool_ok txdb mempool ->
  let r := CreateNewBlock ReadTxFromDisk ReadHeaderFromDisk VerifySig params nAdjustedTime COINBASE_FLAGS args idx pindexBest nBestHeight
             txdb mempool fProofOfStake reserved in
  is_Some r /\
  forall t, r = Some (Ok t) -> exists cb txs, vtx (t_block t) = cb :: txs /\ IsCoinBase cb = true /\
    NoDup (map CTransaction_GetHash txs) /\ Forall (minable nAdjustedTime nBestHeight txdb mempool) txs /\
    Forall (fun tx => tx_nTime tx <= nAdjustedTime) txs /\
    nLastBlockSize t = 1000 + sum_sizes txs /\ (txs = [] \/ 1000 + sum_sizes txs < nBlockMaxSize args <= MAX_BLOCK_SIZE - 1000) /\
    100 + sum_sigops txs < MAX_BLOCK_SIGOPS.
Proof.
  intros Hpool r. split.
  - unfold r, CreateNewBlock. destruct (chain_of idx pindexBest) as [|tip pprev]; [by eexists|]. destruct (_ && _)%bool; [by eexists|].
    destruct (collect_priorities _ _ _ _ _ _ _ _) as [l| |]; [|by eexists..]. set (q := make_heap _ l).
    destruct (collect_ends ReadTxFromDisk VerifySig params nAdjustedTime args txdb mempool fProofOfStake
      (tx_nTime (coinbase_tx nAdjustedTime COINBASE_FLAGS fProofOfStake reserved (nHeight tip))) (tip :: pprev)
      (length q) q (empty_collecting args)) as [x ->]; [done|]. destruct x; by eexists.
  - intros t (tip & pprev & l & c & _ & Hl & Hcol & Hb & _ & Hsz)%CreateNewBlock_inv.
    apply (loop_ok_start _ _ _ args _ _ _ _ _ Hpool (nBlockPrioritySize args <=? 0)) in Hl. cbv zeta in Hcol.
    eapply (collect_ind _ _ _ _ _ _ _ _ _ _ (loop_ok nAdjustedTime args nBestHeight txdb mempool)) in Hcol as [Hw Hnd Hblk _];
      [|intros; by eapply loop_ok_perm|intros; by eapply loop_ok_step|exact Hl].
    rewrite app_nil_r in Hnd. eexists _, (k_vtx c). rewrite Hb, Hsz. cbn [vtx]. split; [done|].
    split; [by destruct fProofOfStake|]. split; [done|]. split; [done|]. split; [apply (w_time _ _ _ Hw)|].
    rewrite <- (w_size _ _ _ Hw). split; [done|]. split; [|pose proof (w_ops _ _ _ Hw); lia].
    destruct (w_max _ _ _ Hw); [by left|right]. pose proof (nBlockMaxSize_range args). lia.
Qed.

(** ** The order of a template *)

(** Entries that are, or once were, in the queue in the order of their fees. *)
Definition by_fee (ps : list TxPriority) : Prop := StronglySorted (fun a b => TxPriorityCompare true a b = false) ps.

Lemma collect_by_fee `{HD : Digests} {HP : Heap} {HL : HeapLaws HP} ReadTxFromDisk VerifySig params nAdj args txdb mempool fPoS t chain fuel :
  forall l c c', fSortedByFee c = true -> Forall (fun p => comparable p = true) l ->
  collect ReadTxFromDisk VerifySig params nAdj args txdb mempool fuel fPoS t chain l c = Some (Ok c') ->
  exists ps, k_vtx c' = k_vtx c ++ map ptx ps /\ by_fee ps /\ ps ⊆ l.
Proof.
  induction fuel as [|fuel IH]; intros l c c' Hf HF; cbn [collect]; rewrite Hf;
    (destruct (pop_heap true l) as [[p r]|] eqn:Ep; [|intros [= <-]; exists []; rewrite app_nil_r; split; [done|split; [constructor|set_solver]]]); [done|].
  pose proof (pop_heap_max _ _ _ _ HF Ep) as Hmax. apply pop_heap_perm in Ep. rewrite Ep in HF. apply Forall_cons in HF as [_ HF].
  destruct (consider _ _ _ _ _ _ _ _ _ _ c p) as [c1| |] eqn:Ec; [|done..]. cbn [negb andb]. intros Hcol.
  apply consider_cases in Ec as [Hu|Ha].
  - assert (fSortedByFee c1 = true /\ k_vtx c1 = k_vtx c) as [Hf1 Hv] by (destruct Hu as [-> | ->]; done).
    destruct (IH r c1 c' Hf1 HF Hcol) as (ps & Hps & Hs & Hsub). exists ps. rewrite Hps, Hv. split; [done|]. split; [done|].
    rewrite Ep. set_solver.
  - destruct (IH r c1 c' (ad_sorted _ _ _ _ _ _ _ _ _ _ _ Ha Hf) HF Hcol) as (ps & Hps & Hs & Hsub). exists (p :: ps).
    rewrite Hps, (ad_vtx _ _ _ _ _ _ _ _ _ _ _ Ha), <- app_assoc. split; [done|]. split; [|rewrite Ep; set_solver].
    constructor; [done|]. apply Forall_forall. intros y Hy. rewrite Forall_forall in Hmax. by apply Hmax, Hsub.
Qed.

(** The best fees first.  With no space set aside for old coins, the transactions
    of a template follow its coinbase in the order of their fees per kilobyte (and
    among equals of their priority), whatever was left out. *)
Theorem template_by_fee `{HD : Digests} `{BN : OpenSSL_BN} {HP : Heap} {HL : HeapLaws HP}
    (ReadTxFromDisk : CDiskTxPos -> option CTransaction) (ReadHeaderFromDisk : Z -> Z -> option CBlockHeader)
    (VerifySig : CTransaction -> CTransaction -> nat -> bool) (params : chain_params) (nAdjustedTime : Z) (COINBASE_FLAGS : CScript)
    (args : miner_args) (idx : block_index) (pindexBest : uint256) (nBestHeight : Z) (txdb : txindex_map)
    (mempool : gmap uint256 CTransaction) (fProofOfStake : bool) (reserved : uint160) (vecPriority : list TxPriority) (t : template) :
  nBlockPrioritySize args = 0 ->
  collect_priorities ReadTxFromDisk ReadHeaderFromDisk nAdjustedTime idx pindexBest nBestHeight txdb (map snd (map_to_list mempool)) = Ok vecPriority ->
  Forall (fun p => comparable p = true) vecPriority ->
  CreateNewBlock ReadTxFromDisk ReadHeaderFromDisk VerifySig params nAdjustedTime COINBASE_FLAGS args idx pindexBest nBestHeight
    txdb mempool fProofOfStake reserved = Some (Ok t) ->
  exists ps, drop 1 (vtx (t_block t)) = map ptx ps /\ ps ⊆ vecPriority /\
    StronglySorted (fun a b => TxPriorityCompare true a b = false) ps.
Proof.
  intros H0 Hl HF (tip & pprev & l & c & _ & Hl' & Hcol & Hb & _)%CreateNewBlock_inv. rewrite Hl in Hl'. injection Hl' as <-.
  cbv zeta in Hcol. apply collect_by_fee in Hcol as (ps & Hps & Hs & Hsub).
  - exists ps. rewrite Hb. split; [done|]. split; [|done]. intros x Hx%Hsub. by rewrite make_heap_perm in Hx.
  - cbn. rewrite H0. done.
  - by rewrite make_heap_perm.
Qed.

(** ** The heights of the rewards *)

Definition reduction_height (nHeight : Z) : Prop :=
  10000 < nHeight + 1 /\ (nHeight + 1 ∉ attacked_heights) /\ pow_subsidy (nHeight + 1) < pow_subsidy nHeight.

(** A sum that leaves the 64 bits turns negative. *)
Lemma s64_over x : 2 ^ 63 <= x < 2 ^ 64 -> s64 x = x - 2 ^ 64.
Proof. intros Hx. unfold s64. replace (x + 2 ^ 63) with ((x - 2 ^ 63) + 1 * 2 ^ 64) by lia. rewrite Z_mod_plus_full, Z.mod_small by lia. lia. Qed.

(** The same transactions, whatever the records say of their outputs. *)
Definition same_txs (I J : MapPrevTx) : Prop := forall h, snd <$> I !! h = snd <$> J !! h.

Lemma same_txs_values I J tx : same_txs I J -> GetValueMapIn tx I = GetValueMapIn tx J.
Proof.
  intros HI. unfold GetValueMapIn. destruct (IsCoinBase tx); [done|]. generalize 0 as acc.
  induction (vin tx) as [|x vi IH]; intros acc; cbn [value_in_loop]; [done|].
  assert (GetOutputFor x I = GetOutputFor x J) as ->.
  { unfold GetOutputFor. specialize (HI (out_hash (prevout x))).
    destruct (I !! out_hash (prevout x)) as [[i t]|], (J !! out_hash (prevout x)) as [[j t']|]; cbn in HI; try done. by injection HI as ->. }
  destruct (GetOutputFor x J); [apply IH|done].
Qed.

(** What the miner read of the chain, [AcceptBlock] reads too. *)
Section Reread.
Context `{HD : Digests} (ReadTxFromDisk : CDiskTxPos -> option CTransaction) (nAdjustedTime nAdjustedTime' : Z).
Context (txdb : txindex_map) (mempool pool' : gmap uint256 CTransaction).
Hypothesis Hpool : pool_ok txdb mempool.

Lemma fetch_loop_reread m vi : agree txdb m m -> Forall (fun x => is_Some (txdb !! out_hash (prevout x))) vi ->
  forall I J I', same_txs I J -> fetch_loop ReadTxFromDisk mempool nAdjustedTime txdb m false true vi I = (true, I') ->
  exists J', fetch_loop ReadTxFromDisk pool' nAdjustedTime' txdb ∅ true false vi J = (true, J') /\ same_txs I' J'.
Proof.
  intros Hag. induction 1 as [|x vi [i0 Hx] HF IH]; intros I J I' HI; cbn [fetch_loop]; [intros [= <-]; by exists J|].
  set (h := out_hash (prevout x)) in *. cbn [orb]. rewrite pool_first, lookup_empty, Hx.
  destruct (Hag h i0 Hx) as (i & j & -> & _ & Hp & _).
  assert (bool_decide (is_Some (J !! h)) = bool_decide (is_Some (I !! h))) as ->.
  { apply bool_decide_ext. specialize (HI h). by rewrite <- (fmap_is_Some snd (J !! h)), <- HI, fmap_is_Some. }
  case_bool_decide; [by apply IH|]. rewrite Hp. case_decide as Ep.
  - destruct (mempool !! h) as [t|] eqn:Et; [|done]. apply Hpool in Et as (_ & Et & _). congruence.
  - destruct (ReadTxFromDisk (pos i0)) as [t|]; [|done]. apply IH. intros k. destruct (decide (h = k)) as [<-|].
    + by rewrite !lookup_insert_eq.
    + rewrite !lookup_insert_ne by done. apply HI.
Qed.

Lemma GetMapTxInputs_reread m tx I : agree txdb m m -> IsCoinBase tx = false ->
  Forall (fun x => is_Some (txdb !! out_hash (prevout x))) (vin tx) ->
  FetchInputs ReadTxFromDisk mempool nAdjustedTime txdb m false true tx ∅ = mkFetched true false I ->
  GetMapTxInputs ReadTxFromDisk nAdjustedTime' txdb pool' tx = None \/
  exists J, GetMapTxInputs ReadTxFromDisk nAdjustedTime' txdb pool' tx = Some J /\ GetValueMapIn tx J = GetValueMapIn tx I.
Proof.
  intros Hag Hcb HF. unfold GetMapTxInputs, FetchInputs. rewrite Hcb.
  destruct (fetch_loop _ _ _ _ _ _ _ _ _) as [ok I'] eqn:E. destruct ok; [|done]. cbn [negb]. destruct (forallb _ _); [|done]. intros [= <-].
  apply (fetch_loop_reread m _ Hag HF ∅ ∅) in E as (J & -> & HI); [|done]. cbn [negb].
  destruct (forallb _ _); [right|by left]. exists J. split; [done|]. symmetry. by apply same_txs_values.
Qed.

(** A transaction with the sums of its inputs and outputs, as [AcceptBlock] finds them. *)
Definition settled (tx : CTransaction) (v : Z * Z) : Prop :=
  (GetMapTxInputs ReadTxFromDisk nAdjustedTime' txdb pool' tx = None \/
   exists J, GetMapTxInputs ReadTxFromDisk nAdjustedTime' txdb pool' tx = Some J /\ GetValueMapIn tx J = Some (fst v)) /\
  GetValueOut tx = Some (snd v) /\ 0 <= fst v <= MAX_MONEY /\ 0 <= snd v <= MAX_MONEY.

(** The sums of [AcceptBlock] are exact or it refuses the block: a sum that leaves
    the 64 bits turns negative. *)
Lemma value_sums_exact txs vals : Forall2 settled txs vals -> forall nIn nOut, 0 <= nIn < 2 ^ 63 -> 0 <= nOut < 2 ^ 63 ->
  match value_sums ReadTxFromDisk nAdjustedTime' txdb pool' txs nIn nOut with
  | Ok (a, b) => a = nIn + sumZ (map fst vals) /\ b = nOut + sumZ (map snd vals) /\ 0 <= a < 2 ^ 63 /\ 0 <= b < 2 ^ 63
  | Fail _ => True
  | Throw => False
  end.
Proof.
  induction 1 as [|tx [vi vo] txs vals (Hi & Ho & Ri & Ro) _ IH]; intros nIn nOut Hin Hout; cbn [value_sums map]; [cbn; lia|].
  destruct Hi as [->|(J & -> & ->)]; [done|]. rewrite Ho. cbn [fst snd] in *. change MAX_MONEY with 9000000000000000 in *.
  assert (forall a b, 0 <= a < 2 ^ 63 -> 0 <= b <= 9000000000000000 -> s64 (a + b) < 0 \/ (s64 (a + b) = a + b /\ a + b < 2 ^ 63)) as Hs.
  { intros a b Ha Hb. destruct (decide (a + b < 2 ^ 63)); [right; split; [apply s64_small; lia|done]|left].
    rewrite s64_over; lia. }
  destruct (Hs nIn vi) as [H1|[-> H1]]; [lia|lia|by rewrite (proj2 (Z.ltb_lt _ _) H1)|]. rewrite (proj2 (Z.ltb_ge _ 0)) by lia.
  destruct (Hs nOut vo) as [H2|[-> H2]]; [lia|lia|by rewrite (proj2 (Z.ltb_lt _ _) H2)|]. rewrite (proj2 (Z.ltb_ge _ 0)) by lia.
  specialize (IH (nIn + vi) (nOut + vo) ltac:(lia) ltac:(lia)). destruct (value_sums _ _ _ _ _ _ _) as [[a b]| |]; [|done|done].
  unfold sumZ in *. cbn [fold_right]. lia.
Qed.

(** A block whose coinbase claims the subsidy of height [h] and exactly the fees. *)
Lemma check_values_refused h b cb txs vals : vtx b = cb :: txs -> IsCoinBase cb = true -> Forall2 settled txs vals ->
  let reward := GetProofOfWorkReward h (s64 (sumZ (map (fun v => fst v - snd v) vals))) in
  GetValueOut cb = Some reward -> MoneyRange reward = true -> reduction_height h ->
  exists n, check_values ReadTxFromDisk nAdjustedTime' txdb pool' (h + 1) b = Fail n.
Proof.
  intros Hv Hcb Hset reward Hout Hm (H1 & H2 & H3). pose proof (pow_subsidy_range h). pose proof (pow_subsidy_range (h + 1)).
  unfold check_values. rewrite (proj2 (Z.ltb_lt _ _)), bool_decide_eq_false_2 by done. cbn [negb andb]. rewrite Hv.
  apply MoneyRange_spec in Hm. assert (settled cb (0, reward)) as Hc.
  { split; [|split; [done|split; [by vm_compute|done]]]. right. unfold GetMapTxInputs, FetchInputs, GetValueMapIn. rewrite Hcb. by eexists. }
  assert (Forall2 settled (cb :: txs) ((0, reward) :: vals)) as Hall by (by constructor).
  pose proof (value_sums_exact _ _ Hall 0 0 ltac:(lia) ltac:(lia)) as Hsum.
  destruct (value_sums _ _ _ _ _ _ _) as [[a bo]|n|]; [|by exists n|done].
  assert (sumZ (map (fun v => fst v - snd v) vals) = sumZ (map fst vals) - sumZ (map snd vals)) as Hd.
  { clear. induction vals as [|v vals IH]; [done|]. unfold sumZ in *. cbn. lia. }
  assert (0 <= sumZ (map fst vals) /\ 0 <= sumZ (map snd vals)) as [P1 P2].
  { clear -Hset. split; apply sumZ_nonneg, Forall_map; induction Hset as [|tx v txs vals (_ & _ & ? & ?) _ IH]; constructor; (done || cbn; lia). }
  unfold sumZ in Hsum. cbn [map fold_right fst snd] in Hsum. fold (sumZ (map fst vals)) in Hsum. fold (sumZ (map snd vals)) in Hsum.
  change MAX_MONEY with 9000000000000000 in Hm.
  assert (reward = s64 (pow_subsidy h + (sumZ (map fst vals) - sumZ (map snd vals)))) as Er.
  { unfold reward, GetProofOfWorkReward. rewrite Hd, (s64_small (_ - _)) by lia. done. }
  clearbody reward. set (x := pow_subsidy h + _) in *.
  assert (reward = x) as Ex.
  { rewrite Er in *. destruct (decide (x < 2 ^ 63)); [apply s64_small; lia|]. exfalso. rewrite s64_over in Hm; lia. }
  exists 100. unfold GetProofOfWorkReward at 1. rewrite Z.add_0_r, (s64_small (pow_subsidy (h + 1))) by lia.
  assert (s64 (a + pow_subsidy (h + 1)) < bo) as Hlt; [|by rewrite (proj2 (Z.ltb_lt _ _) Hlt)].
  destruct (decide (a + pow_subsidy (h + 1) < 2 ^ 63)); [rewrite s64_small; lia|rewrite s64_over; lia].
Qed.
End Reread.

(** A block on top of [tip] whose values are refused is not accepted. *)
Lemma AcceptBlock_values `{HD : Digests} `{BN : OpenSSL_BN} {V E P : Type} {LO : LedgerOps V E} {PO : PoolOps P} {SO : StakeOps V E}
    (params : chain_params) (fTestNet : bool) (mode : CPMode) (rdtx : CDiskTxPos -> option CTransaction)
    (pool_txs : P -> gmap uint256 CTransaction) (nAdj : Z) (rf : Z -> Z -> option CBlock) (wf : CBlock -> option (Z * Z))
    (tc : @db V -> bool) (wo : uint256 -> bool) (s : @chain_state V E P) (y : sync_state) (b : CBlock) (tip : CBlockIndex) (k : Z) :
  n_rec <$> mapBlockIndex s !! hashPrevBlock (header b) = Some tip ->
  check_values rdtx nAdj (lg_txindex (db_ledger (txdb s))) (pool_txs (BestChain.mempool s)) (nHeight tip + 1) b = Fail k ->
  fst (fst (fst (AcceptBlock params fTestNet mode rdtx pool_txs nAdj rf wf tc wo b s y))) <> Ok ().
Proof.
  intros Htip Hv. unfold AcceptBlock. destruct (check_context _ _ _ _ _ _ _ _) as [n| |] eqn:Ec; [|done..]. exfalso.
  unfold check_context in Ec. res_inv Ec. destruct (mapBlockIndex s !! hashPrevBlock (header b)) as [nd|]; [|done]. injection Htip as Htip.
  rewrite Htip in Ec. res_inv Ec. congruence.
Qed.

(** What the miner collected is settled, and its fees are the differences. *)
Section CollectedValues.
Context `{HD : Digests} `{BN : OpenSSL_BN} {HP : Heap} {HL : HeapLaws HP}.
Context (ReadTxFromDisk : CDiskTxPos -> option CTransaction) (VerifySig : CTransaction -> CTransaction -> nat -> bool).
Context (params : chain_params) (nAdjustedTime nAdjustedTime' : Z) (args : miner_args) (nBestHeight : Z).
Context (txdb : txindex_map) (mempool pool' : gmap uint256 CTransaction) (fProofOfStake : bool) (nCoinbaseTime : Z) (chain : list CBlockIndex).
Hypothesis Hpool : pool_ok txdb mempool.

Local Abbreviation settled' := (settled ReadTxFromDisk nAdjustedTime' txdb pool').
Local Abbreviation loop_ok' := (loop_ok nAdjustedTime args nBestHeight txdb mempool).

(** The index the miner keeps agrees with the chain's on where transactions are; the
    block's transactions are settled, the fees what they leave. *)
Definition priced (l : list TxPriority) (c : collecting) : Prop :=
  loop_ok' l c /\ agree txdb (mapTestPool c) (mapTestPool c) /\
  exists vals, Forall2 settled' (k_vtx c) vals /\ k_nFees c = s64 (sumZ (map (fun v => fst v - snd v) vals)).

Lemma priced_added p l c c' : loop_ok' (p :: l) c -> loop_ok' l c' -> priced (p :: l) c ->
  added ReadTxFromDisk VerifySig params nAdjustedTime args txdb mempool chain c (ptx p) c' -> priced l c'.
Proof.
  intros Hl Hl' (_ & Hag & vals & Hset & Hfees) Ha. pose proof (l_queue _ _ _ _ _ _ _ Hl) as [Hm _]%Forall_cons.
  destruct (minable_wire _ _ _ _ Hpool _ Hm) as (Hw & Hnew & Hck). pose proof Hm as [_ (Hcb & Hcs & _ & Hin)].
  destruct (ad_run _ _ _ _ _ _ _ _ _ _ _ Ha) as (I & nIn & nOut & nP & pool & u & Hf & Hi & Ho & _ & _ & _ & Hc & Hpl & _ & Hfe).
  set (tx := ptx p) in *. unfold ConnectInputs in Hc. rewrite Hcb, Hcs in Hc. res_inv Hc.
  rename select (connect_checks _ _ _ _ _ _ = _) into Ech. rename select (connect_spends _ _ _ _ _ _ _ _ _ _ _ = _) into Esp.
  apply connect_checks_spec in Ech as (Hv & Hval & _); [|by apply wire_inputs|by vm_compute].
  unfold GetValueMapIn in Hi. rewrite Hcb, Hval in Hi. injection Hi as <-.
  split; [done|]. split.
  - destruct (FetchInputs_same ReadTxFromDisk mempool nAdjustedTime nAdjustedTime txdb _ _ _ _ Hag Hcb Hin Hf) as (J & _ & HIJ).
    injection Hc as <- <-.
    destruct (connect_spends_same txdb VerifySig (fun a b i (w : unit) => (VerifySig a b i, w)) ltac:(done) false tx pos_mempool (vin tx) eq_refl
      _ _ _ _ _ _ tt _ HIJ Hag Esp) as (q' & w' & _ & Hag'). rewrite Hpl. apply agree_insert; [congruence|].
    intros h i0 Hh. destruct (Hag' h i0 Hh) as (i & j & Hij & _ & Hpos & _). by exists i, i.
  - exists (vals ++ [(a, nOut)]). rewrite (ad_vtx _ _ _ _ _ _ _ _ _ _ _ Ha). split.
    + apply Forall2_app; [done|]. constructor; [|constructor]. cbn [fst snd].
      pose proof (GetValueOut_range _ _ Ho) as Hro. split; [|done].
      destruct (GetMapTxInputs_reread ReadTxFromDisk nAdjustedTime nAdjustedTime' txdb mempool pool' Hpool _ tx I Hag Hcb Hin Hf) as [E|(J & E & EJ)];
        [by left|right]. exists J. split; [done|]. rewrite EJ. unfold GetValueMapIn. by rewrite Hcb.
    + rewrite Hfe, Hfees, map_app, sumZ_app, s64_add_r, Z.add_comm, s64_add_r. f_equal. cbn. lia.
Qed.

Lemma collected_priced fuel l c : loop_ok' l (empty_collecting args) ->
  collect ReadTxFromDisk VerifySig params nAdjustedTime args txdb mempool fuel fProofOfStake nCoinbaseTime chain l (empty_collecting args) = Some (Ok c) ->
  priced [] c.
Proof.
  intros Hl. apply (collect_ind _ _ _ _ _ _ _ _ _ _ priced).
  - intros l1 l2 c1 Hp (H1 & H2). split; [by apply (loop_ok_perm _ _ _ _ _ l1)|done].
  - intros p l1 c1 c2 H1 Hc. pose proof H1 as [H2 H3]. assert (loop_ok' l1 c2) as H4 by (by eapply loop_ok_step).
    apply consider_cases in Hc as [Hu|Ha]; [|by eapply priced_added]. split; [done|]. by destruct Hu as [-> | ->].
  - split; [done|]. split; [|by exists []]. intros h i Hi. exists i, i. cbn. by rewrite (left_id_L ∅ (∪)).
Qed.
End CollectedValues.

(** C16: the first block of a lower reward.  [CreateNewBlock] claims the reward of the
    best block's height, as [ConnectBlock] allows, but [AcceptBlock] compares with the
    reward of the new block's height: where the subsidy goes down, at a height above
    10000 that is not one of the attacked ones the check leaves out, it refuses the
    block that the node itself assembled, whatever the pool it was assembled from
    holds, completed and solved, at any later time and with any pool.  The miner and
    [AcceptBlock] see the same index of transactions, the pool the miner used holds
    valid transactions that are not in the chain, and the reward is within MAX_MONEY
    (otherwise [CheckBlock] refuses the coinbase). *)
Theorem reduction_block_refused `{HD : Digests} `{BN : OpenSSL_BN} {HP : Heap} {HL : HeapLaws HP}
    {V E P : Type} {LO : LedgerOps V E} {PO : PoolOps P} {SO : StakeOps V E}
    (params : chain_params) (fTestNet : bool) (CheckpointsMode : CPMode) (ReadTxFromDisk : CDiskTxPos -> option CTransaction)
    (ReadHeaderFromDisk : Z -> Z -> option CBlockHeader) (pool_txs : P -> gmap uint256 CTransaction) (nAdjustedTime nAdjustedTime' : Z)
    (ReadBlockFile : Z -> Z -> option CBlock) (WriteToDisk : CBlock -> option (Z * Z)) (TxnCommit : @db V -> bool) (WriteOk : uint256 -> bool)
    (VerifySig : CTransaction -> CTransaction -> nat -> bool) (COINBASE_FLAGS : CScript) (args : miner_args)
    (s : @chain_state V E P) (y : sync_state) (pindexBest : uint256) (tip : CBlockIndex) (pprev : list CBlockIndex)
    (mempool : gmap uint256 CTransaction) (reserved : uint160) (t : template) (b : CBlock) (hashStatic hashStatic' : uint256)
    (nExtraNonce nExtraNonce' nNonce : Z) :
  let txindex := lg_txindex (db_ledger (txdb s)) in
  chain_of (mapBlockIndex s) pindexBest = tip :: pprev -> (n_rec <$> mapBlockIndex s !! bi_hash tip) = Some tip ->
  reduction_height (nHeight tip) -> pool_ok txindex mempool ->
  CreateNewBlock ReadTxFromDisk ReadHeaderFromDisk VerifySig params nAdjustedTime COINBASE_FLAGS args (mapBlockIndex s) pindexBest
    (nBestHeight s) txindex mempool false reserved = Some (Ok t) ->
  MoneyRange (GetProofOfWorkReward (nHeight tip) (pFees t)) = true ->
  IncrementExtraNonce COINBASE_FLAGS (t_block t) tip hashStatic nExtraNonce = Ok (b, hashStatic', nExtraNonce') ->
  fst (fst (fst (AcceptBlock params fTestNet CheckpointsMode ReadTxFromDisk pool_txs nAdjustedTime' ReadBlockFile WriteToDisk TxnCommit WriteOk
    (set_nonce nNonce b) s y))) <> Ok ().
Proof.
  intros txindex Hchain Htip Hred Hpool Hcreate Hmoney Hextra.
  apply CreateNewBlock_inv in Hcreate as (tip' & pprev' & l & c & Hch & Hl & Hcol & Hb & HpF & _). rewrite Hchain in Hch. injection Hch as <- <-.
  apply (loop_ok_start ReadTxFromDisk ReadHeaderFromDisk nAdjustedTime args (mapBlockIndex s) pindexBest (nBestHeight s) txindex mempool Hpool
    (nBlockPrioritySize args <=? 0)) in Hl. cbv zeta in Hcol.
  apply (collected_priced _ _ _ _ nAdjustedTime' _ _ _ _ (pool_txs (BestChain.mempool s)) _ _ _ Hpool _ _ _ Hl) in Hcol as (_ & _ & vals & Hset & Hfees).
  apply IncrementExtraNonce_inv in Hextra as (cb0 & txs & Hv0 & _ & Hv & _ & Hh). rewrite Hb in Hv0, Hh. injection Hv0 as <- <-.
  rewrite HpF, Hfees in Hmoney.
  destruct (check_values_refused ReadTxFromDisk nAdjustedTime' txindex (pool_txs (BestChain.mempool s)) (nHeight tip) (set_nonce nNonce b) _ _ _ Hv
    eq_refl Hset) as [k Hk]; [|exact Hmoney|exact Hred|].
  - rewrite Hfees. apply MoneyRange_spec in Hmoney as Hm. change MAX_MONEY with 9000000000000000 in Hm.
    unfold GetValueOut, set_reward, set_scriptSig0, coinbase_tx. set (R := GetProofOfWorkReward _ _) in *. clearbody R.
    change devCoin with 0. rewrite Z.sub_0_r, (s64_small R) by lia. cbn [vout value_out_loop nValue scriptPubKey].
    rewrite Z.add_0_l, (s64_small R), Hmoney by lia. cbn. by rewrite Z.add_0_r, (s64_small R), Hmoney by lia.
  - eapply AcceptBlock_values; [|exact Hk]. cbn [set_nonce header hashPrevBlock]. rewrite Hh. exact Htip.
Qed.

(** ** The padding of getwork *)

Lemma put_app_r l k n v : put (length l + n) v (l ++ k) = l ++ put n v k.
Proof. apply insert_app_r. Qed.

(** The padding of SHA-256: a one bit, zeros, and the length in bits as 64 bits with
    the most significant first. *)
Definition sha256_padding (len : Z) : list Z :=
  let blocks := 1 + (len + 8) / 64 in
  0x80 :: replicate (Z.to_nat (64 * blocks - len - 9)) 0 ++ reverse (le_bytes 8 (len * 8)).

Lemma bits_bytes n : 0 <= n < 2 ^ 32 -> reverse (le_bytes 8 n) =
  [0; 0; 0; 0; Z.land (Z.shiftr n 24) 0xff; Z.land (Z.shiftr n 16) 0xff; Z.land (Z.shiftr n 8) 0xff; Z.land (Z.shiftr n 0) 0xff].
Proof.
  intros Hn. change 0xff with (Z.ones 8). rewrite !Z.land_ones, !Z.shiftr_div_pow2 by lia. cbn [digits reverse rev_append].
  unfold reverse. cbn [rev_append]. rewrite !Z.div_div by lia.
  repeat match goal with |- context [n / (256 * (256 * (256 * ?y)))] => rewrite (Z.div_small n (256 * (256 * (256 * y)))) by lia end.
  change (2 ^ 0) with 1. by rewrite Z.div_1_r.
Qed.

(** [FormatHashBlocks] pads a message as SHA-256 does and touches nothing after it. *)
Theorem format_hash_blocks_padding (pdata : list Z) (len : Z) :
  0 <= len < 2 ^ 29 -> 64 * (1 + (len + 8) / 64) <= Z.of_nat (length pdata) ->
  FormatHashBlocks pdata len =
    Some (take (Z.to_nat len) pdata ++ sha256_padding len ++ drop (Z.to_nat (64 * (1 + (len + 8) / 64))) pdata, 1 + (len + 8) / 64).
Proof.
  intros Hlen Hbuf. unfold FormatHashBlocks, sha256_padding. set (blocks := 1 + (len + 8) / 64) in *.
  assert (len + 9 <= 64 * blocks) as Hm by (unfold blocks; pose proof (Z.div_mod (len + 8) 64); pose proof (Z.mod_pos_bound (len + 8) 64); lia).
  rewrite (proj2 (Z.ltb_ge _ _)) by lia. rewrite u32_small by lia. rewrite bits_bytes by lia.
  unfold clear_bytes. replace (Z.to_nat len + Z.to_nat (64 * blocks - len))%nat with (Z.to_nat (64 * blocks)) by lia.
  set (t := take (Z.to_nat len) pdata). set (r := drop (Z.to_nat (64 * blocks)) pdata). set (k := Z.to_nat (64 * blocks - len - 9)).
  assert (length t = Z.to_nat len) as Ht by (unfold t; rewrite length_take; lia).
  replace (Z.to_nat (64 * blocks - len)) with (1 + (k + 8))%nat by lia. rewrite !replicate_add. cbn [replicate app].
  replace (Z.to_nat len) with (length t + 0)%nat by lia. rewrite put_app_r. cbn [put insert list_insert].
  set (u := t ++ 0x80 :: replicate k 0). assert (length u = Z.to_nat (64 * blocks) - 8)%nat as Hu.
  { unfold u. rewrite length_app. cbn [length]. rewrite length_replicate. lia. }
  assert (forall x, t ++ 128 :: (replicate k 0 ++ x) ++ r = u ++ x ++ r) as Ha.
  { intros x. unfold u. rewrite <- !app_assoc. cbn [app]. by rewrite <- ?app_assoc. }
  rewrite Ha. f_equal. f_equal.
  replace (Z.to_nat (64 * blocks) - 1)%nat with (length u + 7)%nat by lia. rewrite put_app_r.
  replace (Z.to_nat (64 * blocks) - 2)%nat with (length u + 6)%nat by lia. rewrite put_app_r.
  replace (Z.to_nat (64 * blocks) - 3)%nat with (length u + 5)%nat by lia. rewrite put_app_r.
  replace (Z.to_nat (64 * blocks) - 4)%nat with (length u + 4)%nat by lia. rewrite put_app_r.
  unfold u. cbn [app]. by rewrite <- !app_assoc.
Qed.

(** ** Witnesses *)

(** A transaction with two outputs of 5 coins in the chain, and two of the pool that
    spend them, with a fee of 1 coin and of 2 coins. *)
Definition mi_stored : CTransaction :=
  mkTx 1 1000 [mkTxIn (mkOutPoint (replicate 8 7) 0) [] 0] [mkTxOut (5 * COIN) [0x51]; mkTxOut (5 * COIN) [0x51]] 0.
Definition mi_hash (tx : CTransaction) : uint256 := @CTransaction_GetHash easy_digests tx.
Definition mi_spend (n v : Z) : CTransaction := mkTx 1 2000 [mkTxIn (mkOutPoint (mi_hash mi_stored) n) [] 0] [mkTxOut v [0x51]] 0.
Definition mi_cheap : CTransaction := mi_spend 0 (4 * COIN).
Definition mi_dear : CTransaction := mi_spend 1 (3 * COIN).
Definition mi_pool : gmap uint256 CTransaction := {[mi_hash mi_cheap := mi_cheap; mi_hash mi_dear := mi_dear]}.
Definition mi_txdb : txindex_map := {[mi_hash mi_stored := CTxIndex_make ex_pos 2]}.
Definition mi_disk (p : CDiskTxPos) : option CTransaction := if decide (p = ex_pos) then Some mi_stored else None.
Definition mi_tree : block_index := {[replicate 8 100000 := mkNode (ex_index 100000) None None]}.
Definition mi_key : uint160 := [1; 2; 3; 4; 5].
Definition mi_args : miner_args := mkArgs 250000 0 0 None.

Abbreviation mi_created a := (@CreateNewBlock easy_digests reference_BN scan_heap mi_disk (fun _ _ => None) (fun _ _ _ => true)
  (@main_net reference_BN) 2100 [] a mi_tree (replicate 8 100000) 100000 mi_txdb mi_pool false mi_key).
Definition mi_null : template := mkTemplate CBlock_empty 0 0 0.
Definition created_or (r : option (res template)) : template := match r with Some (Ok t) => t | _ => mi_null end.
Definition mi_template : template := Eval vm_compute in created_or (mi_created default_args).
Definition mi_block : CBlock * uint256 * Z := Eval vm_compute in
  result_or (CBlock_empty, uint_zero 8, 0)
    (@IncrementExtraNonce easy_digests reference_BN [] (t_block mi_template) (ex_index 100000) (uint_zero 8) 0).
Definition mi_by_fee : template := Eval vm_compute in created_or (mi_created mi_args).
Definition mi_queue : list TxPriority := Eval vm_compute in
  result_or [] (@collect_priorities easy_digests mi_disk (fun _ _ => None) 2100 mi_tree (replicate 8 100000) 100000 mi_txdb (map snd (map_to_list mi_pool))).

Lemma wire_tx_check tx : CTransaction_valid tx -> (Z.of_nat (length (enc CTransaction_codec tx)) <=? MAX_BLOCK_SIZE) = true -> wire_tx tx.
Proof. intros Hv Hl%Z.leb_le. by split. Qed.

Lemma mi_wire : wire_tx mi_cheap /\ wire_tx mi_dear.
Proof.
  split; (apply wire_tx_check; [|vm_compute; reflexivity]);
    unfold CTransaction_valid, vector_valid, CTxIn_valid, CTxOut_valid, COutPoint_valid, uint_ok, bytevec_valid, uint_valid, sint_valid, digits_ok;
    apply (bool_decide_unpack _); vm_compute; exact I.
Qed.

Lemma mi_pool_ok : @pool_ok easy_digests mi_txdb mi_pool.
Proof.
  destruct mi_wire as [Hc Hd]. apply map_Forall_insert_2; [|apply map_Forall_singleton];
    (split; [reflexivity|split; [vm_compute; reflexivity|split; [assumption|vm_compute; reflexivity]]]).
Qed.

Lemma mined_block_connects_witness : exists bi' txdb' w' e,
  @ConnectBlock easy_digests reference_BN one_sig_ECDSA mi_disk (fun _ _ => None) mi_pool 2200 unit (fun _ _ _ w => (true, w)) (fun a _ => a)
    (@main_net reference_BN) mi_txdb 100000 [ex_index 100001; ex_index 100000] (uint_zero 8) false false (set_nonce 5 (fst (fst mi_block))) tt
  = Ok (bi', txdb', w', e).
Proof.
  destruct (@mined_block_connects easy_digests reference_BN reference_BN_ok one_sig_ECDSA scan_heap scan_heap_laws mi_disk (fun _ _ => None) unit
    (fun _ _ _ => true) (fun _ _ _ w => (true, w)) (fun a _ => a) (@main_net reference_BN) 2100 2200 [] default_args mi_tree (replicate 8 100000) 100000
    mi_txdb mi_pool mi_key mi_template (ex_index 100000) [] (uint_zero 8) (snd (fst mi_block)) 0 (snd mi_block) 5 (fst (fst mi_block))
    (ex_index 100001) (uint_zero 8) false false tt) as (_ & _ & H).
  - exact mi_pool_ok.
  - vm_compute. reflexivity.
  - apply (bool_decide_unpack _). vm_compute. exact I.
  - lia.
  - lia.
  - reflexivity.
  - vm_compute. reflexivity.
  - vm_compute. reflexivity.
  - vm_compute. reflexivity.
  - vm_compute. reflexivity.
  - vm_compute. reflexivity.
  - vm_compute. reflexivity.
  - vm_compute. discriminate.
  - apply map_Forall_singleton. reflexivity.
  - vm_compute. discriminate.
  - reflexivity.
  - cbn. lia.
  - exact H.
Defined.

Lemma template_limits_witness : exists cb, vtx (t_block mi_template) = [cb; mi_dear; mi_cheap] /\ IsCoinBase cb = true /\ nLastBlockSize mi_template = 1130.
Proof.
  destruct (@template_limits easy_digests reference_BN scan_heap scan_heap_laws mi_disk (fun _ _ => None) (fun _ _ _ => true) (@main_net reference_BN)
    2100 [] default_args mi_tree (replicate 8 100000) 100000 mi_txdb mi_pool false mi_key mi_pool_ok) as [_ H].
  destruct (H mi_template) as (cb & txs & Hv & Hcb & _ & _ & _ & Hs & _); [vm_compute; reflexivity|].
  exists cb. assert (txs = [mi_dear; mi_cheap]) as ->.
  { replace txs with (drop 1 (cb :: txs)) by reflexivity. rewrite <- Hv. vm_compute. reflexivity. }
  split; [exact Hv|]. split; [exact Hcb|]. rewrite Hs. vm_compute. reflexivity.
Defined.

Lemma template_by_fee_witness : exists ps, [mi_dear; mi_cheap] = map ptx ps /\
  StronglySorted (fun a b => TxPriorityCompare true a b = false) ps.
Proof.
  destruct (@template_by_fee easy_digests reference_BN scan_heap scan_heap_laws mi_disk (fun _ _ => None) (fun _ _ _ => true) (@main_net reference_BN)
    2100 [] mi_args mi_tree (replicate 8 100000) 100000 mi_txdb mi_pool false mi_key
    mi_queue mi_by_fee) as (ps & Hps & _ & Hs).
  - vm_compute. reflexivity.
  - vm_compute. reflexivity.
  - repeat constructor.
  - vm_compute. reflexivity.
  - exists ps. split; [|exact Hs]. rewrite <- Hps. vm_compute. reflexivity.
Defined.

(** The best block is the last one that pays 75 coins; the pool holds two
    transactions that leave three coins. *)
Definition mi_ledger : LedgerOps unit unit := {|
  lg_connect _ c _ _ v e := match c with [] => Throw | bi :: _ => Ok (bi, v, e) end; lg_disconnect _ _ v e := Some (v, e);
  lg_txindex _ := mi_txdb; lg_write_index _ v := v;
|}.
Definition mi_tip : uint256 := replicate 8 61741.
Definition mi_last : block_index := {[mi_tip := mkNode (ex_index 61741) None None]}.
Definition mi_state : @chain_state unit unit unit :=
  mkState mi_last (Some mi_tip) (Some mi_tip) mi_tip 61741 (replicate 8 (2 ^ 32 - 1)) (uint_zero 8) None (mkDb tt mi_tip) tt tt.
Abbreviation mi_reduced := (@CreateNewBlock easy_digests reference_BN scan_heap mi_disk (fun _ _ => None) (fun _ _ _ => true)
  (@main_net reference_BN) 2100 [] default_args mi_last mi_tip 61741 mi_txdb mi_pool false mi_key).
Definition mi_last_template : template := Eval vm_compute in created_or mi_reduced.
Definition mi_reduced_block : CBlock * uint256 * Z := Eval vm_compute in
  result_or (CBlock_empty, uint_zero 8, 0)
    (@IncrementExtraNonce easy_digests reference_BN [] (t_block mi_last_template) (ex_index 61741) (uint_zero 8) 0).
Abbreviation mi_accept := (@AcceptBlock easy_digests reference_BN _ _ _ mi_ledger no_pool sp_stake (@main_net reference_BN) false ADVISORY
  mi_disk (fun _ => ∅) 2100 bc_disk (fun _ => Some (1, 5)) (fun _ => true) (fun _ => true) (set_nonce 5 (fst (fst mi_reduced_block))) mi_state
  (ck_state 0)).

Lemma reduction_block_refused_witness : pFees mi_last_template = 3 * COIN /\ fst (fst (fst mi_accept)) <> Ok ().
Proof.
  split; [vm_compute; reflexivity|].
  apply (@reduction_block_refused easy_digests reference_BN scan_heap scan_heap_laws _ _ _ mi_ledger no_pool sp_stake (@main_net reference_BN)
    false ADVISORY mi_disk (fun _ _ => None) (fun _ => ∅) 2100 2100 bc_disk (fun _ => Some (1, 5)) (fun _ => true) (fun _ => true) (fun _ _ _ => true) []
    default_args mi_state (ck_state 0) mi_tip (ex_index 61741) [] mi_pool mi_key mi_last_template (fst (fst mi_reduced_block))
    (uint_zero 8) (snd (fst mi_reduced_block)) 0 (snd mi_reduced_block) 5).
  - vm_compute. reflexivity.
  - vm_compute. reflexivity.
  - split; [vm_compute; reflexivity|]. split; [|vm_compute; reflexivity]. apply (bool_decide_unpack _). vm_compute. exact I.
  - exact mi_pool_ok.
  - vm_compute. reflexivity.
  - vm_compute. reflexivity.
  - vm_compute. reflexivity.
Defined.

(** It is refused with the score of an attack. *)
Example reduction_block_score : fst (fst (fst mi_accept)) = Fail 100.
Proof. vm_compute. reflexivity. Qed.
