(* ===== verification/Util.v ===== *)
(** * Text utilities (util.cpp, util.h)

    Hexadecimal, Base64 and Base32 text, amounts of money as text, the splitting of
    a string and the matching of a mask.  A character is its code; a C string is the
    list of its characters before the terminating zero, so reading past its end
    gives zero. *)

From S2P Require Import Prelude Uint256 Serialize BigNum Tx Merkle Script Base58.

(** [p[k]] of a C string *)
Definition char_at (p : list Z) (k : nat) : Z := nth k p 0.

Definition isdigit (c : Z) : bool := ((48 <=? c) && (c <=? 57))%bool.

(** ** Hexadecimal *)

Definition hexdigit_table : list Z :=
  [ -1; -1; -1; -1; -1; -1; -1; -1; -1; -1; -1; -1; -1; -1; -1; -1;
    -1; -1; -1; -1; -1; -1; -1; -1; -1; -1; -1; -1; -1; -1; -1; -1;
    -1; -1; -1; -1; -1; -1; -1; -1; -1; -1; -1; -1; -1; -1; -1; -1;
    0; 1; 2; 3; 4; 5; 6; 7; 8; 9; -1; -1; -1; -1; -1; -1;
    -1; 10; 11; 12; 13; 14; 15; -1; -1; -1; -1; -1; -1; -1; -1; -1;
    -1; -1; -1; -1; -1; -1; -1; -1; -1; -1; -1; -1; -1; -1; -1; -1;
    -1; 10; 11; 12; 13; 14; 15; -1; -1; -1; -1; -1; -1; -1; -1; -1;
    -1; -1; -1; -1; -1; -1; -1; -1; -1; -1; -1; -1; -1; -1; -1; -1;
    -1; -1; -1; -1; -1; -1; -1; -1; -1; -1; -1; -1; -1; -1; -1; -1;
    -1; -1; -1; -1; -1; -1; -1; -1; -1; -1; -1; -1; -1; -1; -1; -1;
    -1; -1; -1; -1; -1; -1; -1; -1; -1; -1; -1; -1; -1; -1; -1; -1;
    -1; -1; -1; -1; -1; -1; -1; -1; -1; -1; -1; -1; -1; -1; -1; -1;
    -1; -1; -1; -1; -1; -1; -1; -1; -1; -1; -1; -1; -1; -1; -1; -1;
    -1; -1; -1; -1; -1; -1; -1; -1; -1; -1; -1; -1; -1; -1; -1; -1;
    -1; -1; -1; -1; -1; -1; -1; -1; -1; -1; -1; -1; -1; -1; -1; -1;
    -1; -1; -1; -1; -1; -1; -1; -1; -1; -1; -1; -1; -1; -1; -1; -1 ].

Definition hexdigit (c : Z) : Z := nth (Z.to_nat c) hexdigit_table (-1).

Definition hexmap : list Z := Eval vm_compute in chars "0123456789abcdef".

Fixpoint HexStr_loop (fSpaces first : bool) (v : list Z) : list Z :=
  match v with
  | [] => []
  | val :: v =>
      (if (fSpaces && negb first)%bool then [32] else []) ++
      [char_at hexmap (Z.to_nat (Z.shiftr val 4)); char_at hexmap (Z.to_nat (Z.land val 15))] ++
      HexStr_loop fSpaces false v
  end.

Definition HexStr (v : list Z) (fSpaces : bool) : list Z := HexStr_loop fSpaces true v.

Definition IsHex (str : list Z) : bool :=
  (forallb (fun c => negb (hexdigit c <? 0)) str && (negb (length str =? 0)%nat && Nat.even (length str)))%bool.

(** Each round reads at least one character, so the length of the text is enough fuel. *)
Fixpoint ParseHex_loop (fuel : nat) (psz : list Z) : list Z :=
  match fuel with
  | O => []
  | S fuel =>
      match drop_while isspace psz with
      | [] => []
      | a :: psz =>
          let c := hexdigit a in
          if c =? -1 then [] else
          let n := u8 (Z.shiftl c 4) in
          match psz with
          | [] => []
          | b :: psz =>
              let c := hexdigit b in
              if c =? -1 then [] else Z.lor n c :: ParseHex_loop fuel psz
          end
      end
  end.

Definition ParseHex (psz : list Z) : list Z := ParseHex_loop (length psz) psz.

(** ** Base64 *)

Definition pbase64 : list Z := Eval vm_compute in chars "ABCDEFGHIJKLMNOPQRSTUVWXYZabcdefghijklmnopqrstuvwxyz0123456789+/".

Definition b64 (i : Z) : Z := char_at pbase64 (Z.to_nat i).

(** The loop over the bytes and the padding after it. *)
Fixpoint encode64_loop (pch : list Z) (mode left : Z) : list Z :=
  match pch with
  | [] => if mode =? 0 then [] else b64 left :: 61 :: (if mode =? 1 then [61] else [])
  | enc :: pch =>
      match mode with
      | 0 => b64 (Z.shiftr enc 2) :: encode64_loop pch 1 (Z.shiftl (Z.land enc 3) 4)
      | 1 => b64 (Z.lor left (Z.shiftr enc 4)) :: encode64_loop pch 2 (Z.shiftl (Z.land enc 15) 2)
      | 2 => b64 (Z.lor left (Z.shiftr enc 6)) :: b64 (Z.land enc 63) :: encode64_loop pch 0 left
      | _ => encode64_loop pch mode left
      end
  end.

Definition EncodeBase64 (v : list Z) : list Z := encode64_loop v 0 0.

Definition decode64_table : list Z :=
  [ -1; -1; -1; -1; -1; -1; -1; -1; -1; -1; -1; -1; -1; -1; -1; -1;
    -1; -1; -1; -1; -1; -1; -1; -1; -1; -1; -1; -1; -1; -1; -1; -1;
    -1; -1; -1; -1; -1; -1; -1; -1; -1; -1; -1; 62; -1; -1; -1; 63;
    52; 53; 54; 55; 56; 57; 58; 59; 60; 61; -1; -1; -1; -1; -1; -1;
    -1; 0; 1; 2; 3; 4; 5; 6; 7; 8; 9; 10; 11; 12; 13; 14;
    15; 16; 17; 18; 19; 20; 21; 22; 23; 24; 25; -1; -1; -1; -1; -1;
    -1; 26; 27; 28; 29; 30; 31; 32; 33; 34; 35; 36; 37; 38; 39; 40;
    41; 42; 43; 44; 45; 46; 47; 48; 49; 50; 51; -1; -1; -1; -1; -1;
    -1; -1; -1; -1; -1; -1; -1; -1; -1; -1; -1; -1; -1; -1; -1; -1;
    -1; -1; -1; -1; -1; -1; -1; -1; -1; -1; -1; -1; -1; -1; -1; -1;
    -1; -1; -1; -1; -1; -1; -1; -1; -1; -1; -1; -1; -1; -1; -1; -1;
    -1; -1; -1; -1; -1; -1; -1; -1; -1; -1; -1; -1; -1; -1; -1; -1;
    -1; -1; -1; -1; -1; -1; -1; -1; -1; -1; -1; -1; -1; -1; -1; -1;
    -1; -1; -1; -1; -1; -1; -1; -1; -1; -1; -1; -1; -1; -1; -1; -1;
    -1; -1; -1; -1; -1; -1; -1; -1; -1; -1; -1; -1; -1; -1; -1; -1;
    -1; -1; -1; -1; -1; -1; -1; -1; -1; -1; -1; -1; -1; -1; -1; -1 ].

Definition d64 (c : Z) : Z := nth (Z.to_nat c) decode64_table (-1).

(** [vchRet.push_back(b)] before what the rest of the loop pushes *)
Definition push (b : Z) (r : list Z * (Z * Z * list Z)) : list Z * (Z * Z * list Z) := (u8 b :: r.1, r.2).

(** What the loop has pushed, its mode, the bits left and the rest of the text. *)
Fixpoint decode64_loop (p : list Z) (mode left : Z) : list Z * (Z * Z * list Z) :=
  match p with
  | [] => ([], (mode, left, []))
  | c :: p' =>
      let dec := d64 c in
      if dec =? -1 then ([], (mode, left, p)) else
      match mode with
      | 0 => decode64_loop p' 1 dec
      | 1 => push (Z.lor (Z.shiftl left 2) (Z.shiftr dec 4)) (decode64_loop p' 2 (Z.land dec 15))
      | 2 => push (Z.lor (Z.shiftl left 4) (Z.shiftr dec 2)) (decode64_loop p' 3 (Z.land dec 3))
      | 3 => push (Z.lor (Z.shiftl left 6) dec) (decode64_loop p' 0 left)
      | _ => decode64_loop p' mode left
      end
  end.

(** [p] starts with [n] signs [=], and what follows them does not go on. *)
Definition padded (table : Z -> Z) (n : nat) (p : list Z) : bool :=
  (forallb (fun k => char_at p k =? 61) (seq 0 n) && (table (char_at p n) =? -1))%bool.

Definition invalid64 (mode left : Z) (p : list Z) : bool :=
  match mode with
  | 1 => true
  | 2 => (negb (left =? 0) || negb (padded d64 2 p))%bool
  | 3 => (negb (left =? 0) || negb (padded d64 1 p))%bool
  | _ => false
  end.

(** The bytes and [*pfInvalid]. *)
Definition DecodeBase64 (p : list Z) : list Z * bool :=
  let '(vchRet, (mode, bits, rest)) := decode64_loop p 0 0 in (vchRet, invalid64 mode bits rest).

(** ** Base32 *)

Definition pbase32 : list Z := Eval vm_compute in chars "abcdefghijklmnopqrstuvwxyz234567".

Definition b32 (i : Z) : Z := char_at pbase32 (Z.to_nat i).

Definition nPadding (mode : Z) : nat := nth (Z.to_nat mode) [0; 6; 4; 3; 1]%nat O.

Fixpoint encode32_loop (pch : list Z) (mode left : Z) : list Z :=
  match pch with
  | [] => if mode =? 0 then [] else b32 left :: replicate (nPadding mode) 61
  | enc :: pch =>
      match mode with
      | 0 => b32 (Z.shiftr enc 3) :: encode32_loop pch 1 (Z.shiftl (Z.land enc 7) 2)
      | 1 => b32 (Z.lor left (Z.shiftr enc 6)) :: b32 (Z.land (Z.shiftr enc 1) 31) ::
             encode32_loop pch 2 (Z.shiftl (Z.land enc 1) 4)
      | 2 => b32 (Z.lor left (Z.shiftr enc 4)) :: encode32_loop pch 3 (Z.shiftl (Z.land enc 15) 1)
      | 3 => b32 (Z.lor left (Z.shiftr enc 7)) :: b32 (Z.land (Z.shiftr enc 2) 31) ::
             encode32_loop pch 4 (Z.shiftl (Z.land enc 3) 3)
      | 4 => b32 (Z.lor left (Z.shiftr enc 5)) :: b32 (Z.land enc 31) :: encode32_loop pch 0 left
      | _ => encode32_loop pch mode left
      end
  end.

Definition EncodeBase32 (v : list Z) : list Z := encode32_loop v 0 0.

Definition decode32_table : list Z :=
  [ -1; -1; -1; -1; -1; -1; -1; -1; -1; -1; -1; -1; -1; -1; -1; -1;
    -1; -1; -1; -1; -1; -1; -1; -1; -1; -1; -1; -1; -1; -1; -1; -1;
    -1; -1; -1; -1; -1; -1; -1; -1; -1; -1; -1; -1; -1; -1; -1; -1;
    -1; -1; 26; 27; 28; 29; 30; 31; -1; -1; -1; -1; -1; -1; -1; -1;
    -1; 0; 1; 2; 3; 4; 5; 6; 7; 8; 9; 10; 11; 12; 13; 14;
    15; 16; 17; 18; 19; 20; 21; 22; 23; 24; 25; -1; -1; -1; -1; -1;
    -1; 0; 1; 2; 3; 4; 5; 6; 7; 8; 9; 10; 11; 12; 13; 14;
    15; 16; 17; 18; 19; 20; 21; 22; 23; 24; 25; -1; -1; -1; -1; -1;
    -1; -1; -1; -1; -1; -1; -1; -1; -1; -1; -1; -1; -1; -1; -1; -1;
    -1; -1; -1; -1; -1; -1; -1; -1; -1; -1; -1; -1; -1; -1; -1; -1;
    -1; -1; -1; -1; -1; -1; -1; -1; -1; -1; -1; -1; -1; -1; -1; -1;
    -1; -1; -1; -1; -1; -1; -1; -1; -1; -1; -1; -1; -1; -1; -1; -1;
    -1; -1; -1; -1; -1; -1; -1; -1; -1; -1; -1; -1; -1; -1; -1; -1;
    -1; -1; -1; -1; -1; -1; -1; -1; -1; -1; -1; -1; -1; -1; -1; -1;
    -1; -1; -1; -1; -1; -1; -1; -1; -1; -1; -1; -1; -1; -1; -1; -1;
    -1; -1; -1; -1; -1; -1; -1; -1; -1; -1; -1; -1; -1; -1; -1; -1 ].

Definition d32 (c : Z) : Z := nth (Z.to_nat c) decode32_table (-1).

Fixpoint decode32_loop (p : list Z) (mode left : Z) : list Z * (Z * Z * list Z) :=
  match p with
  | [] => ([], (mode, left, []))
  | c :: p' =>
      let dec := d32 c in
      if dec =? -1 then ([], (mode, left, p)) else
      match mode with
      | 0 => decode32_loop p' 1 dec
      | 1 => push (Z.lor (Z.shiftl left 3) (Z.shiftr dec 2)) (decode32_loop p' 2 (Z.land dec 3))
      | 2 => decode32_loop p' 3 (Z.lor (Z.shiftl left 5) dec)
      | 3 => push (Z.lor (Z.shiftl left 1) (Z.shiftr dec 4)) (decode32_loop p' 4 (Z.land dec 15))
      | 4 => push (Z.lor (Z.shiftl left 4) (Z.shiftr dec 1)) (decode32_loop p' 5 (Z.land dec 1))
      | 5 => decode32_loop p' 6 (Z.lor (Z.shiftl left 5) dec)
      | 6 => push (Z.lor (Z.shiftl left 2) (Z.shiftr dec 3)) (decode32_loop p' 7 (Z.land dec 7))
      | 7 => push (Z.lor (Z.shiftl left 5) dec) (decode32_loop p' 0 left)
      | _ => decode32_loop p' mode left
      end
  end.

Definition invalid32 (mode left : Z) (p : list Z) : bool :=
  match mode with
  | 1 | 3 | 6 => true
  | 2 => (negb (left =? 0) || negb (padded d32 6 p))%bool
  | 4 => (negb (left =? 0) || negb (padded d32 4 p))%bool
  | 5 => (negb (left =? 0) || negb (padded d32 3 p))%bool
  | 7 => (negb (left =? 0) || negb (padded d32 1 p))%bool
  | _ => false
  end.

Definition DecodeBase32 (p : list Z) : list Z * bool :=
  let '(vchRet, (mode, bits, rest)) := decode32_loop p 0 0 in (vchRet, invalid32 mode bits rest).

(** ** Amounts of money *)

(** The decimal digits of a number that is not negative, as [%d] prints them; the
    quotient shrinks, so the number of bits is enough fuel. *)
Fixpoint decimal_loop (fuel : nat) (n : Z) (acc : list Z) : list Z :=
  match fuel with
  | O => acc
  | S fuel => let acc := 48 + n mod 10 :: acc in if n <? 10 then acc else decimal_loop fuel (n / 10) acc
  end.

Definition decimal_abs (n : Z) : list Z := decimal_loop (S (Z.to_nat (Z.log2 n))) n [].

Definition decimal (n : Z) : list Z := if n <? 0 then 45 :: decimal_abs (- n) else decimal_abs n.

(** [%08d]: filled with zeros to eight characters, after the sign. *)
Definition decimal08 (n : Z) : list Z :=
  if n <? 0 then let ds := decimal_abs (- n) in 45 :: replicate (7 - length ds) 48 ++ ds
  else let ds := decimal_abs n in replicate (8 - length ds) 48 ++ ds.

(** The zeros at the end that have a digit two places before them; the text is given
    from its end. *)
Fixpoint trim_zeros (rev : list Z) : list Z :=
  match rev with
  | z :: rest => if ((z =? 48) && isdigit (char_at rest 1))%bool then trim_zeros rest else rev
  | [] => []
  end.

Definition FormatMoney (n : Z) (fPlus : bool) : list Z :=
  let n_abs := if 0 <? n then n else s64 (- n) in
  let quotient := Z.quot n_abs COIN in
  let remainder := Z.rem n_abs COIN in
  let str := decimal quotient ++ [46] ++ decimal08 remainder in
  let str := reverse (trim_zeros (reverse str)) in
  if n <? 0 then 45 :: str else if (fPlus && (0 <? n))%bool then 43 :: str else str.

(** [while (isdigit( *p) && (nMult > 0))]: the units and the rest of the text. *)
Fixpoint parse_units (p : list Z) (nMult nUnits : Z) : Z * list Z :=
  match p with
  | c :: p' =>
      if (isdigit c && (0 <? nMult))%bool then parse_units p' (nMult / 10) (s64 (nUnits + s64 (nMult * (c - 48))))
      else (nUnits, p)
  | [] => (nUnits, [])
  end.

(** The first loop; [None] is [return false]. *)
Fixpoint parse_whole (p : list Z) (strWhole : list Z) : option (list Z * Z * list Z) :=
  match p with
  | [] => Some (strWhole, 0, [])
  | c :: p' =>
      if c =? 46 then let '(nUnits, rest) := parse_units p' (CENT * 10) 0 in Some (strWhole, nUnits, rest)
      else if isspace c then Some (strWhole, 0, p)
      else if negb (isdigit c) then None
      else parse_whole p' (strWhole ++ [c])
  end.

(** [strtoll] of a text of at most eighteen digits, which is what is given to it here *)
Definition atoi64 (ds : list Z) : Z := foldl (fun n c => 10 * n + (c - 48)) 0 ds.

Definition ParseMoney (pszIn : list Z) : option Z :=
  match parse_whole (drop_while isspace pszIn) [] with
  | None => None
  | Some (strWhole, nUnits, rest) =>
      if negb (forallb isspace rest) then None
      else if (10 <? length strWhole)%nat then None
      else if ((nUnits <? 0) || (COIN <? nUnits))%bool then None
      else Some (s64 (s64 (atoi64 strWhole * COIN) + nUnits))
  end.

(** ** Splitting and matching *)

(** [str.find(c, i1)] splits what is left; [cur] is the piece being read, reversed. *)
Fixpoint split_at (c : Z) (str cur : list Z) : list (list Z) :=
  match str with
  | [] => [reverse cur]
  | x :: str => if x =? c then reverse cur :: split_at c str [] else split_at c str (x :: cur)
  end.

Definition ParseString (str : list Z) (c : Z) (v : list (list Z)) : list (list Z) :=
  match str with [] => v | _ => v ++ split_at c str [] end.

(** The mask gets shorter, and at a star the string does. *)
Fixpoint WildcardMatch (mask psz : list Z) : bool :=
  match mask with
  | [] => match psz with [] => true | _ => false end
  | m :: mask' =>
      if m =? 42 then
        (fix star (psz : list Z) : bool :=
           (WildcardMatch mask' psz || match psz with [] => false | _ :: psz => star psz end)%bool) psz
      else
        match psz with
        | [] => false
        | c :: psz => if m =? 63 then WildcardMatch mask' psz else if negb (c =? m) then false else WildcardMatch mask' psz
        end
  end.

(** ** Facts: bits of bytes *)

(** A left part shifted over a right part is a sum. *)
Lemma lor_shl a b n : 0 <= n -> 0 <= b < 2 ^ n -> Z.lor (Z.shiftl a n) b = a * 2 ^ n + b.
Proof. intros. rewrite Z.lor_comm, Z.shiftl_mul_pow2, lor_disjoint by done. lia. Qed.

Lemma low_bits x n : 0 <= n -> Z.land x (Z.ones n) = x mod 2 ^ n.
Proof. apply Z.land_ones. Qed.

Lemma mask_63 x : Z.land x 63 = x mod 64. Proof. by apply (low_bits x 6). Qed.
Lemma mask_31 x : Z.land x 31 = x mod 32. Proof. by apply (low_bits x 5). Qed.
Lemma mask_15 x : Z.land x 15 = x mod 16. Proof. by apply (low_bits x 4). Qed.
Lemma mask_7 x : Z.land x 7 = x mod 8. Proof. by apply (low_bits x 3). Qed.
Lemma mask_3 x : Z.land x 3 = x mod 4. Proof. by apply (low_bits x 2). Qed.
Lemma mask_1 x : Z.land x 1 = x mod 2. Proof. by apply (low_bits x 1). Qed.

(** Shifts, masks and ors of parts as quotients, remainders and sums. *)
Ltac bitval :=
  unfold u8; rewrite ?mask_63, ?mask_31, ?mask_15, ?mask_7, ?mask_3, ?mask_1, ?Z.shiftr_div_pow2 by lia;
  repeat match goal with
    | |- context [Z.lor (Z.shiftl ?x ?n) ?y] =>
        lazymatch y with
        | context [Z.lor] => fail
        | _ => rewrite (lor_shl x y n) by (rewrite ?Z.shiftl_mul_pow2 by lia; Z.div_mod_to_equations; lia)
        end
    end;
  rewrite ?Z.shiftl_mul_pow2 by lia; Z.div_mod_to_equations; lia.

(** Every entry of a range has a decidable property. *)
Lemma range_check (f : Z -> bool) n i :
  forallb f (map Z.of_nat (seq 0 n)) = true -> 0 <= i < Z.of_nat n -> f i = true.
Proof.
  rewrite forallb_forall. intros H Hi. apply H. apply in_map_iff. exists (Z.to_nat i).
  split; [lia | apply in_seq; lia].
Qed.

(** ** Facts: hexadecimal *)

Lemma hexmap_digit i : 0 <= i < 16 ->
  hexdigit (char_at hexmap (Z.to_nat i)) = i /\ isspace (char_at hexmap (Z.to_nat i)) = false.
Proof.
  intros Hi. pose proof (range_check (fun i => (hexdigit (char_at hexmap (Z.to_nat i)) =? i) && negb (isspace (char_at hexmap (Z.to_nat i))))%bool 16 i eq_refl ltac:(lia)) as E.
  cbn beta in E. bprop. done.
Qed.

Lemma ParseHex_pair fuel v p : 0 <= v < 256 ->
  ParseHex_loop (S fuel) (char_at hexmap (Z.to_nat (Z.shiftr v 4)) :: char_at hexmap (Z.to_nat (Z.land v 15)) :: p) = v :: ParseHex_loop fuel p.
Proof.
  intros Hv. change 15 with (Z.ones 4). rewrite low_bits, Z.shiftr_div_pow2 by lia.
  destruct (hexmap_digit (v / 2 ^ 4)) as [E1 S1]; [Z.div_mod_to_equations; lia|].
  destruct (hexmap_digit (v mod 2 ^ 4)) as [E2 S2]; [Z.div_mod_to_equations; lia|].
  cbn [ParseHex_loop drop_while]. rewrite S1. cbv zeta. rewrite E1, E2.
  destruct (Z.eqb_spec (v / 2 ^ 4) (-1)); [Z.div_mod_to_equations; lia|].
  destruct (Z.eqb_spec (v mod 2 ^ 4) (-1)); [Z.div_mod_to_equations; lia|].
  f_equal. unfold u8. rewrite Z.mod_small by (rewrite Z.shiftl_mul_pow2 by lia; Z.div_mod_to_equations; lia).
  rewrite lor_shl by (try apply Z.mod_pos_bound; lia). Z.div_mod_to_equations; lia.
Qed.

Lemma ParseHex_loop_HexStr fSpaces first v fuel : bytes_ok v -> (length v <= fuel)%nat ->
  ParseHex_loop fuel (HexStr_loop fSpaces first v) = v.
Proof.
  intros Hv. revert fuel first. induction Hv as [|b v Hb Hv IH]; intros fuel first Hf.
  - by destruct fuel.
  - destruct fuel as [|fuel]; [cbn in Hf; lia|]. cbn in Hf. cbn [HexStr_loop].
    destruct (fSpaces && negb first)%bool; cbn [app].
    + change (ParseHex_loop (S fuel) (32 :: ?p)) with (ParseHex_loop (S fuel) p).
      rewrite ParseHex_pair by done. f_equal. apply IH. lia.
    + rewrite ParseHex_pair by done. f_equal. apply IH. lia.
Qed.

Lemma HexStr_loop_length fSpaces first v : (length v <= length (HexStr_loop fSpaces first v))%nat.
Proof. revert first. induction v as [|b v IH]; intros; cbn; [lia|]. specialize (IH false). rewrite length_app. cbn. lia. Qed.

Lemma ParseHex_HexStr v fSpaces : bytes_ok v -> ParseHex (HexStr v fSpaces) = v.
Proof. intros. apply ParseHex_loop_HexStr; [done | apply HexStr_loop_length]. Qed.

(** ** Facts: Base64 *)

Lemma d64_b64 i : 0 <= i < 64 -> d64 (b64 i) = i.
Proof. intros. apply Z.eqb_eq. apply (range_check (fun i => d64 (b64 i) =? i) 64); [reflexivity | lia]. Qed.

Lemma d32_b32 i : 0 <= i < 32 -> d32 (b32 i) = i.
Proof. intros. apply Z.eqb_eq. apply (range_check (fun i => d32 (b32 i) =? i) 32); [reflexivity | lia]. Qed.

(** One more character. *)
Lemma decode64_step i p mode bits : 0 <= i < 64 ->
  decode64_loop (b64 i :: p) mode bits =
  match mode with
  | 0 => decode64_loop p 1 i
  | 1 => push (Z.lor (Z.shiftl bits 2) (Z.shiftr i 4)) (decode64_loop p 2 (Z.land i 15))
  | 2 => push (Z.lor (Z.shiftl bits 4) (Z.shiftr i 2)) (decode64_loop p 3 (Z.land i 3))
  | 3 => push (Z.lor (Z.shiftl bits 6) i) (decode64_loop p 0 bits)
  | _ => decode64_loop p mode bits
  end.
Proof. intros. cbn [decode64_loop]. cbv zeta. rewrite d64_b64 by done. destruct (Z.eqb_spec i (-1)); [lia | done]. Qed.

Lemma decode32_step i p mode bits : 0 <= i < 32 ->
  decode32_loop (b32 i :: p) mode bits =
  match mode with
  | 0 => decode32_loop p 1 i
  | 1 => push (Z.lor (Z.shiftl bits 3) (Z.shiftr i 2)) (decode32_loop p 2 (Z.land i 3))
  | 2 => decode32_loop p 3 (Z.lor (Z.shiftl bits 5) i)
  | 3 => push (Z.lor (Z.shiftl bits 1) (Z.shiftr i 4)) (decode32_loop p 4 (Z.land i 15))
  | 4 => push (Z.lor (Z.shiftl bits 4) (Z.shiftr i 1)) (decode32_loop p 5 (Z.land i 1))
  | 5 => decode32_loop p 6 (Z.lor (Z.shiftl bits 5) i)
  | 6 => push (Z.lor (Z.shiftl bits 2) (Z.shiftr i 3)) (decode32_loop p 7 (Z.land i 7))
  | 7 => push (Z.lor (Z.shiftl bits 5) i) (decode32_loop p 0 bits)
  | _ => decode32_loop p mode bits
  end.
Proof. intros. cbn [decode32_loop]. cbv zeta. rewrite d32_b32 by done. destruct (Z.eqb_spec i (-1)); [lia | done]. Qed.

(** The decoder has pushed [v] and does not report the text. *)
Definition decoded (invalid : Z -> Z -> list Z -> bool) (r : list Z * (Z * Z * list Z)) (v : list Z) : Prop :=
  r.1 = v /\ invalid r.2.1.1 r.2.1.2 r.2.2 = false.

Lemma decoded_push invalid r v b c : u8 b = c -> decoded invalid r v -> decoded invalid (push b r) (c :: v).
Proof. intros <- [<- H]. by split. Qed.

(** The decoder keeps the high part of the byte whose low part the encoder keeps. *)
Lemma decode64_encode v : bytes_ok v ->
  (forall l l', decoded invalid64 (decode64_loop (encode64_loop v 0 l) 0 l') v) /\
  (forall a, 0 <= a < 256 ->
     decoded invalid64 (decode64_loop (encode64_loop v 1 (Z.shiftl (Z.land a 3) 4)) 1 (Z.shiftr a 2)) (a :: v)) /\
  (forall a, 0 <= a < 256 ->
     decoded invalid64 (decode64_loop (encode64_loop v 2 (Z.shiftl (Z.land a 15) 2)) 2 (Z.shiftr a 4)) (a :: v)).
Proof.
  induction 1 as [|b v Hb Hv (IH0 & IH1 & IH2)].
  - split_and!; [by split|intros a Ha..]; cbn [encode64_loop Z.eqb Pos.eqb]; rewrite decode64_step by bitval; apply decoded_push; try bitval.
    + replace (Z.land _ 15) with 0 by bitval. by split.
    + replace (Z.land _ 3) with 0 by bitval. by split.
  - split_and!; intros; cbn [encode64_loop]; rewrite decode64_step by bitval.
    + by apply IH1.
    + apply decoded_push; [bitval|]. replace (Z.land (Z.lor _ _) 15) with (Z.shiftr b 4) by bitval. by apply IH2.
    + apply decoded_push; [bitval|]. rewrite decode64_step by bitval. apply decoded_push; [bitval | apply IH0].
Qed.

Lemma decode32_encode v : bytes_ok v ->
  (forall l l', decoded invalid32 (decode32_loop (encode32_loop v 0 l) 0 l') v) /\
  (forall a, 0 <= a < 256 ->
     decoded invalid32 (decode32_loop (encode32_loop v 1 (Z.shiftl (Z.land a 7) 2)) 1 (Z.shiftr a 3)) (a :: v)) /\
  (forall a, 0 <= a < 256 ->
     decoded invalid32 (decode32_loop (encode32_loop v 2 (Z.shiftl (Z.land a 1) 4)) 3 (Z.shiftr a 1)) (a :: v)) /\
  (forall a, 0 <= a < 256 ->
     decoded invalid32 (decode32_loop (encode32_loop v 3 (Z.shiftl (Z.land a 15) 1)) 4 (Z.shiftr a 4)) (a :: v)) /\
  (forall a, 0 <= a < 256 ->
     decoded invalid32 (decode32_loop (encode32_loop v 4 (Z.shiftl (Z.land a 3) 3)) 6 (Z.shiftr a 2)) (a :: v)).
Proof.
  induction 1 as [|b v Hb Hv (IH0 & IH1 & IH2 & IH3 & IH4)].
  - split_and!; [by split|intros a Ha..]; cbn [encode32_loop Z.eqb Pos.eqb]; rewrite decode32_step by bitval; apply decoded_push; try bitval.
    + replace (Z.land _ 3) with 0 by bitval. by split.
    + replace (Z.land _ 15) with 0 by bitval. by split.
    + replace (Z.land _ 1) with 0 by bitval. by split.
    + replace (Z.land _ 7) with 0 by bitval. by split.
  - split_and!; intros; cbn [encode32_loop]; rewrite decode32_step by bitval.
    + by apply IH1.
    + apply decoded_push; [bitval|]. rewrite decode32_step by bitval.
      replace (Z.lor (Z.shiftl (Z.land _ 3) 5) _) with (Z.shiftr b 1) by bitval. by apply IH2.
    + apply decoded_push; [bitval|]. replace (Z.land (Z.lor _ _) 15) with (Z.shiftr b 4) by bitval. by apply IH3.
    + apply decoded_push; [bitval|]. rewrite decode32_step by bitval.
      replace (Z.lor (Z.shiftl (Z.land _ 1) 5) _) with (Z.shiftr b 2) by bitval. by apply IH4.
    + apply decoded_push; [bitval|]. rewrite decode32_step by bitval. apply decoded_push; [bitval | apply IH0].
Qed.

(** ** Facts: amounts of money *)

Abbreviation all_digits := (Forall (fun c => isdigit c = true)).
Abbreviation all_spaces := (Forall (fun c => isspace c = true)).

Lemma isdigit_iff c : isdigit c = true <-> 48 <= c <= 57.
Proof. unfold isdigit. rewrite andb_true_iff. lia. Qed.

Lemma isdigit_code d : 0 <= d < 10 -> isdigit (48 + d) = true.
Proof. intros. apply isdigit_iff. lia. Qed.

Lemma digit_not_space c : isdigit c = true -> isspace c = false /\ (c =? 46) = false.
Proof. rewrite isdigit_iff. unfold isspace. intros. split; [apply orb_false_iff; split; [|apply andb_false_iff]; lia | lia]. Qed.

Lemma space_not_digit c : isspace c = true -> isdigit c = false /\ (c =? 46) = false.
Proof.
  unfold isspace. rewrite orb_true_iff, andb_true_iff, !Z.leb_le, Z.eqb_eq. intros.
  split; [|lia]. apply not_true_iff_false. rewrite isdigit_iff. lia.
Qed.

Lemma atoi64_acc ds n : foldl (fun n c => 10 * n + (c - 48)) n ds = n * 10 ^ Z.of_nat (length ds) + atoi64 ds.
Proof.
  unfold atoi64. revert n. induction ds as [|c ds IH]; intros n; cbn [foldl length]; [cbn; lia|].
  rewrite (IH (10 * n + _)), (IH (10 * 0 + _)), Nat2Z.inj_succ, Z.pow_succ_r by lia. ring.
Qed.

Lemma atoi64_app a b : atoi64 (a ++ b) = atoi64 a * 10 ^ Z.of_nat (length b) + atoi64 b.
Proof. unfold atoi64 at 1. rewrite foldl_app. apply atoi64_acc. Qed.

Lemma atoi64_cons c ds : atoi64 (c :: ds) = (c - 48) * 10 ^ Z.of_nat (length ds) + atoi64 ds.
Proof. apply (atoi64_acc ds (10 * 0 + (c - 48))). Qed.

Lemma atoi64_bound ds : all_digits ds -> 0 <= atoi64 ds < 10 ^ Z.of_nat (length ds).
Proof.
  induction 1 as [|c ds Hc Hds IH]; [by cbn|]. rewrite atoi64_cons. apply isdigit_iff in Hc.
  cbn [length]. rewrite Nat2Z.inj_succ, Z.pow_succ_r by lia. nia.
Qed.

Lemma atoi64_zeros k ds : atoi64 (replicate k 48 ++ ds) = atoi64 ds.
Proof. induction k as [|k IH]; [done|]. cbn [replicate app]. rewrite atoi64_cons, IH. lia. Qed.

Lemma digits_zeros k : all_digits (replicate k 48).
Proof. by apply Forall_replicate. Qed.

(** The digits printed are those of the number. *)
Lemma decimal_loop_spec fuel n acc : 0 <= n < 2 ^ Z.of_nat (S fuel) -> exists ds,
  decimal_loop (S fuel) n acc = ds ++ acc /\ all_digits ds /\ atoi64 ds = n /\
  forall k : nat, (0 < k)%nat -> n < 10 ^ Z.of_nat k -> (length ds <= k)%nat.
Proof.
  revert n acc. induction fuel as [|fuel IH]; intros n acc Hn.
  - exists [48 + n]. cbn in Hn |- *. rewrite Z.mod_small by lia. destruct (Z.ltb_spec n 10); [|lia].
    split_and!; [done | | lia | lia]. constructor; [apply isdigit_code; lia | done].
  - change (decimal_loop (S (S fuel)) n acc) with (if n <? 10 then 48 + n mod 10 :: acc else decimal_loop (S fuel) (n / 10) (48 + n mod 10 :: acc)).
    destruct (Z.ltb_spec n 10).
    + exists [48 + n mod 10]. rewrite Z.mod_small by lia.
      split_and!; [done | | cbn; lia | cbn; lia]. constructor; [apply isdigit_code; lia | done].
    + destruct (IH (n / 10) (48 + n mod 10 :: acc)) as (ds & E & Hd & Hv & Hl).
      { rewrite Nat2Z.inj_succ, Z.pow_succ_r in Hn by lia. Z.div_mod_to_equations; lia. }
      exists (ds ++ [48 + n mod 10]). rewrite E, atoi64_app, Hv, length_app. split_and!.
      * by rewrite <- app_assoc.
      * apply Forall_app. split; [done|]. constructor; [|done]. apply isdigit_code. apply Z.mod_pos_bound. lia.
      * cbn. Z.div_mod_to_equations; lia.
      * intros [|k] Hk Hb; [lia|]. cbn [length].
        destruct k as [|k]; [cbn in Hb; lia|].
        rewrite Nat2Z.inj_succ, Z.pow_succ_r in Hb by lia.
        enough (length ds <= S k)%nat by lia. apply Hl; [lia|]. Z.div_mod_to_equations; lia.
Qed.

Lemma decimal_abs_spec n : 0 <= n -> all_digits (decimal_abs n) /\ atoi64 (decimal_abs n) = n /\
  forall k : nat, (0 < k)%nat -> n < 10 ^ Z.of_nat k -> (length (decimal_abs n) <= k)%nat.
Proof.
  intros Hn. destruct (decimal_loop_spec (Z.to_nat (Z.log2 n)) n []) as (ds & E & H).
  - split; [done|]. rewrite Nat2Z.inj_succ, Z2Nat.id by apply Z.log2_nonneg.
    destruct (Z.eq_dec n 0) as [->|]; [by cbn|]. apply Z.log2_spec. lia.
  - unfold decimal_abs. rewrite E, app_nil_r. done.
Qed.

(** A fraction of at most eight digits, in units. *)
Definition units (frac : list Z) : Z := atoi64 frac * 10 ^ (8 - Z.of_nat (length frac)).

Lemma units_bound frac : all_digits frac -> (length frac <= 8)%nat -> 0 <= units frac < COIN.
Proof.
  intros Hd Hl. unfold units. pose proof (atoi64_bound frac Hd) as B.
  assert (E : 10 ^ Z.of_nat (length frac) * 10 ^ (8 - Z.of_nat (length frac)) = COIN).
  { rewrite <- Z.pow_add_r by lia. replace (_ + _) with 8 by lia. done. }
  assert (0 < 10 ^ (8 - Z.of_nat (length frac))) by (apply Z.pow_pos_nonneg; lia). nia.
Qed.

(** What the right-trimming leaves of a fraction. *)
Lemma trim_zeros_spec rf w : all_digits rf -> (2 <= length rf)%nat -> exists k rf',
  trim_zeros (rf ++ 46 :: w) = rf' ++ 46 :: w /\ rf = replicate k 48 ++ rf' /\ (2 <= length rf')%nat /\
  (length rf' = 2%nat \/ head rf' <> Some 48).
Proof.
  induction 1 as [|z rf Hz Hrf IH]; [cbn; lia|]. intros Hl. cbn [trim_zeros app].
  destruct (Z.eqb_spec z 48) as [->|Hne]; cbn [andb]; [|exists O, (z :: rf); split_and!; [done..|right; cbn; congruence]].
  destruct rf as [|a [|b rf]]; [cbn in Hl; lia | exists O, [48; a]; split_and!; try done; by left |].
  replace (isdigit (char_at ((a :: b :: rf) ++ 46 :: w) 1)) with true; [|symmetry; inversion Hrf as [|? ? ? Hb]; by inversion Hb].
  destruct IH as (k & rf' & E & E' & H); [cbn; lia|]. exists (S k), rf'. rewrite E. split; [done|].
  split; [|done]. cbn [replicate app]. by rewrite E'.
Qed.

Lemma decimal08_spec r : 0 <= r < COIN ->
  all_digits (decimal08 r) /\ length (decimal08 r) = 8%nat /\ units (decimal08 r) = r.
Proof.
  intros Hr. destruct (decimal_abs_spec r) as (Hd & Hv & Hl); [lia|].
  specialize (Hl 8%nat ltac:(lia)). change (10 ^ Z.of_nat 8) with COIN in Hl.
  unfold decimal08. destruct (Z.ltb_spec r 0); [lia|]. cbv zeta.
  assert (L : length (replicate (8 - length (decimal_abs r)) 48 ++ decimal_abs r) = 8%nat) by (rewrite length_app, length_replicate; lia).
  split_and!; [apply Forall_app; split; [apply digits_zeros | done] | done |].
  unfold units. rewrite L, atoi64_zeros, Hv. lia.
Qed.

(** Zeros at the end of a fraction do not count. *)
Lemma units_trailing frac k : (length frac + k <= 8)%nat -> units (frac ++ replicate k 48) = units frac.
Proof.
  intros. unfold units. rewrite atoi64_app, length_app, length_replicate.
  replace (atoi64 (replicate k 48)) with 0 by (by rewrite <- (app_nil_r (replicate k 48)), atoi64_zeros).
  rewrite Z.add_0_r, <- Z.mul_assoc, <- Z.pow_add_r by lia. do 2 f_equal. lia.
Qed.

(** The text of an amount: the sign, the whole coins, a point and two to eight digits of
    which the last counts unless there are two. *)
Lemma FormatMoney_shape n fPlus : - 2 ^ 63 < n < 2 ^ 63 -> exists frac,
  FormatMoney n fPlus = (if n <? 0 then [45] else if (fPlus && (0 <? n))%bool then [43] else []) ++
    decimal_abs (Z.abs n / COIN) ++ 46 :: frac /\
  all_digits frac /\ (2 <= length frac <= 8)%nat /\ units frac = Z.abs n mod COIN /\
  (length frac = 2%nat \/ last frac <> Some 48).
Proof.
  intros Hn. unfold FormatMoney.
  replace (if 0 <? n then n else s64 (- n)) with (Z.abs n) by (destruct (Z.ltb_spec 0 n); rewrite ?s64_small; lia).
  cbv zeta. rewrite Z.quot_div_nonneg, Z.rem_mod_nonneg by (unfold COIN; lia).
  destruct (decimal08_spec (Z.abs n mod COIN)) as (Hd & Hl & Hu); [by apply Z.mod_pos_bound|].
  assert (Hq : 0 <= Z.abs n / COIN) by (apply Z.div_pos; [lia | done]).
  replace (decimal (Z.abs n / COIN)) with (decimal_abs (Z.abs n / COIN)) by (unfold decimal; destruct (Z.ltb_spec (Z.abs n / COIN) 0); [lia | done]).
  set (q := decimal_abs _). set (f := decimal08 _) in *. rewrite !reverse_app. change (reverse [46]) with [46]. rewrite <- app_assoc.
  destruct (trim_zeros_spec (reverse f) (reverse q)) as (k & rf & E & E' & Hr & Hlast); [by apply Forall_reverse | rewrite length_reverse; lia|].
  change ([46] ++ reverse q) with (46 :: reverse q). rewrite E, reverse_app, reverse_cons, reverse_involutive, <- app_assoc.
  assert (Ef : f = reverse rf ++ replicate k 48) by (by rewrite <- (reverse_involutive f), E', reverse_app, reverse_replicate).
  rewrite Ef, length_app, length_reverse, length_replicate in Hl.
  exists (reverse rf). rewrite length_reverse. split_and!.
  - by destruct (n <? 0), (fPlus && (0 <? n))%bool.
  - rewrite Ef in Hd. by apply Forall_app in Hd as [? _].
  - lia.
  - lia.
  - rewrite <- Hu, Ef, units_trailing; [done | rewrite length_reverse; lia].
  - rewrite last_reverse. done.
Qed.

(** Reading a fraction: each digit counts ten times less than the one before it. *)
Lemma parse_units_digits frac rest k u : all_digits frac -> (length frac <= k <= 8)%nat -> 0 <= u -> u + 10 ^ Z.of_nat k <= COIN ->
  parse_units (frac ++ rest) (10 ^ Z.of_nat k / 10) u =
  parse_units rest (10 ^ Z.of_nat (k - length frac) / 10) (u + atoi64 frac * 10 ^ Z.of_nat (k - length frac)).
Proof.
  intros Hd. revert k u. induction Hd as [|c frac Hc Hd IH]; intros k u Hk Hu Hb; cbn [length app] in *.
  - rewrite Nat.sub_0_r. f_equal. cbn. lia.
  - destruct k as [|k]; [lia|]. cbn [parse_units]. rewrite Hc. apply isdigit_iff in Hc.
    rewrite Nat2Z.inj_succ, Z.pow_succ_r in * by lia. assert (0 < 10 ^ Z.of_nat k) by (apply Z.pow_pos_nonneg; lia).
    replace (10 * 10 ^ Z.of_nat k / 10) with (10 ^ Z.of_nat k) by (Z.div_mod_to_equations; lia).
    destruct (Z.ltb_spec 0 (10 ^ Z.of_nat k)); [cbn [andb] | lia].
    unfold COIN in *. rewrite (s64_small (_ * _)), s64_small by nia. rewrite IH by nia.
    replace (S k - S (length frac))%nat with (k - length frac)%nat by lia. f_equal. rewrite atoi64_cons.
    replace (Z.of_nat k) with (Z.of_nat (length frac) + Z.of_nat (k - length frac)) at 1 by lia.
    rewrite Z.pow_add_r by lia. ring.
Qed.

(** A text is its digits and a rest that does not start with one. *)
Lemma span_digits p : exists ds rest, p = ds ++ rest /\ all_digits ds /\ (forall c l, rest = c :: l -> isdigit c = false).
Proof.
  induction p as [|c p (ds & rest & E & Hd & Hr)]; [by exists [], []|].
  destruct (isdigit c) eqn:Hc.
  - exists (c :: ds), rest. rewrite E. split_and!; [done | by constructor | done].
  - exists [], (c :: p). split_and!; [done..|]. intros ? ? [= -> ->]. done.
Qed.

Lemma parse_units_stop p u k : (forall c l, p = c :: l -> isdigit c = false) -> parse_units p k u = (u, p).
Proof. destruct p as [|c p]; intros H; [done|]. cbn. by rewrite (H c p). Qed.

Lemma parse_units_exact frac rest : all_digits frac -> (length frac <= 8)%nat -> (forall c l, rest = c :: l -> isdigit c = false) ->
  parse_units (frac ++ rest) (CENT * 10) 0 = (units frac, rest).
Proof.
  intros Hd Hl Hr. change (CENT * 10) with (10 ^ Z.of_nat 8 / 10). rewrite parse_units_digits by (done || lia).
  rewrite parse_units_stop by done. unfold units. by rewrite Nat2Z.inj_sub by lia.
Qed.

(** More than eight digits leave a digit behind. *)
Lemma parse_units_long frac rest : all_digits frac -> (8 < length frac)%nat ->
  exists u c l, parse_units (frac ++ rest) (CENT * 10) 0 = (u, c :: l) /\ isdigit c = true.
Proof.
  intros Hd Hl. rewrite <- (take_drop 8 frac) in Hd |- *. apply Forall_app in Hd as [Hd1 Hd2].
  assert (E : length (take 8 frac) = 8%nat) by (rewrite length_take; lia).
  destruct (drop 8 frac) as [|c l] eqn:Ed; [apply (f_equal length) in Ed; rewrite length_drop in Ed; cbn in Ed; lia|].
  rewrite <- app_assoc. change (CENT * 10) with (10 ^ Z.of_nat 8 / 10). rewrite parse_units_digits by (done || lia).
  rewrite E. cbn [Nat.sub]. change (10 ^ Z.of_nat 0 / 10) with 0. cbn [app parse_units].
  rewrite andb_false_r. eexists _, _, _. split; [done|]. by inversion Hd2.
Qed.

(** The loop over the whole coins. *)
Lemma parse_whole_digits whole p acc : all_digits whole -> parse_whole (whole ++ p) acc = parse_whole p (acc ++ whole).
Proof.
  intros Hd. revert acc. induction Hd as [|c whole Hc Hd IH]; intros acc; [by rewrite app_nil_r|].
  cbn [app parse_whole]. destruct (digit_not_space c Hc) as [-> ->]. rewrite Hc. cbn [negb]. rewrite IH, <- app_assoc. done.
Qed.

Lemma forallb_spaces l : forallb isspace l = true <-> all_spaces l.
Proof. rewrite forallb_forall, Forall_forall. split; intros H x Hx; apply H; by apply list_elem_of_In. Qed.

Lemma drop_spaces s : exists ws, s = ws ++ drop_while isspace s /\ all_spaces ws.
Proof.
  induction s as [|c s (ws & E & Hw)]; [by exists []|]. cbn [drop_while]. destruct (isspace c) eqn:Hc.
  - exists (c :: ws). cbn. rewrite <- E. split; [done | by constructor].
  - by exists [].
Qed.

Lemma drop_while_spaces ws p : all_spaces ws -> drop_while isspace (ws ++ p) = drop_while isspace p.
Proof. induction 1 as [|c ws Hc Hw IH]; [done|]. cbn. by rewrite Hc. Qed.

(** The texts that are amounts, and the amount of each: spaces, at most ten digits, then a
    point and at most eight digits or neither, and spaces. *)
Definition money_text (s : list Z) (n : Z) : Prop := exists ws whole point frac trail,
  s = ws ++ whole ++ point ++ trail /\ all_spaces ws /\ all_digits whole /\ (length whole <= 10)%nat /\
  ((point = [] /\ frac = []) \/ point = 46 :: frac) /\ all_digits frac /\ (length frac <= 8)%nat /\ all_spaces trail /\
  n = atoi64 whole * COIN + units frac.

(** The end of [ParseMoney]. *)
Lemma ParseMoney_value whole frac : all_digits whole -> (length whole <= 10)%nat -> all_digits frac -> (length frac <= 8)%nat ->
  (if (10 <? length whole)%nat then None
   else if ((units frac <? 0) || (COIN <? units frac))%bool then None
   else Some (s64 (s64 (atoi64 whole * COIN) + units frac))) = Some (atoi64 whole * COIN + units frac).
Proof.
  intros Hw Hl Hf Hl'. pose proof (units_bound frac Hf Hl') as Hu. pose proof (atoi64_bound whole Hw) as Ha.
  assert (10 ^ Z.of_nat (length whole) <= 10 ^ 10) by (apply Z.pow_le_mono_r; lia).
  destruct (Nat.ltb_spec 10 (length whole)); [lia|].
  destruct (Z.ltb_spec (units frac) 0), (Z.ltb_spec COIN (units frac)); cbn [orb]; try lia.
  unfold COIN in *. rewrite (s64_small (atoi64 whole * _)), s64_small by lia. done.
Qed.

Lemma ParseMoney_accepts s n : money_text s n -> ParseMoney s = Some n.
Proof.
  intros (ws & whole & point & frac & trail & -> & Hws & Hw & Hlw & Hp & Hf & Hlf & Ht & ->).
  unfold ParseMoney. rewrite drop_while_spaces by done.
  assert (Htd : forall c l, trail = c :: l -> isdigit c = false) by (intros c l ->; inversion Ht; by apply space_not_digit).
  destruct (decide (whole ++ point = [])) as [Hnil|Hne].
  - apply app_eq_nil in Hnil as [-> ->]. destruct Hp as [[_ ->]|?]; [|done]. cbn [app].
    rewrite <- (app_nil_r trail), drop_while_spaces by done. done.
  - replace (drop_while isspace (whole ++ point ++ trail)) with (whole ++ point ++ trail).
    + rewrite parse_whole_digits by done. cbn [app].
      replace (parse_whole (point ++ trail) whole) with (Some (whole, units frac, trail)).
      * apply forallb_spaces in Ht. rewrite Ht. cbn [negb]. by apply ParseMoney_value.
      * destruct Hp as [[-> ->]| ->]; cbn [app]; [|cbn [parse_whole Z.eqb Pos.eqb]; by rewrite parse_units_exact].
        destruct trail as [|c trail]; [done|]. cbn [parse_whole].
        inversion Ht as [|? ? Hc]; subst. destruct (space_not_digit c Hc) as [_ ->]. by rewrite Hc.
    + destruct whole as [|c whole]; cbn [app]; [by destruct Hp as [[-> _]| ->]|].
      cbn [drop_while]. inversion Hw as [|? ? Hc]; subst. by destruct (digit_not_space c Hc) as [-> _].
Qed.

Lemma ParseMoney_only s n : ParseMoney s = Some n -> money_text s n.
Proof.
  unfold ParseMoney. destruct (drop_spaces s) as (ws & Es & Hws). set (p := drop_while isspace s) in *. rewrite Es. clearbody p.
  destruct (span_digits p) as (whole & t & -> & Hw & Ht). rewrite parse_whole_digits by done. cbn [app].
  assert (Hfin : forall point frac trail, t = point ++ trail -> ((point = [] /\ frac = []) \/ point = 46 :: frac) ->
    all_digits frac -> (length frac <= 8)%nat -> parse_whole t whole = Some (whole, units frac, trail) ->
    match parse_whole t whole with
    | None => None
    | Some (strWhole, nUnits, rest) =>
        if negb (forallb isspace rest) then None
        else if (10 <? length strWhole)%nat then None
        else if ((nUnits <? 0) || (COIN <? nUnits))%bool then None
        else Some (s64 (s64 (atoi64 strWhole * COIN) + nUnits))
    end = Some n -> money_text (ws ++ whole ++ t) n).
  { intros point frac trail Et Hp Hf Hl -> H. destruct (forallb isspace trail) eqn:Hs; [cbn [negb] in H | done].
    destruct (Nat.leb_spec (length whole) 10).
    - rewrite ParseMoney_value in H by done. injection H as <-. exists ws, whole, point, frac, trail.
      apply forallb_spaces in Hs. rewrite Et. done.
    - by destruct (Nat.ltb_spec 10 (length whole)); [|lia]. }
  destruct t as [|c t]; [apply (Hfin [] [] []); [done | by left | done | cbn; lia | done]|].
  cbn [parse_whole] in *. destruct (Z.eqb_spec c 46) as [->|].
  - destruct (span_digits t) as (frac & rest & -> & Hf & Hr). destruct (Nat.leb_spec (length frac) 8).
    + rewrite parse_units_exact in * by done. apply (Hfin (46 :: frac) frac rest); by auto.
    + destruct (parse_units_long frac rest) as (u & d & l & -> & Hd); [done | lia|].
      cbn [forallb]. destruct (digit_not_space d Hd) as [-> _]. done.
  - destruct (isspace c) eqn:Hc; [apply (Hfin [] [] (c :: t)); [done | by left | done | cbn; lia | done]|]. by rewrite (Ht c t).
Qed.

Lemma decimal_abs_length n : 10 ^ 10 <= n -> (10 < length (decimal_abs n))%nat.
Proof.
  intros. destruct (decimal_abs_spec n) as (Hd & Hv & _); [lia|]. pose proof (atoi64_bound _ Hd) as B.
  destruct (Nat.ltb_spec 10 (length (decimal_abs n))); [done|].
  assert (10 ^ Z.of_nat (length (decimal_abs n)) <= 10 ^ 10) by (apply Z.pow_le_mono_r; lia). lia.
Qed.

(** A sign is not part of an amount. *)
Lemma ParseMoney_sign c s : c = 45 \/ c = 43 -> ParseMoney (c :: s) = None.
Proof. by intros [-> | ->]. Qed.

Lemma ParseMoney_FormatMoney n fPlus : - 2 ^ 63 < n < 2 ^ 63 ->
  ParseMoney (FormatMoney n fPlus) = if ((0 <=? n) && (n <? 10 ^ 10 * COIN) && negb (fPlus && (0 <? n)))%bool then Some n else None.
Proof.
  intros Hn. destruct (FormatMoney_shape n fPlus Hn) as (frac & -> & Hf & Hl & Hu & _).
  destruct (Z.ltb_spec n 0); [by destruct (Z.leb_spec 0 n); [lia|]; apply ParseMoney_sign; left|].
  destruct (Z.leb_spec 0 n); [|lia]. cbn [andb].
  destruct (fPlus && (0 <? n))%bool; [rewrite andb_false_r; by apply ParseMoney_sign; right|]. rewrite andb_true_r. cbn [app].
  rewrite Z.abs_eq in * by done. assert (Hq : 0 <= n / COIN) by (by apply Z.div_pos).
  destruct (decimal_abs_spec (n / COIN) Hq) as (Hd & Hv & Hk).
  destruct (Z.ltb_spec n (10 ^ 10 * COIN)).
  - apply ParseMoney_accepts. exists [], (decimal_abs (n / COIN)), (46 :: frac), frac, [].
    rewrite app_nil_r, Hv, Hu. split_and!; [done..| | by right | done | lia | done |].
    + apply Hk; [lia|]. apply Z.div_lt_upper_bound; [done|]. change (Z.of_nat 10) with 10. lia.
    + rewrite Z.mul_comm. by apply Z.div_mod.
  - destruct (ParseMoney _) as [m|] eqn:E; [|done]. exfalso. unfold ParseMoney in E.
    assert (10 < length (decimal_abs (n / COIN)))%nat by (apply decimal_abs_length, Z.div_le_lower_bound; [done | lia]).
    destruct (decimal_abs (n / COIN)) as [|c ds] eqn:Ed; [cbn in *; lia|]. cbn [app drop_while] in E.
    inversion Hd as [|? ? Hc]; subst. destruct (digit_not_space c Hc) as [Hs _]. rewrite Hs, (app_comm_cons ds), parse_whole_digits in E by done.
    cbn [app parse_whole Z.eqb Pos.eqb] in E. destruct (parse_units frac (CENT * 10) 0) as [u rest].
    destruct (negb _); [done|]. destruct (Nat.ltb_spec 10 (length (c :: ds))); [done | cbn in *; lia].
Qed.

(** ** Facts: splitting and matching *)

(** The pieces joined with the separator. *)
Fixpoint join_with (c : Z) (l : list (list Z)) : list Z :=
  match l with
  | [] => []
  | [s] => s
  | s :: l => s ++ c :: join_with c l
  end.

Lemma join_cons c s l : l <> [] -> join_with c (s :: l) = s ++ c :: join_with c l.
Proof. by destruct l. Qed.

Lemma split_at_spec c str cur : c ∉ cur ->
  split_at c str cur <> [] /\ join_with c (split_at c str cur) = reverse cur ++ str /\ Forall (fun s => c ∉ s) (split_at c str cur).
Proof.
  revert cur. induction str as [|x str IH]; intros cur Hc; cbn [split_at].
  - split_and!; [done | by rewrite app_nil_r | constructor; [by rewrite elem_of_reverse | done]].
  - destruct (Z.eqb_spec x c) as [->|].
    + destruct (IH []) as (Hn & Hj & Hf); [apply not_elem_of_nil|]. split_and!; [done | | ].
      * rewrite join_cons, Hj by done. done.
      * constructor; [by rewrite elem_of_reverse | done].
    + destruct (IH (x :: cur)) as (Hn & Hj & Hf); [by apply not_elem_of_cons|]. split_and!; [done | | done].
      rewrite Hj, reverse_cons, <- app_assoc. done.
Qed.

(** What a mask means: a star is any text, a question mark any character. *)
Inductive glob : list Z -> list Z -> Prop :=
| glob_end : glob [] []
| glob_star mask s t : glob mask t -> glob (42 :: mask) (s ++ t)
| glob_any mask c s : glob mask s -> glob (63 :: mask) (c :: s)
| glob_char mask c s : c <> 42 -> c <> 63 -> glob mask s -> glob (c :: mask) (c :: s).

Lemma WildcardMatch_star mask psz : WildcardMatch (42 :: mask) psz = true <-> exists s t, psz = s ++ t /\ WildcardMatch mask t = true.
Proof.
  cbn [WildcardMatch Z.eqb Pos.eqb]. split.
  - induction psz as [|c psz IH]; intros [H|H]%orb_true_iff; try done; try by exists [], [].
    + by exists [], (c :: psz).
    + destruct (IH H) as (s & t & -> & Ht). by exists (c :: s), t.
  - intros (s & t & -> & Ht). induction s as [|c s IH]; cbn [app].
    + destruct t; apply orb_true_iff; by left.
    + apply orb_true_iff. by right.
Qed.

Lemma WildcardMatch_glob mask psz : WildcardMatch mask psz = true <-> glob mask psz.
Proof.
  revert psz. induction mask as [|m mask IH]; intros psz.
  - split; [destruct psz; [intros _; apply glob_end | done]|]. by inversion 1.
  - destruct (decide (m = 42)) as [->|H42].
    + rewrite WildcardMatch_star. split.
      * intros (s & t & -> & Ht%IH). by constructor.
      * inversion 1 as [|? s t Ht| |]; subst; [exists s, t; by rewrite IH | done].
    + cbn [WildcardMatch]. destruct (Z.eqb_spec m 42); [done|].
      destruct psz as [|c psz]; [split; [done | by inversion 1]|].
      destruct (Z.eqb_spec m 63) as [->|H63].
      * rewrite IH. split; [by constructor | by inversion 1].
      * destruct (Z.eqb_spec c m) as [->|]; cbn [negb].
        -- rewrite IH. split; [by constructor | by inversion 1; subst].
        -- split; [done | by inversion 1; subst].
Qed.

(** ** Claims *)

(** C26: bytes written as Base64, as Base32 or as hexadecimal, with or without spaces,
    are read back, and neither decoder reports the text as invalid. *)
Theorem text_roundtrip v fSpaces : bytes_ok v ->
  DecodeBase64 (EncodeBase64 v) = (v, false) /\ DecodeBase32 (EncodeBase32 v) = (v, false) /\
  ParseHex (HexStr v fSpaces) = v.
Proof.
  intros Hv. destruct (decode64_encode v Hv) as [H64 _], (decode32_encode v Hv) as [H32 _].
  specialize (H64 0 0). specialize (H32 0 0). unfold DecodeBase64, DecodeBase32, EncodeBase64, EncodeBase32.
  destruct (decode64_loop _ 0 0) as [v1 [[m1 b1] r1]], (decode32_loop _ 0 0) as [v2 [[m2 b2] r2]].
  destruct H64 as [H1 H2], H32 as [H3 H4]. cbn in H1, H2, H3, H4. subst. rewrite H2, H4.
  split_and!; [done..|]. by apply ParseHex_HexStr.
Qed.

Lemma text_roundtrip_witness : DecodeBase64 (EncodeBase64 [0; 255; 16; 7]) = ([0; 255; 16; 7], false).
Proof. apply (text_roundtrip [0; 255; 16; 7] true). by apply bytes_okb_spec. Defined.

(** C27: the texts [ParseMoney] accepts are exactly spaces, at most ten digits, a point with
    at most eight digits or neither, and spaces, with the amount they denote and no
    overflow; and the text [FormatMoney] gives for an amount is read back as that amount,
    except with a sign and from ten thousand million coins on, where it is refused. *)
Theorem money_text_exact :
  (forall s n, ParseMoney s = Some n <-> money_text s n) /\
  (forall n fPlus, - 2 ^ 63 < n < 2 ^ 63 ->
     ParseMoney (FormatMoney n fPlus) =
     if ((0 <=? n) && (n <? 10 ^ 10 * COIN) && negb (fPlus && (0 <? n)))%bool then Some n else None).
Proof. split; [split; [apply ParseMoney_only | apply ParseMoney_accepts] | apply ParseMoney_FormatMoney]. Qed.

Lemma money_text_exact_witness : ParseMoney (FormatMoney 150000000 false) = Some 150000000.
Proof. apply (proj2 money_text_exact 150000000 false). by split. Defined.

(** A string matches a mask exactly when the mask, with a star as any text and a
    question mark as any character, describes it. *)
Theorem wildcard_match_exact mask psz : WildcardMatch mask psz = true <-> glob mask psz.
Proof. apply WildcardMatch_glob. Qed.

(** The pieces of a split string, joined with the separator, are the string, and none has the separator in it. *)
Theorem parse_string_pieces str c : str <> [] ->
  join_with c (ParseString str c []) = str /\ Forall (fun s => c ∉ s) (ParseString str c []).
Proof. destruct str as [|x str]; [done|]. intros _. apply (split_at_spec c (x :: str) []). apply not_elem_of_nil. Qed.
