(* ===== verification/Peers.v ===== *)
(** * What a node keeps of its peers (util.h, util.cpp, net.cpp)

    The median filters of the peers' clocks and heights, the offset of the network's
    time, the misbehaviour score of a peer and the banned addresses. *)

From stdpp Require Import sorting.
From S2P Require Import Prelude Uint256 Serialize Tx NetAddr.

(** ** Median filter *)

Record CMedianFilter := mkFilter { vValues : list Z; vSorted : list Z; mf_nSize : nat; tInitial : Z }.

Definition median_filter (size : nat) (initial_value : Z) : CMedianFilter :=
  mkFilter [initial_value] [initial_value] size initial_value.

(** Copy the values and sort them. *)
Definition set_values (v : list Z) (m : CMedianFilter) : CMedianFilter :=
  mkFilter v (merge_sort Z.le v) (mf_nSize m) (tInitial m).

Definition input (value : Z) (m : CMedianFilter) : CMedianFilter :=
  let v := if (length (vValues m) =? mf_nSize m)%nat then drop 1 (vValues m) else vValues m in
  set_values (v ++ [value]) m.

Fixpoint erase_first (value : Z) (l : list Z) : list Z :=
  match l with
  | [] => []
  | x :: l => if x =? value then l else x :: erase_first value l
  end.

Definition removeLast (value : Z) (m : CMedianFilter) : CMedianFilter :=
  let v := reverse (erase_first value (reverse (vValues m))) in
  set_values (match v with [] => [tInitial m] | _ => v end) m.

(** The wrap-around of the type of the values counts in the sum of the two middle ones. *)
Definition median (wrap : Z -> Z) (m : CMedianFilter) : Z :=
  let size := length (vSorted m) in
  if Nat.odd size then nth (size / 2) (vSorted m) 0
  else Z.quot (wrap (nth (size / 2 - 1) (vSorted m) 0 + nth (size / 2) (vSorted m) 0)) 2.

Definition mf_size (m : CMedianFilter) : nat := length (vValues m).

(** [max(cPeerBlockCounts.median(), GetTotalBlocksEstimate())] *)
Definition GetNumBlocksOfPeers (cPeerBlockCounts : CMedianFilter) (nEstimate : Z) : Z :=
  Z.max (median s32 cPeerBlockCounts) nEstimate.

(** ** The time of the network *)

(** util.h.  The negation of the least integer is undefined in C++; here it wraps around,
    as it does in the machine instruction. *)
Definition abs64 (n : Z) : Z := if 0 <=? n then n else s64 (- n).

Record time_data := mkTime {
  t_setKnown : gset CNetAddr; vTimeOffsets : CMedianFilter; nTimeOffset : Z;
  fDone : bool; clock_warning : bool;   (* whether [strMiscWarning] has been set *)
}.

Definition time_init : time_data := mkTime ∅ (median_filter 200 0) 0 false false.

Definition GetAdjustedTime (GetTime : Z) (t : time_data) : Z := s64 (GetTime + nTimeOffset t).

(** [GetTime] is the clock at the call. *)
Definition AddTimeData (ip : CNetAddr) (nTime GetTime : Z) (t : time_data) : time_data :=
  let nOffsetSample := s64 (nTime - GetTime) in
  if decide (ip ∈ t_setKnown t) then t
  else
    let known := {[ip]} ∪ t_setKnown t in
    let f := input nOffsetSample (vTimeOffsets t) in
    if ((5 <=? mf_size f)%nat && Nat.odd (mf_size f))%bool then
      let nMedian := median s64 f in
      if abs64 nMedian <? 70 * 60 then mkTime known f nMedian (fDone t) (clock_warning t)
      else
        let fMatch := existsb (fun nOffset => negb (nOffset =? 0) && (abs64 nOffset <? 5 * 60))%bool (vSorted f) in
        if (negb (fDone t) && negb fMatch)%bool then mkTime known f 0 true true
        else mkTime known f 0 (fDone t) (clock_warning t)
    else mkTime known f (nTimeOffset t) (fDone t) (clock_warning t).

(** A sequence of samples: the address of the peer, its time and ours. *)
Definition add_samples (l : list (CNetAddr * Z * Z)) (t : time_data) : time_data :=
  foldl (fun t '(ip, nTime, now) => AddTimeData ip nTime now t) t l.

(** ** Misbehaviour and bans *)

Record CNode := mkNode {
  nd_addr : CNetAddr; nd_nVersion : Z; nd_strSubVer : list Z; nd_setKnown : gset uint256;
  nd_nMisbehavior : Z; nd_nStartingHeight : Z; nd_fDisconnect : bool; nd_open : bool;   (* hSocket != INVALID_SOCKET *)
}.

Record ban_state := mkBans { setBanned : gmap CNetAddr Z; cPeerBlockCounts : CMedianFilter }.

Definition ClearBanned (b : ban_state) : ban_state := mkBans ∅ (cPeerBlockCounts b).

Definition IsBanned (GetTime : Z) (ip : CNetAddr) (b : ban_state) : bool :=
  match setBanned b !! ip with Some t => GetTime <? t | None => false end.

Definition set_known (k : gset uint256) (n : CNode) : CNode :=
  mkNode (nd_addr n) (nd_nVersion n) (nd_strSubVer n) k (nd_nMisbehavior n) (nd_nStartingHeight n) (nd_fDisconnect n) (nd_open n).
Definition set_score (s : Z) (n : CNode) : CNode :=
  mkNode (nd_addr n) (nd_nVersion n) (nd_strSubVer n) (nd_setKnown n) s (nd_nStartingHeight n) (nd_fDisconnect n) (nd_open n).

Definition CloseSocketDisconnect (n : CNode) : CNode :=
  mkNode (nd_addr n) (nd_nVersion n) (nd_strSubVer n) (nd_setKnown n) (nd_nMisbehavior n) (nd_nStartingHeight n) true false.

(** The arguments [-banscore] and [-bantime] are parameters. *)
Definition Misbehaving (banscore bantime GetTime : Z) (howmuch : Z) (n : CNode) (b : ban_state) : bool * CNode * ban_state :=
  if IsLocal (nd_addr n) then (false, n, b)
  else
    let n := set_score (s32 (nd_nMisbehavior n + howmuch)) n in
    if banscore <=? nd_nMisbehavior n then
      let banTime := s64 (GetTime + bantime) in
      let banned :=
        if default 0 (setBanned b !! nd_addr n) <? banTime then <[nd_addr n := banTime]> (setBanned b)
        else <[nd_addr n := default 0 (setBanned b !! nd_addr n)]> (setBanned b) in
      (true, CloseSocketDisconnect n, mkBans banned (removeLast (nd_nStartingHeight n) (cPeerBlockCounts b)))
    else (false, n, b).

(** ** Facts: the median *)

(** A median filter holds between one value and its size, sorted on the side. *)
Record filter_ok (m : CMedianFilter) : Prop := {
  fo_sorted : vSorted m = merge_sort Z.le (vValues m) \/ (exists x, vSorted m = [x] /\ vValues m = [x]);
  fo_bound : (1 <= length (vValues m) <= mf_nSize m)%nat;
}.

Lemma vSorted_perm m : filter_ok m -> vSorted m ≡ₚ vValues m /\ StronglySorted Z.le (vSorted m).
Proof.
  intros [[->|(x & -> & ->)] _].
  - split; [apply merge_sort_Permutation | apply StronglySorted_merge_sort; apply _].
  - split; [done|]. repeat constructor.
Qed.

Lemma median_filter_ok size v : (1 <= size)%nat -> filter_ok (median_filter size v).
Proof. split; cbn; [right; by exists v | lia]. Qed.

Lemma set_values_ok v m : (1 <= length v <= mf_nSize m)%nat -> filter_ok (set_values v m).
Proof. split; cbn; [by left | done]. Qed.

Lemma input_ok x m : filter_ok m -> filter_ok (input x m).
Proof.
  intros [_ H]. apply set_values_ok. rewrite length_app. cbn [length].
  destruct (Nat.eqb_spec (length (vValues m)) (mf_nSize m)); [rewrite length_drop|]; lia.
Qed.

Lemma erase_first_length x l : (length (erase_first x l) <= length l)%nat.
Proof. induction l as [|y l IH]; cbn; [lia|]. destruct (y =? x); cbn; lia. Qed.

Lemma removeLast_ok x m : filter_ok m -> filter_ok (removeLast x m).
Proof.
  intros [_ H]. apply set_values_ok. destruct (reverse (erase_first x (reverse (vValues m)))) eqn:E; [cbn; lia|].
  rewrite <- E, length_reverse. pose proof (erase_first_length x (reverse (vValues m))) as L. rewrite length_reverse in L.
  apply (f_equal length) in E. rewrite length_reverse in E. cbn in E. lia.
Qed.

(** How many of the values lie in a range. *)
Definition in_range (lo hi : Z) (l : list Z) : nat := length (filter (fun x => lo <= x <= hi) l).

Lemma in_range_none lo hi l : (forall x, x ∈ l -> ~ (lo <= x <= hi)) -> in_range lo hi l = O.
Proof.
  intros H. unfold in_range. destruct (filter _ l) as [|x k] eqn:E; [done|]. exfalso.
  assert (x ∈ filter (fun x => lo <= x <= hi) l) as [Hx Hin]%list_elem_of_filter by (rewrite E; by left).
  by apply (H x).
Qed.

Lemma in_range_app lo hi l k : in_range lo hi (l ++ k) = (in_range lo hi l + in_range lo hi k)%nat.
Proof. unfold in_range. by rewrite filter_app, length_app. Qed.

Lemma in_range_le lo hi l : (in_range lo hi l <= length l)%nat.
Proof. apply length_filter. Qed.

(** A range that holds more than half of an odd number of values holds the median. *)
Lemma median_majority wrap m lo hi : filter_ok m -> Nat.odd (mf_size m) = true ->
  (length (vValues m) < 2 * in_range lo hi (vValues m))%nat -> lo <= median wrap m <= hi.
Proof.
  intros Hm Hodd Hmaj. destruct (vSorted_perm m Hm) as [Hp Hs]. unfold mf_size in Hodd.
  unfold median. rewrite (Permutation_length Hp), Hodd.
  assert (Er : in_range lo hi (vValues m) = in_range lo hi (vSorted m)) by (unfold in_range; by rewrite Hp).
  rewrite Er in Hmaj. rewrite <- (Permutation_length Hp) in Hmaj, Hodd |- *.
  apply Nat.odd_spec in Hodd as [k Hk]. replace (length (vSorted m) / 2)%nat with k by (rewrite Hk; apply (Nat.div_unique _ 2 k 1); lia).
  remember (vSorted m) as l eqn:El. clear El Hp Er.
  assert (Hlk : (k < length l)%nat) by lia. destruct (lookup_lt_is_Some_2 l k Hlk) as [x Hx].
  rewrite (nth_lookup_Some _ _ _ x Hx). rewrite <- (take_drop_middle l k x Hx) in Hs, Hmaj.
  assert (Lt : length (take k l) = k) by (rewrite length_take; lia).
  assert (Ld : length (drop (S k) l) = k) by (rewrite length_drop; lia).
  rewrite length_app in Hmaj. cbn [length] in Hmaj. rewrite Lt, Ld in Hmaj.
  pose proof (in_range_le lo hi (take k l)). pose proof (in_range_le lo hi (drop (S k) l)).
  apply StronglySorted_app in Hs as (Hlow & _ & Hs). apply StronglySorted_cons in Hs as [Hup _].
  rewrite Forall_forall in Hup.
  destruct (Z.le_gt_cases lo x) as [|Hlo]; [destruct (Z.le_gt_cases x hi) as [|Hhi]; [done|]|]; exfalso.
  - rewrite in_range_app, (in_range_none lo hi (x :: _)) in Hmaj; [lia|].
    intros y [->|Hy%Hup]%elem_of_cons; lia.
  - change (x :: drop (S k) l) with ([x] ++ drop (S k) l) in Hmaj. rewrite app_assoc, in_range_app, (in_range_none lo hi (take k l ++ [x])) in Hmaj; [lia|].
    intros y [Hy|Hy%list_elem_of_singleton]%elem_of_app; [|lia].
    specialize (Hlow y x Hy ltac:(by left)). lia.
Qed.

(** ** Facts: the time of the network *)

Lemma median_in wrap m : filter_ok m -> Nat.odd (mf_size m) = true -> median wrap m ∈ vValues m.
Proof.
  intros Hm Hodd. destruct (vSorted_perm m Hm) as [Hp _]. unfold mf_size in Hodd. unfold median.
  rewrite <- (Permutation_length Hp) in Hodd. rewrite Hodd, <- Hp. apply list_elem_of_In, nth_In.
  destruct (vSorted m); [done|]. apply Nat.div_lt; cbn; lia.
Qed.

Lemma input_values x m y : y ∈ vValues (input x m) -> y = x \/ y ∈ vValues m.
Proof.
  cbn. intros [H|H%list_elem_of_singleton]%elem_of_app; [right|by left].
  destruct (_ =? _)%nat; [|done]. by apply (subseteq_drop 1) in H.
Qed.

Lemma input_size x m : (1 <= mf_nSize m)%nat -> mf_size (input x m) = (if (length (vValues m) =? mf_nSize m)%nat then mf_nSize m else S (mf_size m)).
Proof.
  intros. unfold mf_size. cbn. rewrite length_app. cbn [length].
  destruct (Nat.eqb_spec (length (vValues m)) (mf_nSize m)); [rewrite length_drop|]; lia.
Qed.

(** What a sample does to the offset. *)
Lemma AddTimeData_offset ip nTime now t :
  let t' := AddTimeData ip nTime now t in
  let f := input (s64 (nTime - now)) (vTimeOffsets t) in
  ((ip ∈ t_setKnown t) /\ t' = t) \/
  ((ip ∉ t_setKnown t) /\ vTimeOffsets t' = f /\ t_setKnown t' = {[ip]} ∪ t_setKnown t /\
   (nTimeOffset t' = nTimeOffset t \/ Nat.odd (mf_size f) = true /\
      (nTimeOffset t' = 0 \/ nTimeOffset t' = median s64 f /\ abs64 (median s64 f) < 70 * 60))).
Proof.
  unfold AddTimeData. destruct (decide (ip ∈ t_setKnown t)); [by left|right]. cbv zeta.
  set (f := input _ _). destruct (Nat.odd (mf_size f)) eqn:Ho; [rewrite andb_true_r|rewrite andb_false_r; cbn; auto].
  destruct (5 <=? mf_size f)%nat; [|cbn; auto].
  destruct (Z.ltb_spec (abs64 (median s64 f)) (70 * 60)); [cbn; split_and!; try done; right; split; [done|]; by right|].
  destruct (negb (fDone t) && negb (existsb _ (vSorted f)))%bool; cbn; split_and!; try done; right; split; try done; by left.
Qed.

(** Only the difference of the times counts. *)
Lemma AddTimeData_sample ip n w t n' w' : n - w = n' - w' -> AddTimeData ip n w t = AddTimeData ip n' w' t.
Proof. intros E. unfold AddTimeData. by rewrite E. Qed.

(** Every sequence of samples keeps the filter well formed, counts the addresses and keeps the
    samples themselves. *)
Record time_ok (samples : list (CNetAddr * Z * Z)) (t : time_data) : Prop := {
  to_filter : filter_ok (vTimeOffsets t);
  to_nSize : mf_nSize (vTimeOffsets t) = 200%nat;
  to_known : t_setKnown t = list_to_set (map (fun s => fst (fst s)) samples);
  to_size : mf_size (vTimeOffsets t) = Nat.min 200 (S (size (t_setKnown t)));
  to_values : forall v, v ∈ vValues (vTimeOffsets t) -> v = 0 \/ exists ip nTime now, (ip, nTime, now) ∈ samples /\ v = s64 (nTime - now);
}.

Lemma time_init_ok : time_ok [] time_init.
Proof.
  split; [by apply median_filter_ok; lia | done | done | done |]. cbn. intros v H%list_elem_of_singleton. by left.
Qed.

Lemma AddTimeData_ok samples ip nTime now t : time_ok samples t -> time_ok (samples ++ [(ip, nTime, now)]) (AddTimeData ip nTime now t).
Proof.
  intros [Hf Hn Hk Hs Hv]. pose proof (AddTimeData_offset ip nTime now t) as Hcases. cbv zeta in Hcases.
  assert (Hmap : list_to_set (C := gset CNetAddr) (map (fun s => fst (fst s)) (samples ++ [(ip, nTime, now)])) = t_setKnown t ∪ {[ip]}).
  { rewrite map_app, list_to_set_app_L, Hk. cbn. set_solver. }
  assert (Hold : forall v, v = 0 \/ (exists ip nTime now, (ip, nTime, now) ∈ samples /\ v = s64 (nTime - now)) ->
    v = 0 \/ exists i n w, (i, n, w) ∈ samples ++ [(ip, nTime, now)] /\ v = s64 (n - w)).
  { intros v [->|(i & n & w & Hin & ->)]; [by left|right]. exists i, n, w. split; [|done]. apply elem_of_app. by left. }
  destruct Hcases as [[Hin ->]|(Hin & Ef & Ek & _)].
  - split; [done..| | done |]; [rewrite Hmap; set_solver | intros v H; by apply Hold, Hv].
  - split; rewrite ?Ef, ?Ek.
    + by apply input_ok.
    + done.
    + rewrite Hmap. set_solver.
    + rewrite input_size by (rewrite Hn; lia). rewrite Hn. fold (mf_size (vTimeOffsets t)). rewrite Hs.
      rewrite size_union by (apply disjoint_singleton_l; done). rewrite size_singleton.
      destruct (Nat.eqb_spec (Nat.min 200 (S (size (t_setKnown t)))) 200); lia.
    + intros v [->|H]%input_values; [|by apply Hold, Hv]. right. exists ip, nTime, now.
      split; [apply elem_of_app; right; by left | done].
Qed.

Lemma add_samples_app l k t : add_samples (l ++ k) t = add_samples k (add_samples l t).
Proof. apply foldl_app. Qed.

Lemma add_samples_ok l : time_ok l (add_samples l time_init).
Proof.
  induction l as [|[[ip nTime] now] l IH] using rev_ind; [apply time_init_ok|].
  rewrite add_samples_app. by apply AddTimeData_ok.
Qed.

Lemma abs64_bound n b : - 2 ^ 63 < n < 2 ^ 63 -> abs64 n < b -> - b < n < b.
Proof. intros ?. unfold abs64. destruct (Z.leb_spec 0 n); [lia|]. rewrite s64_small by lia. lia. Qed.

(** Once the filter is full, its size is even for ever. *)
Lemma full_filter_frozen samples ip nTime now t : time_ok samples t -> mf_size (vTimeOffsets t) = 200%nat ->
  nTimeOffset (AddTimeData ip nTime now t) = nTimeOffset t /\ mf_size (vTimeOffsets (AddTimeData ip nTime now t)) = 200%nat.
Proof.
  intros Ht Hs. assert (E : mf_size (input (s64 (nTime - now)) (vTimeOffsets t)) = 200%nat).
  { rewrite input_size, (to_nSize _ _ Ht) by (rewrite (to_nSize _ _ Ht); lia). fold (mf_size (vTimeOffsets t)). by rewrite Hs. }
  destruct (AddTimeData_offset ip nTime now t) as [[_ ->]|(_ & -> & _ & [?|[Ho _]])]; [done | done |].
  rewrite E in Ho. done.
Qed.

(** ** Facts: bans *)

(** A ban is never shortened. *)
Lemma Misbehaving_ban_mono banscore bantime now howmuch n b ip t :
  let '(_, _, b') := Misbehaving banscore bantime now howmuch n b in
  setBanned b !! ip = Some t -> exists t', setBanned b' !! ip = Some t' /\ t <= t'.
Proof.
  unfold Misbehaving. destruct (IsLocal _); [eauto with lia|]. cbv zeta. destruct (banscore <=? _); [|eauto with lia].
  cbn [setBanned nd_addr set_score]. intros H. destruct (decide (nd_addr n = ip)) as [->|].
  - rewrite H. change (default 0 (Some t)) with t. destruct (Z.ltb_spec t (s64 (now + bantime))); cbn; rewrite lookup_insert_eq; eauto with lia.
  - destruct (_ <? _); cbn; rewrite lookup_insert_ne by done; eauto with lia.
Qed.

(** A sequence of misbehaviours of one peer, each with the time of it. *)
Definition misbehave (banscore bantime : Z) (l : list (Z * Z)) (s : CNode * ban_state) : CNode * ban_state :=
  foldl (fun '(n, b) '(now, howmuch) => let '(_, n, b) := Misbehaving banscore bantime now howmuch n b in (n, b)) s l.

Lemma misbehave_score banscore bantime l n b : IsLocal (nd_addr n) = false ->
  Forall (fun e => 0 <= snd e) l -> - 2 ^ 31 <= nd_nMisbehavior n -> nd_nMisbehavior n + sumZ (map snd l) < 2 ^ 31 ->
  let '(n', b') := misbehave banscore bantime l (n, b) in
  nd_addr n' = nd_addr n /\ nd_nMisbehavior n' = nd_nMisbehavior n + sumZ (map snd l).
Proof.
  intros Hl Hf Hlo. revert n b Hl Hlo. induction Hf as [|[now h] l Hh Hf IH]; intros n b Hl Hlo Hb.
  - cbn. split; [done | lia].
  - cbn in Hh, Hb. assert (Hs : 0 <= sumZ (map snd l)) by (apply sumZ_nonneg; by apply Forall_map). unfold sumZ in Hs.
    destruct (Misbehaving banscore bantime now h n b) as [[r n1] b1] eqn:E.
    assert (H1 : nd_addr n1 = nd_addr n /\ nd_nMisbehavior n1 = nd_nMisbehavior n + h).
    { revert E. unfold Misbehaving. rewrite Hl. cbv zeta. cbn [nd_nMisbehavior set_score]. rewrite s32_small by lia.
      destruct (banscore <=? _); intros [= <- <- <-]; done. }
    destruct H1 as [Ea Es]. specialize (IH n1 b1). unfold misbehave in *. cbn [foldl]. rewrite E.
    destruct (foldl _ (n1, b1) l) as [n' b']. rewrite Ea, Es in IH. destruct IH as [-> ->]; unfold sumZ in *; cbn in *; [done | lia | lia |].
    split; [done | lia].
Qed.

(** Below the threshold nothing but the score changes. *)
Lemma misbehave_below banscore bantime l n b : Forall (fun e => 0 <= snd e) l -> - 2 ^ 31 <= nd_nMisbehavior n ->
  nd_nMisbehavior n + sumZ (map snd l) < banscore -> banscore <= 2 ^ 31 ->
  let '(n', b') := misbehave banscore bantime l (n, b) in b' = b /\ nd_fDisconnect n' = nd_fDisconnect n.
Proof.
  intros Hf. revert n b. induction Hf as [|[now h] l Hh Hf IH]; intros n b Hlo Hb Hm; [done|]. cbn in Hh, Hb.
  assert (Hs : 0 <= sumZ (map snd l)) by (apply sumZ_nonneg; by apply Forall_map). unfold misbehave in *. unfold sumZ in *. cbn [foldl].
  unfold Misbehaving at 2. destruct (IsLocal _); [apply IH; lia|]. cbv zeta. cbn [nd_nMisbehavior set_score].
  rewrite s32_small by lia. destruct (Z.leb_spec banscore (nd_nMisbehavior n + h)); [lia|].
  apply (IH (set_score (nd_nMisbehavior n + h) n)); cbn; lia.
Qed.

(** ** Claims *)

(** C20: whatever times the peers claim, the offset of the network's time moves only to zero or to the
    median of the samples held, which lies in every range that holds more than half of them; and it
    stays within seventy minutes, when no claimed time is 2^63 seconds before ours. *)
Theorem time_offset_bounded l ip nTime now :
  let t := add_samples l time_init in
  let t' := AddTimeData ip nTime now t in
  (nTimeOffset t' = nTimeOffset t \/ nTimeOffset t' = 0 \/
   forall lo hi, (mf_size (vTimeOffsets t') < 2 * in_range lo hi (vValues (vTimeOffsets t')))%nat -> lo <= nTimeOffset t' <= hi) /\
  (Forall (fun '(_, n, w) => s64 (n - w) <> - 2 ^ 63) l -> - (70 * 60) < nTimeOffset t < 70 * 60).
Proof.
  cbv zeta. pose proof (add_samples_ok l) as Ht. split.
  - destruct (AddTimeData_offset ip nTime now (add_samples l time_init)) as [[_ ->]|(_ & Ef & _ & [?|(Ho & [?|[Em _]])])]; [by left | by left | by right; left |].
    right; right. intros lo hi Hmaj. rewrite Em. rewrite Ef in Hmaj.
    apply median_majority; [apply input_ok, (to_filter _ _ Ht) | done | done].
  - clear ip nTime now Ht. induction l as [|[[ip nTime] now] l IH] using rev_ind; [by cbn|].
    intros [Hl Hx]%Forall_app. specialize (IH Hl). rewrite add_samples_app.
    set (t := add_samples l time_init) in *. change (add_samples [(ip, nTime, now)] t) with (AddTimeData ip nTime now t).
    destruct (AddTimeData_offset ip nTime now t) as [[_ ->]|(_ & Ef & _ & [->|(Ho & [->|[-> Ha]])])]; [done | done | lia |].
    apply abs64_bound; [|done].
    assert (Hin : median s64 (input (s64 (nTime - now)) (vTimeOffsets t)) ∈ vValues (input (s64 (nTime - now)) (vTimeOffsets t))).
    { apply median_in; [apply input_ok, (to_filter _ _ (add_samples_ok l)) | done]. }
    apply input_values in Hin as [->|[->|(i & n & w & Hin & ->)]%(to_values _ _ (add_samples_ok l))]; [| lia |].
    + pose proof (s64_range (nTime - now)). inversion Hx as [|? ? Hne]; subst. cbn in Hne. lia.
    + pose proof (s64_range (n - w)). rewrite Forall_forall in Hl. pose proof (Hl _ Hin) as Hne. cbn in Hne. lia.
Qed.

(** A run that leaves those seventy minutes, where the negation of the least integer wraps around: after one
    peer with our time three others claim a time 2^63 seconds before ours, and the offset becomes -2^63. *)
Theorem time_offset_overflow now : 0 <= now < 2 ^ 62 ->
  let early := now - 2 ^ 63 in
  let peers := [([1], now, now); ([2], early, now); ([3], early, now); ([4], early, now)] in
  Forall (fun '(_, nTime, _) => - 2 ^ 63 <= nTime < 2 ^ 63) peers /\
  nTimeOffset (add_samples peers time_init) = - 2 ^ 63.
Proof.
  intros Hn. cbv zeta. split; [repeat constructor; lia|].
  unfold add_samples. cbn [foldl]. rewrite (AddTimeData_sample [1] now now _ 0 0) by lia.
  rewrite !(AddTimeData_sample _ (now - 2 ^ 63) now _ (- 2 ^ 63) 0) by lia. vm_compute. done.
Qed.

Lemma time_offset_overflow_witness :
  nTimeOffset (add_samples [([1], 1700000000, 1700000000); ([2], 1700000000 - 2 ^ 63, 1700000000); ([3], 1700000000 - 2 ^ 63, 1700000000); ([4], 1700000000 - 2 ^ 63, 1700000000)] time_init) = - 2 ^ 63.
Proof. apply (time_offset_overflow 1700000000). lia. Defined.

(** The offset of the network's time is adjusted only while samples of fewer than 199 addresses have
    come in: from then on the filter holds an even number of samples and no sample changes the offset. *)
Theorem time_offset_frozen l k :
  (199 <= size (list_to_set (C := gset CNetAddr) (map (fun s => fst (fst s)) l)))%nat ->
  nTimeOffset (add_samples (l ++ k) time_init) = nTimeOffset (add_samples l time_init).
Proof.
  intros Hl. pose proof (add_samples_ok l) as Ht. rewrite add_samples_app.
  assert (Hs : mf_size (vTimeOffsets (add_samples l time_init)) = 200%nat).
  { rewrite (to_size _ _ Ht), (to_known _ _ Ht). lia. }
  clear Hl. set (t := add_samples l time_init) in *. clearbody t. revert l t Ht Hs.
  induction k as [|[[ip nTime] now] k IH]; intros l t Ht Hs; [done|].
  destruct (full_filter_frozen l ip nTime now t Ht Hs) as [E Hs'].
  change (add_samples ((ip, nTime, now) :: k) t) with (add_samples k (AddTimeData ip nTime now t)).
  rewrite (IH _ _ (AddTimeData_ok l ip nTime now t Ht) Hs'). done.
Qed.

Definition many_peers : list (CNetAddr * Z * Z) := map (fun i => ([Z.of_nat i], 7, 0)) (seq 0 199).

Lemma time_offset_frozen_witness : nTimeOffset (add_samples (many_peers ++ [([1000], 9, 0)]) time_init) = nTimeOffset (add_samples many_peers time_init).
Proof.
  apply time_offset_frozen. rewrite size_list_to_set; [cbn; lia|]. unfold many_peers. rewrite map_map. cbn [fst].
  apply (NoDup_fmap_2_strong (fun i => [Z.of_nat i])); [intros a b _ _ E; injection E; lia | apply NoDup_seq].
Defined.

(** A peer that is not local is banned and disconnected when, and only when, the amounts of its
    misbehaviour reach the threshold: the ban then lasts the ban time from the last of them. *)
Theorem misbehaving_bans banscore bantime l now howmuch n b :
  IsLocal (nd_addr n) = false -> Forall (fun e => 0 <= snd e) (l ++ [(now, howmuch)]) ->
  0 <= nd_nMisbehavior n -> nd_nMisbehavior n + sumZ (map snd (l ++ [(now, howmuch)])) < 2 ^ 31 -> banscore <= 2 ^ 31 ->
  - 2 ^ 63 <= now + bantime < 2 ^ 63 ->
  let '(n', b') := misbehave banscore bantime (l ++ [(now, howmuch)]) (n, b) in
  if banscore <=? nd_nMisbehavior n + sumZ (map snd (l ++ [(now, howmuch)]))
  then nd_fDisconnect n' = true /\ forall t, t < now + bantime -> IsBanned t (nd_addr n) b' = true
  else b' = b /\ nd_fDisconnect n' = nd_fDisconnect n.
Proof.
  intros Hl Hf Hlo Hsum Hm Ht. destruct (Z.leb_spec banscore (nd_nMisbehavior n + sumZ (map snd (l ++ [(now, howmuch)])))) as [Hge|Hlt].
  - apply Forall_app in Hf as [Hf Hh]. rewrite map_app, sumZ_app in *. cbn [map snd] in *. pose proof (Forall_inv Hh) as Hh0. cbn in Hh0.
    assert (Hsum' : nd_nMisbehavior n + sumZ (map snd l) < 2 ^ 31) by (unfold sumZ in *; cbn in *; lia).
    pose proof (misbehave_score banscore bantime l n b Hl Hf ltac:(lia) Hsum') as Hn.
    assert (Hs : 0 <= sumZ (map snd l)) by (apply sumZ_nonneg; by apply Forall_map).
    unfold misbehave in *. rewrite foldl_app. destruct (foldl _ (n, b) l) as [n1 b1]. destruct Hn as [Ea Es].
    cbn [foldl].
    unfold Misbehaving. rewrite Ea, Hl. cbv zeta. cbn [nd_nMisbehavior set_score nd_addr]. rewrite Es, s32_small by (unfold sumZ in *; cbn in *; lia).
    destruct (Z.leb_spec banscore (nd_nMisbehavior n + sumZ (map snd l) + howmuch)); [|unfold sumZ in *; cbn in *; lia].
    split; [done|]. intros t Hlt. unfold IsBanned. cbn [setBanned]. rewrite Ea, (s64_small (now + bantime)) by lia.
    destruct (Z.ltb_spec (default 0 (setBanned b1 !! nd_addr n)) (now + bantime)); rewrite lookup_insert_eq; apply Z.ltb_lt; lia.
  - apply misbehave_below; done || lia.
Qed.

Definition a_peer : CNode := mkNode (CNetAddr_ipv4 [8; 8; 8; 8]) 230405 [] ∅ 0 100 false true.
Definition no_bans : ban_state := mkBans ∅ (median_filter 5 0).

Lemma misbehaving_bans_witness :
  let '(n', b') := misbehave 100 86400 ([(1000, 90)] ++ [(1010, 10)]) (a_peer, no_bans) in
  nd_fDisconnect n' = true /\ forall t, t < 1010 + 86400 -> IsBanned t (nd_addr a_peer) b' = true.
Proof.
  assert (H : Forall (fun e : Z * Z => 0 <= snd e) ([(1000, 90)] ++ [(1010, 10)])) by (repeat constructor; cbn; lia).
  apply (misbehaving_bans 100 86400 [(1000, 90)] 1010 10 a_peer no_bans eq_refl H); cbn; lia.
Defined.
