(* ===== verification/Alert.v ===== *)
(** * Alerts (alert.h, alert.cpp; the message handler and [GetWarnings] of main.cpp)

    Signed messages that the holders of the alert key send to all nodes.  The state is
    the map of the alerts in force; the handler of the message also has the peers, of
    which the sender is one, and the bans.  What the user interface and the shell are
    told is a list of events. *)

From stdpp Require Import sorting.
From S2P Require Import Prelude Uint256 Serialize BigNum Tx Merkle Script Interp Base58 Util NetAddr Peers.

(** ** Data *)

Record CUnsignedAlert := mkUnsigned {
  al_nVersion : Z; nRelayUntil : Z; nExpiration : Z; nID : Z; nCancel : Z; setCancel : gset Z;
  nMinVer : Z; nMaxVer : Z; setSubVer : gset (list Z); nPriority : Z;
  strComment : list Z; strStatusBar : list Z; strReserved : list Z;
}.

Record CAlert := mkAlert { al_data : CUnsignedAlert; al_vchMsg : list Z; al_vchSig : list Z }.

#[export] Instance CUnsignedAlert_eq_dec : EqDecision CUnsignedAlert.
Proof. solve_decision. Defined.
#[export] Instance CAlert_eq_dec : EqDecision CAlert.
Proof. solve_decision. Defined.

Definition CUnsignedAlert_null : CUnsignedAlert := mkUnsigned 1 0 0 0 0 ∅ 0 0 ∅ 0 [] [] [].
Definition CAlert_null : CAlert := mkAlert CUnsignedAlert_null [] [].
Definition CAlert_IsNull (a : CAlert) : bool := nExpiration (al_data a) =? 0.

(** A set is written in its order; reading inserts what comes. *)
Definition set_codec {A} `{Countable A} (le : A -> A -> Prop) `{!RelDecision le} (c : codec A) : codec (gset A) :=
  iso_codec (fun s => merge_sort le (elements s)) list_to_set (vector_codec c).

Definition string_le (a b : list Z) : Prop := vec_lt b a = false.
#[export] Instance string_le_dec : RelDecision string_le := fun a b => bool_eq_dec _ _.

Definition CUnsignedAlert_codec : codec CUnsignedAlert :=
  iso_codec
    (fun a => (al_nVersion a, (nRelayUntil a, (nExpiration a, (nID a, (nCancel a, (setCancel a,
              (nMinVer a, (nMaxVer a, (setSubVer a, (nPriority a, (strComment a, (strStatusBar a, strReserved a)))))))))))))
    (fun '(v, (r, (e, (i, (c, (sc, (mi, (ma, (sv, (p, (co, (sb, re)))))))))))) => mkUnsigned v r e i c sc mi ma sv p co sb re)
    (pair_codec (sint_codec 4) (pair_codec (sint_codec 8) (pair_codec (sint_codec 8) (pair_codec (sint_codec 4)
    (pair_codec (sint_codec 4) (pair_codec (set_codec Z.le (sint_codec 4)) (pair_codec (sint_codec 4) (pair_codec (sint_codec 4)
    (pair_codec (set_codec string_le bytevec_codec) (pair_codec (sint_codec 4) (pair_codec bytevec_codec
    (pair_codec bytevec_codec bytevec_codec)))))))))))).

(** The message carries the signed bytes and the signature; the rest is null. *)
Definition read_CAlert (bs : list Z) : option (CAlert * list Z) :=
  match dec (pair_codec bytevec_codec bytevec_codec) bs with
  | None => None
  | Some ((m, s), bs) => Some (mkAlert CUnsignedAlert_null m s, bs)
  end.

Definition maxInt : Z := 2 ^ 31 - 1.
Definition PROTOCOL_VERSION : Z := 230405.

Definition key_compromised : list Z := Eval vm_compute in chars "URGENT: Alert key compromised, upgrade required".
Definition safeChars : list Z := Eval vm_compute in chars "abcdefghijklmnopqrstuvwxyzABCDEFGHIJKLMNOPQRSTUVWXYZ01234567890 .,;_/:?@".

Definition pszMainKey : list Z := Eval vm_compute in chars "04B4E3C86CBB37515D61852F3F08E665324EE2513255EE69E3EB171A4F7A9D23CE56BD23352F6538B2855E0916A09AEBDF4B661CFA919FC726F3BB63EC62619FFB".
Definition pszTestKey : list Z := Eval vm_compute in chars "049236256689E39E7323C4BC92FBDCA9EC8C2D115B96B2BCC55F87A857E59D48B1C3654F5F6F0257399E69ED1F3D08DCE555DD421EA4570B119C92C038DA083956".

(** What the interface and the shell are told. *)
Inductive alert_event :=
| NotifyDeleted (h : uint256)
| NotifyNew (h : uint256)
| RunCommand (strCmd : list Z).

(** [boost::replace_all(cmd, "%s", s)] *)
Fixpoint replace_all (cmd s : list Z) : list Z :=
  match cmd with
  | 37 :: (115 :: rest) => s ++ replace_all rest s
  | c :: rest => c :: replace_all rest s
  | [] => []
  end.

(** ** Times and versions *)

Definition IsInEffect (now : Z) (a : CAlert) : bool := now <? nExpiration (al_data a).

(** Whether the alert says that the other one is cancelled. *)
Definition names (a b : CAlert) : bool :=
  ((nID (al_data b) <=? nCancel (al_data a)) || bool_decide (nID (al_data b) ∈ setCancel (al_data a)))%bool.

Definition Cancels (now : Z) (a b : CAlert) : bool := if negb (IsInEffect now a) then false else names a b.

Definition AppliesTo (now : Z) (a : CAlert) (nVersion : Z) (strSubVerIn : list Z) : bool :=
  (IsInEffect now a && (nMinVer (al_data a) <=? nVersion) && (nVersion <=? nMaxVer (al_data a)) &&
   (bool_decide (setSubVer (al_data a) = ∅) || bool_decide (strSubVerIn ∈ setSubVer (al_data a))))%bool.

(** The conditions on the last alert. *)
Definition final_form (a : CUnsignedAlert) : bool :=
  ((nExpiration a =? maxInt) && (nCancel a =? maxInt - 1) && (nMinVer a =? 0) && (nMaxVer a =? maxInt) &&
   bool_decide (setSubVer a = ∅) && (nPriority a =? maxInt) && bool_decide (strStatusBar a = key_compromised))%bool.

Section Alerts.
Context `{HD : Digests} `{EC : ECDSA} (fTestNet : bool).
(** [FormatSubVersion] of this client, and the argument [-alertnotify] *)
Context (strSubVersion : list Z) (alertnotify : list Z).

Definition Alert_GetHash (a : CAlert) : uint256 := Hash (al_vchMsg a).

Definition AppliesToMe (now : Z) (a : CAlert) : bool := AppliesTo now a PROTOCOL_VERSION strSubVersion.

(** The peer afterwards, and whether the alert was sent to it. *)
Definition RelayTo (now : Z) (a : CAlert) (pnode : CNode) : bool * CNode :=
  if negb (IsInEffect now a) then (false, pnode)
  else if decide (Alert_GetHash a ∈ nd_setKnown pnode) then (false, pnode)
  else
    let pnode := set_known ({[Alert_GetHash a]} ∪ nd_setKnown pnode) pnode in
    if (AppliesTo now a (nd_nVersion pnode) (nd_strSubVer pnode) || AppliesToMe now a || (now <? nRelayUntil (al_data a)))%bool
    then (true, pnode) else (false, pnode).

(** [None] when reading the signed bytes throws. *)
Definition Alert_CheckSignature (a : CAlert) : option (bool * CAlert) :=
  let key := ParseHex (if fTestNet then pszTestKey else pszMainKey) in
  if negb (o2i_ECPublicKey key) then Some (false, a)
  else if negb (ECDSA_verify (Hash (al_vchMsg a)) (al_vchSig a) key) then Some (false, a)
  else
    match dec CUnsignedAlert_codec (al_vchMsg a) with
    | None => None
    | Some (d, _) => Some (true, mkAlert d (al_vchMsg a) (al_vchSig a))
    end.

Abbreviation alerts := (gmap uint256 CAlert).

(** The order of the map. *)
Definition key_le (a b : uint256 * CAlert) : Prop := op_lt (fst b) (fst a) = false.
#[local] Instance key_le_dec : RelDecision key_le := fun a b => bool_eq_dec _ _.
Definition alerts_in_order (m : alerts) : list (uint256 * CAlert) := merge_sort key_le (map_to_list m).

Definition getAlertByHash (h : uint256) (m : alerts) : CAlert := default CAlert_null (m !! h).

(** The loop that cancels and expires. *)
Fixpoint cancel_loop (now : Z) (a : CAlert) (items : list (uint256 * CAlert)) (m : alerts) : alerts * list alert_event :=
  match items with
  | [] => (m, [])
  | (h, b) :: items =>
      if Cancels now a b then let '(m, ev) := cancel_loop now a items (delete h m) in (m, NotifyDeleted h :: ev)
      else if negb (IsInEffect now b) then let '(m, ev) := cancel_loop now a items (delete h m) in (m, NotifyDeleted h :: ev)
      else cancel_loop now a items m
  end.

Definition notify_command (a : CAlert) : list Z :=
  let safeStatus := filter (fun c => c ∈ safeChars) (strStatusBar (al_data a)) in
  replace_all alertnotify (39 :: safeStatus ++ [39]).

(** The result, the alerts and the events; [None] when an exception is thrown. *)
Definition ProcessAlert (now : Z) (a : CAlert) (m : alerts) : option (bool * CAlert * alerts * list alert_event) :=
  match Alert_CheckSignature a with
  | None => None
  | Some (false, a) => Some (false, a, m, [])
  | Some (true, a) =>
      if negb (IsInEffect now a) then Some (false, a, m, [])
      else if ((nID (al_data a) =? maxInt) && negb (final_form (al_data a)))%bool then Some (false, a, m, [])
      else
        let '(m, ev) := cancel_loop now a (alerts_in_order m) m in
        if existsb (fun item => Cancels now (snd item) a) (alerts_in_order m) then Some (false, a, m, ev)
        else
          let m := match m !! Alert_GetHash a with Some _ => m | None => <[Alert_GetHash a := a]> m end in
          if AppliesToMe now a then
            Some (true, a, m, ev ++ NotifyNew (Alert_GetHash a) :: match alertnotify with [] => [] | _ => [RunCommand (notify_command a)] end)
          else Some (true, a, m, ev)
  end.

(** ** The message *)

Record alert_net := mkAlertNet { mapAlerts : alerts; vNodes : list CNode; bans : ban_state }.

Definition relay_all (now : Z) (a : CAlert) (nodes : list CNode) : list CNode := map (fun n => snd (RelayTo now a n)) nodes.

(** The sender is the node [i] of [vNodes]; [None] when an exception is thrown. *)
Definition alert_message (banscore bantime GetTime now : Z) (i : nat) (vRecv : list Z) (s : alert_net)
    : option (alert_net * list alert_event) :=
  match read_CAlert vRecv, vNodes s !! i with
  | Some (a, _), Some pfrom =>
      let alertHash := Alert_GetHash a in
      if decide (alertHash ∈ nd_setKnown pfrom) then Some (s, [])
      else
        match ProcessAlert now a (mapAlerts s) with
        | None => None
        | Some (true, a, m, ev) =>
            let nodes := <[i := set_known ({[alertHash]} ∪ nd_setKnown pfrom) pfrom]> (vNodes s) in
            Some (mkAlertNet m (relay_all now a nodes) (bans s), ev)
        | Some (false, a, m, ev) =>
            let '(_, pfrom, b) := Misbehaving banscore bantime GetTime 10 pfrom (bans s) in
            Some (mkAlertNet m (<[i := pfrom]> (vNodes s)) b, ev)
        end
  | _, _ => None
  end.

(** ** Warnings *)

(** [nPriority], [strStatusBar] and [strRPC] through the loop over the alerts. *)
Fixpoint warnings_loop (now : Z) (items : list (uint256 * CAlert)) (w : Z * list Z * list Z) : Z * list Z * list Z :=
  match items with
  | [] => w
  | (_, a) :: items =>
      let '(p, bar, rpc) := w in
      let d := al_data a in
      warnings_loop now items
        (if (AppliesToMe now a && (p <? nPriority d))%bool
         then (nPriority d, strStatusBar d, if 1000 <? nPriority d then strStatusBar d else rpc) else w)
  end.

(** The status bar and the text for RPC; the text for an invalid checkpoint is given when there is one. *)
Definition GetWarnings (testsafemode : bool) (strMintWarning strMiscWarning : list Z) (invalid : option (list Z)) (now : Z) (m : alerts)
    : list Z * list Z :=
  let rpc := if testsafemode then [116; 101; 115; 116] else [] in
  let w := match strMintWarning with [] => (0, [], rpc) | _ => (0, strMintWarning, rpc) end in
  let w := match strMiscWarning with [] => w | _ => (1000, strMiscWarning, rpc) end in
  let w := match invalid with None => w | Some t => (3000, t, t) end in
  let '(_, bar, rpc) := warnings_loop now (alerts_in_order m) w in (bar, rpc).
End Alerts.

(** ** Facts: the format *)

Section SetCodec.
Context {A} `{Countable A} (le : A -> A -> Prop) `{!RelDecision le} (c : codec A) (va : A -> Prop) (Hc : codec_ok c va).

Definition set_valid (s : gset A) : Prop := Z.of_nat (size s) <= MAX_SIZE /\ set_Forall va s.

Lemma sorted_valid s : set_valid s <-> vector_valid va (merge_sort le (elements s)).
Proof.
  unfold set_valid, vector_valid. rewrite (merge_sort_Permutation le (elements s)), set_Forall_elements. done.
Qed.

Lemma set_codec_ok : codec_ok (set_codec le c) set_valid.
Proof.
  pose proof (vector_codec_ok c va Hc) as Hv. split; cbn [enc dec csize set_codec iso_codec].
  - intros s rest Hs. rewrite (dec_enc Hv) by by apply sorted_valid. cbn [option_map fst snd].
    do 2 f_equal. rewrite (merge_sort_Permutation le (elements s)). apply list_to_set_elements_L.
  - intros s Hs. apply (csize_enc Hv). by apply sorted_valid.
  - intros s Hs. apply (enc_bytes Hv). by apply sorted_valid.
  - intros bs s rest Hbs. destruct (dec (vector_codec c) bs) as [[l bs1]|] eqn:E; [|done]. intros [= <- <-].
    destruct (dec_valid Hv _ _ _ Hbs E) as [[Hl Hf] Hu]. split; [split|done].
    + assert (size (list_to_set l : gset A) <= length l)%nat; [|lia].
      clear. induction l as [|x l IH]; cbn; [by rewrite size_empty|]. rewrite size_union_alt, size_singleton.
      pose proof (subseteq_size (list_to_set l ∖ {[x]} : gset A) (list_to_set l)). set_solver by lia.
    + rewrite Forall_forall in Hf. intros x Hx. apply Hf. by apply elem_of_list_to_set in Hx.
Qed.
End SetCodec.

Definition unsigned_valid (a : CUnsignedAlert) : Prop :=
  sint_valid 4 (al_nVersion a) /\ sint_valid 8 (nRelayUntil a) /\ sint_valid 8 (nExpiration a) /\ sint_valid 4 (nID a) /\
  sint_valid 4 (nCancel a) /\ set_valid (sint_valid 4) (setCancel a) /\ sint_valid 4 (nMinVer a) /\ sint_valid 4 (nMaxVer a) /\
  set_valid bytevec_valid (setSubVer a) /\ sint_valid 4 (nPriority a) /\ bytevec_valid (strComment a) /\
  bytevec_valid (strStatusBar a) /\ bytevec_valid (strReserved a).

Lemma CUnsignedAlert_codec_ok : codec_ok CUnsignedAlert_codec unsigned_valid.
Proof.
  unfold CUnsignedAlert_codec. eapply codec_ok_weaken.
  - apply iso_codec_ok; [|by intros []|by intros (?&?&?&?&?&?&?&?&?&?&?&?&?)].
    repeat apply pair_codec_ok; try apply set_codec_ok; try apply bytevec_codec_ok; apply sint_codec_ok; lia.
  - intros []. unfold unsigned_valid, pair_valid. cbn [fst snd al_nVersion nRelayUntil nExpiration nID nCancel setCancel nMinVer nMaxVer setSubVer nPriority strComment strStatusBar strReserved]. tauto.
Qed.

(** ** Facts: the map of the alerts *)

Section Facts.
Context `{HD : Digests} `{EC : ECDSA} (fTestNet : bool) (strSubVersion alertnotify : list Z).
Abbreviation process := (ProcessAlert fTestNet strSubVersion alertnotify).
Abbreviation check := (Alert_CheckSignature fTestNet).

(** The alerts that an alert leaves in force. *)
Definition kept (now : Z) (a b : CAlert) : bool := (negb (Cancels now a b) && IsInEffect now b)%bool.
Definition survivors (now : Z) (a : CAlert) (m : gmap uint256 CAlert) : gmap uint256 CAlert :=
  filter (fun e => kept now a (snd e) = true) m.

Lemma survivors_lookup now a m h b : survivors now a m !! h = Some b <-> m !! h = Some b /\ kept now a b = true.
Proof. unfold survivors. by rewrite map_lookup_filter_Some. Qed.

Lemma elem_of_alerts_in_order m h b : (h, b) ∈ alerts_in_order m <-> m !! h = Some b.
Proof. unfold alerts_in_order. rewrite (merge_sort_Permutation key_le). apply elem_of_map_to_list. Qed.

Lemma cancel_loop_lookup now a items m h b :
  (cancel_loop now a items m).1 !! h = Some b <-> m !! h = Some b /\ forall b', (h, b') ∈ items -> kept now a b' = true.
Proof.
  revert m. induction items as [|[k c] items IH]; intros m; cbn [cancel_loop].
  - split; [intros H; split; [done|]; intros b' []%not_elem_of_nil | by intros [? _]].
  - assert (Hd : kept now a c = false -> (cancel_loop now a items (delete k m)).1 !! h = Some b <->
      m !! h = Some b /\ forall b', (h, b') ∈ (k, c) :: items -> kept now a b' = true).
    { intros Hk. rewrite IH, lookup_delete_Some. split.
      - intros [[Hne Hm] Hi]. split; [done|]. intros b' [[= -> ->]|Hin]%elem_of_cons; [done | by apply Hi].
      - intros [Hm Hi]. split; [split; [|done]|].
        + intros ->. rewrite (Hi c) in Hk; [done | by left].
        + intros b' Hin. apply Hi. by right. }
    unfold kept in Hd. destruct (Cancels now a c) eqn:Hc.
    + specialize (Hd eq_refl). by destruct (cancel_loop now a items (delete k m)).
    + destruct (IsInEffect now c) eqn:He; cbn [negb].
      * rewrite IH. split; intros [Hm Hi]; (split; [done|]; intros b' Hin); [|by apply Hi; right].
        apply elem_of_cons in Hin as [[= -> ->]|Hin]; [unfold kept; by rewrite Hc, He | by apply Hi].
      * specialize (Hd eq_refl). by destruct (cancel_loop now a items (delete k m)).
Qed.

Lemma cancel_loop_survivors now a m : (cancel_loop now a (alerts_in_order m) m).1 = survivors now a m.
Proof.
  apply map_eq_iff. intros h. apply option_eq. intros b. rewrite cancel_loop_lookup, survivors_lookup. split.
  - intros [Hm Hi]. split; [done|]. apply Hi. by apply elem_of_alerts_in_order.
  - intros [Hm Hk]. split; [done|]. intros b' Hin%elem_of_alerts_in_order. by simplify_eq.
Qed.

Lemma cancel_loop_events now a items m cmd : RunCommand cmd ∉ (cancel_loop now a items m).2.
Proof.
  revert m. induction items as [|[k c] items IH]; intros m; cbn [cancel_loop]; [apply not_elem_of_nil|].
  specialize (IH (delete k m)) as IHd. destruct (cancel_loop now a items (delete k m)) as [m' ev].
  destruct (Cancels now a c); [by apply not_elem_of_cons|]. destruct (negb _); [by apply not_elem_of_cons | apply IH].
Qed.

(** The alert, if a stored one cancels it. *)
Definition is_cancelled (a : CAlert) (m : gmap uint256 CAlert) : bool := existsb (fun item => names (snd item) a) (alerts_in_order m).

Lemma is_cancelled_iff a m : is_cancelled a m = true <-> exists h b, m !! h = Some b /\ names b a = true.
Proof.
  unfold is_cancelled. rewrite existsb_exists. split.
  - intros ([h b] & Hin & Hn). exists h, b. split; [|done]. by apply elem_of_alerts_in_order, list_elem_of_In.
  - intros (h & b & Hm & Hn). exists (h, b). split; [|done]. by apply list_elem_of_In, elem_of_alerts_in_order.
Qed.

Lemma cancelled_survivors now a m :
  existsb (fun item => Cancels now (snd item) a) (alerts_in_order (survivors now a m)) = is_cancelled a (survivors now a m).
Proof.
  unfold is_cancelled. set (l := alerts_in_order _).
  assert (Hl : Forall (fun item => IsInEffect now (snd item) = true) l).
  { apply Forall_forall. intros [h b] Hin%elem_of_alerts_in_order. apply survivors_lookup in Hin as [_ Hk].
    unfold kept in Hk. by bprop. }
  clearbody l. induction Hl as [|[h b] l Hb Hl IH]; [done|]. cbn in Hb |- *. unfold Cancels at 1. rewrite Hb. cbn [negb]. by rewrite IH.
Qed.

Definition add_alert (a : CAlert) (m : gmap uint256 CAlert) : gmap uint256 CAlert :=
  match m !! Alert_GetHash a with Some _ => m | None => <[Alert_GetHash a := a]> m end.

Definition acceptable (now : Z) (a : CAlert) : bool :=
  (IsInEffect now a && negb ((nID (al_data a) =? maxInt) && negb (final_form (al_data a))))%bool.

(** What [ProcessAlert] does with a signed alert. *)
Lemma ProcessAlert_signed now a a' m : check a = Some (true, a') ->
  if acceptable now a' then
    exists ev, process now a m =
      Some (if is_cancelled a' (survivors now a' m) then (false, a', survivors now a' m, ev) else (true, a', add_alert a' (survivors now a' m), ev)) /\
      (forall cmd, RunCommand cmd ∈ ev -> is_cancelled a' (survivors now a' m) = false /\ AppliesToMe strSubVersion now a' = true /\ cmd = notify_command alertnotify a')
  else process now a m = Some (false, a', m, []).
Proof.
  intros E. unfold ProcessAlert, acceptable. rewrite E. destruct (IsInEffect now a'); [|done]. cbn [negb andb].
  destruct ((nID (al_data a') =? maxInt) && negb (final_form (al_data a')))%bool; [done|]. cbn [negb].
  pose proof (cancel_loop_survivors now a' m) as Hs. pose proof (fun cmd => cancel_loop_events now a' (alerts_in_order m) m cmd) as Hev.
  destruct (cancel_loop now a' (alerts_in_order m) m) as [m1 ev]. cbn [fst snd] in Hs, Hev. subst m1.
  rewrite cancelled_survivors. destruct (is_cancelled a' _).
  - exists ev. split; [done|]. intros cmd H. by apply Hev in H.
  - destruct (AppliesToMe strSubVersion now a') eqn:Ha.
    + eexists. split; [done|]. intros cmd [H|[H|H]%elem_of_cons]%elem_of_app; [by apply Hev in H | done |].
      destruct alertnotify; [by apply not_elem_of_nil in H|]. apply list_elem_of_singleton in H as [= ->]. done.
    + exists ev. split; [done|]. intros cmd H. by apply Hev in H.
Qed.

Lemma CheckSignature_result a r a' : check a = Some (r, a') -> al_vchMsg a' = al_vchMsg a /\ (r = true -> check a' = Some (true, a')) /\ (r = false -> a' = a).
Proof.
  unfold Alert_CheckSignature. destruct (negb (o2i_ECPublicKey _)) eqn:E1; [intros [= <- <-]; done|].
  destruct (negb (ECDSA_verify _ _ _)) eqn:E2; [intros [= <- <-]; done|].
  destruct (dec CUnsignedAlert_codec (al_vchMsg a)) as [[d rest]|] eqn:E3; [|done].
  intros [= <- <-]. cbn [al_vchMsg al_vchSig]. rewrite E2, E3. done.
Qed.

(** ** The invariant *)

(** Every stored alert is signed, is stored under its hash, is of the last form when it has the last
    number, and none says that another is cancelled. *)
Record alerts_ok (m : gmap uint256 CAlert) : Prop := {
  ao_entry : forall h b, m !! h = Some b -> h = Alert_GetHash b /\ check b = Some (true, b) /\ (nID (al_data b) = maxInt -> final_form (al_data b) = true);
  ao_apart : forall h1 h2 b1 b2, m !! h1 = Some b1 -> m !! h2 = Some b2 -> h1 <> h2 -> names b1 b2 = false;
}.

Lemma alerts_ok_empty : alerts_ok ∅.
Proof. split; intros *; by rewrite lookup_empty. Qed.

Lemma survivors_ok now a m : alerts_ok m -> alerts_ok (survivors now a m).
Proof.
  intros [He Ha]. split.
  - intros h b [Hm _]%survivors_lookup. by apply He.
  - intros h1 h2 b1 b2 [H1 _]%survivors_lookup [H2 _]%survivors_lookup. by apply Ha.
Qed.

Lemma add_alert_ok now a m : check a = Some (true, a) -> acceptable now a = true -> is_cancelled a (survivors now a m) = false ->
  alerts_ok m -> alerts_ok (add_alert a (survivors now a m)).
Proof.
  intros Hs Hacc Hc Hm. pose proof (survivors_ok now a m Hm) as Hsv. unfold add_alert.
  destruct (survivors now a m !! Alert_GetHash a); [done|].
  unfold acceptable in Hacc. apply andb_true_iff in Hacc as [Hin Hform].
  assert (Hfwd : forall h b, survivors now a m !! h = Some b -> names a b = false /\ names b a = false).
  { intros h b Hb. split.
    - apply survivors_lookup in Hb as [_ Hk]. unfold kept, Cancels in Hk. rewrite Hin in Hk. cbn in Hk. by bprop.
    - apply not_true_iff_false. intros Hn. apply not_true_iff_false in Hc. apply Hc, is_cancelled_iff. eauto. }
  split.
  - intros h b [[<- <-]|[_ Hb]]%lookup_insert_Some; [|by apply Hsv]. split_and!; [done..|].
    intros Hid. rewrite Hid in Hform. cbn in Hform. by destruct (final_form _).
  - intros h1 h2 b1 b2 [[<- <-]|[_ H1]]%lookup_insert_Some [[<- <-]|[_ H2]]%lookup_insert_Some Hne; [done | by apply (Hfwd h2) | by apply (Hfwd h1) |].
    by apply (ao_apart _ Hsv h1 h2).
Qed.

Lemma ProcessAlert_ok now a m r a' m' ev : process now a m = Some (r, a', m', ev) -> alerts_ok m -> alerts_ok m'.
Proof.
  intros E Hm. destruct (check a) as [[[] a1]|] eqn:Ec.
  - destruct (CheckSignature_result a true a1 Ec) as (_ & Hc & _). specialize (Hc eq_refl).
    pose proof (ProcessAlert_signed now a a1 m Ec) as H. destruct (acceptable now a1) eqn:Hacc.
    + destruct H as (ev' & Ep & _). rewrite Ep in E. destruct (is_cancelled a1 (survivors now a1 m)) eqn:Hcan; injection E as <- <- <- <-.
      * by apply survivors_ok.
      * by apply (add_alert_ok now).
    + rewrite H in E. by injection E as <- <- <- <-.
  - unfold ProcessAlert in E. rewrite Ec in E. by injection E as <- <- <- <-.
  - unfold ProcessAlert in E. rewrite Ec in E. done.
Qed.

(** What can happen: a message arrives from some peer, at some time; or the peers and the bans change. *)
Inductive alert_reach : alert_net -> Prop :=
| reach_start nodes b : alert_reach (mkAlertNet ∅ nodes b)
| reach_peers m nodes b nodes' b' : alert_reach (mkAlertNet m nodes b) -> alert_reach (mkAlertNet m nodes' b')
| reach_message banscore bantime GetTime now i vRecv s s' ev : alert_reach s ->
    alert_message fTestNet strSubVersion alertnotify banscore bantime GetTime now i vRecv s = Some (s', ev) -> alert_reach s'.

(** The outcome of a message, by what [ProcessAlert] says. *)
Lemma alert_message_cases banscore bantime GetTime now i vRecv s s' ev :
  alert_message fTestNet strSubVersion alertnotify banscore bantime GetTime now i vRecv s = Some (s', ev) ->
  exists a rest pfrom, read_CAlert vRecv = Some (a, rest) /\ vNodes s !! i = Some pfrom /\
  ((Alert_GetHash a ∈ nd_setKnown pfrom) /\ s' = s /\ ev = [] \/
   exists r a', process now a (mapAlerts s) = Some (r, a', mapAlerts s', ev) /\
     if r then bans s' = bans s /\ vNodes s' = relay_all strSubVersion now a' (<[i := set_known ({[Alert_GetHash a]} ∪ nd_setKnown pfrom) pfrom]> (vNodes s))
     else let '(_, n, b) := Misbehaving banscore bantime GetTime 10 pfrom (bans s) in bans s' = b /\ vNodes s' = <[i := n]> (vNodes s)).
Proof.
  unfold alert_message. destruct (read_CAlert vRecv) as [[a rest]|]; [|done]. destruct (vNodes s !! i) as [pfrom|]; [|done].
  cbv zeta. intros H. exists a, rest, pfrom. split_and!; [done..|].
  destruct (decide (Alert_GetHash a ∈ nd_setKnown pfrom)) as [Hk|Hk]; [left; by injection H as <- <-|right].
  destruct (process now a (mapAlerts s)) as [[[[[] a'] m'] ev']|] eqn:E; [| |done].
  - injection H as <- <-. exists true, a'. done.
  - destruct (Misbehaving banscore bantime GetTime 10 pfrom (bans s)) as [[r n] b] eqn:Em. injection H as <- <-.
    exists false, a'. done.
Qed.

Lemma alert_reach_ok s : alert_reach s -> alerts_ok (mapAlerts s).
Proof.
  induction 1 as [nodes b|m nodes b nodes' b' _ IH|banscore bantime GetTime now i vRecv s s' ev _ IH E]; [apply alerts_ok_empty | done |].
  apply alert_message_cases in E as (a & rest & pfrom & _ & _ & [(_ & -> & _)|(r & a' & Ep & _)]); [done|].
  by apply (ProcessAlert_ok _ _ _ _ _ _ _ Ep).
Qed.

(** The alerts that apply set the texts by their priority. *)
Lemma warnings_loop_max now items w : let '(p, bar, rpc) := warnings_loop strSubVersion now items w in
  w.1.1 <= p /\ Forall (fun e => AppliesToMe strSubVersion now (snd e) = true -> nPriority (al_data (snd e)) <= p) items /\
  ((p, bar, rpc) = w \/ exists h a, (h, a) ∈ items /\ AppliesToMe strSubVersion now a = true /\ p = nPriority (al_data a) /\ bar = strStatusBar (al_data a) /\ w.1.1 < p).
Proof.
  revert w. induction items as [|[h a] items IH]; intros [[p0 bar0] rpc0]; cbn [warnings_loop].
  - split_and!; [cbn; lia | done | by left].
  - set (w' := if (AppliesToMe strSubVersion now a && (p0 <? nPriority (al_data a)))%bool then _ else _).
    specialize (IH w'). destruct (warnings_loop strSubVersion now items w') as [[p bar] rpc]. destruct IH as (Hle & Hf & Hc).
    assert (Hw : p0 <= w'.1.1 /\ (AppliesToMe strSubVersion now a = true -> nPriority (al_data a) <= w'.1.1) /\
      (w' = (p0, bar0, rpc0) \/ AppliesToMe strSubVersion now a = true /\ p0 < nPriority (al_data a) /\ w'.1.1 = nPriority (al_data a) /\ w'.1.2 = strStatusBar (al_data a))).
    { unfold w'. destruct (AppliesToMe strSubVersion now a); cbn [andb]; [|by split_and!; [cbn; lia | done | left]].
      destruct (Z.ltb_spec p0 (nPriority (al_data a))); cbn; split_and!; try lia; [by right; split_and! | by left]. }
    destruct Hw as (Hw1 & Hw2 & Hw3). cbn [fst snd] in *. split_and!; [lia | constructor; [cbn; intros H; specialize (Hw2 H); lia | done] |].
    destruct Hc as [Hc|(h' & a' & Hin & Ha' & Hp & Hb & Hlt)].
    + destruct Hw3 as [->|(Ha & Hlt & E1 & E2)]; [by left|]. right. exists h, a. rewrite <- Hc in E1, E2. cbn in E1, E2.
      split_and!; [by left | done..| lia].
    + right. exists h', a'. split_and!; [by right | done..| lia].
Qed.
End Facts.

(** ** Claims *)

(** C18: after any sequence of alert messages, at any times and from any peers, every stored alert carries a
    valid signature of the alert key, is stored under the hash of its signed bytes with the data those bytes
    decode to, has the prescribed form when it has the largest number, and no stored alert says that
    another one is cancelled. *)
Theorem alerts_consistent `{HD : Digests} `{EC : ECDSA} fTestNet strSubVersion alertnotify s :
  alert_reach fTestNet strSubVersion alertnotify s -> alerts_ok fTestNet (mapAlerts s).
Proof. apply alert_reach_ok. Qed.

(** C21: [ProcessAlert] refuses an alert that is not signed, has expired, or has the largest number
    without the prescribed form, and changes nothing; otherwise it drops the alerts the new one cancels
    and the expired ones, refuses the new one exactly when one of the rest cancels it, and else stores it; the
    alerts that are left are all in effect. *)
Theorem process_alert_exact `{HD : Digests} `{EC : ECDSA} fTestNet strSubVersion alertnotify now a m :
  match Alert_CheckSignature fTestNet a with
  | None => ProcessAlert fTestNet strSubVersion alertnotify now a m = None
  | Some (false, _) => ProcessAlert fTestNet strSubVersion alertnotify now a m = Some (false, a, m, [])
  | Some (true, a') =>
      if acceptable now a' then exists m' ev,
        ProcessAlert fTestNet strSubVersion alertnotify now a m = Some (negb (is_cancelled a' (survivors now a' m)), a', m', ev) /\
        m' = (if is_cancelled a' (survivors now a' m) then survivors now a' m else add_alert a' (survivors now a' m)) /\
        map_Forall (fun _ b => IsInEffect now b = true) m'
      else ProcessAlert fTestNet strSubVersion alertnotify now a m = Some (false, a', m, [])
  end.
Proof.
  destruct (Alert_CheckSignature fTestNet a) as [[[] a']|] eqn:E; [|unfold ProcessAlert; by rewrite E, ?(proj2 (proj2 (CheckSignature_result fTestNet a false a' E)) eq_refl)..].
  pose proof (ProcessAlert_signed fTestNet strSubVersion alertnotify now a a' m E) as H.
  destruct (acceptable now a') eqn:Hacc; [|done]. destruct H as (ev & -> & _).
  assert (Hs : map_Forall (fun _ b => IsInEffect now b = true) (survivors now a' m)).
  { intros h b [_ Hk]%survivors_lookup. unfold kept in Hk. by bprop. }
  destruct (is_cancelled a' (survivors now a' m)); eexists _, ev; (split; [done|]; split; [done|]); [done|].
  unfold add_alert. destruct (survivors now a' m !! Alert_GetHash a'); [done|].
  apply map_Forall_insert_2; [|done]. unfold acceptable in Hacc. by bprop.
Qed.

(** Beside a stored alert with the largest number there are only others with that number: the last form
    names all smaller ones. *)
Lemma beside_last `{HD : Digests} `{EC : ECDSA} fTestNet m h b k c :
  alerts_ok fTestNet m -> map_Forall (fun _ x => bytes_ok (al_vchMsg x)) m ->
  m !! h = Some b -> nID (al_data b) = maxInt -> m !! k = Some c -> nID (al_data c) = maxInt.
Proof.
  intros Hok Hby Hb Hid Hc. destruct (decide (h = k)) as [->|Hne]; [by simplify_eq|].
  destruct (ao_entry _ _ Hok _ _ Hb) as (_ & _ & Hform). specialize (Hform Hid). unfold final_form in Hform. bprop.
  pose proof (ao_apart _ _ Hok _ _ _ _ Hb Hc Hne) as Hn. unfold names in Hn. apply orb_false_iff in Hn as [Hn _]. bprop.
  destruct (ao_entry _ _ Hok _ _ Hc) as (_ & Hs & _). unfold Alert_CheckSignature in Hs.
  destruct (negb _); [done|]. destruct (negb _); [done|]. destruct (dec CUnsignedAlert_codec (al_vchMsg c)) as [[d rest]|] eqn:Ed; [|done].
  apply (dec_valid CUnsignedAlert_codec_ok) in Ed as [(_ & _ & _ & Hr & _) _]; [|by apply (Hby k)].
  injection Hs as Hs. assert (al_data c = d) as Hd by (by rewrite <- Hs). rewrite Hd in *.
  change (sint_valid 4 (nID d)) with (- 2 ^ 31 <= nID d < 2 ^ 31) in Hr. unfold maxInt in *. lia.
Qed.

(** C19: an alert with the largest number, once stored and in effect, holds against every signed alert in effect
    of a smaller number that does not name the largest number among those it cancels: such an alert is refused; but
    one that names it takes it out of the map with everything else there, and is accepted in its place, which the
    rule on that number means to exclude.  The map is any that satisfies the invariant of [alerts_consistent], its
    signed messages being bytes. *)
Theorem final_alert `{HD : Digests} `{EC : ECDSA} fTestNet strSubVersion alertnotify now a a' h b m :
  alerts_ok fTestNet m -> map_Forall (fun _ x => bytes_ok (al_vchMsg x)) m ->
  m !! h = Some b -> nID (al_data b) = maxInt -> IsInEffect now b = true ->
  Alert_CheckSignature fTestNet a = Some (true, a') -> IsInEffect now a' = true -> nID (al_data a') < maxInt ->
  exists r m' ev, ProcessAlert fTestNet strSubVersion alertnotify now a m = Some (r, a', m', ev) /\
  (names a' b = false -> r = false /\ m' !! h = Some b) /\
  (names a' b = true -> r = true /\ m' = {[Alert_GetHash a' := a']}).
Proof.
  intros Hok Hby Hb Hid Heff Hc Heff' Hlt. destruct (ao_entry _ _ Hok _ _ Hb) as (_ & _ & Hform). specialize (Hform Hid).
  assert (Hacc : acceptable now a' = true).
  { unfold acceptable. rewrite Heff'. destruct (Z.eqb_spec (nID (al_data a')) maxInt); [lia | done]. }
  pose proof (ProcessAlert_signed fTestNet strSubVersion alertnotify now a a' m Hc) as H. rewrite Hacc in H. destruct H as (ev & E & _).
  destruct (names a' b) eqn:Hn.
  - assert (Hemp : survivors now a' m = ∅).
    { apply map_empty. intros k. destruct (survivors now a' m !! k) as [c|] eqn:Es; [|done]. apply survivors_lookup in Es as [Hk Hkept].
      assert (names a' c = true) as Hnc.
      { unfold names in *. by rewrite (beside_last fTestNet m h b k c Hok Hby Hb Hid Hk), <- Hid. }
      unfold kept, Cancels in Hkept. rewrite Heff', Hnc in Hkept. done. }
    rewrite Hemp in E. assert (Hcan : is_cancelled a' ∅ = false).
    { apply not_true_iff_false. intros (k & c & Hk & _)%is_cancelled_iff. by rewrite lookup_empty in Hk. }
    rewrite Hcan in E. eexists _, _, ev. split; [exact E|]. split; [done|]. intros _. split; [done|].
    unfold add_alert. rewrite lookup_empty. apply insert_empty.
  - assert (Hin : survivors now a' m !! h = Some b).
    { apply survivors_lookup. split; [done|]. unfold kept, Cancels. by rewrite Heff, Heff', Hn. }
    assert (Hcan : is_cancelled a' (survivors now a' m) = true).
    { apply is_cancelled_iff. exists h, b. split; [done|]. unfold names. apply orb_true_iff. left. apply Z.leb_le.
      unfold final_form in Hform. bprop. lia. }
    rewrite Hcan in E. eexists _, _, ev. split; [exact E|]. done.
Qed.

(** The text of an alert reaches the shell only between two quotes and with nothing but the safe characters
    between them, and only when the alert has been accepted and applies to this client. *)
Theorem alert_command_safe `{HD : Digests} `{EC : ECDSA} fTestNet strSubVersion alertnotify now a m r a' m' ev cmd :
  ProcessAlert fTestNet strSubVersion alertnotify now a m = Some (r, a', m', ev) -> RunCommand cmd ∈ ev ->
  r = true /\ AppliesToMe strSubVersion now a' = true /\
  exists text, cmd = replace_all alertnotify (39 :: text ++ [39]) /\ Forall (fun c => c ∈ safeChars) text /\ 39 ∉ text.
Proof.
  intros E Hin. destruct (Alert_CheckSignature fTestNet a) as [[[] a1]|] eqn:Ec.
  2: { unfold ProcessAlert in E. rewrite Ec in E. injection E as <- <- <- <-. by apply not_elem_of_nil in Hin. }
  2: { unfold ProcessAlert in E. by rewrite Ec in E. }
  pose proof (ProcessAlert_signed fTestNet strSubVersion alertnotify now a a1 m Ec) as H. destruct (acceptable now a1).
  - destruct H as (ev' & Ep & Hcmd). rewrite Ep in E.
    assert (ev' = ev /\ a1 = a') as [-> ->] by (by destruct (is_cancelled a1 _); injection E as <- <- <- <-).
    destruct (Hcmd cmd Hin) as (Hcan & Ha & ->). rewrite Hcan in E. injection E as <- <-. split_and!; [done..|].
    eexists. split; [done|]. split.
    + apply Forall_forall. by intros c [? _]%list_elem_of_filter.
    + intros [Hq _]%list_elem_of_filter. by vm_compute in Hq; repeat (apply elem_of_cons in Hq as [?|Hq]; [done|]); apply not_elem_of_nil in Hq.
  - rewrite H in E. injection E as <- <- <- <-. by apply not_elem_of_nil in Hin.
Qed.

(** A message with an alert that is already stored is no misbehaviour, contrary to the comment at the penalty: the
    alert is accepted again, and no score or ban changes. *)
Theorem duplicate_alert_accepted `{HD : Digests} `{EC : ECDSA} fTestNet strSubVersion alertnotify banscore bantime GetTime now i vRecv s s' ev a rest b :
  alert_reach fTestNet strSubVersion alertnotify s -> read_CAlert vRecv = Some (a, rest) ->
  mapAlerts s !! Alert_GetHash a = Some b -> al_vchMsg b = al_vchMsg a -> ECDSA_verify (Hash (al_vchMsg a)) (al_vchSig a) (ParseHex (if fTestNet then pszTestKey else pszMainKey)) = true ->
  IsInEffect now b = true -> names b b = false ->
  alert_message fTestNet strSubVersion alertnotify banscore bantime GetTime now i vRecv s = Some (s', ev) ->
  bans s' = bans s.
Proof.
  intros Hr Hread Hb Hmsg Hsig Heff Hself H. pose proof (alert_reach_ok _ _ _ s Hr) as Hok.
  apply alert_message_cases in H as (a0 & rest0 & pfrom & E & _ & [(_ & -> & _)|(r & a' & Ep & Hcase)]); [done|].
  rewrite Hread in E. injection E as <- <-. destruct r; [by destruct Hcase|]. exfalso.
  destruct (ao_entry _ _ Hok _ _ Hb) as (_ & Hcb & Hlast).
  assert (Hc : exists c, Alert_CheckSignature fTestNet a = Some (true, c) /\ al_data c = al_data b).
  { unfold Alert_CheckSignature in *. rewrite Hmsg in Hcb. destruct (negb (o2i_ECPublicKey _)); [done|]. rewrite Hsig. cbn [negb].
    destruct (negb (ECDSA_verify _ _ _)); [done|]. destruct (dec _ (al_vchMsg a)) as [[d r]|]; [|done].
    injection Hcb as Hd. eexists. split; [done|]. by rewrite <- Hd. }
  destruct Hc as (c & Hc & Hd). pose proof (ProcessAlert_signed fTestNet strSubVersion alertnotify now a c (mapAlerts s) Hc) as Hp.
  assert (Hacc : acceptable now c = true).
  { unfold acceptable, IsInEffect in *. rewrite Hd, Heff. destruct (Z.eqb_spec (nID (al_data b)) maxInt) as [E|]; [|done]. by rewrite Hlast. }
  rewrite Hacc in Hp. destruct Hp as (ev' & Hp & _). rewrite Hp in Ep.
  destruct (is_cancelled c (survivors now c (mapAlerts s))) eqn:Hcan; [|done].
  apply is_cancelled_iff in Hcan as (k & d & [Hk _]%survivors_lookup & Hn).
  assert (Hn' : names d b = true) by (unfold names in *; by rewrite <- Hd).
  destruct (decide (k = Alert_GetHash a)) as [->|Hne]; [by simplify_eq; congruence|].
  rewrite (ao_apart _ _ Hok _ _ _ _ Hk Hb Hne) in Hn'. done.
Qed.

(** ** Witnesses *)

(** A key scheme for examples, which accepts a signature of one byte. *)
Definition demo_ECDSA : ECDSA := {| o2i_ECPublicKey _ := true; ECDSA_verify _ sg _ := (length sg =? 1)%nat |}.

Definition last_alert : CUnsignedAlert := mkUnsigned 1 0 maxInt maxInt (maxInt - 1) ∅ 0 maxInt ∅ maxInt [] key_compromised [].
Definition calm_alert : CUnsignedAlert := mkUnsigned 1 0 5000 7 maxInt ∅ 0 maxInt ∅ 10 [] [97; 39; 98] [].
Definition stored (d : CUnsignedAlert) : CAlert := mkAlert d (enc CUnsignedAlert_codec d) [1].
Definition demo_net : alert_net := mkAlertNet ∅ [a_peer] no_bans.
Definition demo_message : list Z := Eval vm_compute in enc (pair_codec bytevec_codec bytevec_codec) (enc CUnsignedAlert_codec calm_alert, [1]).
Definition demo_after : alert_net :=
  match @alert_message toy_digests demo_ECDSA false [] [37; 115] 100 86400 1000 1000 0 demo_message demo_net with Some (s, _) => s | None => demo_net end.

Lemma alerts_consistent_witness : @alerts_ok toy_digests demo_ECDSA false (mapAlerts demo_after) /\ size (mapAlerts demo_after) = 1%nat.
Proof.
  split; [|by vm_compute]. apply (@alerts_consistent toy_digests demo_ECDSA false [] [37; 115]).
  apply (reach_message _ _ _ 100 86400 1000 1000 0 demo_message demo_net demo_after
    (match @alert_message toy_digests demo_ECDSA false [] [37; 115] 100 86400 1000 1000 0 demo_message demo_net with Some (_, ev) => ev | None => [] end)); [constructor|].
  unfold demo_after. assert (H : bool_decide (is_Some (@alert_message toy_digests demo_ECDSA false [] [37; 115] 100 86400 1000 1000 0 demo_message demo_net)) = true) by (by vm_compute).
  apply bool_decide_eq_true in H as [[s ev] ->]. done.
Defined.

Definition last_map : gmap uint256 CAlert := {[ @Alert_GetHash toy_digests (stored last_alert) := stored last_alert ]}.

Lemma last_map_only h b : last_map !! h = Some b -> h = @Alert_GetHash toy_digests (stored last_alert) /\ b = stored last_alert.
Proof. unfold last_map. by intros [<- <-]%lookup_singleton_Some. Qed.

Lemma last_map_ok : @alerts_ok toy_digests demo_ECDSA false last_map.
Proof.
  split.
  - intros h b [-> ->]%last_map_only. split; [done|]. split; [|done]. vm_compute. reflexivity.
  - intros h1 h2 b1 b2 [-> ->]%last_map_only [-> ->]%last_map_only. done.
Qed.

Lemma final_alert_witness : exists r m' ev,
  @ProcessAlert toy_digests demo_ECDSA false [] [] 1000 (stored calm_alert) last_map = Some (r, stored calm_alert, m', ev) /\
  r = true /\ m' = {[ @Alert_GetHash toy_digests (stored calm_alert) := stored calm_alert ]}.
Proof.
  destruct (@final_alert toy_digests demo_ECDSA false [] [] 1000 (stored calm_alert) (stored calm_alert)
    (@Alert_GetHash toy_digests (stored last_alert)) (stored last_alert) last_map last_map_ok) as (r & m' & ev & E & _ & H).
  - intros h b [_ ->]%last_map_only. apply (bool_decide_unpack _). vm_compute. exact I.
  - apply lookup_singleton_eq.
  - vm_compute. reflexivity.
  - vm_compute. reflexivity.
  - vm_compute. reflexivity.
  - vm_compute. reflexivity.
  - vm_compute. reflexivity.
  - exists r, m', ev. split; [exact E|]. apply H. vm_compute. reflexivity.
Defined.

Definition runs (cmd : list Z) (ev : list alert_event) : bool :=
  existsb (fun e => match e with RunCommand c => bool_decide (c = cmd) | _ => false end) ev.

Lemma runs_elem cmd ev : runs cmd ev = true -> RunCommand cmd ∈ ev.
Proof. intros ([h|h|c] & Hin & Hc)%existsb_exists; try done. apply bool_decide_eq_true in Hc as ->. by apply list_elem_of_In. Qed.

Lemma alert_command_safe_witness : exists text, (39 ∉ text) /\ replace_all [37; 115] [39; 97; 98; 39] = replace_all [37; 115] (39 :: text ++ [39]).
Proof.
  assert (H : match @ProcessAlert toy_digests demo_ECDSA false [] [37; 115] 1000 (stored calm_alert) ∅ with
    | Some (_, _, _, ev) => runs [39; 97; 98; 39] ev | None => false end = true) by (vm_compute; reflexivity).
  destruct (@ProcessAlert toy_digests demo_ECDSA false [] [37; 115] 1000 (stored calm_alert) ∅) as [[[[r a'] m'] ev]|] eqn:E; [|discriminate H].
  destruct (@alert_command_safe toy_digests demo_ECDSA false [] [37; 115] 1000 (stored calm_alert) ∅ r a' m' ev [39; 97; 98; 39] E (runs_elem _ _ H)) as (_ & _ & text & Ht & _ & Hq).
  exists text. split; [exact Hq | by rewrite <- Ht].
Defined.
