(* ===== verification/Payment.v ===== *)
(** * Creating a payment (wallet.cpp: [CreateTransaction])

    The wallet pays a list of scripts: it chooses coins, adds the change, signs every
    input and raises the fee until the size of the transaction is paid for.  The
    choice of coins comes through the interface [Selector], which [CoinSelect]
    implements; random numbers, the reserved key and the order of the set of chosen
    coins (by address in memory) are parameters. *)

From S2P Require Import Prelude Uint256 Serialize BigNum Tx Merkle Script Interp InterpRun Standard Consensus NetAddr CoinSelect.
#[local] Open Scope Z_scope.

(** ** The choice of coins *)

(** [SelectCoins(nTargetValue, nSpendTime, setCoinsRet, nValueRet)] *)
Class Selector (R : Type) := { Select : Z -> Z -> R -> bool * gset COutPoint * Z * R }.

(** What the payment relies on: distinct spendable coins of the wallet, their sum, and enough of it. *)
Class Selector_ok {R : Type} (SE : Selector R) (IsMine : CTxOut -> bool) (mapWallet : list (uint256 * CWalletTx)) : Prop := {
  select_pays : forall t time r s v r', 0 < t -> Select t time r = (true, s, v, r') ->
    exists os, NoDup (map (fun o => snd (o_coin o)) os) /\ s = list_to_set (map (fun o => snd (o_coin o)) os) /\
      v = total (map o_value os) /\ t <= v < 2 ^ 63 /\ Forall (spendable IsMine mapWallet) os;
}.

(** [CCoinControl], without the selected coins, which are the selector's. *)
Record coin_control := mkControl { fReturnChange : bool; destChange : CTxDestination }.

Section Payment.
Context `{HD : Digests} `{EK : ECKeys} `{BN : OpenSSL_BN} `{EC : ECDSA} (GetRandHash : nat -> uint256).
Context {R : Type} `{RD : Random R} `{SE : Selector R}.
Context (GetReservedKey : R -> uint160 * R) (ReturnKey : R -> R).
Context (in_order : gset COutPoint -> list COutPoint).
Context (mapWallet : list (uint256 * CWalletTx)) (ks : CBasicKeyStore).
(** [nTransactionFee], [fSplitBlock] and the arguments *)
Context (nTransactionFee : Z) (fSplitBlock : bool) (nSplitBlock : Z) (coinControl : option coin_control).
Context (vecSend : list (CScript * Z)).

(** The transaction a coin of the set points to; the coins are of the wallet. *)
Definition coin_tx (p : COutPoint) : CTransaction :=
  match list_find (fun e => fst e = out_hash p) mapWallet with
  | Some (_, (_, w)) => w_tx w
  | None => mkTx 0 0 [] [] 0
  end.
Definition coin_out (p : COutPoint) : CTxOut := nth (Z.to_nat (out_n p)) (vout (coin_tx p)) (mkTxOut 0 []).

(** [nValue], with the test before each addition *)
Fixpoint send_total (v : list (CScript * Z)) (nValue : Z) : option Z :=
  match v with
  | [] => Some nValue
  | s :: v => if nValue <? 0 then None else send_total v (s64 (nValue + snd s))
  end.

(** The outputs to one payee, split into [n] *)
Definition split_outs (n : Z) (s : CScript * Z) : list CTxOut :=
  map (fun nCount => if Z.of_nat nCount =? n - 1 then mkTxOut (s64 (Z.quot (snd s) n + u64 (Z.rem (snd s) n))) (fst s)
                     else mkTxOut (Z.quot (snd s) n) (fst s)) (seq 0 (Z.to_nat n)).

Definition payees : list CTxOut :=
  if negb fSplitBlock then map (fun s => mkTxOut (snd s) (fst s)) vecSend
  else flat_map (split_outs (if nSplitBlock <? 1 then 1 else nSplitBlock)) vecSend.

(** The last address the loop over the coins extracts. *)
Definition utxoAddress (coins : list COutPoint) : CTxDestination :=
  fold_left (fun d p => default d (ExtractDestination (scriptPubKey (coin_out p)))) coins CNoDestination.

Definition scriptChange (coins : list COutPoint) (r : R) : CScript * R :=
  match coinControl with
  | Some cc =>
      if fReturnChange cc then (SetDestination (utxoAddress coins), r)
      else match destChange cc with
           | CNoDestination => let '(k, r) := GetReservedKey r in (SetDestination (CKeyID k), r)
           | d => (SetDestination d, r)
           end
  | None => let '(k, r) := GetReservedKey r in (SetDestination (CKeyID k), r)
  end.

(** The change goes before one of the outputs. *)
Definition add_change (nChange : Z) (coins : list COutPoint) (outs : list CTxOut) (r : R) : list CTxOut * R :=
  if 0 <? nChange then
    let '(script, r) := scriptChange coins r in
    let '(position, r) := GetRandInt (Z.of_nat (length outs)) r in
    (take (Z.to_nat position) outs ++ mkTxOut nChange script :: drop (Z.to_nat position) outs, r)
  else (outs, ReturnKey r).

Definition input_of (p : COutPoint) : CTxIn := mkTxIn (mkOutPoint (CTransaction_GetHash (coin_tx p)) (out_n p)) [] (2 ^ 32 - 1).

(** Sign one input after the other, until one fails. *)
Fixpoint sign_all (coins : list COutPoint) (nIn : nat) (tx : CTransaction) (c : CSignatureCache) : bool * CTransaction * CSignatureCache :=
  match coins with
  | [] => (true, tx, c)
  | p :: coins =>
      match SignSignature GetRandHash ks (scriptPubKey (coin_out p)) tx nIn SIGHASH_ALL c with
      | (false, tx, c) => (false, tx, c)
      | (true, tx, c) => sign_all coins (S nIn) tx c
      end
  end.

(** What one round of the loop decides. *)
Inductive round_result :=
| Refused
| Retry (nFeeRet : Z) (r : R) (c : CSignatureCache)
| Created (tx : CTransaction) (nFeeRet : Z) (coins : list COutPoint) (r : R) (c : CSignatureCache).

(** Change below a cent goes to the fee as far as the fee is below the minimum. *)
Definition move_to_fee (nFeeRet nChange : Z) : Z * Z :=
  if ((nFeeRet <? MIN_TX_FEE) && (0 <? nChange) && (nChange <? CENT))%bool then
    let nMoveToFee := Z.min nChange (MIN_TX_FEE - nFeeRet) in (nFeeRet + nMoveToFee, nChange - nMoveToFee)
  else (nFeeRet, nChange).

(** [wtx] has the fields the loop does not touch. *)
Definition pay_round (wtx : CTransaction) (nValue nFeeRet : Z) (r : R) (c : CSignatureCache) : round_result :=
  match Select (s64 (nValue + nFeeRet)) (tx_nTime wtx) r with
  | (false, _, _, _) => Refused
  | (true, setCoins, nValueIn, r) =>
      let coins := in_order setCoins in
      let '(nFeeRet, nChange) := move_to_fee nFeeRet (s64 (s64 (nValueIn - nValue) - nFeeRet)) in
      let '(outs, r) := add_change nChange coins payees r in
      match sign_all coins 0 (mkTx (tx_nVersion wtx) (tx_nTime wtx) (map input_of coins) outs (nLockTime wtx)) c with
      | (false, _, _) => Refused
      | (true, tx, c) =>
          let nBytes := csize CTransaction_codec tx in
          if MAX_BLOCK_SIZE_GEN / 5 <=? nBytes then Refused
          else
            let nPayFee := s64 (nTransactionFee * (1 + Z.quot nBytes 1000)) in
            let nMinFee := GetMinFee tx 1 GMF_SEND nBytes in
            if nFeeRet <? Z.max nPayFee nMinFee then Retry (Z.max nPayFee nMinFee) r c
            else Created tx nFeeRet coins r c
      end
  end.

(** [None] when the fuel runs out. *)
Fixpoint pay_loop (fuel : nat) (wtx : CTransaction) (nValue nFeeRet : Z) (r : R) (c : CSignatureCache) : option round_result :=
  match fuel with
  | O => None
  | S fuel =>
      match pay_round wtx nValue nFeeRet r c with
      | Retry nFeeRet r c => pay_loop fuel wtx nValue nFeeRet r c
      | res => Some res
      end
  end.

(** Each round that is tried again raises the fee by at least the price of a thousand bytes, and
    a transaction is smaller than a hundred thousand bytes. *)
Definition CreateTransaction (wtx : CTransaction) (r : R) (c : CSignatureCache) : option round_result :=
  match send_total vecSend 0 with
  | None => Some Refused
  | Some nValue =>
      match vecSend with
      | [] => Some Refused
      | _ => if nValue <? 0 then Some Refused
             else pay_loop 101 wtx nValue (if fSplitBlock then COIN * 1 else nTransactionFee) r c
      end
  end.
End Payment.

(** ** Facts: signatures *)

Section Sign.
Context `{HD : Digests} `{EK : ECKeys} `{BN : OpenSSL_BN} `{EC : ECDSA} (GetRandHash : nat -> uint256).

(** The input script is fine for the output script, checked without the cache. *)
Definition input_verifies (tx : CTransaction) (i : nat) (sig spk : CScript) : Prop :=
  fst (VerifyScript (CheckSig_pure tx i 0) sig spk tt) = true.

(** Transactions that every signature covers alike. *)
Definition same_unsigned (tx tx' : CTransaction) : Prop := forall sc n t, SignatureHash sc tx n t = SignatureHash sc tx' n t.

Lemma input_verifies_same tx tx' i sig spk : same_unsigned tx tx' -> input_verifies tx i sig spk -> input_verifies tx' i sig spk.
Proof.
  unfold input_verifies. intros Hs <-. symmetry.
  apply (VerifyScript_agree (CheckSig_pure tx i 0) (CheckSig_pure tx' i 0) (fun _ _ => True)); [|done].
  intros sg k sc w1 w2 _. unfold CheckSig_pure. destruct (sig_split sg 0) as [[sg' t]|]; [|by split]. by rewrite Hs.
Qed.

(** Signing an input sets its script and nothing else, and the script verifies. *)
Lemma SignSignature_spec ks spk tx nIn t c :
  let '(ok, tx', c') := SignSignature GetRandHash ks spk tx nIn t c in
  exists s, tx' = set_scriptSig tx nIn s /\ (ok = true -> cache_valid c -> cache_valid c' /\ input_verifies tx' nIn s spk).
Proof.
  unfold SignSignature. destruct (Solver_sign ks spk _ t) as [[ok s] ty]. destruct ok; cbn [negb]; [|by exists s].
  match goal with |- context [match ?x with pair _ _ => _ end] => match type of x with (bool * CScript)%type => destruct x as [fSolved s'] end end.
  destruct fSolved; cbn [negb]; [|by exists s']. set (tx1 := set_scriptSig tx nIn s').
  pose proof (VerifyScript_agree (CheckSig GetRandHash tx1 nIn 0) (CheckSig_pure tx1 nIn 0) (fun c _ => cache_valid c)
    ltac:(intros; by apply CheckSig_agree) s' spk c tt) as HA.
  destruct (VerifyScript (CheckSig GetRandHash tx1 nIn 0) s' spk c) as [v c']. exists s'. split; [done|].
  intros -> Hc. destruct (HA Hc) as [E Hc']. cbn [fst snd] in *. split; [done|]. unfold input_verifies. by rewrite <- E.
Qed.

Lemma same_unsigned_set tx n s : same_unsigned (set_scriptSig tx n s) tx.
Proof. intros sc m t. apply SignatureHash_set_scriptSig. Qed.

Context (mapWallet : list (uint256 * CWalletTx)) (ks : CBasicKeyStore).

(** Everything but the scripts of the inputs from [k] on. *)
Definition frame (k : nat) (tx tx' : CTransaction) : Prop :=
  vout tx' = vout tx /\ map prevout (vin tx') = map prevout (vin tx) /\ (forall j, (j < k)%nat -> vin tx' !! j = vin tx !! j) /\ same_unsigned tx' tx /\
  tx_nTime tx' = tx_nTime tx.

Lemma frame_set tx k s : frame k tx (set_scriptSig tx k s).
Proof.
  split_and!; [done | | | apply same_unsigned_set | done].
  - cbn [set_scriptSig vin]. apply list_eq. intros j. rewrite !list_lookup_fmap.
    destruct (decide (k = j)) as [->|]; [rewrite list_lookup_alter_eq; by destruct (vin tx !! j) | by rewrite list_lookup_alter_ne].
  - intros j Hj. cbn [set_scriptSig vin]. apply list_lookup_alter_ne. lia.
Qed.

Lemma frame_trans k tx tx1 tx2 : frame k tx tx1 -> frame (S k) tx1 tx2 -> frame k tx tx2.
Proof.
  intros (V1 & P1 & J1 & S1 & T1) (V2 & P2 & J2 & S2 & T2). split_and!; [congruence | congruence | | | congruence].
  - intros j Hj. rewrite J2 by lia. by apply J1.
  - intros sc n t. by rewrite S2, S1.
Qed.

Lemma sign_all_spec coins : forall k tx c tx' c', sign_all GetRandHash mapWallet ks coins k tx c = (true, tx', c') -> cache_valid c ->
  length (vin tx) = (k + length coins)%nat ->
  cache_valid c' /\ frame k tx tx' /\
  forall i p, coins !! i = Some p -> exists txin, vin tx' !! (k + i)%nat = Some txin /\
    input_verifies tx' (k + i) (scriptSig txin) (scriptPubKey (coin_out mapWallet p)).
Proof.
  induction coins as [|p coins IH]; intros k tx c tx' c' E Hc Hl; cbn [sign_all] in E.
  - injection E as <- <-. split_and!; [done | split_and!; done | done].
  - pose proof (SignSignature_spec ks (scriptPubKey (coin_out mapWallet p)) tx k SIGHASH_ALL c) as Hs.
    destruct (SignSignature _ _ _ _ _ _ _) as [[[] tx1] c1]; [|done]. destruct Hs as (s & -> & Hs).
    destruct (Hs eq_refl Hc) as [Hc1 Hv]. cbn [length] in Hl.
    destruct (IH (S k) _ c1 tx' c' E Hc1) as (Hc' & Hf & Hi); [cbn; rewrite length_alter; lia|].
    split; [done|]. split; [by eapply frame_trans; [apply frame_set|]|].
    intros [|i] q Hq; cbn in Hq; [|rewrite Nat.add_succ_r; by apply Hi]. injection Hq as <-. rewrite Nat.add_0_r.
    destruct Hf as (_ & _ & Hj & Hsame & _). rewrite Hj by lia. cbn [set_scriptSig vin]. rewrite list_lookup_alter_eq.
    destruct (lookup_lt_is_Some_2 (vin tx) k) as [txin Hin]; [lia|]. rewrite Hin. eexists. split; [done|]. cbn [scriptSig].
    eapply input_verifies_same; [|exact Hv]. intros sc n t. by rewrite Hsame.
Qed.
End Sign.

(** ** Facts: amounts and fees *)

Lemma split_outs_total n s : 1 <= n -> 0 <= snd s < 2 ^ 63 -> sumZ (map nValue (split_outs n s)) = snd s.
Proof.
  intros Hn Hs. unfold split_outs. destruct (Z.to_nat n) as [|m] eqn:Em; [lia|].
  rewrite seq_S, !map_app, sumZ_app. cbn [map Nat.add].
  rewrite (map_map _ nValue). rewrite (map_ext_in _ (fun _ => Z.quot (snd s) n)).
  - destruct (Z.eqb_spec (Z.of_nat m) (n - 1)); [|lia].
    assert (E : sumZ (map (fun _ => Z.quot (snd s) n) (seq 0 m)) = Z.of_nat m * Z.quot (snd s) n).
    { generalize (Z.quot (snd s) n) as q. intros q. generalize O as a. clear. induction m as [|m IH]; intros a; [done|].
      cbn [seq map]. change (sumZ (q :: ?l)) with (q + sumZ l). rewrite IH. lia. }
    rewrite E. cbn [nValue]. rewrite Z.quot_div_nonneg, Z.rem_mod_nonneg by lia.
    pose proof (Z.mod_pos_bound (snd s) n ltac:(lia)). pose proof (Z.div_mod (snd s) n ltac:(lia)).
    assert (0 <= snd s / n) by (apply Z.div_pos; lia).
    rewrite u64_small by nia. rewrite s64_small by nia. cbn. nia.
  - intros i Hi%in_seq. destruct (Z.eqb_spec (Z.of_nat i) (n - 1)); [lia | done].
Qed.

Lemma payees_total fSplit n v : Forall (fun s : CScript * Z => 0 <= snd s < 2 ^ 63) v -> sumZ (map nValue (payees fSplit n v)) = sumZ (map snd v).
Proof.
  intros H. unfold payees. destruct fSplit; cbn [negb]; [|by rewrite map_map].
  induction H as [|s v Hs Hv IH]; [done|]. cbn [flat_map map]. rewrite map_app, sumZ_app, IH, split_outs_total; [done | | done].
  destruct (Z.ltb_spec n 1); lia.
Qed.

Lemma payees_nonempty fSplit n v : v <> [] -> payees fSplit n v <> [].
Proof.
  destruct v as [|s v]; [done|]. intros _. unfold payees. destruct fSplit; cbn [negb]; [|done].
  cbn [flat_map]. unfold split_outs at 1. set (k := if n <? 1 then 1 else n).
  assert (1 <= k) by (unfold k; destruct (Z.ltb_spec n 1); lia). destruct (Z.to_nat k) eqn:E; [lia | done].
Qed.

Lemma send_total_sum v acc : Forall (fun s : CScript * Z => 0 <= snd s) v -> 0 <= acc -> acc + sumZ (map snd v) < 2 ^ 63 ->
  send_total v acc = Some (acc + sumZ (map snd v)).
Proof.
  intros H. revert acc. induction H as [|s v Hs Hv IH]; intros acc Ha Hb; cbn [send_total map].
  - f_equal. cbn. lia.
  - cbn [map] in Hb. change (sumZ (snd s :: map snd v)) with (snd s + sumZ (map snd v)) in *.
    assert (0 <= sumZ (map snd v)) by (apply sumZ_nonneg; by apply Forall_map).
    destruct (Z.ltb_spec acc 0); [lia|]. rewrite s64_small, IH by lia. f_equal. lia.
Qed.

Lemma move_to_fee_spec fee change : 0 <= fee -> 0 <= change -> let '(f, ch) := move_to_fee fee change in
  f + ch = fee + change /\ fee <= f <= Z.max fee MIN_TX_FEE /\ 0 <= ch.
Proof.
  intros Hf Hc. unfold move_to_fee. destruct ((fee <? MIN_TX_FEE) && (0 <? change) && (change <? CENT))%bool eqn:E; [|lia].
  bprop. lia.
Qed.

(** The fee for a size, when it is below a hundred thousand bytes. *)
Definition size_fee (nTransactionFee nBytes : Z) : Z := Z.max nTransactionFee MIN_TX_FEE * (1 + nBytes / 1000).

Lemma required_fee nTransactionFee tx nBytes mode size : 0 <= nTransactionFee <= MAX_MONEY -> 0 <= nBytes < 100000 -> size = 1 \/ size = 1000 ->
  Z.max (s64 (nTransactionFee * (1 + Z.quot nBytes 1000))) (GetMinFee tx size mode nBytes) = size_fee nTransactionFee nBytes /\
  GetMinFee tx size mode nBytes <= size_fee nTransactionFee nBytes.
Proof.
  intros Ht Hn Hsize. unfold size_fee. rewrite Z.quot_div_nonneg by lia.
  assert (Hq : 0 <= nBytes / 1000 < 100) by (split; [apply Z.div_pos; lia | apply Z.div_lt_upper_bound; lia]).
  assert (E : GetMinFee tx size mode nBytes = MIN_TX_FEE * (1 + nBytes / 1000)).
  { unfold GetMinFee. replace (match mode with GMF_RELAY => MIN_RELAY_TX_FEE | _ => MIN_TX_FEE end) with MIN_TX_FEE by (by destruct mode).
    rewrite Z.quot_div_nonneg by lia. cbv zeta. unfold MIN_TX_FEE in *. rewrite (s64_small ((1 + nBytes / 1000) * 20)) by lia.
    destruct (Z.ltb_spec ((1 + nBytes / 1000) * 20) 20); [lia|].
    replace (negb (size =? 1) && (MAX_BLOCK_SIZE_GEN / 2 <=? u32 (size + nBytes)))%bool with false.
    - rewrite (proj2 (MoneyRange_spec _)) by (unfold MAX_MONEY, COIN; lia). cbn [negb]. lia.
    - symmetry. apply andb_false_iff. right. rewrite u32_small by lia. apply Z.leb_gt.
      change (MAX_BLOCK_SIZE_GEN / 2) with 250000. lia. }
  rewrite E. unfold MAX_MONEY, COIN, MIN_TX_FEE in *. rewrite s64_small by nia. split; nia.
Qed.

(** ** Facts: the payment *)

Section Correct.
Context `{HD : Digests} `{EK : ECKeys} `{BN : OpenSSL_BN} `{EC : ECDSA} (GetRandHash : nat -> uint256).
Context {R : Type} `{RD : Random R} `{SE : Selector R} (IsMine : CTxOut -> bool) (mapWallet : list (uint256 * CWalletTx)).
Context {ROK : Random_ok RD} {SOK : Selector_ok SE IsMine mapWallet}.
Context (GetReservedKey : R -> uint160 * R) (ReturnKey : R -> R).
Context (in_order : gset COutPoint -> list COutPoint) (in_order_perm : forall s, in_order s ≡ₚ elements s).
Context (ks : CBasicKeyStore) (nTransactionFee : Z) (fSplitBlock : bool) (nSplitBlock : Z) (coinControl : option coin_control).
Context (vecSend : list (CScript * Z)).
(** The wallet's map has each transaction under its hash. *)
Context (Hkeys : NoDup (map fst mapWallet)) (Hhash : Forall (fun e => fst e = CTransaction_GetHash (w_tx (snd e))) mapWallet).
Context (Hfee : 0 <= nTransactionFee <= MAX_MONEY).
Context (Hsend : Forall (fun s => 0 <= snd s) vecSend) (Htotal : 0 < sumZ (map snd vecSend) <= MAX_MONEY).

Abbreviation outs := (payees fSplitBlock nSplitBlock vecSend).

(** The coin an output of the wallet is. *)
Abbreviation point o := (snd (o_coin o)).

(** What a created transaction is. *)
Record paid (tx : CTransaction) (fee : Z) (os : list COutput) : Prop := {
  pd_coins : NoDup (map (fun o => point o) os) /\ Forall (spendable IsMine mapWallet) os /\ map prevout (vin tx) ≡ₚ map (fun o => point o) os;
  pd_balance : total (map o_value os) = sumZ (map nValue (vout tx)) + fee;
  pd_payees : vout tx = outs \/ exists k change script, (k < length outs)%nat /\ 0 < change /\ vout tx = take k outs ++ mkTxOut change script :: drop k outs;
  pd_size : csize CTransaction_codec tx < 100000;
  pd_fee : size_fee nTransactionFee (csize CTransaction_codec tx) <= fee /\ GetMinFee tx 1000 GMF_RELAY (csize CTransaction_codec tx) <= fee;
  pd_signed : forall i txin, vin tx !! i = Some txin -> exists o t, o ∈ os /\ prevout txin = point o /\
    vout (w_tx (o_tx o)) !! o_i o = Some t /\ input_verifies tx i (scriptSig txin) (scriptPubKey t);
}.

Lemma wallet_find h w : (h, w) ∈ mapWallet -> exists i, list_find (fun e => fst e = h) mapWallet = Some (i, (h, w)).
Proof.
  clear Hhash SOK. revert Hkeys. induction mapWallet as [|[h1 w1] l IH]; intros Hn Hin; [by apply not_elem_of_nil in Hin|].
  cbn [map] in Hn. apply NoDup_cons in Hn as [Hnot Hn]. cbn [list_find]. apply elem_of_cons in Hin as [[= <- <-]|Hin].
  - rewrite decide_True by done. by exists O.
  - rewrite decide_False.
    + destruct (IH Hn Hin) as [i ->]. by exists (S i).
    + cbn. intros ->. apply Hnot. apply list_elem_of_fmap. by exists (h, w).
Qed.

Lemma coin_lookup h w n t : (h, w) ∈ mapWallet -> vout (w_tx w) !! n = Some t ->
  let p := mkOutPoint h (Z.of_nat n) in coin_tx mapWallet p = w_tx w /\ coin_out mapWallet p = t /\ prevout (input_of mapWallet p) = p.
Proof.
  intros Hin Ht. destruct (wallet_find _ _ Hin) as [i E]. unfold coin_out, input_of, coin_tx. cbn [out_hash out_n prevout].
  rewrite E, Nat2Z.id. split_and!; [done | by apply nth_lookup_Some |]. f_equal.
  rewrite Forall_forall in Hhash. symmetry. by apply (Hhash _ Hin).
Qed.

Lemma coin_of o t : spendable IsMine mapWallet o -> vout (w_tx (o_tx o)) !! o_i o = Some t ->
  coin_out mapWallet (point o) = t /\ prevout (input_of mapWallet (point o)) = point o.
Proof. intros (Hin & _) Ht. by apply (coin_lookup _ _ _ _ Hin Ht). Qed.

Lemma add_change_spec change coins r : 0 <= change ->
  let '(os, _) := add_change GetReservedKey ReturnKey mapWallet coinControl change coins outs r in
  sumZ (map nValue os) = sumZ (map nValue outs) + change /\
  (os = outs \/ exists k script, (k < length outs)%nat /\ 0 < change /\ os = take k outs ++ mkTxOut change script :: drop k outs).
Proof.
  intros Hc. unfold add_change. destruct (Z.ltb_spec 0 change); [|split; [lia | by left]].
  destruct (scriptChange GetReservedKey mapWallet coinControl coins r) as [script r1].
  assert (Hne : vecSend <> []) by (intros E; rewrite E in Htotal; cbn in Htotal; lia).
  assert (Hlen : (0 < length outs)%nat) by (pose proof (payees_nonempty fSplitBlock nSplitBlock vecSend Hne); destruct outs; [done | cbn; lia]).
  pose proof (rand_range (Z.of_nat (length outs)) r1 ltac:(lia)) as Hr.
  destruct (GetRandInt (Z.of_nat (length outs)) r1) as [k r2]. cbn [fst] in Hr. split.
  - rewrite <- (take_drop (Z.to_nat k) outs) at 3. rewrite !map_app, !sumZ_app. cbn [map nValue].
    change (sumZ (change :: ?l)) with (change + sumZ l). lia.
  - right. exists (Z.to_nat k), script. split_and!; [lia | done..].
Qed.

Lemma pay_round_spec wtx fee r c : 0 <= fee <= 100 * MAX_MONEY -> cache_valid c ->
  match pay_round GetRandHash GetReservedKey ReturnKey in_order mapWallet ks nTransactionFee fSplitBlock nSplitBlock coinControl vecSend wtx (sumZ (map snd vecSend)) fee r c with
  | Refused => True
  | Retry f _ c => cache_valid c /\ exists n, 0 <= n < 100000 /\ f = size_fee nTransactionFee n /\ fee < f
  | Created tx f _ _ c => exists os, paid tx f os
  end.
Proof.
  intros Hf Hc. set (nVal := sumZ (map snd vecSend)) in *. unfold pay_round.
  assert (HM : MAX_MONEY = 9000000000000000) by done.
  rewrite s64_small by lia. destruct (Select (nVal + fee) (tx_nTime wtx) r) as [[[b s] v] r1] eqn:Es. destruct b; [|done].
  assert (Hpos : 0 < nVal + fee) by lia. destruct (select_pays _ _ _ _ _ _ Hpos Es) as (os & Hnd & -> & -> & Hv & Hsp).
  set (coins := in_order _). assert (Hperm : coins ≡ₚ map (fun o => point o) os).
  { unfold coins. rewrite in_order_perm. by rewrite elements_list_to_set. }
  assert (Hpt : forall p, p ∈ coins -> exists o t, o ∈ os /\ p = point o /\ vout (w_tx (o_tx o)) !! o_i o = Some t /\ coin_out mapWallet p = t /\ prevout (input_of mapWallet p) = p).
  { intros p Hp. rewrite Hperm in Hp. apply list_elem_of_fmap in Hp as (o & -> & Ho). rewrite Forall_forall in Hsp.
    pose proof (Hsp o Ho) as Hso. destruct Hso as (? & (t & Ht & ?) & ?) eqn:E. exists o, t. split_and!; [done.. | |]; by apply (coin_of o t Hso). }
  rewrite (s64_small (_ - nVal)), s64_small by lia.
  pose proof (move_to_fee_spec fee (total (map o_value os) - nVal - fee) ltac:(lia) ltac:(lia)) as Hmv.
  destruct (move_to_fee fee _) as [f ch]. destruct Hmv as (Hsum & Hfb & Hch).
  pose proof (add_change_spec ch coins r1 Hch) as Hadd. destruct (add_change _ _ _ _ ch coins outs r1) as [vo r2]. destruct Hadd as [Hvo Hform].
  destruct (sign_all GetRandHash mapWallet ks coins 0 _ c) as [[ok tx] c'] eqn:Esign. destruct ok; [|done].
  apply sign_all_spec in Esign as (Hc' & (Hout & Hprev & _ & _) & Hver); [|done | cbn; by rewrite length_map]. cbn [vin vout] in Hout, Hprev.
  assert (Hnb : 0 <= csize CTransaction_codec tx) by (cbn [csize CTransaction_codec iso_codec pair_codec]; apply u32_range).
  change (MAX_BLOCK_SIZE_GEN / 5) with 100000. destruct (Z.leb_spec 100000 (csize CTransaction_codec tx)); [done|].
  destruct (required_fee nTransactionFee tx (csize CTransaction_codec tx) GMF_SEND 1 Hfee ltac:(lia) ltac:(by left)) as [-> _].
  destruct (Z.ltb_spec f (size_fee nTransactionFee (csize CTransaction_codec tx))) as [Hlt|Hge].
  - split; [done|]. eexists. split_and!; [done | done | done | lia].
  - assert (Hprev' : map prevout (vin tx) = coins).
    { rewrite Hprev, map_map. rewrite <- (map_id coins) at 2. apply map_ext_in. intros p Hp%list_elem_of_In. by destruct (Hpt p Hp) as (? & ? & _ & _ & _ & _ & ->). }
    exists os. split.
    + split_and!; [done | done | by rewrite Hprev'].
    + rewrite Hout, Hvo, payees_total; [fold nVal; lia|]. apply Forall_forall. intros s Hs. rewrite Forall_forall in Hsend. split; [by apply Hsend|].
      assert (snd s <= nVal); [|lia]. unfold nVal. apply list_elem_of_split in Hs as (l1 & l2 & E). rewrite E, map_app, sumZ_app.
      rewrite E in Hsend. assert (Forall (fun s : CScript * Z => 0 <= snd s) (l1 ++ s :: l2)) as [H1 H2]%Forall_app by by apply Forall_forall.
      apply Forall_cons in H2 as [_ H2]. apply Forall_map, sumZ_nonneg in H1, H2. cbn [map]. change (sumZ (snd s :: ?l)) with (snd s + sumZ l). lia.
    + rewrite Hout. destruct Hform as [->|(k & script & Hk)]; [by left|]. right. by exists k, ch, script.
    + done.
    + split; [done|]. etrans; [|exact Hge]. by apply required_fee; [| |right].
    + intros i txin Hi. assert (Hp : coins !! i = Some (prevout txin)) by (rewrite <- Hprev', list_lookup_fmap, Hi; done).
      destruct (Hver i _ Hp) as (txin' & Hi' & Hok). rewrite Nat.add_0_l in Hi', Hok. rewrite Hi in Hi'. injection Hi' as <-.
      destruct (Hpt (prevout txin)) as (o & t & Ho & Ep & Ht & Eo & _); [by eapply list_elem_of_lookup_2|].
      exists o, t. rewrite Eo in Hok. done.
Qed.

(** The fee after [j] rounds is at least the price of [j] thousand bytes, so a hundred and one rounds are enough. *)
Lemma pay_loop_ends wtx fuel : forall (j : Z) fee r c, 0 <= j -> 101 <= Z.of_nat fuel + j -> Z.max nTransactionFee MIN_TX_FEE * j <= fee -> 0 <= fee <= 100 * MAX_MONEY ->
  cache_valid c -> (fuel = O -> False) \/ j <= 100 ->
  exists res, pay_loop GetRandHash GetReservedKey ReturnKey in_order mapWallet ks nTransactionFee fSplitBlock nSplitBlock coinControl vecSend fuel wtx (sumZ (map snd vecSend)) fee r c = Some res /\
  match res with Refused => True | Retry _ _ _ => False | Created tx f _ _ _ => exists os, paid tx f os end.
Proof.
  induction fuel as [|fuel IH]; intros j fee r c Hj Hfuel Hlow Hf Hc Hz; [exfalso; destruct Hz; [by auto | lia]|]. cbn [pay_loop].
  pose proof (pay_round_spec wtx fee r c Hf Hc) as H.
  destruct (pay_round _ _ _ _ _ _ _ _ _ _ _ wtx (sumZ (map snd vecSend)) fee r c) as [|f r1 c1|tx f coins r1 c1]; [by exists Refused| |by eexists].
  destruct H as (Hc1 & n & Hn & -> & Hlt).
  assert (Hq : 0 <= n / 1000 <= 99) by (split; [apply Z.div_pos; lia | apply Z.lt_succ_r, Z.div_lt_upper_bound; lia]).
  unfold size_fee in *. set (m := Z.max nTransactionFee MIN_TX_FEE) in *. set (q := n / 1000) in *.
  assert (Hm : 20 <= m <= MAX_MONEY) by (unfold m, MIN_TX_FEE, MAX_MONEY, COIN in *; lia).
  assert (j < 1 + q) by nia. apply (IH (j + 1)); [lia | lia | nia | nia | done | right; lia].
Qed.

Lemma create_ends wtx r c : cache_valid c ->
  exists res, CreateTransaction GetRandHash GetReservedKey ReturnKey in_order mapWallet ks nTransactionFee fSplitBlock nSplitBlock coinControl vecSend wtx r c = Some res /\
  match res with Refused => True | Retry _ _ _ => False | Created tx f _ _ _ => exists os, paid tx f os end.
Proof.
  intros Hc. unfold CreateTransaction. rewrite send_total_sum by (done || unfold MAX_MONEY, COIN in *; lia). rewrite Z.add_0_l.
  assert (Hne : forall a b : option (round_result (R := R)), match vecSend with [] => a | _ => b end = b).
  { intros a b. assert (vecSend <> []) by (intros E; rewrite E in Htotal; cbn in Htotal; lia). by destruct vecSend. }
  rewrite Hne. destruct (Z.ltb_spec (sumZ (map snd vecSend)) 0); [lia|].
  assert (HM : MAX_MONEY = 9000000000000000) by done.
  apply (pay_loop_ends wtx 101 0); [lia | cbn; lia | destruct fSplitBlock; unfold COIN; lia | destruct fSplitBlock; unfold COIN; lia | done | by left].
Qed.
End Correct.

(** ** The wallet's selector *)

(** [SelectCoins] without chosen coins and without [-minimizecoinage] *)
Definition wallet_selector {R} (rand_bit : R -> bool * R) (random_shuffle : list COutput -> R -> list COutput * R)
    (byAge : Z -> Z -> Z -> Z -> list COutput -> R -> bool * gset COutPoint * Z * R) (IsMine : CTxOut -> bool) (nMin : Z)
    (mapWallet : list (uint256 * CWalletTx)) : Selector R :=
  {| Select t time r := SelectCoins rand_bit random_shuffle false byAge IsMine nMin mapWallet t time (∅, 0) None r |}.

(** With chosen coins all of them are used. *)
Definition chosen_selector {R} (rand_bit : R -> bool * R) (random_shuffle : list COutput -> R -> list COutput * R)
    (byAge : Z -> Z -> Z -> Z -> list COutput -> R -> bool * gset COutPoint * Z * R) (fMinimizeCoinAge : bool) (IsMine : CTxOut -> bool) (nMin : Z)
    (mapWallet : list (uint256 * CWalletTx)) (sel : gset COutPoint) : Selector R :=
  {| Select t time r := SelectCoins rand_bit random_shuffle fMinimizeCoinAge byAge IsMine nMin mapWallet t time (∅, 0) (Some sel) r |}.

Section Instances.
Context {R : Type} (rand_bit : R -> bool * R) (random_shuffle : list COutput -> R -> list COutput * R).
Context (shuffle_perm : forall l r, fst (random_shuffle l r) ≡ₚ l).
Context (byAge : Z -> Z -> Z -> Z -> list COutput -> R -> bool * gset COutPoint * Z * R) (IsMine : CTxOut -> bool) (nMin : Z).
Context (mapWallet : list (uint256 * CWalletTx)) (Hkeys : NoDup (map fst mapWallet)).

Lemma chosen_selector_ok fMin sel : HasSelected sel = true ->
  Forall (fun o => 0 <= o_value o) (AvailableCoins IsMine nMin true (Some sel) mapWallet) ->
  amounts (map o_coin (AvailableCoins IsMine nMin true (Some sel) mapWallet)) < 2 ^ 63 ->
  Selector_ok (chosen_selector rand_bit random_shuffle byAge fMin IsMine nMin mapWallet sel) IsMine mapWallet.
Proof.
  intros Hsel Hpos Hmax. split. intros t time r s v r' Ht. cbn [Select chosen_selector]. unfold SelectCoins. rewrite Hsel.
  set (os := AvailableCoins IsMine nMin true (Some sel) mapWallet) in *.
  pose proof (take_coins_spec (map o_coin os) (∅, 0) ltac:(by apply Forall_map) ltac:(cbn; lia) ltac:(cbn; lia)) as Hspec.
  destruct (take_coins (map o_coin os) (∅, 0)) as [s1 v1]. cbn [fst snd] in *. intros [= Hle <- <- <-]. apply Z.leb_le in Hle.
  injection Hspec as -> ->. unfold amounts in *. rewrite !map_map in *. exists os. split_and!.
  - by apply available_nodup.
  - set_solver.
  - done.
  - lia.
  - cbn in Hmax |- *. lia.
  - apply Forall_forall. intros o Ho. by eapply available_spendable.
Qed.

Lemma wallet_selector_ok : Forall (fun o => 0 <= o_value o) (AvailableCoins IsMine nMin true None mapWallet) ->
  amounts (map o_coin (AvailableCoins IsMine nMin true None mapWallet)) < 2 ^ 63 - 1 ->
  Selector_ok (wallet_selector rand_bit random_shuffle byAge IsMine nMin mapWallet) IsMine mapWallet.
Proof.
  intros Hpos Hmax. split. intros t time r s v r' Ht. cbn [Select wallet_selector].
  destruct (SelectCoins_spec rand_bit random_shuffle shuffle_perm IsMine nMin mapWallet t time (∅, 0) byAge r Ht Hkeys Hpos Hmax)
    as (b & s1 & v1 & r1 & -> & _ & H). intros [= -> <- <- <-]. destruct (H eq_refl) as [Hp (os & Hnd & Hs & Hv & Hle & Hsp)].
  exists os. split_and!; [done..| |done].
  assert (Hb : forall cm ct, pays (eligible (coin_allowed time cm ct) (AvailableCoins IsMine nMin true None mapWallet)) t s1 v1 -> v1 < 2 ^ 63).
  { intros cm ct (cs & Hcs & _ & -> & _). set (coins := AvailableCoins _ _ _ _ _) in *.
    assert (Hall : eligible (coin_allowed time cm ct) coins ⊆+ map o_coin coins) by (etrans; [by apply (eligible_mono _ (fun _ => true)) | by rewrite eligible_all]).
    destruct (amounts_submseteq cs (map o_coin coins)) as [_ ?]; [by etrans | by apply Forall_map | lia]. }
  destruct Hp as [Hp|[_ [Hp|[_ Hp]]]]; by apply Hb in Hp.
Qed.
End Instances.

(** ** Claims *)

(** C25: creating a payment always comes to an end, within a hundred and one rounds, and a transaction it creates is sound: its
    inputs are distinct spendable coins of the wallet; their value is what goes to the outputs and the fee; the
    outputs are those of the payees, with at most one more, the change; the fee is at least the wallet's rate and the relay fee
    for its size, which is below a hundred thousand bytes; and every input script verifies against the output it
    spends.  This holds for every choice of coins that keeps the contract of the selector. *)
Theorem payment_correct `{HD : Digests} `{EK : ECKeys} `{BN : OpenSSL_BN} `{EC : ECDSA} GetRandHash {R : Type} (RD : Random R) (SE : Selector R) IsMine mapWallet
    GetReservedKey ReturnKey in_order ks nTransactionFee fSplitBlock nSplitBlock coinControl vecSend wtx (r : R) c :
  Random_ok RD -> Selector_ok SE IsMine mapWallet -> (forall s, in_order s ≡ₚ elements s) ->
  NoDup (map fst mapWallet) -> Forall (fun e => fst e = CTransaction_GetHash (w_tx (snd e))) mapWallet ->
  0 <= nTransactionFee <= MAX_MONEY -> Forall (fun s => 0 <= snd s) vecSend -> 0 < sumZ (map snd vecSend) <= MAX_MONEY -> cache_valid c ->
  exists res, CreateTransaction GetRandHash GetReservedKey ReturnKey in_order mapWallet ks nTransactionFee fSplitBlock nSplitBlock coinControl vecSend wtx r c = Some res /\
  match res with
  | Refused => True
  | Retry _ _ _ => False
  | Created tx fee _ _ _ => exists os, paid IsMine mapWallet nTransactionFee fSplitBlock nSplitBlock vecSend tx fee os /\
      sumZ (map nValue (vout tx)) + fee = total (map o_value os)
  end.
Proof.
  intros ROK SOK Hord Hk Hh Hf Hs Ht Hc.
  destruct (create_ends GetRandHash IsMine mapWallet GetReservedKey ReturnKey in_order Hord ks nTransactionFee fSplitBlock nSplitBlock coinControl vecSend Hk Hh Hf Hs Ht wtx r c Hc)
    as (res & E & H). exists res. split; [done|]. destruct res as [| |tx fee coins r1 c1]; [done..|].
  destruct H as [os H]. exists os. split; [done|]. symmetry. apply (pd_balance _ _ _ _ _ _ _ _ _ H).
Qed.

(** The change never is the last output: with one payee it always is the first. *)
Theorem change_never_last `{HD : Digests} `{EC : ECDSA} `{BN : OpenSSL_BN} IsMine mapWallet nTransactionFee fSplitBlock nSplitBlock vecSend tx fee os :
  paid IsMine mapWallet nTransactionFee fSplitBlock nSplitBlock vecSend tx fee os ->
  last (vout tx) = last (payees fSplitBlock nSplitBlock vecSend).
Proof.
  intros [_ _ [->|(k & ch & sc & Hk & _ & ->)] _ _ _]; [done|]. set (l := payees _ _ _) in *.
  rewrite <- (take_drop k l) at 3. assert (Hd : drop k l <> []) by (intros E; apply (f_equal length) in E; rewrite length_drop in E; cbn in E; lia).
  destruct (drop k l) as [|x d]; [done|]. rewrite !last_app, !last_cons. by destruct (last d).
Qed.

(** With [fReturnChange], change from coins without an address goes to the empty script. *)
Theorem return_change_empty `{HD : Digests} {R} (GetReservedKey : R -> uint160 * R) mapWallet cc coins (r : R) :
  fReturnChange cc = true -> Forall (fun p => ExtractDestination (scriptPubKey (coin_out mapWallet p)) = None) coins ->
  scriptChange GetReservedKey mapWallet (Some cc) coins r = ([], r).
Proof.
  intros Hr Hc. unfold scriptChange. rewrite Hr. f_equal. unfold utxoAddress.
  induction Hc as [|p coins Hp Hc IH]; [done|]. cbn [fold_left]. by rewrite Hp.
Qed.

(** ** Witness *)

Definition demo_key : secret := ([], true).
Definition demo_id : uint160 := Eval vm_compute in @Hash160 toy_digests (2 :: replicate 32 1).
Definition demo_script : CScript := Eval vm_compute in SetDestination (CKeyID demo_id).
Definition demo_prev : CTransaction := mkTx 1 0 [] [mkTxOut (50 * COIN) demo_script] 0.
Definition demo_hash : uint256 := Eval vm_compute in @CTransaction_GetHash toy_digests demo_prev.
Definition demo_coins : list (uint256 * CWalletTx) := [(demo_hash, mkWalletTx demo_prev true true 0 20 [] false)].
Definition demo_ks : CBasicKeyStore := @AddKey toy_digests one_sig_keys (mkKeyStore ∅ ∅) demo_key.
Definition demo_random : Random unit := {| GetRandInt _ u := (0, u) |}.
Definition demo_select : Selector unit :=
  wallet_selector (fun u => (true, u)) (fun l u => (l, u)) (fun _ _ _ _ _ u => (false, ∅, 0, u)) (fun _ => true) 0 demo_coins.

Definition demo_create :=
  @CreateTransaction toy_digests one_sig_keys reference_BN one_sig_ECDSA (fun _ => []) unit demo_random demo_select
    (fun u => (demo_id, u)) (fun u => u) elements demo_coins demo_ks 10 false 1 None [([0x51], 3 * COIN)] (mkTx 1 100 [] [] 0) tt (mkCache [] 10 0).

Lemma payment_correct_witness : exists tx fee os, sumZ (map nValue (vout tx)) + fee = total (map o_value os) /\ 20 <= fee /\ length (vout tx) = 2%nat.
Proof.
  destruct (@payment_correct toy_digests one_sig_keys reference_BN one_sig_ECDSA (fun _ => []) unit demo_random demo_select (fun _ => true) demo_coins
    (fun u => (demo_id, u)) (fun u => u) elements demo_ks 10 false 1 None [([0x51], 3 * COIN)] (mkTx 1 100 [] [] 0) tt (mkCache [] 10 0)) as (res & E & H).
  - split. cbn. lia.
  - apply wallet_selector_ok; [done | | |].
    + apply (bool_decide_unpack _). vm_compute. exact I.
    + apply (bool_decide_unpack _). vm_compute. exact I.
    + vm_compute. reflexivity.
  - done.
  - apply (bool_decide_unpack _). vm_compute. exact I.
  - apply (bool_decide_unpack _). vm_compute. exact I.
  - unfold MAX_MONEY, COIN. lia.
  - repeat constructor. cbn. unfold COIN. lia.
  - cbn. unfold MAX_MONEY, COIN. lia.
  - constructor.
  - fold demo_create in E.
    assert (Ec : match demo_create with Some (Created tx fee _ _ _) => ((20 <=? fee) && (length (vout tx) =? 2)%nat)%bool | _ => false end = true) by (vm_compute; reflexivity).
    rewrite E in Ec. destruct res as [| |tx fee coins r1 c1]; [done..|]. destruct H as (os & _ & H). clear E. apply andb_true_iff in Ec as [E1 E2]. exists tx, fee, os. split; [exact H|]. split; [by apply Z.leb_le | by apply Nat.eqb_eq].
Defined.
