(* ===== verification/Stake.v ===== *)
(** * Minting: the coinstake and the signed block (wallet.cpp: [CreateCoinStake]; main.cpp: [SignBlock])

    The wallet searches its coins for a kernel that meets the stake target, adds
    small coins of the same key, pays itself the reward and signs; the block
    template then takes the coinstake as its second transaction and is signed with
    the key of the kernel.  The index, the files and the order of the set of coins
    (by address in memory) are parameters, as in [Kernel] and [Payment]. *)

From S2P Require Import Prelude Uint256 Serialize BigNum Tx Merkle Script Interp InterpRun Standard Consensus Ledger Kernel MinerFacts Util CoinSelect Payment.
#[local] Open Scope Z_scope.

Definition nStakeCombineAge : Z := 14 * 24 * 60 * 60.

(** The members of the wallet, [nCombineThreshold] and the text of [-reservebalance] *)
Record stake_settings := mkSettings {
  nStakeSplitThreshold : Z; nHashDrift : Z; nCombineThreshold : Z; strReserveBalance : option (list Z);
}.

(** ** The balance *)

Section Balance.
Context (IsMine : CTxOut -> bool).

(** [CWallet::GetCredit(txout)]; [None] when it throws. *)
Definition GetCredit (t : CTxOut) : option Z :=
  if negb (MoneyRange (nValue t)) then None else Some (if IsMine t then nValue t else 0).

Fixpoint available_credit (w : CWalletTx) (i : nat) (outs : list CTxOut) (nCredit : Z) : option Z :=
  match outs with
  | [] => Some nCredit
  | t :: outs =>
      if w_IsSpent w i then available_credit w (S i) outs nCredit
      else match GetCredit t with
           | None => None
           | Some n =>
               let nCredit := s64 (nCredit + n) in
               if negb (MoneyRange nCredit) then None else available_credit w (S i) outs nCredit
           end
  end.

(** [CWalletTx::GetAvailableCredit]; the cached answer is the computed one. *)
Definition GetAvailableCredit (w : CWalletTx) : option Z :=
  if ((IsCoinBase (w_tx w) || IsCoinStake (w_tx w)) && (0 <? w_BlocksToMaturity w))%bool then Some 0
  else available_credit w 0 (vout (w_tx w)) 0.

Fixpoint balance_loop (mapWallet : list (uint256 * CWalletTx)) (nTotal : Z) : option Z :=
  match mapWallet with
  | [] => Some nTotal
  | (_, w) :: mapWallet =>
      if (w_IsFinal w && w_IsConfirmed w)%bool then
        match GetAvailableCredit w with
        | None => None
        | Some n => balance_loop mapWallet (s64 (nTotal + n))
        end
      else balance_loop mapWallet nTotal
  end.

Definition GetBalance (mapWallet : list (uint256 * CWalletTx)) : option Z := balance_loop mapWallet 0.
End Balance.

(** ** CreateCoinStake *)

(** A kernel: the coin, the time, the key, the script of the output and whether the stake is split. *)
Record kernel := mkKernel { k_coin : COutPoint; k_time : Z; k_key : secret; k_script : CScript; k_split : bool }.

Section CoinStake.
Context `{HD : Digests} `{EK : ECKeys} `{BN : OpenSSL_BN} `{EC : ECDSA} (GetRandHash : nat -> uint256).
Context (params : chain_params) (mapBlockIndex : gmap uint256 CBlockIndex) (pnexts : uint256 -> list CBlockIndex).
Context (ReadTxFromDisk : CDiskTxPos -> option CTransaction) (ReadHeaderFromDisk : Z -> Z -> option CBlockHeader).
Context (mt19937_uniform : Z -> Z -> Z) (in_order : gset COutPoint -> list COutPoint).
Context (txdb : txindex_map) (pindexBest : list CBlockIndex).
Context (IsMine : CTxOut -> bool) (nMinimumInputValue : Z) (mapWallet : list (uint256 * CWalletTx)) (ks : CBasicKeyStore).
Context (settings : stake_settings).

(** The key of the kernel's script and the script of the stake output. *)
Definition kernel_key (script : CScript) : option (secret * CScript) :=
  match Solver script with
  | (true, TX_PUBKEYHASH, vSolutions) =>
      match GetKey ks (uint_of_vch 5 (nth 0 vSolutions [])) with
      | None => None
      | Some key => Some (key, push_data (key_GetPubKey key) ++ [OP_CHECKSIG])
      end
  | (true, TX_PUBKEY, vSolutions) =>
      let vchPubKey := nth 0 vSolutions [] in
      match GetKey ks (Hash160 vchPubKey) with
      | None => None
      | Some key => if bool_decide (key_GetPubKey key = vchPubKey) then Some (key, script) else None
      end
  | _ => None
  end.

(** Unsigned 64-bit arithmetic; the factor of the age is an integer division. *)
Definition split_stake (nValue nTime nBlockTime : Z) : bool :=
  let nTotalSize := u64 (s64 (nValue * (1 + Z.quot (nTime - nBlockTime) (60 * 60 * 24) * Z.quot (Z.quot MAX_MINT_PROOF_OF_STAKE COIN) 365))) in
  u64 (nStakeSplitThreshold settings * COIN) <? nTotalSize / 2.

(** One coin: [None] to go on with the next, [Some None] to stop without a kernel. *)
Definition try_coin (nBits nTimeNew : Z) (p : COutPoint) : option (option kernel) :=
  let hash := CTransaction_GetHash (coin_tx mapWallet p) in
  match txdb !! hash with
  | None => None
  | Some txindex =>
      match ReadHeaderFromDisk (nFile (pos txindex)) (nBlockPos (pos txindex)) with
      | None => None
      | Some block =>
          if nTimeNew <? nTime block + nStakeMinAge params then None
          else
            match CheckStakeKernelHash params mapBlockIndex pnexts nBits block (u32 (nTxPos (pos txindex) - nBlockPos (pos txindex)))
                    (coin_tx mapWallet p) (mkOutPoint hash (out_n p)) nTimeNew (nHashDrift settings) false (uint_zero 8) with
            | Some (true, nTimeKernel, _) =>
                match kernel_key (scriptPubKey (coin_out mapWallet p)) with
                | None => Some None
                | Some (key, script) =>
                    Some (Some (mkKernel p nTimeKernel key script (split_stake (nValue (coin_out mapWallet p)) nTimeKernel (nTime block))))
                end
            | _ => None
            end
      end
  end.

Fixpoint kernel_loop (nBits nTimeNew : Z) (coins : list COutPoint) : option kernel :=
  match coins with
  | [] => None
  | p :: coins => match try_coin nBits nTimeNew p with None => kernel_loop nBits nTimeNew coins | Some k => k end
  end.

(** The coins added to the kernel, and [nCredit]; [nIn] is the number of inputs so far. *)
Fixpoint combine_loop (k : kernel) (nLimit : Z) (coins : list COutPoint) (nIn : nat) (nCredit : Z) : list COutPoint * Z :=
  match coins with
  | [] => ([], nCredit)
  | p :: rest =>
      let script := scriptPubKey (coin_out mapWallet p) in
      let n := nValue (coin_out mapWallet p) in
      if (negb (k_split k) && (bool_decide (script = scriptPubKey (coin_out mapWallet (k_coin k))) || bool_decide (script = k_script k)) &&
          negb (bool_decide (CTransaction_GetHash (coin_tx mapWallet p) = CTransaction_GetHash (coin_tx mapWallet (k_coin k)))))%bool then
        let nTimeWeight := GetWeight params (tx_nTime (coin_tx mapWallet p)) (k_time k) in
        if (100 <=? nIn)%nat then ([], nCredit)
        else if nCombineThreshold settings <=? nCredit then ([], nCredit)
        else if nLimit <? s64 (nCredit + n) then ([], nCredit)
        else if nCombineThreshold settings <=? n then combine_loop k nLimit rest nIn nCredit
        else if nTimeWeight <? nStakeCombineAge then combine_loop k nLimit rest nIn nCredit
        else let '(added, nCredit) := combine_loop k nLimit rest (S nIn) (s64 (nCredit + n)) in (p :: added, nCredit)
      else combine_loop k nLimit rest nIn nCredit
  end.

Definition stake_outputs (k : kernel) (nCredit : Z) : list CTxOut :=
  if k_split k then
    let half := Z.quot (Z.quot nCredit 2) CENT * CENT in
    [mkTxOut 0 []; mkTxOut half (k_script k); mkTxOut (nCredit - half) (k_script k)]
  else [mkTxOut 0 []; mkTxOut nCredit (k_script k)].

(** The reward asks for the best block only when it has a parent. *)
Definition stake_prev_hash : uint256 :=
  match pindexBest with b :: _ :: _ => bi_hash b | _ => uint_zero 8 end.

Definition reserve_balance : option Z :=
  match strReserveBalance settings with None => Some 0 | Some s => ParseMoney s end.

(** From the kernel on: the other inputs, the reward, the outputs, the signatures. *)
Definition stake_with (txNew : CTransaction) (nBits nFees nLimit : Z) (coins : list COutPoint) (k : kernel) (c : CSignatureCache)
    : option (CTransaction * secret * CSignatureCache) :=
  let nCredit := s64 (0 + nValue (coin_out mapWallet (k_coin k))) in
  if ((nCredit =? 0) || (nLimit <? nCredit))%bool then None
  else
    let '(added, nCredit) := combine_loop k nLimit coins 1 nCredit in
    let prevs := k_coin k :: added in
    let tx outs := mkTx (tx_nVersion txNew) (k_time k) (map (input_of mapWallet) prevs) outs (nLockTime txNew) in
    match GetCoinAge ReadTxFromDisk ReadHeaderFromDisk (nStakeMinAge params) txdb (tx (stake_outputs k 0)) with
    | None => None
    | Some nCoinAge =>
        let nReward := GetProofOfStakeReward mt19937_uniform (s64 nCoinAge) nBits (k_time k) nFees nCredit stake_prev_hash in
        if nReward <=? 0 then None
        else
          match sign_all GetRandHash mapWallet ks prevs 0 (tx (stake_outputs k (s64 (nCredit + nReward)))) c with
          | (false, _, _) => None
          | (true, tx, c) => if MAX_BLOCK_SIZE_GEN / 5 <=? csize CTransaction_codec tx then None else Some (tx, k_key k, c)
          end
    end.

(** [None] when it returns false or throws. *)
Definition CreateCoinStake (nBits nFees : Z) (txNew : CTransaction) (c : CSignatureCache) : option (CTransaction * secret * CSignatureCache) :=
  match GetBalance IsMine mapWallet, reserve_balance with
  | Some nBalance, Some nReserveBalance =>
      if nBalance <=? nReserveBalance then None
      else
        let '(_, setCoins, _) := SelectCoinsSimple IsMine nMinimumInputValue mapWallet (nBalance - nReserveBalance) (tx_nTime txNew)
          (nCoinbaseMaturity params + 20) in
        let coins := in_order setCoins in
        match kernel_loop nBits (tx_nTime txNew) coins with
        | None => None
        | Some k => stake_with txNew nBits nFees (nBalance - nReserveBalance) coins k c
        end
  | _, _ => None
  end.

(** ** SignBlock *)

(** [nLastCoinStakeSearchTime], which the first call sets to the time, and [nLastCoinStakeSearchInterval] *)
Record search_clock := mkClock { nLastCoinStakeSearchTime : Z; nLastCoinStakeSearchInterval : Z }.

Definition set_tx_time (t : Z) (tx : CTransaction) : CTransaction := mkTx (tx_nVersion tx) t (vin tx) (vout tx) (nLockTime tx).

(** The time after which the next block must come. *)
Definition earliest_time : Z := Z.max (GetMedianTimePast pindexBest + 1)
  match pindexBest with b :: _ => bi_nTime b - GetClockDrift (bi_nTime b) | [] => 0 end.

(** The block with the coinstake, before it is signed. *)
Definition place_coinstake (h : CBlockHeader) (coinbase : CTransaction) (rest : list CTransaction) (sig : list Z) (stake : CTransaction) : CBlock :=
  let vtx := set_tx_time (tx_nTime stake) coinbase :: rest in
  let t := u32 (Z.max (GetMedianTimePast pindexBest + 1) (GetMaxTransactionTime (mkBlock h vtx sig))) in
  let t := u32 (Z.max t match pindexBest with b :: _ => bi_nTime b - GetClockDrift (bi_nTime b) | [] => 0 end) in
  let vtx := filter (fun tx => tx_nTime tx <= t) vtx in
  let vtx := take 1 vtx ++ stake :: drop 1 vtx in
  let root := BuildMerkleTree (mkBlock h vtx sig) in
  mkBlock (mkHeader (nVersion h) (hashPrevBlock h) root t (nBits h) (nNonce h)) vtx sig.

(** The answer, the block and the clock; [None] when there is no [vtx[0].vout[0]].  A failed
    signature leaves none; the best block is not null. *)
Definition SignBlock (nAdjustedTime nFees : Z) (b : CBlock) (clock : search_clock) (c : CSignatureCache)
    : option (bool * CBlock * search_clock) :=
  match vtx b with
  | [] => None
  | coinbase :: rest =>
      match vout coinbase with
      | [] => None
      | o :: _ =>
          if negb (CTxOut_IsEmpty o) then Some (false, b, clock)
          else if IsProofOfStake b then Some (true, b, clock)
          else
            let txCoinStake := mkTx 1 (u32 nAdjustedTime) [] [] 0 in
            let nSearchTime := tx_nTime txCoinStake in
            let searched := mkClock nSearchTime (nSearchTime - nLastCoinStakeSearchTime clock) in
            if nLastCoinStakeSearchTime clock <? nSearchTime then
              match CreateCoinStake (nBits (header b)) nFees txCoinStake c with
              | Some (txCoinStake, key, _) =>
                  if earliest_time <=? tx_nTime txCoinStake then
                    let b := place_coinstake (header b) coinbase rest (vchBlockSig b) txCoinStake in
                    match key_Sign key (CBlockHeader_GetHash (header b)) with
                    | Some sig => Some (true, mkBlock (header b) (vtx b) sig, clock)
                    | None => Some (false, mkBlock (header b) (vtx b) [], clock)
                    end
                  else Some (false, b, searched)
              | None => Some (false, b, searched)
              end
            else Some (false, b, clock)
      end
  end.
End CoinStake.

(** ** Facts: the search *)

Section Search.
Context `{HD : Digests} `{BN : OpenSSL_BN} (params : chain_params).
Context (Hage : 0 <= nStakeMinAge params < 2 ^ 32).

Lemma GetWeight_mono prev t t' : 0 <= prev <= t -> t <= t' < 2 ^ 32 -> GetWeight params prev t <= GetWeight params prev t'.
Proof. intros H H'. unfold GetWeight. rewrite !s64_small by lia. lia. Qed.

Lemma stakeTargetHit_mono h w w' v target : w <= w' -> 0 <= v -> 0 <= target ->
  stakeTargetHit h w v target = true -> stakeTargetHit h w' v target = true.
Proof.
  intros Hw Hv Ht. unfold stakeTargetHit. rewrite !Z.ltb_lt. intros H. eapply Z.lt_le_trans; [exact H|].
  apply Z.mul_le_mono_nonneg_r; [done|]. do 2 (apply Z.quot_le_mono; [unfold COIN; lia|]). nia.
Qed.

(** A kernel that is fine at time [t]. *)
Definition kernel_at (prev v target : Z) (ss : list Z) (idx off from t : Z) : Prop :=
  stakeTargetHit (stakeHash t prev ss idx off from) (GetWeight params prev t) v target = true.

(** From [n] tries before the end, the time moves up by at most the sum of [n], [n - 1], ..., and where a try
    succeeded the kernel is fine at the time that is left. *)
Lemma search_loop_spec prev v target ss idx off from d : 0 <= prev -> 0 <= v -> 0 <= target ->
  forall n i t fSuccess h, i + Z.of_nat n = d -> prev <= t -> 2 * t + Z.of_nat n * (Z.of_nat n + 1) < 2 ^ 33 ->
  let '(ok, t', _) := search_loop params n i d prev v target ss idx off from t fSuccess h in
  2 * t <= 2 * t' <= 2 * t + Z.of_nat n * (Z.of_nat n + 1) /\
  ((ok = fSuccess /\ t' = t) \/ (ok = true /\ t < t' /\ kernel_at prev v target ss idx off from t')).
Proof.
  intros Hp Hv Ht n. induction n as [|n IH]; intros i t ok h Hd Hpt Hb; cbn [search_loop]; [split; [lia | by left]|].
  replace (t + d - i) with (t + Z.of_nat (S n)) by lia. rewrite u32_small by nia.
  destruct (stakeTargetHit _ (GetWeight params prev t) v target) eqn:Hhit.
  - specialize (IH (i + 1) (t + Z.of_nat (S n)) true (stakeHash (t + Z.of_nat (S n)) prev ss idx off from) ltac:(lia) ltac:(lia) ltac:(nia)).
    destruct (search_loop _ _ _ _ _ _ _ _ _ _ _ _ _ _) as [[ok' t'] h']. destruct IH as [Hr Ho]. split; [nia|]. right.
    destruct Ho as [[-> ->]|(-> & Hlt & Hk)]; [|split_and!; [done | lia | done]]. split_and!; [done | lia |].
    eapply stakeTargetHit_mono; [| done | done | exact Hhit]. apply GetWeight_mono; nia.
  - specialize (IH (i + 1) t ok (stakeHash (t + Z.of_nat (S n)) prev ss idx off from) ltac:(lia) Hpt ltac:(nia)).
    destruct (search_loop _ _ _ _ _ _ _ _ _ _ _ _ _ _) as [[ok' t'] h']. destruct IH as [Hr Ho]. split; [nia | done].
Qed.

(** The time after [k] of [d] tries that all succeeded: the next one looks [d - k] seconds beyond it. *)
Fixpoint drifted (t d : Z) (k : nat) : Z := match k with O => t | S k => drifted t d k + d - Z.of_nat k end.

Lemma drifted_sum t d k : 2 * drifted t d k = 2 * t + Z.of_nat k * (2 * d - Z.of_nat k + 1).
Proof. induction k as [|k IH]; cbn [drifted]; [lia|]. rewrite Nat2Z.inj_succ. nia. Qed.

Lemma drifted_end t d : 0 <= d -> drifted t d (Z.to_nat d) = t + d * (d + 1) / 2.
Proof.
  intros Hd. pose proof (drifted_sum t d (Z.to_nat d)) as H. rewrite Z2Nat.id in H by done.
  set (x := drifted t d (Z.to_nat d)) in *. replace (d * (d + 1)) with ((x - t) * 2) by nia. rewrite Z.div_mul; lia.
Qed.

(** The try that follows [k] successes succeeds too. *)
Definition try_hits (prev v target : Z) (ss : list Z) (idx off from t d : Z) (k : nat) : Prop :=
  stakeTargetHit (stakeHash (drifted t d (S k)) prev ss idx off from) (GetWeight params prev (drifted t d k)) v target = true.

(** When every try succeeds the bound is reached. *)
Lemma search_loop_all prev v target ss idx off from d t : 0 <= t -> 0 <= d -> 2 * t + d * (d + 1) < 2 ^ 33 ->
  (forall k, (k < Z.to_nat d)%nat -> try_hits prev v target ss idx off from t d k) ->
  forall n k fSuccess h, (k + n)%nat = Z.to_nat d ->
  exists h', search_loop params n (Z.of_nat k) d prev v target ss idx off from (drifted t d k) fSuccess h =
    (match n with O => fSuccess | _ => true end, t + d * (d + 1) / 2, h').
Proof.
  intros Ht Hd0 Hb Hall n. induction n as [|n IH]; intros k ok h Hd; cbn [search_loop].
  { rewrite Nat.add_0_r in Hd. rewrite Hd, drifted_end by done. by exists h. }
  assert (u32 (drifted t d k + d - Z.of_nat k) = drifted t d (S k)) as ->.
  { apply u32_small. pose proof (drifted_sum t d (S k)) as Hs. cbn [drifted] in Hs. rewrite Nat2Z.inj_succ in Hs.
    assert (0 <= (d - Z.of_nat k) * (d - Z.of_nat k - 1)) by (apply Z.mul_nonneg_nonneg; lia).
    assert (0 <= Z.succ (Z.of_nat k) * (2 * d - Z.succ (Z.of_nat k) + 1)) by (apply Z.mul_nonneg_nonneg; lia).
    cbn [drifted]. set (x := drifted t d k + d - Z.of_nat k) in *. change W32 with (2 ^ 32). nia. }
  pose proof (Hall k ltac:(lia)) as Hhit. unfold try_hits in Hhit. rewrite Hhit.
  destruct (IH (S k) true (stakeHash (drifted t d (S k)) prev ss idx off from)) as [h' Eh]; [lia|].
  rewrite Nat2Z.inj_succ in Eh. unfold Z.succ in Eh. exists h'. rewrite Eh. by destruct n.
Qed.

Context (mapBlockIndex : gmap uint256 CBlockIndex) (pnexts : uint256 -> list CBlockIndex).

(** A search that succeeds has found a time at which the check succeeds. *)
Lemma kernel_search_sound nBits from off txPrev o txout d t h t' h' hc :
  vout txPrev !! Z.to_nat (out_n o) = Some txout -> 0 <= tx_nTime txPrev -> 0 <= nValue txout -> 0 <= SetCompact nBits ->
  0 <= d -> 2 * t + d * (d + 1) < 2 ^ 33 ->
  CheckStakeKernelHash params mapBlockIndex pnexts nBits from off txPrev o t d false h = Some (true, t', h') ->
  2 * t < 2 * t' <= 2 * t + d * (d + 1) /\
  exists hp, CheckStakeKernelHash params mapBlockIndex pnexts nBits from off txPrev o t' 0 true hc = Some (true, t', hp).
Proof.
  intros Ho Hp Hv Hs Hd Hb. unfold CheckStakeKernelHash. rewrite Ho.
  destruct (Z.ltb_spec t (tx_nTime txPrev)); [done|]. destruct (Z.ltb_spec t (u32 (nTime from + nStakeMinAge params))); [done|].
  destruct (GetKernelStakeModifier _ _ _ _) as [m|]; [|done].
  pose proof (search_loop_spec (tx_nTime txPrev) (nValue txout) (SetCompact nBits) (le_bytes 8 m) (out_n o) off (nTime from) d Hp Hv Hs
    (Z.to_nat d) 0 t false h ltac:(lia) ltac:(lia) ltac:(rewrite Z2Nat.id by done; lia)) as H1.
  destruct (search_loop _ _ _ _ _ _ _ _ _ _ _ _ _ _) as [[ok t1] h1]. rewrite Z2Nat.id in H1 by done. intros [= -> <- <-].
  destruct H1 as [Hr [[? _]|(_ & Hlt & Hk)]]; [done|]. split; [lia|].
  destruct (Z.ltb_spec t1 (tx_nTime txPrev)); [lia|]. destruct (Z.ltb_spec t1 (u32 (nTime from + nStakeMinAge params))); [lia|].
  eexists. do 2 f_equal. unfold kernel_at in Hk. by rewrite Hk.
Qed.
End Search.

(** ** Facts: the coins *)

(** A coin of the wallet that can stake: unspent, the wallet's, final and deep enough. *)
Definition stakeable (IsMine : CTxOut -> bool) (nConf : Z) (mapWallet : list (uint256 * CWalletTx)) (o : COutput) : Prop :=
  (o_hash o, o_tx o) ∈ mapWallet /\ (exists t, vout (w_tx (o_tx o)) !! o_i o = Some t /\ IsMine t = true) /\ w_IsSpent (o_tx o) (o_i o) = false /\
  w_IsFinal (o_tx o) = true /\ nConf <= w_Depth (o_tx o).

Lemma minconf_stakeable IsMine nMin nConf mapWallet o :
  o ∈ AvailableCoinsMinConf IsMine nMin nConf mapWallet -> stakeable IsMine nConf mapWallet o.
Proof.
  unfold AvailableCoinsMinConf. rewrite list_elem_of_In, in_concat. intros (l & ([hash w] & <- & Hw)%in_map_iff & Hin%list_elem_of_In). apply list_elem_of_In in Hw.
  destruct (w_IsFinal w) eqn:E1; cbn [negb] in Hin; [|by apply elem_of_nil in Hin].
  destruct (Z.ltb_spec (w_Depth w) nConf) as [|E2]; [by apply elem_of_nil in Hin|]. apply outputs_where_elem in Hin as (<- & <- & _ & t & Ht & Etest).
  rewrite !andb_true_iff, negb_true_iff in Etest. destruct Etest as [[Hs Hm] _]. unfold stakeable. eauto 10.
Qed.

Lemma select_simple_from coins target time : forall ret p, p ∈ fst (select_simple coins target time ret) ->
  p ∈ fst ret \/ exists o, o ∈ coins /\ p = snd (o_coin o).
Proof.
  induction coins as [|o coins IH]; intros ret p; cbn [select_simple]; [by left|].
  assert (Hrest : forall ret', p ∈ fst (select_simple coins target time ret') ->
    p ∈ fst ret' \/ exists o', o' ∈ o :: coins /\ p = snd (o_coin o')).
  { intros ret' [?|(o' & ? & ?)]%IH; [by left|]. right. exists o'. split; [by right | done]. }
  assert (Htake : p ∈ fst (take_coins [o_coin o] ret) -> p ∈ fst ret \/ exists o', o' ∈ o :: coins /\ p = snd (o_coin o')).
  { cbn. intros [->%elem_of_singleton|?]%elem_of_union; [|by left]. right. exists o. split; [by left | done]. }
  repeat case_match; [by left | apply Hrest | apply Htake | | apply Hrest].
  intros [?|?]%Hrest; [by apply Htake | by right].
Qed.

Section Combine.
Context `{HD : Digests} (params : chain_params) (mapWallet : list (uint256 * CWalletTx)) (settings : stake_settings) (k : kernel) (nLimit : Z).
Context (Hlimit : nLimit <= MAX_MONEY).

Abbreviation value p := (nValue (coin_out mapWallet p)).

(** The added coins are among the given ones, in their order, of other transactions than the kernel's; their values are
    added to the credit, within the limit; there are at most a hundred inputs. *)
Definition combined (coins : list COutPoint) (nIn : nat) (nCredit : Z) (res : list COutPoint * Z) : Prop :=
  fst res `sublist_of` coins /\
  Forall (fun p => CTransaction_GetHash (coin_tx mapWallet p) <> CTransaction_GetHash (coin_tx mapWallet (k_coin k))) (fst res) /\
  snd res = nCredit + sumZ (map (fun p => value p) (fst res)) /\ snd res <= nLimit /\ (nIn + length (fst res) <= 100)%nat.

Lemma combined_nil coins nIn nCredit : nCredit <= nLimit -> (nIn <= 100)%nat -> combined coins nIn nCredit ([], nCredit).
Proof. intros. split_and!; [apply sublist_nil_l | done | cbn; lia | cbn; lia | cbn; lia]. Qed.

Lemma combine_loop_spec coins : Forall (fun p => 0 <= value p <= MAX_MONEY) coins -> forall nIn nCredit, 0 <= nCredit <= nLimit -> (nIn <= 100)%nat ->
  combined coins nIn nCredit (combine_loop params mapWallet settings k nLimit coins nIn nCredit).
Proof.
  assert (HM : MAX_MONEY = 9000000000000000) by done.
  induction 1 as [|p coins Hp Hc IH]; intros nIn nCredit Hn Hin; cbn [combine_loop]; [apply combined_nil; lia|].
  pose proof (combined_nil (p :: coins) nIn nCredit ltac:(lia) Hin) as Hstop.
  assert (Hskip : combined (p :: coins) nIn nCredit (combine_loop params mapWallet settings k nLimit coins nIn nCredit)).
  { destruct (IH nIn nCredit Hn Hin). by split; [apply sublist_cons|]. }
  destruct (negb _ && _ && negb _)%bool eqn:Econd; [|exact Hskip]. apply andb_true_iff in Econd as [_ Hne%negb_true_iff%bool_decide_eq_false].
  destruct (Nat.leb_spec 100 nIn); [exact Hstop|]. destruct (_ <=? nCredit); [exact Hstop|].
  rewrite (s64_small (nCredit + _)) by lia. destruct (Z.ltb_spec nLimit (nCredit + value p)); [exact Hstop|].
  destruct (_ <=? _); [exact Hskip|]. destruct (_ <? nStakeCombineAge); [exact Hskip|].
  specialize (IH (S nIn) (nCredit + value p) ltac:(lia) ltac:(lia)). destruct (combine_loop _ _ _ _ _ coins (S nIn) _) as [added cr].
  destruct IH as (Hsub & Hother & Hcr & Hle & Hlen). cbn [fst snd] in *. split_and!; cbn [fst snd]; [by apply sublist_skip | by constructor | | done | cbn; lia].
  cbn [map]. change (sumZ (?x :: ?l)) with (x + sumZ l). lia.
Qed.
End Combine.

(** ** Facts: the transaction *)

Lemma stake_outputs_sum k n : sumZ (map nValue (stake_outputs k n)) = n.
Proof. unfold stake_outputs. destruct (k_split k); cbn; lia. Qed.

Lemma stake_outputs_shape k n : exists v os, stake_outputs k n = mkTxOut 0 [] :: mkTxOut v (k_script k) :: os.
Proof. unfold stake_outputs. destruct (k_split k); by eexists _, _. Qed.

(** The output pays to the key that signs the block. *)
Lemma kernel_key_solves `{HD : Digests} `{EKok : ECKeys_ok} ks script key out : kernel_key ks script = Some (key, out) ->
  exists sols, Solver out = (true, TX_PUBKEY, sols) /\ nth 0 sols [] = key_GetPubKey key.
Proof.
  unfold kernel_key. destruct (Solver script) as [[[] []] sols] eqn:E; try done.
  - case_match; [|done]. case_bool_decide; [|done]. intros [= <- <-]. by eauto.
  - case_match; [|done]. intros [= <- <-]. eexists. split; [apply Solver_key|done].
    destruct (pubkey_ok s) as (_ & Hc & _ & Hl). unfold IsCanonicalPubKey in Hc. unfold pubkey_size.
    destruct (Nat.ltb_spec (length (key_GetPubKey s)) 33); [done|]. apply andb_true_iff. split; apply Nat.leb_le; lia.
Qed.

(** The coin age looks at the inputs' coins and the time only. *)
Lemma coin_age_loop_prevouts ReadTxFromDisk ReadHeaderFromDisk age txdb t vi : forall vi' n, map prevout vi = map prevout vi' ->
  coin_age_loop ReadTxFromDisk ReadHeaderFromDisk age txdb t vi n = coin_age_loop ReadTxFromDisk ReadHeaderFromDisk age txdb t vi' n.
Proof.
  induction vi as [|x vi IH]; intros [|y vi'] n E; try done. cbn [map] in E. injection E as E1 E2. cbn [coin_age_loop]. rewrite <- E1.
  repeat case_match; try done; by apply IH.
Qed.

Lemma IsCoinStake_not_base tx : IsCoinStake tx = true -> IsCoinBase tx = false.
Proof.
  unfold IsCoinStake, IsCoinBase. destruct (vin tx) as [|txin []]; [done | | done]. destruct (COutPoint_IsNull _); [done|]. done.
Qed.

Lemma GetCoinAge_prevouts `{BN : OpenSSL_BN} ReadTxFromDisk ReadHeaderFromDisk age txdb tx tx' : IsCoinStake tx = true -> IsCoinStake tx' = true ->
  map prevout (vin tx) = map prevout (vin tx') -> tx_nTime tx = tx_nTime tx' ->
  GetCoinAge ReadTxFromDisk ReadHeaderFromDisk age txdb tx = GetCoinAge ReadTxFromDisk ReadHeaderFromDisk age txdb tx'.
Proof.
  intros H H' Ev Et. unfold GetCoinAge. rewrite !IsCoinStake_not_base, Et by done.
  by rewrite (coin_age_loop_prevouts _ _ _ _ _ _ _ _ Ev).
Qed.

Lemma coinstake_shape tx p ps v script os : map prevout (vin tx) = p :: ps -> COutPoint_IsNull p = false ->
  vout tx = mkTxOut 0 [] :: mkTxOut v script :: os -> IsCoinStake tx = true.
Proof.
  unfold IsCoinStake. destruct (vin tx) as [|txin vi]; [done|]. intros [= -> _] -> ->. done.
Qed.

(** The reward of a money amount, without the bonus, is small. *)
Lemma reward_bound mt age bits time fees v prev : 0 <= v <= MAX_MONEY -> 0 <= fees <= MAX_MONEY ->
  GetProofOfStakeReward mt age bits time fees v prev <= 2 * MAX_MONEY.
Proof.
  intros Hv Hf. rewrite stake_bonus_off by done. pose proof (s64_range (age * MAX_MINT_PROOF_OF_STAKE)) as Hr. set (x := s64 (age * _)) in *.
  assert (HM : MAX_MONEY = 9000000000000000) by done. assert (HC : COIN = 100000000) by done. rewrite HC.
  assert (Hq : - 2 ^ 30 <= Z.quot (Z.quot x 365) 100000000 <= 2 ^ 30).
  { rewrite Z.quot_quot by lia. split.
    - change (- 2 ^ 30) with (Z.quot (- 2 ^ 30 * (365 * 100000000)) (365 * 100000000)). apply Z.quot_le_mono; lia.
    - change (2 ^ 30) with (Z.quot (2 ^ 30 * (365 * 100000000)) (365 * 100000000)). apply Z.quot_le_mono; lia. }
  rewrite s64_small by lia. lia.
Qed.

(** ** Facts: the minted transaction *)

Section Mint.
Context `{HD : Digests} `{EKok : ECKeys_ok} `{BN : OpenSSL_BN} (GetRandHash : nat -> uint256).
Context (params : chain_params) (mapBlockIndex : gmap uint256 CBlockIndex) (pnexts : uint256 -> list CBlockIndex).
Context (ReadTxFromDisk : CDiskTxPos -> option CTransaction) (ReadHeaderFromDisk : Z -> Z -> option CBlockHeader).
Context (mt19937_uniform : Z -> Z -> Z) (in_order : gset COutPoint -> list COutPoint) (in_order_perm : forall s, in_order s ≡ₚ elements s).
Context (txdb : txindex_map) (pindexBest : list CBlockIndex).
Context (IsMine : CTxOut -> bool) (nMinimumInputValue : Z) (mapWallet : list (uint256 * CWalletTx)) (ks : CBasicKeyStore).
Context (settings : stake_settings).

(** What the wallet keeps: transactions under their hashes, with amounts in range, that are those of the index; the balance is
    an amount of money. *)
Record stake_wallet : Prop := {
  sw_keys : NoDup (map fst mapWallet);
  sw_hash : Forall (fun e => fst e = CTransaction_GetHash (w_tx (snd e))) mapWallet;
  sw_txs : forall h w, (h, w) ∈ mapWallet -> Z.of_nat (length (vout (w_tx w))) <= UINT_MAX /\ 0 <= tx_nTime (w_tx w) /\
    Forall (fun t => 0 <= nValue t <= MAX_MONEY) (vout (w_tx w));
  sw_index : forall h w txindex, (h, w) ∈ mapWallet -> txdb !! h = Some txindex -> ReadTxFromDisk (pos txindex) = Some (w_tx w);
  sw_balance : forall n, GetBalance IsMine mapWallet = Some n -> n <= MAX_MONEY;
}.
Context (SW : stake_wallet).
Context (Hage : 0 <= nStakeMinAge params < 2 ^ 32) (Hdrift : 0 <= nHashDrift settings).

Abbreviation point o := (snd (o_coin o)).
Abbreviation nConf := (nCoinbaseMaturity params + 20).
Abbreviation create := (CreateCoinStake GetRandHash params mapBlockIndex pnexts ReadTxFromDisk ReadHeaderFromDisk mt19937_uniform in_order txdb pindexBest
  IsMine nMinimumInputValue mapWallet ks settings).
Abbreviation check_stake := (CheckProofOfStake params mapBlockIndex pnexts GetRandHash ReadTxFromDisk ReadHeaderFromDisk txdb).

(** A coin and what it points to. *)
Record wallet_coin (p : COutPoint) (o : COutput) : Prop := {
  wc_stakeable : stakeable IsMine nConf mapWallet o;
  wc_point : p = point o;
  wc_tx : coin_tx mapWallet p = w_tx (o_tx o);
  wc_hash : CTransaction_GetHash (coin_tx mapWallet p) = out_hash p;
  wc_out : vout (coin_tx mapWallet p) !! Z.to_nat (out_n p) = Some (coin_out mapWallet p);
  wc_value : o_value o = nValue (coin_out mapWallet p) /\ 0 <= nValue (coin_out mapWallet p) <= MAX_MONEY;
  wc_notnull : COutPoint_IsNull p = false;
  wc_input : prevout (input_of mapWallet p) = p;
}.

Lemma selected_coin target time p : p ∈ in_order (snd (fst (SelectCoinsSimple IsMine nMinimumInputValue mapWallet target time nConf))) ->
  exists o, wallet_coin p o.
Proof.
  rewrite in_order_perm, elem_of_elements. intros [[]%elem_of_empty|(o & Ho & ->)]%select_simple_from.
  apply minconf_stakeable in Ho as Hs. exists o. destruct Hs as (Hin & (t & Ht & Hm) & Hrest).
  destruct (coin_lookup mapWallet (sw_keys SW) (sw_hash SW) _ _ _ _ Hin Ht) as (E1 & E2 & E3).
  change (mkOutPoint (o_hash o) (Z.of_nat (o_i o))) with (point o) in E1, E2, E3.
  destruct (sw_txs SW _ _ Hin) as (Hlen & _ & Hval). apply lookup_lt_Some in Ht as Hlt. rewrite Forall_lookup in Hval. specialize (Hval _ _ Ht).
  split; [unfold stakeable; eauto 10 | done | done | | | | | done].
  - rewrite E1. pose proof (sw_hash SW) as Hh. rewrite Forall_forall in Hh. symmetry. apply (Hh _ Hin).
  - rewrite E1, E2. cbn. by rewrite Nat2Z.id.
  - rewrite E2. unfold o_value. rewrite Ht. done.
  - unfold COutPoint_IsNull. apply andb_false_iff. right. apply Z.eqb_neq. cbn. lia.
Qed.

Lemma wallet_coins ps : Forall (fun p => exists o, wallet_coin p o) ps -> exists os, Forall2 wallet_coin ps os.
Proof. induction 1 as [|p ps [o Ho] _ [os IH]]; [by exists [] | exists (o :: os); by constructor]. Qed.

Lemma coins_points ps os : Forall2 wallet_coin ps os -> ps = map (fun o => point o) os /\
  sumZ (map (fun p => nValue (coin_out mapWallet p)) ps) = total (map o_value os) /\ map prevout (map (input_of mapWallet) ps) = ps.
Proof.
  induction 1 as [|p o ps os [_ -> _ _ _ [Hv _] _ Hi] _ (E1 & E2 & E3)]; [done|].
  split_and!; [cbn [map]; by rewrite <- E1 | | cbn [map]; by rewrite E3, Hi].
  cbn [map]. change (sumZ (?x :: ?l)) with (x + sumZ l). change (total (?x :: ?l)) with (x + total l). lia.
Qed.

(** The kernel that is found. *)
Record kernel_ok (nBits t0 : Z) (coins : list COutPoint) (k : kernel) : Prop := {
  ko_coin : k_coin k ∈ coins;
  ko_time : 2 * t0 < 2 * k_time k <= 2 * t0 + nHashDrift settings * (nHashDrift settings + 1);
  ko_key : exists sols, Solver (k_script k) = (true, TX_PUBKEY, sols) /\ nth 0 sols [] = key_GetPubKey (k_key k);
  ko_check : exists txindex block hash, txdb !! out_hash (k_coin k) = Some txindex /\
    ReadHeaderFromDisk (nFile (pos txindex)) (nBlockPos (pos txindex)) = Some block /\
    CheckStakeKernelHash params mapBlockIndex pnexts nBits block (u32 (nTxPos (pos txindex) - nBlockPos (pos txindex)))
      (coin_tx mapWallet (k_coin k)) (k_coin k) (k_time k) 0 true (uint_zero 8) = Some (true, k_time k, hash);
}.

Lemma kernel_loop_spec nBits t0 coins k : 0 <= SetCompact nBits -> 2 * t0 + nHashDrift settings * (nHashDrift settings + 1) < 2 ^ 33 ->
  Forall (fun p => exists o, wallet_coin p o) coins ->
  kernel_loop params mapBlockIndex pnexts ReadHeaderFromDisk txdb mapWallet ks settings nBits t0 coins = Some k -> kernel_ok nBits t0 coins k.
Proof.
  intros Hb Ht. induction 1 as [|p coins [o Ho] Hc IH]; [done|]. cbn [kernel_loop].
  destruct (try_coin _ _ _ _ _ _ _ _ nBits t0 p) as [r|] eqn:Etry.
  2: { intros E. destruct (IH E) as [? ? ? ?]. split; [by right | done..]. }
  intros ->. unfold try_coin in Etry. destruct Ho as [(Hin & _) Hpt Htx Hh Hout [_ Hval] _ _]. rewrite Hh in Etry.
  replace (mkOutPoint (out_hash p) (out_n p)) with p in Etry by (by destruct p).
  destruct (txdb !! out_hash p) as [txindex|] eqn:Ei; [|done]. destruct (ReadHeaderFromDisk _ _) as [block|] eqn:Eh; [|done].
  destruct (_ <? _); [done|]. destruct (CheckStakeKernelHash _ _ _ _ _ _ _ _ _ _ _ _) as [[[[] t'] hp]|] eqn:Ek; [|done..].
  destruct (kernel_key ks _) as [[key out]|] eqn:Ekey; [|done]. injection Etry as <-.
  eapply kernel_search_sound in Ek as [Htime [hash Hcheck]]; [|done | exact Hout | rewrite Htx; by apply (sw_txs SW _ _ Hin) | lia | done | done | done].
  split; cbn [k_coin k_time k_script k_key]; [by left | done | by eapply kernel_key_solves | by exists txindex, block, hash].
Qed.

(** The kernel of a signed transaction is accepted. *)
Lemma kernel_accepted nBits t0 coins k o tx txin c : kernel_ok nBits t0 coins k -> wallet_coin (k_coin k) o -> vin tx !! 0%nat = Some txin ->
  prevout txin = k_coin k -> IsCoinStake tx = true -> tx_nTime tx = k_time k ->
  input_verifies tx 0 (scriptSig txin) (scriptPubKey (coin_out mapWallet (k_coin k))) -> cache_valid c ->
  exists hash c', check_stake tx nBits c = Ok (hash, c') /\ cache_valid c'.
Proof.
  intros [_ _ _ (txindex & block & hash & Ei & Eh & Ek)] [(Hin & _) Hpt Htx Hh Hout _ _ _] Htxin Hprev Hcs Htime Hver Hc.
  unfold CheckProofOfStake. rewrite Hcs. cbn [guard_ rbind]. assert (E : head (vin tx) = Some txin) by (by rewrite head_lookup). rewrite E. cbn [of_option rbind].
  assert (Hlt : (Z.of_nat (length (vout (coin_tx mapWallet (k_coin k)))) <=? out_n (k_coin k)) = false).
  { apply Z.leb_gt. apply lookup_lt_Some in Hout. rewrite Hpt in Hout |- *. cbn in *. lia. }
  assert (Hread : ReadTxFromDisk (pos txindex) = Some (coin_tx mapWallet (k_coin k))).
  { rewrite Htx. apply (sw_index SW (o_hash o)); [done|]. by rewrite Hpt in Ei. }
  unfold ReadPrevFromDisk. rewrite Hprev, Ei, Hread, Hlt. unfold VerifySignature. rewrite Htxin, Hprev, Hlt, Hout, Hh, op_ne_refl.
  pose proof (VerifyScript_agree (CheckSig GetRandHash tx 0 0) (CheckSig_pure tx 0 0) (fun c _ => cache_valid c)
    ltac:(intros; by apply CheckSig_agree) (scriptSig txin) (scriptPubKey (coin_out mapWallet (k_coin k))) c tt Hc) as HA.
  destruct (VerifyScript (CheckSig GetRandHash tx 0 0) _ _ c) as [v c']. destruct HA as [Hv Hc']. unfold input_verifies in Hver. cbn [fst snd] in *. rewrite Hver in Hv. subst v.
  cbn [guard_ rbind]. rewrite Eh, Htime, Ek. cbn. eauto.
Qed.

(** What [CreateCoinStake] promises of the transaction and the key it returns. *)
Record minted (nBits nFees t0 nLimit : Z) (tx : CTransaction) (key : secret) (os : list COutput) : Prop := {
  mt_coinstake : IsCoinStake tx = true;
  mt_size : csize CTransaction_codec tx < 100000;
  mt_time : 2 * t0 < 2 * tx_nTime tx <= 2 * t0 + nHashDrift settings * (nHashDrift settings + 1);
  mt_kernel : forall c, cache_valid c -> exists hash c', check_stake tx nBits c = Ok (hash, c') /\ cache_valid c';
  mt_key : exists t sols, vout tx !! 1%nat = Some t /\ Solver (scriptPubKey t) = (true, TX_PUBKEY, sols) /\ nth 0 sols [] = key_GetPubKey key;
  mt_coins : map prevout (vin tx) = map (fun o => point o) os /\ NoDup (map (fun o => point o) os) /\ (length os <= 100)%nat /\
    Forall (stakeable IsMine nConf mapWallet) os /\ total (map o_value os) <= nLimit;
  mt_signed : forall i o, os !! i = Some o -> exists txin t, vin tx !! i = Some txin /\ vout (w_tx (o_tx o)) !! o_i o = Some t /\
    input_verifies tx i (scriptSig txin) (scriptPubKey t);
  mt_reward : exists nCoinAge, GetCoinAge ReadTxFromDisk ReadHeaderFromDisk (nStakeMinAge params) txdb tx = Some nCoinAge /\
    let nReward := GetProofOfStakeReward mt19937_uniform (s64 nCoinAge) nBits (tx_nTime tx) nFees (total (map o_value os)) (stake_prev_hash pindexBest) in
    0 < nReward /\ sumZ (map nValue (vout tx)) = total (map o_value os) + nReward;
}.

Lemma wallet_coin_values coins : Forall (fun p => exists o, wallet_coin p o) coins ->
  Forall (fun p => 0 <= nValue (coin_out mapWallet p) <= MAX_MONEY) coins.
Proof. intros H. eapply Forall_impl; [exact H|]. intros p [o Ho]. apply (wc_value _ _ Ho). Qed.

(** The kernel's coin first, then the added ones: all different coins of the wallet. *)
Lemma stake_inputs nBits t0 coins k added n nLimit nCredit : kernel_ok nBits t0 coins k -> Forall (fun p => exists o, wallet_coin p o) coins -> NoDup coins ->
  combined mapWallet k nLimit coins 1 nCredit (added, n) -> nCredit = nValue (coin_out mapWallet (k_coin k)) ->
  exists o os, Forall2 wallet_coin (k_coin k :: added) (o :: os) /\ NoDup (map (fun o => point o) (o :: os)) /\ (length (o :: os) <= 100)%nat /\
    n = total (map o_value (o :: os)) /\ n <= nLimit.
Proof.
  intros Hk Hc Hnd (Hsub & Hother & Hn & Hle & Hlen) ->. cbn [fst snd] in *.
  assert (Hall : Forall (fun p => exists o, wallet_coin p o) (k_coin k :: added)).
  { constructor; [rewrite Forall_forall in Hc; by apply Hc, (ko_coin _ _ _ _ Hk)|]. apply Forall_forall. intros p Hp. rewrite Forall_forall in Hc. apply Hc.
    by apply (elem_of_sublist added). }
  destruct (wallet_coins _ Hall) as [os HF]. destruct os as [|o os]; [by inversion HF|]. exists o, os. destruct (coins_points _ _ HF) as (Ep & Ev & _).
  pose proof (Forall2_length _ _ _ HF) as Hl. split_and!; [done | | cbn in *; lia | | done].
  - rewrite <- Ep. apply NoDup_cons. split; [|by eapply sublist_NoDup]. intros Hin. rewrite Forall_forall in Hother. by apply (Hother _ Hin).
  - rewrite <- Ev. cbn [map]. change (sumZ (?x :: ?l)) with (x + sumZ l). lia.
Qed.

Lemma stake_with_spec nBits nFees nLimit txNew coins k c tx key c' : kernel_ok nBits (tx_nTime txNew) coins k ->
  Forall (fun p => exists o, wallet_coin p o) coins -> NoDup coins -> nLimit <= MAX_MONEY -> 0 <= nFees <= MAX_MONEY -> cache_valid c ->
  stake_with GetRandHash params ReadTxFromDisk ReadHeaderFromDisk mt19937_uniform txdb pindexBest mapWallet ks settings txNew nBits nFees nLimit coins k c =
    Some (tx, key, c') ->
  cache_valid c' /\ exists os, minted nBits nFees (tx_nTime txNew) nLimit tx key os.
Proof.
  intros Hk Hc Hnd Hlim Hfees Hcache. unfold stake_with. pose proof (wallet_coin_values _ Hc) as Hvals.
  assert (Hkv : 0 <= nValue (coin_out mapWallet (k_coin k)) <= MAX_MONEY) by (rewrite Forall_forall in Hvals; apply Hvals, (ko_coin _ _ _ _ Hk)).
  assert (HM : MAX_MONEY = 9000000000000000) by done. rewrite Z.add_0_l, (s64_small (nValue _)) by lia.
  destruct ((_ =? 0) || _)%bool eqn:E0; [done|]. apply orb_false_iff in E0 as [_ Hcl%Z.ltb_ge].
  pose proof (combine_loop_spec params mapWallet settings k nLimit Hlim coins Hvals 1 _ ltac:(split; [apply Hkv|exact Hcl]) ltac:(lia)) as Hcomb.
  destruct (combine_loop _ _ _ _ _ coins 1 _) as [added n].
  destruct (stake_inputs _ _ _ _ _ _ _ _ Hk Hc Hnd Hcomb eq_refl) as (o & os & HF & Hpts & Hlen & -> & Hle).
  destruct (coins_points _ _ HF) as (Ep & _ & Ein). set (prevs := k_coin k :: added) in *.
  assert (Hnn : 0 <= total (map o_value (o :: os))).
  { apply total_nonneg, Forall_map, Forall_forall. intros x Hx. apply list_elem_of_lookup in Hx as [i Hi]. eapply Forall2_lookup_r in HF as (p & _ & Hw); [|exact Hi].
    destruct (wc_value _ _ Hw) as [-> ?]. lia. }
  set (v := total (map o_value (o :: os))) in *. set (mk := fun outs => mkTx (tx_nVersion txNew) (k_time k) (map (input_of mapWallet) prevs) outs (nLockTime txNew)).
  assert (Hnull : COutPoint_IsNull (k_coin k) = false) by (inversion HF as [|? ? ? ? Hw]; by apply (wc_notnull _ _ Hw)).
  assert (Hcs : forall tx m, map prevout (vin tx) = prevs -> vout tx = stake_outputs k m -> IsCoinStake tx = true).
  { intros tx0 m Ev Eo. destruct (stake_outputs_shape k m) as (w & outs & Es). eapply coinstake_shape; [exact Ev | exact Hnull | rewrite Eo; exact Es]. }
  fold (mk (stake_outputs k 0)). destruct (GetCoinAge _ _ _ _ (mk _)) as [nCoinAge|] eqn:Eage; [|done].
  set (nReward := GetProofOfStakeReward _ _ _ _ _ _ _). destruct (Z.leb_spec nReward 0) as [|Hpos]; [done|].
  assert (Hr : nReward <= 2 * MAX_MONEY) by (apply reward_bound; [lia | done]). rewrite (s64_small (v + nReward)) by lia. fold (mk (stake_outputs k (v + nReward))).
  destruct (sign_all _ _ _ prevs 0 _ c) as [[ok tx'] c1] eqn:Esign. destruct ok; [|done].
  apply sign_all_spec in Esign as (Hc' & (Hout & Hprev & _ & _ & Htime) & Hver); [|done | cbn [vin mk]; by rewrite length_map].
  cbn [mk vin vout tx_nTime] in Hout, Hprev, Htime. rewrite Ein in Hprev.
  change (MAX_BLOCK_SIZE_GEN / 5) with 100000. destruct (Z.leb_spec 100000 (csize CTransaction_codec tx')); [done|]. intros [= <- <- <-].
  assert (Hcs' : IsCoinStake tx' = true) by (by eapply Hcs).
  split; [done|]. exists (o :: os). split; [done | done | | | | | |].
  - rewrite Htime. apply (ko_time _ _ _ _ Hk).
  - intros c2 Hc2. destruct (Hver O (k_coin k) eq_refl) as (txin & Htxin & Hok). inversion HF as [|? ? ? ? Hw]; subst.
    eapply kernel_accepted; [exact Hk | exact Hw | exact Htxin | | done | done | exact Hok | done].
    rewrite Nat.add_0_l in Htxin. destruct (vin tx') as [|x vi]; [done|]. cbn in Htxin. injection Htxin as ->. cbn [map] in Hprev. by injection Hprev as ->.
  - destruct (stake_outputs_shape k (v + nReward)) as (w & outs & Es). destruct (ko_key _ _ _ _ Hk) as (sols & Hsol & Hkey).
    exists (mkTxOut w (k_script k)), sols. rewrite Hout, Es. done.
  - split_and!; [by rewrite Hprev | done | done | | done].
    apply Forall_forall. intros x Hx. apply list_elem_of_lookup in Hx as [i Hi]. eapply Forall2_lookup_r in HF as (p & _ & Hw); [|exact Hi]. apply (wc_stakeable _ _ Hw).
  - intros i x Hi. eapply Forall2_lookup_r in HF as (p & Hp & Hw); [|exact Hi]. destruct (Hver i p Hp) as (txin & Htxin & Hok).
    exists txin, (coin_out mapWallet p). split_and!; [done | | done]. rewrite <- (wc_tx _ _ Hw), <- (wc_out _ _ Hw), (wc_point _ _ Hw). cbn. by rewrite Nat2Z.id.
  - exists nCoinAge. rewrite Htime. split; [|split; [done | rewrite Hout; apply stake_outputs_sum]]. rewrite <- Eage.
    apply GetCoinAge_prevouts; [done | eapply Hcs; [apply Ein | done] | by rewrite Hprev; cbn [mk vin]; rewrite Ein | done].
Qed.

Lemma reserve_nonneg n : reserve_balance settings = Some n -> 0 <= n.
Proof.
  unfold reserve_balance. destruct (strReserveBalance settings) as [s|]; [|intros [= <-]; lia].
  intros (ws & whole & point & frac & trail & _ & _ & Hw & _ & _ & Hf & Hl & _ & ->)%ParseMoney_only.
  pose proof (atoi64_bound whole Hw). pose proof (units_bound frac Hf Hl). unfold COIN. lia.
Qed.

Lemma create_spec nBits nFees txNew c tx key c' : 0 <= SetCompact nBits -> 2 * tx_nTime txNew + nHashDrift settings * (nHashDrift settings + 1) < 2 ^ 33 ->
  0 <= nFees <= MAX_MONEY -> cache_valid c -> create nBits nFees txNew c = Some (tx, key, c') ->
  cache_valid c' /\ exists nBalance nReserve os, GetBalance IsMine mapWallet = Some nBalance /\ reserve_balance settings = Some nReserve /\
    minted nBits nFees (tx_nTime txNew) (nBalance - nReserve) tx key os.
Proof.
  intros Hb Ht Hf Hc. unfold CreateCoinStake. destruct (GetBalance _ _) as [bal|] eqn:Eb; [|done]. destruct (reserve_balance settings) as [res|] eqn:Er; [|done].
  destruct (_ <=? res); [done|]. pose proof (selected_coin (bal - res) (tx_nTime txNew)) as Hsel.
  destruct (SelectCoinsSimple _ _ _ _ _ _) as [[b setCoins] v]. cbn [fst snd] in Hsel. set (coins := in_order setCoins) in *.
  assert (Hcoins : Forall (fun p => exists o, wallet_coin p o) coins) by (apply Forall_forall; exact Hsel).
  assert (Hnd : NoDup coins) by (unfold coins; rewrite in_order_perm; apply NoDup_elements).
  destruct (kernel_loop _ _ _ _ _ _ _ _ _ _ _) as [k|] eqn:Ek; [|done]. apply kernel_loop_spec in Ek; [|done..].
  pose proof (sw_balance SW _ Eb). apply reserve_nonneg in Er as Hr.
  intros E. eapply stake_with_spec in E as [? [os ?]]; [|exact Ek | done | done | lia | done | done]. split; [done|]. by exists bal, res, os.
Qed.

(** ** Facts: the block *)

Lemma filter_all {A} (P : A -> Prop) `{forall x, Decision (P x)} l : Forall P l -> filter P l = l.
Proof. induction 1 as [|x l Hx _ IH]; [done|]. by rewrite filter_cons_True, IH. Qed.

Lemma max_time t l : Forall (fun tx => tx_nTime tx <= t) l -> fold_left (fun m tx => Z.max m (tx_nTime tx)) l t = t.
Proof. induction 1 as [|tx l H _ IH]; [done|]. cbn [fold_left]. by rewrite Z.max_l by done. Qed.

Lemma place_coinstake_shape h coinbase rest sig stake : earliest_time pindexBest <= tx_nTime stake -> 0 <= tx_nTime stake < 2 ^ 32 ->
  Forall (fun tx => tx_nTime tx <= tx_nTime stake) rest ->
  let b := place_coinstake pindexBest h coinbase rest sig stake in
  vtx b = set_tx_time (tx_nTime stake) coinbase :: stake :: rest /\
  header b = mkHeader (nVersion h) (hashPrevBlock h) (BuildMerkleTree b) (tx_nTime stake) (nBits h) (nNonce h).
Proof.
  intros He Ht Hrest. unfold earliest_time in He. unfold place_coinstake. cbv zeta. set (cb := set_tx_time _ coinbase). set (best := match pindexBest with [] => 0 | _ => _ end) in *.
  assert (Hmax : GetMaxTransactionTime (mkBlock h (cb :: rest) sig) = tx_nTime stake).
  { unfold GetMaxTransactionTime. cbn [vtx fold_left]. change (tx_nTime cb) with (tx_nTime stake). rewrite Z.max_r by lia. by apply max_time. }
  rewrite Hmax, (Z.max_r _ (tx_nTime stake)), (u32_small (tx_nTime stake)), Z.max_l, u32_small by lia.
  assert (Hfil : filter (fun tx => tx_nTime tx <= tx_nTime stake) (cb :: rest) = cb :: rest).
  { apply filter_all. by constructor. }
  rewrite Hfil. cbn. done.
Qed.

Lemma signed_block_checks h coinbase rest stake key sig root t :
  let b := mkBlock (mkHeader (nVersion h) (hashPrevBlock h) root t (nBits h) (nNonce h)) (coinbase :: stake :: rest) sig in
  IsCoinStake stake = true -> (exists o1 o2, vout coinbase = [o1; o2] /\ CTxOut_IsEmpty o1 = true /\ CTxOut_IsEmpty o2 = true) ->
  Forall (fun tx => IsCoinStake tx = false) rest -> t = tx_nTime stake ->
  (exists o sols, vout stake !! 1%nat = Some o /\ Solver (scriptPubKey o) = (true, TX_PUBKEY, sols) /\ nth 0 sols [] = key_GetPubKey key) ->
  key_Sign key (CBlockHeader_GetHash (header b)) = Some sig -> check_stake_block true b coinbase = Ok ().
Proof.
  intros b Hcs (o1 & o2 & Ho & E1 & E2) Hrest -> (o & sols & Hout & Hsol & Hkey) Hsig.
  unfold check_stake_block. unfold IsProofOfStake. cbn [vtx b]. rewrite Hcs, Ho, E1, E2. cbn [andb guard_ rbind drop].
  assert (Hf : forallb (fun tx => negb (IsCoinStake tx)) rest = true).
  { apply forallb_forall. intros tx Hin%list_elem_of_In. rewrite Forall_forall in Hrest. by rewrite Hrest. }
  rewrite drop_0, Hf. cbn [guard_ rbind]. unfold CheckCoinStakeTimestamp, GetProofOfStake. cbn [vtx b header nTime]. rewrite Hcs.
  assert (Hv : exists txin vi, vin stake = txin :: vi) by (unfold IsCoinStake in Hcs; destruct (vin stake); [done | eauto]). destruct Hv as (txin & vi & ->).
  cbn [snd]. rewrite Z.eqb_refl. cbn [guard_ rbind].
  destruct (sign_ok _ _ _ Hsig) as (Hver & _ & Hcan). pose proof (canonical_length _ (Hcan SIGHASH_ALL ltac:(unfold SIGHASH_ALL, SIGHASH_SINGLE; lia))) as Hl.
  rewrite length_app in Hl. cbn [length] in Hl. destruct (pubkey_ok key) as (Ho2i & _).
  unfold CheckBlockSignature, IsProofOfWork, IsProofOfStake. cbn [vtx b]. rewrite Hcs. cbn [negb lookup list_lookup option_bind mbind]. rewrite Hout. cbn.
  rewrite Hsol, Hkey, Ho2i. cbn [negb]. fold b. cbn [vchBlockSig b]. destruct sig as [|x sig]; [cbn in Hl; lia|].
  unfold b in Hver. cbn [header] in Hver. by rewrite Hver.
Qed.

Abbreviation sign := (SignBlock GetRandHash params mapBlockIndex pnexts ReadTxFromDisk ReadHeaderFromDisk mt19937_uniform in_order txdb pindexBest
  IsMine nMinimumInputValue mapWallet ks settings).

Lemma drift_symmetric t best : best - GetClockDrift best <= t -> best <= t + GetClockDrift t.
Proof. unfold GetClockDrift. destruct (Z.ltb_spec best BLOCK_SWITCH_TIME), (Z.ltb_spec t BLOCK_SWITCH_TIME); lia. Qed.

Lemma sign_spec nAdjustedTime nFees b clock c b' clock' coinbase rest :
  0 <= SetCompact (nBits (header b)) -> 2 * u32 nAdjustedTime + nHashDrift settings * (nHashDrift settings + 1) < 2 ^ 33 -> 0 <= nFees <= MAX_MONEY -> cache_valid c ->
  vtx b = coinbase :: rest -> (exists o1 o2, vout coinbase = [o1; o2] /\ CTxOut_IsEmpty o1 = true /\ CTxOut_IsEmpty o2 = true) ->
  Forall (fun tx => IsCoinStake tx = false /\ tx_nTime tx <= u32 nAdjustedTime) rest ->
  sign nAdjustedTime nFees b clock c = Some (true, b', clock') ->
  exists stake key nBalance nReserve os, GetBalance IsMine mapWallet = Some nBalance /\ reserve_balance settings = Some nReserve /\
    minted (nBits (header b)) nFees (u32 nAdjustedTime) (nBalance - nReserve) stake key os /\
    vtx b' = set_tx_time (tx_nTime stake) coinbase :: stake :: rest /\ check_stake_block true b' (set_tx_time (tx_nTime stake) coinbase) = Ok () /\
    nTime (header b') = tx_nTime stake /\ nBits (header b') = nBits (header b) /\ hashMerkleRoot (header b') = BuildMerkleTree b' /\
    GetMedianTimePast pindexBest < nTime (header b') /\
    (forall best, head pindexBest = Some best -> bi_nTime best <= nTime (header b') + GetClockDrift (nTime (header b'))).
Proof.
  intros Hb Ht Hf Hc Hvtx Hcb Hrest. destruct Hcb as (o1 & o2 & Ho & E1 & E2). unfold SignBlock. rewrite Hvtx, Ho, E1. cbn [negb].
  assert (Hpow : IsProofOfStake b = false).
  { unfold IsProofOfStake. rewrite Hvtx. destruct Hrest as [|tx rest [Hs _] _]; [done | exact Hs]. }
  rewrite Hpow. cbn [tx_nTime]. destruct (_ <? u32 nAdjustedTime); [|done].
  destruct (create _ _ _ _) as [[[stake key] c1]|] eqn:Ec; [|done].
  apply create_spec in Ec as (_ & bal & res & os & Ebal & Eres & Hm); [|done..]. cbn [tx_nTime] in Hm.
  destruct (Z.leb_spec (earliest_time pindexBest) (tx_nTime stake)) as [He|]; [|done].
  pose proof (mt_time _ _ _ _ _ _ _ Hm) as Htime. pose proof (u32_range nAdjustedTime) as Hu.
  destruct (place_coinstake_shape (header b) coinbase rest (vchBlockSig b) stake He ltac:(lia)) as (Hv & Hh).
  { eapply Forall_impl; [exact Hrest|]. cbn. intros tx [_ ?]. lia. }
  set (pb := place_coinstake _ _ _ _ _ _) in *. clearbody pb. destruct (key_Sign key _) as [sig|] eqn:Esig; [|done]. intros [= <- <-].
  rewrite Hv, Hh in *. exists stake, key, bal, res, os. unfold earliest_time in He. cbn [header nTime nBits hashMerkleRoot] in *.
  split_and!; [done.. | | done | done | | lia |].
  - apply signed_block_checks with (key := key); [apply (mt_coinstake _ _ _ _ _ _ _ Hm) | by exists o1, o2 | | done | apply (mt_key _ _ _ _ _ _ _ Hm) | exact Esig].
    eapply Forall_impl; [exact Hrest|]. by intros tx [? _].
  - unfold BuildMerkleTree. by rewrite Hv.
  - intros best Hbest. apply drift_symmetric. destruct pindexBest; [done|]. injection Hbest as ->. lia.
Qed.
End Mint.

(** ** Claims *)

(** C14: a block that [SignBlock] makes of a template passes the checks the network makes of a staked block.  Its second
    transaction is the coinstake and takes the place before the template's others; the block has the coinstake's
    time, after the median and not too early, the right Merkle root and a signature that verifies under the key of the
    stake output.  The coinstake is one whose kernel [CheckProofOfStake] accepts, for any valid cache; its inputs
    are at most a hundred distinct coins of the wallet, deep enough, worth no more than the balance above the
    reserve, each with a script that verifies; and its outputs are worth the inputs and exactly the reward of its
    coin age. *)
Theorem signed_block_accepted `{HD : Digests} `{EKok : ECKeys_ok} `{BN : OpenSSL_BN} GetRandHash params mapBlockIndex pnexts ReadTxFromDisk
    ReadHeaderFromDisk mt19937_uniform in_order txdb pindexBest IsMine nMinimumInputValue mapWallet ks settings nAdjustedTime nFees b clock c
    b' clock' coinbase rest :
  (forall s, in_order s ≡ₚ elements s) -> stake_wallet ReadTxFromDisk txdb IsMine mapWallet ->
  0 <= nStakeMinAge params < 2 ^ 32 -> 0 <= nHashDrift settings -> 0 <= SetCompact (nBits (header b)) ->
  2 * u32 nAdjustedTime + nHashDrift settings * (nHashDrift settings + 1) < 2 ^ 33 -> 0 <= nFees <= MAX_MONEY -> cache_valid c ->
  vtx b = coinbase :: rest -> (exists o1 o2, vout coinbase = [o1; o2] /\ CTxOut_IsEmpty o1 = true /\ CTxOut_IsEmpty o2 = true) ->
  Forall (fun tx => IsCoinStake tx = false /\ tx_nTime tx <= u32 nAdjustedTime) rest ->
  SignBlock GetRandHash params mapBlockIndex pnexts ReadTxFromDisk ReadHeaderFromDisk mt19937_uniform in_order txdb pindexBest IsMine
    nMinimumInputValue mapWallet ks settings nAdjustedTime nFees b clock c = Some (true, b', clock') ->
  exists stake key nBalance nReserve os, GetBalance IsMine mapWallet = Some nBalance /\ reserve_balance settings = Some nReserve /\
    minted GetRandHash params mapBlockIndex pnexts ReadTxFromDisk ReadHeaderFromDisk mt19937_uniform txdb pindexBest IsMine mapWallet settings
      (nBits (header b)) nFees (u32 nAdjustedTime) (nBalance - nReserve) stake key os /\
    vtx b' = set_tx_time (tx_nTime stake) coinbase :: stake :: rest /\ check_stake_block true b' (set_tx_time (tx_nTime stake) coinbase) = Ok () /\
    nTime (header b') = tx_nTime stake /\ nBits (header b') = nBits (header b) /\ hashMerkleRoot (header b') = BuildMerkleTree b' /\
    GetMedianTimePast pindexBest < nTime (header b') /\
    (forall best, head pindexBest = Some best -> bi_nTime best <= nTime (header b') + GetClockDrift (nTime (header b'))).
Proof. intros Hperm SW Hage Hd. by apply sign_spec. Qed.

(** C15: the search moves its own starting point at every success.  When the [d] tries it makes all meet the target,
    each from the time the last one left, the time of the coinstake ends [d * (d + 1) / 2] seconds after the
    clock; with at least eleven tries (the default is forty-five), and from BLOCK_SWITCH_TIME on, [CheckBlock]
    at the time of the clock refuses any block of that time as too far in the future. *)
Theorem stake_time_drifts `{HD : Digests} `{BN : OpenSSL_BN} `{EC : ECDSA} params mapBlockIndex pnexts nBits from off txPrev o txout m d t h :
  vout txPrev !! Z.to_nat (out_n o) = Some txout -> GetKernelStakeModifier params mapBlockIndex pnexts (CBlockHeader_GetHash from) = Some m ->
  0 <= t -> tx_nTime txPrev <= t -> u32 (nTime from + nStakeMinAge params) <= t -> 0 < d -> 2 * t + d * (d + 1) < 2 ^ 33 ->
  (forall k, (k < Z.to_nat d)%nat ->
     try_hits params (tx_nTime txPrev) (nValue txout) (SetCompact nBits) (le_bytes 8 m) (out_n o) off (nTime from) t d k) ->
  (exists h', CheckStakeKernelHash params mapBlockIndex pnexts nBits from off txPrev o t d false h = Some (true, t + d * (d + 1) / 2, h')) /\
  (11 <= d -> BLOCK_SWITCH_TIME <= t ->
   forall fCheckPOW fCheckMerkleRoot fCheckSig b, nTime (header b) = t + d * (d + 1) / 2 ->
     CheckBlock params t fCheckPOW fCheckMerkleRoot fCheckSig b <> Ok ()).
Proof.
  intros Ho Hm Ht Hp Hage Hd Hb Hall. split.
  - unfold CheckStakeKernelHash. rewrite Ho, Hm. destruct (Z.ltb_spec t (tx_nTime txPrev)); [lia|].
    destruct (Z.ltb_spec t (u32 (nTime from + nStakeMinAge params))); [lia|].
    destruct (search_loop_all params (tx_nTime txPrev) (nValue txout) (SetCompact nBits) (le_bytes 8 m) (out_n o) off (nTime from) d t
      Ht ltac:(lia) Hb Hall (Z.to_nat d) 0 false h) as [h' Eh]; [done|]. change (Z.of_nat 0) with 0 in Eh. cbn [drifted] in Eh. rewrite Eh. exists h'.
    destruct (Z.to_nat d) eqn:E; [lia|done].
  - intros Hd' Hsw f1 f2 f3 b Hnow Hok. assert (H66 : 66 <= d * (d + 1) / 2) by (apply Z.div_le_lower_bound; nia).
    unfold CheckBlock in Hok. destruct (vtx b); [done|]. res_inv Hok. res_facts.
    rewrite Hnow in *. match goal with H : (_ <=? t + GetClockDrift _) = true |- _ => apply Z.leb_le in H; unfold GetClockDrift in H end.
    destruct (Z.ltb_spec (t + d * (d + 1) / 2) BLOCK_SWITCH_TIME); lia.
Qed.

(** The age of a stake has no part in the decision to split it: twelve percent of a coin, divided by a coin and by 365
    as integers, is zero. *)
Theorem split_ignores_age settings v t t0 : 0 <= v < 2 ^ 63 -> split_stake settings v t t0 = (u64 (nStakeSplitThreshold settings * COIN) <? v / 2).
Proof.
  intros Hv. unfold split_stake. change (Z.quot (Z.quot MAX_MINT_PROOF_OF_STAKE COIN) 365) with 0. rewrite Z.mul_0_r, Z.add_0_r, Z.mul_1_r.
  by rewrite (s64_small v), (u64_small v) by lia.
Qed.

Lemma max_time_ge l m : m <= fold_left (fun m tx => Z.max m (tx_nTime tx)) l m /\
  Forall (fun tx => tx_nTime tx <= fold_left (fun m tx => Z.max m (tx_nTime tx)) l m) l.
Proof.
  revert m. induction l as [|tx l IH]; intros m; cbn [fold_left]; [split; [lia | done]|].
  destruct (IH (Z.max m (tx_nTime tx))) as [H1 H2]. split; [lia|]. constructor; [lia | done].
Qed.

Lemma max_time_range l n m : Forall (fun tx => 0 <= tx_nTime tx < n) l -> 0 <= m < n -> 0 <= fold_left (fun m tx => Z.max m (tx_nTime tx)) l m < n.
Proof. intros Hl. revert m. induction Hl as [|tx l Hx _ IH]; intros m Hm; cbn [fold_left]; [done | apply IH; lia]. Qed.

(** The loop that is to erase transactions of the future erases none: the block's time has just been moved to the latest of
    them.  A block with one of them then has not the time of its coinstake. *)
Theorem future_transactions_kept `{HD : Digests} pindexBest h coinbase rest sig stake : 0 <= GetMedianTimePast pindexBest < 2 ^ 32 - 1 ->
  (forall best, head pindexBest = Some best -> bi_nTime best - GetClockDrift (bi_nTime best) < 2 ^ 32) ->
  Forall (fun tx => 0 <= tx_nTime tx < 2 ^ 32) (stake :: rest) ->
  let b := place_coinstake pindexBest h coinbase rest sig stake in
  vtx b = set_tx_time (tx_nTime stake) coinbase :: stake :: rest /\ Forall (fun tx => tx_nTime tx <= nTime (header b)) (vtx b).
Proof.
  intros Hmed Hbest Hts. apply Forall_cons in Hts as [Hs Hr]. cbv zeta. unfold place_coinstake. cbv zeta. set (cb := set_tx_time _ coinbase).
  set (best := match pindexBest with [] => 0 | _ => _ end). set (mt := GetMaxTransactionTime _).
  assert (Hall : Forall (fun tx => tx_nTime tx <= mt) (cb :: rest)) by apply (max_time_ge (cb :: rest) 0).
  assert (Hmt : 0 <= mt < 2 ^ 32).
  { unfold mt, GetMaxTransactionTime. cbn [vtx fold_left]. change (tx_nTime cb) with (tx_nTime stake). rewrite Z.max_r by lia.
    by apply max_time_range. }
  assert (Hb : best < 2 ^ 32) by (unfold best; destruct pindexBest; [lia | by apply Hbest]).
  rewrite (u32_small (Z.max _ mt)), (u32_small (Z.max _ best)) by lia. set (t := Z.max (Z.max _ mt) best).
  assert (Hle : Forall (fun tx => tx_nTime tx <= t) (cb :: rest)) by (eapply Forall_impl; [exact Hall|]; cbn beta; intros x Hx; subst t; lia).
  rewrite (filter_all _ _ Hle). cbn [take drop app vtx header nTime]. split; [done|]. apply Forall_cons in Hle as [H1 H2]. constructor; [done|]. by constructor.
Qed.

(** ** Witness: a block is minted *)

Definition mint_wallet : list (uint256 * CWalletTx) := [(demo_hash, mkWalletTx demo_prev true true 0 100 [] false)].
Definition mint_index : txindex_map := {[ demo_hash := CTxIndex_make (mkDiskTxPos 1 8 90) 1 ]}.
Definition mint_from : CBlockHeader := mkHeader 6 (uint_zero 8) (uint_zero 8) 0 0 0.
Definition mint_blocks : gmap uint256 CBlockIndex := {[ @CBlockHeader_GetHash toy_digests mint_from := st_block 0 4 ]}.
Definition mint_template : CBlock :=
  mkBlock (mkHeader 6 (uint_zero 8) (uint_zero 8) 2200000 0x207fffff 0) [mkTx 1 2200000 [mkTxIn COutPoint_null [1; 2] UINT_MAX] [mkTxOut 0 []; mkTxOut 0 []] 0] [].

Definition mint_settings (nHashDrift : Z) : stake_settings := mkSettings 1000 nHashDrift (500 * COIN) None.

Definition mint_block :=
  @SignBlock toy_digests one_sig_keys reference_BN one_sig_ECDSA (fun _ => []) (@main_net reference_BN) mint_blocks (fun _ => [st_block 1000000 4])
    (fun _ => Some demo_prev) (fun _ _ => Some mint_from) (fun _ _ => 0) elements mint_index [st_block 1000000 4]
    (fun _ => true) 0 mint_wallet demo_ks (mint_settings 2) 2200000 0 mint_template (mkClock 2199000 0) (mkCache [] 10 0).

Lemma signed_block_accepted_witness : exists b' clock', mint_block = Some (true, b', clock') /\ hashMerkleRoot (header b') = @BuildMerkleTree toy_digests b' /\
  nTime (header b') = 2200003.
Proof.
  assert (E : match mint_block with Some (true, b', _) => nTime (header b') =? 2200003 | _ => false end = true) by (vm_compute; reflexivity).
  destruct mint_block as [[[[] b'] clock']|] eqn:Eb; [|discriminate..]. exists b', clock'. split; [reflexivity|]. split; [|by apply Z.eqb_eq].
  eapply (@signed_block_accepted toy_digests one_sig_keys one_sig_ECDSA one_sig_keys_ok reference_BN) in Eb
    as (stake & key & bal & res & os & _ & _ & _ & _ & _ & _ & _ & Hroot & _).
  - exact Hroot.
  - reflexivity.
  - split.
    + apply (bool_decide_unpack _). vm_compute. exact I.
    + apply (bool_decide_unpack _). vm_compute. exact I.
    + intros h w [= -> ->]%list_elem_of_singleton. split_and!; [vm_compute; discriminate.. |]. repeat constructor; vm_compute; discriminate.
    + intros h w txindex [= -> ->]%list_elem_of_singleton _. reflexivity.
    + intros n. change (GetBalance _ _) with (Some (50 * COIN)). intros [= <-]. vm_compute. discriminate.
  - vm_compute. split; [discriminate | reflexivity].
  - vm_compute. discriminate.
  - vm_compute. discriminate.
  - vm_compute. reflexivity.
  - vm_compute. split; discriminate.
  - constructor.
  - reflexivity.
  - exists (mkTxOut 0 []), (mkTxOut 0 []). repeat split.
  - constructor.
Defined.

(** Hashes that are all zero, so that every try meets the target. *)
Definition zero_digests : Digests := {|
  SHA256 _ := replicate 32 0; RIPEMD160 _ := replicate 20 0; SHA1 _ := replicate 20 0; Hash9 _ := replicate 32 0;
|}.

Lemma zero_hash_hits t1 t2 m : 2 ^ 31 <= t2 < 2 ^ 32 ->
  @stakeTargetHit reference_BN (@stakeHash zero_digests t1 0 (le_bytes 8 m) 0 82 0) (GetWeight (@main_net reference_BN) 0 t2) (50 * COIN)
    (@SetCompact reference_BN 0x207fffff) = true.
Proof.
  intros Ht. assert (Ew : GetWeight (@main_net reference_BN) 0 t2 = nStakeMaxAge).
  { unfold GetWeight. change (nStakeMinAge (@main_net reference_BN)) with 900. rewrite s64_small by lia. unfold nStakeMaxAge. lia. }
  rewrite Ew. unfold stakeHash, Hash. vm_compute. reflexivity.
Qed.

Lemma stake_time_drifts_witness : exists h',
  @CheckStakeKernelHash zero_digests reference_BN (@main_net reference_BN) {[ @CBlockHeader_GetHash zero_digests mint_from := st_block 0 4 ]}
    (fun _ => [st_block 1000000 4]) 0x207fffff mint_from 82 demo_prev (mkOutPoint demo_hash 0) (2 ^ 31) 45 false (uint_zero 8) = Some (true, 2 ^ 31 + 1035, h').
Proof.
  apply (@stake_time_drifts zero_digests reference_BN one_sig_ECDSA (@main_net reference_BN) {[ @CBlockHeader_GetHash zero_digests mint_from := st_block 0 4 ]}
    (fun _ => [st_block 1000000 4]) 0x207fffff mint_from 82 demo_prev (mkOutPoint demo_hash 0) (mkTxOut (50 * COIN) demo_script) 0 45 (2 ^ 31) (uint_zero 8)).
  - reflexivity.
  - vm_compute. reflexivity.
  - lia.
  - vm_compute. discriminate.
  - vm_compute. discriminate.
  - lia.
  - lia.
  - intros k Hk. apply zero_hash_hits. pose proof (drifted_sum (2 ^ 31) 45 k). nia.
Defined.
