(* ===== verification/Catalogue.v ===== *)
(** * Translation catalogues (qt/locale/bitcoin_*.ts) and the code that uses them

    A catalogue is what a [.ts] file holds: for each context (a class of the
    interface, or [bitcoin-core] for the messages of the node itself) the messages
    with their source text, where they occur, and their translation.  Texts are
    the bytes of the file with the XML escapes still in them, so printing a
    catalogue gives the file back; [unescape] decodes them.  The second half models
    how the program asks for a translation ([Translate] in qt/bitcoin.cpp and [_]
    in ui_interface.h) over an interface to Qt. *)

From S2P Require Import Prelude.
From Stdlib Require Import Strings.Byte.

(** ** Text *)

Inductive text := Text (l : list byte).
Definition text_bytes (t : text) : list byte := let 'Text l := t in l.

Declare Scope text_scope.
Delimit Scope text_scope with text.
String Notation text Text text_bytes : text_scope.
#[global] Open Scope text_scope.

#[export] Instance byte_eq_dec : EqDecision byte := Byte.byte_eq_dec.
#[export] Instance text_eq_dec : EqDecision text.
Proof. solve_decision. Defined.

(** Blanks the catalogues use, spelt out: the ideographic and the no-break space. *)
Definition U3000 : text := Text [xe3; x80; x80].
Definition U00A0 : text := Text [xc2; xa0].
Definition join (l : list text) : text := Text (flat_map text_bytes l).

(** ** Data *)

(** [<location filename="..." line="+14"/>]: lines are relative to the location
    before. *)
Record location := mkLoc { loc_filename : option text; loc_line : Z }.

(** The four forms of [<translation>] the files use. *)
Inductive translation :=
| Unfinished
| Translated (t : text)
| UnfinishedForms (forms : list text)
| Forms (forms : list text).

Record message := mkMessage { msg_numerus : bool; msg_locs : list location; msg_source : text; msg_translation : translation }.
Record context := mkContext { ctx_name : text; ctx_messages : list message }.
Record TS := mkTS { ts_language : text; ts_version : text; ts_contexts : list context }.

#[export] Instance location_eq_dec : EqDecision location.
Proof. solve_decision. Defined.

(** Short forms for the entries of a file. *)
Abbreviation in_file f n := (mkLoc (Some f) n).
Abbreviation line n := (mkLoc None n).
Abbreviation msg := (mkMessage false).
Abbreviation nmsg := (mkMessage true).

(** ** The file *)

Definition nl : list byte := [x0a].

Definition print_nat (n : Z) : list byte :=
  let fix digits (fuel : nat) (n : Z) (acc : list byte) : list byte :=
    match fuel with
    | O => acc
    | S fuel =>
        let acc := default x30 (Byte.of_N (Z.to_N (48 + n mod 10))) :: acc in
        if n <? 10 then acc else digits fuel (n / 10) acc
    end in
  digits 20%nat n [].

Definition print_line (n : Z) : list byte := if n <? 0 then x2d :: print_nat (- n) else x2b :: print_nat n.

(** [str] reads well for markup; its double quotes are [DQ]. *)
Abbreviation str s := (text_bytes s%text).
Abbreviation DQ := [x22].
Definition quoted (l : list byte) : list byte := DQ ++ l ++ DQ.

Definition print_location (p : location) : list byte :=
  str "        <location" ++
  match loc_filename p with Some f => str " filename=" ++ quoted (text_bytes f) | None => [] end ++
  str " line=" ++ quoted (print_line (loc_line p)) ++ str "/>" ++ nl.

Definition print_form (t : text) : list byte := str "<numerusform>" ++ text_bytes t ++ str "</numerusform>".

Definition unfinished_attr : list byte := str " type=" ++ quoted (str "unfinished").

Definition print_translation (t : translation) : list byte :=
  match t with
  | Unfinished => str "<translation" ++ unfinished_attr ++ str "/>"
  | Translated t => str "<translation>" ++ text_bytes t ++ str "</translation>"
  | UnfinishedForms fs => str "<translation" ++ unfinished_attr ++ str ">" ++ flat_map print_form fs ++ str "</translation>"
  | Forms fs => str "<translation>" ++ flat_map print_form fs ++ str "</translation>"
  end.

Definition print_message (m : message) : list byte :=
  str "    <message" ++ (if msg_numerus m then str " numerus=" ++ quoted (str "yes") else []) ++ str ">" ++ nl ++
  flat_map print_location (msg_locs m) ++
  str "        <source>" ++ text_bytes (msg_source m) ++ str "</source>" ++ nl ++
  str "        " ++ print_translation (msg_translation m) ++ nl ++ str "    </message>" ++ nl.

Definition print_context (c : context) : list byte :=
  str "<context>" ++ nl ++ str "    <name>" ++ text_bytes (ctx_name c) ++ str "</name>" ++ nl ++
  flat_map print_message (ctx_messages c) ++ str "</context>" ++ nl.

Definition print_TS (c : TS) : list byte :=
  [xef; xbb; xbf] ++ str "<?xml version=" ++ quoted (str "1.0") ++ str " ?><!DOCTYPE TS><TS language=" ++
  quoted (text_bytes (ts_language c)) ++ str " version=" ++ quoted (text_bytes (ts_version c)) ++ str ">" ++ nl ++
  flat_map print_context (ts_contexts c) ++ str "</TS>" ++ nl.

(** ** XML character data *)

(** The entities XML predefines. *)
Definition entities : list (list byte * byte) :=
  [(str "amp", x26); (str "lt", x3c); (str "gt", x3e); (str "quot", x22); (str "apos", x27)].

Fixpoint entity (l : list (list byte * byte)) (name : list byte) : option byte :=
  match l with
  | [] => None
  | (n, b) :: l => if decide (n = name) then Some b else entity l name
  end.

(** [pending] is the name of the entity being read, if one is.  [None]: a raw [<],
    or an entity that is unknown or not closed. *)
Fixpoint unescape_from (pending : option (list byte)) (l : list byte) : option (list byte) :=
  match l, pending with
  | [], None => Some []
  | [], Some _ => None
  | b :: l, None =>
      if decide (b = x26) then unescape_from (Some []) l
      else if decide (b = x3c) then None
      else cons b <$> unescape_from None l
  | b :: l, Some name =>
      if decide (b = x3b) then
        match entity entities name with None => None | Some e => cons e <$> unescape_from None l end
      else unescape_from (Some (name ++ [b])) l
  end.

Definition unescape (t : text) : option (list byte) := unescape_from None (text_bytes t).

Definition escape_byte (b : byte) : list byte :=
  match b with
  | x26 => str "&amp;" | x3c => str "&lt;" | x3e => str "&gt;" | x22 => str "&quot;" | x27 => str "&apos;"
  | b => [b]
  end.
Definition escape (l : list byte) : text := Text (flat_map escape_byte l).

(** ** printf formats *)

Definition one_of (s : list byte) (b : byte) : bool := bool_decide (b ∈ s).

(** What a format asks of the argument list, in order: for each conversion its
    length modifiers and letter, and a star for a width or precision taken from
    the arguments.  [None] when a conversion is malformed, for which the C library
    promises nothing.  [spec] is the conversion being read: its modifiers. *)
Fixpoint printf_from (spec : option (list byte)) (l : list byte) : option (list (list byte)) :=
  match l, spec with
  | [], None => Some []
  | [], Some _ => None
  | b :: l, None => if decide (b = x25) then printf_from (Some []) l else printf_from None l
  | b :: l, Some mods =>
      if one_of (str "hljztL") b then printf_from (Some (mods ++ [b])) l
      else if one_of (str "diouxXeEfFgGaAcspn") b then cons (mods ++ [b]) <$> printf_from None l
      else
        match mods with
        | [] =>
            if decide (b = x25) then printf_from None l
            else if decide (b = x2a) then cons [x2a] <$> printf_from (Some []) l
            else if one_of (str "-+ #0'.123456789") b then printf_from (Some []) l
            else None
        | _ => None
        end
  end.

Definition printf_args (l : list byte) : option (list (list byte)) := printf_from None l.

(** ** QString::arg place markers *)

Definition digit (b : byte) : option Z :=
  let n := Z.of_N (Byte.to_N b) - 48 in if ((0 <=? n) && (n <=? 9))%bool then Some n else None.

(** The markers of a text: [%1] to [%99], and 0 for [%n]; an [L] may stand after the
    percent sign. *)
Fixpoint markers (l : list byte) : list Z :=
  match l with
  | [] => []
  | b :: rest =>
      if decide (b = x25) then
        let body := match rest with c :: rest' => if decide (c = x4c) then rest' else rest | [] => [] end in
        match body with
        | c :: after =>
            match digit c with
            | Some d =>
                match after with
                | c2 :: _ => match digit c2 with Some d2 => (10 * d + d2) :: markers rest | None => d :: markers rest end
                | [] => d :: markers rest
                end
            | None => if decide (c = x6e) then 0 :: markers rest else markers rest
            end
        | [] => markers rest
        end
      else markers rest
  end.

(** ** Rich text *)

Definition is_letter (b : byte) : bool :=
  let n := Z.of_N (Byte.to_N b) in (((97 <=? n) && (n <=? 122)) || ((65 <=? n) && (n <=? 90)))%bool.

Inductive tag := OpenTag (name : list byte) | CloseTag (name : list byte) | EmptyTag (name : list byte).

Inductive tag_state :=
| Outside
| Start                                            (* after [<] *)
| Name (closing : bool) (name : list byte)         (* in the name *)
| Attributes (closing slash : bool) (name : list byte).   (* after it; [slash] when the last byte was one *)

Definition finish (closing slash : bool) (name : list byte) : tag :=
  if closing then CloseTag name else if slash then EmptyTag name else OpenTag name.

(** The tags of a text, in order; [<] before anything but a name is text. *)
Fixpoint tags_from (st : tag_state) (l : list byte) : list tag :=
  match l with
  | [] => []
  | b :: l =>
      match st with
      | Outside => if decide (b = x3c) then tags_from Start l else tags_from Outside l
      | Start =>
          if decide (b = x2f) then tags_from (Name true []) l
          else if is_letter b then tags_from (Name false [b]) l
          else tags_from Outside l
      | Name closing name =>
          if is_letter b then tags_from (Name closing (name ++ [b])) l
          else if decide (b = x3e) then finish closing false name :: tags_from Outside l
          else tags_from (Attributes closing (bool_decide (b = x2f)) name) l
      | Attributes closing slash name =>
          if decide (b = x3e) then finish closing slash name :: tags_from Outside l
          else tags_from (Attributes closing (bool_decide (b = x2f)) name) l
      end
  end.

Definition tags (l : list byte) : list tag := tags_from Outside l.

Definition is_void (n : list byte) : bool := bool_decide (n = str "br" \/ n = str "hr").

(** Every closing tag closes the last open one, and none stays open; [<br>] and [<hr>]
    have no closing tag. *)
Fixpoint balanced_from (open : list (list byte)) (l : list tag) : bool :=
  match l with
  | [] => match open with [] => true | _ => false end
  | EmptyTag _ :: l => balanced_from open l
  | OpenTag n :: l => if is_void n then balanced_from open l else balanced_from (n :: open) l
  | CloseTag n :: l => match open with m :: open => bool_decide (m = n) && balanced_from open l | [] => false end
  end%bool.

Definition balanced (l : list byte) : bool := balanced_from [] (tags l).

(** ** What a catalogue offers *)

(** The texts a message can be shown as: empty translations are not released. *)
Definition translations (m : message) : list text :=
  filter (fun t => t <> Text [])
    match msg_translation m with
    | Unfinished => []
    | Translated t => [t]
    | UnfinishedForms fs | Forms fs => fs
    end.

Definition entries (c : TS) : list (text * message) :=
  flat_map (fun ctx => map (pair (ctx_name ctx)) (ctx_messages ctx)) (ts_contexts c).

(** A message is looked up by context and source text. *)
Definition key (e : text * message) : text * text := (fst e, msg_source (snd e)).
