(* ===== verification/CatalogueKa.v ===== *)
(** * The Georgian catalogue (qt/locale/bitcoin_ka.ts)

    The file entry by entry, one definition for each context; long contexts are
    split into parts. *)

From S2P Require Import Prelude Catalogue.

Definition ka_AboutDialog : context := mkContext "AboutDialog" [
  msg [in_file "../forms/aboutdialog.ui" 14]
    "About MotaCoin"
    Unfinished;
  msg [line 39]
    "&lt;b&gt;MotaCoin&lt;/b&gt; version"
    Unfinished;
  msg [line 41]
    "Copyright © 2009-14 The Bitcoin developers
Copyright © 2012-14 The NovaCoin developers
Copyright © 2014-20 The MotaCoin developers"
    Unfinished;
  msg [line 15]
    "
This is experimental software.

Distributed under the MIT/X11 software license, see the accompanying file COPYING or http://www.opensource.org/licenses/mit-license.php.

This product includes software developed by the OpenSSL Project for use in the OpenSSL Toolkit (http://www.openssl.org/) and cryptographic software written by Eric Young (eay@cryptsoft.com) and UPnP software written by Thomas Bernard."
    (Translated "
პროგრამა ექსპერიმენტულია.

ვრცელდება MIT/X11 ლიცენზიით, იხილე თანდართული ფაილი COPYING ან http://www.opensource.org/licenses/mit-license.php.

პროდუქტი შეიცავს OpenSSL პროექტის ფარგლებში შემუშავებულ პროგრამულ უზრუნველყოფას OpenSSL Toolkit-ში გამოყენებისათვის (http://www.openssl.org/), კრიპტოგრაფიულ პროგრამას, ავტორი ერიქ იანგი (Eric Young, eay@cryptsoft.com) და UPnP-პროგრამას, ავტორი თომას ბერნარდი (Thomas Bernard).")
].

Definition ka_AddressBookPage : context := mkContext "AddressBookPage" [
  msg [in_file "../forms/addressbookpage.ui" 14]
    "Address Book"
    Unfinished;
  msg [line 22]
    "Double-click to edit address or label"
    (Translated "დააკლიკეთ ორჯერ მისამართის ან ნიშნულის შესაცვლელად");
  msg [line 27]
    "Create a new address"
    (Translated "ახალი მისამართის შექმნა");
  msg [line 14]
    "Copy the currently selected address to the system clipboard"
    (Translated "მონიშნული მისამართის კოპირება სისტემურ კლიპბორდში");
  msg [line (-11)]
    "&amp;New"
    Unfinished;
  msg [line (-46)]
    "These are your MotaCoin addresses for receiving payments. You may want to give a different one to each sender so you can keep track of who is paying you."
    Unfinished;
  msg [line 60]
    "&amp;Copy Address"
    (Translated "&amp;მისამართის კოპირება");
  msg [line 11]
    "Show &amp;QR Code"
    Unfinished;
  msg [line 11]
    "Sign a message to prove you own a MotaCoin address"
    Unfinished;
  msg [line 3]
    "Sign &amp;Message"
    Unfinished;
  msg [line 25]
    "Delete the currently selected address from the list"
    (Translated "მონიშნული მისამართის წაშლა სიიდან");
  msg [line (-14)]
    "Verify a message to ensure it was signed with a specified MotaCoin address"
    Unfinished;
  msg [line 3]
    "&amp;Verify Message"
    Unfinished;
  msg [line 14]
    "&amp;Delete"
    (Translated "&amp;წაშლა");
  msg [in_file "../addressbookpage.cpp" 65]
    "Copy &amp;Label"
    (Translated "ნიშნუ&amp;ლის კოპირება");
  msg [line 2]
    "&amp;Edit"
    (Translated "რ&amp;ედაქტირება");
  msg [line 250]
    "Export Address Book Data"
    Unfinished;
  msg [line 1]
    "Comma separated file (*.csv)"
    (Translated "CSV-ფაილი (*.csv)");
  msg [line 13]
    "Error exporting"
    Unfinished;
  msg [line 0]
    "Could not write to file %1."
    Unfinished
].

Definition ka_AddressTableModel : context := mkContext "AddressTableModel" [
  msg [in_file "../addresstablemodel.cpp" 144]
    "Label"
    (Translated "ნიშნული");
  msg [line 0]
    "Address"
    (Translated "მისამართი");
  msg [line 36]
    "(no label)"
    (Translated "(არ არის ნიშნული)")
].

Definition ka_AskPassphraseDialog : context := mkContext "AskPassphraseDialog" [
  msg [in_file "../forms/askpassphrasedialog.ui" 26]
    "Passphrase Dialog"
    (Translated "ფრაზა-პაროლის დიალოგი");
  msg [line 21]
    "Enter passphrase"
    (Translated "შეიყვანეთ ფრაზა-პაროლი");
  msg [line 14]
    "New passphrase"
    (Translated "ახალი ფრაზა-პაროლი");
  msg [line 14]
    "Repeat new passphrase"
    (Translated "გაიმეორეთ ახალი ფრაზა-პაროლი");
  msg [line 33]
    "Serves to disable the trivial sendmoney when OS account compromised. Provides no real security."
    Unfinished;
  msg [line 3]
    "For staking only"
    Unfinished;
  msg [in_file "../askpassphrasedialog.cpp" 35]
    "Enter the new passphrase to the wallet.&lt;br/&gt;Please use a passphrase of &lt;b&gt;10 or more random characters&lt;/b&gt;, or &lt;b&gt;eight or more words&lt;/b&gt;."
    (Translated "შეიყვანეთ საფულის ახალი ფრაზა-პაროლი.&lt;br/&gt;ფრაზა-პაროლი შეადგინეთ &lt;b&gt;არანაკლებ 10 შემთხვევითი სიმბოლოსაგან&lt;/b&gt;, ან &lt;b&gt;რვა და მეტი სიტყვისაგან&lt;/b&gt;.");
  msg [line 1]
    "Encrypt wallet"
    (Translated "საფულის დაშიფრვა");
  msg [line 7]
    "This operation needs your wallet passphrase to unlock the wallet."
    (Translated "ეს ოპერაცია მოითხოვს თქვენი საფულის ფრაზა-პაროლს საფულის განსაბლოკად.");
  msg [line 5]
    "Unlock wallet"
    (Translated "საფულის განბლოკვა");
  msg [line 3]
    "This operation needs your wallet passphrase to decrypt the wallet."
    (Translated "ეს ოპერაცია მოითხოვს თქვენი საფულის ფრაზა-პაროლს საფულის გასაშიფრად.");
  msg [line 5]
    "Decrypt wallet"
    (Translated "საფულის გაშიფრვა");
  msg [line 3]
    "Change passphrase"
    (Translated "ფრაზა-პაროლის შეცვლა");
  msg [line 1]
    "Enter the old and new passphrase to the wallet."
    (Translated "შეიყვანეთ საფულის ძველი და ახალი ფრაზა-პაროლი.");
  msg [line 46]
    "Confirm wallet encryption"
    (Translated "დაადასტურეთ საფულის დაშიფრვა");
  msg [line 1]
    "Warning: If you encrypt your wallet and lose your passphrase, you will &lt;b&gt;LOSE ALL OF YOUR COINS&lt;/b&gt;!"
    Unfinished;
  msg [line 0]
    "Are you sure you wish to encrypt your wallet?"
    (Translated "დარწმუნებული ხართ, რომ გინდათ საფულის დაშიფრვა?");
  msg [line 15]
    "IMPORTANT: Any previous backups you have made of your wallet file should be replaced with the newly generated, encrypted wallet file. For security reasons, previous backups of the unencrypted wallet file will become useless as soon as you start using the new, encrypted wallet."
    (Translated "მნიშვნელოვანია: თქვენი საფულის ყველა ადრინდელი არქივი შეიცვლება ახლადგენერირებული დაშიფრული საფულის ფაილით. უსაფრთხოების მოსაზრებებით დაუშიფრავი საფულის ძველი არქივები ძალას დაკარგავს, როგორც კი დაიწყებთ ახალი, დაშიფრული საფულის გამოყენებას.");
  msg [line 103; line 24]
    "Warning: The Caps Lock key is on!"
    (Translated "ყურადღება: ჩართულია Caps Lock რეჟიმი!");
  msg [line (-133); line 60]
    "Wallet encrypted"
    (Translated "საფულე დაშიფრულია");
  msg [line (-58)]
    "MotaCoin will close now to finish the encryption process. Remember that encrypting your wallet cannot fully protect your coins from being stolen by malware infecting your computer."
    Unfinished;
  msg [line 13; line 7; line 44; line 6]
    "Wallet encryption failed"
    (Translated "ვერ მოხერხდა საფულის დაშიფრვა");
  msg [line (-56)]
    "Wallet encryption failed due to an internal error. Your wallet was not encrypted."
    (Translated "საფულის დაშიფრვა ვერ მოხერხდა სისტემაში შეცდომის გამო. თქვენი საფულე არ არის დაშფრული.");
  msg [line 7; line 50]
    "The supplied passphrases do not match."
    (Translated "ფრაზა-პაროლები არ ემთხვევა ერთმანეთს.");
  msg [line (-38)]
    "Wallet unlock failed"
    (Translated "საფულის განბლოკვა ვერ მოხერხდა");
  msg [line 1; line 12; line 19]
    "The passphrase entered for the wallet decryption was incorrect."
    (Translated "საფულის განშიფრვის ფრაზა-პაროლი არაწორია");
  msg [line (-20)]
    "Wallet decryption failed"
    (Translated "საფულის განშიფრვა ვერ მოხერხდა");
  msg [line 14]
    "Wallet passphrase was successfully changed."
    (Translated "საფულის ფრაზა-პაროლი შეცვლილია.")
].

Definition ka_BitcoinGUI_1 : list message := [
  msg [in_file "../bitcoingui.cpp" 282]
    "Sign &amp;message..."
    (Translated "ხელ&amp;მოწერა");
  msg [line 251]
    "Synchronizing with network..."
    (Translated "ქსელთან სინქრონიზება...");
  msg [line (-319)]
    "&amp;Overview"
    (Translated "მიმ&amp;ოხილვა");
  msg [line 1]
    "Show general overview of wallet"
    (Translated "საფულის ზოგადი მიმოხილვა");
  msg [line 17]
    "&amp;Transactions"
    (Translated "&amp;ტრანსაქციები");
  msg [line 1]
    "Browse transaction history"
    (Translated "ტრანსაქციების ისტორიის დათვალიერება");
  msg [line 5]
    "&amp;Address Book"
    Unfinished;
  msg [line 1]
    "Edit the list of stored addresses and labels"
    Unfinished;
  msg [line (-13)]
    "&amp;Receive coins"
    Unfinished;
  msg [line 1]
    "Show the list of addresses for receiving payments"
    Unfinished;
  msg [line (-7)]
    "&amp;Send coins"
    Unfinished;
  msg [line 35]
    "E&amp;xit"
    (Translated "&amp;გასვლა");
  msg [line 1]
    "Quit application"
    (Translated "გასვლა");
  msg [line 6]
    "Show information about MotaCoin"
    Unfinished;
  msg [line 2]
    "About &amp;Qt"
    (Translated "&amp;Qt-ს შესახებ");
  msg [line 1]
    "Show information about Qt"
    (Translated "ინფორმაცია Qt-ს შესახებ");
  msg [line 2]
    "&amp;Options..."
    (Translated "&amp;ოპციები");
  msg [line 4]
    "&amp;Encrypt Wallet..."
    (Translated "საფულის &amp;დაშიფრვა");
  msg [line 3]
    "&amp;Backup Wallet..."
    (Translated "საფულის &amp;არქივირება");
  msg [line 2]
    "&amp;Change Passphrase..."
    (Translated "ფრაზა-პაროლის შე&amp;ცვლა");
  nmsg [line 259]
    "~%n block(s) remaining"
    (UnfinishedForms [""]);
  msg [line 6]
    "Downloaded %1 of %2 blocks of transaction history (%3% done)."
    Unfinished;
  msg [line (-256)]
    "&amp;Export..."
    Unfinished;
  msg [line (-64)]
    "Send coins to a MotaCoin address"
    Unfinished;
  msg [line 47]
    "Modify configuration options for MotaCoin"
    Unfinished;
  msg [line 18]
    "Export the data in the current tab to a file"
    Unfinished;
  msg [line (-14)]
    "Encrypt or decrypt wallet"
    Unfinished;
  msg [line 3]
    "Backup wallet to another location"
    (Translated "საფულის არქივირება სხვა ადგილზე");
  msg [line 2]
    "Change the passphrase used for wallet encryption"
    (Translated "საფულის დაშიფრვის ფრაზა-პაროლის შეცვლა")
].

Definition ka_BitcoinGUI_2 : list message := [
  msg [line 10]
    "&amp;Debug window"
    (Translated "და&amp;ხვეწის ფანჯარა");
  msg [line 1]
    "Open debugging and diagnostic console"
    (Translated "დახვეწისა და გიაგნოსტიკის კონსოლის გაშვება");
  msg [line (-5)]
    "&amp;Verify message..."
    (Translated "&amp;ვერიფიკაცია");
  msg [line (-202)]
    "MotaCoin"
    Unfinished;
  msg [line 0]
    "Wallet"
    (Translated "საფულე");
  msg [line 180]
    "&amp;About MotaCoin"
    Unfinished;
  msg [line 9]
    "&amp;Show / Hide"
    (Translated "&amp;ჩვენება/დაფარვა");
  msg [line 9]
    "Unlock wallet"
    Unfinished;
  msg [line 1]
    "&amp;Lock Wallet"
    Unfinished;
  msg [line 1]
    "Lock wallet"
    Unfinished;
  msg [line 35]
    "&amp;File"
    (Translated "&amp;ფაილი");
  msg [line 8]
    "&amp;Settings"
    (Translated "&amp;პარამეტრები");
  msg [line 8]
    "&amp;Help"
    (Translated "&amp;დახმარება");
  msg [line 12]
    "Tabs toolbar"
    (Translated "ბარათების პანელი");
  msg [line 8]
    "Actions toolbar"
    Unfinished;
  msg [line 13; line 9]
    "[testnet]"
    (Translated "[testnet]");
  msg [line 0; line 60]
    "MotaCoin client"
    Unfinished;
  nmsg [line 75]
    "%n active connection(s) to MotaCoin network"
    (UnfinishedForms [""]);
  msg [line 40]
    "Downloaded %1 blocks of transaction history."
    Unfinished;
  msg [line 413]
    "Staking.&lt;br&gt;Your weight is %1&lt;br&gt;Network weight is %2&lt;br&gt;Expected time to earn reward is %3"
    Unfinished;
  msg [line 6]
    "Not staking because wallet is locked"
    Unfinished;
  msg [line 2]
    "Not staking because wallet is offline"
    Unfinished;
  msg [line 2]
    "Not staking because wallet is syncing"
    Unfinished;
  msg [line 2]
    "Not staking because you don&apos;t have mature coins"
    Unfinished;
  nmsg [line (-403)]
    "%n second(s) ago"
    (UnfinishedForms [""]);
  msg [line (-312)]
    "About MotaCoin card"
    Unfinished;
  msg [line 1]
    "Show information about MotaCoin card"
    Unfinished;
  msg [line 18]
    "&amp;Unlock Wallet..."
    Unfinished;
  nmsg [line 297]
    "%n minute(s) ago"
    (UnfinishedForms [""])
].

Definition ka_BitcoinGUI_3 : list message := [
  nmsg [line 4]
    "%n hour(s) ago"
    (UnfinishedForms [""]);
  nmsg [line 4]
    "%n day(s) ago"
    (UnfinishedForms [""]);
  msg [line 6]
    "Up to date"
    (Translated "განახლებულია");
  msg [line 7]
    "Catching up..."
    (Translated "ჩართვა...");
  msg [line 10]
    "Last received block was generated %1."
    Unfinished;
  msg [line 59]
    "This transaction is over the size limit.  You can still send it for a fee of %1, which goes to the nodes that process your transaction and helps to support the network.  Do you want to pay the fee?"
    Unfinished;
  msg [line 5]
    "Confirm transaction fee"
    Unfinished;
  msg [line 27]
    "Sent transaction"
    (Translated "გაგზავნილი ტრანსაქციები");
  msg [line 1]
    "Incoming transaction"
    (Translated "მიღებული ტრანსაქციები");
  msg [line 1]
    "Date: %1
Amount: %2
Type: %3
Address: %4
"
    (Translated "თარიღი: %1
თანხა: %2
ტიპი: %3
მისამართი: %4
");
  msg [line 100; line 15]
    "URI handling"
    Unfinished;
  msg [line (-15); line 15]
    "URI can not be parsed! This can be caused by an invalid MotaCoin address or malformed URI parameters."
    Unfinished;
  msg [line 18]
    "Wallet is &lt;b&gt;encrypted&lt;/b&gt; and currently &lt;b&gt;unlocked&lt;/b&gt;"
    (Translated "საფულე &lt;b&gt;დაშიფრულია&lt;/b&gt; და ამჟამად &lt;b&gt;განბლოკილია&lt;/b&gt;");
  msg [line 10]
    "Wallet is &lt;b&gt;encrypted&lt;/b&gt; and currently &lt;b&gt;locked&lt;/b&gt;"
    (Translated "საფულე &lt;b&gt;დაშიფრულია&lt;/b&gt; და ამჟამად &lt;b&gt;დაბლოკილია&lt;/b&gt;");
  msg [line 25]
    "Backup Wallet"
    Unfinished;
  msg [line 0]
    "Wallet Data (*.dat)"
    Unfinished;
  msg [line 3]
    "Backup Failed"
    Unfinished;
  msg [line 0]
    "There was an error trying to save the wallet data to the new location."
    Unfinished;
  nmsg [line 76]
    "%n second(s)"
    (UnfinishedForms [""]);
  nmsg [line 4]
    "%n minute(s)"
    (UnfinishedForms [""]);
  nmsg [line 4]
    "%n hour(s)"
    (UnfinishedForms [""]);
  nmsg [line 4]
    "%n day(s)"
    (UnfinishedForms [""]);
  msg [line 18]
    "Not staking"
    Unfinished;
  msg [in_file "../bitcoin.cpp" 109]
    "A fatal error occurred. MotaCoin can no longer continue safely and will quit."
    Unfinished
].

Definition ka_BitcoinGUI : context := mkContext "BitcoinGUI"
  (ka_BitcoinGUI_1 ++ ka_BitcoinGUI_2 ++ ka_BitcoinGUI_3).

Definition ka_ClientModel : context := mkContext "ClientModel" [
  msg [in_file "../clientmodel.cpp" 90]
    "Network Alert"
    (Translated "ქსელური განგაში")
].

Definition ka_CoinControlDialog_1 : list message := [
  msg [in_file "../forms/coincontroldialog.ui" 14]
    "Coin Control"
    Unfinished;
  msg [line 31]
    "Quantity:"
    (Translated "რაოდენობა:");
  msg [line 32]
    "Bytes:"
    (Translated "ბაიტები:");
  msg [line 48]
    "Amount:"
    (Translated "თანხა:");
  msg [line 32]
    "Priority:"
    (Translated "პრიორიტეტი:");
  msg [line 48]
    "Fee:"
    (Translated "საკომისიო:");
  msg [line 35]
    "Low Output:"
    (Translated "ქვედა ზღვარი:");
  msg [in_file "../coincontroldialog.cpp" 551]
    "no"
    (Translated "არა");
  msg [in_file "../forms/coincontroldialog.ui" 51]
    "After Fee:"
    (Translated "დამატებითი საკომისიო:");
  msg [line 35]
    "Change:"
    (Translated "ხურდა:");
  msg [line 69]
    "(un)select all"
    (Translated "ყველას მონიშვნა/(მოხსნა)");
  msg [line 13]
    "Tree mode"
    (Translated "განტოტვილი");
  msg [line 16]
    "List mode"
    (Translated "სია");
  msg [line 45]
    "Amount"
    (Translated "რაოდენობა");
  msg [line 5]
    "Label"
    Unfinished;
  msg [line 5]
    "Address"
    (Translated "მისამართი");
  msg [line 5]
    "Date"
    (Translated "თარიღი");
  msg [line 5]
    "Confirmations"
    (Translated "დადასტურება");
  msg [line 3]
    "Confirmed"
    (Translated "დადასტურებულია");
  msg [line 5]
    "Priority"
    (Translated "პრიორიტეტი");
  msg [in_file "../coincontroldialog.cpp" (-515)]
    "Copy address"
    (Translated "მისამართის კოპირება");
  msg [line 1]
    "Copy label"
    (Translated "ნიშნულის კოპირება");
  msg [line 1; line 26]
    "Copy amount"
    (Translated "თანხის კოპირება");
  msg [line (-25)]
    "Copy transaction ID"
    (Translated "ტრანსაქციის ID-ს კოპირება");
  msg [line 24]
    "Copy quantity"
    (Translated "რაოდენობის კოპირება");
  msg [line 2]
    "Copy fee"
    (Translated "საკომისიოს კოპირება");
  msg [line 1]
    "Copy after fee"
    (Translated "დამატებითი საკომისიოს კოპირება");
  msg [line 1]
    "Copy bytes"
    (Translated "ბაიტების კოპირება");
  msg [line 1]
    "Copy priority"
    (Translated "პრიორიტეტის კოპირება")
].

Definition ka_CoinControlDialog_2 : list message := [
  msg [line 1]
    "Copy low output"
    (Translated "ქვედა ზღვრის კოპირება");
  msg [line 1]
    "Copy change"
    (Translated "ხურდის კოპირება");
  msg [line 317]
    "highest"
    (Translated "უმაღლესი");
  msg [line 1]
    "high"
    (Translated "მაღალი");
  msg [line 1]
    "medium-high"
    (Translated "საშუალოზე მაღალი");
  msg [line 1]
    "medium"
    (Translated "საშუალო");
  msg [line 4]
    "low-medium"
    (Translated "საშუალოზე დაბალი");
  msg [line 1]
    "low"
    (Translated "დაბალი");
  msg [line 1]
    "lowest"
    (Translated "უდაბლესი");
  msg [line 155]
    "DUST"
    Unfinished;
  msg [line 0]
    "yes"
    (Translated "კი");
  msg [line 10]
    "This label turns red, if the transaction size is bigger than 10000 bytes.

 This means a fee of at least %1 per kb is required.

 Can vary +/- 1 Byte per input."
    Unfinished;
  msg [line 1]
    "Transactions with higher priority get more likely into a block.

This label turns red, if the priority is smaller than &quot;medium&quot;.

 This means a fee of at least %1 per kb is required."
    Unfinished;
  msg [line 1]
    "This label turns red, if any recipient receives an amount smaller than %1.

 This means a fee of at least %2 is required. 

 Amounts below 0.546 times the minimum relay fee are shown as DUST."
    Unfinished;
  msg [line 1]
    "This label turns red, if the change is smaller than %1.

 This means a fee of at least %2 is required."
    Unfinished;
  msg [line 37; line 66]
    "(no label)"
    (Translated "(არ არის ნიშნული)");
  msg [line (-9)]
    "change from %1 (%2)"
    (Translated "ხურდა %1-დან (%2)");
  msg [line 1]
    "(change)"
    (Translated "(ხურდა)")
].

Definition ka_CoinControlDialog : context := mkContext "CoinControlDialog"
  (ka_CoinControlDialog_1 ++ ka_CoinControlDialog_2).

Definition ka_EditAddressDialog : context := mkContext "EditAddressDialog" [
  msg [in_file "../forms/editaddressdialog.ui" 14]
    "Edit Address"
    (Translated "მისამართის შეცვლა");
  msg [line 11]
    "&amp;Label"
    (Translated "ნიშნუ&amp;ლი");
  msg [line 10]
    "The label associated with this address book entry"
    Unfinished;
  msg [line 7]
    "&amp;Address"
    (Translated "მის&amp;ამართი");
  msg [line 10]
    "The address associated with this address book entry. This can only be modified for sending addresses."
    Unfinished;
  msg [in_file "../editaddressdialog.cpp" 20]
    "New receiving address"
    (Translated "ახალი მიღების მისამართი");
  msg [line 4]
    "New sending address"
    (Translated "ახალი გაგზავნის მისამართი");
  msg [line 3]
    "Edit receiving address"
    (Translated "მიღების მისამართის შეცვლა");
  msg [line 4]
    "Edit sending address"
    (Translated "გაგზავნის მისამართის შეცვლა");
  msg [line 76]
    "The entered address &quot;%1&quot; is already in the address book."
    (Translated "მისამართი &quot;%1&quot; უკვე არის მისამართების წიგნში.");
  msg [line (-5)]
    "The entered address &quot;%1&quot; is not a valid MotaCoin address."
    Unfinished;
  msg [line 10]
    "Could not unlock wallet."
    (Translated "საფულის განბლოკვა ვერ მოხერხდა.");
  msg [line 5]
    "New key generation failed."
    (Translated "ახალი გასაღების გენერირება ვერ მოხერხდა")
].

Definition ka_GUIUtil_HelpMessageBox : context := mkContext "GUIUtil::HelpMessageBox" [
  msg [in_file "../guiutil.cpp" 420; line 12]
    "MotaCoin-Qt"
    Unfinished;
  msg [line (-12)]
    "version"
    Unfinished;
  msg [line 2]
    "Usage:"
    Unfinished;
  msg [line 1]
    "command-line options"
    Unfinished;
  msg [line 4]
    "UI options"
    Unfinished;
  msg [line 1]
    "Set language, for example &quot;de_DE&quot; (default: system locale)"
    Unfinished;
  msg [line 1]
    "Start minimized"
    Unfinished;
  msg [line 1]
    "Show splash screen on startup (default: 1)"
    Unfinished
].

Definition ka_OptionsDialog_1 : list message := [
  msg [in_file "../forms/optionsdialog.ui" 14]
    "Options"
    (Translated "ოპციები");
  msg [line 16]
    "&amp;Main"
    (Translated "&amp;მთავარი");
  msg [line 6]
    "Optional transaction fee per kB that helps make sure your transactions are processed quickly. Most transactions are 1 kB. Fee 0.01 recommended."
    Unfinished;
  msg [line 15]
    "Pay transaction &amp;fee"
    (Translated "ტრანსაქციის სა&amp;ფასურის გადახდა");
  msg [line 31]
    "Reserved amount does not participate in staking and is therefore spendable at any time."
    Unfinished;
  msg [line 15]
    "Reserve"
    Unfinished;
  msg [line 31]
    "Automatically start MotaCoin after logging in to the system."
    Unfinished;
  msg [line 3]
    "&amp;Start MotaCoin on system login"
    Unfinished;
  msg [line 7]
    "Detach block and address databases at shutdown. This means they can be moved to another data directory, but it slows down shutdown. The wallet is always detached."
    Unfinished;
  msg [line 3]
    "&amp;Detach databases at shutdown"
    Unfinished;
  msg [line 21]
    "&amp;Network"
    (Translated "&amp;ქსელი");
  msg [line 6]
    "Automatically open the MotaCoin client port on the router. This only works when your router supports UPnP and it is enabled."
    Unfinished;
  msg [line 3]
    "Map port using &amp;UPnP"
    (Translated "პორტის გადამისამართება &amp;UPnP-ით");
  msg [line 7]
    "Connect to the MotaCoin network through a SOCKS proxy (e.g. when connecting through Tor)."
    Unfinished;
  msg [line 3]
    "&amp;Connect through SOCKS proxy:"
    Unfinished;
  msg [line 9]
    "Proxy &amp;IP:"
    (Translated "პროქსის &amp;IP:");
  msg [line 19]
    "IP address of the proxy (e.g. 127.0.0.1)"
    Unfinished;
  msg [line 7]
    "&amp;Port:"
    (Translated "&amp;პორტი");
  msg [line 19]
    "Port of the proxy (e.g. 9050)"
    (Translated "პროქსის პორტი (მაგ.: 9050)");
  msg [line 7]
    "SOCKS &amp;Version:"
    (Translated "SOCKS &amp;ვერსია:");
  msg [line 13]
    "SOCKS version of the proxy (e.g. 5)"
    (Translated "პროქსის SOCKS-ვერსია (მაგ.: 5)");
  msg [line 36]
    "&amp;Window"
    (Translated "&amp;ფანჯარა");
  msg [line 6]
    "Show only a tray icon after minimizing the window."
    (Translated "ფანჯრის მინიმიზებისას მხოლოდ იკონა სისტემურ ზონაში");
  msg [line 3]
    "&amp;Minimize to the tray instead of the taskbar"
    (Translated "&amp;მინიმიზება სისტემურ ზონაში პროგრამების პანელის ნაცვლად");
  msg [line 7]
    "Minimize instead of exit the application when the window is closed. When this option is enabled, the application will be closed only after selecting Quit in the menu."
    (Translated "პროგრამის მინიმიზება ფანჯრის დახურვისას. ოპციის ჩართვის შემდეგ პროგრამის დახურვა შესაძლებელი იქნება მხოლოდ მენიუდან - პუნქტი &quot;გასვლა&quot;.");
  msg [line 3]
    "M&amp;inimize on close"
    (Translated "მ&amp;ინიმიზება დახურვისას");
  msg [line 21]
    "&amp;Display"
    (Translated "&amp;ჩვენება");
  msg [line 8]
    "User Interface &amp;language:"
    (Translated "სამომხმარებ&amp;ლო ენა:");
  msg [line 13]
    "The user interface language can be set here. This setting will take effect after restarting MotaCoin."
    Unfinished
].

Definition ka_OptionsDialog_2 : list message := [
  msg [line 11]
    "&amp;Unit to show amounts in:"
    (Translated "ერთეუ&amp;ლი:");
  msg [line 13]
    "Choose the default subdivision unit to show in the interface and when sending coins."
    (Translated "აირჩიეთ გასაგზავნი თანხის ნაგულისხმევი ერთეული.");
  msg [line 9]
    "Whether to show MotaCoin addresses in the transaction list or not."
    Unfinished;
  msg [line 3]
    "&amp;Display addresses in transaction list"
    (Translated "მისამართების &amp;ჩვენება სიაში");
  msg [line 7]
    "Whether to show coin control features or not."
    (Translated "ვაჩვენოთ თუ არა მონეტების მართვის პარამეტრები.");
  msg [line 3]
    "Display coin &amp;control features (experts only!)"
    Unfinished;
  msg [line 71]
    "&amp;OK"
    (Translated "&amp;OK");
  msg [line 7]
    "&amp;Cancel"
    (Translated "&amp;გაუქმება");
  msg [line 10]
    "&amp;Apply"
    Unfinished;
  msg [in_file "../optionsdialog.cpp" 55]
    "default"
    (Translated "ნაგულისხმევი");
  msg [line 149; line 9]
    "Warning"
    Unfinished;
  msg [line (-9); line 9]
    "This setting will take effect after restarting MotaCoin."
    Unfinished;
  msg [line 29]
    "The supplied proxy address is invalid."
    (Translated "პროქსის მისამართი არასწორია.")
].

Definition ka_OptionsDialog : context := mkContext "OptionsDialog"
  (ka_OptionsDialog_1 ++ ka_OptionsDialog_2).

Definition ka_OverviewPage : context := mkContext "OverviewPage" [
  msg [in_file "../forms/overviewpage.ui" 14]
    "Form"
    (Translated "ფორმა");
  msg [line 33; line 231]
    "The displayed information may be out of date. Your wallet automatically synchronizes with the MotaCoin network after a connection is established, but this process has not completed yet."
    Unfinished;
  msg [line (-160)]
    "Stake:"
    Unfinished;
  msg [line 29]
    "Unconfirmed:"
    (Translated "დაუდასტურებელია:");
  msg [line (-107)]
    "Wallet"
    (Translated "საფულე");
  msg [line 49]
    "Spendable:"
    Unfinished;
  msg [line 16]
    "Your current spendable balance"
    (Translated "თქვენი ხელმისაწვდომი ნაშთი");
  msg [line 71]
    "Immature:"
    (Translated "მოუმზადებელია:");
  msg [line 13]
    "Mined balance that has not yet matured"
    (Translated "მოპოვებული თანხა, რომელიც ჯერ არ არის მზადყოფნაში");
  msg [line 20]
    "Total:"
    (Translated "სულ:");
  msg [line 16]
    "Your current total balance"
    (Translated "თქვენი სრული მიმდინარე ბალანსი");
  msg [line 46]
    "&lt;b&gt;Recent transactions&lt;/b&gt;"
    (Translated "&lt;b&gt;ბოლო ტრანსაქციები&lt;/b&gt;");
  msg [line (-108)]
    "Total of transactions that have yet to be confirmed, and do not yet count toward the current balance"
    Unfinished;
  msg [line (-29)]
    "Total of coins that was staked, and do not yet count toward the current balance"
    Unfinished;
  msg [in_file "../overviewpage.cpp" 113; line 1]
    "out of sync"
    (Translated "არ არის სინქრონიზებული")
].

Definition ka_QRCodeDialog : context := mkContext "QRCodeDialog" [
  msg [in_file "../forms/qrcodedialog.ui" 14]
    "QR Code Dialog"
    Unfinished;
  msg [line 59]
    "Request Payment"
    Unfinished;
  msg [line 56]
    "Amount:"
    Unfinished;
  msg [line (-44)]
    "Label:"
    Unfinished;
  msg [line 19]
    "Message:"
    Unfinished;
  msg [line 71]
    "&amp;Save As..."
    Unfinished;
  msg [in_file "../qrcodedialog.cpp" 62]
    "Error encoding URI into QR Code."
    Unfinished;
  msg [line 40]
    "The entered amount is invalid, please check."
    Unfinished;
  msg [line 23]
    "Resulting URI too long, try to reduce the text for label / message."
    Unfinished;
  msg [line 25]
    "Save QR Code"
    Unfinished;
  msg [line 0]
    "PNG Images (*.png)"
    Unfinished
].

Definition ka_RPCConsole : context := mkContext "RPCConsole" [
  msg [in_file "../forms/rpcconsole.ui" 46]
    "Client name"
    (Translated "კლიენტი");
  msg [line 10; line 23; line 26; line 23; line 23; line 36; line 53; line 23; line 23; in_file "../rpcconsole.cpp" 348]
    "N/A"
    (Translated "მიუწვდ.");
  msg [line (-217)]
    "Client version"
    (Translated "კლიენტის ვერსია");
  msg [line (-45)]
    "&amp;Information"
    (Translated "&amp;ინფორმაცია");
  msg [line 68]
    "Using OpenSSL version"
    (Translated "OpenSSL-ის ვერსია");
  msg [line 49]
    "Startup time"
    (Translated "სტარტის დრო");
  msg [line 29]
    "Network"
    (Translated "ქსელი");
  msg [line 7]
    "Number of connections"
    (Translated "შეერთებების რაოდენობა");
  msg [line 23]
    "On testnet"
    Unfinished;
  msg [line 23]
    "Block chain"
    (Translated "ბლოკთა ჯაჭვი");
  msg [line 7]
    "Current number of blocks"
    (Translated "ბლოკების მიმდინარე რაოდენობა");
  msg [line 23]
    "Estimated total blocks"
    (Translated "ბლოკების სავარაუდო რაოდენობა");
  msg [line 23]
    "Last block time"
    (Translated "ბოლო ბლოკის დრო");
  msg [line 52]
    "&amp;Open"
    (Translated "&amp;შექმნა");
  msg [line 16]
    "Command-line options"
    Unfinished;
  msg [line 7]
    "Show the MotaCoin-Qt help message to get a list with possible MotaCoin command-line options."
    Unfinished;
  msg [line 3]
    "&amp;Show"
    Unfinished;
  msg [line 24]
    "&amp;Console"
    (Translated "&amp;კონსოლი");
  msg [line (-260)]
    "Build date"
    (Translated "შექმნის დრო");
  msg [line (-104)]
    "MotaCoin - Debug window"
    Unfinished;
  msg [line 25]
    "MotaCoin Core"
    Unfinished;
  msg [line 279]
    "Debug log file"
    (Translated "დახვეწის ლოგ-ფაილი");
  msg [line 7]
    "Open the MotaCoin debug log file from the current data directory. This can take a few seconds for large log files."
    Unfinished;
  msg [line 102]
    "Clear console"
    (Translated "კონსოლის გასუფთავება");
  msg [in_file "../rpcconsole.cpp" (-33)]
    "Welcome to the MotaCoin RPC console."
    Unfinished;
  msg [line 1]
    "Use up and down arrows to navigate history, and &lt;b&gt;Ctrl-L&lt;/b&gt; to clear screen."
    (Translated "კლავიშები &quot;ზევით&quot; და &quot;ქვევით&quot; - ისტორიაში მოძრაობა, &lt;b&gt;Ctrl-L&lt;/b&gt; - ეკრანის გასუფთავება.");
  msg [line 1]
    "Type &lt;b&gt;help&lt;/b&gt; for an overview of available commands."
    (Translated "აკრიფეთ &lt;b&gt;help&lt;/b&gt; ფაშვებული ბრძანებების სანახავად.")
].

Definition ka_SendCoinsDialog_1 : list message := [
  msg [in_file "../forms/sendcoinsdialog.ui" 14; in_file "../sendcoinsdialog.cpp" 182; line 5; line 5; line 5; line 6; line 5; line 5]
    "Send Coins"
    (Translated "მონეტების გაგზავნა");
  msg [line 76]
    "Coin Control Features"
    (Translated "მონეტების კონტროლის პარამეტრები");
  msg [line 20]
    "Inputs..."
    (Translated "ხარჯები...");
  msg [line 7]
    "automatically selected"
    (Translated "არჩეულია ავტომატურად");
  msg [line 19]
    "Insufficient funds!"
    (Translated "არ არის საკმარისი თანხა!");
  msg [line 77]
    "Quantity:"
    (Translated "რაოდენობა:");
  msg [line 22; line 35]
    "0"
    Unfinished;
  msg [line (-19)]
    "Bytes:"
    (Translated "ბაიტები:");
  msg [line 51]
    "Amount:"
    (Translated "თანხა:");
  msg [line 22; line 86; line 86; line 32]
    "0.00 MOTA"
    Unfinished;
  msg [line (-191)]
    "Priority:"
    (Translated "პრიორიტეტი:");
  msg [line 19]
    "medium"
    Unfinished;
  msg [line 32]
    "Fee:"
    (Translated "საკომისიო:");
  msg [line 35]
    "Low Output:"
    (Translated "ქვედა ზღვარი:");
  msg [line 19]
    "no"
    Unfinished;
  msg [line 32]
    "After Fee:"
    (Translated "დამატებითი საკომისიო:");
  msg [line 35]
    "Change"
    Unfinished;
  msg [line 50]
    "custom change address"
    Unfinished;
  msg [line 106]
    "Send to multiple recipients at once"
    (Translated "გაგზავნა რამდენიმე რეციპიენტთან ერთდროულად");
  msg [line 3]
    "Add &amp;Recipient"
    (Translated "&amp;რეციპიენტის დამატება");
  msg [line 20]
    "Remove all transaction fields"
    Unfinished;
  msg [line 3]
    "Clear &amp;All"
    (Translated "გ&amp;ასუფთავება");
  msg [line 28]
    "Balance:"
    (Translated "ბალანსი:");
  msg [line 16]
    "123.456 MOTA"
    Unfinished;
  msg [line 31]
    "Confirm the send action"
    (Translated "გაგზავნის დადასტურება");
  msg [line 3]
    "S&amp;end"
    (Translated "გაგ&amp;ზავნა");
  msg [in_file "../sendcoinsdialog.cpp" (-173)]
    "Enter a MotaCoin address (e.g. MBDKLakRxSRw7hUB2q5DXEnDpNpLVkqGZd)"
    Unfinished
].

Definition ka_SendCoinsDialog_2 : list message := [
  msg [line 15]
    "Copy quantity"
    (Translated "რაოდენობის კოპირება");
  msg [line 1]
    "Copy amount"
    (Translated "თანხის კოპირება");
  msg [line 1]
    "Copy fee"
    (Translated "საკომისიოს კოპირება");
  msg [line 1]
    "Copy after fee"
    (Translated "დამატებითი საკომისიოს კოპირება");
  msg [line 1]
    "Copy bytes"
    (Translated "ბაიტების კოპირება");
  msg [line 1]
    "Copy priority"
    (Translated "პრიორიტეტის კოპირება");
  msg [line 1]
    "Copy low output"
    (Translated "ქვედა ზღვრის კოპირება");
  msg [line 1]
    "Copy change"
    (Translated "ხურდის კოპირება");
  msg [line 86]
    "&lt;b&gt;%1&lt;/b&gt; to %2 (%3)"
    Unfinished;
  msg [line 5]
    "Confirm send coins"
    (Translated "მონეტების გაგზავნის დადასტურება");
  msg [line 1]
    "Are you sure you want to send %1?"
    Unfinished;
  msg [line 0]
    " and "
    Unfinished;
  msg [line 29]
    "The recipient address is not valid, please recheck."
    (Translated "მიმღების მისამართი არასწორია, შეამოწმეთ.");
  msg [line 5]
    "The amount to pay must be larger than 0."
    (Translated "გადახდის მოცულობა 0-ზე მეტი უნდა იყოს");
  msg [line 5]
    "The amount exceeds your balance."
    (Translated "თანხა აღემატება თქვენს ბალანსს");
  msg [line 5]
    "The total exceeds your balance when the %1 transaction fee is included."
    (Translated "საკომისიო 1%-ის დამატების შემდეგ თანხა აჭარბებს თქვენს ბალანსს");
  msg [line 6]
    "Duplicate address found, can only send to each address once per send operation."
    (Translated "მისამართები დუბლირებულია, დაშვებულია ერთ ჯერზე თითო მისამართზე ერთხელ გაგზავნა.");
  msg [line 5]
    "Error: Transaction creation failed."
    Unfinished;
  msg [line 5]
    "Error: The transaction was rejected. This might happen if some of the coins in your wallet were already spent, such as if you used a copy of wallet.dat and coins were spent in the copy but not marked as spent here."
    Unfinished;
  msg [line 251]
    "WARNING: Invalid MotaCoin address"
    Unfinished;
  msg [line 13]
    "(no label)"
    (Translated "(არ არის ნიშნული)");
  msg [line 4]
    "WARNING: unknown change address"
    Unfinished
].

Definition ka_SendCoinsDialog : context := mkContext "SendCoinsDialog"
  (ka_SendCoinsDialog_1 ++ ka_SendCoinsDialog_2).

Definition ka_SendCoinsEntry : context := mkContext "SendCoinsEntry" [
  msg [in_file "../forms/sendcoinsentry.ui" 14]
    "Form"
    Unfinished;
  msg [line 15]
    "A&amp;mount:"
    (Translated "&amp;რაოდენობა");
  msg [line 13]
    "Pay &amp;To:"
    (Translated "ადრესა&amp;ტი:");
  msg [line 24; in_file "../sendcoinsentry.cpp" 25]
    "Enter a label for this address to add it to your address book"
    (Translated "შეიყვანეთ ამ მისამართის ნიშნული მისამართების წიგნში დასამატებლად");
  msg [line 9]
    "&amp;Label:"
    (Translated "ნიშნუ&amp;ლი:");
  msg [line 18]
    "The address to send the payment to  (e.g. MBDKLakRxSRw7hUB2q5DXEnDpNpLVkqGZd)"
    Unfinished;
  msg [line 10]
    "Choose address from address book"
    Unfinished;
  msg [line 10]
    "Alt+A"
    (Translated "Alt+A");
  msg [line 7]
    "Paste address from clipboard"
    (Translated "მისამართის ჩასმა კლიპბორდიდან");
  msg [line 10]
    "Alt+P"
    (Translated "Alt+P");
  msg [line 7]
    "Remove this recipient"
    Unfinished;
  msg [in_file "../sendcoinsentry.cpp" 1]
    "Enter a MotaCoin address (e.g. MBDKLakRxSRw7hUB2q5DXEnDpNpLVkqGZd)"
    Unfinished
].

Definition ka_SignVerifyMessageDialog_1 : list message := [
  msg [in_file "../forms/signverifymessagedialog.ui" 14]
    "Signatures - Sign / Verify a Message"
    (Translated "ხელმოწერები - მესიჯის ხელმოწერა/ვერიფიკაცია");
  msg [line 13; line 124]
    "&amp;Sign Message"
    (Translated "მე&amp;სიჯის ხელმოწერა");
  msg [line (-118)]
    "You can sign messages with your addresses to prove you own them. Be careful not to sign anything vague, as phishing attacks may try to trick you into signing your identity over to them. Only sign fully-detailed statements you agree to."
    (Translated "ხელმოწერით თქვენ ადასტურებთ, რომ მესიჯი თქვენია. ფრთხილად - არ მოაწეროთ ხელი რაიმე საეჭვოს: ფიშინგური ხრიკებით შეიძლება ის თქვენს მესიჯად გაასაღონ. მოაწერეთ ხელი მხოლოდ იმას, რასაც ყველა წვრილმანში ეთანხმებით.");
  msg [line 18]
    "The address to sign the message with (e.g. MBDKLakRxSRw7hUB2q5DXEnDpNpLVkqGZd)"
    Unfinished;
  msg [line 10; line 203]
    "Choose an address from the address book"
    Unfinished;
  msg [line (-193); line 203]
    "Alt+A"
    (Translated "Alt+A");
  msg [line (-193)]
    "Paste address from clipboard"
    (Translated "მისამართის ჩასმა კლიპბორდიდან");
  msg [line 10]
    "Alt+P"
    (Translated "Alt+P");
  msg [line 12]
    "Enter the message you want to sign here"
    (Translated "აკრიფეთ ხელმოსაწერი მესიჯი");
  msg [line 24]
    "Copy the current signature to the system clipboard"
    (Translated "მიმდინარე ხელმოწერის კოპირება კლიპბორდში");
  msg [line 21]
    "Sign the message to prove you own this MotaCoin address"
    Unfinished;
  msg [line 17]
    "Reset all sign message fields"
    (Translated "ხელმოწერის ყველა ველის წაშლა");
  msg [line 3; line 146]
    "Clear &amp;All"
    (Translated "გ&amp;ასუფთავება");
  msg [line (-87); line 70]
    "&amp;Verify Message"
    (Translated "მესიჯის &amp;ვერიფიკაცია");
  msg [line (-64)]
    "Enter the signing address, message (ensure you copy line breaks, spaces, tabs, etc. exactly) and signature below to verify the message. Be careful not to read more into the signature than what is in the signed message itself, to avoid being tricked by a man-in-the-middle attack."
    (Translated "შეიყვანეთ ხელმოწერის მისამართი, მესიჯი (დაუკვირდით, რომ ზუსტად იყოს კოპირებული სტრიქონის გადატანები, ჰარები, ტაბულაციები და სხვ) და ხელმოწერა მესიჯის ვერიფიკაციისათვის. მიაქციეთ ყურადღება, რომ რაიმე ზედმეტი არ გაგყვეთ კოპირებისას, რათა არ გახდეთ &quot;man-in-the-middle&quot; შეტევის ობიექტი.");
  msg [line 21]
    "The address the message was signed with (e.g. MBDKLakRxSRw7hUB2q5DXEnDpNpLVkqGZd)"
    Unfinished;
  msg [line 40]
    "Verify the message to ensure it was signed with the specified MotaCoin address"
    Unfinished;
  msg [line 17]
    "Reset all verify message fields"
    (Translated "ვერიფიკაციის ყველა ველის წაშლა");
  msg [in_file "../signverifymessagedialog.cpp" 27; line 3]
    "Enter a MotaCoin address (e.g. MBDKLakRxSRw7hUB2q5DXEnDpNpLVkqGZd)"
    Unfinished;
  msg [line (-2)]
    "Click &quot;Sign Message&quot; to generate signature"
    (Translated "ხელმოწერის გენერირებისათვის დააჭირეთ &quot;მესიჯის ხელმოწერა&quot;-ს");
  msg [line 3]
    "Enter MotaCoin signature"
    Unfinished;
  msg [line 82; line 81]
    "The entered address is invalid."
    (Translated "შეყვანილი მისამართი არასწორია.");
  msg [line (-81); line 8; line 73; line 8]
    "Please check the address and try again."
    (Translated "შეამოწმეთ მისამართი და სცადეთ ხელახლა.");
  msg [line (-81); line 81]
    "The entered address does not refer to a key."
    (Translated "შეყვანილი მისამართი არ არის კავშირში გასაღებთან.");
  msg [line (-73)]
    "Wallet unlock was cancelled."
    (Translated "საფულის განბლოკვა შეწყვეტილია.");
  msg [line 8]
    "Private key for the entered address is not available."
    (Translated "ამ მისამართისათვის პირადი გასაღები მიუწვდომელია.");
  msg [line 12]
    "Message signing failed."
    (Translated "ვერ მოხერხდა მესიჯის ხელმოწერა.")
].

Definition ka_SignVerifyMessageDialog_2 : list message := [
  msg [line 5]
    "Message signed."
    (Translated "მესიჯი ხელმოწერილია.");
  msg [line 59]
    "The signature could not be decoded."
    (Translated "ხელმოწერის დეკოდირება ვერ ხერხდება.");
  msg [line 0; line 13]
    "Please check the signature and try again."
    (Translated "შეამოწმეთ ხელმოწერა და სცადეთ ხელახლა.");
  msg [line 0]
    "The signature did not match the message digest."
    (Translated "ხელმოწერა არ შეესაბამება მესიჯის დაიჯესტს.");
  msg [line 7]
    "Message verification failed."
    (Translated "მესიჯის ვერიფიკაცია ვერ მოხერხდა.");
  msg [line 5]
    "Message verified."
    (Translated "მესიჯი ვერიფიცირებულია.")
].

Definition ka_SignVerifyMessageDialog : context := mkContext "SignVerifyMessageDialog"
  (ka_SignVerifyMessageDialog_1 ++ ka_SignVerifyMessageDialog_2).

Definition ka_TransactionDesc_1 : list message := [
  msg [in_file "../transactiondesc.cpp" 19]
    "Open until %1"
    (Translated "ღია იქნება სანამ %1");
  nmsg [line (-2)]
    "Open for %n block(s)"
    (UnfinishedForms [""]);
  msg [line 8]
    "conflicted"
    Unfinished;
  msg [line 2]
    "%1/offline"
    (Translated "%1/გათიშულია");
  msg [line 2]
    "%1/unconfirmed"
    (Translated "%1/დაუდასტურებელია");
  msg [line 2]
    "%1 confirmations"
    (Translated "%1 დადასტურებულია");
  msg [line 18]
    "Status"
    (Translated "სტატუსი");
  nmsg [line 7]
    ", broadcast through %n node(s)"
    (UnfinishedForms [""]);
  msg [line 4]
    "Date"
    (Translated "თარიღი");
  msg [line 7]
    "Source"
    (Translated "წყარო");
  msg [line 0]
    "Generated"
    (Translated "გენერირებულია");
  msg [line 5; line 17]
    "From"
    (Translated "გამგზავნი");
  msg [line 1; line 22; line 58]
    "To"
    (Translated "მიმღები");
  msg [line (-77); line 2]
    "own address"
    (Translated "საკუთარი მისამართი");
  msg [line (-2)]
    "label"
    (Translated "ნიშნული");
  msg [line 37; line 12; line 45; line 17; line 30]
    "Credit"
    (Translated "კრედიტი");
  nmsg [line (-102)]
    "matures in %n more block(s)"
    (UnfinishedForms [""]);
  msg [line 2]
    "not accepted"
    (Translated "უარყოფილია");
  msg [line 44; line 8; line 15; line 30]
    "Debit"
    (Translated "დებიტი");
  msg [line (-39)]
    "Transaction fee"
    (Translated "ტრანსაქციის საფასური - საკომისიო");
  msg [line 16]
    "Net amount"
    (Translated "სუფთა თანხა");
  msg [line 6]
    "Message"
    (Translated "მესიჯი");
  msg [line 2]
    "Comment"
    (Translated "შენიშვნა");
  msg [line 2]
    "Transaction ID"
    (Translated "ტრანსაქციის ID");
  msg [line 3]
    "Generated coins must mature 510 blocks before they can be spent. When you generated this block, it was broadcast to the network to be added to the block chain. If it fails to get into the chain, its state will change to &quot;not accepted&quot; and it won&apos;t be spendable. This may occasionally happen if another node generates a block within a few seconds of yours."
    Unfinished;
  msg [line 7]
    "Debug information"
    (Translated "დახვეწის ინფორმაცია");
  msg [line 8]
    "Transaction"
    (Translated "ტრანსაქცია")
].

Definition ka_TransactionDesc_2 : list message := [
  msg [line 5]
    "Inputs"
    (Translated "ხარჯები");
  msg [line 23]
    "Amount"
    (Translated "თანხა");
  msg [line 1]
    "true"
    (Translated "ჭეშმარიტი");
  msg [line 0]
    "false"
    (Translated "მცდარი");
  msg [line (-211)]
    ", has not been successfully broadcast yet"
    (Translated ", დაგზავნა არ არის წარმატებით დასრულებული");
  msg [line 35]
    "unknown"
    (Translated "უცნობია")
].

Definition ka_TransactionDesc : context := mkContext "TransactionDesc"
  (ka_TransactionDesc_1 ++ ka_TransactionDesc_2).

Definition ka_TransactionDescDialog : context := mkContext "TransactionDescDialog" [
  msg [in_file "../forms/transactiondescdialog.ui" 14]
    "Transaction details"
    (Translated "ტრანსაქციის დეტალები");
  msg [line 6]
    "This pane shows a detailed description of the transaction"
    (Translated "ტრანსაქციის დაწვრილებითი აღწერილობა")
].

Definition ka_TransactionTableModel : context := mkContext "TransactionTableModel" [
  msg [in_file "../transactiontablemodel.cpp" 226]
    "Date"
    (Translated "თარიღი");
  msg [line 0]
    "Type"
    (Translated "ტიპი");
  msg [line 0]
    "Address"
    (Translated "მისამართი");
  msg [line 0]
    "Amount"
    (Translated "რაოდენობა");
  msg [line 60]
    "Open until %1"
    (Translated "ღია იქნება სანამ %1");
  msg [line 12]
    "Confirmed (%1 confirmations)"
    (Translated "დადასტურებულია (%1დასტური)");
  nmsg [line (-15)]
    "Open for %n more block(s)"
    (UnfinishedForms [""]);
  msg [line 6]
    "Offline"
    Unfinished;
  msg [line 3]
    "Unconfirmed"
    Unfinished;
  msg [line 3]
    "Confirming (%1 of %2 recommended confirmations)"
    Unfinished;
  msg [line 6]
    "Conflicted"
    Unfinished;
  msg [line 3]
    "Immature (%1 confirmations, will be available after %2)"
    (Translated "არ არის მომწიფებული (%1 დასტური, საჭიროა სულ %2)");
  msg [line 3]
    "This block was not received by any other nodes and will probably not be accepted!"
    (Translated "ეს ბლოკი არ არის მიღებული არცერთი კვანძის მიერ და სავარაუდოდ უარყოფილია!");
  msg [line 3]
    "Generated but not accepted"
    (Translated "გენერირებულია, მაგრამ უარყოფილია");
  msg [line 42]
    "Received with"
    (Translated "მიღებულია");
  msg [line 2]
    "Received from"
    (Translated "გამომგზავნი");
  msg [line 3]
    "Sent to"
    (Translated "გაგზავნილია ადრესატთან");
  msg [line 2]
    "Payment to yourself"
    (Translated "გადახდილია საკუთარი თავისათვის");
  msg [line 2]
    "Mined"
    (Translated "მოპოვებულია");
  msg [line 38]
    "(n/a)"
    (Translated "(მიუწვდ.)");
  msg [line 190]
    "Transaction status. Hover over this field to show number of confirmations."
    (Translated "ტრანსაქციის სტატუსი. ველზე კურსორის შეყვანისას გამოჩნდება დასტურების რაოდენობა.");
  msg [line 2]
    "Date and time that the transaction was received."
    (Translated "ტრანსაქციის მიღების თარიღი და დრო.");
  msg [line 2]
    "Type of transaction."
    (Translated "ტრანსაქციის ტიპი.");
  msg [line 2]
    "Destination address of transaction."
    (Translated "ტრანსაქიის დანიშნულების მისამართი.");
  msg [line 2]
    "Amount removed from or added to balance."
    (Translated "ბალანსიდან მოხსნილი ან დამატებული თანხა.")
].

Definition ka_TransactionView_1 : list message := [
  msg [in_file "../transactionview.cpp" 55; line 16]
    "All"
    (Translated "ყველა");
  msg [line (-15)]
    "Today"
    (Translated "დღეს");
  msg [line 1]
    "This week"
    (Translated "ამ კვირის");
  msg [line 1]
    "This month"
    (Translated "ამ თვის");
  msg [line 1]
    "Last month"
    (Translated "ბოლო თვის");
  msg [line 1]
    "This year"
    (Translated "ამ წლის");
  msg [line 1]
    "Range..."
    (Translated "შუალედი...");
  msg [line 11]
    "Received with"
    (Translated "შემოსულია");
  msg [line 2]
    "Sent to"
    (Translated "გაგზავნილია");
  msg [line 2]
    "To yourself"
    (Translated "საკუთარი თავისათვის");
  msg [line 1]
    "Mined"
    (Translated "მოპოვებულია");
  msg [line 1]
    "Other"
    (Translated "სხვა");
  msg [line 7]
    "Enter address or label to search"
    (Translated "შეიყვანეთ საძებნი მისამართი ან ნიშნული");
  msg [line 7]
    "Min amount"
    (Translated "მინ. თანხა");
  msg [line 34]
    "Copy address"
    (Translated "მისამართის კოპირება");
  msg [line 1]
    "Copy label"
    (Translated "ნიშნულის კოპირება");
  msg [line 1]
    "Copy amount"
    (Translated "თანხის კოპირება");
  msg [line 1]
    "Copy transaction ID"
    (Translated "ტრანსაქციის ID-ს კოპირება");
  msg [line 1]
    "Edit label"
    (Translated "ნიშნულის რედაქტირება");
  msg [line 1]
    "Show transaction details"
    (Translated "ტრანსაქციის დეტალების ჩვენება");
  msg [line 144]
    "Export Transaction Data"
    Unfinished;
  msg [line 1]
    "Comma separated file (*.csv)"
    (Translated "CSV-ფაილი (*.csv)");
  msg [line 8]
    "Confirmed"
    (Translated "დადასტურებულია");
  msg [line 1]
    "Date"
    (Translated "თარიღი");
  msg [line 1]
    "Type"
    (Translated "ტიპი");
  msg [line 1]
    "Label"
    (Translated "ნიშნული");
  msg [line 1]
    "Address"
    (Translated "მისამართი");
  msg [line 1]
    "Amount"
    (Translated "თანხა");
  msg [line 1]
    "ID"
    (Translated "ID")
].

Definition ka_TransactionView_2 : list message := [
  msg [line 4]
    "Error exporting"
    Unfinished;
  msg [line 0]
    "Could not write to file %1."
    Unfinished;
  msg [line 100]
    "Range:"
    (Translated "შუალედი:");
  msg [line 8]
    "to"
    (Translated "-")
].

Definition ka_TransactionView : context := mkContext "TransactionView"
  (ka_TransactionView_1 ++ ka_TransactionView_2).

Definition ka_WalletModel : context := mkContext "WalletModel" [
  msg [in_file "../walletmodel.cpp" 206]
    "Sending..."
    Unfinished
].

Definition ka_bitcoin_core_1 : list message := [
  msg [in_file "../bitcoinstrings.cpp" 33]
    "MotaCoin version"
    Unfinished;
  msg [line 1]
    "Usage:"
    (Translated "გამოყენება:");
  msg [line 1]
    "Send command to -server or MotaCoind"
    Unfinished;
  msg [line 1]
    "List commands"
    (Translated "ბრძანებები");
  msg [line 1]
    "Get help for a command"
    (Translated "ბრძანების აღწერილობა");
  msg [line 2]
    "Options:"
    (Translated "ოპციები:");
  msg [line 2]
    "Specify configuration file (default: MotaCoin.conf)"
    Unfinished;
  msg [line 1]
    "Specify pid file (default: MotaCoind.pid)"
    Unfinished;
  msg [line 2]
    "Specify wallet file (within data directory)"
    (Translated "მიუთითეთ საფულის ფაილი (კატალოგში)");
  msg [line (-1)]
    "Specify data directory"
    (Translated "მიუთითეთ მონაცემთა კატალოგი");
  msg [line 2]
    "Set database cache size in megabytes (default: 25)"
    (Translated "მონაცემთა ბაზის ქეშის ზომა მეგაბაიტებში (ნაგულისხმევია 25)");
  msg [line 1]
    "Set database disk log size in megabytes (default: 100)"
    Unfinished;
  msg [line 6]
    "Listen for connections on &lt;port&gt; (default: 15714 or testnet: 25714)"
    Unfinished;
  msg [line 1]
    "Maintain at most &lt;n&gt; connections to peers (default: 125)"
    (Translated "არაუმეტეს &lt;n&gt; შეერთებისა პირებზე (ნაგულისხმევი: 125)");
  msg [line 3]
    "Connect to a node to retrieve peer addresses, and disconnect"
    (Translated "მიერთება კვანძთან, პირების მისამართების მიღება და გათიშვა");
  msg [line 1]
    "Specify your own public address"
    (Translated "მიუთითეთ თქვენი საჯარო მისამართი");
  msg [line 5]
    "Bind to given address. Use [host]:port notation for IPv6"
    Unfinished;
  msg [line 2]
    "Stake your coins to support network and gain reward (default: 1)"
    Unfinished;
  msg [line 5]
    "Threshold for disconnecting misbehaving peers (default: 100)"
    (Translated "არასწორად მოქმედი პირების გათიშვის ზღვარი (ნაგულისხმევი:100)");
  msg [line 1]
    "Number of seconds to keep misbehaving peers from reconnecting (default: 86400)"
    (Translated "არასწორად მოქმედი პირების ბლოკირების დრო წამებში (ნაგულისხმევი: 86400)");
  msg [line (-44)]
    "An error occurred while setting up the RPC port %u for listening on IPv4: %s"
    (Translated "შეცდომა %u RPC-პორტის მიყურადების ჩართვისას IPv4 მისამართზე: %s");
  msg [line 51]
    "Detach block and address databases. Increases shutdown time (default: 0)"
    Unfinished;
  msg [line 109]
    "Error: The transaction was rejected.  This might happen if some of the coins in your wallet were already spent, such as if you used a copy of wallet.dat and coins were spent in the copy but not marked as spent here."
    Unfinished;
  msg [line (-5)]
    "Error: This transaction requires a transaction fee of at least %s because of its amount, complexity, or use of recently received funds  "
    Unfinished;
  msg [line (-87)]
    "Listen for JSON-RPC connections on &lt;port&gt; (default: 15715 or testnet: 25715)"
    Unfinished;
  msg [line (-11)]
    "Accept command line and JSON-RPC commands"
    (Translated "საკომანდო სტრიქონისა და JSON-RPC-კომამდების ნებართვა");
  msg [line 101]
    "Error: Transaction creation failed  "
    Unfinished;
  msg [line (-5)]
    "Error: Wallet locked, unable to create transaction  "
    Unfinished;
  msg [line (-8)]
    "Importing blockchain data file."
    Unfinished
].

Definition ka_bitcoin_core_2 : list message := [
  msg [line 1]
    "Importing bootstrap blockchain data file."
    Unfinished;
  msg [line (-88)]
    "Run in the background as a daemon and accept commands"
    (Translated "რეზიდენტულად გაშვება და კომანდების მიღება");
  msg [line 1]
    "Use the test network"
    (Translated "სატესტო ქსელის გამოყენება");
  msg [line (-24)]
    "Accept connections from outside (default: 1 if no -proxy or -connect)"
    (Translated "გარედან შეერთებების დაშვება (ნაგულისხმევი: 1 თუ არ გამოიყენება -proxy ან -connect)");
  msg [line (-38)]
    "An error occurred while setting up the RPC port %u for listening on IPv6, falling back to IPv4: %s"
    (Translated "შეცდომა %u RPC-პორტის მიყურადების ჩართვისას IPv6 მისამართზე, ვბრუნდებით IPv4-ზე : %s");
  msg [line 117]
    "Error initializing database environment %s! To recover, BACKUP THAT DIRECTORY, then remove everything from it except for wallet.dat."
    Unfinished;
  msg [line (-20)]
    "Set maximum size of high-priority/low-fee transactions in bytes (default: 27000)"
    Unfinished;
  msg [line 11]
    "Warning: -paytxfee is set very high! This is the transaction fee you will pay if you send a transaction."
    (Translated "ყურადღება:  ძალიან მაღალია -paytxfee - საკომისო, რომელსაც თქვენ გადაიხდით ამ ტრანსაქციის გაგზავნის საფასურად.");
  msg [line 61]
    "Warning: Please check that your computer&apos;s date and time are correct! If your clock is wrong MotaCoin will not work properly."
    Unfinished;
  msg [line (-31)]
    "Warning: error reading wallet.dat! All keys read correctly, but transaction data or address book entries might be missing or incorrect."
    (Translated "ყურადღება: არ იკითხება wallet.dat! ყველა გასაღები წაკითხულია, მაგრამ გამორჩენილი ან არასწორია ტრანსაქციის თარიღი ან ჩანაწერები მისამართების წიგნში.");
  msg [line (-18)]
    "Warning: wallet.dat corrupt, data salvaged! Original wallet.dat saved as wallet.{timestamp}.bak in %s; if your balance or transactions are incorrect you should restore from a backup."
    (Translated "ყურადღება: wallet.dat დაზიანებულია! ორიგინალური wallet.dat შენახულია როგორც wallet.{timestamp}.bak %s-ში; თუ შეამჩნიეთ უზუსტობა ნაშთში ან ტრანსაქციებში, აღადგინეთ არქივიდან.");
  msg [line (-30)]
    "Attempt to recover private keys from a corrupt wallet.dat"
    (Translated "პირადი გასაღებების აღდგენის მცდელობა wallet.dat-იდან");
  msg [line 4]
    "Block creation options:"
    (Translated "ბლოკის შექმნის ოპციები:");
  msg [line (-62)]
    "Connect only to the specified node(s)"
    (Translated "შეერთება მხოლოდ მითითებულ კვანძ(ებ)თან");
  msg [line 4]
    "Discover own IP address (default: 1 when listening and no -externalip)"
    (Translated "საკუთარი IP-მისამართის განსაზღვრა (ნაგულისხმევი: 1 თუ ჩართულია მიყურადება და არ გამოიყენება -externalip)");
  msg [line 94]
    "Failed to listen on any port. Use -listen=0 if you want this."
    (Translated "ვერ ხერხდება პორტების მიყურადება. თუ გსურთ, გამოიყენეთ -listen=0.");
  msg [line (-90)]
    "Find peers using DNS lookup (default: 1)"
    Unfinished;
  msg [line 5]
    "Sync checkpoints policy (default: strict)"
    Unfinished;
  msg [line 83]
    "Invalid -tor address: &apos;%s&apos;"
    Unfinished;
  msg [line 4]
    "Invalid amount for -reservebalance=&lt;amount&gt;"
    Unfinished;
  msg [line (-82)]
    "Maximum per-connection receive buffer, &lt;n&gt;*1000 bytes (default: 5000)"
    (Translated "მიღების ბუფერის მაქსიმალური ზომა შეერთებაზე, &lt;n&gt;*1000 ბაიტი (ნაგულისხმევი: 5000)");
  msg [line 1]
    "Maximum per-connection send buffer, &lt;n&gt;*1000 bytes (default: 1000)"
    (Translated "გაგზავნის ბუფერის მაქსიმალური ზომა შეერთებაზე, &lt;n&gt;*1000 ბაიტი (ნაგულისხმევი: 5000)");
  msg [line (-16)]
    "Only connect to nodes in network &lt;net&gt; (IPv4, IPv6 or Tor)"
    (Translated "შეერთება მხოლოდ &lt;net&gt; ქსელის კვანძებთან (IPv4, IPv6 ან Tor)");
  msg [line 28]
    "Output extra debugging information. Implies all other -debug* options"
    Unfinished;
  msg [line 1]
    "Output extra network debugging information"
    Unfinished;
  msg [line 1]
    "Prepend debug output with timestamp"
    Unfinished;
  msg [line 35]
    "SSL options: (see the Bitcoin Wiki for SSL setup instructions)"
    (Translated "SSL ოპციები: (იხილე Bitcoin Wiki-ში  SSL-ს მოწყობის ინსტრუქციები)");
  msg [line (-74)]
    "Select the version of socks proxy to use (4-5, default: 5)"
    Unfinished;
  msg [line 41]
    "Send trace/debug info to console instead of debug.log file"
    (Translated "ტრასირების/დახვეწის ინფოს გაგზავნა კონსოლზე debug.log ფაილის ნაცვლად")
].

Definition ka_bitcoin_core_3 : list message := [
  msg [line 1]
    "Send trace/debug info to debugger"
    Unfinished;
  msg [line 28]
    "Set maximum block size in bytes (default: 250000)"
    Unfinished;
  msg [line (-1)]
    "Set minimum block size in bytes (default: 0)"
    (Translated "დააყენეთ ბლოკის მინიმალური ზომა ბაიტებში (ნაგულისხმევი: 0)");
  msg [line (-29)]
    "Shrink debug.log file on client startup (default: 1 when no -debug)"
    (Translated "debug.log ფაილის შეკუმშვა გაშვებისას (ნაგულისხმევია: 1 როცა არ აყენია -debug)");
  msg [line (-42)]
    "Specify connection timeout in milliseconds (default: 5000)"
    (Translated "მიუთითეთ შეერთების ტაიმაუტი მილიწამებში (ნაგულისხმევი: 5000)");
  msg [line 109]
    "Unable to sign checkpoint, wrong checkpointkey?
"
    Unfinished;
  msg [line (-80)]
    "Use UPnP to map the listening port (default: 0)"
    (Translated "გამოიყენეთ UPnP მისაყურადებელი პორტის გადასამისამართებლად (ნაგულისხმევი: 0)");
  msg [line (-1)]
    "Use UPnP to map the listening port (default: 1 when listening)"
    (Translated "გამოიყენეთ UPnP მისაყურადებელი პორტის გადასამისამართებლად (ნაგულისხმევი: 1 როცა ჩართულია მიყურადება)");
  msg [line (-25)]
    "Use proxy to reach tor hidden services (default: same as -proxy)"
    Unfinished;
  msg [line 42]
    "Username for JSON-RPC connections"
    (Translated "მომხმარებლის სახელი JSON-RPC-შეერთებისათვის");
  msg [line 47]
    "Verifying database integrity..."
    Unfinished;
  msg [line 57]
    "WARNING: syncronized checkpoint violation detected, but skipped!"
    Unfinished;
  msg [line 1]
    "Warning: Disk space is low!"
    Unfinished;
  msg [line (-2)]
    "Warning: This version is obsolete, upgrade required!"
    (Translated "ყურადღება: ვერსია მოძველებულია, საჭიროა განახლება!");
  msg [line (-48)]
    "wallet.dat corrupt, salvage failed"
    (Translated "wallet.dat დაზიანებულია, აღდგენა ვერ მოხერხდა");
  msg [line (-54)]
    "Password for JSON-RPC connections"
    (Translated "პაროლი JSON-RPC-შეერთებისათვის");
  msg [line (-84)]
    "%s, you must set a rpcpassword in the configuration file:
 %s
It is recommended you use the following random password:
rpcuser=MotaCoinrpc
rpcpassword=%s
(you do not need to remember this password)
The username and password MUST NOT be the same.
If the file does not exist, create it with owner-readable-only file permissions.
It is also recommended to set alertnotify so you are notified of problems;
for example: alertnotify=echo %%s | mail -s &quot;MotaCoin Alert&quot; admin@foo.com
"
    Unfinished;
  msg [line 51]
    "Find peers using internet relay chat (default: 0)"
    Unfinished;
  msg [line 5]
    "Sync time with other nodes. Disable if time on your system is precise e.g. syncing with NTP (default: 1)"
    Unfinished;
  msg [line 15]
    "When creating transactions, ignore inputs with value less than this (default: 0.01)"
    Unfinished;
  msg [line 16]
    "Allow JSON-RPC connections from specified IP address"
    (Translated "JSON-RPC-შეერთების ნებართვა მითითებული IP მისამართიდან");
  msg [line 1]
    "Send commands to node running on &lt;ip&gt; (default: 127.0.0.1)"
    (Translated "კომანდის გაგზავნა კვანძისათვის, რომელიც გაშვებულია მისამართზე &lt;ip&gt; (ნაგულისხმევი: 127.0.0.1)");
  msg [line 1]
    "Execute command when the best block changes (%s in cmd is replaced by block hash)"
    (Translated "კომანდის შესრულება უკეთესი ბლოკის გამოჩენისას (%s კომანდაში ჩანაცვლდება ბლოკის ჰეშით)");
  msg [line 3]
    "Execute command when a wallet transaction changes (%s in cmd is replaced by TxID)"
    (Translated "კომანდის შესრულება საფულის ტრანსაქციის ცვლილებისას (%s კომანდაში ჩანაცვლდება TxID-ით)");
  msg [line 3]
    "Require a confirmations for change (default: 0)"
    Unfinished;
  msg [line 1]
    "Enforce transaction scripts to use canonical PUSH operators (default: 1)"
    Unfinished;
  msg [line 2]
    "Execute command when a relevant alert is received (%s in cmd is replaced by message)"
    Unfinished
].

Definition ka_bitcoin_core_4 : list message := [
  msg [line 3]
    "Upgrade wallet to latest format"
    (Translated "საფულის ფორმატის განახლება");
  msg [line 1]
    "Set key pool size to &lt;n&gt; (default: 100)"
    (Translated "გასაღების პულის ზომა იქნება &lt;n&gt; (ნაგულისხმევი: 100)");
  msg [line 1]
    "Rescan the block chain for missing wallet transactions"
    (Translated "ბლოკების ჯაჭვის გადამოწმება საფულეში გამორჩენილ ტრანსაქციებზე");
  msg [line 2]
    "How many blocks to check at startup (default: 2500, 0 = all)"
    Unfinished;
  msg [line 1]
    "How thorough the block verification is (0-6, default: 1)"
    Unfinished;
  msg [line 1]
    "Imports blocks from external blk000?.dat file"
    Unfinished;
  msg [line 8]
    "Use OpenSSL (https) for JSON-RPC connections"
    (Translated "OpenSSL-ის (https) გამოყენება JSON-RPC-შეერთებებისათვის");
  msg [line 1]
    "Server certificate file (default: server.cert)"
    (Translated "სერვერის სერტიფიკატის ფაილი (ნაგულისხმევი: server.cert)");
  msg [line 1]
    "Server private key (default: server.pem)"
    (Translated "სერვერის პირადი გასაღები (ნაგულისხმევი: server.pem)");
  msg [line 1]
    "Acceptable ciphers (default: TLSv1+HIGH:!SSLv2:!aNULL:!eNULL:!AH:!3DES:@STRENGTH)"
    Unfinished;
  msg [line 53]
    "Error: Wallet unlocked for staking only, unable to create transaction."
    Unfinished;
  msg [line 18]
    "WARNING: Invalid checkpoint found! Displayed transactions may not be correct! You may need to upgrade, or notify developers."
    Unfinished;
  msg [line (-158)]
    "This help message"
    (Translated "ეს ტექსტი");
  msg [line 95]
    "Wallet %s resides outside data directory %s."
    Unfinished;
  msg [line 1]
    "Cannot obtain a lock on data directory %s.  MotaCoin is probably already running."
    Unfinished;
  msg [line (-98)]
    "MotaCoin"
    Unfinished;
  msg [line 140]
    "Unable to bind to %s on this computer (bind returned error %d, %s)"
    (Translated "ვერ ხერხდება მიბმა %s-თან ამ კომპიუტერზე (მიღებულია შეცდომა %d, %s)");
  msg [line (-130)]
    "Connect through socks proxy"
    Unfinished;
  msg [line 3]
    "Allow DNS lookups for -addnode, -seednode and -connect"
    (Translated "DNS-ძებნის დაშვება -addnode, -seednode და -connect-სათვის");
  msg [line 122]
    "Loading addresses..."
    (Translated "მისამართების ჩატვირთვა...");
  msg [line (-15)]
    "Error loading blkindex.dat"
    Unfinished;
  msg [line 2]
    "Error loading wallet.dat: Wallet corrupted"
    (Translated "არ იტვირთება wallet.dat: საფულე დაზიანებულია");
  msg [line 4]
    "Error loading wallet.dat: Wallet requires newer version of MotaCoin"
    Unfinished;
  msg [line 1]
    "Wallet needed to be rewritten: restart MotaCoin to complete"
    Unfinished;
  msg [line 1]
    "Error loading wallet.dat"
    (Translated "არ იტვირთება wallet.dat");
  msg [line (-16)]
    "Invalid -proxy address: &apos;%s&apos;"
    (Translated "არასწორია მისამართი -proxy: &apos;%s&apos;");
  msg [line (-1)]
    "Unknown network specified in -onlynet: &apos;%s&apos;"
    (Translated "-onlynet-ში მითითებულია უცნობი ქსელი: &apos;%s&apos;");
  msg [line (-1)]
    "Unknown -socks proxy version requested: %i"
    (Translated "მოთხოვნილია -socks პროქსის უცნობი ვერსია: %i");
  msg [line 4]
    "Cannot resolve -bind address: &apos;%s&apos;"
    (Translated "ვერ ხერხდება -bind მისამართის გარკვევა: &apos;%s&apos;")
].

Definition ka_bitcoin_core_5 : list message := [
  msg [line 2]
    "Cannot resolve -externalip address: &apos;%s&apos;"
    (Translated "ვერ ხერხდება -externalip მისამართის გარკვევა: &apos;%s&apos;");
  msg [line (-24)]
    "Invalid amount for -paytxfee=&lt;amount&gt;: &apos;%s&apos;"
    (Translated "დაუშვებელი მნიშვნელობა -paytxfee=&lt;amount&gt;: &apos;%s&apos;");
  msg [line 44]
    "Error: could not start node"
    Unfinished;
  msg [line 11]
    "Sending..."
    Unfinished;
  msg [line 5]
    "Invalid amount"
    (Translated "დაუშვებელი თანხა");
  msg [line 1]
    "Insufficient funds"
    (Translated "არ არის საკმარისი თანხა");
  msg [line (-34)]
    "Loading block index..."
    (Translated "ბლოკების ინდექსის ჩატვირთვა...");
  msg [line (-103)]
    "Add a node to connect to and attempt to keep the connection open"
    (Translated "მისაერთებელი კვანძის დამატება და მიერთების შეძლებისდაგვარად შენარჩუნება");
  msg [line 122]
    "Unable to bind to %s on this computer. MotaCoin is probably already running."
    Unfinished;
  msg [line (-97)]
    "Fee per KB to add to transactions you send"
    Unfinished;
  msg [line 55]
    "Invalid amount for -mininput=&lt;amount&gt;: &apos;%s&apos;"
    Unfinished;
  msg [line 25]
    "Loading wallet..."
    (Translated "საფულის ჩატვირთვა...");
  msg [line 8]
    "Cannot downgrade wallet"
    (Translated "საფულის ძველ ვერსიაზე გადაყვანა შეუძლებელია");
  msg [line 1]
    "Cannot initialize keypool"
    Unfinished;
  msg [line 1]
    "Cannot write default address"
    (Translated "ვერ ხერხდება ნაგულისხმევი მისამართის ჩაწერა");
  msg [line 1]
    "Rescanning..."
    (Translated "სკანირება...");
  msg [line 5]
    "Done loading"
    (Translated "ჩატვირთვა დასრულებულია");
  msg [line (-167)]
    "To use the %s option"
    (Translated "%s ოპციის გამოსაყენებლად");
  msg [line 14]
    "Error"
    (Translated "შეცდომა");
  msg [line 6]
    "You must set rpcpassword=&lt;password&gt; in the configuration file:
%s
If the file does not exist, create it with owner-readable-only file permissions."
    (Translated "უნდა დააყენოთ rpcpassword=&lt;password&gt; საკონფიგურაციო ფაილში:
%s
თუ ეს ფაილი არ არსებობს, შექმენით იგი უფლებებით owner-readable-only.")
].

Definition ka_bitcoin_core : context := mkContext "bitcoin-core"
  (ka_bitcoin_core_1 ++ ka_bitcoin_core_2 ++ ka_bitcoin_core_3 ++ ka_bitcoin_core_4 ++ ka_bitcoin_core_5).

Definition bitcoin_ka : TS := mkTS "ka" "2.1" [
  ka_AboutDialog;
  ka_AddressBookPage;
  ka_AddressTableModel;
  ka_AskPassphraseDialog;
  ka_BitcoinGUI;
  ka_ClientModel;
  ka_CoinControlDialog;
  ka_EditAddressDialog;
  ka_GUIUtil_HelpMessageBox;
  ka_OptionsDialog;
  ka_OverviewPage;
  ka_QRCodeDialog;
  ka_RPCConsole;
  ka_SendCoinsDialog;
  ka_SendCoinsEntry;
  ka_SignVerifyMessageDialog;
  ka_TransactionDesc;
  ka_TransactionDescDialog;
  ka_TransactionTableModel;
  ka_TransactionView;
  ka_WalletModel;
  ka_bitcoin_core
].
