(* ===== verification/CatalogueJa.v ===== *)
(** * The Japanese catalogue (qt/locale/bitcoin_ja.ts)

    The file entry by entry, one definition for each context; long contexts are
    split into parts. *)

From S2P Require Import Prelude Catalogue.

Definition ja_AboutDialog : context := mkContext "AboutDialog" [
  msg [in_file "../forms/aboutdialog.ui" 14]
    "About MotaCoin"
    (Translated "ブラックコインについて");
  msg [line 39]
    "&lt;b&gt;MotaCoin&lt;/b&gt; version"
    (Translated "&lt;b&gt;ブラックコイン&lt;/b&gt;バージョン");
  msg [line 41]
    "Copyright © 2009-14 The Bitcoin developers
Copyright © 2012-14 The NovaCoin developers
Copyright © 2014-20 The MotaCoin developers"
    (Translated "コピーライト © 2009-14 The Bitcoin developers
コピーライト © 2012-14 The NovaCoin developers
コピーライト © 2014-20 The MotaCoin developers");
  msg [line 15]
    "
This is experimental software.

Distributed under the MIT/X11 software license, see the accompanying file COPYING or http://www.opensource.org/licenses/mit-license.php.

This product includes software developed by the OpenSSL Project for use in the OpenSSL Toolkit (http://www.openssl.org/) and cryptographic software written by Eric Young (eay@cryptsoft.com) and UPnP software written by Thomas Bernard."
    (Translated "
これは実験的なソフトウェアです。

MIT/X11 ソフトウェア ライセンスの下で配布されています。詳しくは添付の COPYING ファイルやhttp://www.opensource.org/licenses/mit-license.php を参照してください。

この製品は OpenSSL Toolkit (http://www.openssl.org/) に用いられる  Eric Young (eay@cryptsoft.com)  が開発した暗号化ソフトウェアと Thomas Bernard が開発した UPnP ソフトウェアを含んでいます。")
].

Definition ja_AddressBookPage : context := mkContext "AddressBookPage" [
  msg [in_file "../forms/addressbookpage.ui" 14]
    "Address Book"
    (Translated "アドレス帳");
  msg [line 22]
    "Double-click to edit address or label"
    (Translated "アドレスまたはラベルを編集するにはダブルクリック");
  msg [line 27]
    "Create a new address"
    (Translated "新規アドレスの作成");
  msg [line 14]
    "Copy the currently selected address to the system clipboard"
    (Translated "現在選択されているアドレスをシステムのクリップボードにコピーする");
  msg [line (-11)]
    "&amp;New"
    (Translated "新しいアドレス");
  msg [line (-46)]
    "These are your MotaCoin addresses for receiving payments. You may want to give a different one to each sender so you can keep track of who is paying you."
    (Translated "これは支払いを受けるためのブラックコインのアドレス。支払い管理をするのため、各送信者へ、それぞれのアドレスを伝えたほうがいいです。");
  msg [line 60]
    "&amp;Copy Address"
    (Translated "アドレスをコピー (&amp;C)");
  msg [line 11]
    "Show &amp;QR Code"
    (Translated "QRコードを表す");
  msg [line 11]
    "Sign a message to prove you own a MotaCoin address"
    (Translated "所有権の証明するためのメサッジを署名する。");
  msg [line 3]
    "Sign &amp;Message"
    (Translated "メサッジを署名する。");
  msg [line 25]
    "Delete the currently selected address from the list"
    (Translated "選択されたアドレスを一覧から削除する");
  msg [line (-14)]
    "Verify a message to ensure it was signed with a specified MotaCoin address"
    (Translated "受け取ったメッセージの署名を確保のため、メッセージを確認する。");
  msg [line 3]
    "&amp;Verify Message"
    (Translated "メッセージを確認する。");
  msg [line 14]
    "&amp;Delete"
    (Translated "削除");
  msg [in_file "../addressbookpage.cpp" 65]
    "Copy &amp;Label"
    (Translated "ラベルをコピー (&amp;L)");
  msg [line 2]
    "&amp;Edit"
    (Translated "編集 (&amp;E)");
  msg [line 250]
    "Export Address Book Data"
    (Translated "アドレス帳のデータを書き出す");
  msg [line 1]
    "Comma separated file (*.csv)"
    (Translated "CSVファイル (*.csv)");
  msg [line 13]
    "Error exporting"
    (Translated "エラーを書き出す");
  msg [line 0]
    "Could not write to file %1."
    (Translated "ファイルを書き込めなかった。%1")
].

Definition ja_AddressTableModel : context := mkContext "AddressTableModel" [
  msg [in_file "../addresstablemodel.cpp" 144]
    "Label"
    (Translated "ラベル");
  msg [line 0]
    "Address"
    (Translated "アドレス");
  msg [line 36]
    "(no label)"
    (Translated "（ラベル無し）")
].

Definition ja_AskPassphraseDialog : context := mkContext "AskPassphraseDialog" [
  msg [in_file "../forms/askpassphrasedialog.ui" 26]
    "Passphrase Dialog"
    (Translated "パスフレーズ ダイアログ");
  msg [line 21]
    "Enter passphrase"
    (Translated "パスフレーズを入力");
  msg [line 14]
    "New passphrase"
    (Translated "新しいパスフレーズ");
  msg [line 14]
    "Repeat new passphrase"
    (Translated "新しいパスフレーズをもう一度");
  msg [line 33]
    "Serves to disable the trivial sendmoney when OS account compromised. Provides no real security."
    (Translated "ユーザアカウントはハッキングされたばい、瑣末のsendmoney無効にする。機密保護には効果はない。");
  msg [line 3]
    "For staking only"
    (Translated "賭けるのみ");
  msg [in_file "../askpassphrasedialog.cpp" 35]
    "Enter the new passphrase to the wallet.&lt;br/&gt;Please use a passphrase of &lt;b&gt;10 or more random characters&lt;/b&gt;, or &lt;b&gt;eight or more words&lt;/b&gt;."
    (Translated "ウォレットの新しいパスフレーズを入力してください。&lt;br/&gt;&lt;b&gt;8個以上の単語か10個以上のランダムな文字&lt;/b&gt;を使ってください。");
  msg [line 1]
    "Encrypt wallet"
    (Translated "ウォレットを暗号化する");
  msg [line 7]
    "This operation needs your wallet passphrase to unlock the wallet."
    (Translated "この操作はウォレットをアンロックするためにパスフレーズが必要です。");
  msg [line 5]
    "Unlock wallet"
    (Translated "ウォレットをアンロックする");
  msg [line 3]
    "This operation needs your wallet passphrase to decrypt the wallet."
    (Translated "この操作はウォレットの暗号化解除のためにパスフレーズが必要です。");
  msg [line 5]
    "Decrypt wallet"
    (Translated "ウォレットの暗号化を解除する");
  msg [line 3]
    "Change passphrase"
    (Translated "パスフレーズの変更");
  msg [line 1]
    "Enter the old and new passphrase to the wallet."
    (Translated "新旧両方のパスフレーズを入力してください。");
  msg [line 46]
    "Confirm wallet encryption"
    (Translated "ウォレットの暗号化を確認する");
  msg [line 1]
    "Warning: If you encrypt your wallet and lose your passphrase, you will &lt;b&gt;LOSE ALL OF YOUR COINS&lt;/b&gt;!"
    (Translated "ご注意：暗号化したウォレットのパスワードを忘れたばい、b&gt;すべてのコインを失う&lt;/b&gt;!");
  msg [line 0]
    "Are you sure you wish to encrypt your wallet?"
    (Translated "ウォレットを暗号化、よろしいですか?");
  msg [line 15]
    "IMPORTANT: Any previous backups you have made of your wallet file should be replaced with the newly generated, encrypted wallet file. For security reasons, previous backups of the unencrypted wallet file will become useless as soon as you start using the new, encrypted wallet."
    (Translated "重要: 過去のウォレット ファイルのバックアップは、暗号化された新しいウォレット ファイルに取り替える必要があります。セキュリティ上の理由により、暗号化された新しいウォレットを使い始めると、暗号化されていないウォレット ファイルのバックアップはすぐに使えなくなります。");
  msg [line 103; line 24]
    "Warning: The Caps Lock key is on!"
    (Translated "警告: Caps Lock キーがオンになっています!");
  msg [line (-133); line 60]
    "Wallet encrypted"
    (Translated "ウォレットは暗号化されました");
  msg [line (-58)]
    "MotaCoin will close now to finish the encryption process. Remember that encrypting your wallet cannot fully protect your coins from being stolen by malware infecting your computer."
    (Translated "ただいま、暗号化手順を完成するため、ブラックコインQTは閉じます。尚、ウォレットを暗号化をされたにしても、TENDのウイルスから盗難防止の報償できないことを、ご理解をお願い足します。");
  msg [line 13; line 7; line 44; line 6]
    "Wallet encryption failed"
    (Translated "ウォレットの暗号化に失敗しました");
  msg [line (-56)]
    "Wallet encryption failed due to an internal error. Your wallet was not encrypted."
    (Translated "内部エラーによりウォレットの暗号化が失敗しました。ウォレットは暗号化されませんでした。");
  msg [line 7; line 50]
    "The supplied passphrases do not match."
    (Translated "パスフレーズが同じではありません。");
  msg [line (-38)]
    "Wallet unlock failed"
    (Translated "ウォレットのアンロックに失敗しました");
  msg [line 1; line 12; line 19]
    "The passphrase entered for the wallet decryption was incorrect."
    (Translated "ウォレットの暗号化解除のパスフレーズが正しくありません。");
  msg [line (-20)]
    "Wallet decryption failed"
    (Translated "ウォレットの暗号化解除に失敗しました");
  msg [line 14]
    "Wallet passphrase was successfully changed."
    (Translated "ウォレットのパスフレーズの変更が成功しました。")
].

Definition ja_BitcoinGUI_1 : list message := [
  msg [in_file "../bitcoingui.cpp" 282]
    "Sign &amp;message..."
    (Translated "メッセージの署名... (&amp;m)");
  msg [line 251]
    "Synchronizing with network..."
    (Translated "ネットワークに同期中……");
  msg [line (-319)]
    "&amp;Overview"
    (Translated "概要(&amp;O)");
  msg [line 1]
    "Show general overview of wallet"
    (Translated "ウォレットの概要を見る");
  msg [line 17]
    "&amp;Transactions"
    (Translated "処理(&amp;T)");
  msg [line 1]
    "Browse transaction history"
    (Translated "処理履歴を閲覧");
  msg [line 5]
    "&amp;Address Book"
    (Translated "アドレス帳");
  msg [line 1]
    "Edit the list of stored addresses and labels"
    (Translated "保存されたアドレスとラベルの編集");
  msg [line (-13)]
    "&amp;Receive coins"
    (Translated "コインを受け取る");
  msg [line 1]
    "Show the list of addresses for receiving payments"
    (Translated "支払いを受けるためのアドレスリストを表示");
  msg [line (-7)]
    "&amp;Send coins"
    (Translated "コインを送る");
  msg [line 35]
    "E&amp;xit"
    (Translated "終了(&amp;E)");
  msg [line 1]
    "Quit application"
    (Translated "アプリケーションを終了");
  msg [line 6]
    "Show information about MotaCoin"
    (Translated "ブラックコインの情報を表示");
  msg [line 2]
    "About &amp;Qt"
    (Translated "Qt について(&amp;Q)");
  msg [line 1]
    "Show information about Qt"
    (Translated "Qt の情報を表示");
  msg [line 2]
    "&amp;Options..."
    (Translated "オプション... (&amp;O)");
  msg [line 4]
    "&amp;Encrypt Wallet..."
    (Translated "ウォレットの暗号化... (&amp;E)");
  msg [line 3]
    "&amp;Backup Wallet..."
    (Translated "ウォレットのバックアップ... (&amp;B)");
  msg [line 2]
    "&amp;Change Passphrase..."
    (Translated "パスフレーズの変更... (&amp;C)");
  nmsg [line 259]
    "~%n block(s) remaining"
    (Forms ["~%n ブロックが残っている"]);
  msg [line 6]
    "Downloaded %1 of %2 blocks of transaction history (%3% done)."
    (Translated "処理の履歴の%1 / %2 ブロックをダウンロードしました。(%3% 完成）");
  msg [line (-256)]
    "&amp;Export..."
    (Translated "(&amp;E)書き出す...");
  msg [line (-64)]
    "Send coins to a MotaCoin address"
    (Translated "ブラックコインアドレスへコインを送る");
  msg [line 47]
    "Modify configuration options for MotaCoin"
    (Translated "ブラックコインの設定を変化する");
  msg [line 18]
    "Export the data in the current tab to a file"
    (Translated "現在のタブのデータをファイルへ書き出す");
  msg [line (-14)]
    "Encrypt or decrypt wallet"
    (Translated "ウォレットを暗号化か暗号化を解除する");
  msg [line 3]
    "Backup wallet to another location"
    (Translated "ウォレットを他の場所にバックアップ");
  msg [line 2]
    "Change the passphrase used for wallet encryption"
    (Translated "ウォレット暗号化用パスフレーズの変更")
].

Definition ja_BitcoinGUI_2 : list message := [
  msg [line 10]
    "&amp;Debug window"
    (Translated "デバッグ ウインドウ (&amp;D)");
  msg [line 1]
    "Open debugging and diagnostic console"
    (Translated "デバッグと診断コンソールを開く");
  msg [line (-5)]
    "&amp;Verify message..."
    (Translated "メッセージの検証... (&amp;V)");
  msg [line (-202)]
    "MotaCoin"
    (Translated "ブラックコイン");
  msg [line 0]
    "Wallet"
    (Translated "ウォレット");
  msg [line 180]
    "&amp;About MotaCoin"
    (Translated "ブラックコインについて");
  msg [line 9]
    "&amp;Show / Hide"
    (Translated "見る/隠す (&amp;S)");
  msg [line 9]
    "Unlock wallet"
    (Translated "ウォレットをアンロックする");
  msg [line 1]
    "&amp;Lock Wallet"
    (Translated "(&amp;L)ウォレットをロックする");
  msg [line 1]
    "Lock wallet"
    (Translated "ウォレットをロックする");
  msg [line 35]
    "&amp;File"
    (Translated "ファイル(&amp;F)");
  msg [line 8]
    "&amp;Settings"
    (Translated "設定(&amp;S)");
  msg [line 8]
    "&amp;Help"
    (Translated "ヘルプ(&amp;H)");
  msg [line 12]
    "Tabs toolbar"
    (Translated "タブツールバー");
  msg [line 8]
    "Actions toolbar"
    (Translated "活動ツールバー");
  msg [line 13; line 9]
    "[testnet]"
    (Translated "[testnet]");
  msg [line 0; line 60]
    "MotaCoin client"
    (Translated "ブラックコインクライアントソフトウェア");
  nmsg [line 75]
    "%n active connection(s) to MotaCoin network"
    (Forms ["ブラックコインネットワークへの%n アクティブな接続"]);
  msg [line 40]
    "Downloaded %1 blocks of transaction history."
    (Translated "処理履歴の%1ブロックをダウンロードしました。");
  msg [line 413]
    "Staking.&lt;br&gt;Your weight is %1&lt;br&gt;Network weight is %2&lt;br&gt;Expected time to earn reward is %3"
    (Translated "賭けている。&lt;br&gt;重さは%1&lt;br&gt;ネットワークの重さは%2&lt;br&gt;報酬をもらう時間の推測は%3");
  msg [line 6]
    "Not staking because wallet is locked"
    (Translated "ウォレットをロックされたため、賭けていません");
  msg [line 2]
    "Not staking because wallet is offline"
    (Translated "ウォレットはオフラインで、賭けていません");
  msg [line 2]
    "Not staking because wallet is syncing"
    (Translated "ウォレットは同期最中ため、賭けていません。");
  msg [line 2]
    "Not staking because you don&apos;t have mature coins"
    (Translated "コインはまだ成長できていないため、賭けていません。");
  nmsg [line (-403)]
    "%n second(s) ago"
    (Forms ["%n 秒前"]);
  msg [line (-312)]
    "About MotaCoin card"
    (Translated "ブラックコインカードについて");
  msg [line 1]
    "Show information about MotaCoin card"
    (Translated "バラックコインカードの情報を表示する");
  msg [line 18]
    "&amp;Unlock Wallet..."
    (Translated "&amp;ウォレットをアンロック...");
  nmsg [line 297]
    "%n minute(s) ago"
    (Forms ["%n 分前"])
].

Definition ja_BitcoinGUI_3 : list message := [
  nmsg [line 4]
    "%n hour(s) ago"
    (Forms ["%n 時間前"]);
  nmsg [line 4]
    "%n day(s) ago"
    (Forms ["%n 日間前"]);
  msg [line 6]
    "Up to date"
    (Translated "バージョンは最新です");
  msg [line 7]
    "Catching up..."
    (Translated "追跡中...");
  msg [line 10]
    "Last received block was generated %1."
    (Translated "最新ブロックは%1に生成されました。");
  msg [line 59]
    "This transaction is over the size limit.  You can still send it for a fee of %1, which goes to the nodes that process your transaction and helps to support the network.  Do you want to pay the fee?"
    (Translated "この処理は大きさの制限を超えている。%1料金を払ったばい、通信可能性です。料金は手続きをするノードへ支払って、ネットワークのサッポートになります。料金を払いますか。");
  msg [line 5]
    "Confirm transaction fee"
    (Translated "処理手数料を確認する");
  msg [line 27]
    "Sent transaction"
    (Translated "送金処理");
  msg [line 1]
    "Incoming transaction"
    (Translated "着金処理");
  msg [line 1]
    "Date: %1
Amount: %2
Type: %3
Address: %4
"
    (Translated "日付: %1
総額: %2
種類: %3
アドレス: %4");
  msg [line 100; line 15]
    "URI handling"
    (Translated "URIの取り扱い");
  msg [line (-15); line 15]
    "URI can not be parsed! This can be caused by an invalid MotaCoin address or malformed URI parameters."
    (Translated "URIのパーズができませんでした！。原因は無効なブラックコインアドレスか不正なURIパラメータ。");
  msg [line 18]
    "Wallet is &lt;b&gt;encrypted&lt;/b&gt; and currently &lt;b&gt;unlocked&lt;/b&gt;"
    (Translated "ウォレットは&lt;b&gt;暗号化されて、アンロックされています&lt;/b&gt;");
  msg [line 10]
    "Wallet is &lt;b&gt;encrypted&lt;/b&gt; and currently &lt;b&gt;locked&lt;/b&gt;"
    (Translated "ウォレットは&lt;b&gt;暗号化されて、ロックされています&lt;/b&gt;");
  msg [line 25]
    "Backup Wallet"
    (Translated "ウォレットのバックアップ");
  msg [line 0]
    "Wallet Data (*.dat)"
    (Translated "ウォレットのデータ (*.dat)");
  msg [line 3]
    "Backup Failed"
    (Translated "バックアップは失敗しました");
  msg [line 0]
    "There was an error trying to save the wallet data to the new location."
    (Translated "ウォレットのデータが新しい場所へ保存するにはエラーになりました。");
  nmsg [line 76]
    "%n second(s)"
    (Forms ["%n 秒"]);
  nmsg [line 4]
    "%n minute(s)"
    (Forms ["%n 分"]);
  nmsg [line 4]
    "%n hour(s)"
    (Forms ["%n 時間"]);
  nmsg [line 4]
    "%n day(s)"
    (Forms ["%n 日間"]);
  msg [line 18]
    "Not staking"
    (Translated "賭けていません");
  msg [in_file "../bitcoin.cpp" 109]
    "A fatal error occurred. MotaCoin can no longer continue safely and will quit."
    (Translated "致命的エラー。安全に続きができないため、バラックコインQTは閉じます。")
].

Definition ja_BitcoinGUI : context := mkContext "BitcoinGUI"
  (ja_BitcoinGUI_1 ++ ja_BitcoinGUI_2 ++ ja_BitcoinGUI_3).

Definition ja_ClientModel : context := mkContext "ClientModel" [
  msg [in_file "../clientmodel.cpp" 90]
    "Network Alert"
    (Translated "ネットワーク警告")
].

Definition ja_CoinControlDialog_1 : list message := [
  msg [in_file "../forms/coincontroldialog.ui" 14]
    "Coin Control"
    (Translated "コインのコントロール");
  msg [line 31]
    "Quantity:"
    (Translated "数量：");
  msg [line 32]
    "Bytes:"
    (Translated "バイト");
  msg [line 48]
    "Amount:"
    (Translated "総額:");
  msg [line 32]
    "Priority:"
    (Translated "優先:");
  msg [line 48]
    "Fee:"
    (Translated "料金:");
  msg [line 35]
    "Low Output:"
    (Translated "アウトプット低い:");
  msg [in_file "../coincontroldialog.cpp" 551]
    "no"
    (Translated "いいえ");
  msg [in_file "../forms/coincontroldialog.ui" 51]
    "After Fee:"
    (Translated "料金の後");
  msg [line 35]
    "Change:"
    (Translated "お釣り:");
  msg [line 69]
    "(un)select all"
    (Translated "すべてを選択か選択を解除");
  msg [line 13]
    "Tree mode"
    (Translated "木モード");
  msg [line 16]
    "List mode"
    (Translated "リストモード");
  msg [line 45]
    "Amount"
    (Translated "総額");
  msg [line 5]
    "Label"
    (Translated "レベル");
  msg [line 5]
    "Address"
    (Translated "アドレス");
  msg [line 5]
    "Date"
    (Translated "日付");
  msg [line 5]
    "Confirmations"
    (Translated "検証済みの数");
  msg [line 3]
    "Confirmed"
    (Translated "検証済");
  msg [line 5]
    "Priority"
    (Translated "優先");
  msg [in_file "../coincontroldialog.cpp" (-515)]
    "Copy address"
    (Translated "アドレスをコピー");
  msg [line 1]
    "Copy label"
    (Translated "ラベルをコピー");
  msg [line 1; line 26]
    "Copy amount"
    (Translated "総額のコピー");
  msg [line (-25)]
    "Copy transaction ID"
    (Translated "処理のIDをコピー");
  msg [line 24]
    "Copy quantity"
    (Translated "数量をコピー");
  msg [line 2]
    "Copy fee"
    (Translated "料金をコピー");
  msg [line 1]
    "Copy after fee"
    (Translated "料金の後をコピー");
  msg [line 1]
    "Copy bytes"
    (Translated "バイトをコピー");
  msg [line 1]
    "Copy priority"
    (Translated "優先をコピー")
].

Definition ja_CoinControlDialog_2 : list message := [
  msg [line 1]
    "Copy low output"
    (Translated "アウトプット低いをコピー");
  msg [line 1]
    "Copy change"
    (Translated "お釣りをコピー");
  msg [line 317]
    "highest"
    (Translated "最高");
  msg [line 1]
    "high"
    (Translated "高い");
  msg [line 1]
    "medium-high"
    (Translated "中高");
  msg [line 1]
    "medium"
    (Translated "中");
  msg [line 4]
    "low-medium"
    (Translated "中低");
  msg [line 1]
    "low"
    (Translated "低い");
  msg [line 1]
    "lowest"
    (Translated "最低");
  msg [line 155]
    "DUST"
    (Translated "ほこり");
  msg [line 0]
    "yes"
    (Translated "はい");
  msg [line 10]
    "This label turns red, if the transaction size is bigger than 10000 bytes.

 This means a fee of at least %1 per kb is required.

 Can vary +/- 1 Byte per input."
    (Translated "このラベルが赤くなったら、処理の大きさは10000バイトより大きいです。

少なくとも%1 KBあたりの料金は必要となります。

入力データによって、料金の+/-1 バイトが可能です。");
  msg [line 1]
    "Transactions with higher priority get more likely into a block.

This label turns red, if the priority is smaller than &quot;medium&quot;.

 This means a fee of at least %1 per kb is required."
    (Translated "高い優先ありの処理の方はブロックに書き込み可能性が高い。

このラベルは優先の設定は中より低いです。

少なくとも%1 KBあたりの料金は必要となります。");
  msg [line 1]
    "This label turns red, if any recipient receives an amount smaller than %1.

 This means a fee of at least %2 is required. 

 Amounts below 0.546 times the minimum relay fee are shown as DUST."
    (Translated (join ["任意の受信者は%1より少ない額をもらったばい、このラベルは赤くなる。

少なくとも%2の料金は必要となります。

最小なリレー料金"; U3000; "x"; U3000; "0.546より下の額は、ほこりになります。"]));
  msg [line 1]
    "This label turns red, if the change is smaller than %1.

 This means a fee of at least %2 is required."
    (Translated "このラベルが赤くなたら、お釣りは%1より少ない。

少なくとも%2の料金は必要となります。");
  msg [line 37; line 66]
    "(no label)"
    (Translated "（ラベル無し）");
  msg [line (-9)]
    "change from %1 (%2)"
    (Translated "%1 (%2)からお釣り");
  msg [line 1]
    "(change)"
    (Translated "(お釣り)")
].

Definition ja_CoinControlDialog : context := mkContext "CoinControlDialog"
  (ja_CoinControlDialog_1 ++ ja_CoinControlDialog_2).

Definition ja_EditAddressDialog : context := mkContext "EditAddressDialog" [
  msg [in_file "../forms/editaddressdialog.ui" 14]
    "Edit Address"
    (Translated "アドレスの編集");
  msg [line 11]
    "&amp;Label"
    (Translated "ラベル(&amp;L)");
  msg [line 10]
    "The label associated with this address book entry"
    (Translated "このアドレス帳の入力のラベル");
  msg [line 7]
    "&amp;Address"
    (Translated "アドレス帳 (&amp;A)");
  msg [line 10]
    "The address associated with this address book entry. This can only be modified for sending addresses."
    (Translated "このアドレス帳の入力のアドレス。通信アドレスした変更ができない。");
  msg [in_file "../editaddressdialog.cpp" 20]
    "New receiving address"
    (Translated "新しい受信アドレス");
  msg [line 4]
    "New sending address"
    (Translated "新しい送信アドレス");
  msg [line 3]
    "Edit receiving address"
    (Translated "受信アドレスを編集");
  msg [line 4]
    "Edit sending address"
    (Translated "送信アドレスを編集");
  msg [line 76]
    "The entered address &quot;%1&quot; is already in the address book."
    (Translated "入力されたアドレス &quot;%1&quot; は既にアドレス帳にあります。");
  msg [line (-5)]
    "The entered address &quot;%1&quot; is not a valid MotaCoin address."
    (Translated "入力されたアドレス &quot;%1&quot; 、有効なブラックコインアドレスではない。");
  msg [line 10]
    "Could not unlock wallet."
    (Translated "ウォレットをアンロックできませんでした。");
  msg [line 5]
    "New key generation failed."
    (Translated "新しいキーの生成に失敗しました。")
].

Definition ja_GUIUtil_HelpMessageBox : context := mkContext "GUIUtil::HelpMessageBox" [
  msg [in_file "../guiutil.cpp" 420; line 12]
    "MotaCoin-Qt"
    (Translated "ブラックコインQT");
  msg [line (-12)]
    "version"
    (Translated "バージョン");
  msg [line 2]
    "Usage:"
    (Translated "使用法");
  msg [line 1]
    "command-line options"
    (Translated "コマンドラインのオプション");
  msg [line 4]
    "UI options"
    (Translated "UIのオプション");
  msg [line 1]
    "Set language, for example &quot;de_DE&quot; (default: system locale)"
    (Translated "言語の設定、例: &quot;de_DE&quot; (デフォルト:システムのロケール)");
  msg [line 1]
    "Start minimized"
    (Translated "最小化でスタート");
  msg [line 1]
    "Show splash screen on startup (default: 1)"
    (Translated "スタートでスプラッシュスクリーンを表示(デフォルト:１)")
].

Definition ja_OptionsDialog_1 : list message := [
  msg [in_file "../forms/optionsdialog.ui" 14]
    "Options"
    (Translated "設定");
  msg [line 16]
    "&amp;Main"
    (Translated "メイン (&amp;M)");
  msg [line 6]
    "Optional transaction fee per kB that helps make sure your transactions are processed quickly. Most transactions are 1 kB. Fee 0.01 recommended."
    (Translated "手続きを早めるためのオプショナル料金。だいたいの処理は1KB。料金の0.01が勧めです。");
  msg [line 15]
    "Pay transaction &amp;fee"
    (Translated "支払う取引手数料 (&amp;f)");
  msg [line 31]
    "Reserved amount does not participate in staking and is therefore spendable at any time."
    (Translated "貯金は賭ける参加しないため、いつでも支出できる。");
  msg [line 15]
    "Reserve"
    (Translated "貯金");
  msg [line 31]
    "Automatically start MotaCoin after logging in to the system."
    (Translated "システムのログイン次第、自動的にブラックコインをスタート。");
  msg [line 3]
    "&amp;Start MotaCoin on system login"
    (Translated "システムログイン次第、ブラックコインをスタート");
  msg [line 7]
    "Detach block and address databases at shutdown. This means they can be moved to another data directory, but it slows down shutdown. The wallet is always detached."
    (Translated "シャットダウンするとき、ブロックとアドレスのデータベースを切り離す。すると、別のディレクトリへ移動できますが、シャットダウンは少し遅れます。ウォレットはいつも切り離します。");
  msg [line 3]
    "&amp;Detach databases at shutdown"
    (Translated "シャットダウンするとき、データベースを切り離す");
  msg [line 21]
    "&amp;Network"
    (Translated "ネットワーク (&amp;N)");
  msg [line 6]
    "Automatically open the MotaCoin client port on the router. This only works when your router supports UPnP and it is enabled."
    (Translated "自動的にルーターでブラックコインクライエントソフトウェアのポートを開く。ルーターはUPnPのサポートあり、UPnPを有効にするならできる。");
  msg [line 3]
    "Map port using &amp;UPnP"
    (Translated "UPnP を使ってポートを割り当てる (&amp;U)");
  msg [line 7]
    "Connect to the MotaCoin network through a SOCKS proxy (e.g. when connecting through Tor)."
    (Translated "ブラックコインのネットワークへSOCKSプロキシで接続する（例：TORで接続するばい）");
  msg [line 3]
    "&amp;Connect through SOCKS proxy:"
    (Translated "SOCKSプロキシで接続する");
  msg [line 9]
    "Proxy &amp;IP:"
    (Translated "プロキシの IP (&amp;I) :");
  msg [line 19]
    "IP address of the proxy (e.g. 127.0.0.1)"
    (Translated "プロキシのIPアドレス （例：127.0.0.1）");
  msg [line 7]
    "&amp;Port:"
    (Translated "ポート (&amp;P) :");
  msg [line 19]
    "Port of the proxy (e.g. 9050)"
    (Translated "プロキシのポート番号 (例 9050)");
  msg [line 7]
    "SOCKS &amp;Version:"
    (Translated "SOCKS バージョン (&amp;V) :");
  msg [line 13]
    "SOCKS version of the proxy (e.g. 5)"
    (Translated "SOCKS プロキシのバージョン (例 5)");
  msg [line 36]
    "&amp;Window"
    (Translated "ウインドウ (&amp;W)");
  msg [line 6]
    "Show only a tray icon after minimizing the window."
    (Translated "ウインドウを最小化したあとトレイ アイコンだけを表示する。");
  msg [line 3]
    "&amp;Minimize to the tray instead of the taskbar"
    (Translated "タスクバーの代わりにトレイに最小化 (&amp;M)");
  msg [line 7]
    "Minimize instead of exit the application when the window is closed. When this option is enabled, the application will be closed only after selecting Quit in the menu."
    (Translated "ウインドウが閉じられる時アプリケーションを終了せずに最小化します。このオプションが有効な時にアプリケーションを終了するにはメニューから終了を選択します。");
  msg [line 3]
    "M&amp;inimize on close"
    (Translated "閉じる時に最小化 (&amp;i)");
  msg [line 21]
    "&amp;Display"
    (Translated "表示 (&amp;D)");
  msg [line 8]
    "User Interface &amp;language:"
    (Translated "ユーザインターフェースの言語 (&amp;l) :");
  msg [line 13]
    "The user interface language can be set here. This setting will take effect after restarting MotaCoin."
    (Translated "ユーザのインターフェースの言語の設定です。リスタートの後、有効します。")
].

Definition ja_OptionsDialog_2 : list message := [
  msg [line 11]
    "&amp;Unit to show amounts in:"
    (Translated "額を表示する単位 (&amp;U) :");
  msg [line 13]
    "Choose the default subdivision unit to show in the interface and when sending coins."
    (Translated "インターフェース上の表示とコインの送信で使用する単位を選択します。");
  msg [line 9]
    "Whether to show MotaCoin addresses in the transaction list or not."
    (Translated "処理の歴史でブラックコインのアドレスを表示する／しない。");
  msg [line 3]
    "&amp;Display addresses in transaction list"
    (Translated "処理の履歴にアドレスを表示 (&amp;D)");
  msg [line 7]
    "Whether to show coin control features or not."
    (Translated "コインコントロールを表示する／しない。");
  msg [line 3]
    "Display coin &amp;control features (experts only!)"
    (Translated "コインコントロールの設定を表示する(有識者のみ！)");
  msg [line 71]
    "&amp;OK"
    (Translated "&amp;OK");
  msg [line 7]
    "&amp;Cancel"
    (Translated "キャンセル (&amp;C)");
  msg [line 10]
    "&amp;Apply"
    (Translated "適用する");
  msg [in_file "../optionsdialog.cpp" 55]
    "default"
    (Translated "初期値");
  msg [line 149; line 9]
    "Warning"
    (Translated "警告");
  msg [line (-9); line 9]
    "This setting will take effect after restarting MotaCoin."
    (Translated "この設定はブラックコインをリスタートした後に有効する。");
  msg [line 29]
    "The supplied proxy address is invalid."
    (Translated "プロキシアドレスが無効です。")
].

Definition ja_OptionsDialog : context := mkContext "OptionsDialog"
  (ja_OptionsDialog_1 ++ ja_OptionsDialog_2).

Definition ja_OverviewPage : context := mkContext "OverviewPage" [
  msg [in_file "../forms/overviewpage.ui" 14]
    "Form"
    (Translated "フォーム");
  msg [line 33; line 231]
    "The displayed information may be out of date. Your wallet automatically synchronizes with the MotaCoin network after a connection is established, but this process has not completed yet."
    (Translated "表示されている情報は時間遅れている。接続したら、ウォレットは自動的にブラックコインネットワークと同期しますが過程は完了してません。");
  msg [line (-160)]
    "Stake:"
    (Translated "賭け金：");
  msg [line 29]
    "Unconfirmed:"
    (Translated "未検証：");
  msg [line (-107)]
    "Wallet"
    (Translated "ウォレット");
  msg [line 49]
    "Spendable:"
    (Translated "支出可能：");
  msg [line 16]
    "Your current spendable balance"
    (Translated "あなたの利用可能残高");
  msg [line 71]
    "Immature:"
    (Translated "未完成:");
  msg [line 13]
    "Mined balance that has not yet matured"
    (Translated "完成していない採掘された残高");
  msg [line 20]
    "Total:"
    (Translated "合計:");
  msg [line 16]
    "Your current total balance"
    (Translated "あなたの現在の残高");
  msg [line 46]
    "&lt;b&gt;Recent transactions&lt;/b&gt;"
    (Translated "&lt;b&gt;最近の処理&lt;/b&gt;");
  msg [line (-108)]
    "Total of transactions that have yet to be confirmed, and do not yet count toward the current balance"
    (Translated "未確認の合計で、まだ現在の残高に含まれていない。");
  msg [line (-29)]
    "Total of coins that was staked, and do not yet count toward the current balance"
    (Translated "賭けているコインの合計で、まだ現在の残高に含まれていない。");
  msg [in_file "../overviewpage.cpp" 113; line 1]
    "out of sync"
    (Translated "同期していない")
].

Definition ja_QRCodeDialog : context := mkContext "QRCodeDialog" [
  msg [in_file "../forms/qrcodedialog.ui" 14]
    "QR Code Dialog"
    (Translated "QRコードのダイアログ");
  msg [line 59]
    "Request Payment"
    (Translated "支払いを要請する");
  msg [line 56]
    "Amount:"
    (Translated "総額:");
  msg [line (-44)]
    "Label:"
    (Translated "レベル");
  msg [line 19]
    "Message:"
    (Translated "メッセージ:");
  msg [line 71]
    "&amp;Save As..."
    (Translated "&amp;S名前を付けて保存...");
  msg [in_file "../qrcodedialog.cpp" 62]
    "Error encoding URI into QR Code."
    (Translated "URIからQRコードにエンコードするエラー。");
  msg [line 40]
    "The entered amount is invalid, please check."
    (Translated "入力された額は無効です。確認してください。");
  msg [line 23]
    "Resulting URI too long, try to reduce the text for label / message."
    (Translated "URIは長過ぎて、ラベル文字の長さを短くしてください。");
  msg [line 25]
    "Save QR Code"
    (Translated "QRコードを保存");
  msg [line 0]
    "PNG Images (*.png)"
    (Translated "PNG イメージ (*.png)")
].

Definition ja_RPCConsole : context := mkContext "RPCConsole" [
  msg [in_file "../forms/rpcconsole.ui" 46]
    "Client name"
    (Translated "クライアント名");
  msg [line 10; line 23; line 26; line 23; line 23; line 36; line 53; line 23; line 23; in_file "../rpcconsole.cpp" 348]
    "N/A"
    (Translated "N/A");
  msg [line (-217)]
    "Client version"
    (Translated "クライアントのバージョン");
  msg [line (-45)]
    "&amp;Information"
    (Translated "情報 (&amp;I)");
  msg [line 68]
    "Using OpenSSL version"
    (Translated "使用中の OpenSSL のバージョン");
  msg [line 49]
    "Startup time"
    (Translated "起動した日時");
  msg [line 29]
    "Network"
    (Translated "ネットワーク");
  msg [line 7]
    "Number of connections"
    (Translated "接続数");
  msg [line 23]
    "On testnet"
    (Translated "testnetで");
  msg [line 23]
    "Block chain"
    (Translated "ブロック チェーン");
  msg [line 7]
    "Current number of blocks"
    (Translated "現在のブロック数");
  msg [line 23]
    "Estimated total blocks"
    (Translated "推定総ブロック数");
  msg [line 23]
    "Last block time"
    (Translated "最終ブロックの日時");
  msg [line 52]
    "&amp;Open"
    (Translated "開く (&amp;O)");
  msg [line 16]
    "Command-line options"
    (Translated "コマンドラインのオプション");
  msg [line 7]
    "Show the MotaCoin-Qt help message to get a list with possible MotaCoin command-line options."
    (Translated "ブラックコインQTのコマンドラインのヘルプ情報を表示する。");
  msg [line 3]
    "&amp;Show"
    (Translated "(&amp;S)表示");
  msg [line 24]
    "&amp;Console"
    (Translated "コンソール (&amp;C)");
  msg [line (-260)]
    "Build date"
    (Translated "ビルドの日付");
  msg [line (-104)]
    "MotaCoin - Debug window"
    (Translated "ブラックコイン：デバッグウインドウ");
  msg [line 25]
    "MotaCoin Core"
    (Translated "ブラックコインコア");
  msg [line 279]
    "Debug log file"
    (Translated "デバッグ用ログファイル");
  msg [line 7]
    "Open the MotaCoin debug log file from the current data directory. This can take a few seconds for large log files."
    (Translated "現行のディレクトリからデバッグログファイルを開く。大きなファイルのばい、少し時間かかる。");
  msg [line 102]
    "Clear console"
    (Translated "コンソールをクリア");
  msg [in_file "../rpcconsole.cpp" (-33)]
    "Welcome to the MotaCoin RPC console."
    (Translated "ブラックコインRPCコンソールへようこそ。");
  msg [line 1]
    "Use up and down arrows to navigate history, and &lt;b&gt;Ctrl-L&lt;/b&gt; to clear screen."
    (Translated "上下の矢印で履歴をたどれます。 &lt;b&gt;Ctrl-L&lt;/b&gt; でスクリーンを消去できます。");
  msg [line 1]
    "Type &lt;b&gt;help&lt;/b&gt; for an overview of available commands."
    (Translated "使用可能なコマンドを見るには &lt;b&gt;help&lt;/b&gt; と入力します。")
].

Definition ja_SendCoinsDialog_1 : list message := [
  msg [in_file "../forms/sendcoinsdialog.ui" 14; in_file "../sendcoinsdialog.cpp" 182; line 5; line 5; line 5; line 6; line 5; line 5]
    "Send Coins"
    (Translated "コインを送る");
  msg [line 76]
    "Coin Control Features"
    (Translated "コインのコントロールの設定");
  msg [line 20]
    "Inputs..."
    (Translated "入力...");
  msg [line 7]
    "automatically selected"
    (Translated "自動的に選択");
  msg [line 19]
    "Insufficient funds!"
    (Translated "資金不足！");
  msg [line 77]
    "Quantity:"
    (Translated "数量：");
  msg [line 22; line 35]
    "0"
    (Translated "0");
  msg [line (-19)]
    "Bytes:"
    (Translated "バイト");
  msg [line 51]
    "Amount:"
    (Translated "総額:");
  msg [line 22; line 86; line 86; line 32]
    "0.00 MOTA"
    (Translated "123.456 MOTA {0.00 ?}");
  msg [line (-191)]
    "Priority:"
    (Translated "優先:");
  msg [line 19]
    "medium"
    (Translated "中");
  msg [line 32]
    "Fee:"
    (Translated "料金:");
  msg [line 35]
    "Low Output:"
    (Translated "アウトプット低い:");
  msg [line 19]
    "no"
    (Translated "いいえ");
  msg [line 32]
    "After Fee:"
    (Translated "料金の後");
  msg [line 35]
    "Change"
    (Translated "お釣り:");
  msg [line 50]
    "custom change address"
    (Translated "カスタムのお釣りのアドレス");
  msg [line 106]
    "Send to multiple recipients at once"
    (Translated "一度に複数の人に送る");
  msg [line 3]
    "Add &amp;Recipient"
    (Translated "受取人を追加 (&amp;R)");
  msg [line 20]
    "Remove all transaction fields"
    (Translated "全分の処理欄を削除する");
  msg [line 3]
    "Clear &amp;All"
    (Translated "すべてクリア (&amp;A)");
  msg [line 28]
    "Balance:"
    (Translated "残高:");
  msg [line 16]
    "123.456 MOTA"
    (Translated "123.456 MOTA");
  msg [line 31]
    "Confirm the send action"
    (Translated "送る操作を確認する");
  msg [line 3]
    "S&amp;end"
    (Translated "送る (&amp;e)");
  msg [in_file "../sendcoinsdialog.cpp" (-173)]
    "Enter a MotaCoin address (e.g. MBDKLakRxSRw7hUB2q5DXEnDpNpLVkqGZd)"
    (Translated "ブラックコインアドレスの入力 (例；MBDKLakRxSRw7hUB2q5DXEnDpNpLVkqGZd)")
].

Definition ja_SendCoinsDialog_2 : list message := [
  msg [line 15]
    "Copy quantity"
    (Translated "数量をコピー");
  msg [line 1]
    "Copy amount"
    (Translated "総額のコピー");
  msg [line 1]
    "Copy fee"
    (Translated "料金をコピー");
  msg [line 1]
    "Copy after fee"
    (Translated "料金の後をコピー");
  msg [line 1]
    "Copy bytes"
    (Translated "バイトをコピー");
  msg [line 1]
    "Copy priority"
    (Translated "優先をコピー");
  msg [line 1]
    "Copy low output"
    (Translated "アウトプット低いをコピー");
  msg [line 1]
    "Copy change"
    (Translated "お釣りをコピー");
  msg [line 86]
    "&lt;b&gt;%1&lt;/b&gt; to %2 (%3)"
    (Translated "&lt;b&gt;%1&lt;/b&gt; から %2 (%3)に");
  msg [line 5]
    "Confirm send coins"
    (Translated "コインを送る確認");
  msg [line 1]
    "Are you sure you want to send %1?"
    (Translated "%1送付、よろしいですか?");
  msg [line 0]
    " and "
    (Translated "と");
  msg [line 29]
    "The recipient address is not valid, please recheck."
    (Translated "受取人のアドレスが不正です。再確認してください。");
  msg [line 5]
    "The amount to pay must be larger than 0."
    (Translated "支払額は0より大きくないといけません。");
  msg [line 5]
    "The amount exceeds your balance."
    (Translated "額が残高を超えています。");
  msg [line 5]
    "The total exceeds your balance when the %1 transaction fee is included."
    (Translated "%1 の処理手数料を含めると額が残高を超えています。");
  msg [line 6]
    "Duplicate address found, can only send to each address once per send operation."
    (Translated "重複しているアドレスが見つかりました。1回の送信で同じアドレスに送ることは出来ません。");
  msg [line 5]
    "Error: Transaction creation failed."
    (Translated "エラー：処理を失敗しました。");
  msg [line 5]
    "Error: The transaction was rejected. This might happen if some of the coins in your wallet were already spent, such as if you used a copy of wallet.dat and coins were spent in the copy but not marked as spent here."
    (Translated "エラー：処理は拒否されました。ウォレットのコインをすでに費やした可能性で、wallet.datのコピーで費やしたが、現行のwallet.datとはアップデートされていない。");
  msg [line 251]
    "WARNING: Invalid MotaCoin address"
    (Translated "警告：無効なブラックコインアドレス");
  msg [line 13]
    "(no label)"
    (Translated "（ラベル無し）");
  msg [line 4]
    "WARNING: unknown change address"
    (Translated "警告：不明なお釣りのアドレス")
].

Definition ja_SendCoinsDialog : context := mkContext "SendCoinsDialog"
  (ja_SendCoinsDialog_1 ++ ja_SendCoinsDialog_2).

Definition ja_SendCoinsEntry : context := mkContext "SendCoinsEntry" [
  msg [in_file "../forms/sendcoinsentry.ui" 14]
    "Form"
    (Translated "フォーム");
  msg [line 15]
    "A&amp;mount:"
    (Translated "金額(&amp;A):");
  msg [line 13]
    "Pay &amp;To:"
    (Translated "送り先(&amp;T):");
  msg [line 24; in_file "../sendcoinsentry.cpp" 25]
    "Enter a label for this address to add it to your address book"
    (Translated "アドレス帳に追加するには、このアドレスのラベルを入力します");
  msg [line 9]
    "&amp;Label:"
    (Translated "ラベル(&amp;L):");
  msg [line 18]
    "The address to send the payment to  (e.g. MBDKLakRxSRw7hUB2q5DXEnDpNpLVkqGZd)"
    (Translated "支払いへ送るアドレス (例：MBDKLakRxSRw7hUB2q5DXEnDpNpLVkqGZd)");
  msg [line 10]
    "Choose address from address book"
    (Translated "アドレス帳からアドレスを選択する");
  msg [line 10]
    "Alt+A"
    (Translated "Alt+A");
  msg [line 7]
    "Paste address from clipboard"
    (Translated "クリップボードからアドレスを貼付ける");
  msg [line 10]
    "Alt+P"
    (Translated "Alt+P");
  msg [line 7]
    "Remove this recipient"
    (Translated "この受信者を外す");
  msg [in_file "../sendcoinsentry.cpp" 1]
    "Enter a MotaCoin address (e.g. MBDKLakRxSRw7hUB2q5DXEnDpNpLVkqGZd)"
    (Translated "ブラックコインアドレスの入力 (例；MBDKLakRxSRw7hUB2q5DXEnDpNpLVkqGZd)")
].

Definition ja_SignVerifyMessageDialog_1 : list message := [
  msg [in_file "../forms/signverifymessagedialog.ui" 14]
    "Signatures - Sign / Verify a Message"
    (Translated "署名 - メッセージの署名/検証");
  msg [line 13; line 124]
    "&amp;Sign Message"
    (Translated "メッセージの署名 (&amp;S)");
  msg [line (-118)]
    "You can sign messages with your addresses to prove you own them. Be careful not to sign anything vague, as phishing attacks may try to trick you into signing your identity over to them. Only sign fully-detailed statements you agree to."
    (Translated "あなた自身を立証するためにあなたのアドレスでメッセージに署名することができます。フィッシング攻撃によってあなたを騙して署名を譲渡させようとするかもしれないので、不明確なものは絶対に署名しないように注意してください。あなたが同意する完全に詳細な声明にだけ署名してください。");
  msg [line 18]
    "The address to sign the message with (e.g. MBDKLakRxSRw7hUB2q5DXEnDpNpLVkqGZd)"
    (Translated "メッセージの署名するアドレス(例：MBDKLakRxSRw7hUB2q5DXEnDpNpLVkqGZd)");
  msg [line 10; line 203]
    "Choose an address from the address book"
    (Translated "アドレス帳からアドレスを選ぶ");
  msg [line (-193); line 203]
    "Alt+A"
    (Translated "Alt+A");
  msg [line (-193)]
    "Paste address from clipboard"
    (Translated "クリップボードからアドレスを貼付ける");
  msg [line 10]
    "Alt+P"
    (Translated "Alt+P");
  msg [line 12]
    "Enter the message you want to sign here"
    (Translated "ここにあなたが署名するメッセージを入力します");
  msg [line 24]
    "Copy the current signature to the system clipboard"
    (Translated "現在の署名をシステムのクリップボードにコピーする");
  msg [line 21]
    "Sign the message to prove you own this MotaCoin address"
    (Translated "所有権の証明するためこのメサッジを署名する");
  msg [line 17]
    "Reset all sign message fields"
    (Translated "メッセージ署名の内容をすべて消去します");
  msg [line 3; line 146]
    "Clear &amp;All"
    (Translated "すべてクリア (&amp;A)");
  msg [line (-87); line 70]
    "&amp;Verify Message"
    (Translated "メッセージの検証 (&amp;V)");
  msg [line (-64)]
    "Enter the signing address, message (ensure you copy line breaks, spaces, tabs, etc. exactly) and signature below to verify the message. Be careful not to read more into the signature than what is in the signed message itself, to avoid being tricked by a man-in-the-middle attack."
    (Translated "メッセージを検証するために、署名するアドレスとメッセージ(改行、スペース、タブなどを正確にコピーしてください)、そして署名を入力します。中間者攻撃によってだまされることを避けるために、署名されたメッセージそのものよりも、署名を読み取られないように注意してください。");
  msg [line 21]
    "The address the message was signed with (e.g. MBDKLakRxSRw7hUB2q5DXEnDpNpLVkqGZd)"
    (Translated "メッセージの署名するアドレス(例：MBDKLakRxSRw7hUB2q5DXEnDpNpLVkqGZd)");
  msg [line 40]
    "Verify the message to ensure it was signed with the specified MotaCoin address"
    (Translated "受け取ったメッセージの署名を確保のため、メッセージを確認する。");
  msg [line 17]
    "Reset all verify message fields"
    (Translated "入力項目の内容をすべて消去します");
  msg [in_file "../signverifymessagedialog.cpp" 27; line 3]
    "Enter a MotaCoin address (e.g. MBDKLakRxSRw7hUB2q5DXEnDpNpLVkqGZd)"
    (Translated "ブラックコインのアドレスを入力(例：MBDKLakRxSRw7hUB2q5DXEnDpNpLVkqGZd)");
  msg [line (-2)]
    "Click &quot;Sign Message&quot; to generate signature"
    (Translated "署名を作成するには&quot;メッセージの署名&quot;をクリック");
  msg [line 3]
    "Enter MotaCoin signature"
    (Translated "ブラックコインのデジタル署名を入力");
  msg [line 82; line 81]
    "The entered address is invalid."
    (Translated "不正なアドレスが入力されました。");
  msg [line (-81); line 8; line 73; line 8]
    "Please check the address and try again."
    (Translated "アドレスを確かめてからもう一度試してください。");
  msg [line (-81); line 81]
    "The entered address does not refer to a key."
    (Translated "入力されたアドレスに関連するキーがありません。");
  msg [line (-73)]
    "Wallet unlock was cancelled."
    (Translated "ウォレットのアンロックはキャンセルされました。");
  msg [line 8]
    "Private key for the entered address is not available."
    (Translated "入力されたアドレスのプライベート キーが無効です。");
  msg [line 12]
    "Message signing failed."
    (Translated "メッセージの署名に失敗しました。")
].

Definition ja_SignVerifyMessageDialog_2 : list message := [
  msg [line 5]
    "Message signed."
    (Translated "メッセージに署名しました。");
  msg [line 59]
    "The signature could not be decoded."
    (Translated "署名がデコードできません。");
  msg [line 0; line 13]
    "Please check the signature and try again."
    (Translated "署名を確認してからもう一度試してください。");
  msg [line 0]
    "The signature did not match the message digest."
    (Translated "署名はメッセージ ダイジェストと一致しませんでした。");
  msg [line 7]
    "Message verification failed."
    (Translated "メッセージの検証に失敗しました。");
  msg [line 5]
    "Message verified."
    (Translated "メッセージは検証されました。")
].

Definition ja_SignVerifyMessageDialog : context := mkContext "SignVerifyMessageDialog"
  (ja_SignVerifyMessageDialog_1 ++ ja_SignVerifyMessageDialog_2).

Definition ja_TransactionDesc_1 : list message := [
  msg [in_file "../transactiondesc.cpp" 19]
    "Open until %1"
    (Translated "ユニット %1 を開く");
  nmsg [line (-2)]
    "Open for %n block(s)"
    (Forms ["%n ブロックに開いている"]);
  msg [line 8]
    "conflicted"
    (Translated "相違");
  msg [line 2]
    "%1/offline"
    (Translated "%1/オフライン");
  msg [line 2]
    "%1/unconfirmed"
    (Translated "%1/未検証");
  msg [line 2]
    "%1 confirmations"
    (Translated "%1 確認");
  msg [line 18]
    "Status"
    (Translated "ステータス");
  nmsg [line 7]
    ", broadcast through %n node(s)"
    (Forms ["%n ノードにブロードキャスト"]);
  msg [line 4]
    "Date"
    (Translated "日付");
  msg [line 7]
    "Source"
    (Translated "ソース");
  msg [line 0]
    "Generated"
    (Translated "生成された");
  msg [line 5; line 17]
    "From"
    (Translated "送信");
  msg [line 1; line 22; line 58]
    "To"
    (Translated "受信");
  msg [line (-77); line 2]
    "own address"
    (Translated "自分のアドレス");
  msg [line (-2)]
    "label"
    (Translated "ラベル");
  msg [line 37; line 12; line 45; line 17; line 30]
    "Credit"
    (Translated "クレジット");
  nmsg [line (-102)]
    "matures in %n more block(s)"
    (Forms ["%n 以上のブロックが満期"]);
  msg [line 2]
    "not accepted"
    (Translated "承認されなかった");
  msg [line 44; line 8; line 15; line 30]
    "Debit"
    (Translated "引き落とし額");
  msg [line (-39)]
    "Transaction fee"
    (Translated "処理の手数料");
  msg [line 16]
    "Net amount"
    (Translated "正味金額");
  msg [line 6]
    "Message"
    (Translated "メッセージ");
  msg [line 2]
    "Comment"
    (Translated "コメント");
  msg [line 2]
    "Transaction ID"
    (Translated "処理のID");
  msg [line 3]
    "Generated coins must mature 510 blocks before they can be spent. When you generated this block, it was broadcast to the network to be added to the block chain. If it fails to get into the chain, its state will change to &quot;not accepted&quot; and it won&apos;t be spendable. This may occasionally happen if another node generates a block within a few seconds of yours."
    (Translated "コインを費やす前に発現されたコインは510ブロック間成熟しなければなりません。このブロックを発現させたときに、ブロックチェインに足すためにネットワークへ放送しました。ブロックチェインに追加失敗したばい、レベルは「受け入られていない」に変わって、費やせられない状況になります。自分のノードと他のノードと同時に新しいブロックを発現させたときに、時折に起こること。");
  msg [line 7]
    "Debug information"
    (Translated "デバッグ情報");
  msg [line 8]
    "Transaction"
    (Translated "処理")
].

Definition ja_TransactionDesc_2 : list message := [
  msg [line 5]
    "Inputs"
    (Translated "入力");
  msg [line 23]
    "Amount"
    (Translated "総額");
  msg [line 1]
    "true"
    (Translated "正しい");
  msg [line 0]
    "false"
    (Translated "正しくない");
  msg [line (-211)]
    ", has not been successfully broadcast yet"
    (Translated "まだブロードキャストが成功していません");
  msg [line 35]
    "unknown"
    (Translated "未確認")
].

Definition ja_TransactionDesc : context := mkContext "TransactionDesc"
  (ja_TransactionDesc_1 ++ ja_TransactionDesc_2).

Definition ja_TransactionDescDialog : context := mkContext "TransactionDescDialog" [
  msg [in_file "../forms/transactiondescdialog.ui" 14]
    "Transaction details"
    (Translated "処理の詳細");
  msg [line 6]
    "This pane shows a detailed description of the transaction"
    (Translated "ここでは処理の詳細を表示しています")
].

Definition ja_TransactionTableModel : context := mkContext "TransactionTableModel" [
  msg [in_file "../transactiontablemodel.cpp" 226]
    "Date"
    (Translated "日付");
  msg [line 0]
    "Type"
    (Translated "タイプ");
  msg [line 0]
    "Address"
    (Translated "Helbidea");
  msg [line 0]
    "Amount"
    (Translated "総額");
  msg [line 60]
    "Open until %1"
    (Translated "ユニット %1 を開く");
  msg [line 12]
    "Confirmed (%1 confirmations)"
    (Translated "検証されました (%1 検証済み)");
  nmsg [line (-15)]
    "Open for %n more block(s)"
    (Forms ["%n 以上のブロックを開く"]);
  msg [line 6]
    "Offline"
    (Translated "オフライン");
  msg [line 3]
    "Unconfirmed"
    (Translated "未検証");
  msg [line 3]
    "Confirming (%1 of %2 recommended confirmations)"
    (Translated "検証最中 (%1 / %2 の進めている検証済み)");
  msg [line 6]
    "Conflicted"
    (Translated "相違");
  msg [line 3]
    "Immature (%1 confirmations, will be available after %2)"
    (Translated "未熟 (%1 検証,%2の後可用ができる)");
  msg [line 3]
    "This block was not received by any other nodes and will probably not be accepted!"
    (Translated "このブロックは他のどのノードによっても受け取られないで、多分受け入れられないでしょう！");
  msg [line 3]
    "Generated but not accepted"
    (Translated "生成されましたが承認されませんでした");
  msg [line 42]
    "Received with"
    (Translated "受信元");
  msg [line 2]
    "Received from"
    (Translated "送り主");
  msg [line 3]
    "Sent to"
    (Translated "送り先");
  msg [line 2]
    "Payment to yourself"
    (Translated "自分自身への支払い");
  msg [line 2]
    "Mined"
    (Translated "発掘した");
  msg [line 38]
    "(n/a)"
    (Translated "(n/a)");
  msg [line 190]
    "Transaction status. Hover over this field to show number of confirmations."
    (Translated "処理の状況。この欄の上にカーソルを置くと検証の数を表示します。");
  msg [line 2]
    "Date and time that the transaction was received."
    (Translated "処理を受信した日時。");
  msg [line 2]
    "Type of transaction."
    (Translated "処理の種類。");
  msg [line 2]
    "Destination address of transaction."
    (Translated "処理の宛先アドレス。");
  msg [line 2]
    "Amount removed from or added to balance."
    (Translated "残高に追加または削除された総額。")
].

Definition ja_TransactionView_1 : list message := [
  msg [in_file "../transactionview.cpp" 55; line 16]
    "All"
    (Translated "すべて");
  msg [line (-15)]
    "Today"
    (Translated "今日");
  msg [line 1]
    "This week"
    (Translated "今週");
  msg [line 1]
    "This month"
    (Translated "今月");
  msg [line 1]
    "Last month"
    (Translated "先月");
  msg [line 1]
    "This year"
    (Translated "今年");
  msg [line 1]
    "Range..."
    (Translated "期間...");
  msg [line 11]
    "Received with"
    (Translated "送り主");
  msg [line 2]
    "Sent to"
    (Translated "送り先");
  msg [line 2]
    "To yourself"
    (Translated "自分自身");
  msg [line 1]
    "Mined"
    (Translated "発掘した");
  msg [line 1]
    "Other"
    (Translated "その他");
  msg [line 7]
    "Enter address or label to search"
    (Translated "検索するアドレスまたはラベルを入力");
  msg [line 7]
    "Min amount"
    (Translated "最小の額");
  msg [line 34]
    "Copy address"
    (Translated "アドレスをコピーする");
  msg [line 1]
    "Copy label"
    (Translated "ラベルをコピーする");
  msg [line 1]
    "Copy amount"
    (Translated "総額のコピー");
  msg [line 1]
    "Copy transaction ID"
    (Translated "処理IDをコピー");
  msg [line 1]
    "Edit label"
    (Translated "ラベルの編集");
  msg [line 1]
    "Show transaction details"
    (Translated "処理の詳細を表示");
  msg [line 144]
    "Export Transaction Data"
    (Translated "処理のデータを書き出す");
  msg [line 1]
    "Comma separated file (*.csv)"
    (Translated "テキスト CSV (*.csv)");
  msg [line 8]
    "Confirmed"
    (Translated "検証済み");
  msg [line 1]
    "Date"
    (Translated "日付");
  msg [line 1]
    "Type"
    (Translated "タイプ");
  msg [line 1]
    "Label"
    (Translated "ラベル");
  msg [line 1]
    "Address"
    (Translated "Helbidea");
  msg [line 1]
    "Amount"
    (Translated "総額");
  msg [line 1]
    "ID"
    (Translated "ID")
].

Definition ja_TransactionView_2 : list message := [
  msg [line 4]
    "Error exporting"
    (Translated "エラーを書き出す");
  msg [line 0]
    "Could not write to file %1."
    (Translated "ファイルを書き込めなかった。%1");
  msg [line 100]
    "Range:"
    (Translated "期間:");
  msg [line 8]
    "to"
    (Translated "から")
].

Definition ja_TransactionView : context := mkContext "TransactionView"
  (ja_TransactionView_1 ++ ja_TransactionView_2).

Definition ja_WalletModel : context := mkContext "WalletModel" [
  msg [in_file "../walletmodel.cpp" 206]
    "Sending..."
    (Translated "通信中...")
].

Definition ja_bitcoin_core_1 : list message := [
  msg [in_file "../bitcoinstrings.cpp" 33]
    "MotaCoin version"
    (Translated "ブラックコインバージョン");
  msg [line 1]
    "Usage:"
    (Translated "使用法:");
  msg [line 1]
    "Send command to -server or MotaCoind"
    (Translated "-server か MotaCoindへコマンドを送る。");
  msg [line 1]
    "List commands"
    (Translated "コマンド一覧");
  msg [line 1]
    "Get help for a command"
    (Translated "コマンドのヘルプ");
  msg [line 2]
    "Options:"
    (Translated "オプション:");
  msg [line 2]
    "Specify configuration file (default: MotaCoin.conf)"
    (Translated "設定ファイルを特定する (デファルト: MotaCoin.conf)");
  msg [line 1]
    "Specify pid file (default: MotaCoind.pid)"
    (Translated "pid ファイルを特定する (デフォルト: MotaCoind.pid)");
  msg [line 2]
    "Specify wallet file (within data directory)"
    (Translated (join ["ウォレットのファイルを指定"; U3000; "(データ・ディレクトリの中に)"]));
  msg [line (-1)]
    "Specify data directory"
    (Translated "データ ディレクトリの指定");
  msg [line 2]
    "Set database cache size in megabytes (default: 25)"
    (Translated "データベースのキャッシュサイズをメガバイトで設定 (初期値: 25)");
  msg [line 1]
    "Set database disk log size in megabytes (default: 100)"
    (Translated "メガバイトでのデータベースのログザイズの大きさの設定(デファルト：100)");
  msg [line 6]
    "Listen for connections on &lt;port&gt; (default: 15714 or testnet: 25714)"
    (Translated "&lt;port&gt; で 接続をリスン (デフォルト: 15714かtestnet は 25714)");
  msg [line 1]
    "Maintain at most &lt;n&gt; connections to peers (default: 125)"
    (Translated "ピアの最大接続数 (初期値: 125)");
  msg [line 3]
    "Connect to a node to retrieve peer addresses, and disconnect"
    (Translated "ピア アドレスを取得するためにノードに接続し、そして切断します");
  msg [line 1]
    "Specify your own public address"
    (Translated "あなた自身のパブリックなアドレスを指定");
  msg [line 5]
    "Bind to given address. Use [host]:port notation for IPv6"
    (Translated "アドレスに結ぶ。IPv6のばい、[host]:port 表記法を使ってください。");
  msg [line 2]
    "Stake your coins to support network and gain reward (default: 1)"
    (Translated "褒奨金をもらうためと、ブラックコインネットワークをサッポートするために、コインを賭ける(デファルト：1)");
  msg [line 5]
    "Threshold for disconnecting misbehaving peers (default: 100)"
    (Translated "不正なピアを切断するためのしきい値 (初期値: 100)");
  msg [line 1]
    "Number of seconds to keep misbehaving peers from reconnecting (default: 86400)"
    (Translated "不正なピアを再接続するまでの秒数 (初期値: 86400)");
  msg [line (-44)]
    "An error occurred while setting up the RPC port %u for listening on IPv4: %s"
    (Translated "IPv4 でリスンする RPC ポート %u の設定中にエラーが発生しました: %s");
  msg [line 51]
    "Detach block and address databases. Increases shutdown time (default: 0)"
    (Translated "ブロックとアドレスのデータベースを切り離す。この設定はシャットダウンの時間を伸ばさせます。(デファルト：0)");
  msg [line 109]
    "Error: The transaction was rejected.  This might happen if some of the coins in your wallet were already spent, such as if you used a copy of wallet.dat and coins were spent in the copy but not marked as spent here."
    (Translated "エラー：処理は拒否されました。ウォレットのコインをすでに費やした可能性で、wallet.datのコピーで費やしたが、現行のwallet.datとはアップデートされていない。");
  msg [line (-5)]
    "Error: This transaction requires a transaction fee of at least %s because of its amount, complexity, or use of recently received funds  "
    (Translated "エラー：額,複雑,最近もらった資金、どれかの理由で処理は少なくとも %sの料金が必要です。");
  msg [line (-87)]
    "Listen for JSON-RPC connections on &lt;port&gt; (default: 15715 or testnet: 25715)"
    (Translated "&lt;port&gt; で JSON-RPC 接続をリスン (デフォルト: 15715かtestnet は 25715)");
  msg [line (-11)]
    "Accept command line and JSON-RPC commands"
    (Translated "コマンドラインと JSON-RPC コマンドを許可");
  msg [line 101]
    "Error: Transaction creation failed  "
    (Translated "エラー：処理を失敗しました。");
  msg [line (-5)]
    "Error: Wallet locked, unable to create transaction  "
    (Translated "エラー：ウォレットはロックされたために、処理を作られなかった。");
  msg [line (-8)]
    "Importing blockchain data file."
    (Translated "ブロックチェインのファイルを読み込んでいる。")
].

Definition ja_bitcoin_core_2 : list message := [
  msg [line 1]
    "Importing bootstrap blockchain data file."
    (Translated "ブートストラップなブロックチェインのファイルを読み込んでいる。");
  msg [line (-88)]
    "Run in the background as a daemon and accept commands"
    (Translated "デーモンとしてバックグランドで実行しコマンドを許可");
  msg [line 1]
    "Use the test network"
    (Translated "テストのためのネットワークを使用");
  msg [line (-24)]
    "Accept connections from outside (default: 1 if no -proxy or -connect)"
    (Translated "外部からの接続を許可 (初期値:  -proxy または -connect を使用していない場合は1)");
  msg [line (-38)]
    "An error occurred while setting up the RPC port %u for listening on IPv6, falling back to IPv4: %s"
    (Translated "IPv6 でリスンする RPC ポート %u の設定中にエラーが発生したので IPv4 に切り替えます: %s");
  msg [line 117]
    "Error initializing database environment %s! To recover, BACKUP THAT DIRECTORY, then remove everything from it except for wallet.dat."
    (Translated "データベース%sを初期化するにエラーになりました。直すためにディレクトリをバックアップして、そしてwallet.dat意外のファイルを取り除いてください。");
  msg [line (-20)]
    "Set maximum size of high-priority/low-fee transactions in bytes (default: 27000)"
    (Translated "バイトで、最優先、低料金の処理の最大サイズの設定(デファルト：27000)");
  msg [line 11]
    "Warning: -paytxfee is set very high! This is the transaction fee you will pay if you send a transaction."
    (Translated "警告: -paytxfee が非常に高く設定されています! これは処理を送信する場合に支払う取引手数料です。");
  msg [line 61]
    "Warning: Please check that your computer&apos;s date and time are correct! If your clock is wrong MotaCoin will not work properly."
    (Translated (join [U00A0; "警告：コンピュータの日付と時間を調べてください。時間ずらしかったばい、ブラックコイン QTは正しく行動しない。"]));
  msg [line (-31)]
    "Warning: error reading wallet.dat! All keys read correctly, but transaction data or address book entries might be missing or incorrect."
    (Translated "警告: wallet.dat の読み込みエラー! すべてのキーは正しく読み取れますが、処理のデータやアドレス帳のエントリが失われたか、正しくない可能性があります。");
  msg [line (-18)]
    "Warning: wallet.dat corrupt, data salvaged! Original wallet.dat saved as wallet.{timestamp}.bak in %s; if your balance or transactions are incorrect you should restore from a backup."
    (Translated "警告: wallet.dat のデータはの汚染で、でデータを復旧しました！ オリジナルの wallet.dat は wallet.{timestamp}.bak として %s に保存されました; もしもあなたの残高や処理が正しくないばい、バックアップから復元してください。");
  msg [line (-30)]
    "Attempt to recover private keys from a corrupt wallet.dat"
    (Translated "壊れた wallet.dat から秘密鍵を復旧することを試す");
  msg [line 4]
    "Block creation options:"
    (Translated "ブロック作成オプション:");
  msg [line (-62)]
    "Connect only to the specified node(s)"
    (Translated "指定したノードだけに接続");
  msg [line 4]
    "Discover own IP address (default: 1 when listening and no -externalip)"
    (Translated "自分の IP アドレスを発見 (初期値:  リスン中と -externalip を使用していない場合は1)");
  msg [line 94]
    "Failed to listen on any port. Use -listen=0 if you want this."
    (Translated "ポートのリスンに失敗しました。必要であれば -listen=0 を使用してください。");
  msg [line (-90)]
    "Find peers using DNS lookup (default: 1)"
    (Translated "DNSルックアップでピーアを探す(デファルト：1)");
  msg [line 5]
    "Sync checkpoints policy (default: strict)"
    (Translated "同期チェックポイント方針(デファルト：厳しい)");
  msg [line 83]
    "Invalid -tor address: &apos;%s&apos;"
    (Translated "無効なTORアドレス: &apos;%s&apos;");
  msg [line 4]
    "Invalid amount for -reservebalance=&lt;amount&gt;"
    (Translated "-reservebalance=&lt;amount&gt;の額は無効です");
  msg [line (-82)]
    "Maximum per-connection receive buffer, &lt;n&gt;*1000 bytes (default: 5000)"
    (Translated "接続毎の最大受信バッファ &lt;n&gt;*1000 バイト (初期値: 5000)");
  msg [line 1]
    "Maximum per-connection send buffer, &lt;n&gt;*1000 bytes (default: 1000)"
    (Translated "接続毎の最大送信バッファ &lt;n&gt;*1000 バイト (初期値: 1000)");
  msg [line (-16)]
    "Only connect to nodes in network &lt;net&gt; (IPv4, IPv6 or Tor)"
    (Translated "&lt;net&gt; (IPv4, IPv6, Tor) ネットワーク内のノードだけに接続する");
  msg [line 28]
    "Output extra debugging information. Implies all other -debug* options"
    (Translated "余分なデバッグ情報を出力する。この設定はすべてのdebug* の設定を有効にする。");
  msg [line 1]
    "Output extra network debugging information"
    (Translated "余分なネットワークのデバッグ情報を出力する");
  msg [line 1]
    "Prepend debug output with timestamp"
    (Translated "デバッグのアウトプットはタイムスタンプで先頭に追加する");
  msg [line 35]
    "SSL options: (see the Bitcoin Wiki for SSL setup instructions)"
    (Translated "SSL オプション: (SSLのセットアップ手順は Bitcoin Wiki をご覧下さい)");
  msg [line (-74)]
    "Select the version of socks proxy to use (4-5, default: 5)"
    (Translated "SOCKSプロクシーのバージョンを選択する (4-5、 デファルト: 5)");
  msg [line 41]
    "Send trace/debug info to console instead of debug.log file"
    (Translated "トレース/デバッグ情報を debug.log ファイルの代わりにコンソールへ送る")
].

Definition ja_bitcoin_core_3 : list message := [
  msg [line 1]
    "Send trace/debug info to debugger"
    (Translated "デバッガへ追跡とデバッグ情報を送る。");
  msg [line 28]
    "Set maximum block size in bytes (default: 250000)"
    (Translated "最大ブロックサイズをバイトで設定 (初期値: 250000)");
  msg [line (-1)]
    "Set minimum block size in bytes (default: 0)"
    (Translated "最小ブロックサイズをバイトで設定 (初期値: 0)");
  msg [line (-29)]
    "Shrink debug.log file on client startup (default: 1 when no -debug)"
    (Translated "クライアント起動時に debug.log ファイルを縮小 (初期値: -debug オプションを指定しない場合は1)");
  msg [line (-42)]
    "Specify connection timeout in milliseconds (default: 5000)"
    (Translated "接続のタイムアウトをミリセコンドで指定 (初期値: 5000)");
  msg [line 109]
    "Unable to sign checkpoint, wrong checkpointkey?
"
    (Translated "チェックポイントを署名できません。checkpointkeyは違いますか。
");
  msg [line (-80)]
    "Use UPnP to map the listening port (default: 0)"
    (Translated "リスン ポートの割当に UPnP を使用 (初期値: 0)");
  msg [line (-1)]
    "Use UPnP to map the listening port (default: 1 when listening)"
    (Translated "リスン ポートの割当に UPnP を使用 (初期値: リスン中は1)");
  msg [line (-25)]
    "Use proxy to reach tor hidden services (default: same as -proxy)"
    (Translated "プロクシーでTORヒドゥンサービス(TOR Hidden Services)を接続する(デファルト：-proxyと同じ)");
  msg [line 42]
    "Username for JSON-RPC connections"
    (Translated "JSON-RPC 接続のユーザー名");
  msg [line 47]
    "Verifying database integrity..."
    (Translated "データベースの保全性を確認最中...");
  msg [line 57]
    "WARNING: syncronized checkpoint violation detected, but skipped!"
    (Translated "警告：シンクロナイズドチェックポイント違反を検出したが、チェックポイントを飛ばした。");
  msg [line 1]
    "Warning: Disk space is low!"
    (Translated "警告：ディスクの空き領域は少ない！");
  msg [line (-2)]
    "Warning: This version is obsolete, upgrade required!"
    (Translated "警告: このバージョンは古いのでアップグレードが必要です!");
  msg [line (-48)]
    "wallet.dat corrupt, salvage failed"
    (Translated "wallet.dat が壊れ、復旧に失敗しました");
  msg [line (-54)]
    "Password for JSON-RPC connections"
    (Translated "JSON-RPC 接続のパスワード");
  msg [line (-84)]
    "%s, you must set a rpcpassword in the configuration file:
 %s
It is recommended you use the following random password:
rpcuser=MotaCoinrpc
rpcpassword=%s
(you do not need to remember this password)
The username and password MUST NOT be the same.
If the file does not exist, create it with owner-readable-only file permissions.
It is also recommended to set alertnotify so you are notified of problems;
for example: alertnotify=echo %%s | mail -s &quot;MotaCoin Alert&quot; admin@foo.com
"
    (Translated "%s, 設定ファイル：%sでrpcpasswordのパスワードを入力しなければならい

このランダムパスワードのおすすめです：
rpcuser=MotaCoinrpc
rpcpassword=%s
(このパサワードを覚えなくても大丈夫です)
ユーザ名とパスワードは同じであってはなりません。
ファイルは存在しないばいは、所有者が読み取り可能な専用のファイルを作成してください。
問題のことを知らせるために、alertnotifyの設定を有効にしたほうがいいです。
例：alertnotify=echo %%s | mail -s &quot;ブラックコイン警告&quot; admin@foo.com
");
  msg [line 51]
    "Find peers using internet relay chat (default: 0)"
    (Translated "インターネットリレーチャット(IRC)でピアアを探す。(デファルト:1 {0}?)");
  msg [line 5]
    "Sync time with other nodes. Disable if time on your system is precise e.g. syncing with NTP (default: 1)"
    (Translated "他のノードと時刻の同期する。確な時刻のコンピューターのばい、無効する。例：NTP同期設定有効ある(デファルト：1)");
  msg [line 15]
    "When creating transactions, ignore inputs with value less than this (default: 0.01)"
    (Translated "処理を作ると、この額より少ない数字を無視する (デファルト：0.01)");
  msg [line 16]
    "Allow JSON-RPC connections from specified IP address"
    (Translated "指定した IP アドレスからの JSON-RPC 接続を許可");
  msg [line 1]
    "Send commands to node running on &lt;ip&gt; (default: 127.0.0.1)"
    (Translated "&lt;ip&gt; (初期値: 127.0.0.1) で実行中のノードにコマンドを送信");
  msg [line 1]
    "Execute command when the best block changes (%s in cmd is replaced by block hash)"
    (Translated "最良のブロックに変更する際にコマンドを実行 (cmd の %s はブロック ハッシュに置換される)");
  msg [line 3]
    "Execute command when a wallet transaction changes (%s in cmd is replaced by TxID)"
    (Translated "ウォレットの処理を変更する際にコマンドを実行 (cmd の %s は TxID に置換される)");
  msg [line 3]
    "Require a confirmations for change (default: 0)"
    (Translated "変更するために、確認を必要とする (デファルト：0)")
].

Definition ja_bitcoin_core_4 : list message := [
  msg [line 1]
    "Enforce transaction scripts to use canonical PUSH operators (default: 1)"
    (Translated "処理のスクリプトコマンドで標準的なPUSHオペレータを施行する(デファルト：1)");
  msg [line 2]
    "Execute command when a relevant alert is received (%s in cmd is replaced by message)"
    (Translated "関連した警告をもらったら、コマンドを実行する (cmdの中で%sにメッセージを交換される)");
  msg [line 3]
    "Upgrade wallet to latest format"
    (Translated "ウォレットを最新のフォーマットにアップグレード");
  msg [line 1]
    "Set key pool size to &lt;n&gt; (default: 100)"
    (Translated "key pool のサイズを &lt;n&gt; (初期値: 100) にセット");
  msg [line 1]
    "Rescan the block chain for missing wallet transactions"
    (Translated "失ったウォレットの処理のブロック チェーンを再スキャン");
  msg [line 2]
    "How many blocks to check at startup (default: 2500, 0 = all)"
    (Translated (join ["スタートのときに、いくつのブロックを調べます"; U3000; "(デファルト：2500、 0 = すべて )"]));
  msg [line 1]
    "How thorough the block verification is (0-6, default: 1)"
    (Translated (join ["ブロック検証の徹底の程度"; U3000; "(0-6 、デファルト：1)"]));
  msg [line 1]
    "Imports blocks from external blk000?.dat file"
    (Translated "外部 blk000?.dat ファイルからブロックを読み込む。");
  msg [line 8]
    "Use OpenSSL (https) for JSON-RPC connections"
    (Translated "JSON-RPC 接続に OpenSSL (https) を使用");
  msg [line 1]
    "Server certificate file (default: server.cert)"
    (Translated "サーバ証明書ファイル (初期値: server.cert)");
  msg [line 1]
    "Server private key (default: server.pem)"
    (Translated "サーバの秘密鍵 (初期値: server.pem)");
  msg [line 1]
    "Acceptable ciphers (default: TLSv1+HIGH:!SSLv2:!aNULL:!eNULL:!AH:!3DES:@STRENGTH)"
    (Translated "許容可能な暗号 (デフォルト： TLSv1+HIGH:!SSLv2:!aNULL:!eNULL:!AH:!3DES:@STRENGTH)");
  msg [line 53]
    "Error: Wallet unlocked for staking only, unable to create transaction."
    (Translated "エラー：アンロックされたウォレットは賭けるためだけで、処理を作られない。");
  msg [line 18]
    "WARNING: Invalid checkpoint found! Displayed transactions may not be correct! You may need to upgrade, or notify developers."
    (Translated "警告：無効なチェックポイントを見つかりました！表示された処理は正しくない可能性がある！アップグレードするか、デベロッパーに報告する必要があります。");
  msg [line (-158)]
    "This help message"
    (Translated "このヘルプ メッセージ");
  msg [line 95]
    "Wallet %s resides outside data directory %s."
    (Translated "%sウォレットはディレクトリ%sの外にあります。");
  msg [line 1]
    "Cannot obtain a lock on data directory %s.  MotaCoin is probably already running."
    (Translated "%sディレクトリにをロックオンできない。ブラックコインQTは、もう発行してるでしょう。");
  msg [line (-98)]
    "MotaCoin"
    (Translated "ブラックコイン");
  msg [line 140]
    "Unable to bind to %s on this computer (bind returned error %d, %s)"
    (Translated "このコンピュータの %s にバインドすることができません (バインドが返したエラーは %d, %s)");
  msg [line (-130)]
    "Connect through socks proxy"
    (Translated "SOCKSプロキシで接続する");
  msg [line 3]
    "Allow DNS lookups for -addnode, -seednode and -connect"
    (Translated "-addnode, -seednode と -connect で DNS ルックアップを許可する");
  msg [line 122]
    "Loading addresses..."
    (Translated "アドレスを読み込んでいます...");
  msg [line (-15)]
    "Error loading blkindex.dat"
    (Translated "blkindex.dat 読み込みエラー");
  msg [line 2]
    "Error loading wallet.dat: Wallet corrupted"
    (Translated "wallet.dat 読み込みエラー: ウォレットが壊れました");
  msg [line 4]
    "Error loading wallet.dat: Wallet requires newer version of MotaCoin"
    (Translated (join ["wallet.dat 読み込みエラー: "; U3000; "ブラックコインQTの最新バージョンが必要です"]));
  msg [line 1]
    "Wallet needed to be rewritten: restart MotaCoin to complete"
    (Translated "ウォレットのデータをリライトしなければならい：ブラックコインQTをリスタートしてください");
  msg [line 1]
    "Error loading wallet.dat"
    (Translated "wallet.dat 読み込みエラー");
  msg [line (-16)]
    "Invalid -proxy address: &apos;%s&apos;"
    (Translated "無効な -proxy アドレス: &apos;%s&apos;");
  msg [line (-1)]
    "Unknown network specified in -onlynet: &apos;%s&apos;"
    (Translated "-onlynet で指定された &apos;%s&apos; は未知のネットワークです")
].

Definition ja_bitcoin_core_5 : list message := [
  msg [line (-1)]
    "Unknown -socks proxy version requested: %i"
    (Translated "-socks で指定された %i は未知のバージョンです");
  msg [line 4]
    "Cannot resolve -bind address: &apos;%s&apos;"
    (Translated "-bind のアドレス &apos;%s&apos; を解決できません");
  msg [line 2]
    "Cannot resolve -externalip address: &apos;%s&apos;"
    (Translated "-externalip のアドレス &apos;%s&apos; を解決できません");
  msg [line (-24)]
    "Invalid amount for -paytxfee=&lt;amount&gt;: &apos;%s&apos;"
    (Translated "-paytxfee=&lt;amount&gt; の額 &apos;%s&apos; が無効です");
  msg [line 44]
    "Error: could not start node"
    (Translated "エラー：ノードの開始ができなった");
  msg [line 11]
    "Sending..."
    (Translated "通信中...");
  msg [line 5]
    "Invalid amount"
    (Translated "無効な総額");
  msg [line 1]
    "Insufficient funds"
    (Translated "残高不足");
  msg [line (-34)]
    "Loading block index..."
    (Translated "ブロック インデックスを読み込んでいます...");
  msg [line (-103)]
    "Add a node to connect to and attempt to keep the connection open"
    (Translated "接続するノードを追加し接続を持続するように試します");
  msg [line 122]
    "Unable to bind to %s on this computer. MotaCoin is probably already running."
    (Translated "このコンピューターで%sに結ぶことができなかった。ブラックコインQTは、もう発行してるでしょう。");
  msg [line (-97)]
    "Fee per KB to add to transactions you send"
    (Translated "送る処理を足して、KBあたりの料金");
  msg [line 55]
    "Invalid amount for -mininput=&lt;amount&gt;: &apos;%s&apos;"
    (Translated "-mininput=&lt;amount&gt;: &apos;%s&apos;の額は無効です");
  msg [line 25]
    "Loading wallet..."
    (Translated "ウォレットを読み込んでいます...");
  msg [line 8]
    "Cannot downgrade wallet"
    (Translated "ウォレットのダウングレードはできません");
  msg [line 1]
    "Cannot initialize keypool"
    (Translated "キースペースをイニシャライズをする");
  msg [line 1]
    "Cannot write default address"
    (Translated "初期値のアドレスを書き込むことができません");
  msg [line 1]
    "Rescanning..."
    (Translated "再スキャン中...");
  msg [line 5]
    "Done loading"
    (Translated "読み込み完了");
  msg [line (-167)]
    "To use the %s option"
    (Translated "%s オプションを使うには");
  msg [line 14]
    "Error"
    (Translated "エラー");
  msg [line 6]
    "You must set rpcpassword=&lt;password&gt; in the configuration file:
%s
If the file does not exist, create it with owner-readable-only file permissions."
    (Translated "rpcpassword=&lt;password&gt; を設定ファイルでセットしてください:
%s
ファイルが無い場合は、オーナーだけが読み取れる権限でファイルを作成してください。")
].

Definition ja_bitcoin_core : context := mkContext "bitcoin-core"
  (ja_bitcoin_core_1 ++ ja_bitcoin_core_2 ++ ja_bitcoin_core_3 ++ ja_bitcoin_core_4 ++ ja_bitcoin_core_5).

Definition bitcoin_ja : TS := mkTS "ja" "2.1" [
  ja_AboutDialog;
  ja_AddressBookPage;
  ja_AddressTableModel;
  ja_AskPassphraseDialog;
  ja_BitcoinGUI;
  ja_ClientModel;
  ja_CoinControlDialog;
  ja_EditAddressDialog;
  ja_GUIUtil_HelpMessageBox;
  ja_OptionsDialog;
  ja_OverviewPage;
  ja_QRCodeDialog;
  ja_RPCConsole;
  ja_SendCoinsDialog;
  ja_SendCoinsEntry;
  ja_SignVerifyMessageDialog;
  ja_TransactionDesc;
  ja_TransactionDescDialog;
  ja_TransactionTableModel;
  ja_TransactionView;
  ja_WalletModel;
  ja_bitcoin_core
].
