(* ===== verification/CatalogueZhCN.v ===== *)
(** * The simplified Chinese catalogue (qt/locale/bitcoin_zh_CN.ts)

    The file entry by entry, one definition for each context; long contexts are
    split into parts. *)

From S2P Require Import Prelude Catalogue.

Definition zh_AboutDialog : context := mkContext "AboutDialog" [
  msg [in_file "../forms/aboutdialog.ui" 14]
    "About MotaCoin"
    (Translated "关于黑币");
  msg [line 39]
    "&lt;b&gt;MotaCoin&lt;/b&gt; version"
    (Translated "黑币客户端 版本");
  msg [line 41]
    "Copyright © 2009-14 The Bitcoin developers
Copyright © 2012-14 The NovaCoin developers
Copyright © 2014-20 The MotaCoin developers"
    (Translated "版权所有 © 2009-14 比特币Bitcoin开发组
版权所有 © 2012-14 新星币Novacoin开发组
版权所有 © 2014 黑币MotaCoin开发组");
  msg [line 15]
    "
This is experimental software.

Distributed under the MIT/X11 software license, see the accompanying file COPYING or http://www.opensource.org/licenses/mit-license.php.

This product includes software developed by the OpenSSL Project for use in the OpenSSL Toolkit (http://www.openssl.org/) and cryptographic software written by Eric Young (eay@cryptsoft.com) and UPnP software written by Thomas Bernard."
    (Translated "
测试版软件

经MIT/X11软件授权发布, 具体参见http://www.opensource.org/licenses/mit-license.php.

本产品包括由OpenSSL Project (http://www.openssl.org/)开发的OpenSSL工具包 ，由 Eric Young (eay@cryptsoft.com) 撰写的密码学软件以及由 Thomas Bernard 撰写的UPnP软件.")
].

Definition zh_AddressBookPage : context := mkContext "AddressBookPage" [
  msg [in_file "../forms/addressbookpage.ui" 14]
    "Address Book"
    (Translated "地址簿");
  msg [line 22]
    "Double-click to edit address or label"
    (Translated "双击编辑地址或标签");
  msg [line 27]
    "Create a new address"
    (Translated "创建新地址");
  msg [line 14]
    "Copy the currently selected address to the system clipboard"
    (Translated "复制当前选中的地址到系统剪贴板");
  msg [line (-11)]
    "&amp;New"
    (Translated "新建地址(&amp;N)");
  msg [line (-46)]
    "These are your MotaCoin addresses for receiving payments. You may want to give a different one to each sender so you can keep track of who is paying you."
    (Translated "这是您用来接收支付的黑币地址列表。为不同的支付方建立不同的地址以便于了解支付来源。");
  msg [line 60]
    "&amp;Copy Address"
    (Translated "复制地址(&amp;C)");
  msg [line 11]
    "Show &amp;QR Code"
    (Translated "显示二维码(&amp;Q)");
  msg [line 11]
    "Sign a message to prove you own a MotaCoin address"
    (Translated "对信息进行签名以证明您对该黑币地址的所有权");
  msg [line 3]
    "Sign &amp;Message"
    (Translated "签名(&amp;M)");
  msg [line 25]
    "Delete the currently selected address from the list"
    (Translated "从列表中删除选中的地址");
  msg [line (-14)]
    "Verify a message to ensure it was signed with a specified MotaCoin address"
    (Translated "验证信息以保证其经过指定黑币地址的签名");
  msg [line 3]
    "&amp;Verify Message"
    (Translated "验证消息(&amp;V)");
  msg [line 14]
    "&amp;Delete"
    (Translated "删除(&amp;D)");
  msg [in_file "../addressbookpage.cpp" 65]
    "Copy &amp;Label"
    (Translated "复制标签(&amp;L)");
  msg [line 2]
    "&amp;Edit"
    (Translated "编辑(&amp;E)");
  msg [line 250]
    "Export Address Book Data"
    (Translated "导出地址簿数据");
  msg [line 1]
    "Comma separated file (*.csv)"
    (Translated "逗号分隔文件 (*.csv)");
  msg [line 13]
    "Error exporting"
    (Translated "导出时发生错误");
  msg [line 0]
    "Could not write to file %1."
    (Translated "无法写入文件 %1 。")
].

Definition zh_AddressTableModel : context := mkContext "AddressTableModel" [
  msg [in_file "../addresstablemodel.cpp" 144]
    "Label"
    (Translated "标签");
  msg [line 0]
    "Address"
    (Translated "地址");
  msg [line 36]
    "(no label)"
    (Translated "(没有标签)")
].

Definition zh_AskPassphraseDialog : context := mkContext "AskPassphraseDialog" [
  msg [in_file "../forms/askpassphrasedialog.ui" 26]
    "Passphrase Dialog"
    (Translated "密码对话框");
  msg [line 21]
    "Enter passphrase"
    (Translated "输入密码");
  msg [line 14]
    "New passphrase"
    (Translated "新密码");
  msg [line 14]
    "Repeat new passphrase"
    (Translated "重复新密码");
  msg [line 33]
    "Serves to disable the trivial sendmoney when OS account compromised. Provides no real security."
    (Translated "在系统允许的情况下用于防止sendmoney欺诈，并未提供真正的安全防护措施。");
  msg [line 3]
    "For staking only"
    (Translated "仅用于权益增值");
  msg [in_file "../askpassphrasedialog.cpp" 35]
    "Enter the new passphrase to the wallet.&lt;br/&gt;Please use a passphrase of &lt;b&gt;10 or more random characters&lt;/b&gt;, or &lt;b&gt;eight or more words&lt;/b&gt;."
    (Translated "输入钱包的新密码。&lt;br/&gt;使用的密码请至少包含&lt;b&gt;10个以上随机字符&lt;/&gt;，或者是&lt;b&gt;8个以上的单词&lt;/b&gt;。");
  msg [line 1]
    "Encrypt wallet"
    (Translated "加密钱包");
  msg [line 7]
    "This operation needs your wallet passphrase to unlock the wallet."
    (Translated "此操作需要您首先使用密码解锁该钱包。");
  msg [line 5]
    "Unlock wallet"
    (Translated "解锁钱包");
  msg [line 3]
    "This operation needs your wallet passphrase to decrypt the wallet."
    (Translated "该操作需要您首先使用密码解密钱包。");
  msg [line 5]
    "Decrypt wallet"
    (Translated "解密钱包");
  msg [line 3]
    "Change passphrase"
    (Translated "更改密码");
  msg [line 1]
    "Enter the old and new passphrase to the wallet."
    (Translated "请输入该钱包的旧密码与新密码。");
  msg [line 46]
    "Confirm wallet encryption"
    (Translated "确认加密钱包");
  msg [line 1]
    "Warning: If you encrypt your wallet and lose your passphrase, you will &lt;b&gt;LOSE ALL OF YOUR COINS&lt;/b&gt;!"
    (Translated "警告：如果您丢失了加密该钱包的密码，其中所有的黑币将会丢失！");
  msg [line 0]
    "Are you sure you wish to encrypt your wallet?"
    (Translated "您确定需要为钱包加密吗？");
  msg [line 15]
    "IMPORTANT: Any previous backups you have made of your wallet file should be replaced with the newly generated, encrypted wallet file. For security reasons, previous backups of the unencrypted wallet file will become useless as soon as you start using the new, encrypted wallet."
    (Translated "重要提示：您以前备份的钱包文件应该替换成最新生成的加密钱包文件（重新备份）。从安全性上考虑，您以前备份的未加密的钱包文件，在您使用新的加密钱包后将无效，请重新备份。");
  msg [line 103; line 24]
    "Warning: The Caps Lock key is on!"
    (Translated "警告：大写锁定键处于打开状态！");
  msg [line (-133); line 60]
    "Wallet encrypted"
    (Translated "钱包已加密");
  msg [line (-58)]
    "MotaCoin will close now to finish the encryption process. Remember that encrypting your wallet cannot fully protect your coins from being stolen by malware infecting your computer."
    (Translated "黑币客户端即将关闭以完成加密过程。请记住，加密钱包并不能完全防止您的电子货币被入侵您计算机的木马软件盗窃。");
  msg [line 13; line 7; line 44; line 6]
    "Wallet encryption failed"
    (Translated "钱包加密失败");
  msg [line (-56)]
    "Wallet encryption failed due to an internal error. Your wallet was not encrypted."
    (Translated "由于一个本地错误，加密钱包的操作已经失败。您的钱包没能被加密。");
  msg [line 7; line 50]
    "The supplied passphrases do not match."
    (Translated "密码不匹配。");
  msg [line (-38)]
    "Wallet unlock failed"
    (Translated "钱包解锁失败");
  msg [line 1; line 12; line 19]
    "The passphrase entered for the wallet decryption was incorrect."
    (Translated "用于解密钱包的密码不正确。");
  msg [line (-20)]
    "Wallet decryption failed"
    (Translated "钱包解密失败。");
  msg [line 14]
    "Wallet passphrase was successfully changed."
    (Translated "修改钱包密码成功。")
].

Definition zh_BitcoinGUI_1 : list message := [
  msg [in_file "../bitcoingui.cpp" 282]
    "Sign &amp;message..."
    (Translated "消息签名(&amp;M)...");
  msg [line 251]
    "Synchronizing with network..."
    (Translated "正在与网络同步...");
  msg [line (-319)]
    "&amp;Overview"
    (Translated "概况(&amp;O)");
  msg [line 1]
    "Show general overview of wallet"
    (Translated "显示钱包概况");
  msg [line 17]
    "&amp;Transactions"
    (Translated "交易记录(&amp;T)");
  msg [line 1]
    "Browse transaction history"
    (Translated "查看交易历史");
  msg [line 5]
    "&amp;Address Book"
    (Translated "地址簿(&amp;A)");
  msg [line 1]
    "Edit the list of stored addresses and labels"
    (Translated "管理已储存的地址和标签");
  msg [line (-13)]
    "&amp;Receive coins"
    (Translated "接收黑币(&amp;R)");
  msg [line 1]
    "Show the list of addresses for receiving payments"
    (Translated "显示用于接收支付的地址列表");
  msg [line (-7)]
    "&amp;Send coins"
    (Translated "发送货币(&amp;S)");
  msg [line 35]
    "E&amp;xit"
    (Translated "退出(&amp;X)");
  msg [line 1]
    "Quit application"
    (Translated "退出程序");
  msg [line 6]
    "Show information about MotaCoin"
    (Translated "显示关于黑币的信息");
  msg [line 2]
    "About &amp;Qt"
    (Translated "关于 &amp;Qt");
  msg [line 1]
    "Show information about Qt"
    (Translated "显示 Qt 相关信息");
  msg [line 2]
    "&amp;Options..."
    (Translated "选项(&amp;O)...");
  msg [line 4]
    "&amp;Encrypt Wallet..."
    (Translated "加密钱包(&amp;E)...");
  msg [line 3]
    "&amp;Backup Wallet..."
    (Translated "备份钱包(&amp;B)...");
  msg [line 2]
    "&amp;Change Passphrase..."
    (Translated "更改密码(&amp;C)...");
  nmsg [line 259]
    "~%n block(s) remaining"
    (Forms ["~%n 个区块未完成"]);
  msg [line 6]
    "Downloaded %1 of %2 blocks of transaction history (%3% done)."
    (Translated "交易记录已下载%3% (%1 / %2 个区块)");
  msg [line (-256)]
    "&amp;Export..."
    (Translated "导出(&amp;E)");
  msg [line (-64)]
    "Send coins to a MotaCoin address"
    (Translated "向指定的地址发送黑币");
  msg [line 47]
    "Modify configuration options for MotaCoin"
    (Translated "更改设置选项");
  msg [line 18]
    "Export the data in the current tab to a file"
    (Translated "导出当前标签页的数据");
  msg [line (-14)]
    "Encrypt or decrypt wallet"
    (Translated "加密/解密钱包");
  msg [line 3]
    "Backup wallet to another location"
    (Translated "备份钱包到其他文件夹");
  msg [line 2]
    "Change the passphrase used for wallet encryption"
    (Translated "更改钱包加密口令")
].

Definition zh_BitcoinGUI_2 : list message := [
  msg [line 10]
    "&amp;Debug window"
    (Translated "调试窗口(&amp;D)");
  msg [line 1]
    "Open debugging and diagnostic console"
    (Translated "打开调试和诊断控制台");
  msg [line (-5)]
    "&amp;Verify message..."
    (Translated "验证消息(&amp;V)...");
  msg [line (-202)]
    "MotaCoin"
    (Translated "黑币");
  msg [line 0]
    "Wallet"
    (Translated "钱包");
  msg [line 180]
    "&amp;About MotaCoin"
    (Translated "关于黑币(&amp;A)");
  msg [line 9]
    "&amp;Show / Hide"
    (Translated "显示 / 隐藏(&amp;S)");
  msg [line 9]
    "Unlock wallet"
    (Translated "解锁钱包");
  msg [line 1]
    "&amp;Lock Wallet"
    (Translated "锁定钱包(&amp;L)");
  msg [line 1]
    "Lock wallet"
    (Translated "锁定钱包");
  msg [line 35]
    "&amp;File"
    (Translated "文件(&amp;F)");
  msg [line 8]
    "&amp;Settings"
    (Translated "设置(&amp;S)");
  msg [line 8]
    "&amp;Help"
    (Translated "帮助(&amp;H)");
  msg [line 12]
    "Tabs toolbar"
    (Translated "分页工具栏");
  msg [line 8]
    "Actions toolbar"
    (Translated "工具栏");
  msg [line 13; line 9]
    "[testnet]"
    (Translated "[测试网络]");
  msg [line 0; line 60]
    "MotaCoin client"
    (Translated "黑币客户端");
  nmsg [line 75]
    "%n active connection(s) to MotaCoin network"
    (Forms ["与黑币网络建立了 %n 个连接"]);
  msg [line 40]
    "Downloaded %1 blocks of transaction history."
    (Translated "已下载 %1 个区块的交易记录");
  msg [line 413]
    "Staking.&lt;br&gt;Your weight is %1&lt;br&gt;Network weight is %2&lt;br&gt;Expected time to earn reward is %3"
    (Translated "权益增值中 &lt;br&gt;您的权重为 %1 &lt;br&gt;网络总权重为 %2&lt;br&gt;预计将在 %3 之后获得收益");
  msg [line 6]
    "Not staking because wallet is locked"
    (Translated "未进行权益增值，因为钱包已锁定");
  msg [line 2]
    "Not staking because wallet is offline"
    (Translated "未进行权益增值，因为钱包处于离线状态");
  msg [line 2]
    "Not staking because wallet is syncing"
    (Translated "未进行权益增值，因为钱包正在同步");
  msg [line 2]
    "Not staking because you don&apos;t have mature coins"
    (Translated "未进行权益增值，因为钱包中没有成熟的黑币");
  nmsg [line (-403)]
    "%n second(s) ago"
    (Forms ["%n 秒前"]);
  msg [line (-312)]
    "About MotaCoin card"
    (Translated "关于黑币卡");
  msg [line 1]
    "Show information about MotaCoin card"
    (Translated "显示关于黑币卡的信息");
  msg [line 18]
    "&amp;Unlock Wallet..."
    (Translated "解锁钱包(&amp;U)");
  nmsg [line 297]
    "%n minute(s) ago"
    (Forms ["%n 分钟前"])
].

Definition zh_BitcoinGUI_3 : list message := [
  nmsg [line 4]
    "%n hour(s) ago"
    (Forms ["%n 小时前"]);
  nmsg [line 4]
    "%n day(s) ago"
    (Forms ["%n 天前"]);
  msg [line 6]
    "Up to date"
    (Translated "已是最新");
  msg [line 7]
    "Catching up..."
    (Translated "更新中...");
  msg [line 10]
    "Last received block was generated %1."
    (Translated "最近生成的区块接收于%1");
  msg [line 59]
    "This transaction is over the size limit.  You can still send it for a fee of %1, which goes to the nodes that process your transaction and helps to support the network.  Do you want to pay the fee?"
    (Translated "该笔交易数据量太大，需支付%1手续费给执行该笔交易的网络结点。您愿意支付吗？");
  msg [line 5]
    "Confirm transaction fee"
    (Translated "手续费确认");
  msg [line 27]
    "Sent transaction"
    (Translated "发送交易");
  msg [line 1]
    "Incoming transaction"
    (Translated "流入交易");
  msg [line 1]
    "Date: %1
Amount: %2
Type: %3
Address: %4
"
    (Translated "日期: %1
金额: %2
类别: %3
地址: %4
");
  msg [line 100; line 15]
    "URI handling"
    (Translated "URI处理");
  msg [line (-15); line 15]
    "URI can not be parsed! This can be caused by an invalid MotaCoin address or malformed URI parameters."
    (Translated "无法解析URI：无效的黑币地址或错误的URI参数。");
  msg [line 18]
    "Wallet is &lt;b&gt;encrypted&lt;/b&gt; and currently &lt;b&gt;unlocked&lt;/b&gt;"
    (Translated "钱包已被&lt;b&gt;加密&lt;/b&gt;，当前为&lt;b&gt;解锁&lt;/b&gt;状态");
  msg [line 10]
    "Wallet is &lt;b&gt;encrypted&lt;/b&gt; and currently &lt;b&gt;locked&lt;/b&gt;"
    (Translated "钱包已被&lt;b&gt;加密&lt;/b&gt;，当前为&lt;b&gt;锁定&lt;/b&gt;状态");
  msg [line 25]
    "Backup Wallet"
    (Translated "备份钱包");
  msg [line 0]
    "Wallet Data (*.dat)"
    (Translated "钱包数据文件(*.dat)");
  msg [line 3]
    "Backup Failed"
    (Translated "备份失败");
  msg [line 0]
    "There was an error trying to save the wallet data to the new location."
    (Translated "试图将钱包地址保存到新位置时出现错误");
  nmsg [line 76]
    "%n second(s)"
    (Forms ["%n秒"]);
  nmsg [line 4]
    "%n minute(s)"
    (Forms ["%n 分钟"]);
  nmsg [line 4]
    "%n hour(s)"
    (Forms ["%n 小时"]);
  nmsg [line 4]
    "%n day(s)"
    (Forms ["%n 天"]);
  msg [line 18]
    "Not staking"
    (Translated "未进行权益增值");
  msg [in_file "../bitcoin.cpp" 109]
    "A fatal error occurred. MotaCoin can no longer continue safely and will quit."
    (Translated "发生严重错误，黑币客户端即将关闭。")
].

Definition zh_BitcoinGUI : context := mkContext "BitcoinGUI"
  (zh_BitcoinGUI_1 ++ zh_BitcoinGUI_2 ++ zh_BitcoinGUI_3).

Definition zh_ClientModel : context := mkContext "ClientModel" [
  msg [in_file "../clientmodel.cpp" 90]
    "Network Alert"
    (Translated "网络警报")
].

Definition zh_CoinControlDialog_1 : list message := [
  msg [in_file "../forms/coincontroldialog.ui" 14]
    "Coin Control"
    (Translated "黑币控制");
  msg [line 31]
    "Quantity:"
    (Translated "总量：");
  msg [line 32]
    "Bytes:"
    (Translated "字节：");
  msg [line 48]
    "Amount:"
    (Translated "金额：");
  msg [line 32]
    "Priority:"
    (Translated "优先级：");
  msg [line 48]
    "Fee:"
    (Translated "费用：");
  msg [line 35]
    "Low Output:"
    (Translated "低输出");
  msg [in_file "../coincontroldialog.cpp" 551]
    "no"
    (Translated "否");
  msg [in_file "../forms/coincontroldialog.ui" 51]
    "After Fee:"
    (Translated "加上交易费用后:");
  msg [line 35]
    "Change:"
    (Translated "变更 : ");
  msg [line 69]
    "(un)select all"
    (Translated "(不)全选");
  msg [line 13]
    "Tree mode"
    (Translated "树状模式");
  msg [line 16]
    "List mode"
    (Translated "列表模式");
  msg [line 45]
    "Amount"
    (Translated "金额");
  msg [line 5]
    "Label"
    (Translated "标签");
  msg [line 5]
    "Address"
    (Translated "地址");
  msg [line 5]
    "Date"
    (Translated "日期");
  msg [line 5]
    "Confirmations"
    (Translated "确认");
  msg [line 3]
    "Confirmed"
    (Translated "已确认");
  msg [line 5]
    "Priority"
    (Translated "优先级");
  msg [in_file "../coincontroldialog.cpp" (-515)]
    "Copy address"
    (Translated "复制地址");
  msg [line 1]
    "Copy label"
    (Translated "复制标签");
  msg [line 1; line 26]
    "Copy amount"
    (Translated "复制金额");
  msg [line (-25)]
    "Copy transaction ID"
    (Translated "复制交易编号");
  msg [line 24]
    "Copy quantity"
    (Translated "复制金额");
  msg [line 2]
    "Copy fee"
    (Translated "复制交易费");
  msg [line 1]
    "Copy after fee"
    (Translated "复制含交易费的金额");
  msg [line 1]
    "Copy bytes"
    (Translated "复制字节");
  msg [line 1]
    "Copy priority"
    (Translated "复制优先级")
].

Definition zh_CoinControlDialog_2 : list message := [
  msg [line 1]
    "Copy low output"
    (Translated "复制低输出");
  msg [line 1]
    "Copy change"
    (Translated "复制零钱");
  msg [line 317]
    "highest"
    (Translated "最高");
  msg [line 1]
    "high"
    (Translated "高");
  msg [line 1]
    "medium-high"
    (Translated "中高");
  msg [line 1]
    "medium"
    (Translated "中等");
  msg [line 4]
    "low-medium"
    (Translated "中低");
  msg [line 1]
    "low"
    (Translated "低");
  msg [line 1]
    "lowest"
    (Translated "最低");
  msg [line 155]
    "DUST"
    (Translated "DUST");
  msg [line 0]
    "yes"
    (Translated "是");
  msg [line 10]
    "This label turns red, if the transaction size is bigger than 10000 bytes.

 This means a fee of at least %1 per kb is required.

 Can vary +/- 1 Byte per input."
    (Translated "交易数据量超过10000字节时，该标签变为红色。
此时每kb数据量将会收取 %1 的手续费。
可能有+/-1字节的误差。");
  msg [line 1]
    "Transactions with higher priority get more likely into a block.

This label turns red, if the priority is smaller than &quot;medium&quot;.

 This means a fee of at least %1 per kb is required."
    (Translated "优先度较高的交易有更高可能进入到区块中。
当优先度为中级以下时，该标签变为红色。
此时需要收取每kb %1 的手续费。");
  msg [line 1]
    "This label turns red, if any recipient receives an amount smaller than %1.

 This means a fee of at least %2 is required. 

 Amounts below 0.546 times the minimum relay fee are shown as DUST."
    (Translated "如果收款人所收款项少于 %1，该标签变为红色。
此时需收取 %2 的手续费。
低于该手续费的0.546倍的款项将被显示为DUST。");
  msg [line 1]
    "This label turns red, if the change is smaller than %1.

 This means a fee of at least %2 is required."
    (Translated "如果零钱少于 %1，该标签变为红色。
此时需收取 %2 的手续费。");
  msg [line 37; line 66]
    "(no label)"
    (Translated "(没有标签)");
  msg [line (-9)]
    "change from %1 (%2)"
    (Translated "来自%1的零钱 (%2)");
  msg [line 1]
    "(change)"
    (Translated "(零钱)")
].

Definition zh_CoinControlDialog : context := mkContext "CoinControlDialog"
  (zh_CoinControlDialog_1 ++ zh_CoinControlDialog_2).

Definition zh_EditAddressDialog : context := mkContext "EditAddressDialog" [
  msg [in_file "../forms/editaddressdialog.ui" 14]
    "Edit Address"
    (Translated "编辑地址");
  msg [line 11]
    "&amp;Label"
    (Translated "标签(&amp;L)");
  msg [line 10]
    "The label associated with this address book entry"
    (Translated "地址簿内该项目对应的标签");
  msg [line 7]
    "&amp;Address"
    (Translated "地址(&amp;A)");
  msg [line 10]
    "The address associated with this address book entry. This can only be modified for sending addresses."
    (Translated "地址簿内该项目对应的地址。只有“收款人地址”分类下的地址可以修改。");
  msg [in_file "../editaddressdialog.cpp" 20]
    "New receiving address"
    (Translated "新建接收地址");
  msg [line 4]
    "New sending address"
    (Translated "新建发送地址");
  msg [line 3]
    "Edit receiving address"
    (Translated "编辑接收地址");
  msg [line 4]
    "Edit sending address"
    (Translated "编辑发送地址");
  msg [line 76]
    "The entered address &quot;%1&quot; is already in the address book."
    (Translated "输入的地址“%1”已经存在于地址簿中。");
  msg [line (-5)]
    "The entered address &quot;%1&quot; is not a valid MotaCoin address."
    (Translated "“%1” 不是有效的黑币地址。");
  msg [line 10]
    "Could not unlock wallet."
    (Translated "无法解锁钱包");
  msg [line 5]
    "New key generation failed."
    (Translated "新的密钥生成失败。")
].

Definition zh_GUIUtil_HelpMessageBox : context := mkContext "GUIUtil::HelpMessageBox" [
  msg [in_file "../guiutil.cpp" 420; line 12]
    "MotaCoin-Qt"
    (Translated "黑币客户端MotaCoin-Qt");
  msg [line (-12)]
    "version"
    (Translated "版本");
  msg [line 2]
    "Usage:"
    (Translated "使用");
  msg [line 1]
    "command-line options"
    (Translated "命令行选项");
  msg [line 4]
    "UI options"
    (Translated "用户界面选项");
  msg [line 1]
    "Set language, for example &quot;de_DE&quot; (default: system locale)"
    (Translated "设定语言，例如 “de_DE&quot; (默认语言为本地操作系统语言)");
  msg [line 1]
    "Start minimized"
    (Translated "启动时最小化");
  msg [line 1]
    "Show splash screen on startup (default: 1)"
    (Translated "登录时显示Logo界面 (默认开启)")
].

Definition zh_OptionsDialog_1 : list message := [
  msg [in_file "../forms/optionsdialog.ui" 14]
    "Options"
    (Translated "选项");
  msg [line 16]
    "&amp;Main"
    (Translated "主要(&amp;M)");
  msg [line 6]
    "Optional transaction fee per kB that helps make sure your transactions are processed quickly. Most transactions are 1 kB. Fee 0.01 recommended."
    (Translated "支付可选的交易手续费以加速交易(每kB)。大多数交易的数据量为1kB。推荐额0.01。");
  msg [line 15]
    "Pay transaction &amp;fee"
    (Translated "支付交易费用(&amp;F)");
  msg [line 31]
    "Reserved amount does not participate in staking and is therefore spendable at any time."
    (Translated "保留金额不参与权益累积，可以随时使用。");
  msg [line 15]
    "Reserve"
    (Translated "保留");
  msg [line 31]
    "Automatically start MotaCoin after logging in to the system."
    (Translated "开机自动启动黑币客户端");
  msg [line 3]
    "&amp;Start MotaCoin on system login"
    (Translated "开机时自动启动黑币客户端(&amp;S)");
  msg [line 7]
    "Detach block and address databases at shutdown. This means they can be moved to another data directory, but it slows down shutdown. The wallet is always detached."
    (Translated "关机时断开区块和地址数据连接使得它们可以被移动到其他目录。这样做会使关机速度变慢。钱包数据总是断开存储的。");
  msg [line 3]
    "&amp;Detach databases at shutdown"
    (Translated "关机时断开区块和地址数据库连接(&amp;D)");
  msg [line 21]
    "&amp;Network"
    (Translated "网络(&amp;N)");
  msg [line 6]
    "Automatically open the MotaCoin client port on the router. This only works when your router supports UPnP and it is enabled."
    (Translated "路由器自动打开黑币客户端端口。该功能仅在路由器开启UPnP支持时有效。");
  msg [line 3]
    "Map port using &amp;UPnP"
    (Translated "使用 &amp;UPnP 映射端口");
  msg [line 7]
    "Connect to the MotaCoin network through a SOCKS proxy (e.g. when connecting through Tor)."
    (Translated "经SOCKS代理连接到黑币网络(例如使用Tor)");
  msg [line 3]
    "&amp;Connect through SOCKS proxy:"
    (Translated "经SOCKS代理连接(&amp;C)");
  msg [line 9]
    "Proxy &amp;IP:"
    (Translated "代理服务器 &amp;IP：");
  msg [line 19]
    "IP address of the proxy (e.g. 127.0.0.1)"
    (Translated "代理地址(如：127.0.0.1)");
  msg [line 7]
    "&amp;Port:"
    (Translated "端口(&amp;P)：");
  msg [line 19]
    "Port of the proxy (e.g. 9050)"
    (Translated "代理端口（例如 9050）");
  msg [line 7]
    "SOCKS &amp;Version:"
    (Translated "Socks 版本(&amp;V)：");
  msg [line 13]
    "SOCKS version of the proxy (e.g. 5)"
    (Translated "Socks 代理版本（例如 5）");
  msg [line 36]
    "&amp;Window"
    (Translated "窗口(&amp;W)");
  msg [line 6]
    "Show only a tray icon after minimizing the window."
    (Translated "最小化窗口后仅显示托盘图标");
  msg [line 3]
    "&amp;Minimize to the tray instead of the taskbar"
    (Translated "最小化到托盘(&amp;M)");
  msg [line 7]
    "Minimize instead of exit the application when the window is closed. When this option is enabled, the application will be closed only after selecting Quit in the menu."
    (Translated "当窗口关闭时程序最小化而不是退出。当使用该选项时，程序只能通过在菜单中选择退出来关闭");
  msg [line 3]
    "M&amp;inimize on close"
    (Translated "单击关闭按钮最小化(&amp;I)");
  msg [line 21]
    "&amp;Display"
    (Translated "显示(&amp;D)");
  msg [line 8]
    "User Interface &amp;language:"
    (Translated "用户界面语言(&amp;L)：");
  msg [line 13]
    "The user interface language can be set here. This setting will take effect after restarting MotaCoin."
    (Translated "在此设置用户界面语言。重启黑币客户端后设置生效。")
].

Definition zh_OptionsDialog_2 : list message := [
  msg [line 11]
    "&amp;Unit to show amounts in:"
    (Translated "黑币金额单位(&amp;U)：");
  msg [line 13]
    "Choose the default subdivision unit to show in the interface and when sending coins."
    (Translated "选择黑币单位。");
  msg [line 9]
    "Whether to show MotaCoin addresses in the transaction list or not."
    (Translated "是否在交易列表中显示黑币地址");
  msg [line 3]
    "&amp;Display addresses in transaction list"
    (Translated "在交易清单中显示黑币地址(&amp;D)");
  msg [line 7]
    "Whether to show coin control features or not."
    (Translated "是否需要交易源地址控制功能。");
  msg [line 3]
    "Display coin &amp;control features (experts only!)"
    (Translated "显示黑币控制选项(仅用于专家用户)");
  msg [line 71]
    "&amp;OK"
    (Translated "确定(&amp;O)");
  msg [line 7]
    "&amp;Cancel"
    (Translated "取消(&amp;C)");
  msg [line 10]
    "&amp;Apply"
    (Translated "应用(&amp;A)");
  msg [in_file "../optionsdialog.cpp" 55]
    "default"
    (Translated "默认");
  msg [line 149; line 9]
    "Warning"
    (Translated "警告");
  msg [line (-9); line 9]
    "This setting will take effect after restarting MotaCoin."
    (Translated "重启客户端后设置生效");
  msg [line 29]
    "The supplied proxy address is invalid."
    (Translated "提供的代理服务器地址无效。")
].

Definition zh_OptionsDialog : context := mkContext "OptionsDialog"
  (zh_OptionsDialog_1 ++ zh_OptionsDialog_2).

Definition zh_OverviewPage : context := mkContext "OverviewPage" [
  msg [in_file "../forms/overviewpage.ui" 14]
    "Form"
    (Translated "表单");
  msg [line 33; line 231]
    "The displayed information may be out of date. Your wallet automatically synchronizes with the MotaCoin network after a connection is established, but this process has not completed yet."
    (Translated "所显示的信息尚未更新，建立连接后钱包客户端会自动和网络进行同步，但目前该过程尚未完成。");
  msg [line (-160)]
    "Stake:"
    (Translated "用于权益累积：");
  msg [line 29]
    "Unconfirmed:"
    (Translated "未确认：");
  msg [line (-107)]
    "Wallet"
    (Translated "钱包");
  msg [line 49]
    "Spendable:"
    (Translated "可用金额：");
  msg [line 16]
    "Your current spendable balance"
    (Translated "您当前可使用的余额");
  msg [line 71]
    "Immature:"
    (Translated "未成熟的：");
  msg [line 13]
    "Mined balance that has not yet matured"
    (Translated "尚未成熟的挖矿收入余额");
  msg [line 20]
    "Total:"
    (Translated "总额：");
  msg [line 16]
    "Your current total balance"
    (Translated "您当前的总余额");
  msg [line 46]
    "&lt;b&gt;Recent transactions&lt;/b&gt;"
    (Translated "&lt;b&gt;最近交易记录&lt;/b&gt;");
  msg [line (-108)]
    "Total of transactions that have yet to be confirmed, and do not yet count toward the current balance"
    (Translated "尚未确认的交易总额（不计入目前钱包余额）");
  msg [line (-29)]
    "Total of coins that was staked, and do not yet count toward the current balance"
    (Translated "正在进行权益累积的货币总额（不计入目前钱包余额）");
  msg [in_file "../overviewpage.cpp" 113; line 1]
    "out of sync"
    (Translated "数据未同步")
].

Definition zh_QRCodeDialog : context := mkContext "QRCodeDialog" [
  msg [in_file "../forms/qrcodedialog.ui" 14]
    "QR Code Dialog"
    (Translated "QR二维码对话框");
  msg [line 59]
    "Request Payment"
    (Translated "请求支付");
  msg [line 56]
    "Amount:"
    (Translated "金额：");
  msg [line (-44)]
    "Label:"
    (Translated "标签：");
  msg [line 19]
    "Message:"
    (Translated "信息：");
  msg [line 71]
    "&amp;Save As..."
    (Translated "另存为(&amp;S)...");
  msg [in_file "../qrcodedialog.cpp" 62]
    "Error encoding URI into QR Code."
    (Translated "URI编为QR二维码时出错。");
  msg [line 40]
    "The entered amount is invalid, please check."
    (Translated "输入的金额无效，请检查。");
  msg [line 23]
    "Resulting URI too long, try to reduce the text for label / message."
    (Translated "生成的URI过长，请减短标签或消息的长度。");
  msg [line 25]
    "Save QR Code"
    (Translated "保存QR二维码");
  msg [line 0]
    "PNG Images (*.png)"
    (Translated "PNG图片(*.png)")
].

Definition zh_RPCConsole : context := mkContext "RPCConsole" [
  msg [in_file "../forms/rpcconsole.ui" 46]
    "Client name"
    (Translated "客户端名称");
  msg [line 10; line 23; line 26; line 23; line 23; line 36; line 53; line 23; line 23; in_file "../rpcconsole.cpp" 348]
    "N/A"
    (Translated "不可用");
  msg [line (-217)]
    "Client version"
    (Translated "客户端版本");
  msg [line (-45)]
    "&amp;Information"
    (Translated "信息(&amp;I)");
  msg [line 68]
    "Using OpenSSL version"
    (Translated "使用 OpenSSL 版本");
  msg [line 49]
    "Startup time"
    (Translated "启动时间");
  msg [line 29]
    "Network"
    (Translated "网络");
  msg [line 7]
    "Number of connections"
    (Translated "连接数");
  msg [line 23]
    "On testnet"
    (Translated "测试网");
  msg [line 23]
    "Block chain"
    (Translated "数据链");
  msg [line 7]
    "Current number of blocks"
    (Translated "当前数据块数量");
  msg [line 23]
    "Estimated total blocks"
    (Translated "预计数据块数量");
  msg [line 23]
    "Last block time"
    (Translated "上一数据块时间");
  msg [line 52]
    "&amp;Open"
    (Translated "打开(&amp;O)");
  msg [line 16]
    "Command-line options"
    (Translated "命令行选项");
  msg [line 7]
    "Show the MotaCoin-Qt help message to get a list with possible MotaCoin command-line options."
    (Translated "显示关于命令行选项的帮助信息。");
  msg [line 3]
    "&amp;Show"
    (Translated "显示(&amp;S)");
  msg [line 24]
    "&amp;Console"
    (Translated "控制台(&amp;C)");
  msg [line (-260)]
    "Build date"
    (Translated "创建时间");
  msg [line (-104)]
    "MotaCoin - Debug window"
    (Translated "黑币客户端-调试窗口");
  msg [line 25]
    "MotaCoin Core"
    (Translated "黑币核心进程");
  msg [line 279]
    "Debug log file"
    (Translated "调试日志文件");
  msg [line 7]
    "Open the MotaCoin debug log file from the current data directory. This can take a few seconds for large log files."
    (Translated "打开调试日志文件，对于较大的文件，这可能持续几秒钟。");
  msg [line 102]
    "Clear console"
    (Translated "清空控制台");
  msg [in_file "../rpcconsole.cpp" (-33)]
    "Welcome to the MotaCoin RPC console."
    (Translated "欢迎使用黑币RPC控制台。");
  msg [line 1]
    "Use up and down arrows to navigate history, and &lt;b&gt;Ctrl-L&lt;/b&gt; to clear screen."
    (Translated "使用上下方向键浏览历史,  &lt;b&gt;Ctrl-L&lt;/b&gt;清除屏幕。");
  msg [line 1]
    "Type &lt;b&gt;help&lt;/b&gt; for an overview of available commands."
    (Translated "使用 &lt;b&gt;help&lt;/b&gt; 命令显示帮助信息。")
].

Definition zh_SendCoinsDialog_1 : list message := [
  msg [in_file "../forms/sendcoinsdialog.ui" 14; in_file "../sendcoinsdialog.cpp" 182; line 5; line 5; line 5; line 6; line 5; line 5]
    "Send Coins"
    (Translated "发送货币");
  msg [line 76]
    "Coin Control Features"
    (Translated "交易源地址控制功能");
  msg [line 20]
    "Inputs..."
    (Translated "输入...");
  msg [line 7]
    "automatically selected"
    (Translated "自动选择");
  msg [line 19]
    "Insufficient funds!"
    (Translated "存款不足！");
  msg [line 77]
    "Quantity:"
    (Translated "总量：");
  msg [line 22; line 35]
    "0"
    (Translated "0");
  msg [line (-19)]
    "Bytes:"
    (Translated "字节：");
  msg [line 51]
    "Amount:"
    (Translated "金额：");
  msg [line 22; line 86; line 86; line 32]
    "0.00 MOTA"
    (Translated "123.456 MOTA {0.00 ?}");
  msg [line (-191)]
    "Priority:"
    (Translated "优先级：");
  msg [line 19]
    "medium"
    (Translated "中等");
  msg [line 32]
    "Fee:"
    (Translated "费用：");
  msg [line 35]
    "Low Output:"
    (Translated "低输出");
  msg [line 19]
    "no"
    (Translated "no");
  msg [line 32]
    "After Fee:"
    (Translated "加上交易费用后:");
  msg [line 35]
    "Change"
    (Translated "零钱");
  msg [line 50]
    "custom change address"
    (Translated "自定义零钱地址");
  msg [line 106]
    "Send to multiple recipients at once"
    (Translated "一次发送给多个接收者");
  msg [line 3]
    "Add &amp;Recipient"
    (Translated "添加收款人(&amp;R)");
  msg [line 20]
    "Remove all transaction fields"
    (Translated "删除所有交易区域");
  msg [line 3]
    "Clear &amp;All"
    (Translated "清除所有(&amp;A)");
  msg [line 28]
    "Balance:"
    (Translated "余额：");
  msg [line 16]
    "123.456 MOTA"
    (Translated "123.456 MOTA");
  msg [line 31]
    "Confirm the send action"
    (Translated "确认并发送货币");
  msg [line 3]
    "S&amp;end"
    (Translated "发送(&amp;E)");
  msg [in_file "../sendcoinsdialog.cpp" (-173)]
    "Enter a MotaCoin address (e.g. MBDKLakRxSRw7hUB2q5DXEnDpNpLVkqGZd)"
    (Translated "输入黑币地址(例如：MBDKLakRxSRw7hUB2q5DXEnDpNpLVkqGZd)")
].

Definition zh_SendCoinsDialog_2 : list message := [
  msg [line 15]
    "Copy quantity"
    (Translated "复制金额");
  msg [line 1]
    "Copy amount"
    (Translated "复制金额");
  msg [line 1]
    "Copy fee"
    (Translated "复制交易费");
  msg [line 1]
    "Copy after fee"
    (Translated "复制含交易费的金额");
  msg [line 1]
    "Copy bytes"
    (Translated "复制字节");
  msg [line 1]
    "Copy priority"
    (Translated "复制优先级");
  msg [line 1]
    "Copy low output"
    (Translated "复制低输出");
  msg [line 1]
    "Copy change"
    (Translated "复制零钱");
  msg [line 86]
    "&lt;b&gt;%1&lt;/b&gt; to %2 (%3)"
    (Translated "&lt;b&gt;%1&lt;/b&gt; 至 %2 (%3)");
  msg [line 5]
    "Confirm send coins"
    (Translated "确认发送货币");
  msg [line 1]
    "Are you sure you want to send %1?"
    (Translated "确认要发送 %1 ?");
  msg [line 0]
    " and "
    (Translated "和");
  msg [line 29]
    "The recipient address is not valid, please recheck."
    (Translated "收款人地址不合法，请检查。");
  msg [line 5]
    "The amount to pay must be larger than 0."
    (Translated "支付金额必须大于0。");
  msg [line 5]
    "The amount exceeds your balance."
    (Translated "金额超出您的账上余额。");
  msg [line 5]
    "The total exceeds your balance when the %1 transaction fee is included."
    (Translated "计入 %1 交易费后的金额超出您的账上余额。");
  msg [line 6]
    "Duplicate address found, can only send to each address once per send operation."
    (Translated "发现重复的地址, 每次只能对同一地址发送一次。");
  msg [line 5]
    "Error: Transaction creation failed."
    (Translated "错误：交易创建失败。");
  msg [line 5]
    "Error: The transaction was rejected. This might happen if some of the coins in your wallet were already spent, such as if you used a copy of wallet.dat and coins were spent in the copy but not marked as spent here."
    (Translated "错误：交易被拒绝。可能由于钱包中部分金额已被使用，例如您使用了钱包数据的副本，在副本中某些金额已被使用，但在此处尚未被标记为已使用。");
  msg [line 251]
    "WARNING: Invalid MotaCoin address"
    (Translated "警告：无效的黑币地址");
  msg [line 13]
    "(no label)"
    (Translated "(没有标签)");
  msg [line 4]
    "WARNING: unknown change address"
    (Translated "警告：未知的零钱地址")
].

Definition zh_SendCoinsDialog : context := mkContext "SendCoinsDialog"
  (zh_SendCoinsDialog_1 ++ zh_SendCoinsDialog_2).

Definition zh_SendCoinsEntry : context := mkContext "SendCoinsEntry" [
  msg [in_file "../forms/sendcoinsentry.ui" 14]
    "Form"
    (Translated "表单");
  msg [line 15]
    "A&amp;mount:"
    (Translated "金额(&amp;M)");
  msg [line 13]
    "Pay &amp;To:"
    (Translated "付给(&amp;T)：");
  msg [line 24; in_file "../sendcoinsentry.cpp" 25]
    "Enter a label for this address to add it to your address book"
    (Translated "为这个地址输入一个标签，以便将它添加到您的地址簿");
  msg [line 9]
    "&amp;Label:"
    (Translated "标签(&amp;L)：");
  msg [line 18]
    "The address to send the payment to  (e.g. MBDKLakRxSRw7hUB2q5DXEnDpNpLVkqGZd)"
    (Translated "收款人地址(例：MBDKLakRxSRw7hUB2q5DXEnDpNpLVkqGZd)");
  msg [line 10]
    "Choose address from address book"
    (Translated "从地址簿选择地址");
  msg [line 10]
    "Alt+A"
    (Translated "Alt+A");
  msg [line 7]
    "Paste address from clipboard"
    (Translated "从剪贴板粘贴地址");
  msg [line 10]
    "Alt+P"
    (Translated "Alt+P");
  msg [line 7]
    "Remove this recipient"
    (Translated "删除收款人");
  msg [in_file "../sendcoinsentry.cpp" 1]
    "Enter a MotaCoin address (e.g. MBDKLakRxSRw7hUB2q5DXEnDpNpLVkqGZd)"
    (Translated "输入一个黑币地址 (例：MBDKLakRxSRw7hUB2q5DXEnDpNpLVkqGZd)")
].

Definition zh_SignVerifyMessageDialog_1 : list message := [
  msg [in_file "../forms/signverifymessagedialog.ui" 14]
    "Signatures - Sign / Verify a Message"
    (Translated "签名 - 为消息签名/验证签名消息");
  msg [line 13; line 124]
    "&amp;Sign Message"
    (Translated "签名消息(&amp;S)");
  msg [line (-118)]
    "You can sign messages with your addresses to prove you own them. Be careful not to sign anything vague, as phishing attacks may try to trick you into signing your identity over to them. Only sign fully-detailed statements you agree to."
    (Translated "您可以用你的地址对消息进行签名，以证明您是该地址的所有人。注意不要对模棱两可的消息签名，以免遭受钓鱼式攻击。请确保消息内容准确的表达了您的真实意愿。");
  msg [line 18]
    "The address to sign the message with (e.g. MBDKLakRxSRw7hUB2q5DXEnDpNpLVkqGZd)"
    (Translated "用来签名该消息的地址(例： MBDKLakRxSRw7hUB2q5DXEnDpNpLVkqGZd)");
  msg [line 10; line 203]
    "Choose an address from the address book"
    (Translated "从地址簿里选择一个地址");
  msg [line (-193); line 203]
    "Alt+A"
    (Translated "Alt+A");
  msg [line (-193)]
    "Paste address from clipboard"
    (Translated "从剪贴板粘贴地址");
  msg [line 10]
    "Alt+P"
    (Translated "Alt+P");
  msg [line 12]
    "Enter the message you want to sign here"
    (Translated "请输入您要发送的签名消息");
  msg [line 24]
    "Copy the current signature to the system clipboard"
    (Translated "复制当前签名至剪切板");
  msg [line 21]
    "Sign the message to prove you own this MotaCoin address"
    (Translated "对该消息进行签名以证明您对该黑币地址的所有权");
  msg [line 17]
    "Reset all sign message fields"
    (Translated "清空所有签名消息栏");
  msg [line 3; line 146]
    "Clear &amp;All"
    (Translated "清除所有(&amp;A)");
  msg [line (-87); line 70]
    "&amp;Verify Message"
    (Translated "验证消息(&amp;V)");
  msg [line (-64)]
    "Enter the signing address, message (ensure you copy line breaks, spaces, tabs, etc. exactly) and signature below to verify the message. Be careful not to read more into the signature than what is in the signed message itself, to avoid being tricked by a man-in-the-middle attack."
    (Translated "在下面输入签名地址，消息（请确保换行符、空格符、制表符等等一个不漏）和签名以验证消息。请确保签名信息准确，提防中间人攻击。");
  msg [line 21]
    "The address the message was signed with (e.g. MBDKLakRxSRw7hUB2q5DXEnDpNpLVkqGZd)"
    (Translated "用来签名该消息的黑币地址(例： MBDKLakRxSRw7hUB2q5DXEnDpNpLVkqGZd)");
  msg [line 40]
    "Verify the message to ensure it was signed with the specified MotaCoin address"
    (Translated "确认该消息以保证它经由指定的黑币地址签名");
  msg [line 17]
    "Reset all verify message fields"
    (Translated "清空所有验证消息栏");
  msg [in_file "../signverifymessagedialog.cpp" 27; line 3]
    "Enter a MotaCoin address (e.g. MBDKLakRxSRw7hUB2q5DXEnDpNpLVkqGZd)"
    (Translated "输入黑币地址(例： MBDKLakRxSRw7hUB2q5DXEnDpNpLVkqGZd)");
  msg [line (-2)]
    "Click &quot;Sign Message&quot; to generate signature"
    (Translated "单击“签名消息“产生签名。");
  msg [line 3]
    "Enter MotaCoin signature"
    (Translated "输入黑币签名");
  msg [line 82; line 81]
    "The entered address is invalid."
    (Translated "输入的地址非法。");
  msg [line (-81); line 8; line 73; line 8]
    "Please check the address and try again."
    (Translated "请检查地址后重试。");
  msg [line (-81); line 81]
    "The entered address does not refer to a key."
    (Translated "输入的地址没有关联的公私钥对。");
  msg [line (-73)]
    "Wallet unlock was cancelled."
    (Translated "钱包解锁动作取消。");
  msg [line 8]
    "Private key for the entered address is not available."
    (Translated "找不到输入地址关联的私钥。");
  msg [line 12]
    "Message signing failed."
    (Translated "消息签名失败。")
].

Definition zh_SignVerifyMessageDialog_2 : list message := [
  msg [line 5]
    "Message signed."
    (Translated "消息已签名。");
  msg [line 59]
    "The signature could not be decoded."
    (Translated "签名无法解码。");
  msg [line 0; line 13]
    "Please check the signature and try again."
    (Translated "请检查签名后重试。");
  msg [line 0]
    "The signature did not match the message digest."
    (Translated "签名与消息摘要不匹配。");
  msg [line 7]
    "Message verification failed."
    (Translated "消息验证失败。");
  msg [line 5]
    "Message verified."
    (Translated "消息验证成功。")
].

Definition zh_SignVerifyMessageDialog : context := mkContext "SignVerifyMessageDialog"
  (zh_SignVerifyMessageDialog_1 ++ zh_SignVerifyMessageDialog_2).

Definition zh_TransactionDesc_1 : list message := [
  msg [in_file "../transactiondesc.cpp" 19]
    "Open until %1"
    (Translated "至 %1 个数据块时开启");
  nmsg [line (-2)]
    "Open for %n block(s)"
    (Forms ["为 %n 个数据块开启"]);
  msg [line 8]
    "conflicted"
    (Translated "发现冲突");
  msg [line 2]
    "%1/offline"
    (Translated "%1 / 离线");
  msg [line 2]
    "%1/unconfirmed"
    (Translated "%1/未确认");
  msg [line 2]
    "%1 confirmations"
    (Translated "%1 已确认");
  msg [line 18]
    "Status"
    (Translated "状态");
  nmsg [line 7]
    ", broadcast through %n node(s)"
    (Forms ["通过 %n 个节点广播"]);
  msg [line 4]
    "Date"
    (Translated "日期");
  msg [line 7]
    "Source"
    (Translated "源");
  msg [line 0]
    "Generated"
    (Translated "生成");
  msg [line 5; line 17]
    "From"
    (Translated "来自");
  msg [line 1; line 22; line 58]
    "To"
    (Translated "到");
  msg [line (-77); line 2]
    "own address"
    (Translated "自己的地址");
  msg [line (-2)]
    "label"
    (Translated "标签");
  msg [line 37; line 12; line 45; line 17; line 30]
    "Credit"
    (Translated "收入");
  nmsg [line (-102)]
    "matures in %n more block(s)"
    (Forms ["将在 %n 个数据块后成熟"]);
  msg [line 2]
    "not accepted"
    (Translated "未被接受");
  msg [line 44; line 8; line 15; line 30]
    "Debit"
    (Translated "支出");
  msg [line (-39)]
    "Transaction fee"
    (Translated "交易费");
  msg [line 16]
    "Net amount"
    (Translated "净额");
  msg [line 6]
    "Message"
    (Translated "消息");
  msg [line 2]
    "Comment"
    (Translated "备注");
  msg [line 2]
    "Transaction ID"
    (Translated "交易ID");
  msg [line 3]
    "Generated coins must mature 510 blocks before they can be spent. When you generated this block, it was broadcast to the network to be added to the block chain. If it fails to get into the chain, its state will change to &quot;not accepted&quot; and it won&apos;t be spendable. This may occasionally happen if another node generates a block within a few seconds of yours."
    (Translated "通过权益累积获得的金额需要在510个块确认后方可使用。此数据块生成时，将被广播到网络并加入区块链。如果未能成功加入区块链，其状态会显示为“未接受”，该部分金额也不可被使用。如果其他节点在您生成区块后的几秒钟内也生成了区块，这种情况会偶尔发生。");
  msg [line 7]
    "Debug information"
    (Translated "调试信息");
  msg [line 8]
    "Transaction"
    (Translated "交易")
].

Definition zh_TransactionDesc_2 : list message := [
  msg [line 5]
    "Inputs"
    (Translated "输入");
  msg [line 23]
    "Amount"
    (Translated "金额");
  msg [line 1]
    "true"
    (Translated "正确");
  msg [line 0]
    "false"
    (Translated "错误");
  msg [line (-211)]
    ", has not been successfully broadcast yet"
    (Translated "，未被成功广播");
  msg [line 35]
    "unknown"
    (Translated "未知")
].

Definition zh_TransactionDesc : context := mkContext "TransactionDesc"
  (zh_TransactionDesc_1 ++ zh_TransactionDesc_2).

Definition zh_TransactionDescDialog : context := mkContext "TransactionDescDialog" [
  msg [in_file "../forms/transactiondescdialog.ui" 14]
    "Transaction details"
    (Translated "交易细节");
  msg [line 6]
    "This pane shows a detailed description of the transaction"
    (Translated "当前面板显示了交易的详细信息")
].

Definition zh_TransactionTableModel : context := mkContext "TransactionTableModel" [
  msg [in_file "../transactiontablemodel.cpp" 226]
    "Date"
    (Translated "日期");
  msg [line 0]
    "Type"
    (Translated "类型");
  msg [line 0]
    "Address"
    (Translated "地址");
  msg [line 0]
    "Amount"
    (Translated "数量");
  msg [line 60]
    "Open until %1"
    (Translated "至 %1 个数据块时开启");
  msg [line 12]
    "Confirmed (%1 confirmations)"
    (Translated "已确认 (%1 条确认信息)");
  nmsg [line (-15)]
    "Open for %n more block(s)"
    (Forms ["为 %n 个更多的区块开启"]);
  msg [line 6]
    "Offline"
    (Translated "掉线");
  msg [line 3]
    "Unconfirmed"
    (Translated "未确认的 ");
  msg [line 3]
    "Confirming (%1 of %2 recommended confirmations)"
    (Translated "确认中 (推荐 %2个确认，已经有 %1个确认)");
  msg [line 6]
    "Conflicted"
    (Translated "冲突的");
  msg [line 3]
    "Immature (%1 confirmations, will be available after %2)"
    (Translated "未成熟 (%1 个确认，将在 %2 个后可用)");
  msg [line 3]
    "This block was not received by any other nodes and will probably not be accepted!"
    (Translated "此数据块未被任何其他节点接收，可能不被接受！");
  msg [line 3]
    "Generated but not accepted"
    (Translated "已生成但未被接受");
  msg [line 42]
    "Received with"
    (Translated "接收于");
  msg [line 2]
    "Received from"
    (Translated "收款来自");
  msg [line 3]
    "Sent to"
    (Translated "发送给");
  msg [line 2]
    "Payment to yourself"
    (Translated "付款给自己");
  msg [line 2]
    "Mined"
    (Translated "挖矿所得");
  msg [line 38]
    "(n/a)"
    (Translated "（不可用）");
  msg [line 190]
    "Transaction status. Hover over this field to show number of confirmations."
    (Translated "交易状态。 鼠标移到此区域可显示确认项数量。");
  msg [line 2]
    "Date and time that the transaction was received."
    (Translated "接收到交易的时间");
  msg [line 2]
    "Type of transaction."
    (Translated "交易类别。");
  msg [line 2]
    "Destination address of transaction."
    (Translated "交易目的地址。");
  msg [line 2]
    "Amount removed from or added to balance."
    (Translated "从余额添加或移除的金额。")
].

Definition zh_TransactionView_1 : list message := [
  msg [in_file "../transactionview.cpp" 55; line 16]
    "All"
    (Translated "全部");
  msg [line (-15)]
    "Today"
    (Translated "今天");
  msg [line 1]
    "This week"
    (Translated "本周");
  msg [line 1]
    "This month"
    (Translated "本月");
  msg [line 1]
    "Last month"
    (Translated "上月");
  msg [line 1]
    "This year"
    (Translated "今年");
  msg [line 1]
    "Range..."
    (Translated "范围...");
  msg [line 11]
    "Received with"
    (Translated "接收于");
  msg [line 2]
    "Sent to"
    (Translated "发送给");
  msg [line 2]
    "To yourself"
    (Translated "到自己");
  msg [line 1]
    "Mined"
    (Translated "挖矿所得");
  msg [line 1]
    "Other"
    (Translated "其他");
  msg [line 7]
    "Enter address or label to search"
    (Translated "输入地址或标签进行搜索");
  msg [line 7]
    "Min amount"
    (Translated "最小金额");
  msg [line 34]
    "Copy address"
    (Translated "复制地址");
  msg [line 1]
    "Copy label"
    (Translated "复制标签");
  msg [line 1]
    "Copy amount"
    (Translated "复制金额");
  msg [line 1]
    "Copy transaction ID"
    (Translated "复制交易编号");
  msg [line 1]
    "Edit label"
    (Translated "编辑标签");
  msg [line 1]
    "Show transaction details"
    (Translated "显示交易详情");
  msg [line 144]
    "Export Transaction Data"
    (Translated "输出交易数据");
  msg [line 1]
    "Comma separated file (*.csv)"
    (Translated "逗号分隔文件 (*.csv)");
  msg [line 8]
    "Confirmed"
    (Translated "已确认");
  msg [line 1]
    "Date"
    (Translated "日期");
  msg [line 1]
    "Type"
    (Translated "类别");
  msg [line 1]
    "Label"
    (Translated "标签");
  msg [line 1]
    "Address"
    (Translated "地址");
  msg [line 1]
    "Amount"
    (Translated "金额");
  msg [line 1]
    "ID"
    (Translated "ID")
].

Definition zh_TransactionView_2 : list message := [
  msg [line 4]
    "Error exporting"
    (Translated "导出出现错误");
  msg [line 0]
    "Could not write to file %1."
    (Translated "无法写入文件 %1 。");
  msg [line 100]
    "Range:"
    (Translated "范围：");
  msg [line 8]
    "to"
    (Translated "到")
].

Definition zh_TransactionView : context := mkContext "TransactionView"
  (zh_TransactionView_1 ++ zh_TransactionView_2).

Definition zh_WalletModel : context := mkContext "WalletModel" [
  msg [in_file "../walletmodel.cpp" 206]
    "Sending..."
    (Translated "正在发送")
].

Definition zh_bitcoin_core_1 : list message := [
  msg [in_file "../bitcoinstrings.cpp" 33]
    "MotaCoin version"
    (Translated "黑币客户端 版本");
  msg [line 1]
    "Usage:"
    (Translated "使用：");
  msg [line 1]
    "Send command to -server or MotaCoind"
    (Translated "向-server服务器或MotaCoind发送命令");
  msg [line 1]
    "List commands"
    (Translated "列出命令
");
  msg [line 1]
    "Get help for a command"
    (Translated "获得某条命令的帮助
");
  msg [line 2]
    "Options:"
    (Translated "选项：
");
  msg [line 2]
    "Specify configuration file (default: MotaCoin.conf)"
    (Translated "指定配置文件(默认: MotaCoin.conf)");
  msg [line 1]
    "Specify pid file (default: MotaCoind.pid)"
    (Translated "指定pid文件(默认: MotaCoind.pid)");
  msg [line 2]
    "Specify wallet file (within data directory)"
    (Translated "指定钱包文件（数据目录内）");
  msg [line (-1)]
    "Specify data directory"
    (Translated "指定数据目录
");
  msg [line 2]
    "Set database cache size in megabytes (default: 25)"
    (Translated "设置数据库缓冲区大小 (缺省: 25MB)");
  msg [line 1]
    "Set database disk log size in megabytes (default: 100)"
    (Translated "设置数据库日志文件大小(单位MB，默认值100)");
  msg [line 6]
    "Listen for connections on &lt;port&gt; (default: 15714 or testnet: 25714)"
    (Translated "监听&lt;port&gt;端口的连接 (默认: 15714 测试网: 25714)");
  msg [line 1]
    "Maintain at most &lt;n&gt; connections to peers (default: 125)"
    (Translated "最大连接数 &lt;n&gt; （缺省: 125）");
  msg [line 3]
    "Connect to a node to retrieve peer addresses, and disconnect"
    (Translated "连接一个节点并获取对端地址，然后断开连接");
  msg [line 1]
    "Specify your own public address"
    (Translated "指定您的公共地址");
  msg [line 5]
    "Bind to given address. Use [host]:port notation for IPv6"
    (Translated "以IPv6 [host]:端口绑定给定地址");
  msg [line 2]
    "Stake your coins to support network and gain reward (default: 1)"
    (Translated "进行权益累积以支持黑币网络并获得报酬(默认: 1)");
  msg [line 5]
    "Threshold for disconnecting misbehaving peers (default: 100)"
    (Translated "断开出现问题节点阀值（缺省: 100）");
  msg [line 1]
    "Number of seconds to keep misbehaving peers from reconnecting (default: 86400)"
    (Translated "Number of seconds to keep misbehaving peers from reconnecting (缺省: 86400)");
  msg [line (-44)]
    "An error occurred while setting up the RPC port %u for listening on IPv4: %s"
    (Translated "设置RPC监听端口%u时发生错误, IPv4:%s");
  msg [line 51]
    "Detach block and address databases. Increases shutdown time (default: 0)"
    (Translated "离线保存区块和地址数据库. 增加关机时间。 (默认: 0)");
  msg [line 109]
    "Error: The transaction was rejected.  This might happen if some of the coins in your wallet were already spent, such as if you used a copy of wallet.dat and coins were spent in the copy but not marked as spent here."
    (Translated "错误：交易被拒绝。可能由于钱包中部分金额已被使用，例如您使用了钱包数据的副本，在副本中某些金额已被使用，但在此处尚未被标记为已使用。");
  msg [line (-5)]
    "Error: This transaction requires a transaction fee of at least %s because of its amount, complexity, or use of recently received funds  "
    (Translated "错误：该笔交易需至少支付 %s 的手续费。");
  msg [line (-87)]
    "Listen for JSON-RPC connections on &lt;port&gt; (default: 15715 or testnet: 25715)"
    (Translated "监听 &lt;port&gt; 端口的JSON-RPC连接 (默认: 15715 测试网: 25715)");
  msg [line (-11)]
    "Accept command line and JSON-RPC commands"
    (Translated "接受命令行和 JSON-RPC 命令
");
  msg [line 101]
    "Error: Transaction creation failed  "
    (Translated "错误：交易创建失败。");
  msg [line (-5)]
    "Error: Wallet locked, unable to create transaction  "
    (Translated "错误：钱包已锁定，无法创建交易。")
].

Definition zh_bitcoin_core_2 : list message := [
  msg [line (-8)]
    "Importing blockchain data file."
    (Translated "正在导入区块链数据文件");
  msg [line 1]
    "Importing bootstrap blockchain data file."
    (Translated "正在导入高速区块链数据文件");
  msg [line (-88)]
    "Run in the background as a daemon and accept commands"
    (Translated "在后台运行并接受命令

");
  msg [line 1]
    "Use the test network"
    (Translated "使用测试网络
");
  msg [line (-24)]
    "Accept connections from outside (default: 1 if no -proxy or -connect)"
    (Translated "接受来自外部的连接 (缺省: 如果不带 -proxy or -connect 参数设置为1)");
  msg [line (-38)]
    "An error occurred while setting up the RPC port %u for listening on IPv6, falling back to IPv4: %s"
    (Translated "在IPv6模式下设置RPC监听端口 %u 失败，返回到IPv4模式: %s");
  msg [line 117]
    "Error initializing database environment %s! To recover, BACKUP THAT DIRECTORY, then remove everything from it except for wallet.dat."
    (Translated "数据库环境 %s 初始化错误。要修复，备份该目录并将其下除wallet.dat以外的文件全部删除。");
  msg [line (-20)]
    "Set maximum size of high-priority/low-fee transactions in bytes (default: 27000)"
    (Translated "设置高优先度/低手续费交易的最大字节数 (默认: 27000)");
  msg [line 11]
    "Warning: -paytxfee is set very high! This is the transaction fee you will pay if you send a transaction."
    (Translated "警告：-paytxfee 交易费设置得太高了！每笔交易都将支付交易费。");
  msg [line 61]
    "Warning: Please check that your computer&apos;s date and time are correct! If your clock is wrong MotaCoin will not work properly."
    (Translated "警告：请确认您计算机的本地时间。如果时钟错误，黑币客户端将不能正常工作。");
  msg [line (-31)]
    "Warning: error reading wallet.dat! All keys read correctly, but transaction data or address book entries might be missing or incorrect."
    (Translated "警告：钱包文件wallet.dat读取失败！最重要的公钥、私钥数据都没有问题，但是交易记录或地址簿数据不正确，或者存在数据丢失。");
  msg [line (-18)]
    "Warning: wallet.dat corrupt, data salvaged! Original wallet.dat saved as wallet.{timestamp}.bak in %s; if your balance or transactions are incorrect you should restore from a backup."
    (Translated "警告：钱包文件wallet.dat损坏! 原始的钱包文件已经备份到%s目录下并重命名为{timestamp}.bak 。如果您的账户余额或者交易记录不正确，请使用您的钱包备份文件恢复。");
  msg [line (-30)]
    "Attempt to recover private keys from a corrupt wallet.dat"
    (Translated "尝试从损坏的钱包文件wallet.dat中恢复私钥");
  msg [line 4]
    "Block creation options:"
    (Translated "数据块创建选项：");
  msg [line (-62)]
    "Connect only to the specified node(s)"
    (Translated "仅连接到指定节点");
  msg [line 4]
    "Discover own IP address (default: 1 when listening and no -externalip)"
    (Translated "发现自己的IP地址(缺省:不带 -externalip 参数监听时设置为1)");
  msg [line 94]
    "Failed to listen on any port. Use -listen=0 if you want this."
    (Translated "监听端口失败。请使用 -listen=0 参数。");
  msg [line (-90)]
    "Find peers using DNS lookup (default: 1)"
    (Translated "以DNS查找方式寻找节点 (默认：1)");
  msg [line 5]
    "Sync checkpoints policy (default: strict)"
    (Translated "同步检测点政策 (默认：严格)");
  msg [line 83]
    "Invalid -tor address: &apos;%s&apos;"
    (Translated "无效的 -tor 地址: &apos;%s&apos;");
  msg [line 4]
    "Invalid amount for -reservebalance=&lt;amount&gt;"
    (Translated "-reservebalance=&lt;amount&gt; 金额无效");
  msg [line (-82)]
    "Maximum per-connection receive buffer, &lt;n&gt;*1000 bytes (default: 5000)"
    (Translated "每个连接的最大接收缓存，&lt;n&gt;*1000 字节(缺省：5000)");
  msg [line 1]
    "Maximum per-connection send buffer, &lt;n&gt;*1000 bytes (default: 1000)"
    (Translated "每个连接的最大发送缓存，&lt;n&gt;*1000 字节(缺省：1000)");
  msg [line (-16)]
    "Only connect to nodes in network &lt;net&gt; (IPv4, IPv6 or Tor)"
    (Translated "仅连接至指定网络的节点&lt;net&gt;(IPv4, IPv6 或者 Tor)");
  msg [line 28]
    "Output extra debugging information. Implies all other -debug* options"
    (Translated "输出额外的调试信息。相当于开启了其它所有-debug选项");
  msg [line 1]
    "Output extra network debugging information"
    (Translated "输出额外的网络调试信息");
  msg [line 1]
    "Prepend debug output with timestamp"
    (Translated "将时间信息加入调试输出中");
  msg [line 35]
    "SSL options: (see the Bitcoin Wiki for SSL setup instructions)"
    (Translated "SSL选项：(参见Bitcoin Wiki关于SSL设置栏目)");
  msg [line (-74)]
    "Select the version of socks proxy to use (4-5, default: 5)"
    (Translated "选择要使用的SOCKS代理版本 (4-5, 默认 5)")
].

Definition zh_bitcoin_core_3 : list message := [
  msg [line 41]
    "Send trace/debug info to console instead of debug.log file"
    (Translated "跟踪/调试信息输出到控制台，不输出到 debug.log 文件");
  msg [line 1]
    "Send trace/debug info to debugger"
    (Translated "发送跟踪/调试信息给调试者");
  msg [line 28]
    "Set maximum block size in bytes (default: 250000)"
    (Translated "设置最大区块大小 (默认：250000)");
  msg [line (-1)]
    "Set minimum block size in bytes (default: 0)"
    (Translated "设置最小数据块大小(缺省:0)");
  msg [line (-29)]
    "Shrink debug.log file on client startup (default: 1 when no -debug)"
    (Translated "客户端启动时压缩debug.log文件(缺省：no-debug模式时为1)");
  msg [line (-42)]
    "Specify connection timeout in milliseconds (default: 5000)"
    (Translated "设置连接超时时间(缺省：5000毫秒)");
  msg [line 109]
    "Unable to sign checkpoint, wrong checkpointkey?
"
    (Translated "无法为记录点签名，错误的记录点密钥。");
  msg [line (-80)]
    "Use UPnP to map the listening port (default: 0)"
    (Translated "使用UPnP映射监听端口 (缺省: 0)");
  msg [line (-1)]
    "Use UPnP to map the listening port (default: 1 when listening)"
    (Translated "使用UPnp映射监听端口(缺省: 监听状态设为1)");
  msg [line (-25)]
    "Use proxy to reach tor hidden services (default: same as -proxy)"
    (Translated "开启代理以使用隐藏服务 (默认: 和-proxy设置相同)");
  msg [line 42]
    "Username for JSON-RPC connections"
    (Translated "JSON-RPC 连接用户名");
  msg [line 47]
    "Verifying database integrity..."
    (Translated "正在检查数据库完整性...");
  msg [line 57]
    "WARNING: syncronized checkpoint violation detected, but skipped!"
    (Translated "警告：检测到同步记录点错误，已跳过。");
  msg [line 1]
    "Warning: Disk space is low!"
    (Translated "警告：磁盘空间低。");
  msg [line (-2)]
    "Warning: This version is obsolete, upgrade required!"
    (Translated "警告：该软件版本已过时，请升级！");
  msg [line (-48)]
    "wallet.dat corrupt, salvage failed"
    (Translated "钱包文件wallet.dat损坏，抢救备份失败");
  msg [line (-54)]
    "Password for JSON-RPC connections"
    (Translated "JSON-RPC 连接密码
");
  msg [line (-84)]
    "%s, you must set a rpcpassword in the configuration file:
 %s
It is recommended you use the following random password:
rpcuser=MotaCoinrpc
rpcpassword=%s
(you do not need to remember this password)
The username and password MUST NOT be the same.
If the file does not exist, create it with owner-readable-only file permissions.
It is also recommended to set alertnotify so you are notified of problems;
for example: alertnotify=echo %%s | mail -s &quot;MotaCoin Alert&quot; admin@foo.com
"
    (Translated "%s, 必须在配置文件里设置rpc密码:
 %s
建议使用如下的随机密码:
rpcuser=MotaCoinrpc
rpcpassword=%s
(不需要记住该密码)
用户名和密码不能重复。
如果该文件不存在，请自行创建并设为用户本身只读权限。
建议创建提示以监测可能的问题，如：
alertnotify=echo %%s | mail -s &quot;MotaCoin Alert&quot; admin@foo.com
");
  msg [line 51]
    "Find peers using internet relay chat (default: 0)"
    (Translated "寻找使用互联网接力聊天的节点 (默认: 1) {0)?}");
  msg [line 5]
    "Sync time with other nodes. Disable if time on your system is precise e.g. syncing with NTP (default: 1)"
    (Translated "自动和其它节点同步时间。如果本地计算机世界是准确的，建议关闭。(默认: 1)");
  msg [line 15]
    "When creating transactions, ignore inputs with value less than this (default: 0.01)"
    (Translated "创建交易时自动忽略该值以下的数额 (默认：0.01)");
  msg [line 16]
    "Allow JSON-RPC connections from specified IP address"
    (Translated "允许从指定IP接受到的 JSON-RPC 连接");
  msg [line 1]
    "Send commands to node running on &lt;ip&gt; (default: 127.0.0.1)"
    (Translated "向IP地址为 &lt;ip&gt; 的节点发送指令 (缺省: 127.0.0.1)");
  msg [line 1]
    "Execute command when the best block changes (%s in cmd is replaced by block hash)"
    (Translated "当最佳数据块变化时执行命令 (命令行中的 %s 会被替换成数据块哈希值)");
  msg [line 3]
    "Execute command when a wallet transaction changes (%s in cmd is replaced by TxID)"
    (Translated "当最佳区块变化时执行命令 (命令行中的 %s 会被替换成区块哈希值)")
].

Definition zh_bitcoin_core_4 : list message := [
  msg [line 3]
    "Require a confirmations for change (default: 0)"
    (Translated "要求对零钱进行确认 (默认：0)");
  msg [line 1]
    "Enforce transaction scripts to use canonical PUSH operators (default: 1)"
    (Translated "强制要求交易脚本使用标准PUSH算子 (默认：1)");
  msg [line 2]
    "Execute command when a relevant alert is received (%s in cmd is replaced by message)"
    (Translated "收到相关提示时执行命令 (命令中的%s将被信息替换)");
  msg [line 3]
    "Upgrade wallet to latest format"
    (Translated "将钱包升级到最新的格式");
  msg [line 1]
    "Set key pool size to &lt;n&gt; (default: 100)"
    (Translated "设置密钥池大小为 &lt;n&gt; (缺省: 100)
");
  msg [line 1]
    "Rescan the block chain for missing wallet transactions"
    (Translated "重新扫描区块链以查找遗漏的钱包交易");
  msg [line 2]
    "How many blocks to check at startup (default: 2500, 0 = all)"
    (Translated "启动时检测的区块数量 (默认: 2500, 0表示检测全部)");
  msg [line 1]
    "How thorough the block verification is (0-6, default: 1)"
    (Translated "区块确认的彻底程度 (0-6, 默认: 1)");
  msg [line 1]
    "Imports blocks from external blk000?.dat file"
    (Translated "从外部 blk000?.dat 文件导入区块");
  msg [line 8]
    "Use OpenSSL (https) for JSON-RPC connections"
    (Translated "为 JSON-RPC 连接使用 OpenSSL (https) 连接");
  msg [line 1]
    "Server certificate file (default: server.cert)"
    (Translated "服务器证书 (默认为 server.cert)
");
  msg [line 1]
    "Server private key (default: server.pem)"
    (Translated "服务器私钥 (默认为 server.pem)
");
  msg [line 1]
    "Acceptable ciphers (default: TLSv1+HIGH:!SSLv2:!aNULL:!eNULL:!AH:!3DES:@STRENGTH)"
    (Translated "可用加密算法 (默认: TLSv1+HIGH:!SSLv2:!aNULL:!eNULL:!AH:!3DES:@STRENGTH)");
  msg [line 53]
    "Error: Wallet unlocked for staking only, unable to create transaction."
    (Translated "错误：无法创建交易，已解锁的钱包仅用于权益累积。");
  msg [line 18]
    "WARNING: Invalid checkpoint found! Displayed transactions may not be correct! You may need to upgrade, or notify developers."
    (Translated "警告：发现无效的记录点。所显示的交易信息未必正确！请升级客户端或联系开发者。");
  msg [line (-158)]
    "This help message"
    (Translated "本帮助信息
");
  msg [line 95]
    "Wallet %s resides outside data directory %s."
    (Translated "钱包 %s 位于数据目录 %s 之外.");
  msg [line 1]
    "Cannot obtain a lock on data directory %s.  MotaCoin is probably already running."
    (Translated "无法从数据目录 %s 获得锁定.  黑币客户端可能已在运行中.");
  msg [line (-98)]
    "MotaCoin"
    (Translated "黑币");
  msg [line 140]
    "Unable to bind to %s on this computer (bind returned error %d, %s)"
    (Translated "无法绑定本机端口 %s  (返回错误消息 %d, %s)");
  msg [line (-130)]
    "Connect through socks proxy"
    (Translated "通过socks代理连接");
  msg [line 3]
    "Allow DNS lookups for -addnode, -seednode and -connect"
    (Translated "使用 -addnode, -seednode 和 -connect 选项时允许查询DNS");
  msg [line 122]
    "Loading addresses..."
    (Translated "正在加载地址簿...");
  msg [line (-15)]
    "Error loading blkindex.dat"
    (Translated "blkindex.dat 文件加载出错");
  msg [line 2]
    "Error loading wallet.dat: Wallet corrupted"
    (Translated "wallet.dat 钱包文件加载出错：钱包损坏");
  msg [line 4]
    "Error loading wallet.dat: Wallet requires newer version of MotaCoin"
    (Translated "wallet.dat 钱包文件加载出错：需要新版本的客户端");
  msg [line 1]
    "Wallet needed to be rewritten: restart MotaCoin to complete"
    (Translated "需要重写钱包，重启客户端以完成该操作。");
  msg [line 1]
    "Error loading wallet.dat"
    (Translated "wallet.dat 钱包文件加载出错")
].

Definition zh_bitcoin_core_5 : list message := [
  msg [line (-16)]
    "Invalid -proxy address: &apos;%s&apos;"
    (Translated "无效的代理地址：%s");
  msg [line (-1)]
    "Unknown network specified in -onlynet: &apos;%s&apos;"
    (Translated "-onlynet 指定的是未知网络：%s");
  msg [line (-1)]
    "Unknown -socks proxy version requested: %i"
    (Translated "被指定的是未知socks代理版本: %i");
  msg [line 4]
    "Cannot resolve -bind address: &apos;%s&apos;"
    (Translated "无法解析 -bind 端口地址: &apos;%s&apos;");
  msg [line 2]
    "Cannot resolve -externalip address: &apos;%s&apos;"
    (Translated "无法解析 -externalip 地址: &apos;%s&apos;");
  msg [line (-24)]
    "Invalid amount for -paytxfee=&lt;amount&gt;: &apos;%s&apos;"
    (Translated "非法金额 -paytxfee=&lt;amount&gt;: &apos;%s&apos;");
  msg [line 44]
    "Error: could not start node"
    (Translated "错误：无法启动节点");
  msg [line 11]
    "Sending..."
    (Translated "正在发送");
  msg [line 5]
    "Invalid amount"
    (Translated "无效金额");
  msg [line 1]
    "Insufficient funds"
    (Translated "金额不足");
  msg [line (-34)]
    "Loading block index..."
    (Translated "正在加载数据块索引...");
  msg [line (-103)]
    "Add a node to connect to and attempt to keep the connection open"
    (Translated "添加节点并与其保持连接");
  msg [line 122]
    "Unable to bind to %s on this computer. MotaCoin is probably already running."
    (Translated "无法绑定到该计算机上的 %s. 黑币客户端可能已在运行中。");
  msg [line (-97)]
    "Fee per KB to add to transactions you send"
    (Translated "每kB交易所支付的手续费");
  msg [line 55]
    "Invalid amount for -mininput=&lt;amount&gt;: &apos;%s&apos;"
    (Translated "无效的数量。 -mininput=&lt;amount&gt;: &apos;%s&apos;");
  msg [line 25]
    "Loading wallet..."
    (Translated "正在加载钱包...");
  msg [line 8]
    "Cannot downgrade wallet"
    (Translated "无法降级钱包");
  msg [line 1]
    "Cannot initialize keypool"
    (Translated "无法初始化密钥池。");
  msg [line 1]
    "Cannot write default address"
    (Translated "无法写入默认地址");
  msg [line 1]
    "Rescanning..."
    (Translated "正在重新扫描...");
  msg [line 5]
    "Done loading"
    (Translated "加载完成");
  msg [line (-167)]
    "To use the %s option"
    (Translated "使用 %s 选项");
  msg [line 14]
    "Error"
    (Translated "错误");
  msg [line 6]
    "You must set rpcpassword=&lt;password&gt; in the configuration file:
%s
If the file does not exist, create it with owner-readable-only file permissions."
    (Translated "您必须在配置文件中加入选项 rpcpassword :
 %s
如果配置文件不存在，请新建，并将文件权限设置为仅允许文件所有者读取.")
].

Definition zh_bitcoin_core : context := mkContext "bitcoin-core"
  (zh_bitcoin_core_1 ++ zh_bitcoin_core_2 ++ zh_bitcoin_core_3 ++ zh_bitcoin_core_4 ++ zh_bitcoin_core_5).

Definition bitcoin_zh_CN : TS := mkTS "zh_CN" "2.1" [
  zh_AboutDialog;
  zh_AddressBookPage;
  zh_AddressTableModel;
  zh_AskPassphraseDialog;
  zh_BitcoinGUI;
  zh_ClientModel;
  zh_CoinControlDialog;
  zh_EditAddressDialog;
  zh_GUIUtil_HelpMessageBox;
  zh_OptionsDialog;
  zh_OverviewPage;
  zh_QRCodeDialog;
  zh_RPCConsole;
  zh_SendCoinsDialog;
  zh_SendCoinsEntry;
  zh_SignVerifyMessageDialog;
  zh_TransactionDesc;
  zh_TransactionDescDialog;
  zh_TransactionTableModel;
  zh_TransactionView;
  zh_WalletModel;
  zh_bitcoin_core
].
