(* ===== verification/Locale.v ===== *)
(** * The program's translations (qt/bitcoin.cpp, qt/bitcoin_locale.qrc, ui_interface.h and three catalogues)

    How the program finds the translation of a message, over an interface to Qt and the
    list of the 39 catalogues the program carries, and what holds of the Georgian, the
    Japanese and the Chinese (zh_CN) one: every text is well formed, the three agree on
    the messages, and a translation can stand for its source wherever the node formats
    it.  The other catalogues are not modelled; some of their formats do not fit
    ([other_formats]). *)

From S2P Require Import Prelude Catalogue CatalogueKa CatalogueJa CatalogueZhCN.
From Stdlib Require Import Strings.Byte.

Definition catalogues : list TS := [bitcoin_ka; bitcoin_ja; bitcoin_zh_CN].

(** ** Qt *)

(** The resources of the program under ":/translations/" by their alias. *)
Definition translation_aliases : list (list byte) := map text_bytes
  ["ar"; "ca_ES"; "cs"; "da"; "de"; "el_GR"; "en"; "eo"; "es_CL"; "es_DO"; "es"; "fa"; "fi"; "fr_CA"; "fr"; "gl"; "he"; "hr"; "hu"; "it";
   "ja"; "ka"; "ko_KR"; "lt"; "nb"; "nl"; "pam"; "pl"; "pt_BR"; "pt_PT"; "ro_RO"; "ru"; "sk"; "sl_SI"; "sv"; "tr"; "uk"; "zh_CN"; "zh_TW"].

(** The parts of a reversed name before each of its delimiters, an underscore or a dot. *)
Fixpoint stems (l : list byte) : list (list byte) :=
  match l with
  | [] => []
  | b :: l => if decide (b = x5f \/ b = x2e) then reverse l :: stems l else stems l
  end.

(** The names [QTranslator::load] looks for, in this order: the one it is given, then what is
    left of it without the text after its last delimiter, and so on. *)
Definition tried_names (name : list byte) : list (list byte) := name :: stems (reverse name).

(** Compiled catalogues, those of the program by alias, [QTranslator::load], what one
    translator answers, and [QCoreApplication::translate] with the translators in
    the order of their installation. *)
Class Qt := {
  qm : Type;
  resource : list byte -> option qm;
  QTranslator_load : list byte -> list byte -> option qm;
  QTranslator_translate : qm -> list byte -> list byte -> option (list byte);
  QCoreApplication_translate : list qm -> list byte -> list byte -> list byte;
  TranslationsPath : list byte;
}.

(** [answers q c]: what the translator [q] answers is an entry of the catalogue [c]. *)
Definition answers `{Qt} (q : qm) (c : TS) : Prop :=
  forall ctx src r, QTranslator_translate q ctx src = Some r ->
  exists name m t, (name, m) ∈ entries c /\ text_bytes name = ctx /\ unescape (msg_source m) = Some src /\
    t ∈ translations m /\ unescape t = Some r.

(** The documented behaviour: only what the program carries is found among its
    resources, [load] finds there the file of a name it tries, the translator installed
    last is asked first, and a text nobody translates is returned as it is. *)
Class Qt_ok `{Qt} : Prop := {
  resource_known : forall a q, resource a = Some q -> a ∈ translation_aliases;
  load_resource : forall name q, QTranslator_load name (str ":/translations/") = Some q ->
    exists a, a ∈ tried_names name /\ resource a = Some q;
  translate_none : forall ctx src, QCoreApplication_translate [] ctx src = src;
  translate_last : forall qs q ctx src, QCoreApplication_translate (qs ++ [q]) ctx src =
    match QTranslator_translate q ctx src with Some r => r | None => QCoreApplication_translate qs ctx src end;
}.

(** ** The program *)

Section Program.
Context `{QT : Qt}.

(** Drop a reversed string up to its first underscore. *)
Fixpoint last_index (l : list byte) : option (list byte) :=
  match l with
  | [] => None
  | b :: l => if decide (b = x5f) then Some l else last_index l
  end.

(** [lang.truncate(lang_territory.lastIndexOf('_'))]: without an underscore the
    index is -1, which empties the string. *)
Definition truncate_territory (lang_territory : list byte) : list byte :=
  match last_index (reverse lang_territory) with
  | Some after => reverse after
  | None => []
  end.

(** The translators [main] installs for a locale. *)
Definition install_translators (lang_territory : list byte) : list qm :=
  let lang := truncate_territory lang_territory in
  omap id [QTranslator_load (str "qt_" ++ lang) TranslationsPath;
           QTranslator_load (str "qt_" ++ lang_territory) TranslationsPath;
           QTranslator_load lang (str ":/translations/");
           QTranslator_load lang_territory (str ":/translations/")].

Definition Translate (installed : list qm) (psz : list byte) : list byte :=
  QCoreApplication_translate installed (str "bitcoin-core") psz.

(** [_]: [slot] is the function connected to [uiInterface.Translate], if one is (the
    daemon connects none). *)
Definition tr_ (slot : option (list byte -> list byte)) (psz : list byte) : list byte :=
  match slot with Some f => f psz | None => psz end.
End Program.

(** ** Checking a catalogue *)

(** UTF-8: [more] continuation bytes are due, the first of them in [lo, hi]. *)
Fixpoint utf8_from (more : nat) (lo hi : Z) (l : list byte) : bool :=
  match l with
  | [] => match more with O => true | _ => false end
  | b :: l =>
      let n := Z.of_N (Byte.to_N b) in
      match more with
      | S more => (lo <=? n) && (n <=? hi) && utf8_from more 0x80 0xbf l
      | O =>
          if n <? 0x80 then utf8_from 0 0 0 l
          else if n <? 0xc2 then false
          else if n <? 0xe0 then utf8_from 1 0x80 0xbf l
          else if n <? 0xf0 then utf8_from 2 (if n =? 0xe0 then 0xa0 else 0x80) (if n =? 0xed then 0x9f else 0xbf) l
          else if n <? 0xf5 then utf8_from 3 (if n =? 0xf0 then 0x90 else 0x80) (if n =? 0xf4 then 0x8f else 0xbf) l
          else false
      end
  end%bool.

Definition utf8 (l : list byte) : bool := utf8_from 0 0 0 l.

(** A text is well formed: UTF-8, and escaped in the one way [escape] does. *)
Definition text_ok (t : text) : bool :=
  utf8 (text_bytes t) && match unescape t with Some l => bool_decide (escape l = t) | None => false end.

Definition texts (e : text * message) : list text :=
  let '(name, m) := e in
  name :: msg_source m ::
  match msg_translation m with Unfinished => [] | Translated t => [t] | UnfinishedForms fs | Forms fs => fs end.

Lemma text_ok_spec t : text_ok t = true -> utf8 (text_bytes t) = true /\ exists l, unescape t = Some l /\ escape l = t.
Proof.
  intros [Hu H]%andb_true_iff. split; [done|]. destruct (unescape t) as [l|]; [|done].
  exists l. by apply bool_decide_eq_true in H.
Qed.

(** A test of every released translation: context, message, decoded source and
    decoded translation. *)
Definition check_texts (P : text -> message -> list byte -> list byte -> bool) (c : TS) : bool :=
  forallb (fun e =>
    forallb (fun t =>
      match unescape (msg_source (snd e)), unescape t with
      | Some s, Some u => P (fst e) (snd e) s u
      | _, _ => false
      end) (translations (snd e))) (entries c).

(** What the test shows, translation by translation. *)
Definition every_translation (c : TS) (P : text -> message -> list byte -> list byte -> Prop) : Prop :=
  Forall (fun e => Forall (fun t => exists s u, unescape (msg_source (snd e)) = Some s /\ unescape t = Some u /\
    P (fst e) (snd e) s u) (translations (snd e))) (entries c).

Lemma check_texts_spec P Q c : (forall n m s u, P n m s u = true -> Q n m s u) ->
  check_texts P c = true -> every_translation c Q.
Proof.
  intros HPQ H. apply Forall_forall. intros e He. apply Forall_forall. intros t Ht.
  apply list_elem_of_In in He, Ht. unfold check_texts in H. rewrite forallb_forall in H.
  specialize (H _ He). rewrite forallb_forall in H. specialize (H _ Ht). cbn beta in H.
  destruct (unescape (msg_source _)) as [s|], (unescape t) as [u|]; try done. exists s, u. auto.
Qed.

(** The same for all catalogues. *)
Lemma check_catalogues P (Q : TS -> text -> message -> list byte -> list byte -> Prop) :
  (forall c n m s u, c ∈ catalogues -> P c n m s u = true -> Q c n m s u) ->
  forallb (fun c => check_texts (P c) c) catalogues = true -> Forall (fun c => every_translation c (Q c)) catalogues.
Proof.
  intros HPQ H. apply Forall_forall. intros c Hc. pose proof Hc as Hin. apply list_elem_of_In in Hin.
  rewrite forallb_forall in H. specialize (H _ Hin). eapply check_texts_spec, H. eauto.
Qed.

(** ** Escaping *)

Lemma unescape_plain b l : b <> x26 -> b <> x3c -> unescape_from None (b :: l) = cons b <$> unescape_from None l.
Proof. intros H1 H2. cbn [unescape_from]. by rewrite !decide_False. Qed.

Lemma unescape_escape_byte b l : unescape_from None (escape_byte b ++ l) = cons b <$> unescape_from None l.
Proof. destruct b; reflexivity. Qed.

Lemma unescape_escape l : unescape (escape l) = Some l.
Proof.
  unfold unescape, escape. cbn [text_bytes]. induction l as [|b l IH]; [done|].
  cbn [flat_map]. by rewrite unescape_escape_byte, IH.
Qed.

(** ** Formats *)

Definition core : text := "bitcoin-core".

(** What [strprintf] needs of a translation of a core message. *)
Definition same_args (s u : list byte) : bool :=
  match printf_args s with None => true | Some a => bool_decide (printf_args u = Some a) end.

Lemma core_formats : Forall (fun c => every_translation c (fun n _ s u => n = core -> same_args s u = true /\ utf8 u = true)) catalogues.
Proof.
  apply (check_catalogues (fun _ n _ s u => negb (bool_decide (n = core)) || (same_args s u && utf8 u))%bool).
  - intros c n m s u _ H En. rewrite bool_decide_true in H by done. cbn [negb orb] in H. by apply andb_true_iff in H.
  - vm_compute. reflexivity.
Qed.

Section Formats.
Context `{QTok : Qt_ok}.

(** Of the program's catalogues, [main] can load only modelled ones for the locale. *)
Definition modelled_locale (lang_territory : list byte) : bool :=
  forallb (fun a => negb (bool_decide (a ∈ translation_aliases)) || bool_decide (a ∈ map (fun c => text_bytes (ts_language c)) catalogues))%bool
    (tried_names (truncate_territory lang_territory) ++ tried_names lang_territory).

Lemma modelled_loads lang_territory name a q : modelled_locale lang_territory = true ->
  name = truncate_territory lang_territory \/ name = lang_territory -> a ∈ tried_names name -> resource a = Some q ->
  a ∈ map (fun c => text_bytes (ts_language c)) catalogues.
Proof.
  intros Hm Hn Ha Hq. unfold modelled_locale in Hm. rewrite forallb_forall in Hm.
  assert (a ∈ tried_names (truncate_territory lang_territory) ++ tried_names lang_territory) as Hin
    by (apply elem_of_app; destruct Hn as [<- | <-]; [by left|by right]).
  apply list_elem_of_In, Hm in Hin. rewrite bool_decide_true in Hin by (by eapply resource_known). by apply bool_decide_eq_true in Hin.
Qed.

(** A translator of the program, or one that does not know the core messages. *)
Definition harmless (q : qm) : Prop :=
  (exists c, c ∈ catalogues /\ answers q c) \/ (forall src, QTranslator_translate q (str "bitcoin-core") src = None).

Lemma harmless_args q psz r args : harmless q -> printf_args psz = Some args ->
  QTranslator_translate q (str "bitcoin-core") psz = Some r -> printf_args r = Some args /\ utf8 r = true.
Proof.
  intros [(c & Hc & Ha) | Hn] Hp Hr; [|congruence].
  destruct (Ha _ _ _ Hr) as (name & m & t & Hin & Hname & Hsrc & Ht & Hu).
  pose proof core_formats as HF. rewrite Forall_forall in HF. specialize (HF _ Hc). unfold every_translation in HF.
  rewrite Forall_forall in HF. specialize (HF _ Hin). cbn [fst snd] in HF. rewrite Forall_forall in HF.
  destruct (HF _ Ht) as (s & u & Es & Eu & H'). rewrite Hsrc in Es. injection Es as <-. rewrite Hu in Eu. injection Eu as <-.
  destruct H' as [HA HU]; [by destruct name; unfold core; f_equal|]. split; [|done].
  unfold same_args in HA. rewrite Hp in HA. by apply bool_decide_eq_true in HA.
Qed.

Lemma Translate_args installed psz args : Forall harmless installed -> printf_args psz = Some args -> utf8 psz = true ->
  printf_args (Translate installed psz) = Some args /\ utf8 (Translate installed psz) = true.
Proof.
  intros HF Hp Hu. unfold Translate. induction installed as [|q qs IH] using rev_ind; [by rewrite translate_none|].
  apply Forall_app in HF as [HF [Hq _]%Forall_cons]. rewrite translate_last.
  destruct (QTranslator_translate q _ psz) as [r|] eqn:E; [by eapply harmless_args|auto].
Qed.
End Formats.

(** ** An implementation of the interface *)

(** The catalogues themselves as translators: a search through the entries. *)
Definition search (c : TS) (ctx src : list byte) : option (list byte) :=
  match filter (fun e => text_bytes (fst e) = ctx /\ unescape (msg_source (snd e)) = Some src) (entries c) with
  | [] => None
  | e :: _ => match translations (snd e) with [] => None | t :: _ => unescape t end
  end.

Definition own_catalogue (a : list byte) : option TS := head (filter (fun c => text_bytes (ts_language c) = a) catalogues).

Definition load_own (name dir : list byte) : option TS :=
  if decide (dir = str ":/translations/") then head (omap own_catalogue (tried_names name)) else None.

Definition plain_Qt : Qt := {|
  qm := TS;
  resource := own_catalogue;
  QTranslator_load := load_own;
  QTranslator_translate := search;
  QCoreApplication_translate qs ctx src := fold_left (fun r q => default r (search q ctx src)) qs src;
  TranslationsPath := str "/usr/share/qt/translations";
|}.

Lemma own_catalogue_some a c : own_catalogue a = Some c -> c ∈ catalogues /\ text_bytes (ts_language c) = a.
Proof.
  unfold own_catalogue. destruct (filter _ catalogues) as [|c' l] eqn:Ef; [done|]. intros [= <-].
  assert (c' ∈ c' :: l) as Hin by constructor. rewrite <- Ef in Hin. by apply list_elem_of_filter in Hin as [? ?].
Qed.

Lemma own_catalogue_language : Forall (fun c => own_catalogue (text_bytes (ts_language c)) = Some c) catalogues.
Proof. repeat constructor. Qed.

Lemma plain_Qt_ok : @Qt_ok plain_Qt.
Proof.
  split.
  - cbn. intros a q [Hc <-]%own_catalogue_some. revert q Hc. apply Forall_forall. apply (bool_decide_unpack _). vm_compute. exact I.
  - cbn. unfold load_own. intros name q. rewrite decide_True by done. destruct (omap own_catalogue (tried_names name)) as [|c l] eqn:E; [done|].
    intros [= <-]. assert (c ∈ c :: l) as Hin by constructor. rewrite <- E in Hin. by apply list_elem_of_omap in Hin.
  - done.
  - intros qs q ctx src. cbn. rewrite fold_left_app. cbn. by destruct (search q ctx src).
Qed.

Lemma search_answers (c : TS) : @answers plain_Qt c c.
Proof.
  intros ctx src r H. cbn in H. unfold search in H.
  destruct (filter _ (entries c)) as [|[name m] l] eqn:Ef; [done|].
  assert ((name, m) ∈ (name, m) :: l) as Hin by constructor. rewrite <- Ef in Hin.
  apply list_elem_of_filter in Hin as [[Hn Hs] Hin]. cbn [fst snd] in *.
  destruct (translations m) as [|t ts] eqn:Et; [done|]. exists name, m, t. rewrite Et. repeat split; try done. constructor.
Qed.

(** ** Properties *)

(** C7: the formats of translated messages in Georgian, Japanese and Chinese.  Whatever
    Qt library finds resources and translations as documented, as long as the
    program's catalogues "ka", "ja" and "zh_CN" answer with their entries and Qt's own
    do not know the core messages: for every locale for which the program loads no other
    of its 39 catalogues, the translation of a message the node formats with
    [strprintf] asks for exactly the arguments its source asks for, in the same order,
    and is valid UTF-8; without a connected interface the message stays as it is. *)
Theorem translated_formats_safe `{QTok : Qt_ok} (lang_territory psz : list byte) (args : list (list byte)) :
  modelled_locale lang_territory = true ->
  (forall c q, c ∈ catalogues -> resource (text_bytes (ts_language c)) = Some q -> answers q c) ->
  (forall name q src, QTranslator_load name TranslationsPath = Some q ->
     QTranslator_translate q (str "bitcoin-core") src = None) ->
  printf_args psz = Some args -> utf8 psz = true ->
  let shown := tr_ (Some (Translate (install_translators lang_territory))) psz in
  printf_args shown = Some args /\ utf8 shown = true /\ tr_ None psz = psz.
Proof.
  intros Hloc Hown Hqt Hp Hu shown. unfold shown. cbn [tr_].
  assert (forall name q, name = truncate_territory lang_territory \/ name = lang_territory ->
    QTranslator_load name (str ":/translations/") = Some q -> exists c, c ∈ catalogues /\ answers q c) as Hload.
  { intros name q Hn (a & Ha & Hq)%load_resource. pose proof (modelled_loads _ _ _ _ Hloc Hn Ha Hq) as Hc.
    apply list_elem_of_fmap in Hc as (c & -> & Hc). exists c. split; [done|by apply Hown]. }
  assert (Forall harmless (install_translators lang_territory)) as HF.
  { apply Forall_forall. intros q Hq. apply list_elem_of_omap in Hq as (o & Ho & Eo). unfold id in Eo. subst o.
    rewrite !elem_of_cons in Ho. unfold harmless.
    destruct Ho as [E|[E|[E|[E|E%elem_of_nil]]]]; [right|right|left|left|done]; eauto. }
  by destruct (Translate_args _ psz args HF Hp Hu).
Qed.

Lemma translated_formats_safe_witness :
  let shown := @tr_ (Some (@Translate plain_Qt (@install_translators plain_Qt (str "ja_JP"))))
                 (str "An error occurred while setting up the RPC port %u for listening on IPv4: %s") in
  printf_args shown = Some [str "u"; str "s"] /\ shown <> str "An error occurred while setting up the RPC port %u for listening on IPv4: %s".
Proof.
  cbv zeta. split; [|vm_compute; discriminate].
  apply (@translated_formats_safe plain_Qt plain_Qt_ok (str "ja_JP") (str "An error occurred while setting up the RPC port %u for listening on IPv4: %s") [str "u"; str "s"]).
  - vm_compute. reflexivity.
  - intros c q Hc Hq. cbn in Hq. pose proof own_catalogue_language as HF. rewrite Forall_forall in HF. rewrite (HF _ Hc) in Hq.
    injection Hq as <-. apply search_answers.
  - intros name q src H. cbn in H. unfold load_own in H. by rewrite decide_False in H.
  - vm_compute. reflexivity.
  - vm_compute. reflexivity.
Defined.

(** The locales the theorem is about, and some it is not about. *)
Example modelled_locales :
  map modelled_locale (map text_bytes ["ka_GE"; "ka"; "ja_JP"; "ja"; "zh_CN"; "zh_HK"; "is_IS"; "C"]) = repeat true 8 /\
  map modelled_locale (map text_bytes ["de_DE"; "fa_IR"; "ro_RO"; "cs_CZ"; "en_US"]) = repeat false 5.
Proof. vm_compute. split; reflexivity. Qed.

(** Formats of other catalogues that do not fit their sources: of the Romanian, the Czech and
    the Persian one. *)
Definition other_formats : list (text * text) := [
  ("Cannot obtain a lock on data directory %s.  MotaCoin is probably already running.",
   "Nu se poate obtine un lock pe directorul de date &amp;s. Blackoin probabil ruleaza deja.");
  ("An error occurred while setting up the RPC port %u for listening on IPv4: %s",
   "Při nastavování naslouchacího RPC portu %i pro IPv4 nastala chyba: %s");
  ("You must set rpcpassword=&lt;password&gt; in the configuration file:
%s
If the file does not exist, create it with owner-readable-only file permissions.",
   "%s، شما باید یک rpcpassword  را در فایل پیکربندی تنظیم کنید :⏎%s⏎ اگر فایل ایجاد نشد، یک فایل فقط متنی ایجاد کنید.
")].

Example other_formats_differ :
  map (fun p => (unescape (fst p) ≫= printf_args, unescape (snd p) ≫= printf_args)) other_formats =
  [(Some [str "s"], Some []); (Some [str "u"; str "s"], Some [str "i"; str "s"]); (Some [str "s"], Some [str "s"; str "s"])].
Proof. vm_compute. reflexivity. Qed.

(** The three catalogues fit together: each has the same 623 messages in the same
    order, with the same plural marks and locations, no message twice in a context
    (so a lookup has one answer), and every text is valid UTF-8 with all its special
    characters escaped; the Japanese and Chinese catalogues translate every message,
    the Georgian one 395. *)
Theorem catalogues_aligned :
  Forall (fun c => length (entries c) = 623%nat /\ NoDup (map key (entries c)) /\
    map (fun e => (key e, msg_numerus (snd e), msg_locs (snd e))) (entries c) =
    map (fun e => (key e, msg_numerus (snd e), msg_locs (snd e))) (entries bitcoin_ka) /\
    Forall (fun t => utf8 (text_bytes t) = true /\ exists l, unescape t = Some l /\ escape l = t) (flat_map texts (entries c)))
    catalogues /\
  map (fun c => length (filter (fun e => translations (snd e) <> []) (entries c))) catalogues = [395; 623; 623]%nat.
Proof.
  split; [|vm_compute; reflexivity].
  assert (forallb (fun c => forallb text_ok (flat_map texts (entries c))) catalogues = true) as HT by (vm_compute; reflexivity).
  rewrite forallb_forall in HT. apply Forall_forall. intros c Hc.
  assert (forallb (fun c => bool_decide (length (entries c) = 623%nat /\ NoDup (map key (entries c)) /\
    map (fun e => (key e, msg_numerus (snd e), msg_locs (snd e))) (entries c) =
    map (fun e => (key e, msg_numerus (snd e), msg_locs (snd e))) (entries bitcoin_ka))) catalogues = true) as HA
    by (vm_compute; reflexivity).
  rewrite forallb_forall in HA. apply list_elem_of_In in Hc. specialize (HA _ Hc). specialize (HT _ Hc).
  apply bool_decide_eq_true in HA as (H1 & H2 & H3). repeat split; try done.
  apply Forall_forall. intros t Ht. apply list_elem_of_In in Ht. rewrite forallb_forall in HT. specialize (HT _ Ht).
  by apply text_ok_spec.
Qed.

(** The Georgian text of this message has lost the amount of the fee. *)
Definition lost_marker : text * text :=
  ("SendCoinsDialog", "The total exceeds your balance when the %1 transaction fee is included.").

(** Place markers in the three catalogues.  A translation has the markers of its source,
    each as often, so [QString::arg] fills in every value; one Georgian message is the
    exception. *)
Theorem place_markers_kept :
  Forall (fun c => every_translation c (fun n m s u =>
    if bool_decide (ts_language c = "ka" /\ (n, msg_source m) = lost_marker) then markers s = [1] /\ markers u = []
    else markers s ≡ₚ markers u)) catalogues.
Proof.
  apply (check_catalogues (fun c n m s u =>
    if bool_decide (ts_language c = "ka" /\ (n, msg_source m) = lost_marker) then bool_decide (markers s = [1] /\ markers u = [])
    else bool_decide (markers s ≡ₚ markers u))).
  - intros c n m s u _. by case_bool_decide; intros ?%bool_decide_eq_true.
  - vm_compute. reflexivity.
Qed.

(** The translations whose tags do not nest. *)
Definition broken_tags : list (text * (text * text)) := [
  ("ja", ("AskPassphraseDialog",
    "Warning: If you encrypt your wallet and lose your passphrase, you will &lt;b&gt;LOSE ALL OF YOUR COINS&lt;/b&gt;!"));
  ("zh_CN", ("AskPassphraseDialog",
    "Enter the new passphrase to the wallet.&lt;br/&gt;Please use a passphrase of &lt;b&gt;10 or more random characters&lt;/b&gt;, or &lt;b&gt;eight or more words&lt;/b&gt;."))].

(** Rich text.  Outside the core messages the tags of a source and of its
    translation nest properly, but for one Japanese and one Chinese message, where
    they do not. *)
Theorem rich_text_balanced :
  Forall (fun c => every_translation c (fun n m s u => n <> core ->
    balanced s = true /\ balanced u = negb (bool_decide ((ts_language c, (n, msg_source m)) ∈ broken_tags)))) catalogues.
Proof.
  apply (check_catalogues (fun c n m s u => bool_decide (n = core) || (balanced s &&
    Bool.eqb (balanced u) (negb (bool_decide ((ts_language c, (n, msg_source m)) ∈ broken_tags)))))%bool).
  - intros c n m s u _ H Hn. rewrite bool_decide_false in H by done. apply andb_true_iff in H as [H1 H2]. apply Bool.eqb_prop in H2. by rewrite H2.
  - vm_compute. reflexivity.
Qed.
